(* ===== verification/_CoqProject ===== *)
-Q . S2P
Prelude.v
RustStr.v
Floats.v
Deku.v
Hdlc.v
DiagLog.v
Diag.v
Gsmtap.v
GsmtapMac.v
GsmtapParser.v
LteRrc.v
InformationElement.v
Analyzer.v
Pcap.v
FlashCatch.v
Plmn.v
ImsiRequested.v
NoNas.v
TimingAdvance.v
Detectors.v
Priority2g.v
Rrlp.v
Lpp.v
LppGrammar.v
LppDetectors.v
Qmdl.v
Config.v
Glob.v
Mac.v
Observation.v
Signature.v
Scan.v
UserRules.v
Persistence.v
Evidence.v
Filesystem.v
Sidecar.v
Store.v
StoreSafety.v
Recovery.v
SubscriberId.v
CellInfo.v
Cleanup.v
AnalysisTask.v
Gps.v
Export.v
Storage.v
Tls.v
Buttons.v
DiagDevice.v
Webdav.v
Notifications.v
Battery.v
Update.v
Mdns.v
Survey.v
DiagTask.v
WebAuth.v
Pairing.v
StepUp.v
Access.v
Qr.v
Framebuffer.v
Panels.v
Frontdoor.v
PacketExplorer.v
Hardware.v
Stats.v
Handlers.v
DiagRead.v
Demo.v
Listeners.v
Sim.v
Check.v
Installer.v
Telnet.v
DataDir.v
