(* ===== verification/Prelude.v ===== *)
(** * Rayhunter: a verification development

    Rayhunter is a Rust program for mobile hotspots that looks for fake base stations.  The daemon
    reads the modem's diag interface, stores what it reads in recordings, runs detectors over it, and
    shows its findings on the unit's screen and over a web interface.  This development models the code
    under [src/] and proves what it promises.

    ** From the modem to a warning

    A diag container is split into HDLC frames, a frame is parsed into a log record, a record becomes GSMTAP
    frames, a frame becomes an information element, and the harness hands each element to every
    detector; a packet's row holds one slot per detector.

    - [DiagDevice]: [lib/src/diag_device.rs], opening the device, its reads, the log configuration.
    - [Hdlc]: [lib/src/hdlc.rs].  [Diag], [DiagLog]: [lib/src/diag], containers, messages, records; [DiagRead]: the
      layouts of their bytes, as readers.
    - [Deku]: the bit writer the layouts are written over.  [Gsmtap], [GsmtapMac], [GsmtapParser]:
      [lib/src/gsmtap], the header on the wire and the conversion of each record ([parse] for the
      analysis, [parse_all] for captures).
    - [InformationElement], [LteRrc]: the decoded element as far as detectors read it.
    - [Analyzer]: the [Analyzer] trait as a type class, the harness, its rows; [Config]: which
      detectors a configuration runs.
    - Detectors: [FlashCatch], [ImsiRequested] with [Plmn], [NoNas], [TimingAdvance], [Priority2g],
      [Rrlp], [Detectors] (those that keep no state), [Lpp] and [LppGrammar] (the decoder and its grammar),
      [LppDetectors].

    Theorems: framing is undone by unframing; a container's entries are its frames; every packet gets one
    row, numbered on; slot [k] of the harness's rows is what the [k]-th detector would say alone; FlashCatch
    finds the attack it is for and is High only when an identity was taken; each detector's severity as
    a function of the run; the LPP decoders accept exactly the grammar; a capture analysed again gives the live result;
    what the readers make of any bytes is a message whose fields are in their ranges.

    ** Recordings

    - [Filesystem]: a directory whose operations may fail at any point, under a schedule that statements
      quantify over; the failure of everything from some point on is a crash.
    - [Store], [StoreSafety], [Recovery]: [daemon/src/qmdl_store.rs], its safety, and the rebuilding
      of a lost manifest.  [Sidecar]: [recording_metadata.rs] of both crates.
    - [Qmdl]: [lib/src/qmdl.rs].  [Pcap]: [lib/src/pcap.rs].
    - [Gps], [Export], [SubscriberId]: [daemon/src/gps.rs], [pcap.rs], [redact.rs], [subscriber_id.rs]: the
      download of a capture, with positions, and redacted.
    - [Cleanup]: [daemon/src/cleanup.rs].  [AnalysisTask]: the queue of [daemon/src/analysis.rs] and
      its worker, with the lock and the bounded channel between them.
    - [Storage]: [daemon/src/storage.rs], the memory card: mounts, the test of the card, the monitor that moves
      recordings to it and back.
    - [Webdav]: [daemon/src/webdav.rs], the upload of finished recordings.
    - [CellInfo]: [cell_info.rs], [timing_advance.rs], [sim_health.rs].
    - [DiagTask]: [daemon/src/diag.rs], the thread that puts these together.
    - [PacketExplorer]: [packet_explorer.rs], a recording's packets and the texts of their fields.  [Handlers]:
      [server.rs], [config.rs], [export_metadata.rs], the handlers that keep settings, pictures and names, and the
      archives of recordings.  [Demo]: [demo.rs], a container made up to show what a warning looks like.

    Theorems: the manifest on disk is never torn and no recording is lost or overwritten, under every
    schedule; only recordings whose report is clean are deleted to make room; what the modem said
    is what is in the recording and what a reader gets back; the display agrees with what the task
    does; a download holds every frame, and a redacted one tells subscribers apart by nothing; recordings go to the
    card exactly while it takes writes; a recording is deleted after an upload only if the server has all of it; saving the settings
    never loses them, and a shared archive holds nothing of what is redacted.

    ** Who may ask the unit for what

    - [WebAuth]: [web_auth.rs], passwords, sessions' paths, redirects, requests from other sites.
    - [Pairing], [StepUp]: [pairing.rs], [stepup.rs], which browsers are trusted, and the second gate
      before a terminal.
    - [Tls]: [tls.rs], the unit's own authority and the certificate in service.
    - [Listeners]: [main.rs], the addresses that are served, with or without TLS, and the watcher of the client's.
      [Frontdoor]: [frontdoor.rs], the address of its own with the standard ports.
    - [Access]: the middleware and the handlers ([web_auth.rs], [main.rs], [server.rs]), one request a step.

    Theorems: whatever is asked in whatever order, a browser is let in only after a proof of possession
    or of the passphrase, and a terminal opens only after both a passphrase and a code or press at the unit;
    guesses one after another are slowed; keys are derived as RFC 8018 says;
    whatever a start finds on disk there is a certificate, and a stored authority is not lost; only loopback
    is served without TLS, and an address that is gone is not served; a front door that fails leaves nothing behind.

    ** The radio crate

    - [Mac], [Glob], [Observation], [Signature], [UserRules], [Scan], [Persistence], [Evidence]:
      [radio/src], addresses, patterns, signatures and their log, the scan's text, and who follows the unit.
    - [Survey]: [daemon/src/wifi_survey.rs], which puts these together: a scan's entries with their alerts, and the
      stored rules.

    Theorems: matching is exact; an enabled rule whose criteria hold for an access point in the text of a scan is
    among its alerts; rules that were accepted are the ones in force, and others change nothing.

    ** The unit

    - [Qr]: [daemon/src/display/qr.rs]: a code on the screen can be scanned, and its caption read.
    - [Buttons]: [key_input.rs], [wifi_ap.rs], [display/mod.rs]: the gestures of the buttons, and what is drawn when.
    - [Notifications], [Battery], [Update]: [notifications.rs], [battery], [update.rs]: the worker that sends messages,
      and two of those that write them.
    - [Mdns]: [mdns.rs]: questions for the unit's name, and the answers.
    - [Framebuffer], [Panels]: [generic_framebuffer.rs] with the screens it draws on ([orbic.rs], [wingtech.rs],
      [tplink_framebuffer.rs]), and the units with lights or a one-bit screen.
    - [Hardware], [Stats], [Sim]: [hardware.rs], [adb_control.rs], [single_instance.rs], [stats.rs] and [lib/src/sim]: what
      the unit says of itself, and the home network its card names.

    Theorems: a gesture is a window over the presses; messages are spaced, genuine and retried; one warning for
    each time the battery runs down, and one message for each new version; a query's questions are read back;
    the state that was told last is the one shown; the home networks are those of the card's records, however the answer arrives.

    ** On a computer

    - [Check]: [check/src]: the analysis of captures, their conversion, and the JSON file of the reports.
    - [Installer]: [installer/src/connection.rs]: one setting put into a configuration file, and the file an installation leaves.
      [DataDir]: the same file, where the recordings live and how they move.  [Telnet]: [util.rs], [persist_adb.rs],
      [orbic_auth.rs]: the output of a command, the commands for ADB, the scrambling of a password.

    Theorems: a report has everything the harness said; the JSON file is whole; setting a key is the update of a map; the
    terminal is on exactly if it was asked for; recordings are where the link leads after a set-up that ends well (and
    where not: [recordings_nested], [failed_move_strands]); a command's output is what came between its markers.

    ** Conventions

    Integers are [Z] with the wrap-around written out ([wrapu]), or the reasons it cannot happen are
    hypotheses ([in_u]).  Text is a list of code points ([RustStr]); floats are [SpecFloat]'s binary32 and
    binary64 ([Floats]), so that they evaluate.  Fallible code returns [result]; code that may panic returns an
    [option].  Stateful code passes its state, or is a step relation or a small monad, always with what
    is left behind by a failure.  Code of other crates, of the operating system and what a build
    generates is a class or an argument with its documented laws: the CRC, [deku]'s and [serde]'s
    readers and writers, the ASN.1 decoders, gzip, the pcapng encoding, HMAC and base64, the clock, the
    random source, [statvfs], the order in which a [HashMap] iterates.  Of [deku]'s readers [DiagRead] has the layouts in whole
    bytes, so that only the records of bit fields are left to the argument.  Counters that the code lets run over wrap, as in a release build.

    Fuel: [Qmdl]'s and [Export]'s loops need one more turn than there are bytes left, [Glob]'s one more than
    the product of the lengths, [Cleanup]'s and [Webdav]'s one more than there are recordings, [Mdns]'s one more than
    the bytes of the packet, [DiagDevice]'s one more than the reads, [Check]'s one more than the bytes of the recording; theorems say that
    this is enough.  [Sim]'s chunks and [Installer]'s replacement take as many turns as there are elements.

    A theorem with a number (C1, C2, ...) is one of the main properties; a lemma whose name ends in
    [_witness] applies it at a concrete input.  [Prelude] holds the shared notation, lemmas and hints.

    ** Not modelled

    - [telcom-parser], the 51,000 generated lines of ASN.1 types: [LteRrc] has the alternatives detectors read.
    - Of the daemon: [server.rs]'s other routes, [http_client.rs], [crypto_provider.rs], which hand bytes to [axum],
      [reqwest] and [rustls]; the spawning and shutting down of tasks in [main.rs]; [config.rs] as a [serde] record,
      but for its checks; [display/headless.rs].
    - Of the installer: the sequences of requests to each vendor's device (orbic, tplink, wingtech, tmobile, uz801, pinephone,
      moxee), transfers of files, USB, and its window ([installer-gui]).
    - [rootshell], the radio crate's probe, tests, the scripts and the web interface: one [exec], a report, or not Rust. *)

From stdpp Require Export base tactics option list numbers gmap strings pretty.
From Stdlib Require Export ZArith Lia.

#[export] Set Default Goal Selector "!".

(** ** Results: Rust's [Result<A, E>] *)

Inductive result (E A : Type) : Type :=
| Ok (a : A)
| Err (e : E).
Arguments Ok {E A} a.
Arguments Err {E A} e.

#[export] Instance result_ret E : MRet (result E) := fun A a => Ok a.
#[export] Instance result_bind E : MBind (result E) :=
  fun A B f m => match m with Ok a => f a | Err e => Err e end.
#[export] Instance result_fmap E : FMap (result E) :=
  fun A B f m => match m with Ok a => Ok (f a) | Err e => Err e end.

#[export] Instance result_eq_dec E A `{EqDecision E, EqDecision A} : EqDecision (result E A).
Proof. solve_decision. Defined.

Definition map_err {E F A} (f : E -> F) (m : result E A) : result F A :=
  match m with Ok a => Ok a | Err e => Err (f e) end.

Definition ok_or {E A} (e : E) (o : option A) : result E A :=
  match o with Some a => Ok a | None => Err e end.

Definition result_ok {E A} (m : result E A) : option A :=
  match m with Ok a => Some a | Err _ => None end.

Definition is_ok {E A} (m : result E A) : bool :=
  match m with Ok _ => true | Err _ => false end.

(** Rust's [iter.map(f).collect::<Result<Vec<_>, _>>()]: the first error wins. *)
Fixpoint collect_result {E A B} (f : A -> result E B) (l : list A) : result E (list B) :=
  match l with
  | [] => Ok []
  | x :: l' =>
      match f x with
      | Err e => Err e
      | Ok y => match collect_result f l' with
                | Err e => Err e
                | Ok ys => Ok (y :: ys)
                end
      end
  end.

(** ** Machine integers

    A [w]-bit unsigned integer is a [Z]; [wrapu w] is the truncation an [as] cast
    to it performs. *)

Local Open Scope Z_scope.

Definition in_u (w z : Z) : Prop := 0 <= z < 2 ^ w.
Definition in_ub (w z : Z) : bool := (0 <=? z) && (z <? 2 ^ w).
Definition wrapu (w z : Z) : Z := z mod 2 ^ w.
Abbreviation is_u8 := (in_u 8).
Abbreviation is_u16 := (in_u 16).
Abbreviation is_u32 := (in_u 32).
Abbreviation is_u64 := (in_u 64).
Definition bytes_ok (l : list Z) : Prop := Forall (in_u 8) l.

(** [saturating_add] and [saturating_sub] on an unsigned type of [w] bits. *)
Definition sat_addu (w a b : Z) : Z := Z.min (a + b) (2 ^ w - 1).
Definition sat_subu (a b : Z) : Z := Z.max 0 (a - b).

Lemma bytes_ok_snoc l b : bytes_ok l -> in_u 8 b -> bytes_ok (l ++ [b]).
Proof. intros Hl Hb. apply Forall_app_2; [done|]. by apply Forall_singleton. Qed.

Lemma in_ub_spec w z : in_ub w z = true <-> in_u w z.
Proof. unfold in_ub, in_u. rewrite andb_true_iff, Z.leb_le, Z.ltb_lt. lia. Qed.

Lemma wrapu_in_u w z : 0 <= w -> in_u w (wrapu w z).
Proof. intros. apply Z.mod_pos_bound. lia. Qed.

Lemma wrapu_id w z : in_u w z -> wrapu w z = z.
Proof. apply Z.mod_small. Qed.

(** Little- and big-endian byte splitting ([to_le_bytes], [to_be_bytes]). *)
Fixpoint le_bytes (n : nat) (z : Z) : list Z :=
  match n with
  | O => []
  | S n' => z mod 256 :: le_bytes n' (z / 256)
  end.
Fixpoint le_value (l : list Z) : Z :=
  match l with
  | [] => 0
  | b :: l' => b + 256 * le_value l'
  end.
Definition be_bytes (n : nat) (z : Z) : list Z := rev (le_bytes n z).
Definition be_value (l : list Z) : Z := le_value (rev l).

(** Or-ing disjoint fields together is adding them. *)
Lemma lor_shiftl hi lo k : 0 <= k -> 0 <= lo < 2 ^ k -> Z.lor (Z.shiftl hi k) lo = hi * 2 ^ k + lo.
Proof.
  intros Hk Hlo. rewrite <- Z.lxor_lor, <- Z.add_nocarry_lxor.
  - by rewrite Z.shiftl_mul_pow2.
  - apply Z.bits_inj'. intros n Hn. rewrite Z.land_spec, Z.bits_0.
    destruct (Z.lt_ge_cases n k).
    + by rewrite Z.shiftl_spec_low.
    + replace lo with (lo mod 2 ^ k) by (by apply Z.mod_small).
      by rewrite Z.mod_pow2_bits_high, andb_false_r by lia.
  - apply Z.bits_inj'. intros n Hn. rewrite Z.land_spec, Z.bits_0.
    destruct (Z.lt_ge_cases n k).
    + by rewrite Z.shiftl_spec_low.
    + replace lo with (lo mod 2 ^ k) by (by apply Z.mod_small).
      by rewrite Z.mod_pow2_bits_high, andb_false_r by lia.
Qed.

(** A concrete byte string is well formed when the boolean test says so. *)
Lemma bytes_okb l : forallb (in_ub 8) l = true -> bytes_ok l.
Proof.
  rewrite forallb_forall. intros H. apply List.Forall_forall. intros x Hx.
  by apply in_ub_spec, H.
Qed.

(** A decidable fact about every byte is checked by evaluation. *)
Lemma byte_cases (P : Z -> bool) :
  forallb P (seqZ 0 256) = true -> forall v, in_u 8 v -> P v = true.
Proof.
  rewrite forallb_forall. intros H v Hv. apply H, list_elem_of_In, elem_of_seqZ. exact Hv.
Qed.

Lemma le_bytes_length n z : length (le_bytes n z) = n.
Proof. revert z; induction n; intros; simpl; [done | by rewrite IHn]. Qed.

Lemma le_bytes_ok n z : bytes_ok (le_bytes n z).
Proof.
  revert z; induction n; intros; simpl; constructor; [|apply IHn].
  unfold in_u. apply Z.mod_pos_bound. lia.
Qed.

Lemma le_value_bytes n z : le_value (le_bytes n z) = z mod 256 ^ Z.of_nat n.
Proof.
  revert z; induction n as [|n IH]; intros z.
  - by rewrite Z.pow_0_r, Z.mod_1_r.
  - cbn [le_bytes le_value]. rewrite IH, Nat2Z.inj_succ, Z.pow_succ_r by lia.
    rewrite Z.rem_mul_r by lia. lia.
Qed.

Lemma le_bytes_value l : bytes_ok l -> le_bytes (length l) (le_value l) = l.
Proof.
  induction 1 as [|b l Hb _ IH]; [done|]. cbn [le_bytes le_value length].
  unfold in_u in Hb. replace (b + 256 * le_value l) with (b + le_value l * 256) by lia.
  rewrite Z.mod_add, Z.div_add, Z.mod_small, Z.div_small, Z.add_0_l by lia.
  by rewrite IH.
Qed.

Lemma be_bytes_length n z : length (be_bytes n z) = n.
Proof. unfold be_bytes. by rewrite length_rev, le_bytes_length. Qed.

Lemma be_value_bytes n z : be_value (be_bytes n z) = z mod 256 ^ Z.of_nat n.
Proof. unfold be_value, be_bytes. by rewrite rev_involutive, le_value_bytes. Qed.

Lemma be_bytes_ok n z : bytes_ok (be_bytes n z).
Proof. unfold be_bytes, bytes_ok. apply Forall_rev, le_bytes_ok. Qed.

(** ** Automation shared by the components *)

(** Turn the boolean comparisons of the hypotheses and the goal into propositions. *)
Ltac zbool :=
  repeat match goal with
  | H : _ && _ = true |- _ => apply andb_true_iff in H as [? ?]
  | H : _ || _ = false |- _ => apply orb_false_iff in H as [? ?]
  | H : negb _ = true |- _ => apply negb_true_iff in H
  | H : negb _ = false |- _ => apply negb_false_iff in H
  | H : (_ =? _) = true |- _ => apply Z.eqb_eq in H
  | H : (_ =? _) = false |- _ => apply Z.eqb_neq in H
  | H : (_ <? _) = true |- _ => apply Z.ltb_lt in H
  | H : (_ <? _) = false |- _ => apply Z.ltb_ge in H
  | H : (_ <=? _) = true |- _ => apply Z.leb_le in H
  | H : (_ <=? _) = false |- _ => apply Z.leb_gt in H
  end.

(** Case analysis on the integer tests of the goal. *)
Ltac ztest :=
  match goal with
  | |- context [?a =? ?b] => destruct (Z.eqb_spec a b)
  | |- context [?a <? ?b] => destruct (Z.ltb_spec a b)
  | |- context [?a <=? ?b] => destruct (Z.leb_spec a b)
  end.

(** Evaluate powers of two, then linear arithmetic with division and remainder. *)
Ltac pow_const := repeat match goal with
  | |- context [2 ^ Z.pos ?k] =>
      let x := eval vm_compute in (2 ^ Z.pos k) in change (2 ^ Z.pos k) with x
  | H : context [2 ^ Z.pos ?k] |- _ =>
      let x := eval vm_compute in (2 ^ Z.pos k) in change (2 ^ Z.pos k) with x in H
  end.
Ltac dlia := pow_const; Z.div_mod_to_equations; lia.

(** Prove two literal lists equal element by element. *)
Ltac cons_eq tac := repeat (apply (f_equal2 cons); [solve [tac]|]); try reflexivity.

(** Prove [Forall P] of a literal list, and take apart such a hypothesis. *)
Ltac forall_list tac := repeat (apply Forall_cons; split; [solve [tac]|]); try apply Forall_nil_2.
Ltac forall_inv := repeat match goal with H : Forall _ (_ :: _) |- _ => apply Forall_cons in H as [? H] end.

Create HintDb rayhunter discriminated.
#[export] Hint Resolve le_bytes_ok be_bytes_ok wrapu_in_u : rayhunter.
Create Rewrite HintDb rayhunter_rw.
#[export] Hint Rewrite @le_bytes_length be_bytes_length : rayhunter_rw.

(** ** Lists *)

Lemma collect_result_ok {E A B} (f : A -> result E B) l ys :
  collect_result f l = Ok ys <-> Forall2 (fun x y => f x = Ok y) l ys.
Proof.
  revert ys; induction l as [|x l IH]; intros ys; simpl.
  - split; [intros [= <-]; constructor | intros H; by inversion H].
  - destruct (f x) as [y|e] eqn:Hf.
    + destruct (collect_result f l) as [zs|e] eqn:Hc.
      * split.
        -- intros [= <-]. constructor; [done|]. by apply IH.
        -- intros H; inversion H as [|? y' ? ys' Hy Hys]; subst.
           apply IH in Hys. congruence.
      * split; [done|]. intros H; inversion H as [|? y' ? ys' Hy Hys]; subst.
        apply IH in Hys. congruence.
    + split; [done|]. intros H; inversion H; congruence.
Qed.

Lemma Forall_flat_map {A B} (P : B -> Prop) (f : A -> list B) l :
  (forall x, x ∈ l -> Forall P (f x)) -> Forall P (flat_map f l).
Proof.
  induction l as [|x l IH]; intros Hf; simpl; [constructor|].
  apply Forall_app; split; [apply Hf; by left | apply IH; intros y Hy; apply Hf; by right].
Qed.

Lemma find_app {A} (p : A -> bool) l r :
  List.find p (l ++ r) = match List.find p l with Some x => Some x | None => List.find p r end.
Proof. induction l as [|x l IH]; cbn [List.find app]; [done|]. by destruct (p x). Qed.

Lemma last_default {A} (l : list A) d d' : l <> [] -> List.last l d = List.last l d'.
Proof.
  induction l as [|a l IH]; [done|]. intros _. destruct l as [|b l]; [done|]. by apply IH.
Qed.

Lemma Forall_replicate_eq {A} (l : list A) x : Forall (fun y => y = x) l -> l = replicate (length l) x.
Proof. induction 1; simpl; congruence. Qed.
