(* ===== verification/RustStr.v ===== *)
(** * Strings

    A Rust [str] is a sequence of Unicode scalar values; it is modelled as the list of
    their code points ([rstr]).  This file models the operations of the standard library
    the program applies to strings: [trim], [lines], [split], [strip_prefix],
    [contains], [char::to_digit], the decimal and hexadecimal formatting of integers,
    [str::parse] at the integer types, [String::from_utf8_lossy] and UTF-8 encoding. *)

From S2P Require Import Prelude.

Local Open Scope Z_scope.

Abbreviation rchar := Z.
Abbreviation rstr := (list Z).

(** A string literal of the source (ASCII). *)
Definition lit (s : string) : rstr :=
  map (fun a => Z.of_N (Ascii.N_of_ascii a)) (String.list_ascii_of_string s).

Definition in_range (lo hi c : Z) : bool := (lo <=? c) && (c <=? hi).

(** The Unicode [White_Space] property, used by [char::is_whitespace] and [trim]. *)
Definition is_whitespace (c : rchar) : bool :=
  in_range 9 13 c || (c =? 32) || (c =? 0x85) || (c =? 0xa0) || (c =? 0x1680)
  || in_range 0x2000 0x200a c || (c =? 0x2028) || (c =? 0x2029) || (c =? 0x202f)
  || (c =? 0x205f) || (c =? 0x3000).

(** [char::is_control]: general category Cc. *)
Definition is_control (c : rchar) : bool := in_range 0 31 c || in_range 127 159 c.

Definition is_ascii_digit (c : rchar) : bool := in_range 48 57 c.
Definition is_ascii_alphanumeric (c : rchar) : bool :=
  in_range 48 57 c || in_range 65 90 c || in_range 97 122 c.
Definition is_ascii_whitespace (c : rchar) : bool :=
  (c =? 32) || (c =? 9) || (c =? 10) || (c =? 12) || (c =? 13).
Definition to_ascii_lowercase (c : rchar) : rchar := if in_range 65 90 c then c + 32 else c.

(** [str::eq_ignore_ascii_case]. *)
Definition eq_ignore_ascii_case (a b : rstr) : bool :=
  bool_decide (map to_ascii_lowercase a = map to_ascii_lowercase b).

(** [char::to_digit(16)]. *)
Definition to_digit16 (c : rchar) : option Z :=
  if in_range 48 57 c then Some (c - 48)
  else if in_range 97 102 c then Some (c - 87)
  else if in_range 65 70 c then Some (c - 55)
  else None.

(** The lower-case hexadecimal digit of [0 <= d < 16]. *)
Definition hex_digit (d : Z) : rchar := if d <? 10 then 48 + d else 87 + d.

(** [format!("{:02x}", b)] for a byte, [format!("{:x}", d)] for a nibble, and the
    zero-padded form of [n] digits ([format!("{:016x}", v)] with [n = 16]). *)
Definition fmt_02x (b : Z) : rstr := [hex_digit (b / 16); hex_digit (b mod 16)].
Definition fmt_x1 (d : Z) : rstr := [hex_digit d].
Fixpoint fmt_hex_fixed (n : nat) (v : Z) : rstr :=
  match n with
  | O => []
  | S n' => fmt_hex_fixed n' (v / 16) ++ [hex_digit (v mod 16)]
  end.

(** [format!("{}", z)] for an integer. *)
Definition dec (z : Z) : rstr := lit (pretty z).

(** ** Trimming, splitting, searching *)

Fixpoint trim_start_by (p : rchar -> bool) (s : rstr) : rstr :=
  match s with
  | [] => []
  | c :: s' => if p c then trim_start_by p s' else s
  end.
Definition trim_end_by (p : rchar -> bool) (s : rstr) : rstr := rev (trim_start_by p (rev s)).
Definition trim_by (p : rchar -> bool) (s : rstr) : rstr := trim_end_by p (trim_start_by p s).
Definition trim : rstr -> rstr := trim_by is_whitespace.
Definition trim_matches (c : rchar) : rstr -> rstr := trim_by (fun x => x =? c).

Fixpoint strip_prefix (p s : rstr) : option rstr :=
  match p, s with
  | [], _ => Some s
  | a :: p', b :: s' => if a =? b then strip_prefix p' s' else None
  | _ :: _, [] => None
  end.
Definition starts_with (s p : rstr) : bool := bool_decide (is_Some (strip_prefix p s)).
Definition strip_suffix (p s : rstr) : option rstr :=
  match strip_prefix (rev p) (rev s) with Some r => Some (rev r) | None => None end.
Definition ends_with (s p : rstr) : bool := bool_decide (is_Some (strip_suffix p s)).

(** [str::contains] of a substring: it starts at some position of [s]. *)
Fixpoint contains (s sub : rstr) : bool :=
  starts_with s sub || match s with [] => false | _ :: s' => contains s' sub end.

(** [str::split(c)]: always at least one piece. *)
Fixpoint split_on (c : rchar) (s : rstr) : list rstr :=
  match s with
  | [] => [[]]
  | x :: s' =>
      if x =? c then [] :: split_on c s'
      else match split_on c s' with
           | [] => [[x]]
           | w :: ws => (x :: w) :: ws
           end
  end.

(** [slice::split_inclusive(|b| b == c)]: every piece keeps its delimiter and a
    trailing delimiter is not followed by an empty piece. *)
Fixpoint split_inclusive (c : Z) (s : list Z) : list (list Z) :=
  match s with
  | [] => []
  | x :: s' =>
      if x =? c then [x] :: split_inclusive c s'
      else match split_inclusive c s' with
           | [] => [[x]]
           | w :: ws => (x :: w) :: ws
           end
  end.

(** [str::lines]: pieces end at a line feed; a carriage return before the line feed
    belongs to the line ending. *)
Definition line_of_piece (p : rstr) : rstr :=
  match strip_suffix [10] p with
  | None => p
  | Some l => match strip_suffix [13] l with Some l' => l' | None => l end
  end.
Definition lines (s : rstr) : list rstr := map line_of_piece (split_inclusive 10 s).

(** [str::split_whitespace]. *)
Fixpoint split_by (p : rchar -> bool) (s : rstr) : list rstr :=
  match s with
  | [] => [[]]
  | x :: s' =>
      if p x then [] :: split_by p s'
      else match split_by p s' with
           | [] => [[x]]
           | w :: ws => (x :: w) :: ws
           end
  end.
Definition split_whitespace (s : rstr) : list rstr :=
  filter (fun w => w <> []) (split_by is_whitespace s).

(** [slice::join(sep)]. *)
Fixpoint join (sep : rstr) (l : list rstr) : rstr :=
  match l with
  | [] => []
  | [x] => x
  | x :: l' => x ++ sep ++ join sep l'
  end.

(** [str::parse::<uN>()]: an optional plus sign, at least one decimal digit, no overflow. *)
Fixpoint parse_digits (acc : Z) (s : rstr) : option Z :=
  match s with
  | [] => Some acc
  | c :: s' => if is_ascii_digit c then parse_digits (10 * acc + (c - 48)) s' else None
  end.
Definition parse_unsigned (w : Z) (s : rstr) : option Z :=
  let body := match s with c :: s' => if c =? 43 then s' else s | [] => [] end in
  match body with
  | [] => None
  | _ :: _ => match parse_digits 0 body with
              | Some v => if v <? 2 ^ w then Some v else None
              | None => None
              end
  end.

(** [str::parse::<i64>()]. *)
Definition parse_i64 (s : rstr) : option Z :=
  let '(neg, body) := match s with
                      | c :: s' => if c =? 45 then (true, s') else if c =? 43 then (false, s') else (false, s)
                      | [] => (false, s)
                      end in
  match body with
  | [] => None
  | _ :: _ => match parse_digits 0 body with
              | Some v => let v := if neg then - v else v in
                          if (- 2 ^ 63 <=? v) && (v <? 2 ^ 63) then Some v else None
              | None => None
              end
  end.

(** [str::trim_end_matches(pat)]: the suffix is stripped as often as it is there. *)
Fixpoint trim_end_matches_fuel (fuel : nat) (pat s : rstr) : rstr :=
  match fuel with
  | O => s
  | S fuel => match strip_suffix pat s with Some r => trim_end_matches_fuel fuel pat r | None => s end
  end.
(** A non-empty pattern shortens the text, so its length is fuel enough. *)
Definition trim_end_matches (pat s : rstr) : rstr := trim_end_matches_fuel (length s) pat s.

(** ** UTF-8 *)

(** [char::encode_utf8]. *)
Definition utf8_char (c : rchar) : list Z :=
  if c <? 0x80 then [c]
  else if c <? 0x800 then [0xc0 + c / 64; 0x80 + c mod 64]
  else if c <? 0x10000 then [0xe0 + c / 4096; 0x80 + (c / 64) mod 64; 0x80 + c mod 64]
  else [0xf0 + c / 262144; 0x80 + (c / 4096) mod 64; 0x80 + (c / 64) mod 64; 0x80 + c mod 64].

(** [str::as_bytes]; [str::len] is the number of those bytes. *)
Definition as_bytes (s : rstr) : list Z := flat_map utf8_char s.
Definition str_len (s : rstr) : Z := Z.of_nat (length (as_bytes s)).

Definition is_cont (b : Z) : bool := in_range 0x80 0xbf b.

(** One step of the decoder behind [String::from_utf8_lossy]: the character the input
    begins with (U+FFFD for a maximal invalid prefix) and what is left. *)
Definition utf8_decode_step (b : Z) (rest : list Z) : rchar * list Z :=
  let bad := 0xfffd in
  if b <? 0x80 then (b, rest)
  else if in_range 0xc2 0xdf b then
    match rest with
    | b1 :: r1 => if is_cont b1 then ((b - 0xc0) * 64 + (b1 - 0x80), r1) else (bad, rest)
    | [] => (bad, rest)
    end
  else if in_range 0xe0 0xef b then
    match rest with
    | b1 :: r1 =>
        let ok := if b =? 0xe0 then in_range 0xa0 0xbf b1
                  else if b =? 0xed then in_range 0x80 0x9f b1
                  else is_cont b1 in
        if ok then
          match r1 with
          | b2 :: r2 => if is_cont b2
                        then ((b - 0xe0) * 4096 + (b1 - 0x80) * 64 + (b2 - 0x80), r2)
                        else (bad, r1)
          | [] => (bad, r1)
          end
        else (bad, rest)
    | [] => (bad, rest)
    end
  else if in_range 0xf0 0xf4 b then
    match rest with
    | b1 :: r1 =>
        let ok := if b =? 0xf0 then in_range 0x90 0xbf b1
                  else if b =? 0xf4 then in_range 0x80 0x8f b1
                  else is_cont b1 in
        if ok then
          match r1 with
          | b2 :: r2 =>
              if is_cont b2 then
                match r2 with
                | b3 :: r3 =>
                    if is_cont b3
                    then ((b - 0xf0) * 262144 + (b1 - 0x80) * 4096 + (b2 - 0x80) * 64
                          + (b3 - 0x80), r3)
                    else (bad, r2)
                | [] => (bad, r2)
                end
              else (bad, r1)
          | [] => (bad, r1)
          end
        else (bad, rest)
    | [] => (bad, rest)
    end
  else (bad, rest).

Fixpoint utf8_lossy_fuel (fuel : nat) (bs : list Z) : rstr :=
  match fuel, bs with
  | S fuel', b :: rest =>
      let '(c, rest') := utf8_decode_step b rest in c :: utf8_lossy_fuel fuel' rest'
  | _, _ => []
  end.

(** Each step consumes a byte, so the length of the input is fuel enough. *)
Definition from_utf8_lossy (bs : list Z) : rstr := utf8_lossy_fuel (length bs) bs.

(** [String::from_utf8]: the bytes, when they are well-formed. *)
Definition from_utf8 (bs : list Z) : option rstr :=
  let s := from_utf8_lossy bs in if bool_decide (as_bytes s = bs) then Some s else None.

(** ** Lemmas *)

Lemma to_digit16_range c d : to_digit16 c = Some d -> 0 <= d < 16.
Proof.
  unfold to_digit16, in_range.
  repeat (case_match; zbool; intros; simplify_eq; try lia).
Qed.

Lemma to_digit16_hex_digit d : 0 <= d < 16 -> to_digit16 (hex_digit d) = Some d.
Proof.
  intros. unfold to_digit16, hex_digit, in_range.
  repeat ztest; simpl; try lia; f_equal; lia.
Qed.

Lemma fmt_hex_fixed_length n v : length (fmt_hex_fixed n v) = n.
Proof.
  revert v; induction n as [|n IH]; intros; simpl; [done|].
  rewrite length_app, IH. simpl. lia.
Qed.

Lemma starts_with_spec s p : starts_with s p = true <-> exists t, s = p ++ t.
Proof.
  unfold starts_with. rewrite bool_decide_eq_true. revert s.
  induction p as [|a p IH]; intros s; simpl.
  - split; [intros _; by exists s | intros _; by eexists].
  - destruct s as [|b s]; [split; [intros [? [=]] | intros [? [=]]]|].
    destruct (Z.eqb_spec a b) as [->|Hne].
    + rewrite IH. split; intros [t Ht]; exists t; [by rewrite Ht | by injection Ht].
    + split; [intros [? [=]] | intros [t Ht]; by injection Ht].
Qed.

Lemma contains_spec s sub : contains s sub = true <-> exists a b, s = a ++ sub ++ b.
Proof.
  induction s as [|c s IH]; simpl.
  - rewrite orb_false_r, starts_with_spec. split.
    + intros [t Ht]. by exists [], t.
    + intros (a & b & H). symmetry in H. apply app_eq_nil in H as [-> H]. by exists b.
  - rewrite orb_true_iff, starts_with_spec, IH. split.
    + intros [[t Ht] | (a & b & ->)]; [by exists [], t | by exists (c :: a), b].
    + intros ([|x a] & b & H); [left; by exists b|].
      injection H as -> H. right. by exists a, b.
Qed.

Lemma split_inclusive_concat c s : concat (split_inclusive c s) = s.
Proof.
  induction s as [|x s IH]; simpl; [done|].
  destruct (x =? c); simpl; [by rewrite IH|].
  destruct (split_inclusive c s) as [|w ws]; simpl in *; by rewrite <- IH.
Qed.

(** A piece without the delimiter inside, closed by it, is split off whole. *)
Lemma split_inclusive_frame c a s :
  c ∉ a -> split_inclusive c (a ++ c :: s) = (a ++ [c]) :: split_inclusive c s.
Proof.
  induction a as [|x a IH]; intros Hc; simpl; [by rewrite Z.eqb_refl|].
  apply not_elem_of_cons in Hc as [Hx Ha].
  rewrite (proj2 (Z.eqb_neq x c)) by done. by rewrite IH.
Qed.

Lemma split_inclusive_tail c a : c ∉ a -> a <> [] -> split_inclusive c a = [a].
Proof.
  induction a as [|x a IH]; intros Hc Ha; simpl; [done|].
  apply not_elem_of_cons in Hc as [Hx Hc].
  rewrite (proj2 (Z.eqb_neq x c)) by done.
  destruct a as [|y a]; [done|]. by rewrite IH.
Qed.

Lemma strip_suffix_snoc l c : strip_suffix [c] (l ++ [c]) = Some l.
Proof.
  unfold strip_suffix. rewrite rev_app_distr. cbn [rev app strip_prefix]. by rewrite Z.eqb_refl, rev_involutive.
Qed.

Lemma strip_suffix_none l c : c ∉ l -> strip_suffix [c] l = None.
Proof.
  unfold strip_suffix. intros Hc. assert (Hr : c ∉ rev l) by (by rewrite list_elem_of_In, <- in_rev, <- list_elem_of_In).
  cbn [rev app]. destruct (rev l) as [|x r]; [done|]. cbn [strip_prefix].
  apply not_elem_of_cons in Hr as [Hx _]. by rewrite (proj2 (Z.eqb_neq c x)).
Qed.

Lemma strip_prefix_app p s : strip_prefix p (p ++ s) = Some s.
Proof. induction p as [|c p IH]; cbn; [done|]. by rewrite Z.eqb_refl. Qed.
Lemma strip_suffix_app s suf : strip_suffix suf (s ++ suf) = Some s.
Proof. unfold strip_suffix. by rewrite rev_app_distr, strip_prefix_app, rev_involutive. Qed.
Lemma as_bytes_app a b : as_bytes (a ++ b) = as_bytes a ++ as_bytes b.
Proof. apply flat_map_app. Qed.

#[export] Hint Rewrite fmt_hex_fixed_length : rayhunter_rw.

(** ** Decimal numbers *)

Lemma pretty_N_go_digits n s :
  exists ds, lit (pretty_N_go n s) = ds ++ lit s /\ Forall (fun c => is_ascii_digit c = true) ds /\
    ((0 < n)%N -> ds <> []) /\
    forall acc t, parse_digits acc (ds ++ t) = parse_digits (acc * 10 ^ Z.of_nat (length ds) + Z.of_N n) t.
Proof.
  revert s. induction (N.lt_wf_0 n) as [n _ IH]; intros s. destruct (decide (n = 0)%N) as [->|Hn].
  { exists []. rewrite pretty_N_go_0. split_and!; [done..|lia|]. intros acc t. cbn. f_equal. lia. }
  rewrite pretty_N_go_step by lia. set (d := (n `mod` 10)%N). assert (Hd : (d < 10)%N) by (apply N.mod_lt; lia).
  destruct (IH (n `div` 10)%N ltac:(apply N.div_lt; lia) (String (pretty_N_char d) s)) as (ds & -> & Hds & _ & Hp).
  exists (ds ++ [48 + Z.of_N d]).
  assert (Hc : lit (String (pretty_N_char d) s) = (48 + Z.of_N d) :: lit s).
  { assert (Hcases : d = 0%N \/ d = 1%N \/ d = 2%N \/ d = 3%N \/ d = 4%N \/ d = 5%N \/ d = 6%N \/ d = 7%N \/ d = 8%N \/ d = 9%N) by lia.
    by repeat destruct Hcases as [->|Hcases]; [..|rewrite Hcases]. }
  assert (Hdig : is_ascii_digit (48 + Z.of_N d) = true) by (unfold is_ascii_digit, in_range; lia).
  split_and!.
  - by rewrite Hc, <- app_assoc.
  - apply Forall_app. split; [done|]. by apply Forall_singleton.
  - intros _ H. by apply app_nil in H as [_ ?].
  - intros acc t. rewrite <- app_assoc, Hp. cbn [app parse_digits]. rewrite Hdig. f_equal.
    rewrite length_app, Nat2Z.inj_add, Z.pow_add_r by lia. cbn [length]. unfold d.
    rewrite N2Z.inj_div, N2Z.inj_mod. pose proof (Z.div_mod (Z.of_N n) 10 ltac:(lia)). cbn. lia.
Qed.

Lemma dec_spec z : 0 <= z ->
  dec z <> [] /\ Forall (fun c => is_ascii_digit c = true) (dec z) /\ parse_digits 0 (dec z) = Some z.
Proof.
  intros Hz. unfold dec. destruct z as [|p|p]; [by split_and!; [done|repeat constructor|done] | | lia].
  change (pretty (Z.pos p)) with (pretty (N.pos p)). unfold pretty, pretty_N.
  destruct (decide (N.pos p = 0)%N); [done|].
  destruct (pretty_N_go_digits (N.pos p) "") as (ds & -> & Hds & Hne & Hp). change (lit "") with (@nil Z). rewrite app_nil_r.
  split_and!; [apply Hne; lia | done |]. specialize (Hp 0 []). rewrite app_nil_r in Hp. by rewrite Hp.
Qed.

(** A number printed and read back. *)
Lemma parse_i64_dec z : 0 <= z < 2 ^ 63 -> parse_i64 (dec z) = Some z.
Proof.
  intros [H0 H1]. destruct (dec_spec z H0) as (Hne & Hds & Hp). unfold parse_i64.
  destruct (dec z) as [|c s]; [done|]. apply Forall_cons in Hds as [Hc _].
  assert (c <> 45 /\ c <> 43) as [Hm Hpl] by (unfold is_ascii_digit, in_range in Hc; lia).
  rewrite (proj2 (Z.eqb_neq c 45) Hm), (proj2 (Z.eqb_neq c 43) Hpl), Hp.
  by rewrite (proj2 (Z.leb_le _ _)), (proj2 (Z.ltb_lt _ _)) by lia.
Qed.

Lemma split_on_head c a s : c ∉ a -> head (split_on c (a ++ c :: s)) = Some a.
Proof.
  induction a as [|x a IH]; intros H; cbn [app split_on]; [by rewrite Z.eqb_refl|].
  apply not_elem_of_cons in H as [Hx Ha]. rewrite (proj2 (Z.eqb_neq x c)) by done.
  specialize (IH Ha). destruct (split_on c (a ++ c :: s)); cbn in *; congruence.
Qed.

(** ** Trimming *)

Lemma trim_start_by_spec p s : exists a, s = a ++ trim_start_by p s /\ Forall (fun c => p c = true) a /\
  forall c t, trim_start_by p s = c :: t -> p c = false.
Proof.
  induction s as [|c s (a & Ha & Hp & Hh)]; cbn [trim_start_by]; [by exists []|].
  destruct (p c) eqn:Hc; [|by exists []; split_and!; [done..|intros ? ? [= <- _]]].
  exists (c :: a). cbn. split_and!; [by f_equal | by constructor | done].
Qed.
Lemma trim_start_by_id p s : (forall c t, s = c :: t -> p c = false) -> trim_start_by p s = s.
Proof. destruct s as [|c s]; intros H; cbn; [done|]. by rewrite (H c s). Qed.

Lemma trim_by_spec p s : exists a b, s = a ++ trim_by p s ++ b /\ Forall (fun c => p c = true) (a ++ b) /\
  (forall c t, trim_by p s = c :: t -> p c = false) /\ (forall c t, trim_by p s = t ++ [c] -> p c = false).
Proof.
  unfold trim_by, trim_end_by. destruct (trim_start_by_spec p s) as (a & Ha & Hpa & Hh).
  destruct (trim_start_by_spec p (rev (trim_start_by p s))) as (b & Hb & Hpb & Hl).
  set (m := trim_start_by p (rev (trim_start_by p s))) in *. apply (f_equal (@rev _)) in Hb.
  rewrite rev_involutive, rev_app_distr in Hb.
  exists a, (rev b). split_and!.
  - by rewrite <- Hb.
  - apply Forall_app. split; [done|]. by apply Forall_rev.
  - intros c t Hm. rewrite Hm in Hb. by eapply Hh.
  - intros c t Hm. apply (f_equal (@rev _)) in Hm. rewrite rev_involutive, rev_app_distr in Hm. exact (Hl c (rev t) Hm).
Qed.

Lemma trim_by_id p s : (forall c t, s = c :: t -> p c = false) -> (forall c t, s = t ++ [c] -> p c = false) -> trim_by p s = s.
Proof.
  intros Hh Hl. unfold trim_by, trim_end_by. rewrite (trim_start_by_id p s Hh), trim_start_by_id; [apply rev_involutive|].
  intros c t H. apply (f_equal (@rev _)) in H. rewrite rev_involutive in H. by eapply Hl.
Qed.
Lemma trim_by_idemp p s : trim_by p (trim_by p s) = trim_by p s.
Proof. destruct (trim_by_spec p s) as (a & b & _ & _ & Hh & Hl). by apply trim_by_id. Qed.

(** ** Splitting and joining *)

(** [str::split_once(pat)]. *)
Fixpoint split_once (pat s : rstr) : option (rstr * rstr) :=
  match strip_prefix pat s with
  | Some rest => Some ([], rest)
  | None => match s with
            | [] => None
            | c :: s' => match split_once pat s' with Some (a, b) => Some (c :: a, b) | None => None end
            end
  end.

Lemma split_on_none c s : c ∉ s -> split_on c s = [s].
Proof.
  induction s as [|x s IH]; cbn [split_on]; [done|]. intros [Hx Hs]%not_elem_of_cons.
  destruct (Z.eqb_spec x c); [congruence|]. by rewrite IH.
Qed.
Lemma split_on_cons c a s : c ∉ a -> split_on c (a ++ c :: s) = a :: split_on c s.
Proof.
  induction a as [|x a IH]; cbn [split_on app]; [by rewrite Z.eqb_refl|]. intros [Hx Hs]%not_elem_of_cons.
  destruct (Z.eqb_spec x c); [congruence|]. by rewrite IH.
Qed.
Lemma split_on_pieces c s : split_on c s <> [] /\ join [c] (split_on c s) = s /\ Forall (fun p => c ∉ p) (split_on c s).
Proof.
  induction s as [|x s (Hne & Hj & Hf)]; cbn [split_on].
  { split_and!; [done|done|]. constructor; [apply not_elem_of_nil|constructor]. }
  destruct (Z.eqb_spec x c) as [->|Hx].
  - split_and!; [done| |constructor; [apply not_elem_of_nil|done]]. destruct (split_on c s); [done|]. cbn [join app] in *. by rewrite Hj.
  - destruct (split_on c s) as [|w ws]; [done|]. apply Forall_cons in Hf as [Hw Hws]. split_and!; [done| |].
    + destruct ws; cbn [join app] in *; by rewrite Hj.
    + constructor; [|done]. apply not_elem_of_cons; split; [congruence|done].
Qed.
(** The pieces determine the text. *)
Lemma split_on_4 c s p1 p2 p3 p4 : split_on c s = [p1; p2; p3; p4] <->
  s = join [c] [p1; p2; p3; p4] /\ c ∉ p1 /\ c ∉ p2 /\ c ∉ p3 /\ c ∉ p4.
Proof.
  split.
  - intros H. destruct (split_on_pieces c s) as (_ & Hj & Hf). rewrite H in Hj, Hf.
    rewrite !Forall_cons in Hf. split; [by rewrite <- Hj|tauto].
  - intros (-> & H1 & H2 & H3 & H4). cbn [join app]. by rewrite !split_on_cons, split_on_none.
Qed.

Lemma split_once_spec pat s a b : split_once pat s = Some (a, b) -> s = a ++ pat ++ b.
Proof.
  revert a. induction s as [|c s IH]; intros a; cbn [split_once].
  - destruct (strip_prefix pat []) as [rest|] eqn:Hp; [|done]. intros [= <- <-].
    destruct pat; [by injection Hp as <-|done].
  - destruct (strip_prefix pat (c :: s)) as [rest|] eqn:Hp.
    + intros [= <- <-]. clear IH. revert Hp. generalize (c :: s). induction pat as [|p pat IHp]; intros l; cbn [strip_prefix]; [by intros [= ->]|].
      destruct l as [|x l]; [done|]. destruct (Z.eqb_spec p x) as [->|]; [|done]. intros H%IHp. cbn in *. by rewrite H.
    + destruct (split_once pat s) as [[a' b']|]; [|done]. intros [= <- <-]. cbn. by rewrite (IH a' eq_refl).
Qed.

(** ** UTF-8 *)

Definition is_scalar (c : rchar) : Prop := 0 <= c < 0xd800 \/ 0xe000 <= c < 0x110000.

Lemma utf8_first_step c bs : is_scalar c ->
  exists b rest, utf8_char c = b :: rest /\ utf8_decode_step b (rest ++ bs) = (c, bs) /\ (128 <= c -> Forall (fun b => 128 <= b) (utf8_char c)).
Proof.
  intros Hc. unfold is_scalar in Hc. unfold utf8_char, utf8_decode_step, is_cont, in_range.
  destruct (Z.ltb_spec c 0x80); [|destruct (Z.ltb_spec c 0x800); [|destruct (Z.ltb_spec c 0x10000)]]; eexists _, _; (split; [reflexivity|]); cbn [app]; split.
  - by rewrite (proj2 (Z.ltb_lt _ _)) by lia.
  - lia.
  - assert (0 <= c / 64 < 32 /\ c = 64 * (c / 64) + c mod 64 /\ 0 <= c mod 64 < 64) as (? & ? & ?) by dlia.
    repeat (case_match; zbool; try lia). f_equal. lia.
  - intros _. repeat constructor; dlia.
  - assert (c = 4096 * (c / 4096) + 64 * ((c / 64) mod 64) + c mod 64 /\ 0 <= c / 4096 < 16 /\ 0 <= (c / 64) mod 64 < 64 /\ 0 <= c mod 64 < 64)
      as (? & ? & ? & ?) by dlia.
    repeat (case_match; zbool; try lia); f_equal; lia.
  - intros _. repeat constructor; dlia.
  - assert (c = 262144 * (c / 262144) + 4096 * ((c / 4096) mod 64) + 64 * ((c / 64) mod 64) + c mod 64 /\ 0 <= c / 262144 < 5 /\
            0 <= (c / 4096) mod 64 < 64 /\ 0 <= (c / 64) mod 64 < 64 /\ 0 <= c mod 64 < 64) as (? & ? & ? & ? & ?) by dlia.
    repeat (case_match; zbool; try lia); f_equal; lia.
  - intros _. repeat constructor; dlia.
Qed.

Lemma utf8_roundtrip s : Forall is_scalar s -> from_utf8_lossy (as_bytes s) = s.
Proof.
  intros Hs. unfold from_utf8_lossy. assert (Hg : forall fuel, (length (as_bytes s) <= fuel)%nat -> utf8_lossy_fuel fuel (as_bytes s) = s); [|by apply Hg].
  induction Hs as [|c s Hc _ IH]; intros fuel; [by destruct fuel|]. unfold as_bytes in *. cbn [flat_map]. rewrite length_app.
  destruct (utf8_first_step c (flat_map utf8_char s) Hc) as (b & rest & -> & Hstep & _). cbn [app length]. intros Hf.
  destruct fuel as [|fuel]; [lia|]. cbn [utf8_lossy_fuel]. rewrite Hstep. f_equal. apply IH. lia.
Qed.

Lemma from_utf8_as_bytes s : Forall is_scalar s -> from_utf8 (as_bytes s) = Some s.
Proof. intros Hs. unfold from_utf8. rewrite utf8_roundtrip by done. by rewrite bool_decide_true. Qed.
