(* ===== verification/Floats.v ===== *)
(** * Floating point

    The program's [f32] and [f64] values are IEEE 754 binary32 and binary64; the Standard
    Library's [SpecFloat] computes them with round to nearest, ties to even.  Everything
    here evaluates in the kernel, the reading of a float from text included. *)

From S2P Require Import Prelude RustStr.
From Stdlib Require Import Floats.SpecFloat.

Local Open Scope Z_scope.

Abbreviation f64 := spec_float.
Abbreviation f32 := spec_float.

Definition f64_of_Z (z : Z) : f64 := binary_normalize 53 1024 z 0 false.
Definition f64_add : f64 -> f64 -> f64 := SFadd 53 1024.
Definition f64_sub : f64 -> f64 -> f64 := SFsub 53 1024.
Definition f64_mul : f64 -> f64 -> f64 := SFmul 53 1024.
Definition f64_div : f64 -> f64 -> f64 := SFdiv 53 1024.

Definition f32_of_Z (z : Z) : f32 := binary_normalize 24 128 z 0 false.
Definition f32_add : f32 -> f32 -> f32 := SFadd 24 128.
Definition f32_mul : f32 -> f32 -> f32 := SFmul 24 128.
Definition f32_sub : f32 -> f32 -> f32 := SFsub 24 128.
Definition f32_div : f32 -> f32 -> f32 := SFdiv 24 128.

(** A decimal literal [num / den] of the source, rounded once. *)
Definition f64_lit (num den : Z) : f64 := f64_div (f64_of_Z num) (f64_of_Z den).

Definition f32_lit (num den : Z) : f32 := f32_div (f32_of_Z num) (f32_of_Z den).

(** [f32::clamp]. *)
Definition f32_clamp (x lo hi : f32) : f32 :=
  let x := if SFltb x lo then lo else x in if SFltb hi x then hi else x.

Definition f64_ltb (a b : f64) : bool := SFltb a b.
Definition f64_leb (a b : f64) : bool := SFleb a b.
Definition f64_is_finite (a : f64) : bool :=
  match a with S754_zero _ | S754_finite _ _ _ => true | _ => false end.

(** The integer part, towards zero. *)
Definition sf_trunc (a : spec_float) : Z :=
  match a with
  | S754_finite s m e =>
      let v := if 0 <=? e then Z.shiftl (Z.pos m) e else Z.shiftr (Z.pos m) (- e) in
      if s then - v else v
  | _ => 0
  end.

(** [f64::round]: to the nearest integer, halves away from zero. *)
Definition sf_round (a : spec_float) : Z :=
  match a with
  | S754_finite s m e =>
      let v := if 0 <=? e then Z.shiftl (Z.pos m) e
               else Z.shiftr (Z.pos m + Z.shiftl 1 (- e - 1)) (- e) in
      if s then - v else v
  | _ => 0
  end.

(** [x.round() as i64], saturating. *)
Definition f64_round_i64 (a : f64) : Z :=
  match a with
  | S754_nan => 0
  | S754_infinity s => if s then - 2 ^ 63 else 2 ^ 63 - 1
  | _ => Z.max (- 2 ^ 63) (Z.min (2 ^ 63 - 1) (sf_round a))
  end.

(** [x as i64]: truncation, saturating at the type's bounds; NaN gives 0. *)
Definition sf_as_int (lo hi : Z) (a : spec_float) : Z :=
  match a with
  | S754_nan => 0
  | S754_infinity s => if s then lo else hi
  | _ => Z.max lo (Z.min hi (sf_trunc a))
  end.
Definition f64_as_i64 : f64 -> Z := sf_as_int (- 2 ^ 63) (2 ^ 63 - 1).

(** [x.round() as iN]: rounded to an integer, then cast. *)
Definition sf_round_as_int (lo hi : Z) (a : spec_float) : Z :=
  match a with
  | S754_nan => 0
  | S754_infinity s => if s then lo else hi
  | _ => Z.max lo (Z.min hi (sf_round a))
  end.

(** [format!("{x:.1}")]: one digit after the point, the exact value rounded to nearest, ties to even. *)
Definition fmt_fixed1 (a : spec_float) : rstr :=
  let show (s : bool) (tenths : Z) := (if s then lit "-" else []) ++ dec (tenths / 10) ++ lit "." ++ dec (tenths mod 10) in
  match a with
  | S754_nan => lit "NaN"
  | S754_infinity s => (if s then lit "-" else []) ++ lit "inf"
  | S754_zero s => show s 0
  | S754_finite s m e =>
      if 0 <=? e then show s (10 * Z.shiftl (Z.pos m) e)
      else let n := 10 * Z.pos m in
           let d := 2 ^ (- e) in
           let q := n / d in
           let r := 2 * (n mod d) in
           show s (if (d <? r) || ((r =? d) && Z.odd q) then q + 1 else q)
  end.

(** ** [str::parse::<f64>()] *)

(** The float nearest to [num / den], positive: enough bits of the quotient that what is left
    only matters as being zero or not. *)
Definition sf_of_ratio (prec emax num den : Z) : spec_float :=
  let k := 1200 + Z.log2 den in
  let n := Z.shiftl num k in
  binary_normalize prec emax (2 * (n / den) + (if n mod den =? 0 then 0 else 1)) (- (k + 1)) false.

Definition f64_of_ratio : Z -> Z -> f64 := sf_of_ratio 53 1024.
Definition f32_of_ratio : Z -> Z -> f32 := sf_of_ratio 24 128.

Fixpoint take_digits (s : rstr) : rstr * rstr :=
  match s with
  | c :: s' => if is_ascii_digit c then let '(ds, r) := take_digits s' in (c :: ds, r) else ([], s)
  | [] => ([], [])
  end.
Definition digits_value (ds : rstr) : Z := fold_left (fun acc c => 10 * acc + (c - 48)) ds 0.

(** An optional sign. *)
Definition take_sign (s : rstr) : bool * rstr :=
  match s with
  | c :: s' => if c =? 45 then (true, s') else if c =? 43 then (false, s') else (false, s)
  | [] => (false, s)
  end.

Definition parse_exponent (s : rstr) : option Z :=
  match s with
  | [] => Some 0
  | c :: s => if (c =? 101) || (c =? 69) then
                let '(neg, s) := take_sign s in
                match take_digits s with
                | ((_ :: _) as ds, []) => Some (if neg then - digits_value ds else digits_value ds)
                | _ => None
                end
              else None
  end.

Definition parse_number (of_ratio : Z -> Z -> spec_float) (s : rstr) : option spec_float :=
  let '(ip, r) := take_digits s in
  let '(fp, r) := match r with c :: r' => if c =? 46 then take_digits r' else ([], r) | [] => ([], r) end in
  match ip ++ fp with
  | [] => None
  | ds => e ← parse_exponent r;
          let num := digits_value ds in
          let e10 := e - Z.of_nat (length fp) in
          Some (if num =? 0 then S754_zero false
                else if 0 <=? e10 then of_ratio (num * 10 ^ e10) 1
                else of_ratio num (10 ^ (- e10)))
  end.

Definition parse_float (of_ratio : Z -> Z -> spec_float) (s : rstr) : option spec_float :=
  let '(neg, body) := take_sign s in
  let named w := eq_ignore_ascii_case body (lit w) in
  if named "inf"%string || named "infinity"%string then Some (S754_infinity neg)
  else if named "nan"%string then Some S754_nan
  else x ← parse_number of_ratio body; Some (if neg then SFopp x else x).
Definition parse_f64 : rstr -> option f64 := parse_float f64_of_ratio.
(** [str::parse::<f32>()]. *)
Definition parse_f32 : rstr -> option f32 := parse_float f32_of_ratio.

Example parse_f64_signal : sf_round_as_int (- 2 ^ 15) (2 ^ 15 - 1) <$> parse_f64 (lit "-27.50") = Some (-28).
Proof. reflexivity. Qed.
Example parse_f64_tenth : parse_f64 (lit "1e-1") = Some (f64_lit 1 10).
Proof. reflexivity. Qed.
Example parse_f64_refused : parse_f64 (lit "1.2.3") = None /\ parse_f64 (lit ".") = None /\ parse_f64 (lit "5.") = Some (f64_of_Z 5).
Proof. by vm_compute. Qed.

Lemma sf_as_int_bounds lo hi a : lo <= 0 <= hi -> lo <= sf_as_int lo hi a <= hi.
Proof.
  intros. unfold sf_as_int. destruct a as [|[]| |]; lia.
Qed.

(** ** Floats that are numbers and not negative

    What the arithmetic of the program keeps inside: no operation below makes a NaN of them. *)

Definition nonneg (x : spec_float) : Prop :=
  match x with S754_zero _ | S754_infinity false | S754_finite false _ _ => True | _ => False end.

(** Finite, and not negative. *)
Definition nonneg_finite (x : spec_float) : Prop :=
  match x with S754_zero _ | S754_finite false _ _ => True | _ => False end.

Lemma nonneg_finite_nonneg x : nonneg_finite x -> nonneg x.
Proof. by destruct x as [|[]| |[]]. Qed.

Lemma shr_1_nonneg r : 0 <= shr_m r -> 0 <= shr_m (shr_1 r).
Proof. destruct r as [[|[p|p|]|p] b s]; simpl; lia. Qed.

Lemma iter_shr_nonneg n r : 0 <= shr_m r -> 0 <= shr_m (iter_pos shr_1 n r).
Proof. revert r. induction n as [n IH|n IH|]; intros r Hr; cbn [iter_pos]; auto using shr_1_nonneg. Qed.

Section rounding.
Context (prec emax : Z).

Lemma shr_fexp_nonneg m e l : 0 <= m -> 0 <= shr_m (shr_fexp prec emax m e l).1.
Proof.
  intros Hm. unfold shr_fexp, shr. assert (Hr : 0 <= shr_m (shr_record_of_loc m l)) by (by destruct l as [|[]]).
  destruct (_ - _); cbn [fst]; try done. by apply iter_shr_nonneg.
Qed.

Lemma round_nonneg m e l : 0 <= m -> nonneg (binary_round_aux prec emax false m e l).
Proof.
  intros Hm. unfold binary_round_aux.
  pose proof (shr_fexp_nonneg m e l Hm) as H1. destruct (shr_fexp prec emax m e l) as [r1 e1]. cbn [fst] in H1.
  assert (Hrn : 0 <= round_nearest_even (shr_m r1) (loc_of_shr_record r1)).
  { unfold round_nearest_even. destruct (loc_of_shr_record r1) as [|[]]; try destruct (Z.even _); lia. }
  pose proof (shr_fexp_nonneg _ e1 loc_Exact Hrn) as H2.
  destruct (shr_fexp prec emax _ e1 loc_Exact) as [r2 e2]. cbn [fst] in H2.
  destruct (shr_m r2) as [|p|p]; [done| |lia]. by destruct (_ <=? _).
Qed.

Lemma normalize_nonneg m e : 0 <= m -> nonneg (binary_normalize prec emax m e false).
Proof.
  intros Hm. unfold binary_normalize, binary_round. destruct m as [|p|p]; [done| |lia].
  destruct (shl_align _ _ _). by apply round_nonneg.
Qed.

Lemma mul_nonneg_finite x y : nonneg_finite x -> nonneg_finite y -> nonneg (SFmul prec emax x y).
Proof.
  destruct x as [s1| | |[] m1 e1], y as [s2| | |[] m2 e2]; try done; intros _ _. cbn [SFmul xorb]. by apply round_nonneg.
Qed.

Lemma add_nonneg x y : nonneg x -> nonneg y -> nonneg (SFadd prec emax x y).
Proof.
  destruct x as [[]|[]| |[] m1 e1], y as [[]|[]| |[] m2 e2]; try done; intros _ _.
  cbn [SFadd cond_Zopp]. apply normalize_nonneg. lia.
Qed.

Lemma div_nonneg x y m e : nonneg x -> y = S754_finite false m e -> nonneg (SFdiv prec emax x y).
Proof.
  intros Hx ->. destruct x as [s|[]| |[] m1 e1]; try done. cbn [SFdiv].
  unfold SFdiv_core_binary.
  destruct (Z.div_eucl _ _) as [q r] eqn:Hq. apply (f_equal fst) in Hq. cbn [fst] in Hq.
  apply round_nonneg. rewrite <- Hq. apply Z.div_pos; [|lia]. destruct (_ - _) eqn:Hs; [lia| |lia].
  apply Z.shiftl_nonneg. lia.
Qed.
End rounding.

Lemma SFltb_false_leb x y : nonneg x -> nonneg y -> SFltb x y = false -> SFleb y x = true.
Proof.
  unfold SFltb, SFleb. destruct x as [[]|[]| |[] m1 e1], y as [[]|[]| |[] m2 e2]; try done; intros _ _; cbn [SFcompare].
  rewrite (Z.compare_antisym e1 e2). destruct (Z.compare e1 e2); try done. cbn [CompOpp].
  change (Pos.compare_cont Eq) with Pos.compare. rewrite (Pos.compare_antisym m1 m2). by destruct (Pos.compare m1 m2).
Qed.

(** A clamp between zero and a positive bound. *)
Lemma clamp_nonneg x m e :
  nonneg x -> let hi := S754_finite false m e in
  let c := f32_clamp x (S754_zero false) hi in
  nonneg_finite c /\ SFleb (S754_zero false) c = true /\ SFleb c hi = true.
Proof.
  intros Hx hi c. unfold c, f32_clamp.
  assert (Hlo : SFltb x (S754_zero false) = false) by (by destruct x as [|[]| |[]]).
  rewrite Hlo. destruct (SFltb hi x) eqn:Hhi.
  - split; [done|]. split; [done|]. by apply SFltb_false_leb; unfold SFltb, hi; cbn [SFcompare];
      rewrite ?Z.compare_refl; change (Pos.compare_cont Eq m m) with (Pos.compare m m); rewrite ?Pos.compare_refl.
  - split; [|split; [by destruct x as [|[]| |[]] | by apply SFltb_false_leb]].
    by destruct x as [|[]| |[]].
Qed.
