(* ===== verification/Deku.v ===== *)
(** * Bit-level writing

    Byte layouts are written by code the [deku] crate derives from the field declarations:
    fields in order, integers of a declared number of bits, most significant bit first
    (the [endian = "big"] and single-byte fields the program declares).  The class [Deku] is the
    crate's primitive; the layouts are definitions over it. *)

From S2P Require Import Prelude.

Local Open Scope Z_scope.

(** The [n] low bits of [v], most significant first. *)
Fixpoint msb_bits (n : nat) (v : Z) : list bool :=
  match n with
  | O => []
  | S n' => Z.testbit v (Z.of_nat n') :: msb_bits n' v
  end.

Definition bit (b : bool) : Z := if b then 1 else 0.

(** Bytes out of bits; the last byte is padded with zeros. *)
Fixpoint pack_bits (bs : list bool) : list Z :=
  match bs with
  | [] => []
  | b7 :: b6 :: b5 :: b4 :: b3 :: b2 :: b1 :: b0 :: rest =>
      (128 * bit b7 + 64 * bit b6 + 32 * bit b5 + 16 * bit b4 + 8 * bit b3 + 4 * bit b2
       + 2 * bit b1 + bit b0) :: pack_bits rest
  | short => [fold_left (fun acc b => 2 * acc + bit b) (take 8 (short ++ replicate 8 false)) 0]
  end.

Class Deku := {
  DekuError : Type;
  (** Write [v] in [n] bits. *)
  deku_write : nat -> Z -> result DekuError (list bool);
  (** A value that fits is written; what happens to one that does not is the crate's. *)
  deku_write_fits : forall n v, in_u (Z.of_nat n) v -> deku_write n v = Ok (msb_bits n v);
  (** The error of a failed [assert_eq] attribute. *)
  deku_assertion : DekuError;
  (** [format!("{err:?}")]. *)
  deku_error_debug : DekuError -> list Z
}.

(** An instance to evaluate with: a value that does not fit is refused. *)
#[program] Definition deku_fits : Deku := {|
  DekuError := bool;
  deku_write := fun n v => if in_ub (Z.of_nat n) v then Ok (msb_bits n v) else Err false;
  deku_assertion := true;
  deku_error_debug := fun _ => []
|}.
Next Obligation. intros n v H. apply in_ub_spec in H. cbn beta. by rewrite H. Qed.

(** A layout: the fields' widths and values. *)
Definition deku_fields {D : Deku} (fields : list (nat * Z)) : result DekuError (list bool) :=
  match collect_result (fun '(n, v) => deku_write n v) fields with
  | Ok bits => Ok (concat bits)
  | Err e => Err e
  end.

Definition deku_to_bytes {D : Deku} (fields : list (nat * Z)) : result DekuError (list Z) :=
  match deku_fields fields with Ok bits => Ok (pack_bits bits) | Err e => Err e end.

(** Every field fits its width. *)
Definition fields_ok (fields : list (nat * Z)) : Prop :=
  Forall (fun '(n, v) => in_u (Z.of_nat n) v) fields.

Definition fields_bits (fields : list (nat * Z)) : list bool :=
  flat_map (fun '(n, v) => msb_bits n v) fields.

(** ** Lemmas *)

Lemma deku_fields_ok {D : Deku} fields :
  fields_ok fields -> deku_fields fields = Ok (fields_bits fields).
Proof.
  unfold deku_fields, fields_bits. intros H.
  assert (Hc : collect_result (fun '(n, v) => deku_write n v) fields
               = Ok (map (fun '(n, v) => msb_bits n v) fields)).
  { apply collect_result_ok. induction H as [|[n v] l Hv _ IH]; constructor; [|done].
    by apply deku_write_fits. }
  by rewrite Hc, flat_map_concat_map.
Qed.

Lemma deku_to_bytes_ok {D : Deku} fields :
  fields_ok fields -> deku_to_bytes fields = Ok (pack_bits (fields_bits fields)).
Proof. intros. unfold deku_to_bytes. by rewrite deku_fields_ok. Qed.

Lemma msb_bits_length n v : length (msb_bits n v) = n.
Proof. induction n; simpl; congruence. Qed.

(** An aligned byte is packed back to its value. *)
Lemma pack_byte v rest : is_u8 v -> pack_bits (msb_bits 8 v ++ rest) = v :: pack_bits rest.
Proof.
  intros Hv. cbn [msb_bits app pack_bits]. f_equal. revert v Hv.
  intros v Hv. apply Z.eqb_eq. revert v Hv. apply byte_cases. vm_compute. reflexivity.
Qed.

Lemma msb_bits_app m n v :
  0 <= v -> msb_bits (m + n) v = msb_bits m (v / 2 ^ Z.of_nat n) ++ msb_bits n v.
Proof.
  intros Hv. induction m as [|m IH]; [done|]. cbn [Nat.add msb_bits app]. rewrite IH. f_equal.
  rewrite <- Z.shiftr_div_pow2, Z.shiftr_spec by lia. f_equal. lia.
Qed.

Lemma msb_bits_mod n v : msb_bits n (v mod 2 ^ Z.of_nat n) = msb_bits n v.
Proof.
  assert (H : forall k, (k <= n)%nat -> msb_bits k (v mod 2 ^ Z.of_nat n) = msb_bits k v).
  { induction k as [|k IH]; intros Hk; [done|]. cbn [msb_bits].
    rewrite IH, Z.mod_pow2_bits_low by lia. done. }
  by apply H.
Qed.

(** Two adjacent fields are one wider field. *)
Lemma msb_bits_cat m n hi lo :
  0 <= hi -> in_u (Z.of_nat n) lo ->
  msb_bits m hi ++ msb_bits n lo = msb_bits (m + n) (hi * 2 ^ Z.of_nat n + lo).
Proof.
  intros Hhi Hlo. unfold in_u in Hlo. rewrite msb_bits_app by nia.
  rewrite <- (msb_bits_mod n (_ + lo)), Z.div_add_l, Z.div_small, Z.add_0_r by lia.
  by rewrite Z.add_comm, Z.mod_add, Z.mod_small by lia.
Qed.

(** The bits of a byte string. *)
Definition bytes_bits (l : list Z) : list bool := flat_map (msb_bits 8) l.

Lemma bytes_bits_app a b : bytes_bits (a ++ b) = bytes_bits a ++ bytes_bits b.
Proof. apply flat_map_app. Qed.

(** A big-endian integer is its bytes. *)
Lemma msb_bits_bytes n v : 0 <= v -> msb_bits (8 * n) v = bytes_bits (be_bytes n v).
Proof.
  revert v. induction n as [|n IH]; intros v Hv; [done|].
  replace (8 * S n)%nat with (8 * n + 8)%nat by lia. rewrite msb_bits_app by done.
  change (2 ^ Z.of_nat 8) with 256. rewrite IH by (apply Z.div_pos; lia).
  unfold be_bytes. cbn [le_bytes rev]. rewrite bytes_bits_app. f_equal.
  unfold bytes_bits. cbn [flat_map]. rewrite app_nil_r. symmetry. apply (msb_bits_mod 8 v).
Qed.

(** A byte is its eight bits; a sixteen-bit field its two bytes. *)
Lemma bytes_bits_1 v rest : msb_bits 8 v ++ bytes_bits rest = bytes_bits (v :: rest).
Proof. done. Qed.

Lemma pack_bytes_bits l rest :
  bytes_ok l -> pack_bits (bytes_bits l ++ rest) = l ++ pack_bits rest.
Proof.
  induction 1 as [|v l Hv _ IH]; [done|].
  unfold bytes_bits. cbn [flat_map]. rewrite <- app_assoc, pack_byte by done.
  cbn [app]. f_equal. exact IH.
Qed.

Lemma pack_bytes l : bytes_ok l -> pack_bits (bytes_bits l) = l.
Proof.
  intros. rewrite <- (app_nil_r (bytes_bits l)), pack_bytes_bits by done. apply app_nil_r.
Qed.
