(* ===== verification/Hdlc.v ===== *)
(** * HDLC framing ([lib/src/hdlc.rs])

    Encapsulation of a diag message: byte stuffing, a CRC-16 in little-endian order and
    the 0x7e terminator; and the decoder with its five errors.  The CRC itself is the
    [crc] crate's: the class [Crc16] is what the code relies on, and [crc_ccitt] is the
    instance the parameters of [CRC_CCITT_ALG] select. *)

From S2P Require Import Prelude.

Local Open Scope Z_scope.

(** ** The CRC the program is handed *)

(** [Crc::<u16>::checksum]: a function of the bytes whose value is a [u16]. *)
Class Crc16 := {
  crc_checksum : list Z -> Z;
  crc_checksum_u16 : forall data, is_u16 (crc_checksum data)
}.

(** ** Constants of [lib/src/diag/mod.rs] *)

Definition MESSAGE_TERMINATOR : Z := 0x7e.
Definition MESSAGE_ESCAPE_CHAR : Z := 0x7d.
Definition ESCAPED_MESSAGE_TERMINATOR : Z := 0x5e.
Definition ESCAPED_MESSAGE_ESCAPE_CHAR : Z := 0x5d.

Inductive HdlcError :=
| InvalidChecksum (expected got : Z)
| InvalidEscapeSequence (b : Z)
| NoTrailingCharacter (b : Z)
| MissingChecksum
| TooShort.

#[export] Instance HdlcError_eq_dec : EqDecision HdlcError.
Proof. solve_decision. Defined.

(** The [match b] both loops of [hdlc_encapsulate] perform. *)
Definition escape_byte (b : Z) : list Z :=
  if b =? MESSAGE_TERMINATOR then [MESSAGE_ESCAPE_CHAR; ESCAPED_MESSAGE_TERMINATOR]
  else if b =? MESSAGE_ESCAPE_CHAR then [MESSAGE_ESCAPE_CHAR; ESCAPED_MESSAGE_ESCAPE_CHAR]
  else [b].

Definition escape_bytes (l : list Z) : list Z := flat_map escape_byte l.

Definition hdlc_encapsulate {C : Crc16} (data : list Z) : list Z :=
  escape_bytes data ++ escape_bytes (le_bytes 2 (crc_checksum data)) ++ [MESSAGE_TERMINATOR].

(** The un-escaping loop of [hdlc_decapsulate], with the vector it pushes onto and the
    [escaping] flag as its state. *)
Fixpoint unescape_loop (bs unescaped : list Z) (escaping : bool) : result HdlcError (list Z) :=
  match bs with
  | [] => Ok unescaped
  | b :: bs' =>
      if escaping then
        if b =? ESCAPED_MESSAGE_TERMINATOR then
          unescape_loop bs' (unescaped ++ [MESSAGE_TERMINATOR]) false
        else if b =? ESCAPED_MESSAGE_ESCAPE_CHAR then
          unescape_loop bs' (unescaped ++ [MESSAGE_ESCAPE_CHAR]) false
        else Err (InvalidEscapeSequence b)
      else if b =? MESSAGE_ESCAPE_CHAR then unescape_loop bs' unescaped true
      else unescape_loop bs' (unescaped ++ [b]) false
  end.

(** [Vec::pop]. *)
Definition vec_pop (l : list Z) : option (list Z * Z) :=
  match rev l with [] => None | x :: r => Some (rev r, x) end.

Definition hdlc_decapsulate {C : Crc16} (data : list Z) : result HdlcError (list Z) :=
  if (length data <? 3)%nat then Err TooShort
  else
    let final := List.last data 0 in
    if negb (final =? MESSAGE_TERMINATOR) then Err (NoTrailingCharacter final)
    else
      match unescape_loop (removelast data) [] false with
      | Err e => Err e
      | Ok unescaped =>
          match vec_pop unescaped with
          | None => Err MissingChecksum
          | Some (unescaped, checksum_hi) =>
              match vec_pop unescaped with
              | None => Err MissingChecksum
              | Some (unescaped, checksum_lo) =>
                  let checksum := le_value [checksum_lo; checksum_hi] in
                  if negb (checksum =? crc_checksum unescaped)
                  then Err (InvalidChecksum checksum (crc_checksum unescaped))
                  else Ok unescaped
              end
          end
      end.

(** ** The CRC of [CRC_CCITT_ALG]

    poly 0x1021, init 0xffff, refin, refout, xorout 0xffff: the reflected, bit-at-a-time
    algorithm those catalogue parameters name (reflected polynomial 0x8408). *)

Fixpoint crc_shift (n : nat) (r : Z) : Z :=
  match n with
  | O => r
  | S n' => crc_shift n' (if Z.odd r then Z.lxor (Z.shiftr r 1) 0x8408 else Z.shiftr r 1)
  end.
Definition crc_update (r b : Z) : Z := crc_shift 8 (Z.lxor r b).
Definition crc_ccitt_value (data : list Z) : Z :=
  wrapu 16 (Z.lxor (fold_left crc_update data 0xffff) 0xffff).

#[program] Definition crc_ccitt : Crc16 := {| crc_checksum := crc_ccitt_value |}.
Next Obligation. intros. apply wrapu_in_u. lia. Qed.

(** The vector of the unit test in [lib/src/hdlc.rs]. *)
Example encapsulate_test_vector :
  @hdlc_encapsulate crc_ccitt [1; 2; 3; 4] = [1; 2; 3; 4; 145; 57; 126].
Proof. vm_compute. reflexivity. Qed.

(** ** Lemmas *)

(** The accumulator is only appended to. *)
Lemma unescape_loop_acc bs acc esc :
  unescape_loop bs acc esc =
  match unescape_loop bs [] esc with Ok r => Ok (acc ++ r) | Err e => Err e end.
Proof.
  revert acc esc; induction bs as [|b bs IH]; intros acc esc; simpl; [by rewrite app_nil_r|].
  assert (Hpush : forall x, unescape_loop bs (acc ++ [x]) false =
    match unescape_loop bs [x] false with Ok r => Ok (acc ++ r) | Err e => Err e end).
  { intros x. rewrite (IH (acc ++ [x])), (IH [x]).
    destruct (unescape_loop bs [] false); [by rewrite <- app_assoc | done]. }
  destruct esc; [destruct (_ =? _); [|destruct (_ =? _)] | destruct (_ =? _)]; auto.
Qed.

Lemma unescape_escape_byte b bs :
  unescape_loop (escape_byte b ++ bs) [] false =
  match unescape_loop bs [] false with Ok r => Ok (b :: r) | Err e => Err e end.
Proof.
  unfold escape_byte. destruct (Z.eqb_spec b MESSAGE_TERMINATOR) as [->|Ht].
  { simpl. by rewrite unescape_loop_acc. }
  destruct (Z.eqb_spec b MESSAGE_ESCAPE_CHAR) as [->|He].
  { simpl. by rewrite unescape_loop_acc. }
  simpl. rewrite (proj2 (Z.eqb_neq _ _) He). by rewrite unescape_loop_acc.
Qed.

Lemma unescape_escape l bs :
  unescape_loop (escape_bytes l ++ bs) [] false =
  match unescape_loop bs [] false with Ok r => Ok (l ++ r) | Err e => Err e end.
Proof.
  induction l as [|b l IH]; simpl.
  { by destruct (unescape_loop bs [] false). }
  rewrite <- app_assoc, unescape_escape_byte, IH.
  by destruct (unescape_loop bs [] false).
Qed.

(** Byte stuffing removes every terminator. *)
Lemma escape_bytes_no_terminator l : MESSAGE_TERMINATOR ∉ escape_bytes l.
Proof.
  induction l as [|b l IH]; simpl; [apply not_elem_of_nil|].
  rewrite not_elem_of_app. split; [|done]. unfold escape_byte.
  repeat case_match; zbool; rewrite ?not_elem_of_cons; repeat split;
    try apply not_elem_of_nil; unfold MESSAGE_TERMINATOR, MESSAGE_ESCAPE_CHAR in *;
    vm_compute; try done; congruence.
Qed.

Lemma escape_bytes_app a b : escape_bytes (a ++ b) = escape_bytes a ++ escape_bytes b.
Proof. apply flat_map_app. Qed.

Lemma vec_pop_snoc l x : vec_pop (l ++ [x]) = Some (l, x).
Proof. unfold vec_pop. rewrite rev_app_distr. simpl. by rewrite rev_involutive. Qed.

Lemma vec_pop_Some l l' x : vec_pop l = Some (l', x) -> l = l' ++ [x].
Proof.
  unfold vec_pop. intros. destruct (rev l) as [|y r] eqn:Hr; simplify_eq.
  by rewrite <- (rev_involutive l), Hr.
Qed.

Lemma escape_byte_nonempty b : (0 < length (escape_byte b))%nat.
Proof. unfold escape_byte. repeat case_match; simpl; lia. Qed.

(** The body of a frame: everything before its terminator. *)
Definition frame_body {C : Crc16} (data : list Z) : list Z :=
  escape_bytes (data ++ le_bytes 2 (crc_checksum data)).

Lemma encapsulate_body {C : Crc16} data :
  hdlc_encapsulate data = frame_body data ++ [MESSAGE_TERMINATOR].
Proof. unfold hdlc_encapsulate, frame_body. by rewrite escape_bytes_app, <- app_assoc. Qed.

Lemma frame_body_no_terminator {C : Crc16} data : MESSAGE_TERMINATOR ∉ frame_body data.
Proof. apply escape_bytes_no_terminator. Qed.

Lemma unescape_frame_body {C : Crc16} data :
  unescape_loop (frame_body data) [] false = Ok (data ++ le_bytes 2 (crc_checksum data)).
Proof.
  unfold frame_body. rewrite <- (app_nil_r (escape_bytes _)), unescape_escape. simpl.
  by rewrite app_nil_r.
Qed.

Lemma frame_length {C : Crc16} data : (3 <= length (hdlc_encapsulate data))%nat.
Proof.
  rewrite encapsulate_body. unfold frame_body. rewrite escape_bytes_app, !length_app.
  simpl. rewrite !length_app.
  pose proof (escape_byte_nonempty (crc_checksum data mod 256)).
  pose proof (escape_byte_nonempty ((crc_checksum data / 256) mod 256)). simpl. lia.
Qed.

Lemma le_value_two x : is_u16 x -> le_value (le_bytes 2 x) = x.
Proof. intros. rewrite le_value_bytes. apply Z.mod_small. by unfold in_u in *. Qed.

Lemma Forall_removelast {A} (P : A -> Prop) l : Forall P l -> Forall P (removelast l).
Proof.
  induction 1 as [|x l Hx Hl IH]; [constructor|].
  simpl. destruct l; [constructor | by constructor].
Qed.

(** Un-stuffing bytes gives bytes. *)
Lemma unescape_loop_bytes bs acc esc r :
  bytes_ok bs -> bytes_ok acc -> unescape_loop bs acc esc = Ok r -> bytes_ok r.
Proof.
  intros Hbs. revert acc esc. induction Hbs as [|b bs Hb _ IH]; intros acc esc Hacc; simpl.
  { by intros [= <-]. }
  assert (Hpush : forall x, in_u 8 x -> bytes_ok (acc ++ [x])).
  { intros. by apply bytes_ok_snoc. }
  destruct esc; [destruct (_ =? _); [|destruct (_ =? _); [|done]] | destruct (_ =? _)];
    apply IH; auto; apply Hpush; by vm_compute.
Qed.

(** A terminated body that un-stuffs to a message and its CRC decapsulates to the message. *)
Lemma decapsulate_checked {C : Crc16} body msg :
  (3 <= length (body ++ [MESSAGE_TERMINATOR]))%nat ->
  unescape_loop body [] false = Ok (msg ++ le_bytes 2 (crc_checksum msg)) ->
  hdlc_decapsulate (body ++ [MESSAGE_TERMINATOR]) = Ok msg.
Proof.
  intros Hlen Hu. unfold hdlc_decapsulate. rewrite (proj2 (Nat.ltb_ge _ _) Hlen).
  rewrite last_last, removelast_last, Z.eqb_refl, Hu. cbn [negb].
  change (le_bytes 2 (crc_checksum msg))
    with ([crc_checksum msg mod 256] ++ [(crc_checksum msg / 256) mod 256]).
  rewrite app_assoc, !vec_pop_snoc.
  change (le_value [_; _]) with (le_value (le_bytes 2 (crc_checksum msg))).
  by rewrite (le_value_two _ (crc_checksum_u16 msg)), Z.eqb_refl.
Qed.

Lemma decapsulate_frame {C : Crc16} data : hdlc_decapsulate (hdlc_encapsulate data) = Ok data.
Proof.
  pose proof (frame_length data) as Hlen. rewrite encapsulate_body in *.
  by apply decapsulate_checked, unescape_frame_body.
Qed.

(** ** Properties *)

(** C20: a frame round-trips.  For every message, of any length, decapsulating what
    [hdlc_encapsulate] produced gives the message back. *)
Theorem decapsulate_encapsulate {C : Crc16} (data : list Z) :
  hdlc_decapsulate (hdlc_encapsulate data) = Ok data.
Proof. apply decapsulate_frame. Qed.

(** What a successful decapsulation means.  The decoder accepts exactly the inputs of
    at least three bytes whose last byte is the terminator and whose un-stuffed body is
    the returned message followed by its own CRC in little-endian order. *)
Theorem decapsulate_ok_iff {C : Crc16} (data msg : list Z) :
  bytes_ok data ->
  hdlc_decapsulate data = Ok msg <->
  (3 <= length data)%nat /\
  exists body, data = body ++ [MESSAGE_TERMINATOR] /\
    unescape_loop body [] false = Ok (msg ++ le_bytes 2 (crc_checksum msg)).
Proof.
  intros Hb. split.
  - unfold hdlc_decapsulate. destruct (Nat.ltb_spec (length data) 3) as [|Hlen]; [done|].
    destruct (Z.eqb_spec (List.last data 0) MESSAGE_TERMINATOR) as [Hlast|]; [|done].
    cbn [negb]. destruct (unescape_loop _ _ _) as [u|] eqn:Hu; [|done].
    destruct (vec_pop u) as [[u1 hi]|] eqn:H1; [|done].
    destruct (vec_pop u1) as [[u2 lo]|] eqn:H2; [|done].
    destruct (Z.eqb_spec (le_value [lo; hi]) (crc_checksum u2)) as [Hc|]; [|done].
    intros [= <-]. split; [done|]. exists (removelast data).
    assert (Hd : data <> []) by (by destruct data). rewrite <- Hlast.
    split; [by apply app_removelast_last|]. rewrite Hu. f_equal.
    apply vec_pop_Some in H1, H2. subst u1. rewrite H1, <- Hc, <- app_assoc. f_equal.
    symmetry. apply (le_bytes_value [lo; hi]).
    assert (Hok : bytes_ok u).
    { apply (unescape_loop_bytes (removelast data) [] false); [|constructor|done].
      by apply Forall_removelast. }
    rewrite H1 in Hok. apply Forall_app in Hok as [Hok Hhi].
    apply Forall_app in Hok as [_ Hlo]. by apply (Forall_app_2 _ [lo] [hi]).
  - intros (Hlen & body & -> & Hu). by apply decapsulate_checked.
Qed.

Lemma decapsulate_ok_iff_witness :
  @hdlc_decapsulate crc_ccitt [1; 2; 3; 4; 145; 57; 126] = Ok [1; 2; 3; 4] /\
  (3 <= length [1; 2; 3; 4; 145; 57; 126])%nat.
Proof.
  assert (Hb : bytes_ok [1; 2; 3; 4; 145; 57; 126])
    by (apply bytes_okb; reflexivity).
  pose proof (@decapsulate_ok_iff crc_ccitt [1; 2; 3; 4; 145; 57; 126] [1; 2; 3; 4] Hb) as H.
  split; [apply (proj2 H); split; [simpl; lia|]; exists [1; 2; 3; 4; 145; 57]; split;
          [reflexivity | vm_compute; reflexivity] | simpl; lia].
Defined.
