(* ===== verification/DiagLog.v ===== *)
(** * Log records ([lib/src/diag/diaglog])

    The data types of the diag log bodies and the accessors the rest of the program uses.
    Their readers and writers are derived by the [deku] crate. *)

From S2P Require Import Prelude Floats.

Local Open Scope Z_scope.

(** ** [diaglog/mod.rs]: time stamps *)

Record Timestamp := { ts : Z }.

(** Nanoseconds since the Unix epoch of 1980-01-06T00:00:00Z. *)
Definition gps_epoch_ns : Z := 315964800 * 10 ^ 9.

(** [Timestamp::to_datetime], as nanoseconds since the Unix epoch.  The two halves of the
    counter meet in double precision and are cut to whole milliseconds. *)
Definition to_datetime (self : Timestamp) : Z :=
  let ts_upper := Z.shiftr (ts self) 16 in
  let ts_lower := Z.land (ts self) 0xffff in
  let delta_seconds := f64_mul (f64_of_Z ts_upper) (f64_lit 5 4) in
  let delta_seconds := f64_add delta_seconds (f64_div (f64_of_Z ts_lower) (f64_of_Z 40960)) in
  let ts_delta := f64_as_i64 delta_seconds in
  gps_epoch_ns + ts_delta * 10 ^ 6.

Inductive Nas4GMessageDirection := Downlink | Uplink.

(** ** [diaglog/rrc.rs] *)

Inductive LteRrcOtaPacket :=
| LteRrc_V0 (rrc_rel_maj rrc_rel_min bearer_id phy_cell_id earfcn sfn_subfn pdu_num len : Z)
    (packet : list Z)
| LteRrc_V5 (rrc_rel_maj rrc_rel_min bearer_id phy_cell_id earfcn sfn_subfn pdu_num sib_mask
    len : Z) (packet : list Z)
| LteRrc_V8 (rrc_rel_maj rrc_rel_min bearer_id phy_cell_id earfcn sfn_subfn pdu_num sib_mask
    len : Z) (packet : list Z)
| LteRrc_V25 (rrc_rel_maj rrc_rel_min nr_rrc_rel_maj nr_rrc_rel_min bearer_id phy_cell_id
    earfcn sfn_subfn pdu_num sib_mask len : Z) (packet : list Z).

Definition get_sfn_subfn (self : LteRrcOtaPacket) : Z :=
  match self with
  | LteRrc_V0 _ _ _ _ _ sfn_subfn _ _ _ => sfn_subfn
  | LteRrc_V5 _ _ _ _ _ sfn_subfn _ _ _ _ => sfn_subfn
  | LteRrc_V8 _ _ _ _ _ sfn_subfn _ _ _ _ => sfn_subfn
  | LteRrc_V25 _ _ _ _ _ _ _ sfn_subfn _ _ _ _ => sfn_subfn
  end.

Definition get_sfn (self : LteRrcOtaPacket) : Z := Z.shiftr (get_sfn_subfn self) 4.

Definition get_subfn (self : LteRrcOtaPacket) : Z := wrapu 8 (Z.land (get_sfn_subfn self) 0xf).

Definition get_pdu_num (self : LteRrcOtaPacket) : Z :=
  match self with
  | LteRrc_V0 _ _ _ _ _ _ pdu_num _ _ => pdu_num
  | LteRrc_V5 _ _ _ _ _ _ pdu_num _ _ _ => pdu_num
  | LteRrc_V8 _ _ _ _ _ _ pdu_num _ _ _ => pdu_num
  | LteRrc_V25 _ _ _ _ _ _ _ _ pdu_num _ _ _ => pdu_num
  end.

Definition LteRrc_get_earfcn (self : LteRrcOtaPacket) : Z :=
  match self with
  | LteRrc_V0 _ _ _ _ earfcn _ _ _ _ => earfcn
  | LteRrc_V5 _ _ _ _ earfcn _ _ _ _ _ => earfcn
  | LteRrc_V8 _ _ _ _ earfcn _ _ _ _ _ => earfcn
  | LteRrc_V25 _ _ _ _ _ _ earfcn _ _ _ _ _ => earfcn
  end.

Definition take_payload (self : LteRrcOtaPacket) : list Z :=
  match self with
  | LteRrc_V0 _ _ _ _ _ _ _ _ packet => packet
  | LteRrc_V5 _ _ _ _ _ _ _ _ _ packet => packet
  | LteRrc_V8 _ _ _ _ _ _ _ _ _ packet => packet
  | LteRrc_V25 _ _ _ _ _ _ _ _ _ _ _ packet => packet
  end.

(** ** [diaglog/ll1.rs] *)

Record TimingAdjustment := {
  dl_frame_timing_adjustment : Z;
  ul_frame_timing_adjustment : Z;
  adjustment_timing_advance : Z
}.

Record ServingCellTiming := {
  sct_version : Z;
  num_records : Z;
  starting_sub_fn : Z;
  starting_system_fn : Z;
  starting_dl_frame_timing_offs : Z;
  starting_ul_frame_timing_offs : Z;
  starting_ul_timing_advance : Z;
  timing_adjustment : list TimingAdjustment
}.

(** ** [diaglog/mac.rs]: transport blocks *)

Inductive DlBlock :=
| DlBlock_V2 (sfn_subfn rnti_type harq_id pmch_id dl_tbs rlc_pdus padding header_len : Z)
    (mac_header : list Z)
| DlBlock_V4 (sub_id cell_id sfn_subfn rnti_type harq_id pmch_id dl_tbs rlc_pdus padding
    header_len : Z) (mac_header : list Z).

Definition dl_sfn_subfn (self : DlBlock) : Z :=
  match self with
  | DlBlock_V2 sfn_subfn _ _ _ _ _ _ _ _ | DlBlock_V4 _ _ sfn_subfn _ _ _ _ _ _ _ _ => sfn_subfn
  end.
Definition dl_rnti_type (self : DlBlock) : Z :=
  match self with
  | DlBlock_V2 _ rnti_type _ _ _ _ _ _ _ | DlBlock_V4 _ _ _ rnti_type _ _ _ _ _ _ _ => rnti_type
  end.
Definition dl_mac_header (self : DlBlock) : list Z :=
  match self with
  | DlBlock_V2 _ _ _ _ _ _ _ _ mac_header | DlBlock_V4 _ _ _ _ _ _ _ _ _ _ mac_header => mac_header
  end.

Record DlBlocks := { dl_num_samples : Z; dl_samples : list DlBlock }.

Inductive UlBlock :=
| UlBlock_V1 (harq_id rnti_type sfn_subfn grant rlc_pdus padding bsr_event bsr_trig
    header_len : Z) (mac_header : list Z)
| UlBlock_V2 (sub_id cell_id harq_id rnti_type sfn_subfn grant rlc_pdus padding bsr_event
    bsr_trig header_len : Z) (mac_header : list Z).

Definition ul_sfn_subfn (self : UlBlock) : Z :=
  match self with
  | UlBlock_V1 _ _ sfn_subfn _ _ _ _ _ _ _ | UlBlock_V2 _ _ _ _ sfn_subfn _ _ _ _ _ _ _ => sfn_subfn
  end.
Definition ul_rnti_type (self : UlBlock) : Z :=
  match self with
  | UlBlock_V1 _ rnti_type _ _ _ _ _ _ _ _ | UlBlock_V2 _ _ _ rnti_type _ _ _ _ _ _ _ _ => rnti_type
  end.
Definition ul_mac_header (self : UlBlock) : list Z :=
  match self with
  | UlBlock_V1 _ _ _ _ _ _ _ _ _ mac_header
  | UlBlock_V2 _ _ _ _ _ _ _ _ _ _ _ mac_header => mac_header
  end.

Record UlBlocks := { ul_num_samples : Z; ul_samples : list UlBlock }.

(** ** [diaglog/mac.rs]: random access attempts *)

Record AdditionalInfo := { ul_earfcn : Z; p_max : Z; scell_id : Z; unk1 : Z; unk2 : Z }.

Inductive Msg1 :=
| Msg1_V2 (preamble_index preamble_index_mask preamble_power_offset : Z)
| Msg1_V3Or31 (preamble_index preamble_index_mask preamble_power_offset : Z)
| Msg1_V32 (preamble_index preamble_index_mask preamble_power_offset unk1 group : Z).

Definition get_preamble_index (self : Msg1) : Z :=
  match self with
  | Msg1_V2 preamble_index _ _ => preamble_index
  | Msg1_V3Or31 preamble_index _ _ => preamble_index
  | Msg1_V32 preamble_index _ _ _ _ => preamble_index
  end.

Record Msg2 := { backoff : Z; msg2_result : Z; tc_rnti : Z; ta : Z }.

Inductive Msg3Grant := Msg3Grant_V1 (grant : Z) | Msg3Grant_V32 (grant : Z).

(** [Msg3Grant::map_grant], applied by the reader to the four bytes of the grant. *)
Definition map_grant (grant : Z) : Z := Z.land grant 0xfffff.

Record Msg3 := { grant : Msg3Grant; unk_grant : Z; msg3_harq_id : Z; mac_pdu : list Z }.

Definition get_grant (self : Msg3) : Z :=
  match grant self with
  | Msg3Grant_V1 grant => grant
  | Msg3Grant_V32 grant => grant
  end.

Inductive AttemptHeader :=
| AttemptHeader_V2 (num_attempt rach_result contention msg_bitmask : Z)
| AttemptHeader_V3 (sub_id cell_id num_attempt rach_result contention msg_bitmask : Z).

Definition get_bitmask (self : AttemptHeader) : Z :=
  match self with
  | AttemptHeader_V2 _ _ _ msg_bitmask => msg_bitmask
  | AttemptHeader_V3 _ _ _ _ _ msg_bitmask => msg_bitmask
  end.
Definition has_msg1 (self : AttemptHeader) : bool := 0 <? Z.land (get_bitmask self) 0x01.
Definition has_msg2 (self : AttemptHeader) : bool := 0 <? Z.land (get_bitmask self) 0x02.
Definition has_msg3 (self : AttemptHeader) : bool := 0 <? Z.land (get_bitmask self) 0x04.

Record Attempt := {
  attempt_header : AttemptHeader;
  msg1 : Msg1;
  msg2 : Msg2;
  msg3 : Msg3;
  additional_info : option AdditionalInfo
}.

Definition get_msg1 (self : Attempt) : option Msg1 :=
  if has_msg1 (attempt_header self) then Some (msg1 self) else None.
Definition get_msg2 (self : Attempt) : option Msg2 :=
  if has_msg2 (attempt_header self) then Some (msg2 self) else None.
Definition get_msg3 (self : Attempt) : option Msg3 :=
  if has_msg3 (attempt_header self) then Some (msg3 self) else None.

Inductive SubpacketBody :=
| RachAttempt (a : Attempt)
| DlTransportBlock (b : DlBlocks)
| UlTransportBlock (b : UlBlocks)
| SubpacketOther (data : list Z).

Record Subpacket := {
  sub_id : Z;
  sub_version : Z;
  sub_size : Z;
  sub_body : SubpacketBody
}.

Record MacPacket := {
  mac_version : Z;
  num_subpackets : Z;
  subpackets : list Subpacket
}.

(** ** [diaglog/ml1.rs] *)

Definition decode_rsrp (rsrp : Z) : f32 :=
  f32_sub (f32_div (f32_of_Z rsrp) (f32_of_Z 16)) (f32_of_Z 180).
Definition decode_rssi (rssi : Z) : f32 :=
  f32_sub (f32_div (f32_of_Z rssi) (f32_of_Z 16)) (f32_of_Z 110).
Definition decode_rsrq (rsrq : Z) : f32 :=
  f32_sub (f32_div (f32_of_Z rsrq) (f32_of_Z 16)) (f32_of_Z 30).

Inductive MeasurementAndEvaluationHeader :=
| MaE_V4 (rrc_rel reserved earfcn pci serv_layer_priority : Z)
| MaE_V5 (rrc_rel reserved earfcn pci serv_layer_priority : Z).

Definition get_rrc_rel (self : MeasurementAndEvaluationHeader) : Z :=
  match self with
  | MaE_V4 rrc_rel _ _ _ _ => rrc_rel
  | MaE_V5 rrc_rel _ _ _ _ => rrc_rel
  end.

Record MeasurementAndEvaluation := {
  mae_header : MeasurementAndEvaluationHeader;
  mae_meas_rsrp : Z;
  mae_avg_rsrp : Z;
  mae_meas_rsrq : Z;
  mae_meas_rssi : Z;
  rxlev : Z;
  s_search : Z;
  r9_data : option Z
}.

Definition mae_get_pci (self : MeasurementAndEvaluation) : Z :=
  match mae_header self with
  | MaE_V4 _ _ _ pci _ => pci
  | MaE_V5 _ _ _ pci _ => pci
  end.
Definition mae_get_earfcn (self : MeasurementAndEvaluation) : Z :=
  match mae_header self with
  | MaE_V4 _ _ earfcn _ _ => earfcn
  | MaE_V5 _ _ earfcn _ _ => earfcn
  end.
Definition mae_get_meas_rsrp (self : MeasurementAndEvaluation) : f32 :=
  decode_rsrp (mae_meas_rsrp self).
Definition mae_get_meas_rssi (self : MeasurementAndEvaluation) : f32 :=
  decode_rssi (mae_meas_rssi self).
Definition mae_get_meas_rsrq (self : MeasurementAndEvaluation) : f32 :=
  decode_rsrq (mae_meas_rsrq self).
Definition mae_get_avg_rsrp (self : MeasurementAndEvaluation) : f32 :=
  decode_rsrp (mae_avg_rsrp self).

Inductive MeasurementsHeader :=
| MH_V4 (rrc_rel reserved1 earfcn q_rxlevmin n_cells : Z)
| MH_V5 (rrc_rel reserved1 earfcn q_rxlevmin n_cells : Z).

Definition get_q_rxlevmin (self : MeasurementsHeader) : Z :=
  match self with
  | MH_V4 _ _ _ q_rxlevmin _ => q_rxlevmin
  | MH_V5 _ _ _ q_rxlevmin _ => q_rxlevmin
  end.
Definition get_n_cells (self : MeasurementsHeader) : Z :=
  match self with
  | MH_V4 _ _ _ _ n_cells => n_cells
  | MH_V5 _ _ _ _ n_cells => n_cells
  end.

Record MeasurementsCell := {
  cell_pci : Z;
  cell_meas_rssi : Z;
  cell_meas_rsrp : Z;
  cell_avg_rsrp : Z;
  cell_meas_rsrq : Z;
  cell_avg_rsrq : Z;
  s_rxlev : Z;
  n_freq_offset : Z;
  val5 : Z;
  ant0_offset : Z;
  ant1_offset : Z;
  cell_unk1 : Z
}.

Record Measurements := { m_header : MeasurementsHeader; m_cells : list MeasurementsCell }.

Definition m_get_earfcn (self : Measurements) : Z :=
  match m_header self with
  | MH_V4 _ _ earfcn _ _ => earfcn
  | MH_V5 _ _ earfcn _ _ => earfcn
  end.
Definition cell_get_meas_rsrp (self : MeasurementsCell) : f32 := decode_rsrp (cell_meas_rsrp self).
Definition cell_get_meas_rssi (self : MeasurementsCell) : f32 := decode_rssi (cell_meas_rssi self).
Definition cell_get_meas_rsrq (self : MeasurementsCell) : f32 := decode_rsrq (cell_meas_rsrq self).
Definition cell_get_avg_rsrp (self : MeasurementsCell) : f32 := decode_rsrp (cell_avg_rsrp self).
Definition cell_get_avg_rsrq (self : MeasurementsCell) : f32 := decode_rsrq (cell_avg_rsrq self).

(** ** [diaglog/mod.rs]: the log body *)

Inductive LogBody :=
| WcdmaSignallingMessage (channel_type radio_bearer length : Z) (msg : list Z)
| GsmRrSignallingMessage (channel_type message_type length : Z) (msg : list Z)
| GprsMacSignallingMessage (channel_type message_type length : Z) (msg : list Z)
| LteRrcOtaMessage (ext_header_version : Z) (packet : LteRrcOtaPacket)
| Nas4GMessage (log_type : Z) (direction : Nas4GMessageDirection) (ext_header_version rrc_rel
    rrc_version_minor rrc_version_major : Z) (msg : list Z)
| IpTraffic (msg : list Z)
| UmtsNasOtaMessage (is_uplink length : Z) (msg : list Z)
| NrRrcOtaMessage (msg : list Z)
| LteMl1ServingCellMeasurementAndEvaluation (data : MeasurementAndEvaluation)
| LteMl1NeighborCellsMeasurements (data : Measurements)
| LteMacRachResponse (packet : MacPacket)
| LteMacDl (packet : MacPacket)
| LteMacUl (packet : MacPacket)
| LteLl1ServingCellTiming (data : ServingCellTiming).

(** ** Lemmas *)

(** Every received power the decoders produce is an exact binary32 value: the integer
    [16 * x + 16 * 180] is the raw reading. *)
Example rsrp_range :
  decode_rsrp 0 = f32_of_Z (-180) /\ decode_rsrp 1600 = f32_of_Z (-80).
Proof. vm_compute. done. Qed.
