(* ===== verification/Diag.v ===== *)
(** * The diag protocol ([lib/src/diag/mod.rs], [lib/src/log_codes.rs])

    Requests and messages exchanged with the modem, the splitting of a container into its
    HDLC frames, and the log mask the device is configured with.  The readers [deku]
    derives from the type declarations are the class [DiagReader]. *)

From S2P Require Import Prelude RustStr Deku Hdlc DiagLog.

Local Open Scope Z_scope.

(** ** Data *)

Inductive DataType := UserSpace | DataTypeOther (v : Z).

Inductive LogConfigRequest :=
| RetrieveIdRanges
| SetMask (log_type log_mask_bitsize : Z) (log_mask : list Z).

Inductive Request := LogConfig (r : LogConfigRequest).

Inductive LogConfigResponse :=
| RetrieveIdRangesResponse (log_mask_sizes : list Z)
| SetMaskResponse.

Inductive ResponsePayload := LogConfigPayload (r : LogConfigResponse).

Inductive Message :=
| Log (pending_msgs outer_length inner_length log_type : Z) (timestamp : Timestamp)
    (body : LogBody)
| Response (opcode1 opcode2 opcode3 opcode4 subopcode status : Z) (payload : ResponsePayload).

Record HdlcEncapsulatedMessage := { len : Z; data : list Z }.

Record MessagesContainer := {
  data_type : DataType;
  num_messages : Z;
  messages : list HdlcEncapsulatedMessage
}.

(** ** The derived reader of [Message]

    [Message::from_bytes] is generated by [deku]: it returns the bytes it left over and
    the message, or the crate's error. *)
Class DiagReader {D : Deku} := {
  message_from_bytes : list Z -> result DekuError (list Z * Message)
}.

Inductive DiagParsingError {D : Deku} :=
| MessageParsingError (e : DekuError) (data : list Z)
| HdlcDecapsulationError (e : HdlcError) (data : list Z).

(** ** Operations *)

(** [Message::from_hdlc]; the bytes left over are only logged. *)
Definition from_hdlc {C : Crc16} {D : Deku} {R : DiagReader} (data : list Z)
    : result DiagParsingError Message :=
  match hdlc_decapsulate data with
  | Ok data =>
      match message_from_bytes data with
      | Ok (_, res) => Ok res
      | Err e => Err (MessageParsingError e data)
      end
  | Err err => Err (HdlcDecapsulationError err data)
  end.

(** [MessagesContainer::messages]. *)
Definition container_messages {C : Crc16} {D : Deku} {R : DiagReader} (self : MessagesContainer)
    : list (result DiagParsingError Message) :=
  flat_map (fun msg => map from_hdlc (split_inclusive MESSAGE_TERMINATOR (data msg)))
    (messages self).

(** The body of the loop of [build_log_mask_request]: the byte under construction, the
    number of bits written to it and the mask so far. *)
Definition mask_step (log_type log_mask_bitsize : Z) (accepted_log_codes : list Z)
    (st : Z * Z * list Z) (i : Z) : Z * Z * list Z :=
  let '(current_byte, num_bits_written, log_mask) := st in
  let log_code := Z.lor (wrapu 32 (Z.shiftl log_type 12)) i in
  let current_byte :=
    if bool_decide (log_code ∈ accepted_log_codes)
    then Z.lor current_byte (Z.shiftl 1 num_bits_written) else current_byte in
  let num_bits_written := num_bits_written + 1 in
  if (num_bits_written =? 8) || (i =? log_mask_bitsize - 1)
  then (0, 0, log_mask ++ [current_byte])
  else (current_byte, num_bits_written, log_mask).

Definition build_log_mask (log_type log_mask_bitsize : Z) (accepted_log_codes : list Z)
    : list Z :=
  snd (fold_left (mask_step log_type log_mask_bitsize accepted_log_codes)
         (seqZ 0 log_mask_bitsize) (0, 0, [])).

Definition build_log_mask_request (log_type log_mask_bitsize : Z)
    (accepted_log_codes : list Z) : Request :=
  LogConfig (SetMask log_type log_mask_bitsize
               (build_log_mask log_type log_mask_bitsize accepted_log_codes)).

(** ** The log codes ([lib/src/log_codes.rs]) the program subscribes to *)

Definition LOG_GSM_RR_SIGNALING_MESSAGE_C : Z := 0x512f.
Definition LOG_GPRS_MAC_SIGNALLING_MESSAGE_C : Z := 0x5226.
Definition LOG_NR_RRC_OTA_MSG_LOG_C : Z := 0xb821.
Definition LOG_LTE_RRC_OTA_MSG_LOG_C : Z := 0xb0c0.
Definition LOG_LTE_ML1_SERVING_CELL_MEAS_AND_EVAL_C : Z := 0xb17f.
Definition LOG_LTE_ML1_NEIGHBOR_MEAS : Z := 0xb180.
Definition LOG_LTE_MAC_RACH_RESPONSE_C : Z := 0xb062.
Definition LOG_LTE_MAC_DL : Z := 0xb063.
Definition LOG_LTE_MAC_UL : Z := 0xb064.
Definition LOG_LTE_NAS_ESM_OTA_IN_MSG_LOG_C : Z := 0xb0e2.
Definition LOG_LTE_NAS_ESM_OTA_OUT_MSG_LOG_C : Z := 0xb0e3.
Definition LOG_LTE_NAS_EMM_OTA_IN_MSG_LOG_C : Z := 0xb0ec.
Definition LOG_LTE_NAS_EMM_OTA_OUT_MSG_LOG_C : Z := 0xb0ed.
Definition WCDMA_SIGNALLING_MESSAGE : Z := 0x412f.
Definition LOG_DATA_PROTOCOL_LOGGING_C : Z := 0x11eb.
Definition LOG_UMTS_NAS_OTA_MESSAGE_LOG_PACKET_C : Z := 0x713a.

(** ** Lemmas *)

(** The bits a mask under construction holds, low bit of the first byte first. *)
Definition mask_bit (mask : list Z) (i : Z) : bool :=
  Z.testbit (nth (Z.to_nat (i / 8)) mask 0) (i mod 8).

Lemma mask_bit_snoc_old mask b i :
  0 <= i < 8 * Z.of_nat (length mask) -> mask_bit (mask ++ [b]) i = mask_bit mask i.
Proof.
  intros. unfold mask_bit. rewrite app_nth1; [done|].
  assert (i / 8 < Z.of_nat (length mask)) by (apply Z.div_lt_upper_bound; lia).
  assert (0 <= i / 8) by (apply Z.div_pos; lia). lia.
Qed.

Lemma mask_bit_snoc_new mask b j :
  0 <= j < 8 -> mask_bit (mask ++ [b]) (8 * Z.of_nat (length mask) + j) = Z.testbit b j.
Proof.
  intros. unfold mask_bit.
  replace (8 * Z.of_nat (length mask) + j) with (j + Z.of_nat (length mask) * 8) by lia.
  rewrite Z.div_add, Z.mod_add, Z.div_small, Z.mod_small by lia.
  rewrite app_nth2 by lia.
  by replace (Z.to_nat (0 + Z.of_nat (length mask)) - length mask)%nat with 0%nat by lia.
Qed.

Lemma mask_bit_beyond mask i :
  8 * Z.of_nat (length mask) <= i -> mask_bit mask i = false.
Proof.
  intros. unfold mask_bit. rewrite nth_overflow; [apply Z.bits_0|].
  assert (Z.of_nat (length mask) <= i / 8) by (apply Z.div_le_lower_bound; lia). lia.
Qed.

Section log_mask.
Context (log_type bitsize : Z) (codes : list Z).

(** Whether bit [i] of the mask is wanted. *)
Definition code_accepted (i : Z) : bool :=
  bool_decide (Z.lor (wrapu 32 (Z.shiftl log_type 12)) i ∈ codes).

Definition mask_run (k : Z) : Z * Z * list Z :=
  fold_left (mask_step log_type bitsize codes) (seqZ 0 k) (0, 0, []).

Lemma mask_run_succ k : 0 <= k ->
  mask_run (k + 1) = mask_step log_type bitsize codes (mask_run k) k.
Proof.
  intros. unfold mask_run.
  rewrite (seqZ_app 0 k 1) by lia. rewrite fold_left_app, Z.add_0_l.
  rewrite (seqZ_cons k 1) by lia. by rewrite (seqZ_nil (Z.succ k) (Z.pred 1)) by lia.
Qed.

(** The loop's invariant: the bits written are those of the codes seen, and the byte in
    hand is partly filled except after the last index. *)
Definition mask_inv (k : Z) (st : Z * Z * list Z) : Prop :=
  let '(cur, nb, mask) := st in
  (k < bitsize -> 8 * Z.of_nat (length mask) + nb = k /\ 0 <= nb < 8) /\
  (k = bitsize -> cur = 0 /\ nb = 0 /\ Z.of_nat (length mask) = (bitsize + 7) / 8) /\
  in_u 8 cur /\ bytes_ok mask /\
  forall i, 0 <= i -> mask_bit (mask ++ [cur]) i = (i <? k) && code_accepted i.

Lemma in_u_bits w z j : in_u w z -> 0 <= w <= j -> Z.testbit z j = false.
Proof.
  intros Hz Hj. destruct (Z.eq_dec z 0) as [->|Hne]; [apply Z.bits_0|].
  apply Z.bits_above_log2; [apply Hz|].
  apply Z.lt_le_trans with w; [|lia]. apply Z.log2_lt_pow2; unfold in_u in Hz; lia.
Qed.

Lemma in_u_testbit w z : 0 <= w -> (forall j, w <= j -> Z.testbit z j = false) -> in_u w z.
Proof.
  intros Hw Hb. assert (Hz : z = z mod 2 ^ w).
  { apply Z.bits_inj'. intros n Hn. destruct (Z.lt_ge_cases n w).
    - by rewrite Z.mod_pow2_bits_low by lia.
    - rewrite Z.mod_pow2_bits_high by lia. by apply Hb. }
  rewrite Hz. by apply wrapu_in_u.
Qed.

Lemma in_u_lor w a b : 0 <= w -> in_u w a -> in_u w b -> in_u w (Z.lor a b).
Proof.
  intros Hw Ha Hb. apply in_u_testbit; [done|]. intros j Hj.
  by rewrite Z.lor_spec, (in_u_bits w a), (in_u_bits w b).
Qed.

Lemma mask_bit_app_new mask b i :
  8 * Z.of_nat (length mask) <= i < 8 * Z.of_nat (length mask) + 8 ->
  mask_bit (mask ++ [b]) i = Z.testbit b (i - 8 * Z.of_nat (length mask)).
Proof.
  intros. rewrite <- (mask_bit_snoc_new mask b) by lia. f_equal. lia.
Qed.

(** Setting the next bit of the byte in hand. *)
Lemma mask_set_bit cur nb mask k :
  8 * Z.of_nat (length mask) + nb = k -> 0 <= nb < 8 ->
  (forall i, 0 <= i -> mask_bit (mask ++ [cur]) i = (i <? k) && code_accepted i) ->
  forall i, 0 <= i ->
    mask_bit (mask ++ [if code_accepted k then Z.lor cur (Z.shiftl 1 nb) else cur]) i
    = (i <? k + 1) && code_accepted i.
Proof.
  intros Hk Hnb Hbits i Hi.
  assert (Hold : (i <? k + 1) && code_accepted i
    = (i <? k) && code_accepted i || (i =? k) && code_accepted k).
  { destruct (Z.eqb_spec i k) as [->|].
    - rewrite (proj2 (Z.ltb_lt k (k + 1))), Z.ltb_irrefl by lia. done.
    - rewrite orb_false_r. f_equal. destruct (Z.ltb_spec i k), (Z.ltb_spec i (k + 1)); lia. }
  rewrite Hold, <- (Hbits i Hi).
  destruct (Z.lt_ge_cases i (8 * Z.of_nat (length mask))).
  { rewrite !mask_bit_snoc_old by lia. rewrite (proj2 (Z.eqb_neq i k)) by lia.
    by rewrite orb_false_r. }
  destruct (Z.lt_ge_cases i (8 * Z.of_nat (length mask) + 8)).
  - rewrite !mask_bit_app_new by lia.
    destruct (code_accepted k); [|by rewrite andb_false_r, orb_false_r].
    rewrite Z.lor_spec, andb_true_r. f_equal.
    rewrite Z.shiftl_1_l, Z.pow2_bits_eqb by lia.
    destruct (Z.eqb_spec i k), (Z.eqb_spec nb (i - 8 * Z.of_nat (length mask))); lia.
  - rewrite !mask_bit_beyond by (rewrite length_app; simpl; lia).
    by rewrite (proj2 (Z.eqb_neq i k)) by lia.
Qed.

Lemma mask_step_inv k st :
  0 <= k < bitsize -> mask_inv k st ->
  mask_inv (k + 1) (mask_step log_type bitsize codes st k).
Proof.
  destruct st as [[cur nb] mask]. intros Hk (Hlen & _ & Hcur & Hbytes & Hbits).
  destruct Hlen as [Hlen Hnb]; [lia|].
  pose proof (mask_set_bit cur nb mask k Hlen Hnb Hbits) as Hset.
  unfold mask_step. fold (code_accepted k).
  assert (Hb : in_u 8 (if code_accepted k then Z.lor cur (Z.shiftl 1 nb) else cur)).
  { destruct (code_accepted k); [|done]. apply in_u_lor; [lia|done|].
    rewrite Z.shiftl_1_l. split; [lia|]. apply Z.pow_lt_mono_r; lia. }
  set (b := if code_accepted k then _ else _) in *.
  assert (Hzero : forall i, 0 <= i ->
    mask_bit ((mask ++ [b]) ++ [0]) i = mask_bit (mask ++ [b]) i).
  { intros i Hi. destruct (Z.lt_ge_cases i (8 * Z.of_nat (length (mask ++ [b])))).
    - by rewrite mask_bit_snoc_old by lia.
    - rewrite (mask_bit_beyond (mask ++ [b])) by lia.
      destruct (Z.lt_ge_cases i (8 * Z.of_nat (length (mask ++ [b])) + 8)).
      + rewrite mask_bit_app_new by lia. apply Z.bits_0.
      + apply mask_bit_beyond. rewrite length_app. simpl. lia. }
  destruct ((nb + 1 =? 8) || (k =? bitsize - 1)) eqn:Hpush; split; zbool.
  - intros. rewrite length_app. simpl. apply orb_true_iff in Hpush as [Hp|Hp]; zbool; lia.
  - split; [|split; [by vm_compute | split; [by apply bytes_ok_snoc | ]]].
    + intros. rewrite length_app. simpl. split; [done|]. split; [done|].
      apply (Z.div_unique _ _ _ nb); lia.
    + intros i Hi. by rewrite Hzero, Hset.
  - lia.
  - split; [lia|]. by repeat split; try apply Hb.
Qed.

Lemma mask_run_inv k : 0 <= k <= bitsize -> mask_inv k (mask_run k).
Proof.
  intros Hk. assert (H : 0 <= k) by lia. revert Hk. pattern k. revert k H.
  apply natlike_ind.
  - intros _. unfold mask_run. rewrite seqZ_nil by lia. simpl. split; [lia|].
    split; [intros <-; done|]. split; [by vm_compute|]. split; [constructor|].
    intros i Hi. destruct (Z.lt_ge_cases i 8).
    + rewrite (mask_bit_app_new [] 0) by (simpl; lia). rewrite Z.bits_0.
      by rewrite (proj2 (Z.ltb_ge i 0)) by lia.
    + rewrite mask_bit_beyond by (simpl; lia). by rewrite (proj2 (Z.ltb_ge i 0)) by lia.
  - intros k Hk IH Hle. change (Z.succ k) with (k + 1). rewrite mask_run_succ by lia.
    apply mask_step_inv; [lia|]. apply IH. lia.
Qed.
End log_mask.

(** A frame is recovered from the front of a stream whatever follows it. *)
Lemma split_encapsulated {C : Crc16} d rest :
  split_inclusive MESSAGE_TERMINATOR (hdlc_encapsulate d ++ rest)
  = hdlc_encapsulate d :: split_inclusive MESSAGE_TERMINATOR rest.
Proof.
  rewrite encapsulate_body, <- app_assoc. apply split_inclusive_frame.
  apply frame_body_no_terminator.
Qed.

Lemma split_encapsulated_stream {C : Crc16} ds tail :
  split_inclusive MESSAGE_TERMINATOR (flat_map hdlc_encapsulate ds ++ tail)
  = map hdlc_encapsulate ds ++ split_inclusive MESSAGE_TERMINATOR tail.
Proof.
  induction ds as [|d ds IH]; simpl; [done|].
  by rewrite <- app_assoc, split_encapsulated, IH.
Qed.

(** What [from_hdlc] makes of a message once its frame has been checked. *)
Definition parse_message {D : Deku} {R : DiagReader} (d : list Z) : result DiagParsingError Message :=
  match message_from_bytes d with
  | Ok (_, m) => Ok m
  | Err e => Err (MessageParsingError e d)
  end.

Lemma from_hdlc_frame {C : Crc16} {D : Deku} {R : DiagReader} body :
  from_hdlc body =
  match hdlc_decapsulate body with
  | Ok d => parse_message d
  | Err e => Err (HdlcDecapsulationError e body)
  end.
Proof. done. Qed.

(** ** Properties *)

(** A container whose entries each hold any number of concatenated frames yields one
    result per frame, in order, and each is the parse of exactly the bytes that were
    framed: no byte of one message reaches another, whatever the payloads contain.  The
    frames are given with their checked bodies, so the statement covers every valid
    frame, not only those this program wrote. *)
Theorem container_messages_frames {C : Crc16} {D : Deku} {R : DiagReader} dt n
    (entries : list (list (list Z * list Z))) :
  Forall (Forall (fun '(body, d) => (MESSAGE_TERMINATOR ∉ body) /\
    hdlc_decapsulate (body ++ [MESSAGE_TERMINATOR]) = Ok d)) entries ->
  container_messages {| data_type := dt; num_messages := n;
    messages := map (fun fs : list (list Z * list Z) =>
      let bytes := flat_map (fun '(body, _) => body ++ [MESSAGE_TERMINATOR]) fs in
      {| len := Z.of_nat (length bytes); data := bytes |}) entries |}
  = map (fun '(_, d) => parse_message d) (concat entries).
Proof.
  unfold container_messages. cbn [messages]. induction 1 as [|fs es Hfs _ IH]; [done|].
  cbn [map flat_map concat]. rewrite map_app, IH. f_equal. clear IH es. cbn [data].
  induction Hfs as [|[body d] fs [Hb Hd] _ IH]; [done|].
  cbn [flat_map map]. rewrite <- app_assoc. cbn [app].
  rewrite split_inclusive_frame by done. cbn [map].
  by rewrite IH, from_hdlc_frame, Hd.
Qed.

(** The log mask.  It has one byte for every eight codes, rounded up; bit [i] is set
    exactly when the code [log_type << 12 | i] is accepted and [i] is below the size; and
    every byte is a byte. *)
Theorem build_log_mask_bits (log_type bitsize : Z) (codes : list Z) :
  0 <= bitsize ->
  let mask := build_log_mask log_type bitsize codes in
  Z.of_nat (length mask) = (bitsize + 7) / 8 /\
  bytes_ok mask /\
  forall i, 0 <= i ->
    Z.testbit (nth (Z.to_nat (i / 8)) mask 0) (i mod 8) = true <->
    i < bitsize /\ Z.lor (wrapu 32 (Z.shiftl log_type 12)) i ∈ codes.
Proof.
  intros Hsize. pose proof (mask_run_inv log_type bitsize codes bitsize ltac:(lia)) as H.
  unfold build_log_mask. fold (mask_run log_type bitsize codes bitsize).
  destruct (mask_run log_type bitsize codes bitsize) as [[cur nb] mask].
  destruct H as (_ & Hend & _ & Hbytes & Hbits). destruct Hend as (-> & _ & Hlen); [done|].
  cbn [snd]. do 2 (split; [done|]). intros i Hi. fold (mask_bit mask i).
  assert (Hm : mask_bit mask i = mask_bit (mask ++ [0]) i).
  { destruct (Z.lt_ge_cases i (8 * Z.of_nat (length mask))).
    - by rewrite mask_bit_snoc_old.
    - rewrite mask_bit_beyond by lia.
      assert ((i <? bitsize) = false) as Hlt.
      { apply Z.ltb_ge. pose proof (Z.div_mod (bitsize + 7) 8).
        pose proof (Z.mod_pos_bound (bitsize + 7) 8). lia. }
      by rewrite Hbits, Hlt. }
  rewrite Hm, Hbits, andb_true_iff, Z.ltb_lt by done. unfold code_accepted.
  by rewrite bool_decide_eq_true.
Qed.

Lemma build_log_mask_bits_witness :
  build_log_mask 1 10 [0x1000; 0x1009] = [1; 2] /\
  length (build_log_mask 1 10 [0x1000; 0x1009]) = 2%nat.
Proof.
  pose proof (build_log_mask_bits 1 10 [0x1000; 0x1009] ltac:(lia)) as (Hlen & _ & _).
  split; [by vm_compute|]. apply Nat2Z.inj. exact Hlen.
Defined.

Lemma container_messages_frames_witness :
  exists (D : Deku) (R : DiagReader),
    @container_messages crc_ccitt D R {| data_type := UserSpace; num_messages := 1;
      messages := [{| len := 7; data := [1; 2; 3; 4; 145; 57; 126] |}] |}
    = [@parse_message D R [1; 2; 3; 4]].
Proof.
  exists deku_fits, {| message_from_bytes := fun _ => Err (@deku_assertion deku_fits) |}.
  apply (@container_messages_frames crc_ccitt _ _ UserSpace 1
           [[([1; 2; 3; 4; 145; 57], [1; 2; 3; 4])]]).
  constructor; [|constructor]. constructor; [|constructor]. split.
  - by apply (bool_decide_unpack _).
  - vm_compute. reflexivity.
Defined.
