(* ===== verification/Gsmtap.v ===== *)
(** * GSMTAP ([lib/src/gsmtap/mod.rs])

    The types and subtypes of GSMTAP frames, their numbers on the wire, and the layout of the
    sixteen byte header. *)

From S2P Require Import Prelude Deku.

Local Open Scope Z_scope.

(** ** Types *)

Inductive LteNasSubtype :=
| LteNas_Plain
| LteNas_Secure.

Inductive UmSubtype :=
| Um_Unknown
| Um_Bcch
| Um_Ccch
| Um_Rach
| Um_Agch
| Um_Pch
| Um_Sdcch
| Um_Sdcch4
| Um_Sdcch8
| Um_TchF
| Um_TchH
| Um_Pacch
| Um_Cbch52
| Um_Pdch
| Um_Ptcch
| Um_Cbch51.

Inductive UmtsRrcSubtype :=
| Umts_DlDcch
| Umts_UlDcch
| Umts_DlCcch
| Umts_UlCcch
| Umts_Pcch
| Umts_DlShcch
| Umts_UlShcch
| Umts_BcchFach
| Umts_BcchBch
| Umts_Mcch
| Umts_Msch
| Umts_HandoverToUTRANCommand
| Umts_InterRATHandoverInfo
| Umts_SystemInformationBCH
| Umts_SystemInformationContainer
| Umts_UERadioAccessCapabilityInfo
| Umts_MasterInformationBlock
| Umts_SysInfoType1
| Umts_SysInfoType2
| Umts_SysInfoType3
| Umts_SysInfoType4
| Umts_SysInfoType5
| Umts_SysInfoType5bis
| Umts_SysInfoType6
| Umts_SysInfoType7
| Umts_SysInfoType8
| Umts_SysInfoType9
| Umts_SysInfoType10
| Umts_SysInfoType11
| Umts_SysInfoType11bis
| Umts_SysInfoType12
| Umts_SysInfoType13
| Umts_SysInfoType13_1
| Umts_SysInfoType13_2
| Umts_SysInfoType13_3
| Umts_SysInfoType13_4
| Umts_SysInfoType14
| Umts_SysInfoType15
| Umts_SysInfoType15bis
| Umts_SysInfoType15_1
| Umts_SysInfoType15_1bis
| Umts_SysInfoType15_2
| Umts_SysInfoType15_2bis
| Umts_SysInfoType15_2ter
| Umts_SysInfoType15_3
| Umts_SysInfoType15_3bis
| Umts_SysInfoType15_4
| Umts_SysInfoType15_5
| Umts_SysInfoType15_6
| Umts_SysInfoType15_7
| Umts_SysInfoType15_8
| Umts_SysInfoType16
| Umts_SysInfoType17
| Umts_SysInfoType18
| Umts_SysInfoType19
| Umts_SysInfoType20
| Umts_SysInfoType21
| Umts_SysInfoType22
| Umts_SysInfoTypeSB1
| Umts_SysInfoTypeSB2
| Umts_ToTargetRNCContainer
| Umts_TargetRNCToSourceRNCContainer.

Inductive LteRrcSubtype :=
| Lte_DlCcch
| Lte_DlDcch
| Lte_UlCcch
| Lte_UlDcch
| Lte_BcchBch
| Lte_BcchDlSch
| Lte_PCCH
| Lte_MCCH
| Lte_BcchBchMbms
| Lte_BcchDlSchBr
| Lte_BcchDlSchMbms
| Lte_ScMcch
| Lte_SbcchSlBch
| Lte_SbcchSlBchV2x
| Lte_DlCcchNb
| Lte_DlDcchNb
| Lte_UlCcchNb
| Lte_UlDcchNb
| Lte_BcchBchNb
| Lte_BcchBchTddNb
| Lte_BcchDlSchNb
| Lte_PcchNb
| Lte_ScMcchNb.

#[export] Instance LteNasSubtype_eq_dec : EqDecision LteNasSubtype.
Proof. solve_decision. Defined.
#[export] Instance UmSubtype_eq_dec : EqDecision UmSubtype.
Proof. solve_decision. Defined.
#[export] Instance UmtsRrcSubtype_eq_dec : EqDecision UmtsRrcSubtype.
Proof. solve_decision. Defined.
#[export] Instance LteRrcSubtype_eq_dec : EqDecision LteRrcSubtype.
Proof. solve_decision. Defined.

Inductive GsmtapType :=
| Um (s : UmSubtype)
| Abis
| UmBurst
| SIM
| TetraI1
| TetraI1Burst
| WmxBurst
| GbLlc
| GbSndcp
| Gmr1Um
| UmtsRlcMac
| UmtsRrc (s : UmtsRrcSubtype)
| LteRrc (s : LteRrcSubtype)
| LteMac
| LteMacFramed
| OsmocoreLog
| QcDiag
| LteNas (s : LteNasSubtype)
| E1T1
| GsmRlp.

#[export] Instance GsmtapType_eq_dec : EqDecision GsmtapType.
Proof. solve_decision. Defined.

Inductive GsmtapTypeError := InvalidTypeSubtypeCombo (ty subtype : Z).

(** ** Numbers: [as u8] and the derived [TryFromPrimitive] *)

Definition LteNasSubtype_as_u8 (s : LteNasSubtype) : Z :=
  match s with
  | LteNas_Plain => 0
  | LteNas_Secure => 1
  end.

Definition LteNasSubtype_try_from (v : Z) : option LteNasSubtype :=
  match v with
  | 0 => Some LteNas_Plain
  | 1 => Some LteNas_Secure
  | _ => None
  end.

Definition UmSubtype_as_u8 (s : UmSubtype) : Z :=
  match s with
  | Um_Unknown => 0
  | Um_Bcch => 1
  | Um_Ccch => 2
  | Um_Rach => 3
  | Um_Agch => 4
  | Um_Pch => 5
  | Um_Sdcch => 6
  | Um_Sdcch4 => 7
  | Um_Sdcch8 => 8
  | Um_TchF => 9
  | Um_TchH => 10
  | Um_Pacch => 11
  | Um_Cbch52 => 12
  | Um_Pdch => 13
  | Um_Ptcch => 14
  | Um_Cbch51 => 15
  end.

Definition UmSubtype_try_from (v : Z) : option UmSubtype :=
  match v with
  | 0 => Some Um_Unknown
  | 1 => Some Um_Bcch
  | 2 => Some Um_Ccch
  | 3 => Some Um_Rach
  | 4 => Some Um_Agch
  | 5 => Some Um_Pch
  | 6 => Some Um_Sdcch
  | 7 => Some Um_Sdcch4
  | 8 => Some Um_Sdcch8
  | 9 => Some Um_TchF
  | 10 => Some Um_TchH
  | 11 => Some Um_Pacch
  | 12 => Some Um_Cbch52
  | 13 => Some Um_Pdch
  | 14 => Some Um_Ptcch
  | 15 => Some Um_Cbch51
  | _ => None
  end.

Definition UmtsRrcSubtype_as_u8 (s : UmtsRrcSubtype) : Z :=
  match s with
  | Umts_DlDcch => 0
  | Umts_UlDcch => 1
  | Umts_DlCcch => 2
  | Umts_UlCcch => 3
  | Umts_Pcch => 4
  | Umts_DlShcch => 5
  | Umts_UlShcch => 6
  | Umts_BcchFach => 7
  | Umts_BcchBch => 8
  | Umts_Mcch => 9
  | Umts_Msch => 10
  | Umts_HandoverToUTRANCommand => 11
  | Umts_InterRATHandoverInfo => 12
  | Umts_SystemInformationBCH => 13
  | Umts_SystemInformationContainer => 14
  | Umts_UERadioAccessCapabilityInfo => 15
  | Umts_MasterInformationBlock => 16
  | Umts_SysInfoType1 => 17
  | Umts_SysInfoType2 => 18
  | Umts_SysInfoType3 => 19
  | Umts_SysInfoType4 => 20
  | Umts_SysInfoType5 => 21
  | Umts_SysInfoType5bis => 22
  | Umts_SysInfoType6 => 23
  | Umts_SysInfoType7 => 24
  | Umts_SysInfoType8 => 25
  | Umts_SysInfoType9 => 26
  | Umts_SysInfoType10 => 27
  | Umts_SysInfoType11 => 28
  | Umts_SysInfoType11bis => 29
  | Umts_SysInfoType12 => 30
  | Umts_SysInfoType13 => 31
  | Umts_SysInfoType13_1 => 32
  | Umts_SysInfoType13_2 => 33
  | Umts_SysInfoType13_3 => 34
  | Umts_SysInfoType13_4 => 35
  | Umts_SysInfoType14 => 36
  | Umts_SysInfoType15 => 37
  | Umts_SysInfoType15bis => 38
  | Umts_SysInfoType15_1 => 39
  | Umts_SysInfoType15_1bis => 40
  | Umts_SysInfoType15_2 => 41
  | Umts_SysInfoType15_2bis => 42
  | Umts_SysInfoType15_2ter => 43
  | Umts_SysInfoType15_3 => 44
  | Umts_SysInfoType15_3bis => 45
  | Umts_SysInfoType15_4 => 46
  | Umts_SysInfoType15_5 => 47
  | Umts_SysInfoType15_6 => 48
  | Umts_SysInfoType15_7 => 49
  | Umts_SysInfoType15_8 => 50
  | Umts_SysInfoType16 => 51
  | Umts_SysInfoType17 => 52
  | Umts_SysInfoType18 => 53
  | Umts_SysInfoType19 => 54
  | Umts_SysInfoType20 => 55
  | Umts_SysInfoType21 => 56
  | Umts_SysInfoType22 => 57
  | Umts_SysInfoTypeSB1 => 58
  | Umts_SysInfoTypeSB2 => 59
  | Umts_ToTargetRNCContainer => 60
  | Umts_TargetRNCToSourceRNCContainer => 61
  end.

Definition UmtsRrcSubtype_try_from (v : Z) : option UmtsRrcSubtype :=
  match v with
  | 0 => Some Umts_DlDcch
  | 1 => Some Umts_UlDcch
  | 2 => Some Umts_DlCcch
  | 3 => Some Umts_UlCcch
  | 4 => Some Umts_Pcch
  | 5 => Some Umts_DlShcch
  | 6 => Some Umts_UlShcch
  | 7 => Some Umts_BcchFach
  | 8 => Some Umts_BcchBch
  | 9 => Some Umts_Mcch
  | 10 => Some Umts_Msch
  | 11 => Some Umts_HandoverToUTRANCommand
  | 12 => Some Umts_InterRATHandoverInfo
  | 13 => Some Umts_SystemInformationBCH
  | 14 => Some Umts_SystemInformationContainer
  | 15 => Some Umts_UERadioAccessCapabilityInfo
  | 16 => Some Umts_MasterInformationBlock
  | 17 => Some Umts_SysInfoType1
  | 18 => Some Umts_SysInfoType2
  | 19 => Some Umts_SysInfoType3
  | 20 => Some Umts_SysInfoType4
  | 21 => Some Umts_SysInfoType5
  | 22 => Some Umts_SysInfoType5bis
  | 23 => Some Umts_SysInfoType6
  | 24 => Some Umts_SysInfoType7
  | 25 => Some Umts_SysInfoType8
  | 26 => Some Umts_SysInfoType9
  | 27 => Some Umts_SysInfoType10
  | 28 => Some Umts_SysInfoType11
  | 29 => Some Umts_SysInfoType11bis
  | 30 => Some Umts_SysInfoType12
  | 31 => Some Umts_SysInfoType13
  | 32 => Some Umts_SysInfoType13_1
  | 33 => Some Umts_SysInfoType13_2
  | 34 => Some Umts_SysInfoType13_3
  | 35 => Some Umts_SysInfoType13_4
  | 36 => Some Umts_SysInfoType14
  | 37 => Some Umts_SysInfoType15
  | 38 => Some Umts_SysInfoType15bis
  | 39 => Some Umts_SysInfoType15_1
  | 40 => Some Umts_SysInfoType15_1bis
  | 41 => Some Umts_SysInfoType15_2
  | 42 => Some Umts_SysInfoType15_2bis
  | 43 => Some Umts_SysInfoType15_2ter
  | 44 => Some Umts_SysInfoType15_3
  | 45 => Some Umts_SysInfoType15_3bis
  | 46 => Some Umts_SysInfoType15_4
  | 47 => Some Umts_SysInfoType15_5
  | 48 => Some Umts_SysInfoType15_6
  | 49 => Some Umts_SysInfoType15_7
  | 50 => Some Umts_SysInfoType15_8
  | 51 => Some Umts_SysInfoType16
  | 52 => Some Umts_SysInfoType17
  | 53 => Some Umts_SysInfoType18
  | 54 => Some Umts_SysInfoType19
  | 55 => Some Umts_SysInfoType20
  | 56 => Some Umts_SysInfoType21
  | 57 => Some Umts_SysInfoType22
  | 58 => Some Umts_SysInfoTypeSB1
  | 59 => Some Umts_SysInfoTypeSB2
  | 60 => Some Umts_ToTargetRNCContainer
  | 61 => Some Umts_TargetRNCToSourceRNCContainer
  | _ => None
  end.

Definition LteRrcSubtype_as_u8 (s : LteRrcSubtype) : Z :=
  match s with
  | Lte_DlCcch => 0
  | Lte_DlDcch => 1
  | Lte_UlCcch => 2
  | Lte_UlDcch => 3
  | Lte_BcchBch => 4
  | Lte_BcchDlSch => 5
  | Lte_PCCH => 6
  | Lte_MCCH => 7
  | Lte_BcchBchMbms => 8
  | Lte_BcchDlSchBr => 9
  | Lte_BcchDlSchMbms => 10
  | Lte_ScMcch => 11
  | Lte_SbcchSlBch => 12
  | Lte_SbcchSlBchV2x => 13
  | Lte_DlCcchNb => 14
  | Lte_DlDcchNb => 15
  | Lte_UlCcchNb => 16
  | Lte_UlDcchNb => 17
  | Lte_BcchBchNb => 18
  | Lte_BcchBchTddNb => 19
  | Lte_BcchDlSchNb => 20
  | Lte_PcchNb => 21
  | Lte_ScMcchNb => 22
  end.

Definition LteRrcSubtype_try_from (v : Z) : option LteRrcSubtype :=
  match v with
  | 0 => Some Lte_DlCcch
  | 1 => Some Lte_DlDcch
  | 2 => Some Lte_UlCcch
  | 3 => Some Lte_UlDcch
  | 4 => Some Lte_BcchBch
  | 5 => Some Lte_BcchDlSch
  | 6 => Some Lte_PCCH
  | 7 => Some Lte_MCCH
  | 8 => Some Lte_BcchBchMbms
  | 9 => Some Lte_BcchDlSchBr
  | 10 => Some Lte_BcchDlSchMbms
  | 11 => Some Lte_ScMcch
  | 12 => Some Lte_SbcchSlBch
  | 13 => Some Lte_SbcchSlBchV2x
  | 14 => Some Lte_DlCcchNb
  | 15 => Some Lte_DlDcchNb
  | 16 => Some Lte_UlCcchNb
  | 17 => Some Lte_UlDcchNb
  | 18 => Some Lte_BcchBchNb
  | 19 => Some Lte_BcchBchTddNb
  | 20 => Some Lte_BcchDlSchNb
  | 21 => Some Lte_PcchNb
  | 22 => Some Lte_ScMcchNb
  | _ => None
  end.

(** [GsmtapType::new]. *)
Definition GsmtapType_new (gsmtap_type gsmtap_subtype : Z) : result GsmtapTypeError GsmtapType :=
  let maybe_result :=
    match gsmtap_type with
    | 0x01 => Um <$> UmSubtype_try_from gsmtap_subtype
    | 0x02 => Some Abis
    | 0x03 => Some UmBurst
    | 0x04 => Some SIM
    | 0x05 => Some TetraI1
    | 0x06 => Some TetraI1Burst
    | 0x07 => Some WmxBurst
    | 0x08 => Some GbLlc
    | 0x09 => Some GbSndcp
    | 0x0a => Some Gmr1Um
    | 0x0b => Some UmtsRlcMac
    | 0x0c => UmtsRrc <$> UmtsRrcSubtype_try_from gsmtap_subtype
    | 0x0d => LteRrc <$> LteRrcSubtype_try_from gsmtap_subtype
    | 0x0e => Some LteMac
    | 0x0f => Some LteMacFramed
    | 0x10 => Some OsmocoreLog
    | 0x11 => Some QcDiag
    | 0x12 => LteNas <$> LteNasSubtype_try_from gsmtap_subtype
    | 0x13 => Some E1T1
    | 0x14 => Some GsmRlp
    | _ => None
    end in
  ok_or (InvalidTypeSubtypeCombo gsmtap_type gsmtap_subtype) maybe_result.

Definition get_type (self : GsmtapType) : Z :=
  match self with
  | Um _ => 0x01
  | Abis => 0x02
  | UmBurst => 0x03
  | SIM => 0x04
  | TetraI1 => 0x05
  | TetraI1Burst => 0x06
  | WmxBurst => 0x07
  | GbLlc => 0x08
  | GbSndcp => 0x09
  | Gmr1Um => 0x0a
  | UmtsRlcMac => 0x0b
  | UmtsRrc _ => 0x0c
  | LteRrc _ => 0x0d
  | LteMac => 0x0e
  | LteMacFramed => 0x0f
  | OsmocoreLog => 0x10
  | QcDiag => 0x11
  | LteNas _ => 0x12
  | E1T1 => 0x13
  | GsmRlp => 0x14
  end.

Definition get_subtype (self : GsmtapType) : Z :=
  match self with
  | Um subtype => UmSubtype_as_u8 subtype
  | UmtsRrc subtype => UmtsRrcSubtype_as_u8 subtype
  | LteRrc subtype => LteRrcSubtype_as_u8 subtype
  | LteNas subtype => LteNasSubtype_as_u8 subtype
  | _ => 0
  end.

(** ** Header and message *)

Record GsmtapHeader := {
  gsmtap_type : GsmtapType;
  version : Z;
  header_len : Z;
  packet_type : Z;
  timeslot : Z;
  pcs_band_indicator : bool;
  uplink : bool;
  arfcn : Z;
  signal_dbm : Z;
  signal_noise_ratio_db : Z;
  frame_number : Z;
  subtype : Z;
  antenna_number : Z;
  subslot : Z;
  reserved : Z
}.

Definition GsmtapHeader_new (t : GsmtapType) : GsmtapHeader := {|
  gsmtap_type := t;
  version := 2;
  header_len := 4;
  packet_type := get_type t;
  timeslot := 0;
  pcs_band_indicator := false;
  uplink := false;
  arfcn := 0;
  signal_dbm := 0;
  signal_noise_ratio_db := 0;
  frame_number := 0;
  subtype := get_subtype t;
  antenna_number := 0;
  subslot := 0;
  reserved := 0
|}.

Record GsmtapMessage := { header : GsmtapHeader; payload : list Z }.

(** The layout the header's attributes declare: [gsmtap_type] is skipped, every integer is
    big-endian, and the three [assert_eq] fields are checked. *)
Definition header_fields (h : GsmtapHeader) : list (nat * Z) :=
  [(8%nat, version h); (8%nat, header_len h); (8%nat, packet_type h); (8%nat, timeslot h);
   (1%nat, bit (pcs_band_indicator h)); (1%nat, bit (uplink h)); (14%nat, arfcn h);
   (8%nat, wrapu 8 (signal_dbm h)); (8%nat, signal_noise_ratio_db h);
   (32%nat, frame_number h); (8%nat, subtype h); (8%nat, antenna_number h);
   (8%nat, subslot h); (8%nat, reserved h)].

Definition header_asserts (h : GsmtapHeader) : bool :=
  (version h =? 2) && (header_len h =? 4) && (reserved h =? 0).

Definition GsmtapHeader_to_bytes {D : Deku} (h : GsmtapHeader) : result DekuError (list Z) :=
  if header_asserts h then deku_to_bytes (header_fields h) else Err deku_assertion.

Definition GsmtapMessage_to_bytes {D : Deku} (m : GsmtapMessage) : result DekuError (list Z) :=
  match GsmtapHeader_to_bytes (header m) with
  | Ok bytes => Ok (bytes ++ payload m)
  | Err e => Err e
  end.

(** ** Lemmas *)

Lemma get_type_u8 t : is_u8 (get_type t).
Proof. destruct t; by vm_compute. Qed.

Lemma get_subtype_u8 t : is_u8 (get_subtype t).
Proof. destruct t as [[]| | | | | | | | | | |[]|[]| | | | |[]| |]; by vm_compute. Qed.

(** The fields of a header whose numbers are in range for their types. *)
Record header_ok (h : GsmtapHeader) : Prop := {
  ok_asserts : header_asserts h = true;
  ok_fields : fields_ok (header_fields h)
}.

(** The bytes of a header that fits. *)
Definition header_bytes (h : GsmtapHeader) : list Z := pack_bits (fields_bits (header_fields h)).

Lemma header_to_bytes_ok {D : Deku} h :
  header_ok h -> GsmtapHeader_to_bytes h = Ok (header_bytes h).
Proof.
  intros [Ha Hf]. unfold GsmtapHeader_to_bytes. rewrite Ha. by apply deku_to_bytes_ok.
Qed.

Lemma bit_u1 b : in_u 1 (bit b).
Proof. destruct b; by vm_compute. Qed.

(** The sixteen bytes spelt out. *)
Definition header_layout (h : GsmtapHeader) : list Z :=
  [version h; header_len h; packet_type h; timeslot h]
  ++ be_bytes 2 ((bit (pcs_band_indicator h) * 2 + bit (uplink h)) * 2 ^ 14 + arfcn h)
  ++ [wrapu 8 (signal_dbm h); signal_noise_ratio_db h]
  ++ be_bytes 4 (frame_number h)
  ++ [subtype h; antenna_number h; subslot h; reserved h].

Lemma header_bits_layout h :
  fields_ok (header_fields h) -> fields_bits (header_fields h) = bytes_bits (header_layout h).
Proof.
  intros Hf. unfold fields_ok, header_fields in Hf.
  forall_inv.
  unfold header_layout. rewrite !bytes_bits_app.
  rewrite <- (msb_bits_bytes 4) by (unfold in_u in *; lia).
  pose proof (bit_u1 (pcs_band_indicator h)) as Hb. pose proof (bit_u1 (uplink h)) as Hu.
  unfold in_u in *. rewrite <- (msb_bits_bytes 2) by lia.
  change (8 * 2)%nat with (2 + 14)%nat. rewrite <- (msb_bits_cat 2 14) by (unfold in_u; lia).
  rewrite <- (msb_bits_cat 1 1) by (unfold in_u; lia).
  unfold fields_bits, header_fields, bytes_bits. cbn [flat_map].
  by rewrite !app_nil_r, <- !app_assoc.
Qed.

Lemma header_layout_bytes h : fields_ok (header_fields h) -> bytes_ok (header_layout h).
Proof.
  intros Hf. unfold fields_ok, header_fields in Hf.
  forall_inv.
  unfold header_layout, bytes_ok. rewrite !Forall_app.
  repeat split; try apply be_bytes_ok; forall_list done.
Qed.

(** Serializing a header that fits gives its layout. *)
Lemma header_to_bytes_layout {D : Deku} h :
  header_ok h -> GsmtapHeader_to_bytes h = Ok (header_layout h).
Proof.
  intros [Ha Hf]. unfold GsmtapHeader_to_bytes. rewrite Ha, deku_to_bytes_ok by done.
  f_equal. rewrite header_bits_layout by done. by apply pack_bytes, header_layout_bytes.
Qed.

Lemma header_layout_length h : length (header_layout h) = 16%nat.
Proof. done. Qed.

(** Headers whose numbers were set the way the program sets them are well formed. *)
Lemma header_new_ok t : header_ok (GsmtapHeader_new t).
Proof.
  split; [done|]. pose proof (get_type_u8 t). pose proof (get_subtype_u8 t).
  unfold fields_ok, header_fields, GsmtapHeader_new; simpl.
  forall_list ltac:(first [done | by vm_compute]).
Qed.

(** Unless the subtype is out of range for its type, [GsmtapType_new] inverts the numbers. *)
Lemma GsmtapType_new_type t st : 0 <= st ->
  is_ok (GsmtapType_new (get_type t) st) = true ->
  exists t', GsmtapType_new (get_type t) st = Ok t' /\ get_type t' = get_type t.
Proof.
  intros Hst. destruct t; unfold GsmtapType_new; cbn [get_type ok_or is_ok];
    try (intros _; eexists; split; [reflexivity|]; reflexivity);
    (destruct (_ <$> _) as [t'|] eqn:Ht; [|done]); intros _;
    apply fmap_Some in Ht as (s' & _ & ->); eexists; split; done.
Qed.

(** ** Properties *)

(** The numbers of a frame name its type.  For every GSMTAP type, reading back the
    packet type and subtype numbers its header is given yields the type again; so distinct
    types never share a pair of numbers on the wire. *)
Theorem GsmtapType_new_roundtrip (t : GsmtapType) :
  GsmtapType_new (get_type t) (get_subtype t) = Ok t /\
  forall t', get_type t' = get_type t -> get_subtype t' = get_subtype t -> t' = t.
Proof.
  assert (H : forall u, GsmtapType_new (get_type u) (get_subtype u) = Ok u).
  { intros [[]| | | | | | | | | | |[]|[]| | | | |[]| |]; reflexivity. }
  split; [apply H|]. intros t' H1 H2. pose proof (H t') as H'. rewrite H1, H2, H in H'.
  by injection H'.
Qed.

(** The header's layout.  A header whose fields fit is serialized to exactly sixteen
    bytes, the four words its own length field claims: version, length, packet type and
    timeslot; the band and uplink bits above the fourteen bits of the channel number, in
    network order; signal and noise; the frame number, in network order; and subtype,
    antenna, subslot and the reserved zero. *)
Theorem GsmtapHeader_to_bytes_layout {D : Deku} (h : GsmtapHeader) :
  header_ok h ->
  exists bytes, GsmtapHeader_to_bytes h = Ok bytes /\
    Z.of_nat (length bytes) = 4 * header_len h /\ bytes_ok bytes /\
    bytes = [2; 4; packet_type h; timeslot h;
             128 * bit (pcs_band_indicator h) + 64 * bit (uplink h) + arfcn h / 256;
             arfcn h mod 256; wrapu 8 (signal_dbm h); signal_noise_ratio_db h;
             frame_number h / 2 ^ 24; (frame_number h / 2 ^ 16) mod 256;
             (frame_number h / 2 ^ 8) mod 256; frame_number h mod 256;
             subtype h; antenna_number h; subslot h; 0].
Proof.
  intros Hok. exists (header_layout h). split; [by apply header_to_bytes_layout|].
  destruct Hok as [Ha Hf]. pose proof (header_layout_bytes h Hf) as Hbytes.
  unfold header_asserts in Ha. zbool.
  split; [rewrite header_layout_length; lia|]. split; [done|].
  unfold fields_ok, header_fields in Hf.
  forall_inv.
  unfold in_u, header_layout, be_bytes in *. cbn [le_bytes rev app] in *.
  pose proof (bit_u1 (pcs_band_indicator h)) as Hb. pose proof (bit_u1 (uplink h)) as Hu.
  unfold in_u in Hb, Hu.
  clear Hbytes. cbn [Z.of_nat Pos.of_succ_nat Pos.succ] in *.
  rewrite !Z.div_div by lia.
  destruct (pcs_band_indicator h), (uplink h); cbn [bit] in *;
    cons_eq ltac:(first [reflexivity | lia | dlia]).
Qed.

Lemma GsmtapHeader_to_bytes_layout_witness :
  @GsmtapHeader_to_bytes deku_fits (GsmtapHeader_new (LteRrc Lte_BcchDlSch))
  = Ok [2; 4; 13; 0; 0; 0; 0; 0; 0; 0; 0; 0; 5; 0; 0; 0].
Proof.
  destruct (@GsmtapHeader_to_bytes_layout deku_fits (GsmtapHeader_new (LteRrc Lte_BcchDlSch))
              (header_new_ok _)) as (bytes & -> & _ & _ & ->).
  reflexivity.
Defined.
