(* ===== verification/GsmtapMac.v ===== *)
(** * MAC-LTE frames ([lib/src/gsmtap/mac.rs])

    GSMTAP frames for random access responses and transport blocks, with the context bytes
    Wireshark's dissector reads.  [parse_mac_rar] of
    [lib/src/analysis/information_element.rs], which reads a response back out of such a
    frame, is here beside its writer. *)

From S2P Require Import Prelude Deku DiagLog Gsmtap.

Local Open Scope Z_scope.

(** ** Layouts *)

Inductive RadioType := Fdd | Tdd.
Inductive Direction := DirUplink | DirDownlink.
Inductive RntiType :=
| Rnti_No | Rnti_P | Rnti_Ra | Rnti_C | Rnti_Si | Rnti_Sps | Rnti_M | Rnti_Sl | Rnti_Sc | Rnti_G.

Definition RadioType_id (r : RadioType) : Z := match r with Fdd => 1 | Tdd => 2 end.
Definition Direction_id (d : Direction) : Z := match d with DirUplink => 0 | DirDownlink => 1 end.
Definition RntiType_id (r : RntiType) : Z :=
  match r with
  | Rnti_No => 0 | Rnti_P => 1 | Rnti_Ra => 2 | Rnti_C => 3 | Rnti_Si => 4 | Rnti_Sps => 5
  | Rnti_M => 6 | Rnti_Sl => 7 | Rnti_Sc => 9 | Rnti_G => 10
  end.

Record MacHeader := { radio_type : RadioType; direction : Direction; rnti_type : RntiType }.

Definition MacHeader_fields (h : MacHeader) : list (nat * Z) :=
  [(8%nat, RadioType_id (radio_type h)); (8%nat, Direction_id (direction h));
   (8%nat, RntiType_id (rnti_type h))].

Record ETRAPIDSubheader := { extended : bool; type_field : bool; rapid : Z }.

Definition ETRAPIDSubheader_fields (h : ETRAPIDSubheader) : list (nat * Z) :=
  [(1%nat, bit (extended h)); (1%nat, bit (type_field h)); (6%nat, rapid h)].

Record RACHResponse := { tac : Z; ul_grant : Z; rar_tc_rnti : Z }.

Definition RACHResponse_fields (r : RACHResponse) : list (nat * Z) :=
  [(1%nat, 0); (11%nat, tac r); (20%nat, ul_grant r); (16%nat, rar_tc_rnti r)].

Definition MAC_LTE_PAYLOAD_TAG : Z := 0x01.
Definition MAC_LTE_FRAME_SUBFRAME_TAG : Z := 0x04.

(** ** Frames *)

Definition wireshark_rnti_type (qualcomm : Z) : RntiType :=
  match qualcomm with
  | 0 | 4 => Rnti_C
  | 2 => Rnti_P
  | 3 => Rnti_Ra
  | 5 => Rnti_Si
  | _ => Rnti_No
  end.

Definition transport_block_gsmtap {D : Deku} (downlink : bool) (rnti_type sfn_subfn : Z)
    (mac_header : list Z) : result DekuError GsmtapMessage :=
  h ← deku_to_bytes (MacHeader_fields {|
        radio_type := Fdd;
        direction := if downlink then DirDownlink else DirUplink;
        rnti_type := wireshark_rnti_type rnti_type |});
  Ok {| header := GsmtapHeader_new LteMacFramed;
        payload := h ++ [MAC_LTE_FRAME_SUBFRAME_TAG] ++ be_bytes 2 sfn_subfn
                     ++ [MAC_LTE_PAYLOAD_TAG] ++ mac_header |}.

Definition mac_transport_to_gsmtap {D : Deku} (subpacket : SubpacketBody)
    : result DekuError (list GsmtapMessage) :=
  match subpacket with
  | DlTransportBlock blocks =>
      collect_result (fun b => transport_block_gsmtap true (dl_rnti_type b) (dl_sfn_subfn b)
                                 (dl_mac_header b)) (dl_samples blocks)
  | UlTransportBlock blocks =>
      collect_result (fun b => transport_block_gsmtap false (ul_rnti_type b) (ul_sfn_subfn b)
                                 (ul_mac_header b)) (ul_samples blocks)
  | _ => Ok []
  end.

Definition mac_subpacket_to_gsmtap {D : Deku} (subpacket : SubpacketBody)
    : result DekuError (option GsmtapMessage) :=
  match subpacket with
  | RachAttempt attempt =>
      match get_msg1 attempt, get_msg2 attempt, get_msg3 attempt with
      | Some msg1, Some msg2, Some msg3 =>
          h ← deku_to_bytes (MacHeader_fields {|
                radio_type := Fdd; direction := DirDownlink; rnti_type := Rnti_Ra |});
          sub ← deku_to_bytes (ETRAPIDSubheader_fields {|
                extended := false; type_field := true;
                rapid := Z.land (get_preamble_index msg1) 0x3f |});
          body ← deku_to_bytes (RACHResponse_fields {|
                tac := Z.land (ta msg2) 0x7ff;
                ul_grant := get_grant msg3;
                rar_tc_rnti := tc_rnti msg2 |});
          Ok (Some {| header := GsmtapHeader_new LteMacFramed;
                      payload := h ++ [0x01] ++ sub ++ body |})
      | _, _, _ => Ok None
      end
  | _ => Ok None
  end.

(** ** Reading a response back *)

Record MacRandomAccessResponse := {
  timing_advance : Z;
  mar_tc_rnti : Z;
  preamble : Z
}.

Definition TAG : nat := 3.
Definition SUBHEADER : nat := 4.
Definition BODY : nat := 5.
Definition BODY_LEN : nat := 6.
Definition PAYLOAD_TAG : Z := 0x01.
Definition RNTI_TYPE : nat := 2.
Definition RA_RNTI : Z := 2.

Definition parse_mac_rar (payload : list Z) : option MacRandomAccessResponse :=
  if (length payload <? BODY + BODY_LEN)%nat then None
  else if negb (nth TAG payload 0 =? PAYLOAD_TAG) || negb (nth RNTI_TYPE payload 0 =? RA_RNTI)
  then None
  else
    let body := take BODY_LEN (drop BODY payload) in
    Some {|
      timing_advance := Z.lor (wrapu 16 (Z.shiftl (Z.land (nth 0 body 0) 0x7f) 4))
                              (Z.shiftr (nth 1 body 0) 4);
      mar_tc_rnti := be_value [nth 4 body 0; nth 5 body 0];
      preamble := Z.land (nth SUBHEADER payload 0) 0x3f
    |}.

(** ** Lemmas *)

Lemma land_ones_range v n : 0 <= n -> 0 <= Z.land v (Z.ones n) < 2 ^ n.
Proof. intros. rewrite Z.land_ones by done. apply Z.mod_pos_bound. lia. Qed.

Lemma MacHeader_bytes {D : Deku} h :
  deku_to_bytes (MacHeader_fields h)
  = Ok [RadioType_id (radio_type h); Direction_id (direction h); RntiType_id (rnti_type h)].
Proof.
  destruct h as [[] [] []]; rewrite deku_to_bytes_ok; try reflexivity;
    unfold fields_ok, MacHeader_fields; forall_list ltac:(by vm_compute).
Qed.

Lemma ETRAPID_bytes {D : Deku} r : in_u 6 r ->
  deku_to_bytes (ETRAPIDSubheader_fields {| extended := false; type_field := true; rapid := r |})
  = Ok [64 + r].
Proof.
  intros Hr. rewrite deku_to_bytes_ok; unfold ETRAPIDSubheader_fields; cbn [extended type_field rapid].
  - unfold fields_bits. cbn [flat_map]. rewrite app_nil_r.
    change (bit false) with 0. change (bit true) with 1.
    rewrite app_assoc, msb_bits_cat by (try done; by vm_compute).
    rewrite msb_bits_cat by (try done; by vm_compute).
    rewrite <- (app_nil_r (msb_bits _ _)). rewrite pack_byte; [done|].
    unfold in_u in *. simpl in *. lia.
  - unfold fields_ok. forall_list ltac:(first [done | by vm_compute]).
Qed.

(** The response body: a reserved bit, the timing advance, the grant and the identity. *)
Lemma RACHResponse_bytes {D : Deku} r :
  in_u 11 (tac r) -> in_u 20 (ul_grant r) -> is_u16 (rar_tc_rnti r) ->
  deku_to_bytes (RACHResponse_fields r)
  = Ok (be_bytes 4 (tac r * 2 ^ 20 + ul_grant r) ++ be_bytes 2 (rar_tc_rnti r)).
Proof.
  intros Ht Hg Hr. rewrite deku_to_bytes_ok; unfold RACHResponse_fields.
  - unfold fields_bits. cbn [flat_map]. rewrite app_nil_r. unfold in_u in *.
    rewrite !app_assoc. rewrite msb_bits_cat by (unfold in_u; simpl; lia).
    rewrite msb_bits_cat by (unfold in_u; simpl; lia). simpl Nat.add.
    rewrite (msb_bits_bytes 4) by (simpl; lia). rewrite (msb_bits_bytes 2) by lia.
    rewrite <- bytes_bits_app. rewrite pack_bytes; [done|].
    apply Forall_app_2; apply be_bytes_ok.
  - unfold fields_ok. forall_list ltac:(first [done | by vm_compute]).
Qed.

(** The frame of a response, byte by byte. *)
Lemma mac_subpacket_rar {D : Deku} attempt m1 m2 m3 :
  get_msg1 attempt = Some m1 -> get_msg2 attempt = Some m2 -> get_msg3 attempt = Some m3 ->
  in_u 20 (get_grant m3) -> is_u16 (tc_rnti m2) ->
  mac_subpacket_to_gsmtap (RachAttempt attempt) =
  Ok (Some {| header := GsmtapHeader_new LteMacFramed;
              payload := [1; 1; 2; 1; 64 + Z.land (get_preamble_index m1) 0x3f]
                ++ be_bytes 4 (Z.land (ta m2) 0x7ff * 2 ^ 20 + get_grant m3)
                ++ be_bytes 2 (tc_rnti m2) |}).
Proof.
  intros H1 H2 H3 Hg Hr. unfold mac_subpacket_to_gsmtap. rewrite H1, H2, H3.
  rewrite MacHeader_bytes. cbn [mbind result_bind].
  rewrite ETRAPID_bytes by (apply (land_ones_range _ 6); lia).
  rewrite RACHResponse_bytes by (first [done | apply (land_ones_range _ 11); lia]).
  done.
Qed.

(** Eleven bits of timing advance, split over two bytes and put together again. *)
Lemma rar_timing_advance t g :
  0 <= t < 2 ^ 11 -> 0 <= g < 2 ^ 20 ->
  let v := t * 2 ^ 20 + g in
  Z.lor (wrapu 16 (Z.shiftl (Z.land ((v / 256 / 256 / 256) mod 256) 0x7f) 4))
        (Z.shiftr ((v / 256 / 256) mod 256) 4) = t.
Proof.
  intros Ht Hg v. change 0x7f with (Z.ones 7). rewrite Z.land_ones by lia.
  assert (Hv : v / 256 / 256 / 256 = t / 16) by (unfold v; dlia).
  assert (Hw : v / 256 / 256 = t * 16 + g / 2 ^ 16) by (unfold v; dlia).
  rewrite Hv, Hw. rewrite Z.shiftr_div_pow2 by lia.
  assert (Hlo : ((t * 16 + g / 2 ^ 16) mod 256) / 2 ^ 4 = t mod 16) by dlia.
  rewrite Hlo, wrapu_id.
  - rewrite lor_shiftl by (first [lia | dlia]). dlia.
  - rewrite Z.shiftl_mul_pow2 by lia. unfold in_u. dlia.
Qed.

Lemma rar_preamble p : 0 <= p < 2 ^ 6 -> Z.land (64 + p) 0x3f = p.
Proof. intros Hp. change 0x3f with (Z.ones 6). rewrite Z.land_ones by lia. dlia. Qed.

(** A transport block's frame spelt out: context, frame tag, frame number, payload tag. *)
Definition transport_frame (downlink : bool) (rnti sfn : Z) (hdr : list Z) : GsmtapMessage := {|
  header := GsmtapHeader_new LteMacFramed;
  payload := [1; bit downlink; RntiType_id (wireshark_rnti_type rnti); 4]
               ++ be_bytes 2 sfn ++ [1] ++ hdr |}.

Lemma transport_block_frame {D : Deku} downlink rnti sfn hdr :
  transport_block_gsmtap downlink rnti sfn hdr = Ok (transport_frame downlink rnti sfn hdr).
Proof.
  unfold transport_block_gsmtap. rewrite MacHeader_bytes. by destruct downlink.
Qed.

(** The frames of a record's samples, in order. *)
Definition transport_frames (body : SubpacketBody) : list GsmtapMessage :=
  match body with
  | DlTransportBlock b =>
      map (fun x => transport_frame true (dl_rnti_type x) (dl_sfn_subfn x) (dl_mac_header x))
        (dl_samples b)
  | UlTransportBlock b =>
      map (fun x => transport_frame false (ul_rnti_type x) (ul_sfn_subfn x) (ul_mac_header x))
        (ul_samples b)
  | _ => []
  end.

Definition transport_headers (body : SubpacketBody) : list (list Z) :=
  match body with
  | DlTransportBlock b => map dl_mac_header (dl_samples b)
  | UlTransportBlock b => map ul_mac_header (ul_samples b)
  | _ => []
  end.

Lemma mac_transport_ok {D : Deku} body : mac_transport_to_gsmtap body = Ok (transport_frames body).
Proof.
  assert (H : forall A (f : A -> result DekuError GsmtapMessage) g l,
    (forall x, f x = Ok (g x)) -> collect_result f l = Ok (map g l)).
  { intros A f g l Hf. apply collect_result_ok. induction l; by constructor. }
  destruct body; try done; apply H; intros x; apply transport_block_frame.
Qed.

Lemma transport_frames_headers body :
  map (fun m => drop 7 (payload m)) (transport_frames body) = transport_headers body.
Proof. destruct body; simpl; try done; rewrite map_map; by apply map_ext. Qed.

Lemma transport_frames_Forall (P : GsmtapMessage -> Prop) body :
  (forall dl rnti sfn hdr, P (transport_frame dl rnti sfn hdr)) -> Forall P (transport_frames body).
Proof. intros HP. destruct body; simpl; try constructor; apply Forall_fmap, Forall_true; intros; apply HP. Qed.

Lemma transport_frame_not_rar downlink rnti sfn hdr :
  parse_mac_rar (payload (transport_frame downlink rnti sfn hdr)) = None.
Proof. unfold parse_mac_rar. by destruct (_ <? _)%nat. Qed.

(** ** Properties *)

(** A random access response survives the trip through GSMTAP.  When the modem reports
    all three messages of an attempt, the frame built for the capture is read back by the
    analysis side to the low eleven bits of its timing advance, its temporary identity and
    the low six bits of its preamble index, whatever the grant, which the frame carries
    between them. *)
Theorem parse_mac_rar_roundtrip {D : Deku} attempt m1 m2 m3 :
  get_msg1 attempt = Some m1 -> get_msg2 attempt = Some m2 -> get_msg3 attempt = Some m3 ->
  in_u 20 (get_grant m3) -> is_u16 (tc_rnti m2) ->
  exists frame,
    mac_subpacket_to_gsmtap (RachAttempt attempt) = Ok (Some frame) /\
    gsmtap_type (header frame) = LteMacFramed /\
    parse_mac_rar (payload frame) = Some {|
      timing_advance := (ta m2) mod 2 ^ 11;
      mar_tc_rnti := tc_rnti m2;
      preamble := (get_preamble_index m1) mod 2 ^ 6 |}.
Proof.
  intros H1 H2 H3 Hg Hr. eexists. split; [by apply mac_subpacket_rar|]. split; [done|].
  cbn [payload]. set (t := Z.land (ta m2) 0x7ff). set (p := Z.land (get_preamble_index m1) 0x3f).
  assert (Ht : 0 <= t < 2 ^ 11) by (apply (land_ones_range _ 11); lia).
  assert (Hp : 0 <= p < 2 ^ 6) by (apply (land_ones_range _ 6); lia).
  rewrite <- (Z.land_ones (ta m2) 11), <- (Z.land_ones (get_preamble_index m1) 6) by lia.
  change (Z.land (ta m2) (Z.ones 11)) with t.
  change (Z.land (get_preamble_index m1) (Z.ones 6)) with p.
  unfold parse_mac_rar, be_bytes. cbn [le_bytes rev app length Nat.add BODY BODY_LEN Nat.ltb Nat.leb
    nth TAG RNTI_TYPE SUBHEADER take drop PAYLOAD_TAG RA_RNTI Z.eqb Pos.eqb negb orb].
  unfold in_u in Hg, Hr. f_equal. f_equal.
  - by apply rar_timing_advance.
  - unfold be_value. simpl. dlia.
  - by apply rar_preamble.
Qed.

Lemma parse_mac_rar_roundtrip_witness :
  let attempt := {|
    attempt_header := AttemptHeader_V2 1 0 0 7;
    msg1 := Msg1_V2 70 0 0;
    msg2 := {| backoff := 0; msg2_result := 0; tc_rnti := 0x1234; ta := 5 |};
    msg3 := {| grant := Msg3Grant_V1 0xfffff; unk_grant := 0; msg3_harq_id := 0; mac_pdu := [] |};
    additional_info := None |} in
  exists frame, @mac_subpacket_to_gsmtap deku_fits (RachAttempt attempt) = Ok (Some frame) /\
    parse_mac_rar (payload frame)
    = Some {| timing_advance := 5; mar_tc_rnti := 0x1234; preamble := 6 |}.
Proof.
  intros attempt.
  destruct (@parse_mac_rar_roundtrip deku_fits attempt (msg1 attempt) (msg2 attempt)
              (msg3 attempt)) as (frame & H1 & _ & H3);
    [reflexivity | reflexivity | reflexivity | by vm_compute | by vm_compute |].
  exists frame. split; [exact H1 | exact H3].
Defined.

(** A transport block is never mistaken for a random access response, and loses nothing
    of what was on the air: each sample of a downlink or uplink record becomes its own
    frame, in order, whose payload ends with exactly the sample's MAC header, and
    [parse_mac_rar] refuses every one of them. *)
Theorem transport_blocks_not_rar {D : Deku} (body : SubpacketBody) :
  exists frames, mac_transport_to_gsmtap body = Ok frames /\
    Forall (fun m => gsmtap_type (header m) = LteMacFramed /\ parse_mac_rar (payload m) = None) frames /\
    map (fun m => drop 7 (payload m)) frames = transport_headers body.
Proof.
  exists (transport_frames body). split; [apply mac_transport_ok|]. split.
  - apply transport_frames_Forall. intros. split; [done|]. apply transport_frame_not_rar.
  - apply transport_frames_headers.
Qed.
