(* ===== verification/GsmtapParser.v ===== *)
(** * From diag messages to GSMTAP frames ([lib/src/gsmtap/parser.rs])

    [parse] gives the analysis side at most one frame per diag message; [parse_all] gives the
    capture every frame of it. *)

From S2P Require Import Prelude RustStr Deku DiagLog Diag Gsmtap GsmtapMac.

Local Open Scope Z_scope.

(** ** Channel numbers of [lib/src/log_codes.rs] *)

Definition DCCH : Z := 0x0.
Definition BCCH : Z := 0x1.
Definition L2_RACH : Z := 0x2.
Definition CCCH : Z := 0x3.
Definition SACCH : Z := 0x4.
Definition SDCCH : Z := 0x5.
Definition FACCH_F : Z := 0x6.
Definition FACCH_H : Z := 0x7.
Definition L2_RACH_WITH_NO_DELAY : Z := 0x8.
Definition PACCH_RRBP_CHANNEL : Z := 0x3.
Definition UL_PACCH_CHANNEL : Z := 0x4.
Definition DL_PACCH_CHANNEL : Z := 0x83.
Definition PACKET_CHANNEL_REQUEST : Z := 0x20.
Definition RRCLOG_SIG_UL_CCCH : Z := 0x0.
Definition RRCLOG_SIG_UL_DCCH : Z := 0x1.
Definition RRCLOG_SIG_DL_CCCH : Z := 0x2.
Definition RRCLOG_SIG_DL_DCCH : Z := 0x3.

(** The LTE channel numbers, by log packet version. *)

Definition LTE_BCCH_BCH_V0 : Z := 1.
Definition LTE_BCCH_DL_SCH_V0 : Z := 2.
Definition LTE_MCCH_V0 : Z := 3.
Definition LTE_PCCH_V0 : Z := 4.
Definition LTE_DL_CCCH_V0 : Z := 5.
Definition LTE_DL_DCCH_V0 : Z := 6.
Definition LTE_UL_CCCH_V0 : Z := 7.
Definition LTE_UL_DCCH_V0 : Z := 8.
Definition LTE_BCCH_BCH_V14 : Z := 1.
Definition LTE_BCCH_DL_SCH_V14 : Z := 2.
Definition LTE_MCCH_V14 : Z := 4.
Definition LTE_PCCH_V14 : Z := 5.
Definition LTE_DL_CCCH_V14 : Z := 6.
Definition LTE_DL_DCCH_V14 : Z := 7.
Definition LTE_UL_CCCH_V14 : Z := 8.
Definition LTE_UL_DCCH_V14 : Z := 9.
Definition LTE_BCCH_BCH_V9 : Z := 8.
Definition LTE_BCCH_DL_SCH_V9 : Z := 9.
Definition LTE_MCCH_V9 : Z := 10.
Definition LTE_PCCH_V9 : Z := 11.
Definition LTE_DL_CCCH_V9 : Z := 12.
Definition LTE_DL_DCCH_V9 : Z := 13.
Definition LTE_UL_CCCH_V9 : Z := 14.
Definition LTE_UL_DCCH_V9 : Z := 15.
Definition LTE_BCCH_BCH_V19 : Z := 1.
Definition LTE_BCCH_DL_SCH_V19 : Z := 3.
Definition LTE_MCCH_V19 : Z := 6.
Definition LTE_PCCH_V19 : Z := 7.
Definition LTE_DL_CCCH_V19 : Z := 8.
Definition LTE_DL_DCCH_V19 : Z := 9.
Definition LTE_UL_CCCH_V19 : Z := 10.
Definition LTE_UL_DCCH_V19 : Z := 11.
Definition LTE_BCCH_BCH_NB : Z := 45.
Definition LTE_BCCH_DL_SCH_NB : Z := 46.
Definition LTE_PCCH_NB : Z := 47.
Definition LTE_DL_CCCH_NB : Z := 48.
Definition LTE_DL_DCCH_NB : Z := 49.
Definition LTE_UL_CCCH_NB : Z := 50.
Definition LTE_UL_DCCH_NB : Z := 52.

(** ** Errors *)

Inductive GsmtapParserError :=
| InvalidLteRrcOtaExtHeaderVersion (version : Z)
| InvalidLteRrcOtaHeaderPduNum (version pdu : Z)
| InvalidLteMacRachResponse (s : rstr)
| InvalidLteMacTransportBlock (s : rstr).

(** ** The channel tables *)

Definition gsm_rr_subtype (channel_type : Z) : option UmSubtype :=
  if channel_type =? DCCH then Some Um_Sdcch
  else if channel_type =? BCCH then Some Um_Bcch
  else if (channel_type =? L2_RACH) || (channel_type =? L2_RACH_WITH_NO_DELAY) then Some Um_Rach
  else if channel_type =? CCCH then Some Um_Ccch
  else if channel_type =? SACCH then Some Um_Sdcch
  else if channel_type =? SDCCH then Some Um_Sdcch
  else if channel_type =? FACCH_F then Some Um_TchF
  else if channel_type =? FACCH_H then Some Um_TchH
  else None.

(** The arm for versions 0x02 | 0x03 | 0x04 | 0x06 | 0x07 | 0x08 | 0x0d | 0x16. *)
Definition lte_pdu_v2 (pdu : Z) : option LteRrcSubtype :=
  match pdu with
  | 1 => Some Lte_BcchBch
  | 2 => Some Lte_BcchDlSch
  | 3 => Some Lte_MCCH
  | 4 => Some Lte_PCCH
  | 5 => Some Lte_DlCcch
  | 6 => Some Lte_DlDcch
  | 7 => Some Lte_UlCcch
  | 8 => Some Lte_UlDcch
  | _ => None
  end.

(** The arm for versions 0x09 | 0x0c. *)
Definition lte_pdu_v9 (pdu : Z) : option LteRrcSubtype :=
  match pdu with
  | 8 => Some Lte_BcchBch
  | 9 => Some Lte_BcchDlSch
  | 10 => Some Lte_MCCH
  | 11 => Some Lte_PCCH
  | 12 => Some Lte_DlCcch
  | 13 => Some Lte_DlDcch
  | 14 => Some Lte_UlCcch
  | 15 => Some Lte_UlDcch
  | _ => None
  end.

(** The arm for versions 0x0e..=0x10. *)
Definition lte_pdu_v14 (pdu : Z) : option LteRrcSubtype :=
  match pdu with
  | 1 => Some Lte_BcchBch
  | 2 => Some Lte_BcchDlSch
  | 4 => Some Lte_MCCH
  | 5 => Some Lte_PCCH
  | 6 => Some Lte_DlCcch
  | 7 => Some Lte_DlDcch
  | 8 => Some Lte_UlCcch
  | 9 => Some Lte_UlDcch
  | _ => None
  end.

(** The arm for versions 0x13 | 0x1a | 0x1b. *)
Definition lte_pdu_v19 (pdu : Z) : option LteRrcSubtype :=
  match pdu with
  | 1 => Some Lte_BcchBch
  | 3 => Some Lte_BcchDlSch
  | 6 => Some Lte_MCCH
  | 7 => Some Lte_PCCH
  | 8 => Some Lte_DlCcch
  | 9 => Some Lte_DlDcch
  | 10 => Some Lte_UlCcch
  | 11 => Some Lte_UlDcch
  | 45 => Some Lte_BcchBchNb
  | 46 => Some Lte_BcchDlSchNb
  | 47 => Some Lte_PcchNb
  | 48 => Some Lte_DlCcchNb
  | 49 => Some Lte_DlDcchNb
  | 50 => Some Lte_UlCcchNb
  | 52 => Some Lte_UlDcchNb
  | _ => None
  end.

(** The arm for versions 0x14 | 0x18 | 0x19. *)
Definition lte_pdu_v20 (pdu : Z) : option LteRrcSubtype :=
  match pdu with
  | 1 => Some Lte_BcchBch
  | 2 => Some Lte_BcchDlSch
  | 4 => Some Lte_MCCH
  | 5 => Some Lte_PCCH
  | 6 => Some Lte_DlCcch
  | 7 => Some Lte_DlDcch
  | 8 => Some Lte_UlCcch
  | 9 => Some Lte_UlDcch
  | 54 => Some Lte_BcchBchNb
  | 55 => Some Lte_BcchDlSchNb
  | 56 => Some Lte_PcchNb
  | 57 => Some Lte_DlCcchNb
  | 58 => Some Lte_DlDcchNb
  | 59 => Some Lte_UlCcchNb
  | 61 => Some Lte_UlDcchNb
  | _ => None
  end.

(** [match ext_header_version]: which table a version uses. *)
Definition lte_pdu_table (ext_header_version : Z) : option (Z -> option LteRrcSubtype) :=
  match ext_header_version with
  | 0x02 | 0x03 | 0x04 | 0x06 | 0x07 | 0x08 | 0x0d | 0x16 => Some lte_pdu_v2
  | 0x09 | 0x0c => Some lte_pdu_v9
  | 0x0e | 0x0f | 0x10 => Some lte_pdu_v14
  | 0x13 | 0x1a | 0x1b => Some lte_pdu_v19
  | 0x14 | 0x18 | 0x19 => Some lte_pdu_v20
  | _ => None
  end.

Definition lte_rrc_type (ext_header_version pdu : Z) : result GsmtapParserError GsmtapType :=
  match lte_pdu_table ext_header_version with
  | None => Err (InvalidLteRrcOtaExtHeaderVersion ext_header_version)
  | Some table =>
      match table pdu with
      | Some s => Ok (LteRrc s)
      | None => Err (InvalidLteRrcOtaHeaderPduNum ext_header_version pdu)
      end
  end.

(** ** Frames *)

(** Updates of a fresh header ([header.uplink = ...] and the like). *)
Definition set_uplink (h : GsmtapHeader) (u : bool) : GsmtapHeader := {|
  gsmtap_type := gsmtap_type h; version := version h; header_len := header_len h;
  packet_type := packet_type h; timeslot := timeslot h;
  pcs_band_indicator := pcs_band_indicator h; uplink := u; arfcn := arfcn h;
  signal_dbm := signal_dbm h; signal_noise_ratio_db := signal_noise_ratio_db h;
  frame_number := frame_number h; subtype := subtype h; antenna_number := antenna_number h;
  subslot := subslot h; reserved := reserved h |}.

Definition set_lte (h : GsmtapHeader) (arfcn' frame_number' subslot' : Z) : GsmtapHeader := {|
  gsmtap_type := gsmtap_type h; version := version h; header_len := header_len h;
  packet_type := packet_type h; timeslot := timeslot h;
  pcs_band_indicator := pcs_band_indicator h; uplink := uplink h; arfcn := arfcn';
  signal_dbm := signal_dbm h; signal_noise_ratio_db := signal_noise_ratio_db h;
  frame_number := frame_number'; subtype := subtype h; antenna_number := antenna_number h;
  subslot := subslot'; reserved := reserved h |}.

(** [format!("unable to serialize GSMTAP payload: {err:?}")]. *)
Definition serialize_error {D : Deku} (err : DekuError) : rstr :=
  lit "unable to serialize GSMTAP payload: " ++ deku_error_debug err.

Definition log_to_gsmtap {D : Deku} (value : LogBody)
    : result GsmtapParserError (option GsmtapMessage) :=
  match value with
  | LteRrcOtaMessage ext_header_version packet =>
      t ← lte_rrc_type ext_header_version (get_pdu_num packet);
      Ok (Some {|
        header := set_lte (GsmtapHeader_new t)
                    (Z.land (wrapu 16 (LteRrc_get_earfcn packet)) 0x3fff)
                    (get_sfn packet) (get_subfn packet);
        payload := take_payload packet |})
  | Nas4GMessage _ direction _ _ _ _ msg =>
      Ok (Some {|
        header := set_uplink (GsmtapHeader_new (LteNas LteNas_Plain))
                    (match direction with Uplink => true | Downlink => false end);
        payload := msg |})
  | LteMacRachResponse packet =>
      match subpackets packet with
      | [] => Err (InvalidLteMacRachResponse (lit "no subpackets"))
      | subpacket :: _ =>
          map_err (fun err => InvalidLteMacRachResponse (serialize_error err))
            (mac_subpacket_to_gsmtap (sub_body subpacket))
      end
  | GsmRrSignallingMessage channel_type _ _ msg =>
      match gsm_rr_subtype channel_type with
      | None => Ok None
      | Some s => Ok (Some {| header := GsmtapHeader_new (Um s); payload := msg |})
      end
  | GprsMacSignallingMessage channel_type _ _ msg =>
      let s :=
        if (channel_type =? PACCH_RRBP_CHANNEL) || (channel_type =? UL_PACCH_CHANNEL)
           || (channel_type =? DL_PACCH_CHANNEL) then Um_Pacch
        else if channel_type =? PACKET_CHANNEL_REQUEST then Um_Rach
        else Um_Pdch in
      Ok (Some {|
        header := set_uplink (GsmtapHeader_new (Um s))
          ((channel_type =? UL_PACCH_CHANNEL) || (channel_type =? PACKET_CHANNEL_REQUEST));
        payload := msg |})
  | WcdmaSignallingMessage channel_type _ _ msg =>
      match UmtsRrcSubtype_try_from channel_type with
      | None => Ok None
      | Some s =>
          Ok (Some {|
            header := set_uplink (GsmtapHeader_new (UmtsRrc s))
              (match s with Umts_UlDcch | Umts_UlCcch | Umts_UlShcch => true | _ => false end);
            payload := msg |})
      end
  | UmtsNasOtaMessage is_uplink _ msg =>
      Ok (Some {|
        header := set_uplink (GsmtapHeader_new (Um Um_Sdcch)) (negb (is_uplink =? 0));
        payload := msg |})
  | _ => Ok None
  end.

Definition option_list {A} (o : option A) : list A := match o with Some x => [x] | None => [] end.

Definition log_to_gsmtap_all {D : Deku} (value : LogBody)
    : result GsmtapParserError (list GsmtapMessage) :=
  match value with
  | LteMacDl packet | LteMacUl packet =>
      (fun fs => concat fs) <$> collect_result (fun subpacket =>
        map_err (fun err => InvalidLteMacTransportBlock (serialize_error err))
          (mac_transport_to_gsmtap (sub_body subpacket))) (subpackets packet)
  | _ => (fun o => option_list o) <$> log_to_gsmtap value
  end.

Definition parse_all {D : Deku} (msg : Message)
    : result GsmtapParserError (list (Timestamp * GsmtapMessage)) :=
  match msg with
  | Log _ _ _ _ timestamp body =>
      (fun frames => map (fun m => (timestamp, m)) frames) <$> log_to_gsmtap_all body
  | _ => Ok []
  end.

Definition parse {D : Deku} (msg : Message)
    : result GsmtapParserError (option (Timestamp * GsmtapMessage)) :=
  match msg with
  | Log _ _ _ _ timestamp body =>
      r ← log_to_gsmtap body;
      match r with
      | Some msg => Ok (Some (timestamp, msg))
      | None => Ok None
      end
  | _ => Ok None
  end.

(** ** Lemmas *)

(** The numbering of [log_codes.rs], as tables. *)
Definition codes_v0 : list (Z * LteRrcSubtype) :=
  [(LTE_BCCH_BCH_V0, Lte_BcchBch);
   (LTE_BCCH_DL_SCH_V0, Lte_BcchDlSch);
   (LTE_MCCH_V0, Lte_MCCH);
   (LTE_PCCH_V0, Lte_PCCH);
   (LTE_DL_CCCH_V0, Lte_DlCcch);
   (LTE_DL_DCCH_V0, Lte_DlDcch);
   (LTE_UL_CCCH_V0, Lte_UlCcch);
   (LTE_UL_DCCH_V0, Lte_UlDcch)].

Definition codes_v9 : list (Z * LteRrcSubtype) :=
  [(LTE_BCCH_BCH_V9, Lte_BcchBch);
   (LTE_BCCH_DL_SCH_V9, Lte_BcchDlSch);
   (LTE_MCCH_V9, Lte_MCCH);
   (LTE_PCCH_V9, Lte_PCCH);
   (LTE_DL_CCCH_V9, Lte_DlCcch);
   (LTE_DL_DCCH_V9, Lte_DlDcch);
   (LTE_UL_CCCH_V9, Lte_UlCcch);
   (LTE_UL_DCCH_V9, Lte_UlDcch)].

Definition codes_v14 : list (Z * LteRrcSubtype) :=
  [(LTE_BCCH_BCH_V14, Lte_BcchBch);
   (LTE_BCCH_DL_SCH_V14, Lte_BcchDlSch);
   (LTE_MCCH_V14, Lte_MCCH);
   (LTE_PCCH_V14, Lte_PCCH);
   (LTE_DL_CCCH_V14, Lte_DlCcch);
   (LTE_DL_DCCH_V14, Lte_DlDcch);
   (LTE_UL_CCCH_V14, Lte_UlCcch);
   (LTE_UL_DCCH_V14, Lte_UlDcch)].

Definition codes_v19 : list (Z * LteRrcSubtype) :=
  [(LTE_BCCH_BCH_V19, Lte_BcchBch);
   (LTE_BCCH_DL_SCH_V19, Lte_BcchDlSch);
   (LTE_MCCH_V19, Lte_MCCH);
   (LTE_PCCH_V19, Lte_PCCH);
   (LTE_DL_CCCH_V19, Lte_DlCcch);
   (LTE_DL_DCCH_V19, Lte_DlDcch);
   (LTE_UL_CCCH_V19, Lte_UlCcch);
   (LTE_UL_DCCH_V19, Lte_UlDcch)]
  ++ [(LTE_BCCH_BCH_NB, Lte_BcchBchNb);
      (LTE_BCCH_DL_SCH_NB, Lte_BcchDlSchNb);
      (LTE_PCCH_NB, Lte_PcchNb);
      (LTE_DL_CCCH_NB, Lte_DlCcchNb);
      (LTE_DL_DCCH_NB, Lte_DlDcchNb);
      (LTE_UL_CCCH_NB, Lte_UlCcchNb);
      (LTE_UL_DCCH_NB, Lte_UlDcchNb)].


(** The numbers a reader can have put in a body. *)
Definition body_ok (b : LogBody) : Prop :=
  match b with
  | LteRrcOtaMessage _ packet => is_u16 (get_sfn_subfn packet)
  | LteMacRachResponse packet =>
      Forall (fun sp => match sub_body sp with
        | RachAttempt a => in_u 20 (get_grant (msg3 a)) /\ is_u16 (tc_rnti (msg2 a))
        | _ => True end) (subpackets packet)
  | _ => True
  end.

Lemma header_ok_uplink h u : header_ok h -> header_ok (set_uplink h u).
Proof.
  intros [Ha Hf]. split; [done|]. unfold fields_ok, header_fields in *. forall_inv.
  simpl. forall_list ltac:(first [done | apply bit_u1]).
Qed.

Lemma header_ok_lte h a f s :
  header_ok h -> in_u 14 a -> is_u32 f -> is_u8 s -> header_ok (set_lte h a f s).
Proof.
  intros [Ha Hf]. split; [done|]. unfold fields_ok, header_fields in *. forall_inv.
  simpl. forall_list ltac:(done).
Qed.

Lemma mac_subpacket_frame {D : Deku} b m :
  match b with
  | RachAttempt a => in_u 20 (get_grant (msg3 a)) /\ is_u16 (tc_rnti (msg2 a))
  | _ => True
  end ->
  mac_subpacket_to_gsmtap b = Ok (Some m) -> header m = GsmtapHeader_new LteMacFramed.
Proof.
  destruct b as [a| | |]; try done. intros [Hg Ht].
  destruct (get_msg1 a) as [m1|] eqn:H1, (get_msg2 a) as [m2|] eqn:H2, (get_msg3 a) as [m3|] eqn:H3;
    try (unfold mac_subpacket_to_gsmtap; rewrite H1, ?H2, ?H3; done).
  unfold get_msg2 in H2. unfold get_msg3 in H3.
  rewrite (mac_subpacket_rar a m1 m2 m3); [by intros [= <-] | done | done | done | |].
  - by destruct (has_msg3 _); simplify_eq.
  - by destruct (has_msg2 _); simplify_eq.
Qed.

Lemma gsmtap_frame_header {D : Deku} body m :
  body_ok body -> log_to_gsmtap body = Ok (Some m) -> header_ok (header m).
Proof.
  intros Hok. destruct body as [| | |v p| | | | | | |p| | |]; simpl in *; try done.
  - destruct (UmtsRrcSubtype_try_from _); [|done].
    intros [= <-]. apply header_ok_uplink, header_new_ok.
  - destruct (gsm_rr_subtype _); [|done]. intros [= <-]. apply header_new_ok.
  - intros [= <-]. apply header_ok_uplink, header_new_ok.
  - destruct (lte_rrc_type _ _) as [t|]; [|done]. intros [= <-].
    apply header_ok_lte; [apply header_new_ok | apply (land_ones_range _ 14); lia | |].
    + unfold get_sfn. rewrite Z.shiftr_div_pow2 by lia. unfold in_u in *. dlia.
    + unfold get_subfn. apply wrapu_in_u. lia.
  - intros [= <-]. apply header_ok_uplink, header_new_ok.
  - intros [= <-]. apply header_ok_uplink, header_new_ok.
  - destruct (subpackets p) as [|sp l]; [done|]. forall_inv.
    destruct (mac_subpacket_to_gsmtap (sub_body sp)) as [o|] eqn:Hm; [|done].
    intros [= ->]. rewrite (mac_subpacket_frame _ _ ltac:(done) Hm). apply header_new_ok.
Qed.

Lemma transport_frames_ok body : Forall (fun m => header_ok (header m)) (transport_frames body).
Proof. apply transport_frames_Forall. intros. apply header_new_ok. Qed.

(** A transport block record never fails to be written. *)
Lemma log_to_gsmtap_all_transport {D : Deku} l :
  (fun fs => concat fs) <$> collect_result (fun subpacket =>
    map_err (fun err => InvalidLteMacTransportBlock (serialize_error err))
      (mac_transport_to_gsmtap (sub_body subpacket))) l
  = Ok (flat_map (fun sp => transport_frames (sub_body sp)) l).
Proof.
  rewrite flat_map_concat_map.
  assert (Hc : collect_result (fun subpacket =>
    map_err (fun err => InvalidLteMacTransportBlock (serialize_error err))
      (mac_transport_to_gsmtap (sub_body subpacket))) l
    = Ok (map (fun sp => transport_frames (sub_body sp)) l)).
  { apply collect_result_ok. induction l; constructor; [by rewrite mac_transport_ok | done]. }
  by rewrite Hc.
Qed.

Lemma flat_map_map {A B C} (f : B -> C) (g : A -> list B) l :
  map f (flat_map g l) = flat_map (fun x => map f (g x)) l.
Proof. induction l; simpl; [done|]. by rewrite map_app, IHl. Qed.

Ltac table_cases :=
  split; [ repeat case_match; intros; simplify_eq; by apply (bool_decide_unpack _)
         | intros H; apply list_elem_of_In in H; simpl in H;
           repeat (destruct H as [H|H]; [by simplify_eq|]); done ].

(** ** Properties *)

(** Every frame of a capture can be written.  Whatever diag message arrives, with any
    channel, version or record type, each frame [parse_all] makes of it has a well-formed
    header, so it is serialized to the sixteen byte header followed by its payload and never
    to an error. *)
Theorem parse_all_serializable {D : Deku} pending outer inner lt t body frames :
  body_ok body -> parse_all (Log pending outer inner lt t body) = Ok frames ->
  Forall (fun '(t', m) => t' = t /\
    GsmtapMessage_to_bytes m = Ok (header_layout (header m) ++ payload m)) frames.
Proof.
  intros Hok H. simpl in H.
  destruct (log_to_gsmtap_all body) as [ms|] eqn:Hms; [|done]. injection H as <-.
  enough (Hh : Forall (fun m => header_ok (header m)) ms).
  { apply Forall_fmap. eapply Forall_impl; [exact Hh|]. intros m Hm. split; [done|].
    unfold GsmtapMessage_to_bytes. by rewrite header_to_bytes_layout. }
  assert (Hone : (fun o => option_list o) <$> log_to_gsmtap body = Ok ms -> Forall (fun m => header_ok (header m)) ms).
  { destruct (log_to_gsmtap body) as [[m|]|] eqn:Hm; [intros [= <-]|intros [= <-]|done]; [|constructor].
    constructor; [|constructor]. by eapply gsmtap_frame_header. }
  destruct body; try (by apply Hone); simpl in Hms; rewrite log_to_gsmtap_all_transport in Hms;
    injection Hms as <-; apply Forall_flat_map; intros; apply transport_frames_ok.
Qed.

Lemma parse_all_serializable_witness :
  exists frames,
    @parse_all deku_fits (Log 0 0 0 0xb0c0 {| ts := 7 |}
      (LteRrcOtaMessage 9 (LteRrc_V8 0 0 0 0 5110 0x123 9 0 2 [0x10; 0x20]))) = Ok frames /\
    map (fun '(_, m) => @GsmtapMessage_to_bytes deku_fits m) frames
    = [Ok [2; 4; 13; 0; 0x13; 0xf6; 0; 0; 0; 0; 0; 0x12; 5; 0; 3; 0; 0x10; 0x20]].
Proof.
  eexists. split; [reflexivity|].
  pose proof (@parse_all_serializable deku_fits 0 0 0 0xb0c0 {| ts := 7 |}
    (LteRrcOtaMessage 9 (LteRrc_V8 0 0 0 0 5110 0x123 9 0 2 [0x10; 0x20])) _
    ltac:(by vm_compute) eq_refl) as H.
  apply Forall_cons in H as [[_ H] _].
  cbn [map]. apply (f_equal (fun r => [r])). etransitivity; [exact H | reflexivity].
Defined.

(** The analysis side and the capture agree.  For every message that is not a record of
    transport blocks, the capture's frames are exactly the frame the analysis is given, or
    none, and errors are the same; for a transport block record, the analysis is given
    nothing and the capture one frame per sample whose direction matches its subpacket, with
    the message's time stamp. *)
Theorem parse_all_parse {D : Deku} (msg : Message) :
  match msg with
  | Log _ _ _ _ t (LteMacDl packet) | Log _ _ _ _ t (LteMacUl packet) =>
      parse msg = Ok None /\
      exists frames, parse_all msg = Ok frames /\
        map (fun '(t', m) => (t', drop 7 (payload m))) frames =
        flat_map (fun sp => map (pair t) (transport_headers (sub_body sp))) (subpackets packet)
  | _ => parse_all msg = (fun o => option_list o) <$> parse msg
  end.
Proof.
  destruct msg as [p o i lt t body|]; [|done].
  assert (H : forall l,
    map (fun '(t', m) => (t', drop 7 (payload m)))
      (map (fun m => (t, m)) (flat_map (fun sp => transport_frames (sub_body sp)) l))
    = flat_map (fun sp => map (pair t) (transport_headers (sub_body sp))) l).
  { intros l. rewrite !flat_map_map. apply flat_map_ext. intros sp.
    rewrite <- transport_frames_headers, !map_map. done. }
  destruct body; try (split; [done|]); cbn [parse_all parse log_to_gsmtap_all];
    try (rewrite log_to_gsmtap_all_transport; eexists; split; [reflexivity | apply H]);
    match goal with |- context [log_to_gsmtap ?b] => by destruct (log_to_gsmtap b) as [[]|] end.
Qed.

(** The LTE channel tables are the numbering of [log_codes.rs].  For the log packet
    versions of each family, a PDU number is given a channel exactly when [log_codes]
    assigns that number to that channel; any other number, and any version outside the
    tables, is the error that names it. *)
Theorem lte_rrc_type_log_codes (pdu : Z) (s : LteRrcSubtype) :
  (lte_pdu_v2 pdu = Some s <-> (pdu, s) ∈ codes_v0) /\
  (lte_pdu_v9 pdu = Some s <-> (pdu, s) ∈ codes_v9) /\
  (lte_pdu_v14 pdu = Some s <-> (pdu, s) ∈ codes_v14) /\
  (lte_pdu_v19 pdu = Some s <-> (pdu, s) ∈ codes_v19) /\
  (forall v table, lte_pdu_table v = Some table -> table pdu = None ->
     lte_rrc_type v pdu = Err (InvalidLteRrcOtaHeaderPduNum v pdu)) /\
  (forall v, lte_pdu_table v = None ->
     lte_rrc_type v pdu = Err (InvalidLteRrcOtaExtHeaderVersion v)).
Proof.
  split; [|split; [|split; [|split; [|split]]]].
  - unfold lte_pdu_v2. table_cases.
  - unfold lte_pdu_v9. table_cases.
  - unfold lte_pdu_v14. table_cases.
  - unfold lte_pdu_v19. table_cases.
  - intros v table Hv Ht. unfold lte_rrc_type. by rewrite Hv, Ht.
  - intros v Hv. unfold lte_rrc_type. by rewrite Hv.
Qed.

Lemma lte_rrc_type_log_codes_witness :
  lte_rrc_type 9 7 = Err (InvalidLteRrcOtaHeaderPduNum 9 7) /\ lte_pdu_v9 9 = Some Lte_BcchDlSch.
Proof.
  pose proof (lte_rrc_type_log_codes 7 Lte_PCCH) as (_ & _ & _ & _ & H & _).
  split; [exact (H 9 lte_pdu_v9 eq_refl eq_refl) | reflexivity].
Defined.

(** 3G signalling is labelled by a numbering that is not the modem's.  A WCDMA record
    keeps its channel number as the GSMTAP subtype, but [log_codes.rs] numbers the channels
    differently: uplink CCCH is labelled downlink DCCH and downlink DCCH is labelled uplink
    CCCH, each with the wrong direction flag; only uplink DCCH and downlink CCCH agree. *)
Theorem wcdma_channels_mislabelled {D : Deku} rb len msg :
  let label ch := match log_to_gsmtap (WcdmaSignallingMessage ch rb len msg) with
    | Ok (Some m) => Some (gsmtap_type (header m), uplink (header m)) | _ => None end in
  label RRCLOG_SIG_UL_CCCH = Some (UmtsRrc Umts_DlDcch, false) /\
  label RRCLOG_SIG_UL_DCCH = Some (UmtsRrc Umts_UlDcch, true) /\
  label RRCLOG_SIG_DL_CCCH = Some (UmtsRrc Umts_DlCcch, false) /\
  label RRCLOG_SIG_DL_DCCH = Some (UmtsRrc Umts_UlCcch, true).
Proof. repeat split. Qed.
