(* ===== verification/LteRrc.v ===== *)
(** * LTE RRC messages ([src/telcom-parser/src/lte_rrc.rs])

    The part of the generated ASN.1 types the analyzers read: the alternatives they match
    and the fields they follow, under the names of the generated code.  Alternatives they
    do not name are one [_Other] constructor, and fields they never read are left out.
    Decoding is generated code and a parameter ([InformationElement.Decoders]). *)

From S2P Require Import Prelude.

Local Open Scope Z_scope.

(** ** Broadcast: SIB1 and system information *)

(** [CellReselectionPriority] and [MCC_MNC_Digit] wrap a [u8]; [MCC] and [MNC] a list of
    digits; [CellIdentity] and [TrackingAreaCode] a bit string. *)
Definition CellReselectionPriority : Type := Z.
Definition MCC_MNC_Digit : Type := Z.
Definition MCC : Type := list MCC_MNC_Digit.
Definition MNC : Type := list MCC_MNC_Digit.
Definition CellIdentity : Type := list bool.
Definition TrackingAreaCode : Type := list bool.

Record PLMN_Identity := { mcc : option MCC; mnc : MNC }.
Record PLMN_IdentityInfo := { plmn_identity : PLMN_Identity }.
Definition PLMN_IdentityList : Type := list PLMN_IdentityInfo.

Record SystemInformationBlockType1CellAccessRelatedInfo := {
  plmn_identity_list : PLMN_IdentityList;
  tracking_area_code : TrackingAreaCode;
  cell_identity : CellIdentity
}.

(** Only the number of entries is read. *)
Inductive SchedulingInfo := SchedulingInfo_entry.
Definition SchedulingInfoList : Type := list SchedulingInfo.

Record SystemInformationBlockType1 := {
  cell_access_related_info : SystemInformationBlockType1CellAccessRelatedInfo;
  scheduling_info_list : SchedulingInfoList
}.

Record SystemInformationBlockType3CellReselectionServingFreqInfo := {
  serving_cell_reselection_priority : CellReselectionPriority
}.
Record SystemInformationBlockType3 := {
  cell_reselection_serving_freq_info : SystemInformationBlockType3CellReselectionServingFreqInfo
}.
Record InterFreqCarrierFreqInfo := { inter_cell_reselection_priority : option CellReselectionPriority }.
Definition InterFreqCarrierFreqList : Type := list InterFreqCarrierFreqInfo.
Record SystemInformationBlockType5 := { inter_freq_carrier_freq_list : InterFreqCarrierFreqList }.
Record CarrierFreqUTRA_FDD := { fdd_cell_reselection_priority : option CellReselectionPriority }.
Definition CarrierFreqListUTRA_FDD : Type := list CarrierFreqUTRA_FDD.
Record CarrierFreqUTRA_TDD := { tdd_cell_reselection_priority : option CellReselectionPriority }.
Definition CarrierFreqListUTRA_TDD : Type := list CarrierFreqUTRA_TDD.
Record SystemInformationBlockType6 := {
  carrier_freq_list_utra_fdd : option CarrierFreqListUTRA_FDD;
  carrier_freq_list_utra_tdd : option CarrierFreqListUTRA_TDD
}.
Record CarrierFreqsInfoGERANCommonInfo := {
  geran_cell_reselection_priority : option CellReselectionPriority
}.
Record CarrierFreqsInfoGERAN := { common_info : CarrierFreqsInfoGERANCommonInfo }.
Definition CarrierFreqsInfoListGERAN : Type := list CarrierFreqsInfoGERAN.
Record SystemInformationBlockType7 := {
  carrier_freqs_info_list : option CarrierFreqsInfoListGERAN
}.

Inductive SystemInformation_r8_IEsSib_TypeAndInfo_Entry :=
| Sib3 (s : SystemInformationBlockType3)
| Sib5 (s : SystemInformationBlockType5)
| Sib6 (s : SystemInformationBlockType6)
| Sib7 (s : SystemInformationBlockType7)
| Sib_Other.
Definition SystemInformation_r8_IEsSib_TypeAndInfo : Type :=
  list SystemInformation_r8_IEsSib_TypeAndInfo_Entry.
Record SystemInformation_r8_IEs := {
  sib_type_and_info : SystemInformation_r8_IEsSib_TypeAndInfo
}.
Inductive SystemInformationCriticalExtensions :=
| SystemInformation_r8 (r8 : SystemInformation_r8_IEs)
| CriticalExtensionsFuture_r15.
Record SystemInformation := { si_critical_extensions : SystemInformationCriticalExtensions }.

Inductive BCCH_DL_SCH_MessageType_c1 :=
| BCCH_SystemInformation (s : SystemInformation)
| BCCH_SystemInformationBlockType1 (s : SystemInformationBlockType1).
Inductive BCCH_DL_SCH_MessageType :=
| BCCH_C1 (c1 : BCCH_DL_SCH_MessageType_c1)
| BCCH_MessageClassExtension.
Record BCCH_DL_SCH_Message := { bcch_message : BCCH_DL_SCH_MessageType }.

(** ** Dedicated: reconfiguration, security mode, release *)

Definition CipheringAlgorithm_r12 : Type := Z.
(** [CipheringAlgorithm_r12::EEA0]. *)
Definition EEA0 : CipheringAlgorithm_r12 := 0.

(** It wraps a [u8] too. *)
Definition SecurityAlgorithmConfigIntegrityProtAlgorithm : Type := Z.
Record SecurityAlgorithmConfig := {
  ciphering_algorithm : CipheringAlgorithm_r12;
  integrity_prot_algorithm : SecurityAlgorithmConfigIntegrityProtAlgorithm
}.
Record SecurityConfigHOHandoverType_intraLTE := {
  intra_security_algorithm_config : option SecurityAlgorithmConfig
}.
Record SecurityConfigHOHandoverType_interRAT := {
  inter_security_algorithm_config : SecurityAlgorithmConfig
}.
Inductive SecurityConfigHOHandoverType :=
| IntraLTE (lte : SecurityConfigHOHandoverType_intraLTE)
| InterRAT (rat : SecurityConfigHOHandoverType_interRAT).
Record SecurityConfigHO := { handover_type : SecurityConfigHOHandoverType }.

Record MobilityControlInfoSCG_r12 := { ciphering_algorithm_scg_r12 : option CipheringAlgorithm_r12 }.
Record SCG_ConfigPartSCG_r12 := { mobility_control_info_scg_r12 : option MobilityControlInfoSCG_r12 }.
Record SCG_Configuration_r12_setup := { scg_config_part_scg_r12 : option SCG_ConfigPartSCG_r12 }.
Inductive SCG_Configuration_r12 :=
| SCG_Release
| SCG_Setup (s : SCG_Configuration_r12_setup).

Record SecurityConfigHO_v1530HandoverType_v1530_intra5GC := {
  intra5gc_security_algorithm_config_r15 : option SecurityAlgorithmConfig
}.
Record SecurityConfigHO_v1530HandoverType_v1530_fivegc_ToEPC := {
  toepc_security_algorithm_config_r15 : SecurityAlgorithmConfig
}.
Record SecurityConfigHO_v1530HandoverType_v1530_epc_To5GC := {
  to5gc_security_algorithm_config_r15 : SecurityAlgorithmConfig
}.
Inductive SecurityConfigHO_v1530HandoverType_v1530 :=
| Intra5GC (i : SecurityConfigHO_v1530HandoverType_v1530_intra5GC)
| Fivegc_ToEPC (t : SecurityConfigHO_v1530HandoverType_v1530_fivegc_ToEPC)
| Epc_To5GC (t : SecurityConfigHO_v1530HandoverType_v1530_epc_To5GC).
Record SecurityConfigHO_v1530 := {
  handover_type_v1530 : SecurityConfigHO_v1530HandoverType_v1530
}.

Record RRCConnectionReconfiguration_v1530_IEs := {
  security_config_ho_v1530 : option SecurityConfigHO_v1530
}.
Record RRCConnectionReconfiguration_v1510_IEs := {
  v1510_ext : option RRCConnectionReconfiguration_v1530_IEs
}.
Record RRCConnectionReconfiguration_v1430_IEs := {
  v1430_ext : option RRCConnectionReconfiguration_v1510_IEs
}.
Record RRCConnectionReconfiguration_v1310_IEs := {
  v1310_ext : option RRCConnectionReconfiguration_v1430_IEs
}.
Record RRCConnectionReconfiguration_v1250_IEs := {
  scg_configuration_r12 : option SCG_Configuration_r12;
  v1250_ext : option RRCConnectionReconfiguration_v1310_IEs
}.
Record RRCConnectionReconfiguration_v1130_IEs := {
  v1130_ext : option RRCConnectionReconfiguration_v1250_IEs
}.
Record RRCConnectionReconfiguration_v1020_IEs := {
  v1020_ext : option RRCConnectionReconfiguration_v1130_IEs
}.
Record RRCConnectionReconfiguration_v920_IEs := {
  v920_ext : option RRCConnectionReconfiguration_v1020_IEs
}.
Record RRCConnectionReconfiguration_v890_IEs := {
  v890_ext : option RRCConnectionReconfiguration_v920_IEs
}.
Record RRCConnectionReconfiguration_r8_IEs := {
  security_config_ho : option SecurityConfigHO;
  r8_ext : option RRCConnectionReconfiguration_v890_IEs
}.
Inductive RRCConnectionReconfigurationCriticalExtensions_c1 :=
| RrcConnectionReconfiguration_r8 (r8 : RRCConnectionReconfiguration_r8_IEs)
| RrcReconf_Spare.
Inductive RRCConnectionReconfigurationCriticalExtensions :=
| RrcReconf_C1 (c1 : RRCConnectionReconfigurationCriticalExtensions_c1)
| RrcReconf_Future.
Record RRCConnectionReconfiguration := {
  reconf_critical_extensions : RRCConnectionReconfigurationCriticalExtensions
}.

Record SecurityConfigSMC := { smc_security_algorithm_config : SecurityAlgorithmConfig }.
Record SecurityModeCommand_r8_IEs := { security_config_smc : SecurityConfigSMC }.
Inductive SecurityModeCommandCriticalExtensions_c1 :=
| SecurityModeCommand_r8 (r8 : SecurityModeCommand_r8_IEs)
| SMC_Spare.
Inductive SecurityModeCommandCriticalExtensions :=
| SMC_C1 (c1 : SecurityModeCommandCriticalExtensions_c1)
| SMC_Future.
Record SecurityModeCommand := { smc_critical_extensions : SecurityModeCommandCriticalExtensions }.

(** [Redirected_Other] stands for the alternatives other than GERAN, with the text
    [format!("{carrier_info:?}")] gives of it. *)
Inductive RedirectedCarrierInfo :=
| Geran
| Redirected_Other (debug : list Z).
Record RRCConnectionRelease_r8_IEs := { redirected_carrier_info : option RedirectedCarrierInfo }.
Inductive RRCConnectionReleaseCriticalExtensions_c1 :=
| RrcConnectionRelease_r8 (r8 : RRCConnectionRelease_r8_IEs)
| RrcRelease_Spare.
Inductive RRCConnectionReleaseCriticalExtensions :=
| RrcRelease_C1 (c1 : RRCConnectionReleaseCriticalExtensions_c1)
| RrcRelease_Future.
Record RRCConnectionRelease := { release_critical_extensions : RRCConnectionReleaseCriticalExtensions }.

Inductive DL_DCCH_MessageType_c1 :=
| DCCH_RrcConnectionReconfiguration (m : RRCConnectionReconfiguration)
| DCCH_RrcConnectionRelease (m : RRCConnectionRelease)
| DCCH_SecurityModeCommand (m : SecurityModeCommand)
| DCCH_Other.
Inductive DL_DCCH_MessageType :=
| DCCH_C1 (c1 : DL_DCCH_MessageType_c1)
| DCCH_MessageClassExtension.
Record DL_DCCH_Message := { dcch_message : DL_DCCH_MessageType }.

(** ** Common uplink *)

Inductive UL_CCCH_MessageType_c1 :=
| RrcConnectionReestablishmentRequest
| RrcConnectionRequest.
Inductive UL_CCCH_MessageType :=
| UL_CCCH_C1 (c1 : UL_CCCH_MessageType_c1)
| UL_CCCH_MessageClassExtension.
Record UL_CCCH_Message := { ul_ccch_message : UL_CCCH_MessageType }.
