(* ===== verification/InformationElement.v ===== *)
(** * Information elements ([lib/src/analysis/information_element.rs])

    A GSMTAP frame, decoded as far as the analyzers read it.  The decoders themselves
    (generated UPER code for RRC, the [pycrate_rs] crate for NAS) are the class [Decoders];
    of the NAS messages, the variants and fields the analyzers match are data here. *)

From S2P Require Import Prelude RustStr Gsmtap GsmtapMac LteRrc.

Local Open Scope Z_scope.

(** ** NAS messages, as the analyzers match them

    Enumerations of causes list the values the program names; any other value is one
    constructor.  [debug] is the text the crate's [Debug] gives. *)

Inductive AttachRejectCause :=
| AR_IllegalUE | AR_IllegalME | AR_EPSServicesNotAllowed
| AR_EPSServicesAndNonEPSServicesNotAllowed | AR_PLMNNotAllowed | AR_TrackingAreaNotAllowed
| AR_RoamingNotAllowedInThisTrackingArea | AR_EPSServicesNotAllowedInThisPLMN
| AR_NoSuitableCellsInTrackingArea | AR_RequestedServiceOptionNotAuthorizedInThisPLMN
| AR_Other.
Inductive ServiceRejectCause :=
| SR_IllegalUE | SR_IllegalME | SR_EPSServicesNotAllowed
| SR_UEIdentityCannotBeDerivedByTheNetwork | SR_TrackingAreaNotAllowed
| SR_EPSServicesNotAllowedInThisPLMN | SR_RequestedServiceOptionNotAuthorizedInThisPLMN
| SR_Other.
Inductive TAURejectCause :=
| TAU_IllegalUE | TAU_IllegalME | TAU_EPSServicesNotAllowed
| TAU_EPSServicesAndNonEPSServicesNotAllowed | TAU_TrackingAreaNotAllowed
| TAU_EPSServicesNotAllowedInThisPLMN | TAU_RequestedServiceOptionNotAuthorizedInThisPLMN
| TAU_Other.
Inductive AuthFailureCause :=
| AF_MACFailure | AF_NonEPSAuthenticationUnacceptable | AF_SynchFailure | AF_Other.
Inductive IDTypeV := IMSI | IDType_Other.
Inductive EPSDetachTypeMTType := IMSIDetach | MTType_Other.
Inductive GenericContType := LTEPositioningProtocolLPPMessageContainer | ContType_Other.
Inductive NASSecAlgoCiphAlgo :=
| EPSEncryptionAlgorithmEEA0Null | EPSEncryptionAlgorithm128EEA1SNOW
| EPSEncryptionAlgorithm128EEA2AES | EPSEncryptionAlgorithm128EEA3ZUC | CiphAlgo_Other.
Inductive NASSecAlgoIntegAlgo :=
| EPSIntegrityAlgorithmEIA0Null | EPSIntegrityAlgorithm128EIA1SNOW
| EPSIntegrityAlgorithm128EIA2AES | IntegAlgo_Other.

(** The old TAI of an attach request: the bytes of its PLMN. *)
Record TAI := { plmn : list Z }.

Inductive EMMMessage :=
| EMMAttachRequest (old_tai : option TAI) (epsid_debug : rstr)
| EMMExtServiceRequest
| EMMCPServiceRequest
| EMMIdentityRequest (id_type : IDTypeV) (debug : rstr)
| EMMAttachComplete
| EMMAttachAccept
| EMMAuthenticationResponse
| EMMAuthenticationFailure (cause : AuthFailureCause)
| EMMSecurityModeCommand (ciph_algo : NASSecAlgoCiphAlgo) (integ_algo : NASSecAlgoIntegAlgo)
| EMMServiceReject (cause : ServiceRejectCause) (debug : rstr)
| EMMServiceAccept
| EMMDetachRequestMO
| EMMDetachRequestMT (typ : EPSDetachTypeMTType) (type_debug cause_debug : rstr)
| EMMTrackingAreaUpdateRequest
| EMMTrackingAreaUpdateReject (cause : TAURejectCause) (debug : rstr)
| EMMTrackingAreaUpdateAccept
| EMMAttachReject (cause : AttachRejectCause) (debug : rstr)
| EMMDLGenericNASTransport (generic_cont_type : GenericContType) (generic_container : list Z)
| EMMULGenericNASTransport (generic_cont_type : GenericContType) (generic_container : list Z)
| EMM_Other.
Inductive NASMessage := NAS_EMMMessage (m : EMMMessage) | NAS_Other.

#[export] Instance AttachRejectCause_eq_dec : EqDecision AttachRejectCause.
Proof. solve_decision. Defined.
#[export] Instance EPSDetachTypeMTType_eq_dec : EqDecision EPSDetachTypeMTType.
Proof. solve_decision. Defined.
#[export] Instance GenericContType_eq_dec : EqDecision GenericContType.
Proof. solve_decision. Defined.
#[export] Instance NASSecAlgoCiphAlgo_eq_dec : EqDecision NASSecAlgoCiphAlgo.
Proof. solve_decision. Defined.

(** ** The decoders the program is handed *)

Class Decoders := {
  ParsingError : Type;
  NasParseError : Type;
  (** Messages no analyzer looks into. *)
  DL_CCCH_Message : Type;
  UL_DCCH_Message : Type;
  BCCH_BCH_Message : Type;
  PCCH_Message : Type;
  MCCH_Message : Type;
  SC_MCCH_Message_r13 : Type;
  BCCH_BCH_Message_MBMS : Type;
  BCCH_DL_SCH_Message_BR : Type;
  BCCH_DL_SCH_Message_MBMS : Type;
  SBCCH_SL_BCH_Message : Type;
  SBCCH_SL_BCH_Message_V2X_r14 : Type;
  (** [telcom_parser::decode] at each message type. *)
  decode_dl_ccch : list Z -> result ParsingError DL_CCCH_Message;
  decode_dl_dcch : list Z -> result ParsingError DL_DCCH_Message;
  decode_ul_ccch : list Z -> result ParsingError UL_CCCH_Message;
  decode_ul_dcch : list Z -> result ParsingError UL_DCCH_Message;
  decode_bcch_bch : list Z -> result ParsingError BCCH_BCH_Message;
  decode_bcch_dl_sch : list Z -> result ParsingError BCCH_DL_SCH_Message;
  decode_pcch : list Z -> result ParsingError PCCH_Message;
  decode_mcch : list Z -> result ParsingError MCCH_Message;
  decode_sc_mcch : list Z -> result ParsingError SC_MCCH_Message_r13;
  decode_bcch_bch_mbms : list Z -> result ParsingError BCCH_BCH_Message_MBMS;
  decode_bcch_dl_sch_br : list Z -> result ParsingError BCCH_DL_SCH_Message_BR;
  decode_bcch_dl_sch_mbms : list Z -> result ParsingError BCCH_DL_SCH_Message_MBMS;
  decode_sbcch_sl_bch : list Z -> result ParsingError SBCCH_SL_BCH_Message;
  decode_sbcch_sl_bch_v2x : list Z -> result ParsingError SBCCH_SL_BCH_Message_V2X_r14;
  (** [NASMessage::parse]. *)
  nas_parse : list Z -> result NasParseError NASMessage;
  (** [bits.as_bitslice().load_be::<u32>()]: the bits as a big-endian number. *)
  load_be_u32 : list bool -> Z
}.

(** Decoders to evaluate with: NAS and dedicated downlink RRC are as given, other RRC is refused,
    bits are read as a number. *)
Definition sample_decoders (nas : list Z -> result unit NASMessage)
    (dl_dcch : list Z -> result unit DL_DCCH_Message) : Decoders := {|
  ParsingError := unit; NasParseError := unit;
  DL_CCCH_Message := unit; UL_DCCH_Message := unit; BCCH_BCH_Message := unit; PCCH_Message := unit;
  MCCH_Message := unit; SC_MCCH_Message_r13 := unit; BCCH_BCH_Message_MBMS := unit;
  BCCH_DL_SCH_Message_BR := unit; BCCH_DL_SCH_Message_MBMS := unit; SBCCH_SL_BCH_Message := unit;
  SBCCH_SL_BCH_Message_V2X_r14 := unit;
  decode_dl_ccch := fun _ => Err tt; decode_dl_dcch := dl_dcch;
  decode_ul_ccch := fun _ => Err tt; decode_ul_dcch := fun _ => Err tt;
  decode_bcch_bch := fun _ => Err tt; decode_bcch_dl_sch := fun _ => Err tt;
  decode_pcch := fun _ => Err tt; decode_mcch := fun _ => Err tt;
  decode_sc_mcch := fun _ => Err tt; decode_bcch_bch_mbms := fun _ => Err tt;
  decode_bcch_dl_sch_br := fun _ => Err tt; decode_bcch_dl_sch_mbms := fun _ => Err tt;
  decode_sbcch_sl_bch := fun _ => Err tt; decode_sbcch_sl_bch_v2x := fun _ => Err tt;
  nas_parse := nas;
  load_be_u32 := fun bits => fold_left (fun acc (b : bool) => 2 * acc + (if b then 1 else 0)) bits 0 |}.

Definition nas_decoders (nas : list Z -> result unit NASMessage) : Decoders :=
  sample_decoders nas (fun _ => Err tt).

(** ** Data *)

Inductive InformationElementError {D : Decoders} :=
| RRCDecodingError (e : ParsingError)
| NASDecodingError (e : NasParseError)
| UnsupportedGsmtapType (t : GsmtapType).

Record GsmInformationElement := { channel : UmSubtype; gsm_bytes : list Z }.

Inductive LteInformationElement {D : Decoders} :=
| IE_DlCcch (m : DL_CCCH_Message)
| IE_DlDcch (m : DL_DCCH_Message)
| IE_UlCcch (m : UL_CCCH_Message)
| IE_UlDcch (m : UL_DCCH_Message)
| IE_BcchBch (m : BCCH_BCH_Message)
| IE_BcchDlSch (m : BCCH_DL_SCH_Message)
| IE_PCCH (m : PCCH_Message)
| IE_MCCH (m : MCCH_Message)
| IE_ScMcch (m : SC_MCCH_Message_r13)
| IE_BcchBchMbms (m : BCCH_BCH_Message_MBMS)
| IE_BcchDlSchBr (m : BCCH_DL_SCH_Message_BR)
| IE_BcchDlSchMbms (m : BCCH_DL_SCH_Message_MBMS)
| IE_SbcchSlBch (m : SBCCH_SL_BCH_Message)
| IE_SbcchSlBchV2x (m : SBCCH_SL_BCH_Message_V2X_r14)
| IE_NAS (m : NASMessage)
| IE_MacRar (r : MacRandomAccessResponse).

Inductive InformationElement {D : Decoders} :=
| IE_GSM (e : GsmInformationElement)
| IE_UMTS
| IE_LTE (e : LteInformationElement)
| IE_FiveG.

(** ** [InformationElement::try_from] *)

Definition rrc {D : Decoders} {A} (wrap : A -> LteInformationElement)
    (r : result ParsingError A) : result InformationElementError LteInformationElement :=
  match r with Ok m => Ok (wrap m) | Err e => Err (RRCDecodingError e) end.

Definition ie_try_from {D : Decoders} (msg : GsmtapMessage)
    : result InformationElementError InformationElement :=
  let p := payload msg in
  let unsupported := UnsupportedGsmtapType (gsmtap_type (header msg)) in
  match gsmtap_type (header msg) with
  | LteRrc subtype =>
      lte ← match subtype with
        | Lte_DlCcch => rrc IE_DlCcch (decode_dl_ccch p)
        | Lte_DlDcch => rrc IE_DlDcch (decode_dl_dcch p)
        | Lte_UlCcch => rrc IE_UlCcch (decode_ul_ccch p)
        | Lte_UlDcch => rrc IE_UlDcch (decode_ul_dcch p)
        | Lte_BcchBch => rrc IE_BcchBch (decode_bcch_bch p)
        | Lte_BcchDlSch => rrc IE_BcchDlSch (decode_bcch_dl_sch p)
        | Lte_PCCH => rrc IE_PCCH (decode_pcch p)
        | Lte_MCCH => rrc IE_MCCH (decode_mcch p)
        | Lte_ScMcch => rrc IE_ScMcch (decode_sc_mcch p)
        | Lte_BcchBchMbms => rrc IE_BcchBchMbms (decode_bcch_bch_mbms p)
        | Lte_BcchDlSchBr => rrc IE_BcchDlSchBr (decode_bcch_dl_sch_br p)
        | Lte_BcchDlSchMbms => rrc IE_BcchDlSchMbms (decode_bcch_dl_sch_mbms p)
        | Lte_SbcchSlBch => rrc IE_SbcchSlBch (decode_sbcch_sl_bch p)
        | Lte_SbcchSlBchV2x => rrc IE_SbcchSlBchV2x (decode_sbcch_sl_bch_v2x p)
        | _ => Err unsupported
        end;
      Ok (IE_LTE lte)
  | LteNas LteNas_Plain =>
      match nas_parse p with
      | Ok m => Ok (IE_LTE (IE_NAS m))
      | Err e => Err (NASDecodingError e)
      end
  | LteMacFramed | LteMac =>
      match parse_mac_rar p with
      | Some rar => Ok (IE_LTE (IE_MacRar rar))
      | None => Err unsupported
      end
  | Um channel => Ok (IE_GSM {| channel := channel; gsm_bytes := p |})
  | _ => Err unsupported
  end.

(** ** Lemmas *)

(** Decoding reads the type and the payload, never the rest of the header. *)
Lemma ie_try_from_ext {D : Decoders} m m' :
  gsmtap_type (header m) = gsmtap_type (header m') -> payload m = payload m' ->
  ie_try_from m = ie_try_from m'.
Proof. unfold ie_try_from. by intros -> ->. Qed.
