(* ===== verification/Analyzer.v ===== *)
(** * Analyzers and the harness ([lib/src/analysis/analyzer.rs])

    The [Analyzer] trait as a type class, the report's rows, and the harness that runs a
    list of analyzers of different types over a recording.  A packet that makes the code
    panic is [None]. *)

From S2P Require Import Prelude RustStr Deku Hdlc DiagLog Diag Gsmtap GsmtapParser InformationElement.

Local Open Scope Z_scope.

(** ** Events *)

Inductive EventType := Informational | Low | Medium | High.

#[export] Instance EventType_eq_dec : EqDecision EventType.
Proof. solve_decision. Defined.

(** The derived order: the discriminants. *)
Definition EventType_rank (t : EventType) : Z :=
  match t with Informational => 0 | Low => 1 | Medium => 2 | High => 3 end.
Definition EventType_max (a b : EventType) : EventType :=
  if EventType_rank a <=? EventType_rank b then b else a.

Record Event := { event_type : EventType; message : rstr }.

#[export] Instance Event_eq_dec : EqDecision Event.
Proof. solve_decision. Defined.

(** ** The trait

    A detector of state [S].  Time stamps are nanoseconds since the Unix epoch. *)
Class Analyzer {D : Decoders} (S : Type) := {
  get_name : S -> rstr;
  get_description : S -> rstr;
  analyze_information_element : S -> InformationElement -> Z -> Z -> S * option Event;
  report_skipped_packet : S -> Z -> S * option Event;
  get_version : S -> Z
}.

(** The default [report_skipped_packet]. *)
Definition no_skipped_report {S} (s : S) (_timestamp : Z) : S * option Event := (s, None).

(** [Box<dyn Analyzer>]: a detector of some type. *)
Record DynAnalyzer {D : Decoders} := {
  dyn_type : Type;
  dyn_impl : Analyzer dyn_type;
  dyn_state : dyn_type
}.
Definition boxed {D : Decoders} {S} `{!Analyzer S} (s : S) : DynAnalyzer :=
  {| dyn_type := S; dyn_impl := _; dyn_state := s |}.

Definition dyn_analyze {D : Decoders} (ie : InformationElement) (packet_num timestamp : Z)
    (a : DynAnalyzer) : DynAnalyzer * option Event :=
  let '(s, e) := @analyze_information_element D _ (dyn_impl a) (dyn_state a) ie packet_num timestamp in
  ({| dyn_type := dyn_type a; dyn_impl := dyn_impl a; dyn_state := s |}, e).

Definition dyn_skipped {D : Decoders} (timestamp : Z) (a : DynAnalyzer) : DynAnalyzer * option Event :=
  let '(s, e) := @report_skipped_packet D _ (dyn_impl a) (dyn_state a) timestamp in
  ({| dyn_type := dyn_type a; dyn_impl := dyn_impl a; dyn_state := s |}, e).

(** ** Rows *)

Record AnalysisRow := {
  row_packet_num : option Z;
  packet_timestamp : option Z;
  skipped_message_reason : option rstr;
  events : list (option Event)
}.

Definition AnalysisRow_new : AnalysisRow :=
  {| row_packet_num := None; packet_timestamp := None; skipped_message_reason := None; events := [] |}.

(** [self.events.iter().flatten().map(..).max().unwrap_or(Informational)]. *)
Definition get_max_event_type (self : AnalysisRow) : EventType :=
  fold_left (fun m o => match o with Some e => EventType_max m (event_type e) | None => m end)
    (events self) Informational.

Definition contains_warnings (self : AnalysisRow) : bool :=
  negb (bool_decide (get_max_event_type self = Informational)).

Definition row_is_empty (self : AnalysisRow) : bool :=
  match skipped_message_reason self with None => true | Some _ => false end
  && negb (contains_warnings self).

(** ** Metadata *)

Record AnalyzerMetadata := { name : rstr; description : rstr; analyzer_version : Z }.
Record RuntimeMetadata := { rayhunter_version : rstr; system_os : rstr; arch : rstr }.
Record ReportMetadata := {
  analyzers_metadata : list AnalyzerMetadata;
  rayhunter : RuntimeMetadata;
  report_version : Z
}.
Definition REPORT_VERSION : Z := 3.
Definition ReportMetadata_normalize (self : ReportMetadata) : ReportMetadata :=
  {| analyzers_metadata := analyzers_metadata self; rayhunter := rayhunter self;
     report_version := REPORT_VERSION |}.

(** ** The harness *)

(** The [Debug] texts the reasons are made of. *)
Class DebugText {K : Deku} {D : Decoders} := {
  debug_parsing_error : DiagParsingError -> rstr;
  debug_parser_error : GsmtapParserError -> rstr;
  debug_ie_error : InformationElementError -> rstr;
  debug_type_error : GsmtapTypeError -> rstr
}.

Definition plain_debug {K : Deku} {D : Decoders} : DebugText := {|
  debug_parsing_error := fun _ => []; debug_parser_error := fun _ => [];
  debug_ie_error := fun _ => []; debug_type_error := fun _ => [] |}.

Definition is_deliberately_unanalysed {D : Decoders} (err : InformationElementError) : bool :=
  match err with UnsupportedGsmtapType _ => true | _ => false end.

Record Harness {D : Decoders} := {
  analyzers : list DynAnalyzer;
  packet_num : Z
}.

Definition Harness_new {D : Decoders} : Harness := {| analyzers := []; packet_num := 0 |}.
Definition add_analyzer {D : Decoders} (self : Harness) (a : DynAnalyzer) : Harness :=
  {| analyzers := analyzers self ++ [a]; packet_num := packet_num self |}.

Definition packet_suffix {D : Decoders} (self : Harness) : rstr :=
  lit " (packet " ++ dec (packet_num self) ++ lit ")".

(** [self.analyzers.iter_mut().map(..).collect()], with [event.message.push_str]. *)
Fixpoint run_analyzers {D : Decoders} (f : DynAnalyzer -> DynAnalyzer * option Event)
    (suffix : rstr) (l : list DynAnalyzer) : list DynAnalyzer * list (option Event) :=
  match l with
  | [] => ([], [])
  | a :: l' =>
      let '(a', maybe_event) := f a in
      let maybe_event := match maybe_event with
        | Some e => Some {| event_type := event_type e; message := message e ++ suffix |}
        | None => None end in
      let '(l'', es) := run_analyzers f suffix l' in
      (a' :: l'', maybe_event :: es)
  end.

(** [assert_events_match_analyzers] panics when the lengths differ. *)
Definition assert_events_match_analyzers {D : Decoders} (r : list DynAnalyzer * list (option Event))
    : option (list DynAnalyzer * list (option Event)) :=
  if (length (snd r) =? length (fst r))%nat then Some r else None.

Definition harness_with {D : Decoders} (self : Harness) (f : DynAnalyzer -> DynAnalyzer * option Event)
    : option (Harness * list (option Event)) :=
  match assert_events_match_analyzers (run_analyzers f (packet_suffix self) (analyzers self)) with
  | Some (l, es) => Some ({| analyzers := l; packet_num := packet_num self |}, es)
  | None => None
  end.

Definition harness_analyze_ie {D : Decoders} (self : Harness) (ie : InformationElement)
    (timestamp : Z) : option (Harness * list (option Event)) :=
  harness_with self (dyn_analyze ie (packet_num self) timestamp).

Definition harness_report_skipped {D : Decoders} (self : Harness) (timestamp : Z)
    : option (Harness * list (option Event)) :=
  harness_with self (dyn_skipped timestamp).

Definition bump {D : Decoders} (self : Harness) : Harness :=
  {| analyzers := analyzers self; packet_num := packet_num self + 1 |}.

(** The row under construction, with its events filled in. *)
Definition with_events (row : AnalysisRow) (reason : option rstr) (es : list (option Event)) : AnalysisRow :=
  {| row_packet_num := row_packet_num row; packet_timestamp := packet_timestamp row;
     skipped_message_reason := reason; events := es |}.

Section harness.
Context {C : Crc16} {K : Deku} {R : DiagReader} {D : Decoders} {T : DebugText}.

(** [Harness::analyze_qmdl_message]. *)
Definition analyze_qmdl_message (self : Harness) (maybe_qmdl_message : result DiagParsingError Message)
    : option (Harness * AnalysisRow) :=
  let self := bump self in
  let row := {| row_packet_num := Some (packet_num self); packet_timestamp := None;
                skipped_message_reason := None; events := [] |} in
  match maybe_qmdl_message with
  | Err err => Some (self, with_events row (Some (debug_parsing_error err)) [])
  | Ok qmdl_message =>
      let packet_ts := match qmdl_message with
        | Log _ _ _ _ timestamp _ => Some (to_datetime timestamp)
        | _ => None end in
      let row := {| row_packet_num := row_packet_num row; packet_timestamp := packet_ts;
                    skipped_message_reason := None; events := [] |} in
      let skipped reason :=
        match packet_ts with
        | Some timestamp =>
            '(self, es) ← harness_report_skipped self timestamp;
            Some (self, with_events row reason es)
        | None => Some (self, with_events row reason [])
        end in
      match parse qmdl_message with
      | Ok (Some (ts, gsmtap_msg)) =>
          let timestamp := to_datetime ts in
          match ie_try_from gsmtap_msg with
          | Ok element =>
              '(self, es) ← harness_analyze_ie self element timestamp;
              Some (self, with_events row None es)
          | Err err =>
              let reason := if is_deliberately_unanalysed err then None
                            else Some (debug_ie_error err) in
              '(self, es) ← harness_report_skipped self timestamp;
              Some (self, with_events row reason es)
          end
      | Ok None => skipped None
      | Err err => skipped (Some (debug_parser_error err))
      end
  end.

Fixpoint analyze_all (self : Harness) (l : list (result DiagParsingError Message))
    : option (Harness * list AnalysisRow) :=
  match l with
  | [] => Some (self, [])
  | m :: l' =>
      '(self, row) ← analyze_qmdl_message self m;
      '(self, rows) ← analyze_all self l';
      Some (self, row :: rows)
  end.

Definition analyze_qmdl_messages (self : Harness) (container : MessagesContainer)
    : option (Harness * list AnalysisRow) :=
  analyze_all self (container_messages container).

(** A packet of a capture: its bytes, and its time stamp in nanoseconds. *)
Record EnhancedPacketBlock := { packet_data : list Z; packet_time : Z }.

Definition gsmtap_offset : nat := 20 + 8.

(** [&data[from..]]: a panic when [from] is past the end. *)
Definition slice_from (l : list Z) (from : nat) : option (list Z) :=
  if (length l <? from)%nat then None else Some (drop from l).

(** [Harness::analyze_pcap_packet]. *)
Definition analyze_pcap_packet (self : Harness) (packet : EnhancedPacketBlock)
    : option (Harness * AnalysisRow) :=
  let self := bump self in
  let packet_ts := gps_epoch_ns + packet_time packet in
  let row := {| row_packet_num := Some (packet_num self); packet_timestamp := Some packet_ts;
                skipped_message_reason := None; events := [] |} in
  gsmtap_data ← slice_from (packet_data packet) gsmtap_offset;
  ty ← gsmtap_data !! 2%nat;
  st ← gsmtap_data !! 12%nat;
  match GsmtapType_new ty st with
  | Err err =>
      '(self, es) ← harness_report_skipped self packet_ts;
      Some (self, with_events row
        (Some (lit "failed to read GsmtapHeader: " ++ debug_type_error err)) es)
  | Ok t =>
      payload ← slice_from (packet_data packet) (gsmtap_offset + 16);
      match ie_try_from {| header := GsmtapHeader_new t; payload := payload |} with
      | Ok element =>
          '(self, es) ← harness_analyze_ie self element packet_ts;
          Some (self, with_events row None es)
      | Err err =>
          let msg := lit "in packet " ++ dec (packet_num self)
            ++ lit ", failed to convert gsmtap message to IE: " ++ debug_ie_error err in
          let reason := if is_deliberately_unanalysed err then None else Some msg in
          '(self, es) ← harness_report_skipped self packet_ts;
          Some (self, with_events row reason es)
      end
  end.

Definition get_metadata (self : Harness) (rt : RuntimeMetadata) : ReportMetadata :=
  {| analyzers_metadata := map (fun a : DynAnalyzer =>
       {| name := @get_name D _ (dyn_impl a) (dyn_state a);
          description := @get_description D _ (dyn_impl a) (dyn_state a);
          analyzer_version := @get_version D _ (dyn_impl a) (dyn_state a) |}) (analyzers self);
     rayhunter := rt; report_version := REPORT_VERSION |}.
End harness.

(** ** Lemmas *)

(** Every event of a packet says which packet it was. *)
Definition events_suffixed (suffix : rstr) (es : list (option Event)) : Prop :=
  Forall (fun o => match o with Some e => exists m, message e = m ++ suffix | None => True end) es.

Lemma run_analyzers_spec {D : Decoders} f suffix l :
  let r := run_analyzers f suffix l in
  length (fst r) = length l /\ length (snd r) = length l /\ events_suffixed suffix (snd r).
Proof.
  induction l as [|a l (IH1 & IH2 & IH3)]; simpl; [repeat split; constructor|].
  destruct (f a) as [a' o]. destruct (run_analyzers f suffix l) as [l' es]. simpl in *.
  repeat split; [by f_equal | by f_equal|]. constructor; [|done].
  destruct o as [e|]; [|done]. by eexists.
Qed.

(** The internal assertion never fails. *)
Lemma harness_with_spec {D : Decoders} self f :
  exists l es, harness_with self f = Some ({| analyzers := l; packet_num := packet_num self |}, es) /\
    (l, es) = run_analyzers f (packet_suffix self) (analyzers self) /\
    length l = length (analyzers self) /\ length es = length (analyzers self) /\
    events_suffixed (packet_suffix self) es.
Proof.
  pose proof (run_analyzers_spec f (packet_suffix self) (analyzers self)) as (H1 & H2 & H3).
  unfold harness_with, assert_events_match_analyzers.
  destruct (run_analyzers f _ _) as [l es]. simpl in *.
  rewrite H1, H2, Nat.eqb_refl. by exists l, es.
Qed.

(** What a row says of the packet it describes. *)
Definition row_for {D : Decoders} (self self' : Harness) (logged : bool) (row : AnalysisRow) : Prop :=
  packet_num self' = packet_num self + 1 /\
  row_packet_num row = Some (packet_num self') /\
  length (analyzers self') = length (analyzers self) /\
  (if logged then length (events row) = length (analyzers self) else events row = []) /\
  events_suffixed (packet_suffix self') (events row).

Lemma harness_with_row {D : Decoders} (self : Harness) f num ts reason row' :
  num = Some (packet_num self + 1) ->
  exists self' es, ('(s, es) ← harness_with (bump self) f;
    Some (s, with_events {| row_packet_num := num; packet_timestamp := ts;
      skipped_message_reason := row'; events := [] |} reason es)) =
    Some (self', with_events {| row_packet_num := num; packet_timestamp := ts;
      skipped_message_reason := row'; events := [] |} reason es) /\
    row_for self self' true (with_events {| row_packet_num := num; packet_timestamp := ts;
      skipped_message_reason := row'; events := [] |} reason es).
Proof.
  intros ->. destruct (harness_with_spec (bump self) f) as (l & es & -> & _ & Hl & He & Hs).
  eexists _, es. split; [reflexivity|]. repeat split; done.
Qed.

Section harness_lemmas.
Context {C : Crc16} {K : Deku} {R : DiagReader} {D : Decoders} {T : DebugText}.

Definition is_log (m : result DiagParsingError Message) : bool :=
  match m with Ok (Log _ _ _ _ _ _) => true | _ => false end.

Lemma parse_timestamp p o i lt t body ts m :
  parse (Log p o i lt t body) = Ok (Some (ts, m)) -> ts = t.
Proof. simpl. destruct (log_to_gsmtap body) as [[]|]; [intros [= <- _]; done | done | done]. Qed.

Lemma analyze_qmdl_message_total self m :
  exists self' row, analyze_qmdl_message self m = Some (self', row) /\
    row_for self self' (is_log m) row /\
    packet_timestamp row =
      match m with Ok (Log _ _ _ _ t _) => Some (to_datetime t) | _ => None end.
Proof.
  unfold analyze_qmdl_message.
  destruct m as [[p o i lt t body|]|e]; cbn [is_log];
    [|eexists _, _; split; [reflexivity|]; split; [|done]; repeat split; constructor
     |eexists _, _; split; [reflexivity|]; split; [|done]; repeat split; constructor].
  assert (H : forall f reason row',
    exists self' row, ('(s, es) ← harness_with (bump self) f;
      Some (s, with_events {| row_packet_num := Some (packet_num (bump self));
        packet_timestamp := Some (to_datetime t); skipped_message_reason := row'; events := [] |} reason es))
      = Some (self', row) /\ row_for self self' true row /\
      packet_timestamp row = Some (to_datetime t)).
  { intros f reason row'.
    destruct (harness_with_row self f (Some (packet_num (bump self))) (Some (to_datetime t)) reason row')
      as (self' & es & He & Hrow); [done|]. eexists _, _. split; [exact He|]. by split. }
  destruct (parse _) as [[[ts msg]|]|e] eqn:Hp; [|apply H|apply H].
  destruct (ie_try_from msg) as [el|err]; apply H.
Qed.

Lemma analyze_all_total self l :
  exists self' rows, analyze_all self l = Some (self', rows) /\
    packet_num self' = packet_num self + Z.of_nat (length l) /\
    length (analyzers self') = length (analyzers self) /\
    length rows = length l /\
    forall k row, rows !! k = Some row ->
      row_packet_num row = Some (packet_num self + 1 + Z.of_nat k) /\
      (length (events row) = length (analyzers self) \/ events row = []).
Proof.
  revert self; induction l as [|m l IH]; intros self.
  { exists self, []. split; [done|]. split; [simpl; lia|]. do 2 (split; [done|]).
    intros k row Hk. by rewrite lookup_nil in Hk. }
  destruct (analyze_qmdl_message_total self m) as (s1 & row & H1 & (Hn & Hr & Ha & He & _) & _).
  destruct (IH s1) as (s2 & rows & H2 & Hn2 & Ha2 & Hl & Hrows).
  exists s2, (row :: rows). cbn [analyze_all]. rewrite H1. cbn [mbind option_bind].
  rewrite H2. cbn [mbind option_bind]. split; [done|]. cbn [length].
  split; [lia|]. split; [congruence|]. split; [lia|].
  intros [|k] r Hk; simpl in Hk.
  - injection Hk as <-. rewrite Hr, Hn. split; [f_equal; lia|]. destruct (is_log m); auto.
  - apply Hrows in Hk as [-> Hev]. split; [f_equal; lia|]. by rewrite Ha in Hev.
Qed.
End harness_lemmas.

Lemma EventType_max_spec a b :
  EventType_rank a <= EventType_rank (EventType_max a b) /\
  EventType_rank b <= EventType_rank (EventType_max a b) /\ (EventType_max a b = a \/ EventType_max a b = b).
Proof.
  unfold EventType_max. destruct (Z.leb_spec (EventType_rank a) (EventType_rank b)); repeat split; auto; lia.
Qed.

Lemma fold_max_spec (l : list (option Event)) m0 :
  let m := fold_left (fun m o => match o with Some e => EventType_max m (event_type e) | None => m end) l m0 in
  EventType_rank m0 <= EventType_rank m /\
  (forall e, Some e ∈ l -> EventType_rank (event_type e) <= EventType_rank m) /\
  (m = m0 \/ exists e, Some e ∈ l /\ event_type e = m).
Proof.
  revert m0. induction l as [|o l IH]; intros m0; simpl.
  { split; [lia|]. split; [intros e He; by apply not_elem_of_nil in He | by left]. }
  destruct (IH (match o with Some e => EventType_max m0 (event_type e) | None => m0 end)) as (H1 & H2 & H3).
  set (m := fold_left _ l _) in *. destruct o as [e0|].
  - destruct (EventType_max_spec m0 (event_type e0)) as (Ha & Hb & Hc). split; [lia|]. split.
    + intros e [He|He]%elem_of_cons; [injection He as ->; lia | by apply H2].
    + destruct H3 as [-> | (e & He & Hm)]; [|right; exists e; split; [by right|done]].
      destruct Hc as [->| ->]; [by left | right; exists e0; split; [by left|done]].
  - split; [done|]. split.
    + intros e [He|He]%elem_of_cons; [done | by apply H2].
    + destruct H3 as [->|(e & He & Hm)]; [by left | right; exists e; split; [by right | done]].
Qed.

Lemma warnings_iff (row : AnalysisRow) :
  contains_warnings row = true <-> exists e, Some e ∈ events row /\ event_type e <> Informational.
Proof.
  destruct (fold_max_spec (events row) Informational) as (_ & H2 & H3).
  fold (get_max_event_type row) in H2, H3. unfold contains_warnings.
  rewrite negb_true_iff, bool_decide_eq_false. split.
  - intros Hne. destruct H3 as [?|(e & He & Hm)]; [done|]. exists e. by rewrite Hm.
  - intros (e & He & Hne) Hm. apply H2 in He. rewrite Hm in He. by destruct (event_type e).
Qed.

(** One High event makes the row High. *)
Lemma high_row (row : AnalysisRow) e :
  Some e ∈ events row -> event_type e = High -> get_max_event_type row = High.
Proof.
  intros He Hh. destruct (fold_max_spec (events row) Informational) as (_ & H2 & _).
  fold (get_max_event_type row) in H2. apply H2 in He. rewrite Hh in He. by destruct (get_max_event_type row).
Qed.

(** ** Properties *)


(** What one message's row holds.  The row carries the packet's own number and the time of
    its log record; a message that did not parse or is not a log record reaches no detector;
    any other reaches every detector exactly once, converted or skipped, and each event's text
    ends with the packet's number. *)
Theorem analyze_qmdl_message_row {C : Crc16} {K : Deku} {R : DiagReader} {D : Decoders}
    {T : DebugText} (self : Harness) (m : result DiagParsingError Message) :
  exists self' row, analyze_qmdl_message self m = Some (self', row) /\
    packet_num self' = packet_num self + 1 /\
    row_packet_num row = Some (packet_num self') /\
    packet_timestamp row = match m with Ok (Log _ _ _ _ t _) => Some (to_datetime t) | _ => None end /\
    (match m with
     | Ok (Log _ _ _ _ _ _) => length (events row) = length (analyzers self)
     | _ => events row = [] end) /\
    Forall (fun o => match o with
      | Some e => exists text, message e = text ++ lit " (packet " ++ dec (packet_num self') ++ lit ")"
      | None => True end) (events row).
Proof.
  destruct (analyze_qmdl_message_total self m) as (self' & row & H & (Hn & Hr & _ & He & Hs) & Ht).
  exists self', row. do 4 (split; [done|]). split; [|exact Hs].
  destruct m as [[]|]; exact He.
Qed.
