(* ===== verification/Pcap.v ===== *)
(** * Captures ([lib/src/pcap.rs])

    Each GSMTAP frame is written as a UDP packet between loopback addresses in a pcapng
    block.  The pcapng encoding is the [pcap_file_tokio] crate's: the class [PcapNgWriter].
    Length arithmetic is on [u16], with the wrap-around of a release build (a debug build
    panics where it wraps). *)

From S2P Require Import Prelude RustStr Floats Deku Hdlc DiagLog Diag Gsmtap GsmtapMac GsmtapParser.
From S2P Require Import InformationElement Analyzer.

Local Open Scope Z_scope.

(** ** Data *)

Record GpsPoint := { unix_ts : Z; latitude : f64; longitude : f64 }.

Definition IP_HEADER_LEN : Z := 20.
Definition UDP_HEADER_LEN : Z := 8.
Definition GSMTAP_PORT : Z := 4729.

Record IpHeader := {
  version_and_ihl : Z;
  dscp : Z;
  total_len : Z;
  identification : Z;
  flags_and_frag_offset : Z;
  idk : Z;
  ttl : Z;
  protocol : Z;
  ip_checksum : Z;
  src_addr : Z;
  dst_addr : Z
}.

(** The layout the declaration gives, all big-endian. *)
Definition IpHeader_fields (h : IpHeader) : list (nat * Z) :=
  [(8%nat, version_and_ihl h); (8%nat, dscp h); (16%nat, total_len h); (16%nat, identification h);
   (8%nat, flags_and_frag_offset h); (8%nat, idk h); (8%nat, ttl h); (8%nat, protocol h);
   (16%nat, ip_checksum h); (32%nat, src_addr h); (32%nat, dst_addr h)].

Record UdpHeader := { src_port : Z; dst_port : Z; udp_length : Z; udp_checksum : Z }.

Definition UdpHeader_fields (h : UdpHeader) : list (nat * Z) :=
  [(16%nat, src_port h); (16%nat, dst_port h); (16%nat, udp_length h); (16%nat, udp_checksum h)].

(** A block as it is handed to the pcapng writer. *)
Record PacketBlock := {
  interface_id : Z;
  timestamp_nanos : Z;
  original_len : Z;
  block_data : list Z;
  options : list rstr
}.

(** ** The writer the program is handed *)

Class PcapNgWriter (W : Type) := {
  PcapError : Type;
  write_pcapng_block : W -> PacketBlock -> result PcapError W;
  (** [serde_json::to_string] of a [GpsPoint]. *)
  gps_json : GpsPoint -> rstr
}.

Inductive GsmtapPcapError {K : Deku} {W} {P : PcapNgWriter W} :=
| Pcap_Error (e : PcapError)
| TimestampOutOfRange
| Deku_Error (e : DekuError).

Record GsmtapPcapWriter (W : Type) := { writer : W; ip_id : Z }.
Arguments writer {W} _.
Arguments ip_id {W} _.

(** The two headers [write_gsmtap_message] builds for a message of [len] bytes. *)
Definition ip_header (ip_id len : Z) : IpHeader := {|
  version_and_ihl := 0x45;
  dscp := 0;
  total_len := wrapu 16 (wrapu 16 len + IP_HEADER_LEN + UDP_HEADER_LEN);
  identification := ip_id;
  flags_and_frag_offset := 0x40;
  idk := 0;
  ttl := 64;
  protocol := 0x11;
  ip_checksum := 0xffff;
  src_addr := 0x7f000001;
  dst_addr := 0x7f000001
|}.

Definition udp_header (len : Z) : UdpHeader := {|
  src_port := 13337;
  dst_port := GSMTAP_PORT;
  udp_length := wrapu 16 (wrapu 16 len + UDP_HEADER_LEN);
  udp_checksum := 0xffff
|}.

(** [GsmtapPcapWriter::write_gsmtap_message]. *)
Definition write_gsmtap_message {K : Deku} {W} {P : PcapNgWriter W} (self : GsmtapPcapWriter W)
    (msg : GsmtapMessage) (timestamp : Timestamp) (gps : option GpsPoint)
    : result GsmtapPcapError (GsmtapPcapWriter W) :=
  let duration := to_datetime timestamp in
  if duration <? 0 then Err TimestampOutOfRange
  else
    (* [Duration::from_nanos(duration.as_micros() as u64)] *)
    let duration := wrapu 64 (duration / 1000) in
    match GsmtapMessage_to_bytes msg with
    | Err e => Err (Deku_Error e)
    | Ok msg_bytes =>
        let len := Z.of_nat (length msg_bytes) in
        match deku_to_bytes (IpHeader_fields (ip_header (ip_id self) len)) with
        | Err e => Err (Deku_Error e)
        | Ok ip_bytes =>
            match deku_to_bytes (UdpHeader_fields (udp_header len)) with
            | Err e => Err (Deku_Error e)
            | Ok udp_bytes =>
                let data := ip_bytes ++ udp_bytes ++ msg_bytes in
                let packet := {|
                  interface_id := 0;
                  timestamp_nanos := duration;
                  original_len := wrapu 32 (Z.of_nat (length data));
                  block_data := data;
                  options := match gps with Some p => [gps_json p] | None => [] end |} in
                match write_pcapng_block (writer self) packet with
                | Err e => Err (Pcap_Error e)
                | Ok w => Ok {| writer := w; ip_id := wrapu 16 (ip_id self + 1) |}
                end
            end
        end
    end.

(** ** Lemmas *)

(** The headers spelt out. *)
Definition ip_layout (h : IpHeader) : list Z :=
  [version_and_ihl h; dscp h] ++ be_bytes 2 (total_len h) ++ be_bytes 2 (identification h)
  ++ [flags_and_frag_offset h; idk h; ttl h; protocol h] ++ be_bytes 2 (ip_checksum h)
  ++ be_bytes 4 (src_addr h) ++ be_bytes 4 (dst_addr h).
Definition udp_layout (h : UdpHeader) : list Z :=
  be_bytes 2 (src_port h) ++ be_bytes 2 (dst_port h) ++ be_bytes 2 (udp_length h)
  ++ be_bytes 2 (udp_checksum h).

Lemma msb_16_bytes v : 0 <= v -> msb_bits 16 v = bytes_bits (be_bytes 2 v).
Proof. apply (msb_bits_bytes 2). Qed.
Lemma msb_32_bytes v : 0 <= v -> msb_bits 32 v = bytes_bits (be_bytes 4 v).
Proof. apply (msb_bits_bytes 4). Qed.

(** Whole-byte layouts: the bytes of the fields one after another. *)
Lemma deku_bytes_layout {K : Deku} fields bytes :
  fields_ok fields -> bytes_ok bytes -> fields_bits fields = bytes_bits bytes ->
  deku_to_bytes fields = Ok bytes.
Proof. intros Hf Hb He. rewrite deku_to_bytes_ok, He by done. by rewrite pack_bytes. Qed.

Lemma ip_header_bytes {K : Deku} id len : is_u16 id ->
  deku_to_bytes (IpHeader_fields (ip_header id len)) = Ok (ip_layout (ip_header id len)).
Proof.
  intros Hid. assert (Hl : is_u16 (total_len (ip_header id len))) by (apply wrapu_in_u; lia).
  apply deku_bytes_layout.
  - unfold fields_ok, IpHeader_fields.
    forall_list ltac:(first [done | exact Hl | exact Hid | by vm_compute]).
  - unfold ip_layout, bytes_ok. rewrite !Forall_app. repeat split; try apply be_bytes_ok;
      forall_list ltac:(by vm_compute).
  - unfold ip_layout. rewrite !bytes_bits_app. unfold in_u in *.
    rewrite <- !msb_16_bytes, <- !msb_32_bytes by (first [lia | by vm_compute | cbn; lia]).
    unfold fields_bits, IpHeader_fields, bytes_bits. cbn [flat_map].
    by rewrite !app_nil_r, <- !app_assoc.
Qed.

Lemma udp_header_bytes {K : Deku} len :
  deku_to_bytes (UdpHeader_fields (udp_header len)) = Ok (udp_layout (udp_header len)).
Proof.
  assert (Hl : is_u16 (udp_length (udp_header len))) by (apply wrapu_in_u; lia).
  apply deku_bytes_layout.
  - unfold fields_ok, UdpHeader_fields. forall_list ltac:(first [done | exact Hl | by vm_compute]).
  - unfold udp_layout, bytes_ok. rewrite !Forall_app. repeat split; apply be_bytes_ok.
  - unfold udp_layout. rewrite !bytes_bits_app. unfold in_u in *.
    rewrite <- !msb_16_bytes by (first [lia | by vm_compute | cbn; lia]).
    unfold fields_bits, UdpHeader_fields. cbn [flat_map]. by rewrite app_nil_r.
Qed.

Lemma udp_layout_length h : length (udp_layout h) = 8%nat.
Proof. done. Qed.
Lemma ip_layout_length h : length (ip_layout h) = 20%nat.
Proof. done. Qed.

Definition packet_bytes (id : Z) (msg : GsmtapMessage) : list Z :=
  let bytes := header_layout (header msg) ++ payload msg in
  let len := Z.of_nat (length bytes) in
  ip_layout (ip_header id len) ++ udp_layout (udp_header len) ++ bytes.

Lemma packet_bytes_drop_28 id msg :
  drop 28 (packet_bytes id msg) = header_layout (header msg) ++ payload msg.
Proof. done. Qed.

Lemma packet_bytes_drop_44 id msg : drop 44 (packet_bytes id msg) = payload msg.
Proof. unfold packet_bytes. by rewrite app_assoc, app_assoc. Qed.

Lemma packet_bytes_length id msg : (44 <= length (packet_bytes id msg))%nat.
Proof.
  unfold packet_bytes. rewrite !length_app, ip_layout_length, udp_layout_length,
    header_layout_length. lia.
Qed.

Lemma to_datetime_bounds t :
  gps_epoch_ns - 2 ^ 63 * 10 ^ 6 <= to_datetime t <= gps_epoch_ns + (2 ^ 63 - 1) * 10 ^ 6.
Proof.
  unfold to_datetime. match goal with |- context [f64_as_i64 ?x] =>
    pose proof (sf_as_int_bounds (- 2 ^ 63) (2 ^ 63 - 1) x ltac:(lia)) as H end.
  unfold f64_as_i64. lia.
Qed.

(** Frames whose header numbers are those of its type, as the parser builds them. *)
Definition typed_header (h : GsmtapHeader) : Prop :=
  packet_type h = get_type (gsmtap_type h) /\ subtype h = get_subtype (gsmtap_type h).

Lemma gsmtap_frame_typed {K : Deku} body m :
  body_ok body -> log_to_gsmtap body = Ok (Some m) -> typed_header (header m).
Proof.
  intros Hok. destruct body as [| | |v p| | | | | | |p| | |]; simpl in *; try done.
  - destruct (UmtsRrcSubtype_try_from _); [|done]. by intros [= <-].
  - destruct (gsm_rr_subtype _); [|done]. by intros [= <-].
  - by intros [= <-].
  - destruct (lte_rrc_type _ _) as [t|]; [|done]. by intros [= <-].
  - by intros [= <-].
  - by intros [= <-].
  - destruct (subpackets p) as [|sp l]; [done|]. forall_inv.
    destruct (mac_subpacket_to_gsmtap (sub_body sp)) as [o|] eqn:Hm; [|done].
    intros [= ->]. by rewrite (mac_subpacket_frame _ _ ltac:(done) Hm).
Qed.

Lemma GsmtapType_new_typed h :
  typed_header h -> GsmtapType_new (packet_type h) (subtype h) = Ok (gsmtap_type h).
Proof.
  intros [-> ->]. by destruct (gsmtap_type h) as [[]| | | | | | | | | | |[]|[]| | | | |[]| |].
Qed.

Lemma packet_bytes_type id msg : drop 28 (packet_bytes id msg) !! 2%nat = Some (packet_type (header msg)).
Proof. done. Qed.
Lemma packet_bytes_subtype id msg : drop 28 (packet_bytes id msg) !! 12%nat = Some (subtype (header msg)).
Proof. done. Qed.

Lemma slice_packet id msg n :
  (n <= 44)%nat -> slice_from (packet_bytes id msg) n = Some (drop n (packet_bytes id msg)).
Proof.
  intros Hn. unfold slice_from. pose proof (packet_bytes_length id msg).
  by rewrite (proj2 (Nat.ltb_ge _ _)) by lia.
Qed.

(** What [write_gsmtap_message] hands the pcapng writer. *)
Definition frame_block {W} {P : PcapNgWriter W} (id : Z) (msg : GsmtapMessage) (t : Timestamp)
    (gps : option GpsPoint) : PacketBlock := {|
  interface_id := 0;
  timestamp_nanos := wrapu 64 (to_datetime t / 1000);
  original_len := wrapu 32 (Z.of_nat (length (packet_bytes id msg)));
  block_data := packet_bytes id msg;
  options := match gps with Some p => [gps_json p] | None => [] end |}.

Lemma write_gsmtap_message_ok {K : Deku} {W} {P : PcapNgWriter W} self msg t gps :
  header_ok (header msg) -> is_u16 (ip_id self) -> 0 <= to_datetime t ->
  write_gsmtap_message self msg t gps =
  match write_pcapng_block (writer self) (frame_block (ip_id self) msg t gps) with
  | Err e => Err (Pcap_Error e)
  | Ok w => Ok {| writer := w; ip_id := wrapu 16 (ip_id self + 1) |}
  end.
Proof.
  intros Hh Hid Ht. unfold write_gsmtap_message. rewrite (proj2 (Z.ltb_ge _ _) Ht).
  unfold GsmtapMessage_to_bytes. rewrite header_to_bytes_layout by done.
  by rewrite ip_header_bytes, udp_header_bytes.
Qed.

(** ** Properties *)

(** The packet a frame is written as.  For a frame of at most 65507 bytes, the IP header's
    length is the packet's, the UDP length is the packet's less the IP header, the IP
    identification is the writer's counter, which then advances modulo 65536, and the UDP
    payload is the serialized frame; the block is stamped with the whole microseconds since
    the Unix epoch, and its declared length is its data's. *)
Theorem write_gsmtap_message_packet {K : Deku} {W} {P : PcapNgWriter W} self msg t gps w :
  header_ok (header msg) -> is_u16 (ip_id self) -> 0 <= to_datetime t ->
  Z.of_nat (length (payload msg)) <= 65491 ->
  write_pcapng_block (writer self) (frame_block (ip_id self) msg t gps) = Ok w ->
  let data := block_data (frame_block (ip_id self) msg t gps) in
  write_gsmtap_message self msg t gps = Ok {| writer := w; ip_id := (ip_id self + 1) mod 2 ^ 16 |} /\
  be_value (take 2 (drop 2 data)) = Z.of_nat (length data) /\
  be_value (take 2 (drop 24 data)) = Z.of_nat (length data) - 20 /\
  be_value (take 2 (drop 4 data)) = ip_id self /\
  drop 28 data = header_layout (header msg) ++ payload msg /\
  original_len (frame_block (ip_id self) msg t gps) = Z.of_nat (length data).
Proof.
  intros Hh Hid Ht Hlen Hw data. rewrite write_gsmtap_message_ok, Hw by done. split; [done|].
  assert (Hl : Z.of_nat (length data) = 44 + Z.of_nat (length (payload msg))).
  { unfold data, frame_block, block_data, packet_bytes.
    rewrite !length_app, ip_layout_length, udp_layout_length, header_layout_length. lia. }
  assert (H2 : forall v, is_u16 v -> be_value (be_bytes 2 v) = v).
  { intros v Hv. rewrite be_value_bytes. by apply Z.mod_small. }
  set (n := Z.of_nat (length (header_layout (header msg) ++ payload msg))).
  assert (Hn : n = 16 + Z.of_nat (length (payload msg))).
  { unfold n. rewrite length_app, header_layout_length. lia. }
  assert (Hw1 : total_len (ip_header (ip_id self) n) = n + 28).
  { unfold ip_header, total_len, IP_HEADER_LEN, UDP_HEADER_LEN.
    rewrite !wrapu_id; unfold in_u; rewrite ?wrapu_id; unfold in_u; lia. }
  assert (Hw2 : udp_length (udp_header n) = n + 8).
  { unfold udp_header, udp_length, UDP_HEADER_LEN.
    rewrite !wrapu_id; unfold in_u; rewrite ?wrapu_id; unfold in_u; lia. }
  split; [|split; [|split; [|split]]].
  - change (take 2 (drop 2 data)) with (be_bytes 2 (total_len (ip_header (ip_id self) n))).
    rewrite Hw1, H2 by (unfold in_u; lia). lia.
  - change (take 2 (drop 24 data)) with (be_bytes 2 (udp_length (udp_header n))).
    rewrite Hw2, H2 by (unfold in_u; lia). lia.
  - change (take 2 (drop 4 data)) with (be_bytes 2 (ip_id self)). by apply H2.
  - apply packet_bytes_drop_28.
  - change (wrapu 32 (Z.of_nat (length data)) = Z.of_nat (length data)).
    apply wrapu_id. unfold in_u. lia.
Qed.

(** A writer that collects the blocks it is handed. *)
Definition collecting_writer : PcapNgWriter (list PacketBlock) := {|
  PcapError := unit; write_pcapng_block := fun w b => Ok (w ++ [b]); gps_json := fun _ => [] |}.

Lemma write_gsmtap_message_packet_witness :
  let msg := {| header := GsmtapHeader_new (LteNas LteNas_Plain); payload := [7; 0x41] |} in
  let self := {| writer := [frame_block (P := collecting_writer) 0 msg {| ts := 0 |} None]; ip_id := 0xffff |} in
  exists w, @write_gsmtap_message deku_fits _ collecting_writer self msg {| ts := 0 |} None
    = Ok {| writer := w; ip_id := 0 |}.
Proof.
  intros msg self. eexists.
  destruct (@write_gsmtap_message_packet deku_fits _ collecting_writer self msg {| ts := 0 |} None _
    (header_new_ok _) ltac:(by vm_compute) ltac:(by vm_compute) ltac:(by vm_compute) eq_refl) as [H _].
  exact H.
Defined.


(** A detector that counts what it is told of, to evaluate the harness with. *)
Definition counting_analyzer {D : Decoders} : Analyzer Z := {|
  get_name := fun _ => []; get_description := fun _ => [];
  analyze_information_element := fun n _ _ _ => (n + 1, Some {| event_type := Low; message := dec n |});
  report_skipped_packet := no_skipped_report;
  get_version := fun _ => 1 |}.


Lemma to_datetime_milliseconds t : (to_datetime t) mod 1000 = 0.
Proof.
  unfold to_datetime, gps_epoch_ns.
  set (d := f64_as_i64 _).
  replace (315964800 * 10 ^ 9 + d * 10 ^ 6) with ((315964800 * 10 ^ 6 + d * 10 ^ 3) * 1000) by lia.
  apply Z.mod_mul. lia.
Qed.

(** The two directions of the capture disagree about time.  [write_gsmtap_message] stamps a
    packet with the time since the Unix epoch (divided by a thousand, which the pcapng writer
    makes up for), but [analyze_pcap_packet] adds a packet's time stamp to the GPS epoch: a
    packet of this program's own capture, read back at the moment it is stamped with, is
    reported at that moment plus the ten years between the epochs. *)
Theorem pcap_reanalysis_time {K : Deku} {D : Decoders} {T : DebugText} {W} {P : PcapNgWriter W}
    self (frame : GsmtapMessage) id t gps s row :
  0 <= to_datetime t < 2 ^ 63 ->
  let block := frame_block id frame t gps in
  analyze_pcap_packet self
    {| packet_data := block_data block; packet_time := timestamp_nanos block * 1000 |} = Some (s, row) ->
  packet_timestamp row = Some (to_datetime t + 315964800 * 10 ^ 9).
Proof.
  intros Ht block.
  assert (Htime : timestamp_nanos block * 1000 = to_datetime t).
  { change (timestamp_nanos block) with (wrapu 64 (to_datetime t / 1000)). pose proof (to_datetime_milliseconds t).
    rewrite wrapu_id; [dlia|]. unfold in_u. dlia. }
  unfold analyze_pcap_packet. cbn [packet_data packet_time]. rewrite Htime.
  rewrite Z.add_comm. fold gps_epoch_ns.
  assert (H : forall f reason row0, packet_timestamp row0 = Some (to_datetime t + gps_epoch_ns) ->
    ('(self, es) ← harness_with (bump self) f; Some (self, with_events row0 reason es)) = Some (s, row) ->
    packet_timestamp row = Some (to_datetime t + gps_epoch_ns)).
  { intros f reason row0 H0. destruct (harness_with_spec (bump self) f) as (l & es & -> & _).
    cbn [mbind option_bind]. intros Heq. injection Heq as _ <-. exact H0. }
  destruct (slice_from (block_data block) gsmtap_offset) as [g|]; cbn [mbind option_bind]; [|done].
  destruct (g !! 2%nat) as [ty|]; cbn [mbind option_bind]; [|done].
  destruct (g !! 12%nat) as [st|]; cbn [mbind option_bind]; [|done].
  destruct (GsmtapType_new ty st); [|by apply H].
  destruct (slice_from _ _) as [p|]; cbn [mbind option_bind]; [|done].
  destruct (ie_try_from _); by apply H.
Qed.

Lemma pcap_reanalysis_time_witness :
  let D := nas_decoders (fun _ => Ok NAS_Other) in
  let frame := {| header := GsmtapHeader_new (LteNas LteNas_Plain); payload := [7; 0x41] |} in
  let block := frame_block (P := collecting_writer) 0 frame {| ts := 0 |} None in
  option_map (fun r => packet_timestamp (snd r))
    (@analyze_pcap_packet deku_fits D plain_debug Harness_new
      {| packet_data := block_data block; packet_time := timestamp_nanos block * 1000 |})
  = Some (Some (2 * 315964800 * 10 ^ 9)).
Proof.
  intros D frame block.
  destruct (@analyze_pcap_packet deku_fits D plain_debug Harness_new
      {| packet_data := block_data block; packet_time := timestamp_nanos block * 1000 |}) as [[s row]|] eqn:H.
  - pose proof (@pcap_reanalysis_time deku_fits D plain_debug _ collecting_writer Harness_new frame 0
      {| ts := 0 |} None s row ltac:(by vm_compute) H) as Ht.
    cbn [option_map snd]. rewrite Ht. vm_compute. reflexivity.
  - exfalso. revert H. vm_compute. discriminate.
Defined.
