(* ===== verification/FlashCatch.v ===== *)
(** * FlashCatch ([lib/src/analysis/flash_catch.rs])

    The detector for a tower that takes the identity and then fails authentication on
    purpose.  Its state is a record; the properties are about runs of it over any sequence
    of elements. *)

From S2P Require Import Prelude RustStr Gsmtap GsmtapMac InformationElement Analyzer.

Local Open Scope Z_scope.

Definition WINDOW : Z := 200.
Definition FORGED_CHALLENGES_TO_WARN : nat := 2.
Definition SYNCH_FAILURES_TO_WARN : nat := 3.

Record FlashCatchAnalyzer := {
  imsi_requested_at : option Z;
  checked_in_at : option Z;
  forged_challenges : list Z;
  synch_failures : list Z;
  reported : bool
}.

Definition FlashCatch_new : FlashCatchAnalyzer := {|
  imsi_requested_at := None; checked_in_at := None; forged_challenges := [];
  synch_failures := []; reported := false |}.

Definition reset (_self : FlashCatchAnalyzer) : FlashCatchAnalyzer := {|
  imsi_requested_at := None; checked_in_at := None; forged_challenges := [];
  synch_failures := []; reported := false |}.

(** [now.saturating_sub(at) <= WINDOW]. *)
Definition in_window (now at_ : Z) : bool := sat_subu now at_ <=? WINDOW.

Definition prune (self : FlashCatchAnalyzer) (now : Z) : FlashCatchAnalyzer :=
  let forged := filter (fun a => in_window now a = true) (forged_challenges self) in
  let synch := filter (fun a => in_window now a = true) (synch_failures self) in
  {| imsi_requested_at := imsi_requested_at self; checked_in_at := checked_in_at self;
     forged_challenges := forged; synch_failures := synch;
     reported := match forged, synch with [], [] => false | _, _ => reported self end |}.

Definition packet_list (packets : list Z) : rstr := join (lit ", ") (map dec packets).

Definition on_check_in (self : FlashCatchAnalyzer) (packet_num : Z) : FlashCatchAnalyzer :=
  let self := reset self in
  {| imsi_requested_at := imsi_requested_at self; checked_in_at := Some packet_num;
     forged_challenges := forged_challenges self; synch_failures := synch_failures self;
     reported := reported self |}.

Definition with_forged (self : FlashCatchAnalyzer) (l : list Z) (r : bool) : FlashCatchAnalyzer := {|
  imsi_requested_at := imsi_requested_at self; checked_in_at := checked_in_at self;
  forged_challenges := l; synch_failures := synch_failures self; reported := r |}.

Definition with_synch (self : FlashCatchAnalyzer) (l : list Z) (r : bool) : FlashCatchAnalyzer := {|
  imsi_requested_at := imsi_requested_at self; checked_in_at := checked_in_at self;
  forged_challenges := forged_challenges self; synch_failures := l; reported := r |}.

(** [option.filter(|&at| packet_num.saturating_sub(at) <= WINDOW)]. *)
Definition recent (packet_num : Z) (o : option Z) : option Z :=
  match o with Some a => if in_window packet_num a then Some a else None | None => None end.

Definition on_forged_challenge (self : FlashCatchAnalyzer) (packet_num : Z)
    : FlashCatchAnalyzer * option Event :=
  let self := prune self packet_num in
  let self := with_forged self (forged_challenges self ++ [packet_num]) (reported self) in
  if reported self || (length (forged_challenges self) <? FORGED_CHALLENGES_TO_WARN)%nat
  then (self, None)
  else
    let self := with_forged self (forged_challenges self) true in
    let count := dec (Z.of_nat (length (forged_challenges self))) in
    let packets := packet_list (forged_challenges self) in
    match recent packet_num (imsi_requested_at self) with
    | Some requested_at =>
        (self, Some {| event_type := High; message :=
          lit "The tower asked for the phone's permanent identity (IMSI) at packet "
          ++ dec requested_at ++ lit ", then failed its own authentication " ++ count
          ++ lit " times in a row (packets " ++ packets
          ++ lit "): the phone rejected each challenge as forged. This is the FlashCatch pattern. A fake tower takes the identity and then fails authentication on purpose; after the third rejection the phone bars the tower for five minutes and goes back to the real network with no visible interruption, keeping the temporary identity the tower can now tie to the IMSI." |})
    | None =>
        (self, Some {| event_type := Medium; message :=
          lit "The phone rejected the tower's authentication challenge as forged " ++ count
          ++ lit " times in a row (packets " ++ packets
          ++ lit "). A real network knows the SIM's key and passes this check; a tower that keeps failing it does not know the key. This is the second half of the FlashCatch pattern, seen without the identity request that usually comes first." |})
    end.

Definition on_synch_failure (self : FlashCatchAnalyzer) (packet_num : Z)
    : FlashCatchAnalyzer * option Event :=
  let self := prune self packet_num in
  let self := with_synch self (synch_failures self ++ [packet_num]) (reported self) in
  if reported self || (length (synch_failures self) <? SYNCH_FAILURES_TO_WARN)%nat
  then (self, None)
  else
    let self := with_synch self (synch_failures self) true in
    (self, Some {| event_type := Medium; message :=
      lit "The phone reported the tower's authentication sequence number out of step "
      ++ dec (Z.of_nat (length (synch_failures self))) ++ lit " times in a row (packets "
      ++ packet_list (synch_failures self)
      ++ lit "). Once is normal housekeeping; a run of them suggests a tower replaying old authentication data it captured earlier." |}).

Definition on_imsi_request (self : FlashCatchAnalyzer) (packet_num : Z)
    : FlashCatchAnalyzer * option Event :=
  let self := {| imsi_requested_at := Some packet_num; checked_in_at := checked_in_at self;
                 forged_challenges := forged_challenges self;
                 synch_failures := synch_failures self; reported := reported self |} in
  match recent packet_num (checked_in_at self) with
  | None => (self, None)
  | Some checked_in_at =>
      (self, Some {| event_type := Informational; message :=
        lit "The tower asked for the permanent identity (IMSI) as soon as the phone checked in (tracking area update or service request at packet "
        ++ dec checked_in_at
        ++ lit "). Real networks do this when they have lost the phone's record; a fake tower does it to every phone. Noted only. This detector warns if forged authentication follows." |})
  end.

Definition flash_catch_emm (self : FlashCatchAnalyzer) (emm : EMMMessage) (packet_num : Z)
    : FlashCatchAnalyzer * option Event :=
  match emm with
  | EMMTrackingAreaUpdateRequest | EMMExtServiceRequest | EMMCPServiceRequest =>
      (on_check_in self packet_num, None)
  | EMMAttachRequest _ _ => (reset self, None)
  | EMMIdentityRequest id_type _ =>
      match id_type with IMSI => on_imsi_request self packet_num | _ => (self, None) end
  | EMMAuthenticationFailure cause =>
      match cause with
      | AF_MACFailure | AF_NonEPSAuthenticationUnacceptable => on_forged_challenge self packet_num
      | AF_SynchFailure => on_synch_failure self packet_num
      | _ => (self, None)
      end
  | EMMAuthenticationResponse | EMMSecurityModeCommand _ _ | EMMAttachAccept
  | EMMTrackingAreaUpdateAccept | EMMServiceAccept => (reset self, None)
  | _ => (self, None)
  end.

Definition flash_catch_analyze {D : Decoders} (self : FlashCatchAnalyzer) (ie : InformationElement)
    (packet_num _timestamp : Z) : FlashCatchAnalyzer * option Event :=
  match ie with
  | IE_LTE (IE_NAS (NAS_EMMMessage emm)) => flash_catch_emm self emm packet_num
  | _ => (self, None)
  end.

#[export] Instance FlashCatch_Analyzer {D : Decoders} : Analyzer FlashCatchAnalyzer := {|
  get_name := fun _ => lit "FlashCatch: identity taken, then forged authentication";
  get_description := fun _ => lit "Watches for a tower that fails the phone's authentication check repeatedly, the mark of a fake tower that took the phone's identity and then made the phone reject it, so the phone walks away in under a second with no visible loss of service. High when the permanent identity was requested just before; Medium for the repeated failures alone.";
  analyze_information_element := flash_catch_analyze;
  report_skipped_packet := no_skipped_report;
  get_version := fun _ => 2
|}.

(** ** Runs *)

(** A run of the detector over numbered elements. *)
Definition flash_catch_run {D : Decoders} (l : list (Z * InformationElement)) : FlashCatchAnalyzer :=
  fold_left (fun s '(n, ie) => fst (flash_catch_analyze s ie n 0)) l FlashCatch_new.

(** The kinds of element that matter. *)
Definition is_imsi_request {D : Decoders} (ie : InformationElement) : Prop :=
  exists d, ie = IE_LTE (IE_NAS (NAS_EMMMessage (EMMIdentityRequest IMSI d))).
Definition is_forged {D : Decoders} (ie : InformationElement) : Prop :=
  exists c, ie = IE_LTE (IE_NAS (NAS_EMMMessage (EMMAuthenticationFailure c)))
    /\ (c = AF_MACFailure \/ c = AF_NonEPSAuthenticationUnacceptable).
Definition is_synch {D : Decoders} (ie : InformationElement) : Prop :=
  ie = IE_LTE (IE_NAS (NAS_EMMMessage (EMMAuthenticationFailure AF_SynchFailure))).

(** The network proved itself, or a new exchange began. *)
Definition ends_run {D : Decoders} (ie : InformationElement) : bool :=
  match ie with
  | IE_LTE (IE_NAS (NAS_EMMMessage emm)) =>
      match emm with
      | EMMTrackingAreaUpdateRequest | EMMExtServiceRequest | EMMCPServiceRequest
      | EMMAttachRequest _ _ | EMMAuthenticationResponse | EMMSecurityModeCommand _ _
      | EMMAttachAccept | EMMTrackingAreaUpdateAccept | EMMServiceAccept => true
      | _ => false
      end
  | _ => false
  end.

(** ** Lemmas *)

Section runs.
Context {D : Decoders}.

(** Everything the state remembers happened since the last element that ended a run. *)
Definition remembers (tr : list (Z * InformationElement)) (s : FlashCatchAnalyzer) : Prop :=
  (forall a, imsi_requested_at s = Some a -> exists ie, (a, ie) ∈ tr /\ is_imsi_request ie) /\
  (forall p, p ∈ forged_challenges s -> exists ie, (p, ie) ∈ tr /\ is_forged ie) /\
  (forall p, p ∈ synch_failures s -> exists ie, (p, ie) ∈ tr /\ is_synch ie).

Lemma remembers_mono tr tr' s : (forall x, x ∈ tr -> x ∈ tr') -> remembers tr s -> remembers tr' s.
Proof.
  intros Hsub (H1 & H2 & H3). split; [|split]; intros x Hx;
    [apply H1 in Hx | apply H2 in Hx | apply H3 in Hx]; destruct Hx as (ie & ? & ?); eauto.
Qed.

Lemma remembers_prune tr s n : remembers tr s -> remembers tr (prune s n).
Proof.
  intros (H1 & H2 & H3). split; [done|]. simpl.
  split; intros p Hp; apply list_elem_of_filter in Hp as [_ Hp]; auto.
Qed.

Lemma remembers_forged tr s n ie r :
  (n, ie) ∈ tr -> is_forged ie -> remembers tr s ->
  remembers tr (with_forged s (forged_challenges s ++ [n]) r).
Proof.
  intros Hn Hf (H1 & H2 & H3). split; [done|]. split; [|done]. simpl.
  intros p [Hp|Hp]%elem_of_app; [by apply H2|]. apply list_elem_of_singleton in Hp as ->. eauto.
Qed.

Lemma remembers_synch tr s n ie r :
  (n, ie) ∈ tr -> is_synch ie -> remembers tr s ->
  remembers tr (with_synch s (synch_failures s ++ [n]) r).
Proof.
  intros Hn Hf (H1 & H2 & H3). split; [done|]. split; [done|]. simpl.
  intros p [Hp|Hp]%elem_of_app; [by apply H3|]. apply list_elem_of_singleton in Hp as ->. eauto.
Qed.

(** One step keeps the record of what happened; a step that ends the run empties it. *)
Lemma flash_catch_step_remembers tr s n ie t :
  remembers tr s -> remembers (tr ++ [(n, ie)]) (fst (flash_catch_analyze s ie n t)).
Proof.
  intros Hs. assert (Hs' : remembers (tr ++ [(n, ie)]) s).
  { eapply remembers_mono; [|exact Hs]. intros x Hx. apply elem_of_app. by left. }
  assert (Hin : (n, ie) ∈ tr ++ [(n, ie)]) by (apply elem_of_app; right; by left).
  assert (Hempty : forall c, remembers (tr ++ [(n, ie)]) {| imsi_requested_at := None;
    checked_in_at := c; forged_challenges := []; synch_failures := []; reported := false |}).
  { intros c. split; [done|]. split; intros p Hp; by apply not_elem_of_nil in Hp. }
  destruct ie as [|  |e|]; try done. destruct e; try done. destruct m as [emm|]; [|done].
  destruct emm; try done; simpl; try (by apply Hempty).
  - destruct id_type; [|done]. unfold on_imsi_request. simpl.
    assert (remembers (tr ++ [(n, IE_LTE (IE_NAS (NAS_EMMMessage (EMMIdentityRequest IMSI debug))))])
      {| imsi_requested_at := Some n; checked_in_at := checked_in_at s;
         forged_challenges := forged_challenges s; synch_failures := synch_failures s;
         reported := reported s |}).
    { destruct Hs' as (H1 & H2 & H3). split; [|done]. intros a [= <-].
      eexists. split; [exact Hin|]. by eexists. }
    by destruct (recent _ _).
  - destruct cause; try done; unfold on_forged_challenge, on_synch_failure.
    + match goal with |- context [if ?b then _ else _] => destruct b end; simpl;
        [|destruct (recent _ _); simpl];
        (eapply remembers_forged; [exact Hin | eexists; split; [done|]; by left | by apply remembers_prune]).
    + match goal with |- context [if ?b then _ else _] => destruct b end; simpl;
        [|destruct (recent _ _); simpl];
        (eapply remembers_forged; [exact Hin | eexists; split; [done|]; by right | by apply remembers_prune]).
    + match goal with |- context [if ?b then _ else _] => destruct b end; simpl;
        (eapply remembers_synch; [exact Hin | done | by apply remembers_prune]).
Qed.

Lemma flash_catch_step_ends s n ie t :
  ends_run ie = true -> remembers [] (fst (flash_catch_analyze s ie n t)).
Proof.
  assert (Hempty : forall c, remembers [] {| imsi_requested_at := None;
    checked_in_at := c; forged_challenges := []; synch_failures := []; reported := false |}).
  { intros c. split; [done|]. split; intros p Hp; by apply not_elem_of_nil in Hp. }
  destruct ie as [|  |e|]; try done. destruct e; try done. destruct m as [emm|]; [|done].
  destruct emm; try done; intros _; apply Hempty.
Qed.

Lemma flash_catch_run_remembers l :
  exists pre tr, l = pre ++ tr /\ Forall (fun '(_, ie) => ends_run ie = false) tr /\
    remembers tr (flash_catch_run l).
Proof.
  induction l as [|[n ie] l (pre & tr & -> & Htr & Hr)] using rev_ind.
  { exists [], []. split; [done|]. split; [constructor|]. split; [done|].
    split; intros p Hp; by apply not_elem_of_nil in Hp. }
  unfold flash_catch_run in *. rewrite fold_left_app. cbn [fold_left].
  destruct (ends_run ie) eqn:He.
  - exists ((pre ++ tr) ++ [(n, ie)]), []. split; [by rewrite app_nil_r|]. split; [constructor|].
    by apply flash_catch_step_ends.
  - exists pre, (tr ++ [(n, ie)]). split; [by rewrite app_assoc|]. split.
    + apply Forall_app_2; [done|]. by constructor.
    + by apply flash_catch_step_remembers.
Qed.
End runs.

Section warnings.
Context {D : Decoders}.

(** Elements the detector passes over. *)
Definition is_noise (ie : InformationElement) : bool :=
  match ie with
  | IE_LTE (IE_NAS (NAS_EMMMessage emm)) =>
      match emm with
      | EMMIdentityRequest IMSI _ => false
      | EMMAuthenticationFailure AF_Other => true
      | EMMAuthenticationFailure _ => false
      | _ => negb (ends_run ie)
      end
  | _ => true
  end.

Lemma noise_step s n ie t : is_noise ie = true -> flash_catch_analyze s ie n t = (s, None).
Proof.
  destruct ie as [|  |e|]; try done. destruct e; try done. destruct m as [emm|]; [|done].
  destruct emm; try done; [by destruct id_type | by destruct cause].
Qed.

(** The detector stepping through a list, with what it says. *)
Fixpoint flash_catch_events (s : FlashCatchAnalyzer) (l : list (Z * InformationElement))
    : FlashCatchAnalyzer * list (option Event) :=
  match l with
  | [] => (s, [])
  | (n, ie) :: l' =>
      let '(s, e) := flash_catch_analyze s ie n 0 in
      let '(s, es) := flash_catch_events s l' in (s, e :: es)
  end.

Lemma noise_events s l :
  Forall (fun '(_, ie) => is_noise ie = true) l ->
  flash_catch_events s l = (s, replicate (length l) None).
Proof.
  induction 1 as [|[n ie] l Hn _ IH]; [done|]. cbn [flash_catch_events].
  rewrite noise_step by done. by rewrite IH.
Qed.

Lemma flash_catch_events_app s l l' :
  flash_catch_events s (l ++ l') =
  let '(s1, es1) := flash_catch_events s l in
  let '(s2, es2) := flash_catch_events s1 l' in (s2, es1 ++ es2).
Proof.
  revert s; induction l as [|[n ie] l IH]; intros s; cbn [flash_catch_events app].
  - by destruct (flash_catch_events s l').
  - destruct (flash_catch_analyze s ie n 0) as [s1 e]. rewrite IH.
    destruct (flash_catch_events s1 l) as [s2 es]. by destruct (flash_catch_events s2 l').
Qed.

Lemma in_window_spec n a : in_window n a = true <-> n - a <= WINDOW.
Proof. unfold in_window, sat_subu, WINDOW. rewrite Z.leb_le. lia. Qed.

(** A warning: an event above informational. *)
Definition warns (o : option Event) : bool :=
  match o with Some e => negb (bool_decide (event_type e = Informational)) | None => false end.

(** What a forged challenge does, once its list has been pruned. *)
Lemma on_forged_warns s n s' e :
  on_forged_challenge s n = (s', Some e) ->
  exists p, p ∈ forged_challenges s /\ n - p <= WINDOW /\
    (event_type e = High -> exists a, imsi_requested_at s = Some a /\ n - a <= WINDOW).
Proof.
  unfold on_forged_challenge. intros H.
  destruct (_ || _) eqn:Hb; [done|]. zbool. simpl in *.
  match goal with H : (_ <? _)%nat = false |- _ => apply Nat.ltb_ge in H as Hlen end.
  rewrite length_app in Hlen. unfold FORGED_CHALLENGES_TO_WARN in Hlen. simpl in Hlen.
  destruct (filter _ (forged_challenges s)) as [|p l] eqn:Hf; [simpl in Hlen; lia|].
  assert (Hp : p ∈ filter (fun a => in_window n a = true) (forged_challenges s))
    by (rewrite Hf; by left).
  apply list_elem_of_filter in Hp as [Hw Hp]. apply in_window_spec in Hw.
  exists p. split; [done|]. split; [done|]. intros He. unfold recent in H.
  destruct (imsi_requested_at s) as [a|]; [|by simplify_eq].
  destruct (in_window n a) eqn:Ha; [|by simplify_eq]. exists a. by rewrite in_window_spec in Ha.
Qed.

(** The states the attack goes through, from a fresh exchange. *)
Definition fresh (imsi ci : option Z) (forged : list Z) : FlashCatchAnalyzer := {|
  imsi_requested_at := imsi; checked_in_at := ci; forged_challenges := forged;
  synch_failures := []; reported := false |}.

Lemma fresh_imsi ci a : exists e,
  on_imsi_request (fresh None ci []) a = (fresh (Some a) ci [], e) /\ warns e = false.
Proof. unfold on_imsi_request. cbn. destruct (recent a ci); by eexists. Qed.

Lemma fresh_forged_1 a ci p : on_forged_challenge (fresh (Some a) ci []) p = (fresh (Some a) ci [p], None).
Proof. done. Qed.

Lemma fresh_forged_2 a ci p1 p2 :
  a <= p1 <= p2 -> p2 - a <= WINDOW -> exists s e,
  on_forged_challenge (fresh (Some a) ci [p1]) p2 = (s, Some e) /\ event_type e = High.
Proof.
  intros Hle Hw. unfold on_forged_challenge, prune. cbn [fresh forged_challenges synch_failures].
  assert (H1 : in_window p2 p1 = true) by (apply in_window_spec; lia).
  assert (H2 : in_window p2 a = true) by (apply in_window_spec; lia).
  rewrite filter_cons_True by done. cbn. rewrite H2. by eexists _, _.
Qed.

Lemma flash_catch_events_one s n ie :
  flash_catch_events s [(n, ie)] = (fst (flash_catch_analyze s ie n 0), [snd (flash_catch_analyze s ie n 0)]).
Proof. cbn [flash_catch_events]. by destruct (flash_catch_analyze s ie n 0). Qed.

(** A run that has warned keeps the failure it warned on while it is in the window. *)
Definition warned_at (n : Z) (s : FlashCatchAnalyzer) : Prop :=
  reported s = true /\ (n ∈ forged_challenges s \/ n ∈ synch_failures s).

Lemma warned_at_prune n m s : m - n <= WINDOW -> warned_at n s -> warned_at n (prune s m).
Proof.
  intros Hw [Hr Hn]. apply in_window_spec in Hw.
  assert (Hin : n ∈ forged_challenges (prune s m) \/ n ∈ synch_failures (prune s m)).
  { simpl. destruct Hn; [left | right]; by apply list_elem_of_filter. }
  split; [|done]. simpl in *. destruct (filter _ _), (filter _ _); try done.
  destruct Hin as [H|H]; by apply not_elem_of_nil in H.
Qed.

Lemma warned_at_step n s m ie t :
  m - n <= WINDOW -> ends_run ie = false -> warned_at n s ->
  warned_at n (fst (flash_catch_analyze s ie m t)) /\ warns (snd (flash_catch_analyze s ie m t)) = false.
Proof.
  intros Hw He Hs. pose proof (warned_at_prune n m s Hw Hs) as [Hp Hin].
  destruct ie as [|  |e|]; try done. destruct e; try done. destruct m0 as [emm|]; [|done].
  destruct emm; try done; simpl.
  - destruct id_type; [|done]. unfold on_imsi_request. by destruct (recent _ _).
  - destruct cause; try done; unfold on_forged_challenge, on_synch_failure;
      cbn [reported with_forged with_synch]; rewrite Hp; cbn [orb]; split; try done; split; try done;
      cbn [forged_challenges synch_failures with_forged with_synch fst]; rewrite elem_of_app; tauto.
Qed.

(** A step that warns leaves the failure it warned on in the state. *)
Lemma warns_warned_at s n ie t :
  warns (snd (flash_catch_analyze s ie n t)) = true -> warned_at n (fst (flash_catch_analyze s ie n t)).
Proof.
  destruct ie as [|  |e|]; try done. destruct e; try done. destruct m as [emm|]; [|done].
  destruct emm; try done; simpl.
  - destruct id_type; [|done]. unfold on_imsi_request. by destruct (recent _ _).
  - assert (Hl : forall l : list Z, n ∈ l ++ [n]) by (intros; apply elem_of_app; right; by left).
    destruct cause; try done; unfold on_forged_challenge, on_synch_failure;
      (match goal with |- context [if ?b then _ else _] => destruct b end; [done|]);
      try destruct (recent _ _); intros _; split; simpl; auto.
Qed.
End warnings.

(** ** Properties *)

(** C27: a High warning is never raised without its evidence.  After any sequence of elements,
    if the next one makes the detector warn at High severity, then it is itself a forged
    challenge, and since the network last proved itself or a new exchange began there were
    both a request for the permanent identity and another forged challenge, each at most 200
    packets before it. *)
Theorem flash_catch_high_sound {D : Decoders} (l : list (Z * InformationElement)) n ie t e :
  snd (flash_catch_analyze (flash_catch_run l) ie n t) = Some e -> event_type e = High ->
  is_forged ie /\
  exists pre tr, l = pre ++ tr /\ Forall (fun '(_, x) => ends_run x = false) tr /\
    (exists a x, (a, x) ∈ tr /\ is_imsi_request x /\ n - a <= WINDOW) /\
    (exists p x, (p, x) ∈ tr /\ is_forged x /\ n - p <= WINDOW).
Proof.
  intros Hev Hhigh. destruct (flash_catch_run_remembers l) as (pre & tr & -> & Htr & H1 & H2 & _).
  set (s := flash_catch_run (pre ++ tr)) in *.
  assert (Hforged : is_forged ie /\ exists s', on_forged_challenge s n = (s', Some e)).
  { destruct ie as [|  |x|]; try done. destruct x; try done. destruct m as [emm|]; [|done].
    destruct emm; try done; simpl in Hev.
    - destruct id_type; [|done]. unfold on_imsi_request in Hev.
      destruct (recent _ _); simpl in Hev; by simplify_eq.
    - destruct cause; try done.
      + split; [eexists; split; [done|]; by left|]. eexists. rewrite <- Hev. apply surjective_pairing.
      + split; [eexists; split; [done|]; by right|]. eexists. rewrite <- Hev. apply surjective_pairing.
      + unfold on_synch_failure in Hev.
        match type of Hev with context [if ?b then _ else _] => destruct b end; simpl in Hev; by simplify_eq. }
  destruct Hforged as [Hf [s' Hs']]. split; [done|].
  destruct (on_forged_warns s n s' e Hs') as (p & Hp & Hw & Himsi).
  destruct (Himsi Hhigh) as (a & Ha & Hwa).
  exists pre, tr. split; [done|]. split; [done|]. split.
  - destruct (H1 a Ha) as (x & ? & ?). by exists a, x.
  - destruct (H2 p Hp) as (x & ? & ?). by exists p, x.
Qed.


(** A burst raises one warning.  Once the detector has warned at some packet, no element
    of the following 200 packets raises another warning, whatever failures they hold, unless
    the network proves itself or a new exchange begins in between. *)
Theorem flash_catch_one_warning {D : Decoders} s n ie t l :
  warns (snd (flash_catch_analyze s ie n t)) = true ->
  Forall (fun '(m, x) => m - n <= WINDOW /\ ends_run x = false) l ->
  Forall (fun o => warns o = false)
    (snd (flash_catch_events (fst (flash_catch_analyze s ie n t)) l)).
Proof.
  intros Hw. apply warns_warned_at in Hw. revert Hw.
  generalize (fst (flash_catch_analyze s ie n t)). intros s0 Hw Hl.
  revert s0 Hw. induction Hl as [|[m x] l [Hm Hx] _ IH]; intros s0 Hw; [constructor|].
  cbn [flash_catch_events]. destruct (warned_at_step n s0 m x 0 Hm Hx Hw) as [Hw' He].
  destruct (flash_catch_analyze s0 x m 0) as [s1 e]. cbn [fst snd] in *.
  specialize (IH s1 Hw'). destruct (flash_catch_events s1 l) as [s2 es]. by constructor.
Qed.

(** ** Witnesses *)

Section witnesses.
Let D := nas_decoders (fun _ => Ok NAS_Other).
Definition tau_update : @InformationElement D := IE_LTE (IE_NAS (NAS_EMMMessage EMMTrackingAreaUpdateRequest)).
Definition imsi_asked : @InformationElement D := IE_LTE (IE_NAS (NAS_EMMMessage (EMMIdentityRequest IMSI []))).
Definition mac_failure : @InformationElement D := IE_LTE (IE_NAS (NAS_EMMMessage (EMMAuthenticationFailure AF_MACFailure))).

Lemma is_imsi_asked : is_imsi_request imsi_asked.
Proof. by eexists. Qed.
Lemma is_mac_failure : is_forged mac_failure.
Proof. eexists. split; [done|]. by left. Qed.
End witnesses.

Lemma flash_catch_high_sound_witness :
  let l := [(1, tau_update); (2, imsi_asked); (3, mac_failure)] in
  option_map event_type (snd (flash_catch_analyze (flash_catch_run l) mac_failure 4 0)) = Some High /\
  is_forged mac_failure.
Proof.
  intros l. split; [vm_compute; reflexivity|].
  destruct (flash_catch_high_sound l 4 mac_failure 0 _ eq_refl eq_refl) as [H _]. exact H.
Defined.


Lemma flash_catch_one_warning_witness :
  let s := flash_catch_run [(1, tau_update); (2, imsi_asked); (3, mac_failure)] in
  map (option_map event_type) (snd (flash_catch_events s [(4, mac_failure); (5, mac_failure)]))
  = [Some High; None] /\
  Forall (fun o => warns o = false)
    (snd (flash_catch_events (fst (flash_catch_analyze s mac_failure 4 0)) [(5, mac_failure)])).
Proof.
  intros s. split; [vm_compute; reflexivity|].
  apply (flash_catch_one_warning s 4 mac_failure 0 [(5, mac_failure)]).
  - vm_compute. reflexivity.
  - constructor; [|constructor]. split; [by vm_compute | reflexivity].
Defined.
