(* ===== verification/Plmn.v ===== *)
(** * Packed-BCD PLMN identities ([lib/src/plmn.rs]) *)

From S2P Require Import Prelude RustStr.

Local Open Scope Z_scope.

Definition PACKED_BCD_LEN : nat := 3.

(** [(b'0' + d) as char]. *)
Definition digit_char (d : Z) : rchar := 48 + d.

Definition decode_packed_bcd (bytes : list Z) : option rstr :=
  match bytes with
  | [b0; b1; b2] =>
      if (b0 =? 0xff) && (b1 =? 0xff) && (b2 =? 0xff) then None
      else
        let mcc_digits := [Z.land b0 0x0f; Z.land (Z.shiftr b0 4) 0x0f; Z.land b1 0x0f] in
        let mnc_digit_3 := Z.land (Z.shiftr b1 4) 0x0f in
        let mnc_digits_1_2 := [Z.land b2 0x0f; Z.land (Z.shiftr b2 4) 0x0f] in
        if existsb (fun d => 9 <? d) mcc_digits || existsb (fun d => 9 <? d) mnc_digits_1_2 then None
        else
          let out := map digit_char mcc_digits ++ [45] ++ map digit_char mnc_digits_1_2 in
          if mnc_digit_3 =? 0xf then Some out
          else if mnc_digit_3 <=? 9 then Some (out ++ [digit_char mnc_digit_3])
          else None
  | _ => None
  end.

(** ** Lemmas *)

(** The two nibbles of a byte. *)
Lemma land_0f b : Z.land b 0x0f = b mod 16.
Proof. change 0x0f with (Z.ones 4). by rewrite Z.land_ones. Qed.

Lemma high_nibble b : is_u8 b -> Z.land (Z.shiftr b 4) 0x0f = b / 16.
Proof.
  intros Hb. rewrite land_0f, Z.shiftr_div_pow2 by lia. unfold in_u in Hb. dlia.
Qed.

(** Packing of digits, the inverse the SIM and the network use; [15] fills a two-digit MNC. *)
Definition pack_plmn (m1 m2 m3 n1 n2 n3 : Z) : list Z := [m1 + 16 * m2; m3 + 16 * n3; n1 + 16 * n2].

Definition is_digit (d : Z) : Prop := 0 <= d <= 9.

Lemma decode_pack m1 m2 m3 n1 n2 n3 :
  is_digit m1 -> is_digit m2 -> is_digit m3 -> is_digit n1 -> is_digit n2 ->
  is_digit n3 \/ n3 = 15 ->
  decode_packed_bcd (pack_plmn m1 m2 m3 n1 n2 n3) =
  Some (map digit_char [m1; m2; m3] ++ [45] ++ map digit_char [n1; n2]
        ++ (if n3 =? 15 then [] else [digit_char n3])).
Proof.
  unfold is_digit. intros H1 H2 H3 H4 H5 H6. unfold decode_packed_bcd, pack_plmn.
  rewrite !high_nibble by (unfold in_u; lia). rewrite !land_0f.
  replace ((m1 + 16 * m2) mod 16) with m1 by dlia. replace ((m1 + 16 * m2) / 16) with m2 by dlia.
  replace ((m3 + 16 * n3) mod 16) with m3 by dlia. replace ((m3 + 16 * n3) / 16) with n3 by dlia.
  replace ((n1 + 16 * n2) mod 16) with n1 by dlia. replace ((n1 + 16 * n2) / 16) with n2 by dlia.
  rewrite (proj2 (Z.eqb_neq (m1 + 16 * m2) 0xff)) by lia. cbn [andb existsb].
  rewrite !(proj2 (Z.ltb_ge _ _)) by lia. cbn [orb].
  destruct (Z.eqb_spec n3 15) as [->|Hn]; [done|].
  rewrite (proj2 (Z.leb_le n3 9)) by lia. by rewrite <- !app_assoc.
Qed.

Lemma decode_Some_pack b s :
  bytes_ok b -> decode_packed_bcd b = Some s ->
  exists m1 m2 m3 n1 n2 n3,
    is_digit m1 /\ is_digit m2 /\ is_digit m3 /\ is_digit n1 /\ is_digit n2 /\
    (is_digit n3 \/ n3 = 15) /\ b = pack_plmn m1 m2 m3 n1 n2 n3.
Proof.
  intros Hb H. destruct b as [|b0 [|b1 [|b2 [|]]]]; try done. unfold bytes_ok in Hb. forall_inv.
  unfold decode_packed_bcd in H. rewrite !high_nibble, !land_0f in H by done.
  destruct (_ && _); [done|]. cbn [existsb] in H.
  match type of H with (if ?c then _ else _) = _ => destruct c eqn:Hc; [done|] end.
  zbool. unfold in_u in *.
  exists (b0 mod 16), (b0 / 16), (b1 mod 16), (b2 mod 16), (b2 / 16), (b1 / 16).
  assert (Hn3 : is_digit (b1 / 16) \/ b1 / 16 = 15).
  { destruct (Z.eqb_spec (b1 / 16) 0xf) as [->|]; [by right|].
    destruct (Z.leb_spec (b1 / 16) 9); [left; unfold is_digit; dlia | done]. }
  unfold is_digit in *. unfold pack_plmn.
  repeat match goal with |- _ /\ _ => split end; try done; try dlia. cons_eq dlia.
Qed.

(** ** Properties *)

(** The packed-BCD decoder.  It succeeds exactly on the packing of three MCC digits and two
    or three MNC digits, with the filler nibble for a missing third; its text is then those
    digits around a dash; and so two byte strings with the same text are the same. *)
Theorem decode_packed_bcd_spec (b : list Z) (s : rstr) :
  bytes_ok b ->
  (decode_packed_bcd b = Some s <->
   exists m1 m2 m3 n1 n2 n3,
     is_digit m1 /\ is_digit m2 /\ is_digit m3 /\ is_digit n1 /\ is_digit n2 /\
     (is_digit n3 \/ n3 = 15) /\ b = pack_plmn m1 m2 m3 n1 n2 n3 /\
     s = map digit_char [m1; m2; m3] ++ [45] ++ map digit_char [n1; n2]
         ++ (if n3 =? 15 then [] else [digit_char n3])) /\
  forall b', bytes_ok b' -> decode_packed_bcd b = Some s -> decode_packed_bcd b' = Some s -> b' = b.
Proof.
  intros Hb. split; [split|].
  - intros H. destruct (decode_Some_pack b s Hb H) as
      (m1 & m2 & m3 & n1 & n2 & n3 & H1 & H2 & H3 & H4 & H5 & H6 & ->).
    rewrite decode_pack in H by done. injection H as <-.
    exists m1, m2, m3, n1, n2, n3. repeat (split; [done|]). done.
  - intros (m1 & m2 & m3 & n1 & n2 & n3 & H1 & H2 & H3 & H4 & H5 & H6 & -> & ->).
    by apply decode_pack.
  - intros b' Hb' H H'.
    destruct (decode_Some_pack b s Hb H) as
      (m1 & m2 & m3 & n1 & n2 & n3 & H1 & H2 & H3 & H4 & H5 & H6 & ->).
    destruct (decode_Some_pack b' s Hb' H') as
      (k1 & k2 & k3 & l1 & l2 & l3 & J1 & J2 & J3 & J4 & J5 & J6 & ->).
    rewrite decode_pack in H, H' by done. rewrite <- H in H'. unfold digit_char in H'.
    destruct (Z.eqb_spec n3 15), (Z.eqb_spec l3 15); simpl in H'; try discriminate H'; injection H'; intros;
      unfold pack_plmn; cons_eq ltac:(unfold is_digit in *; lia).
Qed.

Lemma decode_packed_bcd_spec_witness :
  decode_packed_bcd [0x13; 0x00; 0x14] = Some (lit "310-410") /\
  [0x13; 0x00; 0x14] = pack_plmn 3 1 0 4 1 0.
Proof.
  assert (Hb : bytes_ok [0x13; 0x00; 0x14]) by (apply bytes_okb; reflexivity).
  destruct (decode_packed_bcd_spec [0x13; 0x00; 0x14] (lit "310-410") Hb) as [[_ H] _].
  split; [|reflexivity]. apply H. exists 3, 1, 0, 4, 1, 0. unfold is_digit.
  repeat (split; [first [lia | by vm_compute | reflexivity]|]). vm_compute. reflexivity.
Defined.
