(* ===== verification/ImsiRequested.v ===== *)
(** * Identity requests ([lib/src/analysis/imsi_requested.rs])

    The state machine that decides whether a request for the phone's identity was
    suspicious, with its time-out and the home-network test. *)

From S2P Require Import Prelude RustStr Gsmtap GsmtapMac LteRrc InformationElement Analyzer Plmn.

Local Open Scope Z_scope.

Definition TIMEOUT_THRESHHOLD : Z := 50.

Inductive State :=
| Unattached
| AttachRequest
| IdentityRequest
| AuthAccept
| Disconnect
| LikelyValidAttachReject.

#[export] Instance State_eq_dec : EqDecision State.
Proof. solve_decision. Defined.

(** [home_plmn] is a [BTreeSet]: its elements in order. *)
Record ImsiRequestedAnalyzer := {
  state : State;
  timeout_counter : Z;
  flag : option Event;
  likely_enb_plmns : list rstr;
  likely_ue_plmn : option rstr;
  home_plmn : list rstr
}.

Definition ImsiRequested_new (home_plmn : list rstr) : ImsiRequestedAnalyzer := {|
  state := Unattached; timeout_counter := 0; flag := None; likely_enb_plmns := [];
  likely_ue_plmn := None; home_plmn := home_plmn |}.

Definition enb_is_home_network (self : ImsiRequestedAnalyzer) : bool :=
  match likely_ue_plmn self with
  | Some p => bool_decide (p ∈ likely_enb_plmns self)
  | None => false
  end || existsb (fun p => bool_decide (p ∈ likely_enb_plmns self)) (home_plmn self).

Definition with_flag (self : ImsiRequestedAnalyzer) (e : option Event) : ImsiRequestedAnalyzer := {|
  state := state self; timeout_counter := timeout_counter self; flag := e;
  likely_enb_plmns := likely_enb_plmns self; likely_ue_plmn := likely_ue_plmn self;
  home_plmn := home_plmn self |}.
Definition with_counter (self : ImsiRequestedAnalyzer) (c : Z) : ImsiRequestedAnalyzer := {|
  state := state self; timeout_counter := c; flag := flag self;
  likely_enb_plmns := likely_enb_plmns self; likely_ue_plmn := likely_ue_plmn self;
  home_plmn := home_plmn self |}.
Definition with_state (self : ImsiRequestedAnalyzer) (s : State) : ImsiRequestedAnalyzer := {|
  state := s; timeout_counter := timeout_counter self; flag := flag self;
  likely_enb_plmns := likely_enb_plmns self; likely_ue_plmn := likely_ue_plmn self;
  home_plmn := home_plmn self |}.
Definition with_plmns (self : ImsiRequestedAnalyzer) (enb : list rstr) (ue : option rstr)
    : ImsiRequestedAnalyzer := {|
  state := state self; timeout_counter := timeout_counter self; flag := flag self;
  likely_enb_plmns := enb; likely_ue_plmn := ue; home_plmn := home_plmn self |}.

Definition list_or_unknown (l : list rstr) : rstr :=
  match l with [] => lit "Unknown" | _ => join (lit ", ") l end.

Definition event (t : EventType) (m : rstr) : option Event := Some {| event_type := t; message := m |}.

Definition transition (self : ImsiRequestedAnalyzer) (next_state : State) : ImsiRequestedAnalyzer :=
  let self :=
    match state self, next_state with
    | _, AuthAccept => with_counter self 0
    | AuthAccept, IdentityRequest =>
        with_flag self (event High (lit "Identity requested after auth request"))
    | Disconnect, IdentityRequest =>
        with_flag self (event High (lit "Identity requested without Attach Request"))
    | IdentityRequest, LikelyValidAttachReject =>
        with_flag self (event Low (lit "Identity requested without authentication but its likely a false positive unless your SIM card has an active plan"))
    | IdentityRequest, Disconnect =>
        if enb_is_home_network self then
          with_flag self (event High (lit "Disconnected after Identity Request without Auth Accept on home network!"))
        else
          let enb_plmn_string := list_or_unknown (likely_enb_plmns self) in
          let ue_plmn_string := default (lit "Unknown") (likely_ue_plmn self) in
          let home_plmn_string := list_or_unknown (home_plmn self) in
          with_flag self (event Low
            (lit "Disconnected after Identity Request without Auth Accept, but this could be a false positive roaming issue - Tower PLMN: "
             ++ enb_plmn_string ++ lit ", UE PLMN: " ++ ue_plmn_string
             ++ lit ", SIM home PLMN: " ++ home_plmn_string))
    | _, IdentityRequest => with_counter self 0
    | _, _ => self
    end in
  with_state self
    (match next_state with LikelyValidAttachReject => Disconnect | s => s end).

Definition plmn_identity_to_str (p : PLMN_Identity) : rstr :=
  let mcc_digits := match mcc p with Some m => flat_map dec m | None => [] end in
  let mnc_digits := flat_map dec (mnc p) in
  mcc_digits ++ lit "-" ++ mnc_digits.

Definition format_plmn_list (plmn_list : PLMN_IdentityList) : list rstr :=
  map (fun info => plmn_identity_to_str (plmn_identity info)) plmn_list.

Definition tai_to_plmn_str (maybe_tai : option TAI) : option rstr :=
  match maybe_tai with
  | None => None
  | Some tai =>
      if negb (length (plmn tai) =? PACKED_BCD_LEN)%nat then None
      else decode_packed_bcd (plmn tai)
  end.

(** The NAS arm of the big match. *)
Definition imsi_nas (self : ImsiRequestedAnalyzer) (payload : NASMessage) : ImsiRequestedAnalyzer :=
  match payload with
  | NAS_EMMMessage m =>
      match m with
      | EMMAttachRequest old_tai _ =>
          let self := match tai_to_plmn_str old_tai with
            | Some p => with_plmns self (likely_enb_plmns self) (Some p)
            | None => self end in
          transition self AttachRequest
      | EMMExtServiceRequest => transition self AttachRequest
      | EMMIdentityRequest _ _ => transition self IdentityRequest
      | EMMAttachComplete | EMMAuthenticationResponse => transition self AuthAccept
      | EMMServiceReject _ _ | EMMDetachRequestMO | EMMDetachRequestMT _ _ _
      | EMMTrackingAreaUpdateReject _ _ => transition self Disconnect
      | EMMAttachReject cause _ =>
          if bool_decide (cause = AR_EPSServicesAndNonEPSServicesNotAllowed)
          then transition self LikelyValidAttachReject
          else transition self Disconnect
      | _ => self
      end
  | NAS_Other => self
  end.

Definition imsi_requested_analyze {D : Decoders} (self : ImsiRequestedAnalyzer) (ie : InformationElement)
    (packet_num _timestamp : Z) : ImsiRequestedAnalyzer * option Event :=
  match ie with
  | IE_LTE (IE_BcchDlSch {| bcch_message := BCCH_C1 (BCCH_SystemInformationBlockType1 sib1) |}) =>
      (with_plmns self (format_plmn_list (plmn_identity_list (cell_access_related_info sib1)))
         (likely_ue_plmn self), None)
  | _ =>
      let self :=
        match ie with
        | IE_LTE (IE_NAS payload) => imsi_nas self payload
        | IE_LTE (IE_UlCcch {| ul_ccch_message := UL_CCCH_C1 RrcConnectionRequest |})
        | IE_LTE (IE_UlCcch {| ul_ccch_message := UL_CCCH_C1 RrcConnectionReestablishmentRequest |}) =>
            transition self AttachRequest
        | _ => self
        end in
      let self :=
        if bool_decide (state self = IdentityRequest) then
          let self := with_counter self (timeout_counter self + 1) in
          if TIMEOUT_THRESHHOLD <=? timeout_counter self then
            with_counter (with_flag self
              (event Informational (lit "Identity request happened without auth request followup"))) 0
          else self
        else self in
      (with_flag self None, flag self)
  end.

#[export] Instance ImsiRequested_Analyzer {D : Decoders} : Analyzer ImsiRequestedAnalyzer := {|
  get_name := fun _ => lit "Identity (IMSI or IMEI) requested in suspicious manner";
  get_description := fun _ => lit "Tests whether the ME sends an Identity Request NAS message without either an associated attach request or auth accept message";
  analyze_information_element := imsi_requested_analyze;
  report_skipped_packet := no_skipped_report;
  get_version := fun _ => 5
|}.

(** ** What an element asks of the state machine *)

Definition next_state_of {D : Decoders} (ie : InformationElement) : option State :=
  match ie with
  | IE_LTE (IE_NAS (NAS_EMMMessage m)) =>
      match m with
      | EMMAttachRequest _ _ | EMMExtServiceRequest => Some AttachRequest
      | EMMIdentityRequest _ _ => Some IdentityRequest
      | EMMAttachComplete | EMMAuthenticationResponse => Some AuthAccept
      | EMMServiceReject _ _ | EMMDetachRequestMO | EMMDetachRequestMT _ _ _
      | EMMTrackingAreaUpdateReject _ _ => Some Disconnect
      | EMMAttachReject cause _ =>
          if bool_decide (cause = AR_EPSServicesAndNonEPSServicesNotAllowed)
          then Some LikelyValidAttachReject else Some Disconnect
      | _ => None
      end
  | IE_LTE (IE_UlCcch {| ul_ccch_message := UL_CCCH_C1 _ |}) => Some AttachRequest
  | _ => None
  end.

Definition is_sib1 {D : Decoders} (ie : InformationElement) : bool :=
  match ie with
  | IE_LTE (IE_BcchDlSch {| bcch_message := BCCH_C1 (BCCH_SystemInformationBlockType1 _) |}) => true
  | _ => false
  end.

(** The severity of what the detector says, as a table over the state, the counter and
    whether the tower is the home network. *)
Definition severity (s : State) (counter : Z) (home : bool) (next : option State) : option EventType :=
  match s, next with
  | AuthAccept, Some IdentityRequest => Some High
  | Disconnect, Some IdentityRequest => if counter =? 49 then Some Informational else Some High
  | IdentityRequest, Some LikelyValidAttachReject => Some Low
  | IdentityRequest, Some Disconnect => if home then Some High else Some Low
  | IdentityRequest, None => if counter =? 49 then Some Informational else None
  | _, _ => None
  end.

(** ** Lemmas *)

(** Between elements: no pending event, never the transient state, a counter below the
    threshold, and zero right after authentication. *)
Definition imsi_inv (s : ImsiRequestedAnalyzer) : Prop :=
  flag s = None /\ state s <> LikelyValidAttachReject /\ 0 <= timeout_counter s < TIMEOUT_THRESHHOLD /\
  (state s = AuthAccept -> timeout_counter s = 0).

(** The time-out at the end of the handler. *)
Definition imsi_tick (self : ImsiRequestedAnalyzer) : ImsiRequestedAnalyzer :=
  if bool_decide (state self = IdentityRequest) then
    let self := with_counter self (timeout_counter self + 1) in
    if TIMEOUT_THRESHHOLD <=? timeout_counter self then
      with_counter (with_flag self
        (event Informational (lit "Identity request happened without auth request followup"))) 0
    else self
  else self.

Lemma imsi_step_tick s next :
  imsi_inv s ->
  let s1 := match next with Some x => transition s x | None => s end in
  imsi_inv (with_flag (imsi_tick s1) None) /\
  option_map event_type (flag (imsi_tick s1))
  = severity (state s) (timeout_counter s) (enb_is_home_network s) next.
Proof.
  intros (Hf & Hst & Hc & Ha). destruct s as [st c f enb ue home].
  simpl in Hf, Hst, Hc, Ha. subst f. unfold TIMEOUT_THRESHHOLD in Hc.
  assert (Hinv : forall st' c', st' <> LikelyValidAttachReject -> 0 <= c' < 50 ->
    (st' = AuthAccept -> c' = 0) ->
    imsi_inv {| state := st'; timeout_counter := c'; flag := None; likely_enb_plmns := enb;
      likely_ue_plmn := ue; home_plmn := home |})
    by (intros; unfold imsi_inv, TIMEOUT_THRESHHOLD; simpl; auto).
  destruct next as [x|]; cbn zeta.
  - destruct st, x; try done; unfold transition; cbn [state];
      try (match goal with |- context [enb_is_home_network ?s] => destruct (enb_is_home_network s) end);
      unfold imsi_tick, with_state, with_flag, with_counter, TIMEOUT_THRESHHOLD; simpl;
      try rewrite Ha by done; simpl;
      first [ split; [apply Hinv; first [done | lia] | done]
            | destruct (Z.leb_spec 50 (c + 1)); simpl; (split; [apply Hinv; first [done | lia]|]);
              [by rewrite (proj2 (Z.eqb_eq c 49)) by lia | by rewrite (proj2 (Z.eqb_neq c 49)) by lia] ].
  - unfold imsi_tick. simpl. case_bool_decide as Hid.
    + subst st. unfold with_flag, with_counter, TIMEOUT_THRESHHOLD. simpl.
      destruct (Z.leb_spec 50 (c + 1)); simpl.
      * split; [apply Hinv; done || lia|]. by rewrite (proj2 (Z.eqb_eq c 49)) by lia.
      * split; [apply Hinv; done || lia|]. by rewrite (proj2 (Z.eqb_neq c 49)) by lia.
    + split; [apply Hinv; done || lia|]. by destruct st.
Qed.

(** The handler as a step of the state machine and a tick of the time-out. *)
Lemma imsi_analyze_step {D : Decoders} s ie n t :
  is_sib1 ie = false ->
  exists s0, timeout_counter s0 = timeout_counter s /\ state s0 = state s /\ flag s0 = flag s /\
    (next_state_of ie <> Some AttachRequest -> s0 = s) /\
    let s1 := match next_state_of ie with Some x => transition s0 x | None => s0 end in
    imsi_requested_analyze s ie n t = (with_flag (imsi_tick s1) None, flag (imsi_tick s1)).
Proof.
  intros Hs. destruct ie as [e| |e|]; try (exists s; done).
  destruct e as [m|m|m|m|m|m|m|m|m|m|m|m|m|m|m|m]; try (exists s; done).
  - destruct m as [[[]|]]; exists s; done.
  - destruct m as [[[]|]]; [exists s; done | done | exists s; done].
  - destruct m as [emm|]; [|exists s; done].
    destruct emm; try (exists s; done).
    + unfold imsi_requested_analyze, imsi_nas.
      destruct (tai_to_plmn_str old_tai) as [p|];
        [exists (with_plmns s (likely_enb_plmns s) (Some p)) | exists s];
        do 3 (split; [done|]); (split; [intros H; by destruct H | done]).
    + exists s. unfold imsi_requested_analyze, imsi_nas, next_state_of.
      by destruct (bool_decide _).
Qed.

Lemma severity_attach st c h h' : severity st c h (Some AttachRequest) = severity st c h' (Some AttachRequest).
Proof. by destruct st. Qed.

Lemma imsi_analyze_spec {D : Decoders} s ie n t :
  imsi_inv s ->
  imsi_inv (fst (imsi_requested_analyze s ie n t)) /\
  option_map event_type (snd (imsi_requested_analyze s ie n t)) =
    if is_sib1 ie then None
    else severity (state s) (timeout_counter s) (enb_is_home_network s) (next_state_of ie).
Proof.
  intros Hi. destruct (is_sib1 ie) eqn:Hs.
  - destruct ie as [| |e|]; try done. destruct e as [m|m|m|m|m|m|m|m|m|m|m|m|m|m|m|m]; try done.
    destruct m as [[[]|]]; try done.
  - destruct (imsi_analyze_step s ie n t Hs) as (s0 & Hc & Hst & Hf & Heq & ->). cbn [fst snd].
    assert (Hi0 : imsi_inv s0).
    { destruct Hi as (? & ? & ? & ?). unfold imsi_inv. rewrite Hc, Hst, Hf. done. }
    destruct (imsi_step_tick s0 (next_state_of ie) Hi0) as [H1 H2]. split; [exact H1|].
    rewrite H2, Hc, Hst. destruct (decide (next_state_of ie = Some AttachRequest)) as [->|Hne].
    + apply severity_attach.
    + by rewrite Heq.
Qed.

(** The detector run over a recording. *)
Definition imsi_run {D : Decoders} (home : list rstr) (l : list InformationElement) : ImsiRequestedAnalyzer :=
  fold_left (fun s ie => fst (imsi_requested_analyze s ie 0 0)) l (ImsiRequested_new home).

Lemma imsi_run_inv {D : Decoders} home l : imsi_inv (imsi_run home l).
Proof.
  induction l as [|ie l IH] using rev_ind; [by repeat split|].
  unfold imsi_run in *. rewrite fold_left_app. cbn [fold_left]. by apply imsi_analyze_spec.
Qed.

(** ** Properties *)

(** What the identity detector says, completely.  After any recording, for any next element,
    the severity of its event, or its silence, is given by the table [severity] over the state,
    the time-out counter, whether the tower is a home network and the transition the element
    asks for: High for an identity request after authentication or after a disconnect, and for a
    disconnect after an identity request on the home network; Low for the same disconnect
    elsewhere and for the reject of an inactive SIM; Informational when the fiftieth element
    passes without authentication; and nothing for a SIB1.  The counter stays below fifty. *)
Theorem imsi_requested_severity {D : Decoders} home (l : list InformationElement) ie n t :
  let s := imsi_run home l in
  option_map event_type (snd (imsi_requested_analyze s ie n t)) =
    (if is_sib1 ie then None
     else severity (state s) (timeout_counter s) (enb_is_home_network s) (next_state_of ie)) /\
  0 <= timeout_counter s < TIMEOUT_THRESHHOLD /\ flag s = None.
Proof.
  intros s. pose proof (imsi_run_inv home l) as Hi. fold s in Hi.
  split; [by apply imsi_analyze_spec|]. destruct Hi as (Hf & _ & Hc & _). by split.
Qed.

(** The time-out hides a High warning.  There is a recording (an identity request, forty-eight
    unrelated elements and an attach reject) after which the device is disconnected, and a new
    identity request, which the state machine flags High, is reported as the Informational
    time-out instead: the counter of the earlier request is not reset by the disconnect, and the
    time-out overwrites the pending flag in the same call.  With the counter at zero the same
    request from the same state is High. *)
Theorem imsi_timeout_hides_high {D : Decoders} home :
  exists l, let s := imsi_run home l in
    let ask := IE_LTE (IE_NAS (NAS_EMMMessage (EMMIdentityRequest IMSI []))) in
    state s = Disconnect /\
    option_map event_type (snd (imsi_requested_analyze s ask 0 0)) = Some Informational /\
    option_map event_type (snd (imsi_requested_analyze (with_counter s 0) ask 0 0)) = Some High.
Proof.
  exists ([IE_LTE (IE_NAS (NAS_EMMMessage (EMMIdentityRequest IMSI [])))]
          ++ replicate 48 (IE_LTE (IE_NAS NAS_Other))
          ++ [IE_LTE (IE_NAS (NAS_EMMMessage (EMMAttachReject AR_EPSServicesAndNonEPSServicesNotAllowed [])))]).
  vm_compute. done.
Qed.
