(* ===== verification/NoNas.v ===== *)
(** * A recording without NAS ([lib/src/analysis/no_nas_messages.rs])

    The detector that warns once when five minutes of traffic held no NAS message.  Time
    stamps are nanoseconds. *)

From S2P Require Import Prelude RustStr Gsmtap GsmtapMac InformationElement Analyzer.

Local Open Scope Z_scope.

Definition NAS_TIMEOUT : Z := 5 * 60 * 10 ^ 9.

Record NoNasMessagesAnalyzer := {
  first_timestamp : option Z;
  latest_timestamp : option Z;
  finished : bool
}.

Definition NoNas_new : NoNasMessagesAnalyzer :=
  {| first_timestamp := None; latest_timestamp := None; finished := false |}.

Definition is_nas {D : Decoders} (ie : InformationElement) : bool :=
  match ie with IE_LTE (IE_NAS _) => true | _ => false end.

Definition no_nas_report (self : NoNasMessagesAnalyzer) (timestamp : Z)
    : NoNasMessagesAnalyzer * option Event :=
  if finished self then (self, None)
  else
    let is_discontinuous := match latest_timestamp self with
      | Some latest => (timestamp <? latest) || (NAS_TIMEOUT <=? timestamp - latest)
      | None => false end in
    let first := if is_discontinuous then Some timestamp else first_timestamp self in
    let first_timestamp := default timestamp first in
    if timestamp - first_timestamp <? NAS_TIMEOUT then
      ({| first_timestamp := Some first_timestamp; latest_timestamp := Some timestamp; finished := false |},
       None)
    else
      ({| first_timestamp := Some first_timestamp; latest_timestamp := Some timestamp; finished := true |},
       Some {| event_type := Low;
               message := lit "No NAS messages seen in 5 minutes, SIM possibly not working" |}).

Definition no_nas_analyze {D : Decoders} (self : NoNasMessagesAnalyzer) (ie : InformationElement)
    (_packet_num timestamp : Z) : NoNasMessagesAnalyzer * option Event :=
  let self := if is_nas ie
    then {| first_timestamp := first_timestamp self; latest_timestamp := latest_timestamp self;
            finished := true |}
    else self in
  no_nas_report self timestamp.

#[export] Instance NoNas_Analyzer {D : Decoders} : Analyzer NoNasMessagesAnalyzer := {|
  get_name := fun _ => lit "No NAS Messages";
  get_description := fun _ => lit "Warns if a recording contains diagnostic traffic spanning 5 minutes but no NAS messages, which usually means the SIM card is not working and the recording is not usable for detecting IMSI catchers.";
  analyze_information_element := no_nas_analyze;
  report_skipped_packet := no_nas_report;
  get_version := fun _ => 1
|}.

(** ** Runs: what the harness tells a detector *)

(** A packet: an element or nothing, at a time. *)
Definition packet {D : Decoders} : Type := option InformationElement * Z.

Definition no_nas_step {D : Decoders} (self : NoNasMessagesAnalyzer) (p : packet)
    : NoNasMessagesAnalyzer * option Event :=
  match p with
  | (Some ie, t) => no_nas_analyze self ie 0 t
  | (None, t) => no_nas_report self t
  end.

Fixpoint no_nas_events {D : Decoders} (self : NoNasMessagesAnalyzer) (l : list packet)
    : NoNasMessagesAnalyzer * list (option Event) :=
  match l with
  | [] => (self, [])
  | p :: l' =>
      let '(self, e) := no_nas_step self p in
      let '(self, es) := no_nas_events self l' in (self, e :: es)
  end.

Definition packet_is_nas {D : Decoders} (p : packet) : bool :=
  match p with (Some ie, _) => is_nas ie | _ => false end.

(** Consecutive time stamps that go forward by less than the time-out: real elapsed time. *)
Fixpoint continuous (l : list Z) : Prop :=
  match l with
  | a :: (b :: _) as l' => 0 <= b - a < NAS_TIMEOUT /\ continuous l'
  | _ => True
  end.

(** ** Lemmas *)

Section no_nas.
Context {D : Decoders}.

Lemma no_nas_finished s p : finished s = true -> no_nas_step s p = (s, None) \/
  (packet_is_nas p = true /\ exists s', finished s' = true /\ no_nas_step s p = (s', None)).
Proof.
  intros Hf. destruct p as [[ie|] t]; simpl.
  - unfold no_nas_analyze. destruct (is_nas ie).
    + right. split; [done|]. eexists. split; [|unfold no_nas_report; simpl; reflexivity]. done.
    + left. unfold no_nas_report. by rewrite Hf.
  - left. unfold no_nas_report. by rewrite Hf.
Qed.

Lemma no_nas_finished_events s l :
  finished s = true -> Forall (fun o => o = None) (snd (no_nas_events s l)).
Proof.
  revert s; induction l as [|p l IH]; intros s Hf; [constructor|]. cbn [no_nas_events].
  destruct (no_nas_finished s p Hf) as [-> | (_ & s' & Hs' & ->)].
  - specialize (IH s Hf). destruct (no_nas_events s l). by constructor.
  - specialize (IH s' Hs'). destruct (no_nas_events s' l). by constructor.
Qed.

(** A step that is not NAS is a report. *)
Lemma no_nas_step_report s p : packet_is_nas p = false -> no_nas_step s p = no_nas_report s (snd p).
Proof.
  destruct p as [[ie|] t]; simpl; [|done]. intros H. unfold no_nas_analyze. by rewrite H.
Qed.

Lemma no_nas_step_nas s p : packet_is_nas p = true ->
  exists s', no_nas_step s p = (s', None) /\ finished s' = true.
Proof.
  destruct p as [[ie|] t]; simpl; [|done]. intros H. unfold no_nas_analyze. rewrite H.
  eexists. split; [reflexivity|]. done.
Qed.

Lemma no_nas_events_length s l : length (snd (no_nas_events s l)) = length l.
Proof.
  revert s; induction l as [|p l IH]; intros s; [done|]. cbn [no_nas_events].
  destruct (no_nas_step s p) as [s1 e]. specialize (IH s1).
  destruct (no_nas_events s1 l). simpl in *. by f_equal.
Qed.

Lemma no_nas_warn_finishes s p e : snd (no_nas_step s p) = Some e -> finished (fst (no_nas_step s p)) = true.
Proof.
  assert (H : forall s t, snd (no_nas_report s t) = Some e -> finished (fst (no_nas_report s t)) = true).
  { intros s0 t. unfold no_nas_report. destruct (finished s0); [done|]. by destruct (_ <? _). }
  destruct p as [[ie|] t]; apply H.
Qed.

Lemma no_nas_one_warning s l : (length (filter is_Some (snd (no_nas_events s l))) <= 1)%nat.
Proof.
  revert s; induction l as [|p l IH]; intros s; [simpl; lia|]. cbn [no_nas_events].
  pose proof (no_nas_warn_finishes s p) as Hw. specialize (IH (fst (no_nas_step s p))).
  destruct (no_nas_step s p) as [s1 [e|]]; cbn [fst snd] in *.
  - pose proof (no_nas_finished_events s1 l (Hw e eq_refl)) as Hn.
    destruct (no_nas_events s1 l) as [s2 es]. cbn [fst snd] in *. rewrite filter_cons_True by done.
    apply Forall_replicate_eq in Hn. rewrite Hn. cbn [length]. apply le_n_S.
    generalize (length es). induction n as [|n IHn]; [simpl; lia|].
    cbn [replicate]. rewrite filter_cons_False by (intros [? [=]]). exact IHn.
  - destruct (no_nas_events s1 l) as [s2 es]. cbn [fst snd] in *.
    rewrite filter_cons_False by (intros [? [=]]). exact IH.
Qed.

(** While nothing has been said, the state is the window of real time seen last. *)
Definition window_inv (ts : list Z) (s : NoNasMessagesAnalyzer) : Prop :=
  finished s = false /\
  match first_timestamp s, latest_timestamp s with
  | None, None => ts = []
  | Some f, Some l => exists pre w, ts = pre ++ w /\ head w = Some f /\ List.last w 0 = l /\ continuous w
  | _, _ => False
  end.

Lemma continuous_snoc w t :
  w <> [] -> continuous w -> 0 <= t - List.last w 0 < NAS_TIMEOUT -> continuous (w ++ [t]).
Proof.
  induction w as [|a w IH]; [done|]. intros _ Hc Ht. destruct w as [|b w]; [simpl in *; auto|].
  destruct Hc as [Hab Hc]. split; [done|]. by apply IH.
Qed.

Lemma no_nas_report_spec ts s t :
  window_inv ts s ->
  match snd (no_nas_report s t) with
  | None => window_inv (ts ++ [t]) (fst (no_nas_report s t))
  | Some e => finished (fst (no_nas_report s t)) = true /\ event_type e = Low /\
      exists pre w f, ts ++ [t] = pre ++ w /\ head w = Some f /\ continuous w /\
        NAS_TIMEOUT <= t - f /\ List.last w 0 = t
  end.
Proof.
  intros [Hf Hw]. unfold no_nas_report. rewrite Hf. destruct s as [f l fin]. simpl in Hf, Hw |- *.
  destruct f as [f|], l as [l|]; try done.
  - destruct Hw as (pre & w & -> & Hhd & Hl & Hc).
    destruct ((t <? l) || (NAS_TIMEOUT <=? t - l)) eqn:Hd; simpl.
    + rewrite Z.sub_diag. simpl. split; [done|]. simpl.
      exists (pre ++ w), [t]. done.
    + zbool. assert (Hne : w <> []) by (by destruct w).
      assert (Hc' : continuous (w ++ [t])) by (apply continuous_snoc; [done|done|lia]).
      assert (Hhd' : head (w ++ [t]) = Some f) by (by destruct w).
      destruct (Z.ltb_spec (t - f) NAS_TIMEOUT); simpl.
      * split; [done|]. simpl. exists pre, (w ++ [t]).
        rewrite app_assoc, last_last. by repeat split.
      * split; [done|]. split; [done|]. exists pre, (w ++ [t]), f.
        rewrite app_assoc, last_last. by repeat split.
  - subst ts. simpl. rewrite Z.sub_diag. simpl. split; [done|]. simpl. exists [], [t]. done.
Qed.

(** The continuous window of a state with the least first time stamp. *)
Lemma no_nas_quiet ts s l :
  window_inv ts s -> Forall (fun p => packet_is_nas p = false) l ->
  (snd (no_nas_events s l) = replicate (length l) None /\
   window_inv (ts ++ map snd l) (fst (no_nas_events s l))) \/
  (exists l1 p l2 e, l = l1 ++ p :: l2 /\
    snd (no_nas_events s l) = replicate (length l1) None ++ Some e :: replicate (length l2) None).
Proof.
  revert ts s; induction l as [|p l IH]; intros ts s Hw Hl.
  { left. simpl. by rewrite app_nil_r. }
  apply Forall_cons in Hl as [Hp Hl]. cbn [no_nas_events].
  rewrite no_nas_step_report by done. pose proof (no_nas_report_spec ts s (snd p) Hw) as H.
  destruct (no_nas_report s (snd p)) as [s1 [e|]]; simpl in H.
  - right. destruct H as (Hf & _ & _). pose proof (no_nas_finished_events s1 l Hf) as Hn.
    exists [], p, l, e. split; [done|].
    pose proof (no_nas_events_length s1 l) as Hlen. destruct (no_nas_events s1 l) as [s2 es]. simpl in *. f_equal.
    rewrite <- Hlen. by apply Forall_replicate_eq.
  - destruct (IH _ s1 H Hl) as [[H1 H2] | (l1 & p' & l2 & e & -> & H1)].
    + left. destruct (no_nas_events s1 l) as [s2 es]. simpl in *. split; [by f_equal|].
      by rewrite <- app_assoc in H2.
    + right. exists (p :: l1), p', l2, e. split; [done|].
      destruct (no_nas_events s1 _) as [s2 es]. simpl in *. by f_equal.
Qed.
End no_nas.

Section no_nas_runs.
Context {D : Decoders}.

Lemma no_nas_events_app s l l' :
  no_nas_events s (l ++ l') =
  let '(s1, es1) := no_nas_events s l in
  let '(s2, es2) := no_nas_events s1 l' in (s2, es1 ++ es2).
Proof.
  revert s; induction l as [|p l IH]; intros s; cbn [no_nas_events app].
  - by destruct (no_nas_events s l').
  - destruct (no_nas_step s p) as [s1 e]. rewrite IH.
    destruct (no_nas_events s1 l) as [s2 es]. by destruct (no_nas_events s2 l').
Qed.

(** Any run has ended, or seen no NAS and said nothing. *)
Lemma no_nas_run_inv l :
  finished (fst (no_nas_events NoNas_new l)) = true \/
  (Forall (fun p => packet_is_nas p = false) l /\
   window_inv (map snd l) (fst (no_nas_events NoNas_new l))).
Proof.
  induction l as [|p l IH] using rev_ind; [by right|].
  rewrite no_nas_events_app. destruct (no_nas_events NoNas_new l) as [s es].
  cbn [no_nas_events fst] in *. destruct IH as [Hf | [Hl Hw]].
  - left. destruct (no_nas_finished s p Hf) as [-> | (_ & s' & Hs' & ->)]; done.
  - destruct (packet_is_nas p) eqn:Hp.
    + left. destruct (no_nas_step_nas s p Hp) as (s' & -> & Hs'). done.
    + pose proof (no_nas_report_spec _ s (snd p) Hw) as H. rewrite no_nas_step_report by done.
      destruct (no_nas_report s (snd p)) as [s1 [e|]]; simpl in *; [left; by destruct H|].
      right. split; [apply Forall_app_2; [done|]; by constructor|]. by rewrite map_app.
Qed.

(** From inside a continuous window that reaches the time-out, a warning comes. *)
Lemma no_nas_reaches f t s l :
  finished s = false -> first_timestamp s = Some f -> latest_timestamp s = Some t ->
  Forall (fun p => packet_is_nas p = false) l -> continuous (t :: map snd l) ->
  NAS_TIMEOUT <= List.last (map snd l) t - f ->  t - f < NAS_TIMEOUT ->
  exists l1 p l2 e, l = l1 ++ p :: l2 /\
    snd (no_nas_events s l) = replicate (length l1) None ++ Some e :: snd (no_nas_events
      {| first_timestamp := Some f; latest_timestamp := Some (snd p); finished := true |} l2).
Proof.
  revert t s; induction l as [|p l IH]; intros t s Hf Hfirst Hlatest Hl Hc Hlast Ht; [simpl in *; lia|].
  apply Forall_cons in Hl as [Hp Hl]. destruct Hc as [Hgap Hc]. cbn [no_nas_events].
  rewrite no_nas_step_report by done. unfold no_nas_report. rewrite Hf, Hfirst, Hlatest.
  rewrite (proj2 (Z.ltb_ge (snd p) t)), (proj2 (Z.leb_gt NAS_TIMEOUT (snd p - t))) by lia. cbn [orb from_option id].
  destruct (Z.ltb_spec (snd p - f) NAS_TIMEOUT).
  - set (s1 := {| first_timestamp := Some f; latest_timestamp := Some (snd p); finished := false |}).
    destruct (IH (snd p) s1 eq_refl eq_refl eq_refl Hl Hc) as (l1 & p' & l2 & e & -> & Hev).
    + destruct l as [|q l]; [simpl in *; lia|]. cbn [map] in Hlast |- *.
      rewrite (last_default _ (snd p) t) by done. exact Hlast.
    + done.
    + exists (p :: l1), p', l2, e. split; [done|].
      destruct (no_nas_events s1 (l1 ++ p' :: l2)) as [s2 es]. cbn [snd] in Hev |- *. by rewrite Hev.
  - exists [], p, l. eexists. split; [done|]. cbn [length replicate app].
    by destruct (no_nas_events _ l).
Qed.
End no_nas_runs.

(** A recording without NAS whose clock runs forward in steps below five minutes and spans five
    minutes or more raises the warning. *)
Lemma no_nas_reached {D : Decoders} p (l : list packet) :
  Forall (fun q => packet_is_nas q = false) (p :: l) -> continuous (map snd (p :: l)) ->
  NAS_TIMEOUT <= List.last (map snd l) (snd p) - snd p ->
  length (filter is_Some (snd (no_nas_events NoNas_new (p :: l)))) = 1%nat.
Proof.
  intros Hn Hc Hspan. apply Nat.le_antisymm; [apply no_nas_one_warning|].
  apply Forall_cons in Hn as [Hp Hl]. cbn [no_nas_events].
  set (s1 := {| first_timestamp := Some (snd p); latest_timestamp := Some (snd p); finished := false |}).
  assert (Hstep : no_nas_report NoNas_new (snd p) = (s1, None)).
  { unfold no_nas_report. simpl. by rewrite Z.sub_diag. }
  rewrite no_nas_step_report, Hstep by done.
  destruct (no_nas_reaches (snd p) (snd p) s1 l eq_refl eq_refl eq_refl Hl Hc Hspan)
    as (l1 & q & l2 & e & -> & Hev).
  { rewrite Z.sub_diag. by vm_compute. }
  destruct (no_nas_events s1 (l1 ++ q :: l2)) as [s2 es]. cbn [snd] in *.
  rewrite Hev, filter_cons_False by (intros [? [=]]). rewrite filter_app, length_app.
  rewrite filter_cons_True by done. cbn [length]. lia.
Qed.

(** ** Properties *)

(** One warning, when it is due.  Over any recording, whatever the time stamps do, at most one
    packet raises the warning, and no packet from the first NAS message on does; and a recording
    without NAS whose clock runs forward in steps below five minutes and spans five minutes or
    more raises it exactly once. *)
Theorem no_nas_once {D : Decoders} (l : list packet) :
  (length (filter is_Some (snd (no_nas_events NoNas_new l))) <= 1)%nat /\
  (forall l1 p l2, l = l1 ++ p :: l2 -> packet_is_nas p = true ->
    exists es, snd (no_nas_events NoNas_new l) = es ++ replicate (S (length l2)) None /\
      length es = length l1) /\
  (forall p l', l = p :: l' -> Forall (fun q => packet_is_nas q = false) l -> continuous (map snd l) ->
    NAS_TIMEOUT <= List.last (map snd l') (snd p) - snd p ->
    length (filter is_Some (snd (no_nas_events NoNas_new l))) = 1%nat).
Proof.
  split; [apply no_nas_one_warning|].
  split; [|intros p l' -> Hn Hc Hs; by apply no_nas_reached]. intros l1 p l2 -> Hp.
  rewrite no_nas_events_app. pose proof (no_nas_events_length NoNas_new l1) as Hlen.
  destruct (no_nas_events NoNas_new l1) as [s1 es1]. cbn [no_nas_events snd] in *.
  destruct (no_nas_step_nas s1 p Hp) as (s2 & -> & Hf).
  pose proof (no_nas_finished_events s2 l2 Hf) as Hn. pose proof (no_nas_events_length s2 l2) as Hl2.
  destruct (no_nas_events s2 l2) as [s3 es2]. cbn [snd] in *. exists es1. split; [|done].
  apply Forall_replicate_eq in Hn. by rewrite Hn, Hl2.
Qed.

(** A warning is earned.  When a packet makes the detector warn, neither it nor anything
    before it in the recording was NAS, and the packets up to it end with a stretch of at least
    five minutes in which the clock never went back and never jumped by five minutes: a clock
    that was corrected does not count as time spent listening. *)
Theorem no_nas_warning_sound {D : Decoders} (l : list packet) p e :
  snd (no_nas_step (fst (no_nas_events NoNas_new l)) p) = Some e ->
  event_type e = Low /\ Forall (fun q => packet_is_nas q = false) (l ++ [p]) /\
  exists pre w f, map snd (l ++ [p]) = pre ++ w /\ head w = Some f /\ List.last w 0 = snd p /\
    continuous w /\ NAS_TIMEOUT <= snd p - f.
Proof.
  intros He. destruct (no_nas_run_inv l) as [Hf | [Hl Hw]].
  { destruct (no_nas_finished _ p Hf) as [H | (_ & s' & _ & H)]; by rewrite H in He. }
  destruct (packet_is_nas p) eqn:Hp.
  { destruct (no_nas_step_nas (fst (no_nas_events NoNas_new l)) p Hp) as (s' & H & _).
    by rewrite H in He. }
  rewrite no_nas_step_report in He by done. pose proof (no_nas_report_spec _ _ (snd p) Hw) as H.
  rewrite He in H. destruct H as (_ & Ht & pre & w & f & H1 & H2 & H3 & H4 & H5).
  split; [done|]. split; [apply Forall_app_2; [done|]; by constructor|].
  exists pre, w, f. by rewrite map_app.
Qed.

Lemma no_nas_warning_sound_witness :
  let D := nas_decoders (fun _ => Ok NAS_Other) in
  exists e, snd (@no_nas_step D (fst (@no_nas_events D NoNas_new [(None, 0); (None, 299 * 10 ^ 9)]))
      (None, 300 * 10 ^ 9)) = Some e /\
    event_type e = Low.
Proof.
  intros D. eexists. split; [vm_compute; reflexivity|].
  destruct (@no_nas_warning_sound D [(None, 0); (None, 299 * 10 ^ 9)] (None, 300 * 10 ^ 9) _ eq_refl)
    as [H _]. exact H.
Defined.

Lemma no_nas_once_witness :
  length (filter is_Some (snd (@no_nas_events (nas_decoders (fun _ => Ok NAS_Other)) NoNas_new
    [(None, 0); (None, 299 * 10 ^ 9); (None, 301 * 10 ^ 9); (None, 302 * 10 ^ 9)]))) = 1%nat.
Proof.
  eapply no_nas_once; [reflexivity | | |].
  - repeat constructor.
  - repeat split; vm_compute; done.
  - vm_compute. done.
Defined.
