(* ===== verification/TimingAdvance.v ===== *)
(** * Timing advance ([lib/src/analysis/timing_advance.rs])

    One cell identity answering from two distances. *)

From S2P Require Import Prelude RustStr Floats Gsmtap GsmtapMac LteRrc InformationElement Analyzer.

Local Open Scope Z_scope.

Definition METRES_PER_STEP : f64 := f64_lit 7807 100.
Definition JUMP_THRESHOLD_STEPS : Z := 16.
Definition SAMPLES_FOR_BASELINE : Z := 2.
Definition MAX_CELLS : nat := 32.

Definition metres (ta : Z) : Z := f64_round_i64 (f64_mul (f64_of_Z ta) METRES_PER_STEP).

Record CellSamples := { baseline : option Z; seen : Z }.

Record TimingAdvanceAnalyzer := {
  current_cell : option Z;
  cells : gmap Z CellSamples;
  any_non_zero : bool
}.

Definition TimingAdvance_new : TimingAdvanceAnalyzer :=
  {| current_cell := None; cells := ∅; any_non_zero := false |}.

Definition observe (self : TimingAdvanceAnalyzer) (ta : Z)
    : TimingAdvanceAnalyzer * option (Z * Z) :=
  let any := any_non_zero self || negb (ta =? 0) in
  let self := {| current_cell := current_cell self; cells := cells self; any_non_zero := any |} in
  if negb any then (self, None)
  else
    match current_cell self with
    | None => (self, None)
    | Some cell =>
        let cells0 := if (MAX_CELLS <=? size (cells self))%nat && negb (bool_decide (is_Some (cells self !! cell)))
                      then ∅ else cells self in
        let entry := default {| baseline := None; seen := 0 |} (cells0 !! cell) in
        let seen' := seen entry + 1 in
        let finish entry r :=
          ({| current_cell := current_cell self; cells := <[cell := entry]> cells0;
              any_non_zero := any |}, r) in
        match baseline entry with
        | None =>
            finish {| baseline := if SAMPLES_FOR_BASELINE <=? seen' then Some ta else None;
                      seen := seen' |} None
        | Some b =>
            if JUMP_THRESHOLD_STEPS <=? Z.abs (ta - b) then
              finish {| baseline := Some ta; seen := seen' |} (Some (b, ta))
            else finish {| baseline := Some b; seen := seen' |} None
        end
    end.

Definition timing_advance_analyze {D : Decoders} (self : TimingAdvanceAnalyzer)
    (ie : InformationElement) (_packet_num _timestamp : Z) : TimingAdvanceAnalyzer * option Event :=
  match ie with
  | IE_LTE (IE_BcchDlSch {| bcch_message := BCCH_C1 (BCCH_SystemInformationBlockType1 sib1) |}) =>
      ({| current_cell := Some (load_be_u32 (cell_identity (cell_access_related_info sib1)));
          cells := cells self; any_non_zero := any_non_zero self |}, None)
  | IE_LTE (IE_MacRar rar) =>
      match observe self (timing_advance rar) with
      | (self, None) => (self, None)
      | (self, Some (baseline, observed)) =>
          let change := metres observed - metres baseline in
          let direction := if 0 <? change then lit "further" else lit "closer" in
          (self, Some {| event_type := Low; message :=
            lit "Cell reported timing advance " ++ dec observed ++ lit ", having reported "
            ++ dec baseline ++ lit " before: about " ++ dec (Z.abs change) ++ lit " metres "
            ++ direction
            ++ lit ". If this device moved, that explains it; if it did not, the same cell identity is being transmitted from somewhere else." |})
      end
  | _ => (self, None)
  end.

#[export] Instance TimingAdvance_Analyzer {D : Decoders} : Analyzer TimingAdvanceAnalyzer := {|
  get_name := fun _ => lit "Cell answering from a different distance";
  get_description := fun _ => lit "Compares the timing advance a cell reports against what the same cell reported before. A tower does not move, so a large change means either this device moved or something else is transmitting that cell's identity. Silent on modems that do not report timing advance.";
  analyze_information_element := timing_advance_analyze;
  report_skipped_packet := no_skipped_report;
  get_version := fun _ => 1
|}.

(** A step is about 78 metres. *)
Example metres_ten : metres 10 = 781 /\ metres 1282 = 100086.
Proof. vm_compute. done. Qed.

(** ** Runs *)

Definition ta_run {D : Decoders} (l : list InformationElement) : TimingAdvanceAnalyzer :=
  fold_left (fun s ie => fst (timing_advance_analyze s ie 0 0)) l TimingAdvance_new.

(** The cell the device is camped on after a recording: the last SIB1's. *)
Definition camp {D : Decoders} (c : option Z) (ie : InformationElement) : option Z :=
  match ie with
  | IE_LTE (IE_BcchDlSch {| bcch_message := BCCH_C1 (BCCH_SystemInformationBlockType1 sib1) |}) =>
      Some (load_be_u32 (cell_identity (cell_access_related_info sib1)))
  | _ => c
  end.
Definition camped {D : Decoders} (l : list InformationElement) : option Z := fold_left camp l None.

(** What a random access response reports. *)
Definition reported_ta {D : Decoders} (ie : InformationElement) : option Z :=
  match ie with IE_LTE (IE_MacRar rar) => Some (timing_advance rar) | _ => None end.

(** ** Lemmas *)

Section timing.
Context {D : Decoders}.

(** [cell] reported [ta] at some point of the recording. *)
Definition cell_reported (l : list InformationElement) (cell ta : Z) : Prop :=
  exists pre ie post, l = pre ++ ie :: post /\ camped pre = Some cell /\ reported_ta ie = Some ta.

Lemma cell_reported_snoc l ie c t : cell_reported l c t -> cell_reported (l ++ [ie]) c t.
Proof.
  intros (pre & x & post & -> & H). exists pre, x, (post ++ [ie]). by rewrite <- app_assoc.
Qed.

Definition ta_inv (l : list InformationElement) (s : TimingAdvanceAnalyzer) : Prop :=
  current_cell s = camped l /\
  (size (cells s) <= MAX_CELLS)%nat /\
  (any_non_zero s = true <-> exists ie t, ie ∈ l /\ reported_ta ie = Some t /\ t <> 0) /\
  forall cell e, cells s !! cell = Some e -> forall b, baseline e = Some b -> cell_reported l cell b.

Lemma camped_snoc l ie : camped (l ++ [ie]) = camp (camped l) ie.
Proof. unfold camped. by rewrite fold_left_app. Qed.

Lemma any_snoc l ie b :
  (b = true <-> exists x t, x ∈ l /\ reported_ta x = Some t /\ t <> 0) ->
  (b || match reported_ta ie with Some t => negb (t =? 0) | None => false end = true
   <-> exists x t, x ∈ l ++ [ie] /\ reported_ta x = Some t /\ t <> 0).
Proof.
  intros H. rewrite orb_true_iff, H. split.
  - intros [(x & t & Hx & Hr & Ht) | Hr].
    + exists x, t. rewrite elem_of_app. auto.
    + destruct (reported_ta ie) as [t|] eqn:He; [|done]. exists ie, t. zbool.
      rewrite elem_of_app, list_elem_of_singleton. auto.
  - intros (x & t & [Hx|Hx]%elem_of_app & Hr & Ht); [left; eauto|].
    apply list_elem_of_singleton in Hx as ->. right. rewrite Hr.
    by rewrite negb_true_iff, Z.eqb_neq.
Qed.

(** The map after an observation is still small: a full one is emptied before it grows. *)
Lemma bounded_insert (m : gmap Z CellSamples) c e :
  (size m <= MAX_CELLS)%nat ->
  (size (<[c := e]> (if (MAX_CELLS <=? size m)%nat && negb (bool_decide (is_Some (m !! c)))
     then ∅ else m)) <= MAX_CELLS)%nat.
Proof.
  intros Hm. destruct (Nat.leb_spec MAX_CELLS (size m)) as [Hge|Hlt]; cbn [andb].
  - case_bool_decide as Hin; cbn [negb].
    + rewrite map_size_insert. destruct Hin as [x ->]. done.
    + rewrite map_size_insert, lookup_empty, map_size_empty. unfold MAX_CELLS. lia.
  - rewrite map_size_insert. destruct (m !! c); simpl; lia.
Qed.

Lemma observe_inv l s ie ta :
  ta_inv l s -> reported_ta ie = Some ta -> camp (camped l) ie = camped l ->
  ta_inv (l ++ [ie]) (fst (observe s ta)) /\
  forall b o, snd (observe s ta) = Some (b, o) ->
    o = ta /\ JUMP_THRESHOLD_STEPS <= Z.abs (ta - b) /\ any_non_zero (fst (observe s ta)) = true /\
    exists cell, camped l = Some cell /\ cell_reported l cell b.
Proof.
  intros (Hcell & Hsize & Hany & Hbase) Hr Hcamp.
  assert (Hbase' : forall cell e, cells s !! cell = Some e -> forall b, baseline e = Some b ->
    cell_reported (l ++ [ie]) cell b).
  { intros cell e He b Hb. eapply cell_reported_snoc, Hbase; eauto. }
  assert (Hnow : forall c, camped l = Some c -> cell_reported (l ++ [ie]) c ta).
  { intros c Hc. by exists l, ie, []. }
  pose proof (any_snoc l ie _ Hany) as Hany'. rewrite Hr in Hany'.
  unfold observe. rewrite <- camped_snoc in Hcamp.
  destruct (any_non_zero s || negb (ta =? 0)) eqn:Hnz; cbn [negb].
  2:{ split; [|done]. split; [simpl; congruence|]. split; [done|]. split; [exact Hany' | exact Hbase']. }
  cbn [current_cell]. destruct (current_cell s) as [c|] eqn:Hc.
  2:{ split; [|done]. split; [simpl; congruence|]. split; [done|]. split; [exact Hany' | exact Hbase']. }
  cbn [cells]. set (m := if _ && _ then ∅ else cells s).
  assert (Hm : forall cell e, m !! cell = Some e -> forall b, baseline e = Some b ->
    cell_reported (l ++ [ie]) cell b /\ cell_reported l cell b).
  { intros cell e He b Hb. unfold m in He. destruct (_ && _); [by rewrite lookup_empty in He|].
    split; [by eapply Hbase' | by eapply Hbase]. }
  assert (Hins : forall e', (forall b, baseline e' = Some b -> cell_reported (l ++ [ie]) c b) ->
    ta_inv (l ++ [ie]) {| current_cell := Some c; cells := <[c := e']> m; any_non_zero := true |}).
  { intros e' He'. split; [simpl; congruence|]. split; [by apply bounded_insert|].
    split; [exact Hany'|]. simpl. intros cell e He b Hb.
    destruct (decide (cell = c)) as [->|Hne].
    - rewrite lookup_insert_eq in He. simplify_eq. by apply He'.
    - rewrite lookup_insert_ne in He by done. by eapply Hm. }
  assert (Hentry : forall b, baseline (default {| baseline := None; seen := 0 |} (m !! c)) = Some b ->
    cell_reported (l ++ [ie]) c b /\ cell_reported l c b).
  { intros b. destruct (m !! c) as [e|] eqn:He; simpl; [|done]. intros Hb. by eapply Hm. }
  destruct (baseline (default _ (m !! c))) as [b0|] eqn:Hb0.
  - destruct (Hentry b0 eq_refl) as [H1 H2].
    destruct (Z.leb_spec JUMP_THRESHOLD_STEPS (Z.abs (ta - b0))); cbn [fst snd].
    + split; [apply Hins; simpl; intros b [= <-]; apply Hnow; congruence|].
      intros b o [= <- <-]. split; [done|]. split; [done|]. split; [done|]. exists c.
      split; [congruence | done].
    + split; [apply Hins; by intros b [= <-] | done].
  - cbn [fst snd]. split; [|done]. apply Hins. simpl.
    destruct (_ <=? _); [|done]. intros b [= <-]. apply Hnow. congruence.
Qed.

Lemma reported_camp ie t c : reported_ta ie = Some t -> camp c ie = c.
Proof. destruct ie as [| |[]|]; done. Qed.

Lemma not_reported_inv l s ie c :
  ta_inv l s -> reported_ta ie = None -> c = camp (camped l) ie ->
  ta_inv (l ++ [ie]) {| current_cell := c; cells := cells s; any_non_zero := any_non_zero s |}.
Proof.
  intros (Hcell & Hsize & Hany & Hbase) Hr ->. split; [by rewrite camped_snoc|].
  split; [done|]. split; simpl.
  - pose proof (any_snoc l ie _ Hany) as H. by rewrite Hr, orb_false_r in H.
  - intros cell e He b Hb. eapply cell_reported_snoc, Hbase; eauto.
Qed.

Lemma analyze_reported s ie t n ts :
  reported_ta ie = Some t ->
  fst (timing_advance_analyze s ie n ts) = fst (observe s t) /\
  (snd (timing_advance_analyze s ie n ts) = None <-> snd (observe s t) = None).
Proof.
  destruct ie as [| |[]|]; try done. simpl. intros [= ->].
  by destruct (observe s t) as [s' [[b o]|]].
Qed.

Lemma analyze_not_reported s ie n ts :
  reported_ta ie = None ->
  timing_advance_analyze s ie n ts =
  ({| current_cell := camp (current_cell s) ie; cells := cells s; any_non_zero := any_non_zero s |}, None).
Proof.
  destruct s, ie as [| |[]|]; try done. simpl.
  repeat (case_match; try done).
Qed.

Lemma analyze_inv l s ie n ts :
  ta_inv l s -> ta_inv (l ++ [ie]) (fst (timing_advance_analyze s ie n ts)).
Proof.
  intros H. destruct (reported_ta ie) as [t|] eqn:Hr.
  - rewrite (proj1 (analyze_reported s ie t n ts Hr)).
    by apply (observe_inv l s ie t H Hr), (reported_camp ie t).
  - rewrite (analyze_not_reported s ie n ts Hr). simpl. apply not_reported_inv; [done|done|].
    by destruct H as [-> _].
Qed.

Lemma ta_run_snoc l ie : ta_run (l ++ [ie]) = fst (timing_advance_analyze (ta_run l) ie 0 0).
Proof. unfold ta_run. by rewrite fold_left_app. Qed.

Lemma ta_run_inv l : ta_inv l (ta_run l).
Proof.
  induction l as [|ie l IH] using rev_ind.
  - split; [done|]. split; [simpl; rewrite map_size_empty; lia|]. split.
    + split; [done|]. by intros (x & t & []%elem_of_nil & _).
    + simpl. intros cell e. by rewrite lookup_empty.
  - rewrite ta_run_snoc. by apply analyze_inv.
Qed.

(** ** Properties *)

(** Every warning is justified by the recording: the packet is a random access response, the
    device was camped on a cell by then, that very cell identity had reported a timing advance
    before, the two differ by at least 16 steps, and some report was not zero.  Whatever is recorded,
    at most 32 cells are remembered. *)
Theorem timing_advance_sound l ie n ts :
  (size (cells (ta_run l)) <= MAX_CELLS)%nat /\
  forall ev, snd (timing_advance_analyze (ta_run l) ie n ts) = Some ev ->
  exists cell before now,
    camped l = Some cell /\ reported_ta ie = Some now /\ cell_reported l cell before /\
    JUMP_THRESHOLD_STEPS <= Z.abs (now - before) /\
    exists x t, x ∈ l ++ [ie] /\ reported_ta x = Some t /\ t <> 0.
Proof.
  split; [by destruct (ta_run_inv l) as (_ & ? & _)|]. intros ev Hev. destruct (reported_ta ie) as [now|] eqn:Hr.
  2:{ by rewrite analyze_not_reported in Hev. }
  destruct (analyze_reported (ta_run l) ie now n ts Hr) as [_ Hiff].
  destruct (observe_inv l _ ie now (ta_run_inv l) Hr (reported_camp ie now _ Hr))
    as [(_ & _ & Hany & _) Hobs].
  destruct (snd (observe (ta_run l) now)) as [[b o]|] eqn:Ho; [|by rewrite (proj2 Hiff eq_refl) in Hev].
  destruct (Hobs b o eq_refl) as (-> & Hjump & Htrue & cell & Hc & Hrep).
  exists cell, b, now. split; [done|]. split; [done|]. split; [done|]. split; [done|]. by apply Hany.
Qed.
End timing.

(** ** Witnesses *)

Section examples.
Let D : Decoders := nas_decoders (fun _ => Ok NAS_Other).

Definition sib1_of (c : list bool) : @InformationElement D :=
  IE_LTE (IE_BcchDlSch {| bcch_message := BCCH_C1 (BCCH_SystemInformationBlockType1
    {| cell_access_related_info :=
         {| plmn_identity_list := []; tracking_area_code := []; cell_identity := c |};
       scheduling_info_list := [] |}) |}).
Definition rar_of (ta : Z) : @InformationElement D :=
  IE_LTE (IE_MacRar {| timing_advance := ta; mar_tc_rnti := 0; preamble := 0 |}).
Definition recording : list (@InformationElement D) := [sib1_of [true; false; true]; rar_of 10; rar_of 11].

Lemma timing_advance_sound_witness :
  camped recording = Some 5 /\
  exists cell before now, camped recording = Some cell /\
    reported_ta (rar_of 40) = Some now /\ cell_reported recording cell before /\
    JUMP_THRESHOLD_STEPS <= Z.abs (now - before).
Proof.
  split; [reflexivity|].
  destruct (timing_advance_sound recording (rar_of 40) 1 2) as [_ H].
  destruct (H _ eq_refl) as (c & b & o & H1 & H2 & H3 & H4 & _).
  exists c, b, o. repeat split; assumption.
Defined.
End examples.
