(* ===== verification/Detectors.v ===== *)
(** * Detectors that look at one message at a time

    [lib/src/analysis/null_cipher.rs], [nas_null_cipher.rs],
    [connection_redirect_downgrade.rs], [incomplete_sib.rs], [test_analyzer.rs] and
    [diagnostic.rs]: analyzers without state. *)

From S2P Require Import Prelude RustStr LteRrc InformationElement Analyzer.

Local Open Scope Z_scope.

(** ** Null cipher, RRC *)

Inductive NullCipherAnalyzer := NullCipher_new.

Definition is_eea0 (c : CipheringAlgorithm_r12) : bool := c =? EEA0.
Definition config_is_eea0 (o : option SecurityAlgorithmConfig) : bool :=
  match o with Some c => is_eea0 (ciphering_algorithm c) | None => false end.

Definition check_rrc_connection_reconfiguration_cipher (reconfiguration : RRCConnectionReconfiguration) : bool :=
  match reconf_critical_extensions reconfiguration with
  | RrcReconf_C1 (RrcConnectionReconfiguration_r8 c1) =>
      let maybe_security_config :=
        handover ← security_config_ho c1;
        match handover_type handover with
        | IntraLTE lte => intra_security_algorithm_config lte
        | InterRAT rat => Some (inter_security_algorithm_config rat)
        end in
      if config_is_eea0 maybe_security_config then true
      else
        let maybe_v1250 :=
          v890 ← r8_ext c1; v920 ← v890_ext v890; v1020 ← v920_ext v920; v1130 ← v1020_ext v1020;
          v1130_ext v1130 in
        match maybe_v1250 with
        | None => false
        | Some v1250 =>
            let maybe_cipher :=
              match scg_configuration_r12 v1250 with
              | Some (SCG_Setup scg_setup) =>
                  scg ← scg_config_part_scg_r12 scg_setup;
                  mci ← mobility_control_info_scg_r12 scg;
                  ciphering_algorithm_scg_r12 mci
              | _ => None
              end in
            if match maybe_cipher with Some cipher => is_eea0 cipher | None => false end then true
            else
              let maybe_v1530_security_config :=
                v1310 ← v1250_ext v1250; v1430 ← v1310_ext v1310; v1510 ← v1430_ext v1430;
                v1530 ← v1510_ext v1510; security_config_ho_v1530 v1530 in
              match maybe_v1530_security_config with
              | None => false
              | Some v1530_security_config =>
                  config_is_eea0 match handover_type_v1530 v1530_security_config with
                    | Intra5GC intra_5gc => intra5gc_security_algorithm_config_r15 intra_5gc
                    | Fivegc_ToEPC to_epc => Some (toepc_security_algorithm_config_r15 to_epc)
                    | Epc_To5GC to_5gc => Some (to5gc_security_algorithm_config_r15 to_5gc)
                    end
              end
        end
  | _ => false
  end.

Definition check_security_mode_command_cipher (command : SecurityModeCommand) : bool :=
  match smc_critical_extensions command with
  | SMC_C1 (SecurityModeCommand_r8 r8) =>
      is_eea0 (ciphering_algorithm (smc_security_algorithm_config (security_config_smc r8)))
  | _ => false
  end.

Definition null_cipher_analyze {D : Decoders} (self : NullCipherAnalyzer)
    (ie : InformationElement) (_packet_num _timestamp : Z) : NullCipherAnalyzer * option Event :=
  match ie with
  | IE_LTE (IE_DlDcch {| dcch_message := DCCH_C1 c1 |}) =>
      let found null_cipher_detected :=
        if null_cipher_detected : bool
        then Some {| event_type := High; message := lit "Cell suggested use of null cipher" |}
        else None in
      (self, match c1 with
        | DCCH_RrcConnectionReconfiguration reconfiguration =>
            found (check_rrc_connection_reconfiguration_cipher reconfiguration)
        | DCCH_SecurityModeCommand command => found (check_security_mode_command_cipher command)
        | _ => None
        end)
  | _ => (self, None)
  end.

#[export] Instance NullCipher_Analyzer {D : Decoders} : Analyzer NullCipherAnalyzer := {|
  get_name := fun _ => lit "Null Cipher";
  get_description := fun _ => lit "Tests whether the cell suggests using a null cipher (EEA0)";
  analyze_information_element := null_cipher_analyze;
  report_skipped_packet := no_skipped_report;
  get_version := fun _ => 1
|}.

(** ** Null cipher, NAS *)

Inductive NasNullCipherAnalyzer := NasNullCipher_new.

Definition nas_null_cipher_analyze {D : Decoders} (self : NasNullCipherAnalyzer)
    (ie : InformationElement) (_packet_num _timestamp : Z) : NasNullCipherAnalyzer * option Event :=
  match ie with
  | IE_LTE (IE_NAS (NAS_EMMMessage (EMMSecurityModeCommand ciph_algo _))) =>
      if bool_decide (ciph_algo = EPSEncryptionAlgorithmEEA0Null)
      then (self, Some {| event_type := High;
                          message := lit "NAS Security mode command requested null cipher" |})
      else (self, None)
  | _ => (self, None)
  end.

#[export] Instance NasNullCipher_Analyzer {D : Decoders} : Analyzer NasNullCipherAnalyzer := {|
  get_name := fun _ => lit "NAS Null Cipher Requested";
  get_description := fun _ => lit "Tests whether the MME requests to use a null cipher in the NAS security mode command";
  analyze_information_element := nas_null_cipher_analyze;
  report_skipped_packet := no_skipped_report;
  get_version := fun _ => 1
|}.

(** ** Release with redirection to 2G *)

Inductive ConnectionRedirect2GDowngradeAnalyzer := ConnectionRedirect_new.

Definition connection_redirect_analyze {D : Decoders} (self : ConnectionRedirect2GDowngradeAnalyzer)
    (ie : InformationElement) (_packet_num _timestamp : Z)
    : ConnectionRedirect2GDowngradeAnalyzer * option Event :=
  match ie with
  | IE_LTE (IE_DlDcch {| dcch_message := DCCH_C1 (DCCH_RrcConnectionRelease {|
      release_critical_extensions := RrcRelease_C1 (RrcConnectionRelease_r8 {|
        redirected_carrier_info := Some carrier_info |}) |}) |}) =>
      match carrier_info with
      | Geran => (self, Some {| event_type := High; message := lit "Detected 2G downgrade" |})
      | Redirected_Other debug =>
          (self, Some {| event_type := Informational;
                         message := lit "RRCConnectionRelease CarrierInfo: " ++ debug |})
      end
  | _ => (self, None)
  end.

#[export] Instance ConnectionRedirect_Analyzer {D : Decoders} :
    Analyzer ConnectionRedirect2GDowngradeAnalyzer := {|
  get_name := fun _ => lit "Connection Release/Redirected Carrier 2G Downgrade";
  get_description := fun _ => lit "Tests if a cell releases our connection and redirects us to a 2G cell.";
  analyze_information_element := connection_redirect_analyze;
  report_skipped_packet := no_skipped_report;
  get_version := fun _ => 1
|}.

(** ** Incomplete SIB *)

Inductive IncompleteSibAnalyzer := IncompleteSib_new.

Definition incomplete_sib_analyze {D : Decoders} (self : IncompleteSibAnalyzer)
    (ie : InformationElement) (_packet_num _timestamp : Z) : IncompleteSibAnalyzer * option Event :=
  match ie with
  | IE_LTE (IE_BcchDlSch {| bcch_message := BCCH_C1 (BCCH_SystemInformationBlockType1 sib1) |}) =>
      if (length (scheduling_info_list sib1) <? 2)%nat
      then (self, Some {| event_type := Informational;
                          message := lit "SIB1 scheduling info list was malformed" |})
      else (self, None)
  | _ => (self, None)
  end.

#[export] Instance IncompleteSib_Analyzer {D : Decoders} : Analyzer IncompleteSibAnalyzer := {|
  get_name := fun _ => lit "Incomplete SIB";
  get_description := fun _ => lit "Tests whether a SIB1 message contains a full chain of followup sibs";
  analyze_information_element := incomplete_sib_analyze;
  report_skipped_packet := no_skipped_report;
  get_version := fun _ => 2
|}.

(** ** Test analyzer *)

Inductive TestAnalyzer := TestAnalyzer_new.

(** [{:?}] of a [Vec<MCC_MNC_Digit>]. *)
Definition debug_digits (l : list MCC_MNC_Digit) : rstr :=
  lit "[" ++ join (lit ", ") (map (fun d => lit "MCC_MNC_Digit(" ++ dec d ++ lit ")") l) ++ lit "]".

(** The text of a SIB1; [None] when an index is out of range (no PLMN at all, or an MCC of
    fewer than three digits), where the code panics. *)
Definition sib1_text {D : Decoders} (sib1 : SystemInformationBlockType1) : option rstr :=
  let info := cell_access_related_info sib1 in
  let cid := load_be_u32 (cell_identity info) in
  let tac := load_be_u32 (tracking_area_code info) in
  first ← plmn_identity_list info !! 0%nat;
  let id := plmn_identity first in
  mcc_string ← match mcc id with
    | Some mcc => d0 ← mcc !! 0%nat; d1 ← mcc !! 1%nat; d2 ← mcc !! 2%nat; Some (dec d0 ++ dec d1 ++ dec d2)
    | None => Some (lit "nomcc")
    end;
  let mnc_string := match mnc id with
    | [d0; d1; d2] => dec d0 ++ dec d1 ++ dec d2
    | [d0; d1] => dec d0 ++ dec d1
    | other => debug_digits other
    end in
  Some (lit "SIB1 received CID: " ++ dec cid ++ lit ", TAC: " ++ dec tac ++ lit ", PLMN: "
        ++ mcc_string ++ lit "-" ++ mnc_string).

(** [None] is a panic. *)
Definition test_analyzer_analyze {D : Decoders} (self : TestAnalyzer)
    (ie : InformationElement) (_packet_num _timestamp : Z) : option (TestAnalyzer * option Event) :=
  match ie with
  | IE_LTE (IE_BcchDlSch {| bcch_message := BCCH_C1 (BCCH_SystemInformationBlockType1 sib1) |}) =>
      text ← sib1_text sib1;
      Some (self, Some {| event_type := Low; message := text |})
  | _ => Some (self, None)
  end.

(** What the generated decoder guarantees of a SIB1 ([SIZE (1..6)] PLMNs, [SIZE (3)] MCCs). *)
Definition sib1_sizes (sib1 : SystemInformationBlockType1) : Prop :=
  plmn_identity_list (cell_access_related_info sib1) <> [] /\
  Forall (fun p => forall m, mcc (plmn_identity p) = Some m -> length m = 3%nat)
    (plmn_identity_list (cell_access_related_info sib1)).

(** The trait's method cannot panic here: [sib1_sizes] is what decoding ensures, and
    [test_analyzer_total] that it is enough. *)
#[export] Instance Test_Analyzer {D : Decoders} : Analyzer TestAnalyzer := {|
  get_name := fun _ => lit "Test Analyzer";
  get_description := fun _ => lit "This is an analyzer which can be used to test that your rayhunter is working. It will generate an alert for every SIB1 message (a beacon from the cell tower) that it sees. Do not leave this on when you are hunting or it will be very noisy.";
  analyze_information_element := fun self ie n t =>
    default (self, None) (test_analyzer_analyze self ie n t);
  report_skipped_packet := no_skipped_report;
  get_version := fun _ => 1
|}.

(** ** Diagnostic *)

Inductive DiagnosticAnalyzer := Diagnostic_new.

Definition is_imsi_exposing_nas (nas_msg : NASMessage) : bool :=
  match nas_msg with
  | NAS_EMMMessage emm_msg =>
      match emm_msg with
      | EMMIdentityRequest _ _ => true
      | EMMTrackingAreaUpdateReject cause _ =>
          match cause with
          | TAU_IllegalUE | TAU_IllegalME | TAU_EPSServicesNotAllowed
          | TAU_EPSServicesAndNonEPSServicesNotAllowed | TAU_TrackingAreaNotAllowed
          | TAU_EPSServicesNotAllowedInThisPLMN
          | TAU_RequestedServiceOptionNotAuthorizedInThisPLMN => true
          | TAU_Other => false
          end
      | EMMAttachReject cause _ =>
          match cause with
          | AR_IllegalUE | AR_IllegalME | AR_EPSServicesNotAllowed
          | AR_EPSServicesAndNonEPSServicesNotAllowed | AR_PLMNNotAllowed | AR_TrackingAreaNotAllowed
          | AR_RoamingNotAllowedInThisTrackingArea | AR_EPSServicesNotAllowedInThisPLMN
          | AR_NoSuitableCellsInTrackingArea | AR_RequestedServiceOptionNotAuthorizedInThisPLMN => true
          | AR_Other => false
          end
      | EMMDetachRequestMT typ _ _ => negb (bool_decide (typ = IMSIDetach))
      | EMMAttachRequest _ _ => false
      | EMMServiceReject cause _ =>
          match cause with
          | SR_IllegalUE | SR_IllegalME | SR_EPSServicesNotAllowed
          | SR_UEIdentityCannotBeDerivedByTheNetwork | SR_TrackingAreaNotAllowed
          | SR_EPSServicesNotAllowedInThisPLMN
          | SR_RequestedServiceOptionNotAuthorizedInThisPLMN => true
          | SR_Other => false
          end
      | _ => false
      end
  | NAS_Other => false
  end.

Definition diagnostic_message_type (nas_msg : NASMessage) : rstr :=
  match nas_msg with
  | NAS_EMMMessage emm_msg =>
      match emm_msg with
      | EMMIdentityRequest _ debug => lit "EMM Identity Request (" ++ debug ++ lit ")"
      | EMMTrackingAreaUpdateReject _ debug => lit "EMM Tracking Area Update Reject (" ++ debug ++ lit ")"
      | EMMAttachReject _ debug => lit "EMM Attach Reject (" ++ debug ++ lit ")"
      | EMMDetachRequestMT _ type_debug cause_debug =>
          lit "EMM Detach Request (" ++ type_debug ++ lit ":" ++ cause_debug ++ lit ")"
      | EMMServiceReject _ debug => lit "EMM Service Reject (" ++ debug ++ lit ")"
      | EMMAttachRequest _ epsid_debug => lit "EPS Attach Request (" ++ epsid_debug ++ lit ")"
      | _ => lit "Unknown EMM Message"
      end
  | NAS_Other => lit "Unknown NAS Message"
  end.

Definition diagnostic_analyze {D : Decoders} (self : DiagnosticAnalyzer)
    (ie : InformationElement) (_packet_num _timestamp : Z) : DiagnosticAnalyzer * option Event :=
  match ie with
  | IE_LTE (IE_NAS nas_msg) =>
      if is_imsi_exposing_nas nas_msg
      then (self, Some {| event_type := Informational;
              message := lit "Diagnostic: " ++ diagnostic_message_type nas_msg ++ lit "." |})
      else (self, None)
  | _ => (self, None)
  end.

#[export] Instance Diagnostic_Analyzer {D : Decoders} : Analyzer DiagnosticAnalyzer := {|
  get_name := fun _ => lit "Diagnostic detector for messages which might lead to IMSI exposure";
  get_description := fun _ => lit "Catches any messages that may lead to IMSI Exposure. Can be quite noisy. Useful as a diagnostic for finding out why an IMSI was sent or what the reason for a reject message was. Not a useful indicator on its own but a helpful diagnostic for understanding why another indicator was triggered. Based on the list of IMSI exposing messages identified in the 'Marlin' paper.";
  analyze_information_element := diagnostic_analyze;
  report_skipped_packet := no_skipped_report;
  get_version := fun _ => 1
|}.

(** ** What the RRC messages offer

    Every place of a reconfiguration that names a ciphering algorithm, as a relation. *)

Inductive v1250_of (r8 : RRCConnectionReconfiguration_r8_IEs) (v1250 : RRCConnectionReconfiguration_v1250_IEs) : Prop :=
| v1250_chain v890 v920 v1020 v1130 :
    r8_ext r8 = Some v890 -> v890_ext v890 = Some v920 -> v920_ext v920 = Some v1020 ->
    v1020_ext v1020 = Some v1130 -> v1130_ext v1130 = Some v1250 -> v1250_of r8 v1250.

Inductive v1530_of (v1250 : RRCConnectionReconfiguration_v1250_IEs) (t : SecurityConfigHO_v1530HandoverType_v1530) : Prop :=
| v1530_chain v1310 v1430 v1510 v1530 :
    v1250_ext v1250 = Some v1310 -> v1310_ext v1310 = Some v1430 -> v1430_ext v1430 = Some v1510 ->
    v1510_ext v1510 = Some v1530 ->
    security_config_ho_v1530 v1530 = Some {| handover_type_v1530 := t |} -> v1530_of v1250 t.

Inductive offers : RRCConnectionReconfiguration_r8_IEs -> CipheringAlgorithm_r12 -> Prop :=
| offers_intra r8 cfg :
    security_config_ho r8 = Some {| handover_type := IntraLTE {| intra_security_algorithm_config := Some cfg |} |} ->
    offers r8 (ciphering_algorithm cfg)
| offers_inter r8 cfg :
    security_config_ho r8 = Some {| handover_type := InterRAT {| inter_security_algorithm_config := cfg |} |} ->
    offers r8 (ciphering_algorithm cfg)
| offers_scg r8 v1250 a :
    v1250_of r8 v1250 ->
    scg_configuration_r12 v1250 = Some (SCG_Setup {| scg_config_part_scg_r12 :=
      Some {| mobility_control_info_scg_r12 := Some {| ciphering_algorithm_scg_r12 := Some a |} |} |}) ->
    offers r8 a
| offers_intra5gc r8 v1250 cfg :
    v1250_of r8 v1250 ->
    v1530_of v1250 (Intra5GC {| intra5gc_security_algorithm_config_r15 := Some cfg |}) ->
    offers r8 (ciphering_algorithm cfg)
| offers_to_epc r8 v1250 cfg :
    v1250_of r8 v1250 ->
    v1530_of v1250 (Fivegc_ToEPC {| toepc_security_algorithm_config_r15 := cfg |}) ->
    offers r8 (ciphering_algorithm cfg)
| offers_to_5gc r8 v1250 cfg :
    v1250_of r8 v1250 ->
    v1530_of v1250 (Epc_To5GC {| to5gc_security_algorithm_config_r15 := cfg |}) ->
    offers r8 (ciphering_algorithm cfg).

Inductive dcch_offers : DL_DCCH_Message -> CipheringAlgorithm_r12 -> Prop :=
| dcch_reconfiguration r8 a :
    offers r8 a ->
    dcch_offers {| dcch_message := DCCH_C1 (DCCH_RrcConnectionReconfiguration
      {| reconf_critical_extensions := RrcReconf_C1 (RrcConnectionReconfiguration_r8 r8) |}) |} a
| dcch_security_mode cfg :
    dcch_offers {| dcch_message := DCCH_C1 (DCCH_SecurityModeCommand
      {| smc_critical_extensions := SMC_C1 (SecurityModeCommand_r8
           {| security_config_smc := {| smc_security_algorithm_config := cfg |} |}) |}) |}
      (ciphering_algorithm cfg).

(** ** Lemmas *)

Lemma is_eea0_spec c : is_eea0 c = true <-> c = EEA0.
Proof. apply Z.eqb_eq. Qed.

Lemma config_is_eea0_spec o :
  config_is_eea0 o = true <-> exists cfg, o = Some cfg /\ ciphering_algorithm cfg = EEA0.
Proof. destruct o as [c|]; simpl; rewrite ?is_eea0_spec; naive_solver. Qed.

(** The chains of [and_then]. *)
Definition get_v1250 (r8 : RRCConnectionReconfiguration_r8_IEs) : option RRCConnectionReconfiguration_v1250_IEs :=
  v890 ← r8_ext r8; v920 ← v890_ext v890; v1020 ← v920_ext v920; v1130 ← v1020_ext v1020;
  v1130_ext v1130.
Definition get_v1530 (v1250 : RRCConnectionReconfiguration_v1250_IEs) : option SecurityConfigHO_v1530 :=
  v1310 ← v1250_ext v1250; v1430 ← v1310_ext v1310; v1510 ← v1430_ext v1430;
  v1530 ← v1510_ext v1510; security_config_ho_v1530 v1530.

Lemma get_v1250_spec r8 v : get_v1250 r8 = Some v <-> v1250_of r8 v.
Proof.
  unfold get_v1250. split.
  - intros H. repeat (apply bind_Some in H as (? & ? & H)). by econstructor.
  - intros [? ? ? ? H1 H2 H3 H4 H5]. by rewrite H1; simpl; rewrite H2; simpl; rewrite H3; simpl; rewrite H4.
Qed.

Lemma get_v1530_spec v t : get_v1530 v = Some {| handover_type_v1530 := t |} <-> v1530_of v t.
Proof.
  unfold get_v1530. split.
  - intros H. repeat (apply bind_Some in H as (? & ? & H)). by econstructor.
  - intros [? ? ? ? H1 H2 H3 H4 H5]. by rewrite H1; simpl; rewrite H2; simpl; rewrite H3; simpl; rewrite H4.
Qed.

(** The three places in turn: handover, secondary cell group, handover of release 15. *)
Definition handover_config (r8 : RRCConnectionReconfiguration_r8_IEs) : option SecurityAlgorithmConfig :=
  handover ← security_config_ho r8;
  match handover_type handover with
  | IntraLTE lte => intra_security_algorithm_config lte
  | InterRAT rat => Some (inter_security_algorithm_config rat)
  end.
Definition scg_cipher (v1250 : RRCConnectionReconfiguration_v1250_IEs) : option CipheringAlgorithm_r12 :=
  match scg_configuration_r12 v1250 with
  | Some (SCG_Setup scg_setup) =>
      scg ← scg_config_part_scg_r12 scg_setup; mci ← mobility_control_info_scg_r12 scg;
      ciphering_algorithm_scg_r12 mci
  | _ => None
  end.
Definition v1530_config (t : SecurityConfigHO_v1530HandoverType_v1530) : option SecurityAlgorithmConfig :=
  match t with
  | Intra5GC i => intra5gc_security_algorithm_config_r15 i
  | Fivegc_ToEPC e => Some (toepc_security_algorithm_config_r15 e)
  | Epc_To5GC e => Some (to5gc_security_algorithm_config_r15 e)
  end.

Lemma scg_cipher_spec v a :
  scg_cipher v = Some a <->
  scg_configuration_r12 v = Some (SCG_Setup {| scg_config_part_scg_r12 :=
    Some {| mobility_control_info_scg_r12 := Some {| ciphering_algorithm_scg_r12 := Some a |} |} |}).
Proof.
  unfold scg_cipher. destruct (scg_configuration_r12 v) as [[|[[[[[c]|]]|]]]|]; simpl; naive_solver.
Qed.

Lemma offers_places r8 a :
  offers r8 a <->
  (exists cfg, handover_config r8 = Some cfg /\ ciphering_algorithm cfg = a) \/
  exists v, get_v1250 r8 = Some v /\
    (scg_cipher v = Some a \/
     exists t cfg, get_v1530 v = Some {| handover_type_v1530 := t |} /\ v1530_config t = Some cfg /\
       ciphering_algorithm cfg = a).
Proof.
  unfold handover_config. split.
  - destruct 1 as [r8 cfg H|r8 cfg H|r8 v b Hv H|r8 v cfg Hv H|r8 v cfg Hv H|r8 v cfg Hv H];
      [left; rewrite H; by exists cfg | left; rewrite H; by exists cfg | | | |];
      (right; exists v; split; [by apply get_v1250_spec|]);
      [by left; apply scg_cipher_spec | | |];
      (right; eexists _, cfg; split; [by apply get_v1530_spec | done]).
  - intros [(cfg & H & <-) | (v & Hv%get_v1250_spec & [H%scg_cipher_spec | (t & cfg & Ht%get_v1530_spec & Hc & <-)])].
    + destruct (security_config_ho r8) as [[[[o]|[c]]]|] eqn:E; simpl in H; simplify_eq;
        [by apply offers_intra | by apply offers_inter].
    + by eapply offers_scg.
    + destruct t as [[o]|[c]|[c]]; simpl in Hc; simplify_eq;
        [by eapply offers_intra5gc | by eapply offers_to_epc | by eapply offers_to_5gc].
Qed.

Lemma check_reconfiguration_offers r8 :
  check_rrc_connection_reconfiguration_cipher
    {| reconf_critical_extensions := RrcReconf_C1 (RrcConnectionReconfiguration_r8 r8) |} = true
  <-> offers r8 EEA0.
Proof.
  rewrite offers_places. unfold check_rrc_connection_reconfiguration_cipher. cbn [reconf_critical_extensions].
  fold (handover_config r8) (get_v1250 r8).
  destruct (config_is_eea0 (handover_config r8)) eqn:Hh.
  { apply config_is_eea0_spec in Hh as (cfg & ? & ?). naive_solver. }
  assert (Hno : ~ exists cfg, handover_config r8 = Some cfg /\ ciphering_algorithm cfg = EEA0).
  { intros (cfg & H). by rewrite (proj2 (config_is_eea0_spec _) (ex_intro _ cfg H)) in Hh. }
  destruct (get_v1250 r8) as [v|]; [|naive_solver].
  fold (scg_cipher v) (get_v1530 v).
  destruct (scg_cipher v) as [c|] eqn:Hs.
  - destruct (is_eea0 c) eqn:Hc; [apply is_eea0_spec in Hc; naive_solver|].
    assert (c <> EEA0) by (by rewrite <- is_eea0_spec, Hc).
    destruct (get_v1530 v) as [[t]|] eqn:Ht; [|naive_solver]. rewrite config_is_eea0_spec.
    fold (v1530_config t). naive_solver.
  - destruct (get_v1530 v) as [[t]|] eqn:Ht; [|naive_solver]. rewrite config_is_eea0_spec.
    fold (v1530_config t). naive_solver.
Qed.

Lemma null_cipher_dcch {D : Decoders} m n t :
  snd (null_cipher_analyze NullCipher_new (IE_LTE (IE_DlDcch m)) n t) =
    (if match dcch_message m with
        | DCCH_C1 (DCCH_RrcConnectionReconfiguration r) => check_rrc_connection_reconfiguration_cipher r
        | DCCH_C1 (DCCH_SecurityModeCommand c) => check_security_mode_command_cipher c
        | _ => false
        end
     then Some {| event_type := High; message := lit "Cell suggested use of null cipher" |} else None).
Proof. by destruct m as [[[]|]]. Qed.

Lemma dcch_offers_check m :
  match dcch_message m with
  | DCCH_C1 (DCCH_RrcConnectionReconfiguration r) => check_rrc_connection_reconfiguration_cipher r
  | DCCH_C1 (DCCH_SecurityModeCommand c) => check_security_mode_command_cipher c
  | _ => false
  end = true <-> dcch_offers m EEA0.
Proof.
  destruct m as [[[r|r|c|]|]]; cbn [dcch_message];
    try (split; [done | intros H; by inversion H]).
  - destruct r as [[[r8|]|]]; try (split; [done | intros H; by inversion H]).
    rewrite check_reconfiguration_offers. split; [apply dcch_reconfiguration | intros H; by inversion H].
  - destruct c as [[[[[cfg]]|]|]]; try (split; [done | intros H; by inversion H]).
    unfold check_security_mode_command_cipher. simpl. rewrite is_eea0_spec. split.
    + intros <-. apply dcch_security_mode.
    + intros H. by inversion H.
Qed.

Lemma test_analyzer_total {D : Decoders} self ie n t :
  (forall s, ie = IE_LTE (IE_BcchDlSch {| bcch_message := BCCH_C1 (BCCH_SystemInformationBlockType1 s) |}) ->
     sib1_sizes s) ->
  is_Some (test_analyzer_analyze self ie n t).
Proof.
  intros Hs. unfold test_analyzer_analyze.
  destruct ie as [| |[m|m|m|m|m|m|m|m|m|m|m|m|m|m|m|m]|]; try by eexists.
  destruct m as [[[s|s]|]]; try by eexists. destruct (Hs s eq_refl) as [Hne Hmcc].
  unfold sib1_text. destruct (plmn_identity_list _) as [|[[om mn]] l]; [done|].
  apply Forall_cons in Hmcc as [Hm _]. cbn [lookup list_lookup]. simpl.
  destruct om as [m|]; [|by eexists]. specialize (Hm m eq_refl).
  by destruct m as [|? [|? [|? []]]].
Qed.

(** ** Properties *)

(** The null cipher detector reads every place a downlink message can name a ciphering
    algorithm in: it raises its High warning exactly when the message, a security mode command or a
    reconfiguration (a handover within LTE or from another technology, a secondary cell group, a
    handover to, from or within a 5G core), offers EEA0, and says nothing of any other. *)
Theorem null_cipher_event_iff {D : Decoders} (ie : InformationElement) n t :
  (snd (null_cipher_analyze NullCipher_new ie n t)
     = Some {| event_type := High; message := lit "Cell suggested use of null cipher" |}
   <-> exists m, ie = IE_LTE (IE_DlDcch m) /\ dcch_offers m EEA0) /\
  (snd (null_cipher_analyze NullCipher_new ie n t) = None
   <-> ~ exists m, ie = IE_LTE (IE_DlDcch m) /\ dcch_offers m EEA0).
Proof.
  assert (Hgo : forall b (P : Prop), (b = true <-> P) ->
    snd (null_cipher_analyze NullCipher_new ie n t) =
      (if b : bool then Some {| event_type := High; message := lit "Cell suggested use of null cipher" |} else None) ->
    (snd (null_cipher_analyze NullCipher_new ie n t)
       = Some {| event_type := High; message := lit "Cell suggested use of null cipher" |} <-> P) /\
    (snd (null_cipher_analyze NullCipher_new ie n t) = None <-> ~ P)).
  { intros [] P HP ->; naive_solver. }
  destruct ie as [| |e|]; try (eapply (Hgo false); [split; [done | by intros (? & [=] & _)] | done]).
  destruct e as [x|m|x|x|x|x|x|x|x|x|x|x|x|x|x|x];
    try (eapply (Hgo false); [split; [done | by intros (? & [=] & _)] | done]).
  eapply Hgo; [|apply null_cipher_dcch]. rewrite dcch_offers_check. naive_solver.
Qed.
