(* ===== verification/Priority2g.v ===== *)
(** * Reselection priorities ([lib/src/analysis/priority_2g_downgrade.rs])

    The highest reselection priority a cell gives its LTE neighbours against the highest it
    gives 2G and 3G ones, judged when the next SIB1 arrives. *)

From S2P Require Import Prelude RustStr LteRrc InformationElement Analyzer.

Local Open Scope Z_scope.

Record LteSib6And7DowngradeAnalyzer := {
  lte_priority : option Z;
  legacy_priority : option Z
}.

Definition LteSib6And7_new : LteSib6And7DowngradeAnalyzer :=
  {| lte_priority := None; legacy_priority := None |}.

(** The derived order on [Option<u8>]: [None] is below every [Some]. *)
Definition opt_gt (a b : option Z) : bool :=
  match a, b with
  | None, _ => false
  | Some _, None => true
  | Some x, Some y => y <? x
  end.

(** [if Some(p) > self.priority { self.priority = Some(p) }]. *)
Definition raise (cur : option Z) (p : Z) : option Z := if opt_gt (Some p) cur then Some p else cur.
Definition raise_opt (cur p : option Z) : option Z := match p with Some p => raise cur p | None => cur end.

Definition unpack_system_information {D : Decoders} (ie : InformationElement)
    : option SystemInformation_r8_IEsSib_TypeAndInfo :=
  match ie with
  | IE_LTE (IE_BcchDlSch {| bcch_message := BCCH_C1 (BCCH_SystemInformation {|
      si_critical_extensions := SystemInformation_r8 sib |}) |}) => Some (sib_type_and_info sib)
  | _ => None
  end.

Definition priority_sib (self : LteSib6And7DowngradeAnalyzer)
    (sib : SystemInformation_r8_IEsSib_TypeAndInfo_Entry) : LteSib6And7DowngradeAnalyzer :=
  let with_lte p := {| lte_priority := p; legacy_priority := legacy_priority self |} in
  let with_legacy p := {| lte_priority := lte_priority self; legacy_priority := p |} in
  match sib with
  | Sib3 sib3 =>
      with_lte (raise (lte_priority self)
        (serving_cell_reselection_priority (cell_reselection_serving_freq_info sib3)))
  | Sib5 sib5 =>
      with_lte (fold_left (fun cur carrier_freq => raise_opt cur (inter_cell_reselection_priority carrier_freq))
        (inter_freq_carrier_freq_list sib5) (lte_priority self))
  | Sib6 sib6 =>
      let after_fdd :=
        match carrier_freq_list_utra_fdd sib6 with
        | Some carrier_info_list =>
            fold_left (fun cur carrier_info => raise_opt cur (fdd_cell_reselection_priority carrier_info))
              carrier_info_list (legacy_priority self)
        | None => legacy_priority self
        end in
      with_legacy
        match carrier_freq_list_utra_tdd sib6 with
        | Some carrier_info_list =>
            fold_left (fun cur carrier_info => raise_opt cur (tdd_cell_reselection_priority carrier_info))
              carrier_info_list after_fdd
        | None => after_fdd
        end
  | Sib7 {| carrier_freqs_info_list := Some carrier_info_list |} =>
      with_legacy (fold_left
        (fun cur carrier_info => raise_opt cur (geran_cell_reselection_priority (common_info carrier_info)))
        carrier_info_list (legacy_priority self))
  | _ => self
  end.

(** [{:?}] of an [Option<u8>]. *)
Definition debug_opt (o : option Z) : rstr :=
  match o with Some p => lit "Some(" ++ dec p ++ lit ")" | None => lit "None" end.

Definition priority_flag (self : LteSib6And7DowngradeAnalyzer) : option Event :=
  if opt_gt (legacy_priority self) (lte_priority self) then
    match lte_priority self with
    | None => Some {| event_type := Informational;
        message := lit "LTE cell advertised a legacy (3G/2G) neighbors but no LTE neighbors" |}
    | Some _ =>
        legacy ← legacy_priority self;
        Some {| event_type := High;
          message := lit "LTE cell advertised a legacy (3G/2G) cell for priority " ++ dec legacy
            ++ lit " reselection over LTE neighbors at priority " ++ debug_opt (lte_priority self) |}
    end
  else None.

Definition priority_analyze {D : Decoders} (self : LteSib6And7DowngradeAnalyzer)
    (ie : InformationElement) (_packet_num _timestamp : Z) : LteSib6And7DowngradeAnalyzer * option Event :=
  match ie with
  | IE_LTE (IE_BcchDlSch {| bcch_message := BCCH_C1 (BCCH_SystemInformationBlockType1 _) |}) =>
      (LteSib6And7_new, priority_flag self)
  | _ =>
      match unpack_system_information ie with
      | None => (self, None)
      | Some sibs => (fold_left priority_sib sibs self, None)
      end
  end.

#[export] Instance LteSib6And7_Analyzer {D : Decoders} : Analyzer LteSib6And7DowngradeAnalyzer := {|
  get_name := fun _ => lit "LTE SIB 6/7 Downgrade";
  get_description := fun _ => lit "Tests for LTE cells broadcasting a SIB type 6 and 7 which include 2G/3G frequencies with higher priorities.";
  analyze_information_element := priority_analyze;
  report_skipped_packet := no_skipped_report;
  get_version := fun _ => 2
|}.

(** ** What a recording broadcast

    The priorities of one block, as lists, and of everything since the last SIB1. *)

Definition lte_offers (sib : SystemInformation_r8_IEsSib_TypeAndInfo_Entry) : list Z :=
  match sib with
  | Sib3 s => [serving_cell_reselection_priority (cell_reselection_serving_freq_info s)]
  | Sib5 s => omap inter_cell_reselection_priority (inter_freq_carrier_freq_list s)
  | _ => []
  end.
Definition legacy_offers (sib : SystemInformation_r8_IEsSib_TypeAndInfo_Entry) : list Z :=
  match sib with
  | Sib6 s => omap fdd_cell_reselection_priority (default [] (carrier_freq_list_utra_fdd s))
              ++ omap tdd_cell_reselection_priority (default [] (carrier_freq_list_utra_tdd s))
  | Sib7 s => omap (fun c => geran_cell_reselection_priority (common_info c))
                (default [] (carrier_freqs_info_list s))
  | _ => []
  end.

Definition is_sib1 {D : Decoders} (ie : InformationElement) : bool :=
  match ie with
  | IE_LTE (IE_BcchDlSch {| bcch_message := BCCH_C1 (BCCH_SystemInformationBlockType1 _) |}) => true
  | _ => false
  end.

(** The blocks broadcast since the last SIB1 of a recording. *)
Definition since_sib1_step {D : Decoders} (acc : list SystemInformation_r8_IEsSib_TypeAndInfo_Entry)
    (ie : InformationElement) : list SystemInformation_r8_IEsSib_TypeAndInfo_Entry :=
  if is_sib1 ie then [] else acc ++ default [] (unpack_system_information ie).
Definition since_sib1 {D : Decoders} (l : list InformationElement) : list SystemInformation_r8_IEsSib_TypeAndInfo_Entry :=
  fold_left since_sib1_step l [].

Definition priority_run {D : Decoders} (l : list InformationElement) : LteSib6And7DowngradeAnalyzer :=
  fold_left (fun s ie => fst (priority_analyze s ie 0 0)) l LteSib6And7_new.

(** ** Lemmas *)

(** [o] is the greatest element of [l]. *)
Definition greatest (l : list Z) (o : option Z) : Prop :=
  match o with
  | None => l = []
  | Some m => m ∈ l /\ forall x, x ∈ l -> x <= m
  end.

Lemma greatest_raise l cur p : greatest l cur -> greatest (l ++ [p]) (raise cur p).
Proof.
  unfold raise. destruct cur as [m|]; simpl.
  - intros [Hin Hmax]. destruct (Z.ltb_spec m p); simpl; split.
    + set_solver.
    + intros x [Hx|Hx]%elem_of_app; [specialize (Hmax x Hx); lia|]. set_unfold. lia.
    + set_solver.
    + intros x [Hx|Hx]%elem_of_app; [auto|]. set_unfold. lia.
  - intros ->. simpl. split; [set_solver|]. intros x Hx. set_unfold. lia.
Qed.

Lemma greatest_fold {A} (f : A -> option Z) (xs : list A) l cur :
  greatest l cur -> greatest (l ++ omap f xs) (fold_left (fun cur x => raise_opt cur (f x)) xs cur).
Proof.
  revert l cur. induction xs as [|x xs IH]; intros l cur H; simpl; [by rewrite app_nil_r|].
  destruct (f x) as [p|]; simpl; [|by apply IH].
  rewrite cons_middle, app_assoc. by apply IH, greatest_raise.
Qed.

Lemma greatest_unique l o o' : greatest l o -> greatest l o' -> o = o'.
Proof.
  destruct o as [m|], o' as [m'|]; simpl; try done.
  - intros [H1 H2] [H3 H4]. f_equal. specialize (H2 _ H3). specialize (H4 _ H1). lia.
  - intros [H _] ->. by apply elem_of_nil in H.
  - intros -> [H _]. by apply elem_of_nil in H.
Qed.

Definition priority_inv (blocks : list SystemInformation_r8_IEsSib_TypeAndInfo_Entry)
    (s : LteSib6And7DowngradeAnalyzer) : Prop :=
  greatest (flat_map lte_offers blocks) (lte_priority s) /\
  greatest (flat_map legacy_offers blocks) (legacy_priority s).

Lemma priority_sib_inv blocks s sib :
  priority_inv blocks s -> priority_inv (blocks ++ [sib]) (priority_sib s sib).
Proof.
  intros [Hl Hg]. unfold priority_inv. rewrite !flat_map_app. cbn [flat_map]. rewrite !app_nil_r.
  destruct sib as [s3|s5|s6|[[c|]]|]; cbn [lte_offers legacy_offers priority_sib]; cbn [lte_priority legacy_priority];
    rewrite ?app_nil_r; (split; [try done | try done]).
  - by apply greatest_raise.
  - by apply greatest_fold.
  - rewrite (app_assoc (flat_map legacy_offers blocks)).
    assert (Hstep : forall {A} (f : A -> option Z) (o : option (list A)) l cur, greatest l cur ->
      greatest (l ++ omap f (default [] o))
        (match o with Some xs => fold_left (fun cur x => raise_opt cur (f x)) xs cur | None => cur end)).
    { intros A f [xs|] l cur H; [by apply greatest_fold | by rewrite app_nil_r]. }
    by apply Hstep, Hstep.
  - by apply (greatest_fold (fun c => geran_cell_reselection_priority (common_info c))).
Qed.

Lemma priority_sibs_inv sibs blocks s :
  priority_inv blocks s -> priority_inv (blocks ++ sibs) (fold_left priority_sib sibs s).
Proof.
  revert blocks s. induction sibs as [|sib sibs IH]; intros blocks s H; simpl; [by rewrite app_nil_r|].
  rewrite cons_middle, app_assoc. by apply IH, priority_sib_inv.
Qed.

Lemma priority_analyze_eq {D : Decoders} s ie n t :
  priority_analyze s ie n t =
  if is_sib1 ie then (LteSib6And7_new, priority_flag s)
  else (fold_left priority_sib (default [] (unpack_system_information ie)) s, None).
Proof.
  destruct ie as [| |[m|m|m|m|m|m|m|m|m|m|m|m|m|m|m|m]|]; try done.
  by destruct m as [[[[[si|]]|si]|]].
Qed.

Lemma priority_run_inv {D : Decoders} (l : list InformationElement) : priority_inv (since_sib1 l) (priority_run l).
Proof.
  induction l as [|ie l IH] using rev_ind; [done|].
  unfold priority_run, since_sib1 in *. rewrite !fold_left_app. cbn [fold_left].
  unfold since_sib1_step at 1. rewrite priority_analyze_eq.
  destruct (is_sib1 ie); [done|]. by apply priority_sibs_inv.
Qed.

(** ** Properties *)

(** What a cell is judged by.  After any recording, the detector speaks only when a SIB1 arrives,
    and then of the blocks broadcast since the SIB1 before it: it raises High exactly when some
    2G or 3G frequency in them has a higher priority than every LTE one, of which there is at
    least one; it notes a cell with 2G or 3G neighbours and no LTE priority at all as
    informational; and is silent otherwise. *)
Theorem priority_event_spec {D : Decoders} (l : list InformationElement) ie n t :
  let lte := flat_map lte_offers (since_sib1 l) in
  let legacy := flat_map legacy_offers (since_sib1 l) in
  option_map event_type (snd (priority_analyze (priority_run l) ie n t)) =
    if is_sib1 ie then
      match legacy, lte with
      | [], _ => None
      | _, [] => Some Informational
      | _, _ => if existsb (fun g => forallb (fun p => p <? g) lte) legacy then Some High else None
      end
    else None.
Proof.
  intros lte legacy. rewrite priority_analyze_eq. destruct (is_sib1 ie); [cbn [snd]|done].
  destruct (priority_run_inv l) as [Hl Hg]. fold lte in Hl. fold legacy in Hg.
  unfold priority_flag. destruct (legacy_priority _) as [g|]; cbn [greatest opt_gt] in *.
  2:{ by rewrite Hg. }
  destruct Hg as [Hgin Hgmax]. destruct (lte_priority _) as [p|]; cbn [greatest] in Hl.
  - destruct Hl as [Hpin Hpmax].
    assert (Hex : existsb (fun g => forallb (fun p => p <? g) lte) legacy = (p <? g)).
    { apply eq_true_iff_eq. rewrite existsb_exists, Z.ltb_lt. setoid_rewrite forallb_forall. split.
      - intros (x & Hx%list_elem_of_In & Hall). specialize (Hall p (proj1 (list_elem_of_In _ _) Hpin)).
        specialize (Hgmax x Hx). zbool. lia.
      - intros Hlt. exists g. split; [by apply list_elem_of_In|]. intros x Hx%list_elem_of_In.
        specialize (Hpmax x Hx). zbool. lia. }
    rewrite <- Hex. destruct legacy as [|? ?]; [by apply elem_of_nil in Hgin|].
    destruct lte as [|? ?]; [by apply elem_of_nil in Hpin|]. by destruct (existsb _ _).
  - rewrite Hl. by destruct legacy as [|? ?]; [apply elem_of_nil in Hgin|].
Qed.

(** A cell that puts GERAN at priority 7 and its own LTE frequency at 3. *)
Section example.
Let D : Decoders := nas_decoders (fun _ => Ok NAS_Other).
Definition sib1_ie : @InformationElement D := IE_LTE (IE_BcchDlSch {| bcch_message :=
  BCCH_C1 (BCCH_SystemInformationBlockType1 {| cell_access_related_info :=
    {| plmn_identity_list := []; tracking_area_code := []; cell_identity := [] |};
    scheduling_info_list := [] |}) |}).
Definition blocks_ie (l : list SystemInformation_r8_IEsSib_TypeAndInfo_Entry) : @InformationElement D :=
  IE_LTE (IE_BcchDlSch {| bcch_message := BCCH_C1 (BCCH_SystemInformation
    {| si_critical_extensions := SystemInformation_r8 {| sib_type_and_info := l |} |}) |}).

Example priority_downgrade :
  option_map event_type (snd (priority_analyze (priority_run
    [sib1_ie;
     blocks_ie [Sib3 {| cell_reselection_serving_freq_info := {| serving_cell_reselection_priority := 3 |} |};
                Sib7 {| carrier_freqs_info_list := Some
                  [{| common_info := {| geran_cell_reselection_priority := Some 7 |} |}] |}]]) sib1_ie 0 0))
  = Some High.
Proof. reflexivity. Qed.
End example.
