(* ===== verification/Rrlp.v ===== *)
(** * RRLP location requests ([lib/src/analysis/rrlp.rs])

    2G positioning: the transport header of an APPLICATION INFORMATION message and the front
    of the RRLP APDU in it. *)

From S2P Require Import Prelude RustStr Gsmtap InformationElement Analyzer.

Local Open Scope Z_scope.

Definition PD_RR : Z := 0x06.
Definition MT_APPLICATION_INFORMATION : Z := 0x38.
Definition APDU_ID_RRLP : Z := 0x00.

Inductive RrlpComponent :=
| MeasurePositionRequest
| MeasurePositionResponse
| AssistanceData
| AssistanceDataAck
| ProtocolError
| RrlpOther.

Record RrlpApdu := { reference_number : Z; component : RrlpComponent }.

Definition decode_rrlp_apdu (bytes : list Z) : option RrlpApdu :=
  first ← head bytes;
  let reference_number := Z.shiftr first 5 in
  let is_extension := Z.land (Z.shiftr first 4) 1 =? 1 in
  let index := Z.land (Z.shiftr first 1) 7 in
  let component :=
    if is_extension then RrlpOther
    else if index =? 0 then MeasurePositionRequest
    else if index =? 1 then MeasurePositionResponse
    else if index =? 2 then AssistanceData
    else if index =? 3 then AssistanceDataAck
    else if index =? 4 then ProtocolError
    else RrlpOther in
  Some {| reference_number := reference_number; component := component |}.

(** [l3.get(start..end)]. *)
Definition get_range (l : list Z) (start stop : nat) : option (list Z) :=
  if (start <=? stop)%nat && (stop <=? length l)%nat then Some (take (stop - start) (drop start l)) else None.

Definition rrlp_apdu_from_application_information (l3 : list Z) : option (list Z) :=
  o1 ← l3 !! 0%nat;
  if negb (Z.land o1 0x0f =? PD_RR) then None
  else
    o2 ← l3 !! 1%nat;
    if negb (o2 =? MT_APPLICATION_INFORMATION) then None
    else
      o3 ← l3 !! 2%nat;
      if negb (Z.land o3 0x0f =? APDU_ID_RRLP) then None
      else
        length_ ← l3 !! 3%nat;
        let start := 4%nat in
        let stop := (start + Z.to_nat length_)%nat in
        get_range l3 start stop.

Inductive RrlpLocationAnalyzer := RrlpLocation_new.

Definition rrlp_event (c : RrlpComponent) : Event :=
  match c with
  | MeasurePositionRequest => {| event_type := Low;
      message := lit "Network requested this device's location over RRLP (2G positioning)" |}
  | MeasurePositionResponse => {| event_type := Low;
      message := lit "This device reported its position to the network over RRLP (2G)" |}
  | AssistanceData => {| event_type := Informational;
      message := lit "RRLP assistance data (2G positioning help)" |}
  | AssistanceDataAck => {| event_type := Informational;
      message := lit "RRLP assistance data acknowledged (2G)" |}
  | ProtocolError => {| event_type := Informational;
      message := lit "RRLP protocol error (2G positioning)" |}
  | RrlpOther => {| event_type := Informational; message := lit "RRLP positioning message (2G)" |}
  end.

Definition rrlp_analyze {D : Decoders} (self : RrlpLocationAnalyzer) (ie : InformationElement)
    (_packet_num _timestamp : Z) : RrlpLocationAnalyzer * option Event :=
  match ie with
  | IE_GSM gsm =>
      (self,
        apdu_bytes ← rrlp_apdu_from_application_information (gsm_bytes gsm);
        apdu ← decode_rrlp_apdu apdu_bytes;
        Some (rrlp_event (component apdu)))
  | _ => (self, None)
  end.

#[export] Instance Rrlp_Analyzer {D : Decoders} : Analyzer RrlpLocationAnalyzer := {|
  get_name := fun _ => lit "RRLP Location Request";
  get_description := fun _ => lit "Watches 2G (GSM) signalling for the network asking this device to measure and report its own position over RRLP, the older cousin of LPP, and for the device's answers. A request or a position report warns at low severity; assistance data and acknowledgements are informational. Legitimate on emergency calls and some location-based services.";
  analyze_information_element := rrlp_analyze;
  report_skipped_packet := no_skipped_report;
  get_version := fun _ => 1
|}.

(** ** The frames it recognises *)

(** An APPLICATION INFORMATION frame: skip indicator, APDU flags, the APDU's bytes and anything
    after them. *)
Definition application_information (skip flags : Z) (apdu rest : list Z) : list Z :=
  [16 * skip + PD_RR; MT_APPLICATION_INFORMATION; 16 * flags + APDU_ID_RRLP; Z.of_nat (length apdu)]
  ++ apdu ++ rest.

(** The first byte of an APDU: reference number, extension bit, alternative, and one bit of body. *)
Definition apdu_front (ref ext index bit : Z) : Z := 32 * ref + 16 * ext + 2 * index + bit.

Definition component_of (ext index : Z) : RrlpComponent :=
  if ext =? 1 then RrlpOther
  else nth (Z.to_nat index)
    [MeasurePositionRequest; MeasurePositionResponse; AssistanceData; AssistanceDataAck; ProtocolError]
    RrlpOther.

(** ** Lemmas *)

Lemma land_15 b : Z.land b 15 = b mod 16.
Proof. apply (Z.land_ones b 4). lia. Qed.

Lemma get_range_app (a l r : list Z) n : length a = n -> get_range (a ++ l ++ r) n (n + length l) = Some l.
Proof.
  intros <-. unfold get_range. rewrite !length_app.
  rewrite (proj2 (Nat.leb_le _ _)) by lia. rewrite (proj2 (Nat.leb_le _ _)) by lia. cbn [andb].
  rewrite drop_app_length. f_equal. replace (length a + length l - length a)%nat with (length l) by lia.
  by rewrite take_app_length.
Qed.

Lemma application_information_read skip flags apdu rest :
  rrlp_apdu_from_application_information (application_information skip flags apdu rest) = Some apdu.
Proof.
  unfold application_information, rrlp_apdu_from_application_information, PD_RR, APDU_ID_RRLP.
  cbn [app lookup list_lookup]. simpl mbind. cbn beta.
  rewrite land_15, (Z.mul_comm 16 skip), Z.add_comm, Z_mod_plus_full. cbn [negb Z.eqb Z.modulo].
  simpl. rewrite land_15, (Z.mul_comm 16 flags), Z.add_comm, Z_mod_plus_full. simpl.
  rewrite Nat2Z.id. apply (get_range_app [_; _; _; _] apdu rest 4). done.
Qed.

Lemma application_information_inv l3 apdu :
  bytes_ok l3 -> rrlp_apdu_from_application_information l3 = Some apdu ->
  exists skip flags rest, 0 <= skip < 16 /\ 0 <= flags < 16 /\ l3 = application_information skip flags apdu rest.
Proof.
  intros Hb. unfold rrlp_apdu_from_application_information.
  destruct l3 as [|o1 l3]; [done|]. simpl. case_match eqn:H1; [done|].
  destruct l3 as [|o2 l3]; [done|]. simpl. case_match eqn:H2; [done|].
  destruct l3 as [|o3 l3]; [done|]. simpl. case_match eqn:H3; [done|].
  destruct l3 as [|o4 l3]; [done|]. simpl. unfold get_range. case_match eqn:H4; [|done].
  intros [= <-]. unfold PD_RR, APDU_ID_RRLP in *. rewrite land_15 in H1, H3.
  repeat (apply Forall_cons in Hb as [? Hb]). unfold in_u in *. zbool. simpl in H4.
  exists (o1 / 16), (o3 / 16), (drop (Z.to_nat o4) l3).
  split; [dlia|]. split; [dlia|]. unfold application_information, PD_RR, APDU_ID_RRLP.
  match goal with H : (_ <=? _)%nat = true |- _ => apply Nat.leb_le in H; simpl in H end.
  rewrite drop_0. replace (Z.to_nat o4 - 0)%nat with (Z.to_nat o4) by lia. rewrite length_take, app_assoc.
  cbn [app]. rewrite take_drop.
  cons_eq ltac:(dlia).
Qed.

#[export] Instance RrlpComponent_eq_dec : EqDecision RrlpComponent.
Proof. solve_decision. Defined.
#[export] Instance RrlpApdu_eq_dec : EqDecision RrlpApdu.
Proof. solve_decision. Defined.

(** The bit arithmetic of the first byte, for each of the 256 bytes. *)
Definition front_ok (first : Z) : bool :=
  bool_decide (decode_rrlp_apdu [first] = Some {| reference_number := first / 32;
    component := component_of ((first / 16) mod 2) ((first / 2) mod 8) |}).

Lemma decode_front first tail :
  in_u 8 first ->
  decode_rrlp_apdu (first :: tail) = Some {| reference_number := first / 32;
    component := component_of ((first / 16) mod 2) ((first / 2) mod 8) |}.
Proof.
  intros Hf. change (decode_rrlp_apdu (first :: tail)) with (decode_rrlp_apdu [first]).
  apply (bool_decide_eq_true_1 _), (byte_cases front_ok); [|done]. vm_compute. reflexivity.
Qed.

(** ** Properties *)

(** What the detector sees in a 2G frame.  It has an event exactly for the APPLICATION INFORMATION
    frames that carry a non-empty RRLP APDU, whatever the skip indicator, the APDU flags and the
    bytes after the APDU, and the event is the one of the component the APDU's first byte names:
    a position request or response warns, everything else is informational. *)
Theorem rrlp_event_iff {D : Decoders} channel l3 n t e :
  bytes_ok l3 ->
  snd (rrlp_analyze RrlpLocation_new (IE_GSM {| channel := channel; gsm_bytes := l3 |}) n t) = Some e <->
  exists skip flags first tail rest,
    0 <= skip < 16 /\ 0 <= flags < 16 /\
    l3 = application_information skip flags (first :: tail) rest /\
    e = rrlp_event (component_of ((first / 16) mod 2) ((first / 2) mod 8)).
Proof.
  intros Hb. unfold rrlp_analyze. cbn [snd gsm_bytes]. split.
  - intros (apdu & Hapdu & (a & Hd & [= <-])%bind_Some)%bind_Some.
    destruct (application_information_inv l3 apdu Hb Hapdu) as (skip & flags & rest & Hs & Hf & ->).
    destruct apdu as [|first tail]; [done|].
    assert (Hfirst : in_u 8 first).
    { apply Forall_app in Hb as [_ Hb]. by apply Forall_cons in Hb as [? _]. }
    rewrite decode_front in Hd by done. injection Hd as <-. by exists skip, flags, first, tail, rest.
  - intros (skip & flags & first & tail & rest & Hs & Hf & -> & ->).
    assert (Hfirst : in_u 8 first).
    { apply Forall_app in Hb as [_ Hb]. by apply Forall_cons in Hb as [? _]. }
    apply bind_Some. eexists. split; [apply application_information_read|].
    apply bind_Some. eexists. split; [by apply decode_front | done].
Qed.

Lemma rrlp_event_iff_witness :
  snd (@rrlp_analyze (nas_decoders (fun _ => Ok NAS_Other)) RrlpLocation_new
    (IE_GSM {| channel := Um_Bcch; gsm_bytes := [0x06; 0x38; 0x00; 0x02; 0x40; 0x01] |}) 1 2)
  = Some (rrlp_event MeasurePositionRequest).
Proof.
  apply rrlp_event_iff; [apply bytes_okb; reflexivity|].
  exists 0, 0, 0x40, [0x01], []. repeat split; reflexivity || lia.
Defined.
