(* ===== verification/LppGrammar.v ===== *)
(** * The LPP layout as a grammar

    What a bit string must look like for the decoders of [Lpp.v] to read it, and the theorems
    that they read exactly that.  [decodes rd P] says the reader [rd] accepts exactly the bit
    strings [P] relates to its result; it is established combinator by combinator. *)

From S2P Require Import Prelude Lpp.

Local Open Scope Z_scope.
Local Open Scope reader_scope.

(** ** Bytes as bits *)

Definition byte_bits (b : Z) : list bool := map (fun i => Z.testbit b (7 - i)) (seqZ 0 8).
Definition bits_of (l : list Z) : list bool := flat_map byte_bits l.

(** The bits a reader has left. *)
Definition src (r : BitReader) : list bool := drop (position r) (bits_of (bytes r)).

Lemma byte_bits_eq b : byte_bits b =
  [Z.testbit b 7; Z.testbit b 6; Z.testbit b 5; Z.testbit b 4;
   Z.testbit b 3; Z.testbit b 2; Z.testbit b 1; Z.testbit b 0].
Proof. reflexivity. Qed.

Lemma land_one_eqb b k : (Z.land (Z.shiftr b k) 1 =? 1) = Z.testbit b k.
Proof.
  rewrite <- Z.add_0_l with (n := k) at 2. rewrite <- Z.shiftr_spec by lia.
  rewrite (Z.land_ones _ 1) by lia. rewrite Z.bit0_odd, Zmod_odd. by destruct (Z.odd _).
Qed.

Lemma lookup_bits_of l n :
  bits_of l !! n = match l !! (n / 8)%nat with
    | Some b => Some (Z.testbit b (Z.of_nat (7 - n mod 8)))
    | None => None
    end.
Proof.
  revert n. induction l as [|b l IH]; intros n; [done|].
  cbn [bits_of flat_map]. rewrite byte_bits_eq. destruct (decide (n < 8)%nat) as [Hn|Hn].
  - rewrite Nat.div_small, Nat.mod_small by done.
    do 8 (destruct n as [|n]; [reflexivity|]). lia.
  - replace n with (8 + (n - 8))%nat at 1 by lia. rewrite lookup_app_r by (simpl; lia).
    replace (8 + (n - 8) - length _)%nat with (n - 8)%nat by (simpl; lia).
    change (flat_map byte_bits l) with (bits_of l). rewrite IH.
    assert (Hdiv : (n / 8 = S ((n - 8) / 8))%nat).
    { replace n with ((n - 8) + 1 * 8)%nat at 1 by lia. rewrite Nat.div_add; lia. }
    assert (Hmod : (n mod 8 = (n - 8) mod 8)%nat).
    { replace n with ((n - 8) + 1 * 8)%nat at 1 by lia. by rewrite Nat.Div0.mod_add. }
    by rewrite Hdiv, Hmod.
Qed.

Lemma bit_spec r :
  bit r = match src r with
    | [] => None
    | b :: _ => Some (b, {| bytes := bytes r; position := S (position r) |})
    end.
Proof.
  unfold bit, src. pose proof (lookup_bits_of (bytes r) (position r)) as H.
  destruct (bytes r !! (position r / 8)%nat) as [byte|].
  - apply drop_S in H. rewrite H. by rewrite land_one_eqb.
  - apply lookup_ge_None_1 in H. by rewrite drop_ge.
Qed.

Lemma src_S r b rest :
  src r = b :: rest -> src {| bytes := bytes r; position := S (position r) |} = rest.
Proof.
  unfold src. cbn [bytes position]. intros H. rewrite <- Nat.add_1_r, <- drop_drop. by rewrite H.
Qed.

(** ** Readers and languages *)

Definition language (A : Type) : Type := A -> list bool -> Prop.

Definition decodes {A} (rd : Reader A) (P : language A) : Prop :=
  (forall r a r', rd r = Some (a, r') -> exists e, P a e /\ src r = e ++ src r') /\
  (forall r a e rest, P a e -> src r = e ++ rest -> exists r', rd r = Some (a, r') /\ src r' = rest).

Lemma decodes_bit : decodes bit (fun b e => e = [b]).
Proof.
  split.
  - intros r a r'. rewrite bit_spec. destruct (src r) as [|b rest] eqn:E; [done|].
    intros [= <- <-]. exists [b]. by rewrite (src_S r b rest E).
  - intros r a e rest -> E. rewrite bit_spec, E. eexists. split; [done|]. by eapply src_S.
Qed.

Lemma decodes_ret {A} (a : A) : decodes (rret a) (fun a' e => a' = a /\ e = []).
Proof.
  split.
  - intros r a' r' [= <- <-]. by exists [].
  - intros r a' e rest [-> ->] E. by exists r.
Qed.

Lemma decodes_fail {A} : decodes (@rfail A) (fun _ _ => False).
Proof. by split. Qed.

Lemma decodes_bind {A B} (m : Reader A) (f : A -> Reader B) P Q :
  decodes m P -> (forall a, decodes (f a) (Q a)) ->
  decodes (rbind m f) (fun b e => exists a e1 e2, P a e1 /\ Q a b e2 /\ e = e1 ++ e2).
Proof.
  intros [Hm1 Hm2] Hf. split.
  - intros r b r'. unfold rbind. destruct (m r) as [[a r1]|] eqn:E; [|done]. intros H.
    destruct (Hm1 r a r1 E) as (e1 & HP & H1). destruct (proj1 (Hf a) r1 b r' H) as (e2 & HQ & H2).
    exists (e1 ++ e2). split; [by exists a, e1, e2|]. by rewrite H1, H2, app_assoc.
  - intros r b e rest (a & e1 & e2 & HP & HQ & ->) E. rewrite <- app_assoc in E.
    destruct (Hm2 r a e1 _ HP E) as (r1 & H1 & E1). destruct (proj2 (Hf a) r1 b e2 rest HQ E1) as (r2 & H2 & E2).
    exists r2. unfold rbind. by rewrite H1.
Qed.

Lemma decodes_iff {A} (m : Reader A) P Q :
  decodes m P -> (forall a e, P a e <-> Q a e) -> decodes m Q.
Proof.
  intros [H1 H2] HPQ. split.
  - intros r a r' H. destruct (H1 r a r' H) as (e & HP & E). exists e. by rewrite <- HPQ.
  - intros r a e rest HQ. by apply H2, HPQ.
Qed.

(** A number of [n] bits, most significant first. *)
Definition bits_value (e : list bool) : Z := fold_left (fun v b => 2 * v + Z.b2z b) e 0.
Definition number (n : nat) : language Z := fun v e => length e = n /\ bits_value e = v.

Lemma bits_fold_range e v : 0 <= v ->
  v * 2 ^ Z.of_nat (length e) <= fold_left (fun v b => 2 * v + Z.b2z b) e v
    < (v + 1) * 2 ^ Z.of_nat (length e).
Proof.
  revert v. induction e as [|b e IH]; intros v Hv; simpl length; cbn [fold_left]; [simpl; lia|].
  rewrite Nat2Z.inj_succ, Z.pow_succ_r by lia.
  assert (Hb : 0 <= Z.b2z b <= 1) by (destruct b; simpl; lia).
  specialize (IH (2 * v + Z.b2z b)). nia.
Qed.

Lemma number_range n v e : number n v e -> 0 <= v < 2 ^ Z.of_nat n.
Proof. intros [<- <-]. pose proof (bits_fold_range e 0). unfold bits_value. lia. Qed.

Lemma decodes_bits_loop value n :
  0 <= value ->
  decodes (bits_loop value n)
    (fun v e => length e = n /\ v = fold_left (fun v b => 2 * v + Z.b2z b) e value).
Proof.
  revert value. induction n as [|n IH]; intros value Hv; cbn [bits_loop].
  - eapply decodes_iff; [apply decodes_ret|]. intros v e. split.
    + by intros [-> ->].
    + by intros [->%nil_length_inv ->].
  - assert (Hlor : forall b, Z.lor (Z.shiftl value 1) (Z.b2z b) = 2 * value + Z.b2z b).
    { intros b. rewrite lor_shiftl by (destruct b; simpl; lia). lia. }
    eapply decodes_iff.
    + eapply decodes_bind; [apply decodes_bit|]. intros b. apply IH. rewrite Hlor.
      destruct b; simpl; lia.
    + intros v e. cbn beta. split.
      * intros (b & e1 & e2 & -> & [Hl ->] & ->). by rewrite Hlor, <- Hl.
      * intros [Hl ->]. destruct e as [|b e]; [done|]. exists b, [b], e.
        split; [done|]. rewrite Hlor. by injection Hl as Hl.
Qed.

Lemma decodes_bits n : decodes (bits n) (number n).
Proof.
  eapply decodes_iff; [by apply decodes_bits_loop|]. intros v e. unfold number, bits_value. naive_solver.
Qed.

(** The encoding of a number. *)
Fixpoint to_bits (n : nat) (v : Z) : list bool :=
  match n with O => [] | S n' => to_bits n' (v / 2) ++ [Z.odd v] end.

Lemma bits_value_snoc e b : bits_value (e ++ [b]) = 2 * bits_value e + Z.b2z b.
Proof. unfold bits_value. by rewrite fold_left_app. Qed.

Lemma number_to_bits n v e : number n v e <-> 0 <= v < 2 ^ Z.of_nat n /\ e = to_bits n v.
Proof.
  split.
  - intros H. split; [by eapply number_range|]. destruct H as [<- <-].
    induction e as [|b e IH] using rev_ind; [done|].
    rewrite length_app, bits_value_snoc, Nat.add_1_r. cbn [to_bits]. f_equal.
    + rewrite IH at 1. f_equal. rewrite (Z.mul_comm 2), Z.div_add_l by lia.
      rewrite (Z.div_small (Z.b2z b)) by (destruct b; simpl; lia). lia.
    + rewrite Z.odd_add_mul_2 || rewrite Z.add_comm, Z.odd_add_mul_2. by destruct b.
  - intros [Hv ->]. split.
    + clear Hv. revert v. induction n as [|n IH]; intros v; [done|]. cbn [to_bits]. by rewrite length_app, IH, Nat.add_1_r.
    + revert v Hv. induction n as [|n IH]; intros v Hv; [simpl in *; unfold bits_value; simpl; lia|].
      cbn [to_bits]. rewrite Nat2Z.inj_succ, Z.pow_succ_r in Hv by lia.
      rewrite bits_value_snoc, IH by dlia. rewrite (Z.div_mod v 2) at 3 by lia. by rewrite Zmod_odd; destruct (Z.odd v).
Qed.

(** ** Messages, as TS 36.355 declares them *)

(** [LPP-MessageBody]: one of the sixteen alternatives of [c1], or the extension. *)
Inductive MessageBody := C1 (alternative : Z) | MessageClassExtension.

Record LppMessage := {
  transactionID : option (Initiator * Z);
  endTransaction : bool;
  sequenceNumber : option Z;
  acknowledgement : option (bool * option Z);
  messageBody : option MessageBody
}.

Definition opt_ok {A} (P : A -> Prop) (o : option A) : Prop := match o with Some a => P a | None => True end.
Definition has {A} (o : option A) : bool := match o with Some _ => true | None => false end.
Definition encode_opt {A} (f : A -> list bool) (o : option A) : list bool :=
  match o with Some a => f a | None => [] end.

Definition message_ok (m : LppMessage) : Prop :=
  opt_ok (fun '(_, n) => in_u 8 n) (transactionID m) /\
  opt_ok (in_u 8) (sequenceNumber m) /\
  opt_ok (fun '(_, i) => opt_ok (in_u 8) i) (acknowledgement m) /\
  opt_ok (fun b => match b with C1 i => in_u 4 i | MessageClassExtension => True end) (messageBody m).

(** UPER: presence bits first, then the fields; the extension bits of the identifier and of the
    initiator are clear. *)
Definition encode_transaction (t : Initiator * Z) : list bool :=
  [false; false; bool_decide (fst t = TargetDevice)] ++ to_bits 8 (snd t).
Definition encode_ack (a : bool * option Z) : list bool :=
  [has (snd a); fst a] ++ encode_opt (to_bits 8) (snd a).
Definition encode_body (b : MessageBody) : list bool :=
  match b with C1 i => false :: to_bits 4 i | MessageClassExtension => [true] end.
Definition encode_message (m : LppMessage) : list bool :=
  [has (transactionID m); has (sequenceNumber m); has (acknowledgement m); has (messageBody m)]
  ++ encode_opt encode_transaction (transactionID m) ++ [endTransaction m]
  ++ encode_opt (to_bits 8) (sequenceNumber m) ++ encode_opt encode_ack (acknowledgement m)
  ++ encode_opt encode_body (messageBody m).

Definition body_of (o : option MessageBody) : LppBody :=
  match o with
  | Some (C1 i) => lpp_body i
  | Some MessageClassExtension => Reserved
  | None => Absent
  end.
Definition summary_of (m : LppMessage) : LppSummary :=
  {| transaction := transactionID m; end_transaction := endTransaction m; body := body_of (messageBody m) |}.

(** ** The prefix *)

Lemma decodes_transaction h :
  decodes (read_transaction h) (fun t e => h = has t /\ opt_ok (fun '(_, n) => in_u 8 n) t /\
    e = encode_opt encode_transaction t).
Proof.
  destruct h; cbn [read_transaction].
  2:{ eapply decodes_iff; [apply decodes_ret|]. intros t e. split; [by intros [-> ->]|].
      intros (H & _ & ->). by destruct t. }
  eapply decodes_iff.
  { eapply decodes_bind; [apply decodes_bit|]. intros ext.
    eapply decodes_bind; [apply decodes_bit|]. intros iext.
    instantiate (1 := fun iext t e => iext = false /\ ext = false /\ exists target n e8,
      number 8 n e8 /\ e = target :: e8 /\
      t = Some (if target : bool then TargetDevice else LocationServer, n)).
    destruct iext; [eapply decodes_iff; [apply decodes_fail | naive_solver]|].
    eapply decodes_iff.
    - eapply decodes_bind; [apply decodes_bit|]. intros target.
      eapply decodes_bind; [apply decodes_bits|]. intros n.
      instantiate (1 := fun n t e => ext = false /\ e = [] /\
        t = Some (if target : bool then TargetDevice else LocationServer, wrapu 8 n)).
      destruct ext; eapply decodes_iff; [apply decodes_fail | naive_solver | apply decodes_ret | naive_solver].
    - intros t e. cbn beta. split.
      + intros (target & e1 & e2 & -> & (n & e3 & e4 & Hn & (-> & -> & ->) & ->) & ->).
        split; [done|]. split; [done|]. exists target, n, e3. rewrite app_nil_r.
        pose proof (number_range _ _ _ Hn). by rewrite wrapu_id by done.
      + intros (_ & -> & target & n & e8 & Hn & -> & ->). exists target, [target], e8.
        split; [done|]. split; [|done]. exists n, e8, []. rewrite app_nil_r.
        pose proof (number_range _ _ _ Hn). by rewrite wrapu_id by done. }
  intros t e. cbn beta. split.
  - intros (ext & e1 & e2 & -> & (iext & e3 & e4 & -> & (-> & -> & target & n & e8 & Hn & -> & ->) & ->) & ->).
    apply number_to_bits in Hn as [Hn ->]. split; [done|]. split; [done|]. by destruct target.
  - intros (Ht & Hok & ->). destruct t as [[i n]|]; [|done]. simpl in Hok.
    exists false, [false], (false :: bool_decide (i = TargetDevice) :: to_bits 8 n). split; [done|].
    split; [|done]. exists false, [false], (bool_decide (i = TargetDevice) :: to_bits 8 n). split; [done|].
    split; [|done]. split; [done|]. split; [done|]. exists (bool_decide (i = TargetDevice)), n, (to_bits 8 n).
    split; [by apply number_to_bits|]. split; [done|]. by destruct i.
Qed.

Lemma decodes_octet : decodes (let? _number := bits 8 in rret tt) (fun _ e => exists n, in_u 8 n /\ e = to_bits 8 n).
Proof.
  eapply decodes_iff; [eapply decodes_bind; [apply decodes_bits | intros; apply decodes_ret]|].
  intros [] e. cbn beta. setoid_rewrite number_to_bits. split.
  - intros (n & e1 & e2 & [Hn ->] & [_ ->] & ->). exists n. by rewrite app_nil_r.
  - intros (n & Hn & ->). exists n, (to_bits 8 n), []. by rewrite app_nil_r.
Qed.

Lemma decodes_sequence_number h :
  decodes (read_sequence_number h) (fun _ e => exists o, h = has o /\ opt_ok (in_u 8) o /\ e = encode_opt (to_bits 8) o).
Proof.
  destruct h; cbn [read_sequence_number].
  - eapply decodes_iff; [apply decodes_octet|]. intros [] e. split.
    + intros (n & Hn & ->). by exists (Some n).
    + intros ([n|] & Hh & Hn & ->); [by exists n | done].
  - eapply decodes_iff; [apply decodes_ret|]. intros [] e. split.
    + intros [_ ->]. by exists None.
    + by intros ([n|] & Hh & Hn & ->).
Qed.

Lemma decodes_acknowledgement h :
  decodes (read_acknowledgement h) (fun _ e => exists o, h = has o /\
    opt_ok (fun '(_, i) => opt_ok (in_u 8) i) o /\ e = encode_opt encode_ack o).
Proof.
  destruct h; cbn [read_acknowledgement].
  2:{ eapply decodes_iff; [apply decodes_ret|]. intros [] e. split.
      - intros [_ ->]. by exists None.
      - by intros ([n|] & Hh & Hn & ->). }
  eapply decodes_iff.
  { eapply decodes_bind; [apply decodes_bit|]. intros ind.
    eapply decodes_bind; [apply decodes_bit|]. intros req.
    apply (decodes_sequence_number ind). }
  intros [] e. cbn beta. split.
  - intros (ind & e1 & e2 & -> & (req & e3 & e4 & -> & (o & -> & Ho & ->) & ->) & ->).
    by exists (Some (req, o)).
  - intros ([[req o]|] & Hh & Ho & ->); [|done]. exists (has o), [has o], (req :: encode_opt (to_bits 8) o).
    split; [done|]. split; [|done]. exists req, [req], (encode_opt (to_bits 8) o). split; [done|].
    split; [|done]. by exists o.
Qed.

Lemma decodes_body h :
  decodes (read_body h) (fun b e => exists o, h = has o /\
    opt_ok (fun b => match b with C1 i => in_u 4 i | MessageClassExtension => True end) o /\
    b = body_of o /\ e = encode_opt encode_body o).
Proof.
  destruct h; cbn [read_body].
  2:{ eapply decodes_iff; [apply decodes_ret|]. intros b e. split.
      - intros [-> ->]. by exists None.
      - by intros ([n|] & Hh & Hn & -> & ->). }
  eapply decodes_iff.
  { eapply decodes_bind; [apply decodes_bit|]. intros x.
    instantiate (1 := fun x b e => if x : bool then b = Reserved /\ e = []
      else exists i, in_u 4 i /\ b = lpp_body i /\ e = to_bits 4 i).
    destruct x; [apply decodes_ret|].
    eapply decodes_iff; [eapply decodes_bind; [apply decodes_bits | intros; apply decodes_ret]|].
    intros b e. cbn beta. setoid_rewrite number_to_bits. split.
    - intros (n & e1 & e2 & [Hn ->] & [-> ->] & ->). exists n. by rewrite app_nil_r.
    - intros (n & Hn & -> & ->). exists n, (to_bits 4 n), []. by rewrite app_nil_r. }
  intros b e. cbn beta. split.
  - intros ([] & e1 & e2 & -> & H & ->).
    + destruct H as [-> ->]. by exists (Some MessageClassExtension).
    + destruct H as (i & Hi & -> & ->). by exists (Some (C1 i)).
  - intros ([[i|]|] & Hh & Hi & -> & ->); [| |done].
    + exists false, [false], (to_bits 4 i). split; [done|]. split; [|done]. by exists i.
    + by exists true, [true], [].
Qed.

Lemma decodes_prefix :
  decodes read_lpp_prefix (fun s e => exists m, message_ok m /\ s = summary_of m /\ e = encode_message m).
Proof.
  eapply decodes_iff.
  { do 4 (eapply decodes_bind; [apply decodes_bit | intros ?]).
    eapply decodes_bind; [apply decodes_transaction | intros ?].
    eapply decodes_bind; [apply decodes_bit | intros ?].
    eapply decodes_bind; [apply decodes_sequence_number | intros ?].
    eapply decodes_bind; [apply decodes_acknowledgement | intros ?].
    eapply decodes_bind; [apply decodes_body | intros ?].
    apply decodes_ret. }
  intros s e. cbn beta. split.
  - intros (h1 & ? & ? & -> & (h2 & ? & ? & -> & (h3 & ? & ? & -> & (h4 & ? & ? & -> &
      (t & ? & ? & (-> & Ht & ->) & (en & ? & ? & -> & ([] & ? & ? & (q & -> & Hq & ->) &
      ([] & ? & ? & (a & -> & Ha & ->) & (b & ? & ? & (o & -> & Ho & -> & ->) & [-> ->] & ->)
      & ->) & ->) & ->) & ->) & ->) & ->) & ->) & ->).
    exists {| transactionID := t; endTransaction := en; sequenceNumber := q; acknowledgement := a;
              messageBody := o |}.
    unfold encode_message. cbn. rewrite app_nil_r. by repeat split.
  - intros ([t en q a o] & (Ht & Hq & Ha & Ho) & -> & ->).
    cbn [transactionID endTransaction sequenceNumber acknowledgement messageBody] in *.
    unfold encode_message. cbn [transactionID endTransaction sequenceNumber acknowledgement messageBody app].
    do 4 (eexists _, [_], _; split; [reflexivity|]; split; [|reflexivity]).
    eexists t, _, _. split; [by split|]. split; [|reflexivity].
    eexists _, [_], _. split; [reflexivity|]. split; [|reflexivity].
    eexists tt, _, _. split; [by exists q|]. split; [|reflexivity].
    eexists tt, _, _. split; [by exists a|]. split; [|reflexivity].
    eexists (body_of o), _, []. split; [by exists o|]. split; [done|]. by rewrite app_nil_r.
Qed.

Lemma src_new l : src (BitReader_new l) = bits_of l.
Proof. unfold src, BitReader_new. apply drop_0. Qed.

Lemma decodes_run {A} (rd : Reader A) P l a :
  decodes rd P -> (exists r, rd (BitReader_new l) = Some (a, r)) <-> exists e rest, P a e /\ bits_of l = e ++ rest.
Proof.
  intros [H1 H2]. split.
  - intros [r Hr]. destruct (H1 _ _ _ Hr) as (e & HP & E). rewrite src_new in E. by exists e, (src r).
  - intros (e & rest & HP & E). rewrite <- src_new in E. destruct (H2 _ _ _ _ HP E) as (r & Hr & _). by exists r.
Qed.

(** ** Location requests and reports, as TS 36.355 declares them *)

Record CommonIEsRequest := {
  req_ext : bool;
  triggeredReporting : bool;
  periodicalReporting : bool;
  additionalInformation : bool;
  qos : bool;
  environment : bool;
  locationCoordinateTypes : bool;
  velocityTypes : bool;
  type_ext : bool;
  locationInformationType : Z
}.

Record CommonIEsProvide := {
  prov_ext : bool;
  locationEstimate : bool;
  velocityEstimate : bool;
  locationError : bool
}.

(** [criticalExtensions]: a future extension, one of the three spare alternatives, or the
    release 9 elements: an extension bit, the methods present and the common elements. *)
Inductive Content (C : Type) :=
| CriticalExtensionsFuture
| Spare (alternative : Z)
| R9 (ext : bool) (methods : Methods) (common : option C).
Arguments CriticalExtensionsFuture {C}.
Arguments Spare {C} alternative.
Arguments R9 {C} ext methods common.

Definition encode_methods (m : Methods) : list bool := [gnss m; otdoa m; ecid m; epdu m].

Definition encode_content {C} (f : C -> list bool) (c : Content C) : list bool :=
  match c with
  | CriticalExtensionsFuture => [true]
  | Spare i => false :: to_bits 2 i
  | R9 ext methods common => [false; false; false; ext; has common] ++ encode_methods methods ++ encode_opt f common
  end.

Definition encode_common_request (c : CommonIEsRequest) : list bool :=
  [req_ext c; triggeredReporting c; periodicalReporting c; additionalInformation c; qos c;
   environment c; locationCoordinateTypes c; velocityTypes c; type_ext c] ++ to_bits 2 (locationInformationType c).
Definition encode_common_provide (c : CommonIEsProvide) : list bool :=
  [prov_ext c; locationEstimate c; velocityEstimate c; locationError c].

Definition content_ok {C} (P : C -> Prop) (c : Content C) : Prop :=
  match c with
  | CriticalExtensionsFuture => True
  | Spare i => 1 <= i < 4
  | R9 _ _ common => opt_ok P common
  end.
Definition request_ok : Content CommonIEsRequest -> Prop := content_ok (fun c => in_u 2 (locationInformationType c)).
Definition response_ok : Content CommonIEsProvide -> Prop := content_ok (fun _ => True).

Definition request_kind (c : Content CommonIEsRequest) : LppDetailKind :=
  match c with
  | R9 _ methods (Some c) =>
      Request methods (periodicalReporting c) (loc_info_type (type_ext c) (locationInformationType c))
  | R9 _ methods None => Request methods false LocInfoUnknown
  | _ => DetailOther
  end.
Definition response_kind (c : Content CommonIEsProvide) : LppDetailKind :=
  match c with
  | R9 _ methods (Some c) => Response methods (locationEstimate c) (locationError c)
  | R9 _ methods None => Response methods false false
  | _ => DetailOther
  end.

(** What follows the prefix, by the kind of message. *)
Inductive detail_content : LppBody -> LppDetailKind -> list bool -> Prop :=
| request_content c :
    request_ok c ->
    detail_content RequestLocationInformation (request_kind c) (encode_content encode_common_request c)
| response_content c :
    response_ok c ->
    detail_content ProvideLocationInformation (response_kind c) (encode_content encode_common_provide c)
| no_content b :
    b <> RequestLocationInformation -> b <> ProvideLocationInformation -> detail_content b DetailOther [].

Lemma to_bits_2_zero : to_bits 2 0 = [false; false].
Proof. reflexivity. Qed.

Lemma decodes_enter_r9 :
  decodes enter_r9 (fun b e =>
    if b then e = [false; false; false] else e = [true] \/ exists i, 1 <= i < 4 /\ e = false :: to_bits 2 i).
Proof.
  eapply decodes_iff.
  { eapply decodes_bind; [apply decodes_bit|]. intros future.
    instantiate (1 := fun future b e => if future : bool then b = false /\ e = []
      else exists i, in_u 2 i /\ e = to_bits 2 i /\ b = (i =? 0)).
    destruct future; [apply decodes_ret|].
    eapply decodes_iff.
    - eapply decodes_bind; [apply decodes_bits|]. intros i.
      replace (if negb (i =? 0) then rret false else rret true) with (rret (i =? 0))
        by (by destruct (i =? 0)).
      apply decodes_ret.
    - intros b e. cbn beta. setoid_rewrite number_to_bits. split.
      + intros (i & e1 & e2 & [Hi ->] & [-> ->] & ->). exists i. by rewrite app_nil_r.
      + intros (i & Hi & -> & ->). exists i, (to_bits 2 i), []. by rewrite app_nil_r. }
  intros b e. cbn beta. unfold in_u. split.
  - intros ([] & e1 & e2 & -> & H & ->); [destruct H as [-> ->]; by left|].
    destruct H as (i & Hi & -> & ->). destruct (Z.eqb_spec i 0) as [->|Hne]; [done|].
    right. exists i. split; [lia|done].
  - destruct b.
    + intros ->. exists false, [false], [false; false]. split; [done|]. split; [|done]. by exists 0.
    + intros [-> | (i & Hi & ->)]; [by exists true, [true], []|].
      exists false, [false], (to_bits 2 i). split; [done|]. split; [|done]. exists i.
      split; [lia|]. split; [done|]. symmetry. apply Z.eqb_neq. lia.
Qed.

Lemma decodes_methods : decodes read_methods (fun m e => e = encode_methods m).
Proof.
  eapply decodes_iff.
  { do 4 (eapply decodes_bind; [apply decodes_bit | intros ?]). apply decodes_ret. }
  intros m e. cbn beta. split.
  - by intros (? & ? & ? & -> & (? & ? & ? & -> & (? & ? & ? & -> & (? & ? & ? & -> & [-> ->] & ->) & ->) & ->) & ->).
  - intros ->. destruct m. do 4 (eexists _, [_], _; split; [reflexivity|]; split; [|reflexivity]). by split.
Qed.

(** The frame both kinds of content share: [f] reads the common elements. *)
Definition read_content {C} (f : Reader C) (k : Content C -> LppDetailKind) : Reader LppDetailKind :=
  let? r9 := enter_r9 in
  if negb r9 then rret DetailOther
  else
    let? ext := bit in
    let? common := bit in
    let? methods := read_methods in
    if common : bool then let? c := f in rret (k (R9 ext methods (Some c)))
    else rret (k (R9 ext methods None)).

Lemma decodes_content {C} (f : Reader C) (P : C -> Prop) (g : C -> list bool) k :
  (forall i, k (Spare i) = DetailOther) -> k CriticalExtensionsFuture = DetailOther ->
  decodes f (fun c e => P c /\ e = g c) ->
  decodes (read_content f k) (fun d e => exists c, content_ok P c /\ d = k c /\ e = encode_content g c).
Proof.
  intros Hspare Hfuture Hf. eapply decodes_iff.
  { eapply decodes_bind; [apply decodes_enter_r9|]. intros r9.
    instantiate (1 := fun r9 d e => if r9 : bool then exists ext m o, opt_ok P o /\ d = k (R9 ext m o) /\
        e = [ext; has o] ++ encode_methods m ++ encode_opt g o
      else d = DetailOther /\ e = []).
    destruct r9; cbn [negb]; [|apply decodes_ret].
    eapply decodes_iff.
    { eapply decodes_bind; [apply decodes_bit|]. intros ext.
      eapply decodes_bind; [apply decodes_bit|]. intros common.
      eapply decodes_bind; [apply decodes_methods|]. intros m.
      instantiate (1 := fun m d e => exists o, common = has o /\ opt_ok P o /\ d = k (R9 ext m o) /\ e = encode_opt g o).
      destruct common.
      - eapply decodes_iff; [eapply decodes_bind; [apply Hf | intros; apply decodes_ret]|].
        intros d e. cbn beta. split.
        + intros (c & e1 & e2 & [Hc ->] & [-> ->] & ->). exists (Some c). by rewrite app_nil_r.
        + intros ([c|] & Hh & Hc & -> & ->); [|done]. exists c, (g c), []. by rewrite app_nil_r.
      - eapply decodes_iff; [apply decodes_ret|]. intros d e. split.
        + intros [-> ->]. by exists None.
        + by intros ([c|] & Hh & Hc & -> & ->). }
    intros d e. cbn beta. split.
    - intros (ext & ? & ? & -> & (common & ? & ? & -> & (m & ? & ? & -> & (o & -> & Ho & -> & ->) & ->) & ->) & ->).
      by exists ext, m, o.
    - intros (ext & m & o & Ho & -> & ->). do 2 (eexists _, [_], _; split; [reflexivity|]; split; [|reflexivity]).
      eexists m, _, _. split; [reflexivity|]. split; [|reflexivity]. by exists o. }
  intros d e. cbn beta. split.
  - intros ([] & e1 & e2 & He & H & ->).
    + subst e1. destruct H as (ext & m & o & Ho & -> & ->). by exists (R9 ext m o).
    + destruct H as [-> ->]. rewrite app_nil_r. destruct He as [-> | (i & Hi & ->)].
      * by exists CriticalExtensionsFuture.
      * by exists (Spare i).
  - intros ([|i|ext m o] & Hok & -> & ->).
    + rewrite Hfuture. exists false, [true], []. split; [by left|]. done.
    + rewrite Hspare. exists false, (false :: to_bits 2 i), []. split; [right; by exists i|].
      by rewrite app_nil_r.
    + exists true, [false; false; false], ([ext; has o] ++ encode_methods m ++ encode_opt g o).
      split; [done|]. split; [|done]. by exists ext, m, o.
Qed.

Lemma decodes_ext {A} (m m' : Reader A) P : (forall r, m r = m' r) -> decodes m P -> decodes m' P.
Proof.
  intros H [H1 H2]. split; intros *; rewrite <- H; [apply H1 | apply H2].
Qed.

Definition read_common_request : Reader CommonIEsRequest :=
  let? a := bit in let? b := bit in let? c := bit in let? d := bit in let? e := bit in
  let? f := bit in let? g := bit in let? h := bit in let? i := bit in let? j := bits 2 in
  rret {| req_ext := a; triggeredReporting := b; periodicalReporting := c; additionalInformation := d;
          qos := e; environment := f; locationCoordinateTypes := g; velocityTypes := h; type_ext := i;
          locationInformationType := j |}.
Definition read_common_provide : Reader CommonIEsProvide :=
  let? a := bit in let? b := bit in let? c := bit in let? d := bit in
  rret {| prov_ext := a; locationEstimate := b; velocityEstimate := c; locationError := d |}.

Ltac step_bit := eexists _, [_], _; split; [reflexivity|]; split; [|reflexivity].

Lemma decodes_common_request :
  decodes read_common_request (fun c e => in_u 2 (locationInformationType c) /\ e = encode_common_request c).
Proof.
  eapply decodes_iff.
  { do 9 (eapply decodes_bind; [apply decodes_bit | intros ?]).
    eapply decodes_bind; [apply decodes_bits | intros ?]. apply decodes_ret. }
  intros c e. cbn beta. setoid_rewrite number_to_bits. split.
  - intros (? & ? & ? & -> & (? & ? & ? & -> & (? & ? & ? & -> & (? & ? & ? & -> & (? & ? & ? & -> &
      (? & ? & ? & -> & (? & ? & ? & -> & (? & ? & ? & -> & (? & ? & ? & -> & (? & ? & ? & [Hi ->] & [-> ->] & ->)
      & ->) & ->) & ->) & ->) & ->) & ->) & ->) & ->) & ->).
    split; [exact Hi|]. unfold encode_common_request. by rewrite app_nil_r.
  - intros [Hi ->]. destruct c as [a b c d e f g h i j]. unfold encode_common_request.
    cbn [req_ext triggeredReporting periodicalReporting additionalInformation qos environment
      locationCoordinateTypes velocityTypes type_ext locationInformationType app] in *.
    do 9 step_bit. exists j, (to_bits 2 j), []. rewrite app_nil_r. split; [by split | done].
Qed.

Lemma decodes_common_provide :
  decodes read_common_provide (fun c e => True /\ e = encode_common_provide c).
Proof.
  eapply decodes_iff.
  { do 4 (eapply decodes_bind; [apply decodes_bit | intros ?]). apply decodes_ret. }
  intros c e. cbn beta. split.
  - by intros (? & ? & ? & -> & (? & ? & ? & -> & (? & ? & ? & -> & (? & ? & ? & -> & [-> ->] & ->) & ->) & ->) & ->).
  - intros [_ ->]. destruct c. do 4 step_bit. by split.
Qed.

(** Follow two readers through the same steps. *)
Ltac same_steps := unfold rbind, rret;
  repeat (first
    [ match goal with
      | |- context [enter_r9 ?r] => destruct (enter_r9 r) as [[[] ?]|]
      | |- context [read_methods ?r] => destruct (read_methods r) as [[? ?]|]
      | |- context [bits 2 ?r] => destruct (bits 2 r) as [[? ?]|]
      | |- context [bit ?r] => destruct (bit r) as [[? ?]|]
      | |- context [if ?b then _ else _] => is_var b; destruct b
      end ]; cbn beta iota delta [negb]); reflexivity.

Lemma read_request_content r : read_content read_common_request request_kind r = read_request_detail r.
Proof. unfold read_content, read_common_request, read_request_detail. same_steps. Qed.
Lemma read_response_content r : read_content read_common_provide response_kind r = read_response_detail r.
Proof. unfold read_content, read_common_provide, read_response_detail. same_steps. Qed.

Lemma decodes_detail b : decodes (read_detail b) (detail_content b).
Proof.
  assert (Hno : b <> RequestLocationInformation -> b <> ProvideLocationInformation ->
    decodes (rret DetailOther) (detail_content b)).
  { intros H1 H2. eapply decodes_iff; [apply decodes_ret|]. intros d e. split.
    - intros [-> ->]. by apply no_content.
    - intros H. by destruct H. }
  destruct b; cbn [read_detail]; try by apply Hno.
  - eapply decodes_ext; [apply read_request_content|]. eapply decodes_iff.
    + apply decodes_content; [done|done|]. apply decodes_common_request.
    + intros d e. split; [intros (c & Hc & -> & ->); by constructor|].
      intros H. inversion H; subst; [by eexists | done].
  - eapply decodes_ext; [apply read_response_content|]. eapply decodes_iff.
    + apply decodes_content; [done|done|]. apply decodes_common_provide.
    + intros d e. split; [intros (c & Hc & -> & ->); by constructor|].
      intros H. inversion H; subst; [by eexists | done].
Qed.

(** ** Properties *)

(** The prefix decoder against the ASN.1 layout.  [decode_lpp_prefix] succeeds on a byte string
    exactly when its bits start with the encoding of some LPP message whose identifier and
    initiator carry no extensions, whatever follows; what it returns is then that message's
    transaction, end marker and kind.  In particular it reads back every such message, and never
    guesses: bytes that are no prefix of a message, or a message it cannot align, give [None]. *)
Theorem decode_lpp_prefix_iff l s :
  decode_lpp_prefix l = Some s <->
  exists m rest, message_ok m /\ bits_of l = encode_message m ++ rest /\ s = summary_of m.
Proof.
  transitivity (exists r, read_lpp_prefix (BitReader_new l) = Some (s, r)).
  - unfold decode_lpp_prefix. destruct (read_lpp_prefix _) as [[s' r]|]; simpl; split.
    + intros [= <-]. by exists r.
    + by intros (r' & [= <- _]).
    + done.
    + by intros [? [=]].
  - rewrite (decodes_run _ _ l s decodes_prefix). naive_solver.
Qed.

(** C26: the detail decoder likewise.  It succeeds exactly when the bits are a message's prefix
    followed, for a location request or report, by a future extension, a spare alternative or
    the release 9 elements; the methods, the periodic flag, the kind of answer, the estimate and
    the refusal it returns are those of the elements present. *)
Theorem decode_lpp_detail_iff l d :
  decode_lpp_detail l = Some d <->
  exists m e rest, message_ok m /\ bits_of l = encode_message m ++ e ++ rest /\
    summary d = summary_of m /\ detail_content (body (summary d)) (kind d) e.
Proof.
  transitivity (exists r, (let? s := read_lpp_prefix in let? k := read_detail (body s) in
    rret {| summary := s; kind := k |}) (BitReader_new l) = Some (d, r)).
  - unfold decode_lpp_detail, rbind, rret.
    destruct (read_lpp_prefix _) as [[s r]|]; [|split; [done | by intros [? [=]]]].
    simpl. destruct (read_detail _ r) as [[k r']|]; simpl; split.
    + intros [= <-]. by exists r'.
    + intros (r1 & [= <- _]). done.
    + done.
    + by intros [? [=]].
  - assert (Hd : decodes (let? s := read_lpp_prefix in let? k := read_detail (body s) in
        rret {| summary := s; kind := k |})
      (fun d e => exists m e', message_ok m /\ e = encode_message m ++ e' /\ summary d = summary_of m /\
         detail_content (body (summary d)) (kind d) e')).
    { eapply decodes_iff.
      { eapply decodes_bind; [apply decodes_prefix | intros s].
        eapply decodes_bind; [apply decodes_detail | intros k]. apply decodes_ret. }
      intros [s k] e. cbn beta. split.
      - intros (s' & ? & ? & (m & Hm & -> & ->) & (k' & e' & ? & Hk & [[= -> ->] ->] & ->) & ->).
        exists m, e'. by rewrite app_nil_r.
      - cbn [summary kind]. intros (m & e' & Hm & -> & -> & Hk). eexists _, _, e'. split; [by exists m|].
        split; [|done]. eexists k, e', []. rewrite app_nil_r. by repeat split. }
    rewrite (decodes_run _ _ l d Hd). split.
    + intros (e & rest & (m & e' & Hm & -> & Hs & Hk) & ->). exists m, e', rest. by rewrite <- app_assoc.
    + intros (m & e & rest & Hm & -> & Hs & Hk). eexists (encode_message m ++ e), rest.
      rewrite <- app_assoc. split; [by exists m, e | done].
Qed.

(** Reference encodings of the repository's tests: a periodic request in an open transaction, and
    an acknowledgement without body. *)
Example decode_periodic_open :
  decode_lpp_detail [0x90; 0x0a; 0x20; 0x40; 0x80; 0x18] = Some
    {| summary := {| transaction := Some (LocationServer, 5); end_transaction := false;
                     body := RequestLocationInformation |};
       kind := Request {| gnss := false; otdoa := false; ecid := false; epdu := false |} true EstimateRequired |}.
Proof. reflexivity. Qed.
Example decode_ack_only :
  decode_lpp_prefix [0x24; 0x06] = Some {| transaction := None; end_transaction := false; body := Absent |}.
Proof. reflexivity. Qed.
