(* ===== verification/LppDetectors.v ===== *)
(** * Location requests over LPP ([lib/src/analysis/lpp.rs], the two analyzers)

    The basic analyzer reads the prefix of a message, the tracking analyzer its detail; each
    warns once per transaction. *)

From S2P Require Import Prelude RustStr InformationElement Analyzer Lpp LppGrammar.

Local Open Scope Z_scope.

Inductive Direction := Downlink | Uplink.

(** [HashMap<(Initiator, u8), ()>]: the transactions already warned about. *)
Abbreviation transactions := (gset (Initiator * Z)).

Record LppLocationRequestAnalyzer := { warned_transactions : transactions }.
Definition LppLocationRequest_new : LppLocationRequestAnalyzer := {| warned_transactions := ∅ |}.

Definition transaction_note (t : option (Initiator * Z)) : rstr :=
  match t with
  | Some (LocationServer, n) => lit " (network transaction " ++ dec n ++ lit ")"
  | Some (TargetDevice, n) => lit " (device transaction " ++ dec n ++ lit ")"
  | None => []
  end.

(** [location_event] and [escalating_event]: the warning the first time, a note the next. *)
Definition once_per_transaction (warned : transactions) (t : option (Initiator * Z))
    (severity : EventType) (first_message repeat_message : rstr) : transactions * Event :=
  let '(warned, already_warned) :=
    match t with
    | Some t => ({[ t ]} ∪ warned, bool_decide (t ∈ warned))
    | None => (warned, false)
    end in
  (warned,
   if already_warned then {| event_type := Informational; message := repeat_message |}
   else {| event_type := severity; message := first_message |}).

(** A finished transaction frees its number. *)
Definition end_of (summary : LppSummary) : bool :=
  end_transaction summary || bool_decide (body summary = LppAbort).
Definition free_transaction (warned : transactions) (summary : LppSummary) : transactions :=
  if end_of summary then
    match transaction summary with Some t => warned ∖ {[ t ]} | None => warned end
  else warned.

(** ** The basic analyzer *)

Definition location_event (self : LppLocationRequestAnalyzer) (summary : LppSummary)
    (first_message repeat_message : rstr) : LppLocationRequestAnalyzer * Event :=
  let '(w, e) := once_per_transaction (warned_transactions self) (transaction summary) Low
                   first_message repeat_message in
  ({| warned_transactions := w |}, e).

Definition lpp_event_for (self : LppLocationRequestAnalyzer) (summary : LppSummary) (direction : Direction)
    : LppLocationRequestAnalyzer * Event :=
  let note := transaction_note (transaction summary) in
  let info m := (self, {| event_type := Informational; message := m ++ note |}) in
  let '(self, event) :=
    match body summary, direction with
    | RequestLocationInformation, Downlink =>
        location_event self summary
          (lit "Network requested this device's location over LPP" ++ note)
          (lit "Network repeated its LPP location request" ++ note)
    | RequestLocationInformation, Uplink =>
        (self, {| event_type := Low; message :=
          lit "This device sent an LPP location request uplink, which is not a normal flow" ++ note |})
    | ProvideLocationInformation, Uplink =>
        location_event self summary
          (lit "This device reported its location to the network over LPP" ++ note)
          (lit "This device sent another LPP location report" ++ note)
    | ProvideLocationInformation, Downlink => info (lit "Network sent an LPP location report downlink")
    | RequestCapabilities, _ => info (lit "LPP positioning capability request")
    | ProvideCapabilities, _ => info (lit "LPP positioning capability response")
    | RequestAssistanceData, _ => info (lit "LPP assistance data request")
    | ProvideAssistanceData, _ => info (lit "LPP assistance data (routine GPS help)")
    | LppAbort, _ => info (lit "LPP transaction aborted")
    | LppError, _ => info (lit "LPP error message")
    | (Reserved | Absent), _ => info (lit "LPP message with no readable body")
    end in
  ({| warned_transactions := free_transaction (warned_transactions self) summary |}, event).

(** [lpp_container]; the basic analyzer makes the same case distinction inline. *)
Definition lpp_container {D : Decoders} (ie : InformationElement) : option (list Z * Direction) :=
  match ie with
  | IE_LTE (IE_NAS (NAS_EMMMessage (EMMDLGenericNASTransport t buf))) =>
      if bool_decide (t = LTEPositioningProtocolLPPMessageContainer) then Some (buf, Downlink) else None
  | IE_LTE (IE_NAS (NAS_EMMMessage (EMMULGenericNASTransport t buf))) =>
      if bool_decide (t = LTEPositioningProtocolLPPMessageContainer) then Some (buf, Uplink) else None
  | _ => None
  end.

Definition lpp_request_analyze {D : Decoders} (self : LppLocationRequestAnalyzer)
    (ie : InformationElement) (_packet_num _timestamp : Z) : LppLocationRequestAnalyzer * option Event :=
  match lpp_container ie with
  | None => (self, None)
  | Some (container, direction) =>
      match decode_lpp_prefix container with
      | Some summary => let '(self, e) := lpp_event_for self summary direction in (self, Some e)
      | None => (self, Some {| event_type := Informational;
                               message := lit "LPP message seen, but its type could not be read" |})
      end
  end.

#[export] Instance LppLocationRequest_Analyzer {D : Decoders} : Analyzer LppLocationRequestAnalyzer := {|
  get_name := fun _ => lit "LPP Location Request";
  get_description := fun _ => lit "Watches for the network asking this device to measure and report its own position via the LTE Positioning Protocol (LPP), and for the device's answers. Raises a low warning once per location transaction; capability exchanges and GPS assistance data are recorded as informational events. Emergency calls and some carriers' location-based services use LPP legitimately.";
  analyze_information_element := lpp_request_analyze;
  report_skipped_packet := no_skipped_report;
  get_version := fun _ => 1
|}.

(** ** The tracking analyzer *)

Record LppLocationTrackingAnalyzer := { tracking_warned_transactions : transactions }.
Definition LppLocationTracking_new : LppLocationTrackingAnalyzer := {| tracking_warned_transactions := ∅ |}.

Definition escalating_event (self : LppLocationTrackingAnalyzer) (detail : LppDetail) (severity : EventType)
    (first_message repeat_message : rstr) : LppLocationTrackingAnalyzer * Event :=
  let '(w, e) := once_per_transaction (tracking_warned_transactions self) (transaction (summary detail))
                   severity first_message repeat_message in
  ({| tracking_warned_transactions := w |}, e).

Definition tracking_event_for (self : LppLocationTrackingAnalyzer) (detail : LppDetail) (direction : Direction)
    : LppLocationTrackingAnalyzer * option Event :=
  let note := transaction_note (transaction (summary detail)) in
  let finish (r : LppLocationTrackingAnalyzer * Event) :=
    let '(self, event) := r in
    ({| tracking_warned_transactions :=
          free_transaction (tracking_warned_transactions self) (summary detail) |}, Some event) in
  match kind detail, direction with
  | Request methods periodic _, Downlink =>
      finish
        (if periodic then
           escalating_event self detail Medium
             (lit "Network requested CONTINUOUS location tracking via " ++ describe methods
              ++ lit ": reports repeat until stopped" ++ note)
             (lit "Network's continuous LPP tracking request repeated" ++ note)
         else
           escalating_event self detail Low
             (lit "Network requested a one-off location fix via " ++ describe methods ++ note)
             (lit "Network repeated its one-off LPP location request" ++ note))
  | Request methods _ _, Uplink =>
      finish (self, {| event_type := Low; message :=
        lit "This device sent an LPP location request uplink (" ++ describe methods
        ++ lit "), which is unusual" ++ note |})
  | Response methods provided_estimate declined, Uplink =>
      finish
        (if declined && negb provided_estimate && negb (methods_any methods) then
           (self, {| event_type := Informational;
                     message := lit "This device declined the network's LPP location request" ++ note |})
         else
           let how := if methods_any methods then describe methods else lit "an estimate" in
           escalating_event self detail Low
             (lit "This device reported its position to the network via " ++ how ++ note)
             (lit "This device sent another LPP location report" ++ note))
  | Response _ _ _, Downlink =>
      finish (self, {| event_type := Informational;
        message := lit "Network sent an LPP location report downlink, which is unusual" ++ note |})
  | DetailOther, _ => (self, None)
  end.

Definition lpp_tracking_analyze {D : Decoders} (self : LppLocationTrackingAnalyzer)
    (ie : InformationElement) (_packet_num _timestamp : Z) : LppLocationTrackingAnalyzer * option Event :=
  match lpp_container ie with
  | None => (self, None)
  | Some (container, direction) =>
      match decode_lpp_detail container with
      | None => (self, None)
      | Some detail => tracking_event_for self detail direction
      end
  end.

#[export] Instance LppLocationTracking_Analyzer {D : Decoders} : Analyzer LppLocationTrackingAnalyzer := {|
  get_name := fun _ => lit "LPP Location Tracking";
  get_description := fun _ => lit "Reads LPP location messages in depth: which positioning method the network asked for (satellite, tower timing or cell ID) and, most importantly, whether it asked for continuous tracking rather than a single fix. A continuous-tracking request warns at medium severity. This parses more of each message than the basic LPP check and can be turned off on devices very short on memory.";
  analyze_information_element := lpp_tracking_analyze;
  report_skipped_packet := no_skipped_report;
  get_version := fun _ => 1
|}.

(** ** The set of open transactions

    Both analyzers keep the transactions they warned about and have not seen ended.  [once] is
    that machine on its own: a message that moves location information opens its transaction, a
    message that ends it, possibly the same one, closes it. *)

Section once.
Context {M : Type} (moves ends : M -> bool) (tx : M -> option (Initiator * Z)).

Definition once_step (w : transactions) (x : M) : transactions :=
  match tx x with
  | None => w
  | Some t =>
      let w := if moves x then {[ t ]} ∪ w else w in
      if ends x then w ∖ {[ t ]} else w
  end.
Definition once_run (l : list M) : transactions := fold_left once_step l ∅.

Definition is_open (l : list M) (t : Initiator * Z) : Prop :=
  exists pre x post, l = pre ++ x :: post /\ moves x = true /\ tx x = Some t /\
    Forall (fun y => tx y = Some t -> ends y = false) (x :: post).

Lemma is_open_snoc l x t :
  is_open (l ++ [x]) t <->
  (tx x = Some t -> ends x = false) /\ ((moves x = true /\ tx x = Some t) \/ is_open l t).
Proof.
  split.
  - intros (pre & y & post & Heq & Hm & Ht & Hf). destruct post as [|z post _] using rev_ind.
    + apply app_inj_tail in Heq as [-> ->]. apply Forall_cons in Hf as [Hf _]. auto.
    + rewrite app_comm_cons, app_assoc in Heq. apply app_inj_tail in Heq as [-> ->].
      rewrite app_comm_cons in Hf. apply Forall_app in Hf as [Hf Hx]. apply Forall_cons in Hx as [Hx _].
      split; [done|]. right. by exists pre, y, post.
  - intros [He [[Hm Ht] | (pre & y & post & -> & Hm & Ht & Hf)]].
    + exists l, x, []. split; [done|]. split; [done|]. split; [done|]. by repeat constructor.
    + exists pre, y, (post ++ [x]). split; [by rewrite <- app_assoc|]. split; [done|]. split; [done|].
      rewrite app_comm_cons. apply Forall_app_2; [done|]. by repeat constructor.
Qed.

Lemma once_run_open l t : t ∈ once_run l <-> is_open l t.
Proof.
  induction l as [|x l IH] using rev_ind.
  - split; [intros H; by apply elem_of_empty in H|]. by intros ([|] & y & post & [=] & _).
  - rewrite is_open_snoc, <- IH. unfold once_run. rewrite fold_left_app. cbn [fold_left].
    fold (once_run l). unfold once_step. destruct (tx x) as [t'|]; [|naive_solver].
    destruct (moves x), (ends x); rewrite ?elem_of_difference, ?elem_of_union, ?elem_of_singleton; naive_solver.
Qed.

Lemma once_run_snoc l x : once_run (l ++ [x]) = once_step (once_run l) x.
Proof. unfold once_run. by rewrite fold_left_app. Qed.

(** All identifiers there are: two initiators, 256 numbers. *)
Definition all_transactions : list (Initiator * Z) :=
  map (pair LocationServer) (seqZ 0 256) ++ map (pair TargetDevice) (seqZ 0 256).

Lemma all_transactions_spec t : in_u 8 (snd t) -> t ∈ all_transactions.
Proof.
  intros H. unfold all_transactions. rewrite elem_of_app, !list_elem_of_fmap.
  destruct t as [[|] n]; [left | right]; exists n; (split; [done|]); by apply elem_of_seqZ.
Qed.

Lemma once_run_size l :
  (forall x t, x ∈ l -> tx x = Some t -> in_u 8 (snd t)) -> (size (once_run l) <= 512)%nat.
Proof.
  intros Hx. etrans; [apply (subseteq_size _ (list_to_set all_transactions))|].
  - intros t (pre & x & post & -> & _ & Ht & _)%once_run_open.
    apply elem_of_list_to_set, all_transactions_spec, (Hx x); [set_solver|done].
  - rewrite size_list_to_set; [vm_compute; lia|]. apply (bool_decide_unpack _). vm_compute. done.
Qed.
End once.

(** ** Recordings *)

(** The LPP messages of a recording, as each analyzer reads them. *)
Definition lpp_message {D : Decoders} (ie : InformationElement) : option (LppSummary * Direction) :=
  '(c, d) ← lpp_container ie; s ← decode_lpp_prefix c; Some (s, d).
Definition lpp_detail_message {D : Decoders} (ie : InformationElement) : option (LppDetail * Direction) :=
  '(c, d) ← lpp_container ie; x ← decode_lpp_detail c; Some (x, d).

(** A location request from the network or a location report from the device. *)
Definition moves (m : LppSummary * Direction) : bool :=
  match body (fst m), snd m with
  | RequestLocationInformation, Downlink | ProvideLocationInformation, Uplink => true
  | _, _ => false
  end.
Definition ends (m : LppSummary * Direction) : bool := end_of (fst m).
Definition tx (m : LppSummary * Direction) : option (Initiator * Z) := transaction (fst m).

(** The same of a message read in detail; a refusal moves nothing. *)
Definition detail_moves (m : LppDetail * Direction) : bool :=
  match kind (fst m), snd m with
  | Request _ _ _, Downlink => true
  | Response methods estimate declined, Uplink => negb (declined && negb estimate && negb (methods_any methods))
  | _, _ => false
  end.
Definition detail_ends (m : LppDetail * Direction) : bool :=
  match kind (fst m) with DetailOther => false | _ => end_of (summary (fst m)) end.
Definition detail_tx (m : LppDetail * Direction) : option (Initiator * Z) := transaction (summary (fst m)).

Definition lpp_run {D : Decoders} (l : list InformationElement) : LppLocationRequestAnalyzer :=
  fold_left (fun s ie => fst (lpp_request_analyze s ie 0 0)) l LppLocationRequest_new.
Definition tracking_run {D : Decoders} (l : list InformationElement) : LppLocationTrackingAnalyzer :=
  fold_left (fun s ie => fst (lpp_tracking_analyze s ie 0 0)) l LppLocationTracking_new.

Lemma once_step_eq {M} (mv en : M -> bool) (tx : M -> option (Initiator * Z)) x w s :
  tx x = transaction s -> en x = end_of s ->
  once_step mv en tx w x =
  free_transaction (if mv x then match transaction s with Some t => {[ t ]} ∪ w | None => w end else w) s.
Proof.
  unfold once_step, free_transaction. intros -> ->.
  by destruct (transaction s), (mv x), (end_of s).
Qed.

Lemma lpp_event_for_step s sm d :
  warned_transactions (fst (lpp_event_for s sm d)) =
  once_step moves ends tx (warned_transactions s) (sm, d).
Proof.
  rewrite (once_step_eq _ _ _ _ _ sm) by done. unfold lpp_event_for, moves, location_event, once_per_transaction.
  cbn [fst snd]. by destruct (body sm), d, (transaction sm).
Qed.

Lemma lpp_analyze_step {D : Decoders} s ie n t :
  warned_transactions (fst (lpp_request_analyze s ie n t)) =
  match lpp_message ie with
  | Some m => once_step moves ends tx (warned_transactions s) m
  | None => warned_transactions s
  end.
Proof.
  unfold lpp_request_analyze, lpp_message. destruct (lpp_container ie) as [[c d]|]; [|done].
  simpl. destruct (decode_lpp_prefix c) as [sm|]; [|done]. simpl.
  rewrite <- lpp_event_for_step. by destruct (lpp_event_for s sm d).
Qed.

Lemma lpp_run_warned {D : Decoders} l :
  warned_transactions (lpp_run l) = once_run moves ends tx (omap lpp_message l).
Proof.
  induction l as [|ie l IH] using rev_ind; [done|].
  unfold lpp_run in *. rewrite fold_left_app, omap_app. cbn [fold_left]. rewrite lpp_analyze_step, IH.
  simpl. destruct (lpp_message ie); [by rewrite once_run_snoc | by rewrite app_nil_r].
Qed.

Lemma tracking_event_for_step s x d :
  tracking_warned_transactions (fst (tracking_event_for s x d)) =
  once_step detail_moves detail_ends detail_tx (tracking_warned_transactions s) (x, d).
Proof.
  assert (Hcase : kind x = DetailOther \/ kind x <> DetailOther) by (destruct (kind x); naive_solver).
  destruct Hcase as [Hk|Hk].
  - unfold tracking_event_for, once_step, detail_moves, detail_ends. cbn [fst snd]. rewrite Hk.
    by destruct d, (detail_tx _).
  - rewrite (once_step_eq _ _ _ _ _ (summary x)); [|done|unfold detail_ends; cbn [fst]; by destruct (kind x)].
    unfold tracking_event_for, detail_moves, escalating_event, once_per_transaction. cbn [fst snd].
    destruct (kind x) as [m p i|m e dd|]; [| |done].
    + by destruct d, p, (transaction (summary x)).
    + by destruct d, (dd && negb e && negb (methods_any m)), (transaction (summary x)).
Qed.

Lemma tracking_analyze_step {D : Decoders} s ie n t :
  tracking_warned_transactions (fst (lpp_tracking_analyze s ie n t)) =
  match lpp_detail_message ie with
  | Some m => once_step detail_moves detail_ends detail_tx (tracking_warned_transactions s) m
  | None => tracking_warned_transactions s
  end.
Proof.
  unfold lpp_tracking_analyze, lpp_detail_message. destruct (lpp_container ie) as [[c d]|]; [|done].
  simpl. destruct (decode_lpp_detail c) as [x|]; [|done]. apply tracking_event_for_step.
Qed.

Lemma tracking_run_warned {D : Decoders} l :
  tracking_warned_transactions (tracking_run l) =
  once_run detail_moves detail_ends detail_tx (omap lpp_detail_message l).
Proof.
  induction l as [|ie l IH] using rev_ind; [done|].
  unfold tracking_run in *. rewrite fold_left_app, omap_app. cbn [fold_left]. rewrite tracking_analyze_step, IH.
  simpl. destruct (lpp_detail_message ie); [by rewrite once_run_snoc | by rewrite app_nil_r].
Qed.

(** Transaction numbers are bytes. *)
Lemma read_prefix_tx l s r t :
  read_lpp_prefix (BitReader_new l) = Some (s, r) -> transaction s = Some t -> in_u 8 (snd t).
Proof.
  intros Hr Ht.
  destruct (proj1 (decodes_run _ _ l s decodes_prefix) (ex_intro _ r Hr)) as (e & rest & (m & Hm & -> & _) & _).
  destruct Hm as (Hm & _). simpl in Ht. rewrite Ht in Hm. by destruct t.
Qed.

Lemma lpp_message_tx {D : Decoders} ie m t : lpp_message ie = Some m -> tx m = Some t -> in_u 8 (snd t).
Proof.
  unfold lpp_message. intros ([c d] & _ & (s & Hs & [= <-])%bind_Some)%bind_Some.
  unfold decode_lpp_prefix in Hs. apply bind_Some in Hs as ([s' r] & Hr & [= ->]). by eapply read_prefix_tx.
Qed.

Lemma lpp_detail_message_tx {D : Decoders} ie m t :
  lpp_detail_message ie = Some m -> detail_tx m = Some t -> in_u 8 (snd t).
Proof.
  unfold lpp_detail_message. intros ([c d] & _ & (x & Hx & [= <-])%bind_Some)%bind_Some.
  unfold decode_lpp_detail in Hx. apply bind_Some in Hx as ([s r] & Hr & Hx).
  apply bind_Some in Hx as ([k r'] & _ & [= <-]). by eapply read_prefix_tx.
Qed.

(** A transaction an analyzer has open after a recording. *)
Definition lpp_open {D : Decoders} (l : list InformationElement) (t : Initiator * Z) : Prop :=
  is_open moves ends tx (omap lpp_message l) t.
Definition tracking_open {D : Decoders} (l : list InformationElement) (t : Initiator * Z) : Prop :=
  is_open detail_moves detail_ends detail_tx (omap lpp_detail_message l) t.

Definition known (w : transactions) (t : option (Initiator * Z)) : bool :=
  match t with Some t => bool_decide (t ∈ w) | None => false end.

Lemma once_per_transaction_severity w t sv a b :
  event_type (snd (once_per_transaction w t sv a b)) = if known w t then Informational else sv.
Proof. unfold once_per_transaction, known. destruct t as [t|]; [by case_bool_decide | done]. Qed.

(** The severities, given whether the transaction is already open. *)
Definition lpp_severity (m : LppSummary * Direction) (already : bool) : EventType :=
  match body (fst m), snd m with
  | RequestLocationInformation, Downlink | ProvideLocationInformation, Uplink =>
      if already then Informational else Low
  | RequestLocationInformation, Uplink => Low
  | _, _ => Informational
  end.
Definition tracking_severity (m : LppDetail * Direction) (already : bool) : option EventType :=
  match kind (fst m), snd m with
  | Request _ periodic _, Downlink =>
      Some (if already then Informational else if periodic then Medium else Low)
  | Request _ _ _, Uplink => Some Low
  | Response methods estimate declined, Uplink =>
      Some (if declined && negb estimate && negb (methods_any methods) then Informational
            else if already then Informational else Low)
  | Response _ _ _, Downlink => Some Informational
  | DetailOther, _ => None
  end.

Lemma lpp_event_for_severity s sm d :
  event_type (snd (lpp_event_for s sm d)) = lpp_severity (sm, d) (known (warned_transactions s) (transaction sm)).
Proof.
  assert (Hf : forall a b, event_type (snd (location_event s sm a b)) =
    if known (warned_transactions s) (transaction sm) then Informational else Low).
  { intros a b. rewrite <- (once_per_transaction_severity _ _ Low a b). unfold location_event.
    by destruct (once_per_transaction _ _ _ _ _). }
  unfold lpp_event_for, lpp_severity. cbn [fst snd].
  destruct (body sm), d; try done;
    (match goal with |- context [location_event s sm ?a ?b] =>
       rewrite <- (Hf a b); by destruct (location_event s sm a b) end).
Qed.

Lemma tracking_event_for_severity s x d :
  option_map event_type (snd (tracking_event_for s x d)) =
  tracking_severity (x, d) (known (tracking_warned_transactions s) (transaction (summary x))).
Proof.
  unfold tracking_event_for, tracking_severity, escalating_event. cbn [fst snd].
  assert (Hf : forall sv a b,
    option_map event_type (snd (let '(self, event) :=
      (let '(w, e) := once_per_transaction (tracking_warned_transactions s) (transaction (summary x)) sv a b in
       ({| tracking_warned_transactions := w |}, e)) in
      ({| tracking_warned_transactions := free_transaction (tracking_warned_transactions self) (summary x) |},
       Some event))) =
    Some (if known (tracking_warned_transactions s) (transaction (summary x)) then Informational else sv)).
  { intros sv a b. rewrite <- (once_per_transaction_severity _ _ sv a b). by destruct (once_per_transaction _ _ _ _ _). }
  destruct (kind x) as [m [] i|m e dd|], d; try done; try apply Hf.
  destruct (dd && negb e && negb (methods_any m)); [done | apply Hf].
Qed.

(** What the analyzers say of a message. *)
Lemma lpp_request_severity {D : Decoders} s ie m n t :
  lpp_message ie = Some m ->
  option_map event_type (snd (lpp_request_analyze s ie n t)) =
    Some (lpp_severity m (known (warned_transactions s) (tx m))).
Proof.
  unfold lpp_message, lpp_request_analyze. intros ([c d] & -> & (sm & -> & [= <-])%bind_Some)%bind_Some.
  pose proof (lpp_event_for_severity s sm d) as H. destruct (lpp_event_for s sm d) as [s' e].
  simpl in *. by rewrite H.
Qed.

Lemma lpp_tracking_severity {D : Decoders} s ie m n t :
  lpp_detail_message ie = Some m ->
  option_map event_type (snd (lpp_tracking_analyze s ie n t)) =
    tracking_severity m (known (tracking_warned_transactions s) (detail_tx m)).
Proof.
  unfold lpp_detail_message, lpp_tracking_analyze. intros ([c d] & -> & (x & -> & [= <-])%bind_Some)%bind_Some.
  apply tracking_event_for_severity.
Qed.

(** ** Properties *)

(** One warning per location transaction.  After any recording, a message of an LPP container is
    reported; a request from the network or a report from the device is Low when its transaction
    is not open, informational when it is, and Low when it names no transaction; a request by the
    device is Low, anything else informational.  A transaction is open exactly when it had such a
    message and no end since, that message's own included, and at most 512 are remembered. *)
Theorem lpp_request_once {D : Decoders} (l : list InformationElement) ie m n t :
  lpp_message ie = Some m ->
  (exists already, (already = true <-> exists k, tx m = Some k /\ lpp_open l k) /\
    option_map event_type (snd (lpp_request_analyze (lpp_run l) ie n t)) = Some (lpp_severity m already)) /\
  (forall k, k ∈ warned_transactions (lpp_run l) <-> lpp_open l k) /\
  (size (warned_transactions (lpp_run l)) <= 512)%nat.
Proof.
  intros Hm. assert (Hopen : forall k, k ∈ warned_transactions (lpp_run l) <-> lpp_open l k).
  { intros k. rewrite lpp_run_warned. apply once_run_open. }
  split; [|split; [exact Hopen|]].
  - exists (known (warned_transactions (lpp_run l)) (tx m)). split.
    + unfold known. destruct (tx m) as [k|]; [|naive_solver]. rewrite bool_decide_eq_true, Hopen. naive_solver.
    + by apply lpp_request_severity.
  - rewrite lpp_run_warned. apply once_run_size. intros x k (ie' & _ & Hx)%list_elem_of_omap.
    by eapply lpp_message_tx.
Qed.

(** Continuous tracking is Medium.  After any recording, a location message read in detail is
    reported by the table [tracking_severity]: a periodic request from the network is Medium and
    a single one Low, once per open transaction; a refusal is informational; a position reported
    by the device is Low once; a message that moves no location is left to the other analyzer.  At
    most 512 transactions are remembered. *)
Theorem lpp_tracking_once {D : Decoders} (l : list InformationElement) ie m n t :
  lpp_detail_message ie = Some m ->
  (exists already, (already = true <-> exists k, detail_tx m = Some k /\ tracking_open l k) /\
    option_map event_type (snd (lpp_tracking_analyze (tracking_run l) ie n t)) = tracking_severity m already) /\
  (size (tracking_warned_transactions (tracking_run l)) <= 512)%nat.
Proof.
  intros Hm. split.
  - exists (known (tracking_warned_transactions (tracking_run l)) (detail_tx m)). split.
    + unfold known, tracking_open. destruct (detail_tx m) as [k|]; [|naive_solver].
      rewrite bool_decide_eq_true, tracking_run_warned, once_run_open. naive_solver.
    + by apply lpp_tracking_severity.
  - rewrite tracking_run_warned. apply once_run_size. intros x k (ie' & _ & Hx)%list_elem_of_omap.
    by eapply lpp_detail_message_tx.
Qed.

(** Both analyzers read the same prefix. *)
Lemma lpp_detail_prefix {D : Decoders} ie x d :
  lpp_detail_message ie = Some (x, d) ->
  lpp_message ie = Some (summary x, d) /\ exists r r', read_detail (body (summary x)) r = Some (kind x, r').
Proof.
  unfold lpp_detail_message, lpp_message. intros ([c d'] & -> & Hx)%bind_Some.
  apply bind_Some in Hx as (x' & Hx & [= -> ->]). unfold decode_lpp_detail in Hx. unfold decode_lpp_prefix.
  simpl. apply bind_Some in Hx as ([s r] & Hr & Hx). apply bind_Some in Hx as ([k r'] & Hk & [= <-]).
  cbn [summary kind]. rewrite Hr. split; [done|]. by exists r, r'.
Qed.

Lemma request_kind_body b r ms p i r' :
  read_detail b r = Some (Request ms p i, r') -> b = RequestLocationInformation.
Proof.
  intros H. destruct (proj1 (decodes_detail b) _ _ _ H) as (e & He & _).
  inversion He as [|c Hc H1 H2|]; subst; [done|]. by destruct c as [| |? ? []].
Qed.

Lemma abort_other {D : Decoders} abort x d :
  lpp_detail_message abort = Some (x, d) -> body (summary x) = LppAbort -> kind x = DetailOther.
Proof.
  intros (_ & r & r' & H)%lpp_detail_prefix Hb. rewrite Hb in H. by injection H as <-.
Qed.

(** An abort does not free the transaction of the tracking analyzer.  After the network's request
    and an abort of the same transaction, the transaction is closed for the basic analyzer and
    still open for the tracking one: a new request under that number is a warning of the first
    and only a repeat to the second, which returns before its own clean-up for every message
    that is not a location message. *)
Theorem lpp_abort_keeps_tracking {D : Decoders} request abort d ms p i sa dir k n t :
  lpp_detail_message request = Some (d, Downlink) -> kind d = Request ms p i ->
  transaction (summary d) = Some k -> end_transaction (summary d) = false ->
  lpp_message abort = Some (sa, dir) -> body sa = LppAbort -> transaction sa = Some k ->
  option_map event_type (snd (lpp_request_analyze (lpp_run [request; abort]) request n t)) = Some Low /\
  option_map event_type (snd (lpp_tracking_analyze (tracking_run [request; abort]) request n t))
    = Some Informational.
Proof.
  intros Hd Hkind Hk Hend Ha Habort Hka.
  destruct (lpp_detail_prefix _ _ _ Hd) as (Hr & r & r' & Hbody). rewrite Hkind in Hbody.
  apply request_kind_body in Hbody. split.
  - rewrite lpp_request_severity with (m := (summary d, Downlink)) by done.
    unfold lpp_severity, known, tx. cbn [fst snd]. rewrite Hbody, Hk.
    rewrite bool_decide_eq_false_2; [done|]. rewrite lpp_run_warned. simpl. rewrite Hr, Ha.
    unfold once_run. cbn [fold_left]. unfold once_step at 1. unfold tx at 1. cbn [fst]. rewrite Hka.
    unfold ends, end_of. cbn [fst]. rewrite Habort, bool_decide_eq_true_2, orb_true_r by done. set_solver.
  - rewrite lpp_tracking_severity with (m := (d, Downlink)) by done.
    unfold tracking_severity, known, detail_tx. cbn [fst snd]. rewrite Hkind, Hk.
    rewrite bool_decide_eq_true_2; [done|]. rewrite tracking_run_warned. simpl. rewrite Hd.
    assert (Hin : k ∈ once_run detail_moves detail_ends detail_tx [(d, Downlink)]).
    { unfold once_run. cbn [fold_left]. unfold once_step, detail_moves, detail_ends, detail_tx, end_of.
      cbn [fst snd]. rewrite Hk, Hkind, Hend, Hbody. simpl. set_solver. }
    destruct (lpp_detail_message abort) as [[x dx]|] eqn:Hx; [|exact Hin].
    change [(d, Downlink); (x, dx)] with ([(d, Downlink)] ++ [(x, dx)]). rewrite once_run_snoc.
    destruct (lpp_detail_prefix _ _ _ Hx) as (Hsx & _). rewrite Ha in Hsx. injection Hsx as -> ->.
    pose proof (abort_other _ _ _ Hx Habort) as Hother.
    unfold once_step, detail_moves, detail_ends. cbn [fst]. rewrite Hother.
    by destruct (detail_tx (x, dx)), (snd (x, dx)).
Qed.

(** ** Witnesses: the repository's reference encodings, in transaction 5 of the network *)

Section witnesses.
Let D : Decoders := nas_decoders (fun _ => Ok NAS_Other).

Definition downlink_lpp (buf : list Z) : @InformationElement D :=
  IE_LTE (IE_NAS (NAS_EMMMessage (EMMDLGenericNASTransport LTEPositioningProtocolLPPMessageContainer buf))).
Definition periodic_request : @InformationElement D := downlink_lpp [0x90; 0x0a; 0x20; 0x40; 0x80; 0x18].
Definition abort_5 : @InformationElement D := downlink_lpp [0x90; 0x0b; 0x30; 0x00].

Lemma lpp_request_once_witness :
  option_map event_type (snd (lpp_request_analyze (lpp_run [periodic_request]) periodic_request 1 2))
    = Some Informational /\
  (size (warned_transactions (lpp_run [periodic_request])) <= 512)%nat.
Proof.
  destruct (lpp_request_once [periodic_request] periodic_request
    ({| transaction := Some (LocationServer, 5); end_transaction := false;
        body := RequestLocationInformation |}, Downlink) 1 2 eq_refl) as (_ & _ & H).
  split; [vm_compute; reflexivity | exact H].
Defined.

Lemma lpp_tracking_once_witness :
  option_map event_type (snd (lpp_tracking_analyze (tracking_run (D := D) []) periodic_request 1 2)) = Some Medium /\
  (size (tracking_warned_transactions (tracking_run (D := D) [])) <= 512)%nat.
Proof.
  destruct (lpp_tracking_once (D := D) [] periodic_request
    ({| summary := {| transaction := Some (LocationServer, 5); end_transaction := false;
                      body := RequestLocationInformation |};
        kind := Request {| gnss := false; otdoa := false; ecid := false; epdu := false |} true
                  EstimateRequired |}, Downlink) 1 2 eq_refl) as (_ & H).
  split; [vm_compute; reflexivity | exact H].
Defined.

Lemma lpp_abort_keeps_tracking_witness :
  option_map event_type (snd (lpp_request_analyze (lpp_run [periodic_request; abort_5]) periodic_request 1 2))
    = Some Low /\
  option_map event_type (snd (lpp_tracking_analyze (tracking_run [periodic_request; abort_5]) periodic_request 1 2))
    = Some Informational.
Proof.
  apply (lpp_abort_keeps_tracking periodic_request abort_5
    {| summary := {| transaction := Some (LocationServer, 5); end_transaction := false;
                     body := RequestLocationInformation |};
       kind := Request {| gnss := false; otdoa := false; ecid := false; epdu := false |} true
                 EstimateRequired |}
    {| gnss := false; otdoa := false; ecid := false; epdu := false |} true EstimateRequired
    {| transaction := Some (LocationServer, 5); end_transaction := true; body := LppAbort |}
    Downlink (LocationServer, 5) 1 2); vm_compute; reflexivity.
Defined.
End witnesses.
