(* ===== verification/Qmdl.v ===== *)
(** * QMDL recordings ([lib/src/qmdl.rs])

    A recording is the concatenation of the HDLC frames of its containers, gzipped.  The gzip
    streams and the buffered reader belong to other crates: they are the classes [GzipEncoder],
    [AsyncRead], [SeekRead] and [BufRead], each with what this file relies on. *)

From S2P Require Import Prelude RustStr Deku Hdlc Diag.

Local Open Scope Z_scope.

Definition GZIP_MAGIC_NUMBER : Z := 0x1f8b.

Inductive ErrorKind := UnexpectedEof | OtherError.

#[export] Instance ErrorKind_eq_dec : EqDecision ErrorKind.
Proof. solve_decision. Defined.

(** An operation on a stream: what it returns and the stream after it. *)
Abbreviation io A T := (result ErrorKind A * T)%type.

(** ** What the streams are *)

(** [GzipEncoder<T>]: [plain] is what has been handed to it. *)
Class GzipEncoder (W : Type) := {
  plain : W -> list Z;
  write_all : list Z -> W -> io unit W;
  flush : W -> io unit W;
  shutdown : W -> io unit W;
  stream_position : W -> io Z W;
  plain_write_all data w w' : write_all data w = (Ok tt, w') -> plain w' = plain w ++ data;
  plain_flush w : plain (snd (flush w)) = plain w
}.

(** [poll_read] of an [AsyncRead]: the bytes it appended to the buffer and how it ended. *)
Inductive Poll (A : Type) := Ready (a : A) | Pending.
Arguments Ready {A} a.
Arguments Pending {A}.
Class AsyncRead (G : Type) := {
  poll_read : G -> (list Z * Poll (result ErrorKind unit)) * G
}.

Class SeekRead (T : Type) := {
  read_u16 : T -> io Z T;
  rewind : T -> io unit T
}.

(** [read_until] of a buffered reader over the bytes [contents]: it takes the first piece of
    [split_inclusive], unless the reader below it fails. *)
Class BufRead (B : Type) := {
  contents : B -> list Z;
  read_until : Z -> B -> io (list Z) B;
  read_until_ok byte r buf r' :
    read_until byte r = (Ok buf, r') ->
    contents r = buf ++ contents r' /\ buf = default [] (head (split_inclusive byte (contents r)))
}.

(** ** The writer *)

Record QmdlWriter W := { writer : W }.
Arguments writer {W} q.
Arguments Build_QmdlWriter {W} writer.

Section writer.
Context {W : Type} `{!GzipEncoder W}.

Definition QmdlWriter_size (self : QmdlWriter W) : io Z (QmdlWriter W) :=
  let '(r, w) := stream_position (writer self) in
  (match r with Ok size => Ok (wrapu 64 size) | Err e => Err e end, {| writer := w |}).

Fixpoint write_messages (w : W) (messages : list HdlcEncapsulatedMessage) : io unit W :=
  match messages with
  | [] => (Ok tt, w)
  | msg :: messages =>
      match write_all (data msg) w with
      | (Err e, w) => (Err e, w)
      | (Ok _, w) => write_messages w messages
      end
  end.

Definition write_container (container : MessagesContainer) (self : QmdlWriter W) : io unit (QmdlWriter W) :=
  match write_messages (writer self) (messages container) with
  | (Err e, w) => (Err e, {| writer := w |})
  | (Ok _, w) => let '(r, w) := flush w in (r, {| writer := w |})
  end.

Definition QmdlWriter_close (self : QmdlWriter W) : io Z (QmdlWriter W) :=
  match shutdown (writer self) with
  | (Err e, w) => (Err e, {| writer := w |})
  | (Ok _, w) => QmdlWriter_size {| writer := w |}
  end.

(** A session: containers written one after the other until one fails. *)
Fixpoint write_containers (cs : list MessagesContainer) (self : QmdlWriter W) : io unit (QmdlWriter W) :=
  match cs with
  | [] => (Ok tt, self)
  | c :: cs =>
      match write_container c self with
      | (Err e, self) => (Err e, self)
      | (Ok _, self) => write_containers cs self
      end
  end.
End writer.

(** ** The reader's source *)

Inductive QmdlReaderSource (G T : Type) :=
| Compressed (reader : G) (eof : bool)
| Uncompressed (reader : T).
Arguments Compressed {G T} reader eof.
Arguments Uncompressed {G T} reader.

Definition QmdlAsyncReader_new {G T} (decoder : T -> G) (reader : T) (compressed : bool) : QmdlReaderSource G T :=
  if compressed then Compressed (decoder reader) false else Uncompressed reader.

(** [QmdlAsyncReader::poll_read]. *)
Definition qmdl_poll_read {G T} `{!AsyncRead G, !AsyncRead T} (self : QmdlReaderSource G T)
    : (list Z * Poll (result ErrorKind unit)) * QmdlReaderSource G T :=
  match self with
  | Compressed reader eof =>
      if eof then (([], Ready (Ok tt)), self)
      else
        match poll_read reader with
        | ((bs, Ready (Err UnexpectedEof)), reader) => ((bs, Ready (Ok tt)), Compressed reader true)
        | (res, reader) => (res, Compressed reader eof)
        end
  | Uncompressed reader => let '(res, reader) := poll_read reader in (res, Uncompressed reader)
  end.

#[export] Instance QmdlAsyncReader_AsyncRead {G T} `{!AsyncRead G, !AsyncRead T} : AsyncRead (QmdlReaderSource G T) := {|
  poll_read := qmdl_poll_read
|}.

Definition is_gzip_stream {T} `{!SeekRead T} (reader : T) : io bool T :=
  match read_u16 reader with
  | (Err e, reader) => (Err e, reader)
  | (Ok magic_number, reader) =>
      match rewind reader with
      | (Err e, reader) => (Err e, reader)
      | (Ok _, reader) => (Ok (magic_number =? GZIP_MAGIC_NUMBER), reader)
      end
  end.

(** [QmdlMessageReader::new]; [buffered] is [BufReader::new]. *)
Definition QmdlMessageReader_new {G T B} `{!SeekRead T} (decoder : T -> G)
    (buffered : QmdlReaderSource G T -> B) (reader : T) : B :=
  let '(gz, reader) := is_gzip_stream reader in
  let compressed := match gz with Ok b => b | Err _ => false end in
  buffered (QmdlAsyncReader_new decoder reader compressed).

Definition is_compressed {G T} (self : QmdlReaderSource G T) : bool :=
  match self with Compressed _ _ => true | Uncompressed _ => false end.

(** ** Messages *)

Section reader.
Context {C : Crc16} {K : Deku} {R : DiagReader} {B : Type} `{!BufRead B}.

Definition get_next_message (self : B) : io (option (result DiagParsingError Message)) B :=
  match read_until MESSAGE_TERMINATOR self with
  | (Err e, self) => (Err e, self)
  | (Ok buf, self) =>
      if (length buf =? 0)%nat then (Ok None, self) else (Ok (Some (from_hdlc buf)), self)
  end.

(** [into_message_stream]: the items and how the stream ended; [None] when the fuel is too
    small. *)
Fixpoint into_message_stream (fuel : nat) (self : B)
    : option (list (result DiagParsingError Message) * result ErrorKind unit) :=
  match fuel with
  | O => None
  | S fuel =>
      match get_next_message self with
      | (Err e, _) => Some ([], Err e)
      | (Ok None, _) => Some ([], Ok tt)
      | (Ok (Some res), reader) => '(items, e) ← into_message_stream fuel reader; Some (res :: items, e)
      end
  end.

(** [into_qmdl_stream]: the frames as bytes. *)
Fixpoint into_qmdl_stream (fuel : nat) (self : B) : option (list (list Z) * result ErrorKind unit) :=
  match fuel with
  | O => None
  | S fuel =>
      match read_until MESSAGE_TERMINATOR self with
      | (Err e, _) => Some ([], Err e)
      | (Ok buf, reader) =>
          if (length buf =? 0)%nat then Some ([], Ok tt)
          else '(items, e) ← into_qmdl_stream fuel reader; Some (buf :: items, e)
      end
  end.
End reader.

(** ** What the streams yield *)

Section stream.
Context {C : Crc16} {K : Deku} {R : DiagReader} {B : Type} `{!BufRead B}.

(** A reader that never fails on its way. *)
Definition healthy (r : B) : Prop := forall byte, exists buf r', read_until byte r = (Ok buf, r').
Definition always_healthy : Prop := forall r : B, healthy r.

Lemma piece_nonempty c s : s <> [] -> exists w ws, split_inclusive c s = w :: ws /\ w <> [].
Proof.
  destruct s as [|x s]; [done|]. intros _. simpl. destruct (x =? c); [by eexists _, _|].
  destruct (split_inclusive c s); by eexists _, _.
Qed.

(** Dropping the first piece leaves the others. *)
Lemma split_inclusive_tail_pieces c s w ws :
  split_inclusive c s = w :: ws -> exists s', s = w ++ s' /\ split_inclusive c s' = ws.
Proof.
  revert w ws. induction s as [|x s IH]; intros w ws; simpl; [done|].
  destruct (x =? c); [intros [= <- <-]; by exists s|].
  destruct (split_inclusive c s) as [|w' ws'] eqn:E.
  - intros [= <- <-]. exists []. split; [|done]. destruct s as [|y s]; [done|].
    destruct (piece_nonempty c (y :: s)) as (? & ? & E' & _); congruence.
  - intros [= <- <-]. destruct (IH w' ws' eq_refl) as (s' & -> & Hs). by exists s'.
Qed.

(** Enough fuel is one more than the bytes left; the items are the pieces of the contents. *)
Lemma into_message_stream_pieces fuel r :
  always_healthy -> (length (contents r) < fuel)%nat ->
  into_message_stream fuel r = Some (map from_hdlc (split_inclusive MESSAGE_TERMINATOR (contents r)), Ok tt).
Proof.
  intros Hh. revert r. induction fuel as [|fuel IH]; intros r Hf; [lia|]. cbn [into_message_stream].
  unfold get_next_message. destruct (Hh r MESSAGE_TERMINATOR) as (buf & r' & E). rewrite E.
  destruct (read_until_ok _ _ _ _ E) as [Hc Hbuf].
  destruct (decide (contents r = [])) as [He|Hne].
  { rewrite He in Hbuf. simpl in Hbuf. subst buf. by rewrite He. }
  destruct (piece_nonempty MESSAGE_TERMINATOR _ Hne) as (w & ws & Hs & Hw).
  rewrite Hs in Hbuf. simpl in Hbuf. subst buf.
  destruct (split_inclusive_tail_pieces _ _ _ _ Hs) as (s' & Hs' & Hws).
  assert (contents r' = s') as Hr' by (rewrite Hs' in Hc; by apply app_inv_head in Hc).
  rewrite Hs. destruct w as [|x w]; [done|]. cbn [length Nat.eqb map].
  assert (Hlen : (length (contents r') < fuel)%nat).
  { rewrite Hc, length_app in Hf. simpl in Hf. lia. }
  rewrite (IH r' Hlen), Hr', Hws. done.
Qed.

Lemma from_hdlc_encapsulated d : from_hdlc (hdlc_encapsulate d) = parse_message d.
Proof. by rewrite from_hdlc_frame, decapsulate_frame. Qed.

(** Every truncation of a concatenation of frames is some whole frames and a part of the next. *)
Lemma take_frames ds n :
  exists k tail, take n (flat_map hdlc_encapsulate ds) = flat_map hdlc_encapsulate (take k ds) ++ tail /\
    (k <= length ds)%nat /\ (MESSAGE_TERMINATOR ∉ tail) /\
    (length (flat_map hdlc_encapsulate (take k ds)) <= n)%nat /\
    (k = length ds \/ (n < length (flat_map hdlc_encapsulate (take (S k) ds)))%nat).
Proof.
  revert n. induction ds as [|d ds IH]; intros n.
  { exists 0%nat, []. simpl. rewrite take_nil. split; [done|]. split; [done|]. split; [set_solver|].
    split; [lia | by left]. }
  cbn [flat_map]. destruct (decide (n < length (hdlc_encapsulate d))%nat) as [Hn|Hn].
  - exists 0%nat, (take n (hdlc_encapsulate d)). rewrite take_app_le by lia. split; [done|].
    split; [lia|]. split; [|split; [simpl; lia|]].
    + rewrite encapsulate_body in *. rewrite length_app in Hn. simpl in Hn.
      rewrite take_app_le by lia. intros Hin. apply (frame_body_no_terminator d).
      by eapply subseteq_take.
    + right. simpl. rewrite app_nil_r. done.
  - destruct (IH (n - length (hdlc_encapsulate d))%nat) as (k & tail & Ht & Hk & Htail & Hlen & Hmax).
    exists (S k), tail. rewrite take_app_ge by lia. rewrite Ht. cbn [take flat_map length].
    rewrite <- app_assoc, !length_app. split; [done|]. split; [lia|]. split; [done|]. split; [lia|].
    destruct Hmax as [->|Hmax]; [by left|]. right. simpl in Hmax |- *. lia.
Qed.
End stream.

Section written.
Context {W : Type} `{!GzipEncoder W}.

Lemma write_messages_plain ms w w' :
  write_messages w ms = (Ok tt, w') -> plain w' = plain w ++ flat_map data ms.
Proof.
  revert w. induction ms as [|m ms IH]; intros w; cbn [write_messages flat_map].
  { intros [= ->]. by rewrite app_nil_r. }
  destruct (write_all (data m) w) as [[[]|e] w1] eqn:E; [|done]. intros H.
  by rewrite (IH _ H), (plain_write_all _ _ _ E), <- app_assoc.
Qed.

Lemma write_containers_plain cs (self self' : QmdlWriter W) :
  write_containers cs self = (Ok tt, self') ->
  plain (writer self') = plain (writer self) ++ flat_map data (flat_map messages cs).
Proof.
  revert self. induction cs as [|c cs IH]; intros self; cbn [write_containers flat_map].
  { intros [= ->]. by rewrite app_nil_r. }
  unfold write_container. destruct (write_messages _ _) as [[[]|e] w1] eqn:E; [|done].
  pose proof (plain_flush w1) as Hp. destruct (flush w1) as [[[]|e] w2]; [|done]. intros H.
  cbn [snd] in Hp. rewrite (IH _ H). cbn [writer]. rewrite Hp, (write_messages_plain _ _ _ E), flat_map_app.
  by rewrite <- app_assoc.
Qed.
End written.

(** ** A truncated gzip stream *)

(** What a source yields to someone who reads until it ends: the bytes, and the error that ended
    it, if any. *)
Inductive yields {G} `{!AsyncRead G} : G -> list Z -> option ErrorKind -> Prop :=
| yields_eof g g' : poll_read g = (([], Ready (Ok tt)), g') -> yields g [] None
| yields_error g g' bs e : poll_read g = ((bs, Ready (Err e)), g') -> yields g bs (Some e)
| yields_bytes g g' bs rest e :
    poll_read g = ((bs, Ready (Ok tt)), g') -> bs <> [] -> yields g' rest e -> yields g (bs ++ rest) e
| yields_pending g g' rest e : poll_read g = (([], Pending), g') -> yields g' rest e -> yields g rest e.

Lemma yields_compressed_eof {G T} `{!AsyncRead G, !AsyncRead T} (g : G) :
  yields (Compressed (T := T) g true) [] None.
Proof. by eapply yields_eof. Qed.

(** The decoder's stream through [QmdlAsyncReader]. *)
Lemma yields_compressed {G T} `{!AsyncRead G, !AsyncRead T} (g : G) bytes e :
  yields g bytes e ->
  yields (Compressed (T := T) g false) bytes
    (match e with Some UnexpectedEof => None | e => e end).
Proof.
  induction 1 as [g g' H|g g' bs e H|g g' bs rest e H Hne _ IH|g g' rest e H _ IH].
  - apply (yields_eof _ (Compressed g' false)). cbn. by rewrite H.
  - destruct e.
    + destruct bs as [|b bs].
      * apply (yields_eof _ (Compressed g' true)). cbn. by rewrite H.
      * rewrite <- (app_nil_r (b :: bs)). apply (yields_bytes _ (Compressed g' true)); [|done|apply yields_compressed_eof].
        cbn. by rewrite H.
    + apply (yields_error _ (Compressed g' false)). cbn. by rewrite H.
  - apply (yields_bytes _ (Compressed g' false)); [|done|exact IH]. cbn. by rewrite H.
  - apply (yields_pending _ (Compressed g' false)); [|exact IH]. cbn. by rewrite H.
Qed.

(** What a source yields is determined. *)
Lemma yields_det {G} `{!AsyncRead G} (g : G) b e b' e' : yields g b e -> yields g b' e' -> b = b' /\ e = e'.
Proof.
  intros H. revert b' e'. induction H as [g g1 H|g g1 bs e H|g g1 bs rest e H Hne _ IH|g g1 rest e H _ IH];
    intros b' e' H'; inversion H' as [? ? H2|? ? ? ? H2|? ? ? ? ? H2 ? H3|? ? ? ? H2 H3]; subst;
    rewrite H in H2; simplify_eq; try done.
  - by destruct (IH _ _ H3) as [-> ->].
  - by apply IH.
Qed.

(** ** Properties *)

Section properties.
Context {C : Crc16} {K : Deku} {R : DiagReader}.


(** A truncated gzip stream is a short stream.  Reading a compressed recording yields exactly
    the bytes the decoder could produce, and nothing else: the decoder's unexpected end of file
    has become an ordinary end, and every other error is passed on. *)
Theorem truncated_gzip_is_eof {G T} `{!AsyncRead G, !AsyncRead T} (decoder : T -> G) (reader : T) bytes e :
  yields (decoder reader) bytes e ->
  forall bytes' e', yields (QmdlAsyncReader_new decoder reader true) bytes' e' <->
    bytes' = bytes /\ e' = match e with Some UnexpectedEof => None | e => e end.
Proof.
  intros H bytes' e'. apply (@yields_compressed G T _ _) in H. split.
  - intros H'. by apply (yields_det _ _ _ _ _ H').
  - by intros [-> ->].
Qed.
End properties.

(** ** Witnesses: streams in memory *)

#[export] Program Instance list_encoder : GzipEncoder (list Z) := {|
  plain := fun w => w; write_all := fun data w => (Ok tt, w ++ data); flush := fun w => (Ok tt, w);
  shutdown := fun w => (Ok tt, w); stream_position := fun w => (Ok (Z.of_nat (length w)), w) |}.
Next Obligation. by intros ? ? ? [= <-]. Qed.
Next Obligation. done. Qed.

#[export] Program Instance list_reader : BufRead (list Z) := {|
  contents := fun r => r;
  read_until := fun byte r => let buf := default [] (head (split_inclusive byte r)) in
    (Ok buf, drop (length buf) r) |}.
Next Obligation.
  intros byte r buf r' [= <- <-]. split; [|done]. destruct (split_inclusive byte r) as [|w ws] eqn:E; simpl.
  - by rewrite drop_0.
  - destruct (split_inclusive_tail_pieces _ _ _ _ E) as (s' & -> & _). by rewrite drop_app_length.
Qed.

(** A decoder that gives one chunk a poll, then fails. *)
#[export] Instance script_read : AsyncRead (list (list Z)) := {|
  poll_read := fun g => match g with
    | [] => (([], Ready (Err UnexpectedEof)), [])
    | c :: g => ((c, Ready (Ok tt)), g) end |}.


Lemma truncated_gzip_is_eof_witness :
  yields (QmdlAsyncReader_new (T := list (list Z)) (fun t => t) [[1; 2]; [3]] true) [1; 2; 3] None.
Proof.
  apply (truncated_gzip_is_eof (fun t => t) [[1; 2]; [3]] [1; 2; 3] (Some UnexpectedEof)); [|by split].
  apply (yields_bytes [[1; 2]; [3]] [[3]] [1; 2] [3]); [reflexivity | done|].
  apply (yields_bytes [[3]] [] [3] []); [reflexivity | done|].
  by apply (yields_error [] []).
Defined.
