(* ===== verification/Config.v ===== *)
(** * Configured harness ([lib/src/analysis/analyzer.rs], [AnalyzerConfig] and [Harness::new_with_config])

    Which detectors a configuration runs and in which order, and the theorem that links the
    harness to the detectors: slot [k] of every row holds what the [k]-th detector, run on its
    own over the same packets, says. *)

From S2P Require Import Prelude RustStr Deku Hdlc DiagLog Diag Gsmtap GsmtapParser LteRrc InformationElement Analyzer.
From S2P Require Import FlashCatch ImsiRequested NoNas TimingAdvance Detectors Priority2g Rrlp LppDetectors.

Local Open Scope Z_scope.

Record AnalyzerConfig := {
  diagnostic_analyzer : bool;
  connection_redirect_2g_downgrade : bool;
  lte_sib6_and_7_downgrade : bool;
  null_cipher : bool;
  nas_null_cipher : bool;
  incomplete_sib : bool;
  test_analyzer : bool;
  imsi_requested : bool;
  lpp_location_request : bool;
  lpp_location_tracking : bool;
  rrlp_location_request : bool;
  timing_advance : bool;
  flash_catch : bool;
  no_nas_messages : bool
}.

Definition AnalyzerConfig_default : AnalyzerConfig := {|
  imsi_requested := true; diagnostic_analyzer := true; connection_redirect_2g_downgrade := true;
  lte_sib6_and_7_downgrade := true; null_cipher := true; nas_null_cipher := true;
  incomplete_sib := true; test_analyzer := false; lpp_location_request := true;
  lpp_location_tracking := true; rrlp_location_request := true; timing_advance := true;
  flash_catch := true; no_nas_messages := false
|}.

(** [DeviceMetadata]: a [BTreeSet<String>], as its sorted list. *)
Record DeviceMetadata := { metadata_home_plmn : list rstr }.

Definition add_if {D : Decoders} (enabled : bool) (a : DynAnalyzer) (h : Harness) : Harness :=
  if enabled then add_analyzer h a else h.

Definition new_with_config {D : Decoders} (analyzer_config : AnalyzerConfig)
    (device_metadata : DeviceMetadata) : Harness :=
  let harness := Harness_new in
  let harness := add_if (imsi_requested analyzer_config)
    (boxed (ImsiRequested_new (metadata_home_plmn device_metadata))) harness in
  let harness := add_if (connection_redirect_2g_downgrade analyzer_config) (boxed ConnectionRedirect_new) harness in
  let harness := add_if (lte_sib6_and_7_downgrade analyzer_config) (boxed LteSib6And7_new) harness in
  let harness := add_if (null_cipher analyzer_config) (boxed NullCipher_new) harness in
  let harness := add_if (nas_null_cipher analyzer_config) (boxed NasNullCipher_new) harness in
  let harness := add_if (incomplete_sib analyzer_config) (boxed IncompleteSib_new) harness in
  let harness := add_if (lpp_location_request analyzer_config) (boxed LppLocationRequest_new) harness in
  let harness := add_if (lpp_location_tracking analyzer_config) (boxed LppLocationTracking_new) harness in
  let harness := add_if (rrlp_location_request analyzer_config) (boxed RrlpLocation_new) harness in
  let harness := add_if (timing_advance analyzer_config) (boxed TimingAdvance_new) harness in
  let harness := add_if (flash_catch analyzer_config) (boxed FlashCatch_new) harness in
  let harness := add_if (test_analyzer analyzer_config) (boxed TestAnalyzer_new) harness in
  let harness := add_if (no_nas_messages analyzer_config) (boxed NoNas_new) harness in
  add_if (diagnostic_analyzer analyzer_config) (boxed Diagnostic_new) harness.

(** ** Detectors on their own *)

Section alone.
Context {C : Crc16} {K : Deku} {R : DiagReader} {D : Decoders} {T : DebugText}.

(** What a message is to the detectors: an element, a packet they only hear of, or nothing. *)
Inductive Input := Element (ie : InformationElement) (timestamp : Z) | Skipped (timestamp : Z).

Definition message_input (m : result DiagParsingError Message) : option Input :=
  match m with
  | Ok (Log _ _ _ _ timestamp _ as q) =>
      match parse q with
      | Ok (Some (ts, g)) =>
          match ie_try_from g with
          | Ok ie => Some (Element ie (to_datetime ts))
          | Err _ => Some (Skipped (to_datetime ts))
          end
      | _ => Some (Skipped (to_datetime timestamp))
      end
  | _ => None
  end.

(** One detector on one packet, and over a recording that starts after packet [n]. *)
Definition alone_step {S} `{!Analyzer S} (s : S) (n : Z) (i : option Input) : S * option Event :=
  match i with
  | None => (s, None)
  | Some (Element ie t) => analyze_information_element s ie n t
  | Some (Skipped t) => report_skipped_packet s t
  end.

Fixpoint alone_run {S} `{!Analyzer S} (s : S) (n : Z) (l : list (option Input)) : S * list (option Event) :=
  match l with
  | [] => (s, [])
  | i :: l' =>
      let '(s, e) := alone_step s (n + 1) i in
      let '(s, es) := alone_run s (n + 1) l' in (s, e :: es)
  end.

(** The number of the packet at the end of an event's text. *)
Definition numbered (n : Z) (e : Event) : Event :=
  {| event_type := event_type e; message := message e ++ (lit " (packet " ++ dec n ++ lit ")") |}.

(** ** Lemmas *)

Definition dyn_step (n : Z) (i : Input) : DynAnalyzer -> DynAnalyzer * option Event :=
  match i with Element ie t => dyn_analyze ie n t | Skipped t => dyn_skipped t end.

Lemma dyn_step_boxed {S} `{!Analyzer S} (s : S) n i :
  dyn_step n i (boxed s) = (boxed (fst (alone_step s n (Some i))), snd (alone_step s n (Some i))).
Proof.
  destruct i as [ie t|t]; unfold dyn_step, dyn_analyze, dyn_skipped, alone_step; cbn [dyn_type dyn_impl dyn_state boxed].
  - by destruct (analyze_information_element s ie n t).
  - by destruct (report_skipped_packet s t).
Qed.

Lemma run_analyzers_map f n l :
  run_analyzers f (lit " (packet " ++ dec n ++ lit ")") l =
  (map (fun a => fst (f a)) l, map (fun a => option_map (numbered n) (snd (f a))) l).
Proof.
  induction l as [|a l IH]; [done|]. cbn [run_analyzers map]. destruct (f a) as [a' o]. rewrite IH.
  by destruct o.
Qed.

Lemma harness_with_map (self : Harness) f :
  harness_with self f = Some
    ({| analyzers := map (fun a => fst (f a)) (analyzers self); packet_num := packet_num self |},
     map (fun a => option_map (numbered (packet_num self)) (snd (f a))) (analyzers self)).
Proof.
  unfold harness_with, packet_suffix, assert_events_match_analyzers. rewrite run_analyzers_map.
  cbn [fst snd]. by rewrite !length_map, Nat.eqb_refl.
Qed.

(** One message, in every slot. *)
Lemma analyze_qmdl_message_map (self : Harness) m :
  let n := packet_num self + 1 in
  exists row, analyze_qmdl_message self m = Some
    ({| analyzers := match message_input m with
          | Some i => map (fun a => fst (dyn_step n i a)) (analyzers self)
          | None => analyzers self end;
        packet_num := n |}, row) /\
    events row = match message_input m with
      | Some i => map (fun a => option_map (numbered n) (snd (dyn_step n i a))) (analyzers self)
      | None => [] end.
Proof.
  intros n. unfold analyze_qmdl_message, message_input, harness_report_skipped, harness_analyze_ie.
  destruct m as [[p o i lt t body|]|e]; [|by eexists | by eexists].
  destruct (parse _) as [[[ts g]|]|e].
  - destruct (ie_try_from g) as [ie|err]; rewrite harness_with_map; by eexists.
  - rewrite harness_with_map. by eexists.
  - rewrite harness_with_map. by eexists.
Qed.

(** A detector keeps its slot, and its state there is its own. *)
Lemma analyze_message_slot {S} `{!Analyzer S} (self : Harness) m k (s : S) :
  analyzers self !! k = Some (boxed s) ->
  exists self' row, analyze_qmdl_message self m = Some (self', row) /\
    packet_num self' = packet_num self + 1 /\
    analyzers self' !! k = Some (boxed (fst (alone_step s (packet_num self + 1) (message_input m)))) /\
    (is_Some (message_input m) -> events row !! k = Some (option_map (numbered (packet_num self + 1))
      (snd (alone_step s (packet_num self + 1) (message_input m))))).
Proof.
  intros Hk. destruct (analyze_qmdl_message_map self m) as (row & Hrow & Hev).
  eexists _, row. split; [exact Hrow|]. split; [done|]. cbn [analyzers].
  destruct (message_input m) as [i|]; [|split; [exact Hk | by intros []]].
  rewrite Hev, !list_lookup_fmap, Hk. cbn [fmap option_fmap option_map]. rewrite dyn_step_boxed.
  by split.
Qed.

Lemma analyze_all_slot {S} `{!Analyzer S} (self : Harness) l k (s : S) :
  analyzers self !! k = Some (boxed s) ->
  exists self' rows, analyze_all self l = Some (self', rows) /\
    packet_num self' = packet_num self + Z.of_nat (length l) /\
    analyzers self' !! k = Some (boxed (fst (alone_run s (packet_num self) (map message_input l)))).
Proof.
  revert self s. induction l as [|m l IH]; intros self s Hk.
  { exists self, []. split; [done|]. split; [simpl; lia | done]. }
  destruct (analyze_message_slot self m k s Hk) as (s1 & row & H1 & Hn & Hk1 & _).
  destruct (IH _ _ Hk1) as (s2 & rows & H2 & Hn2 & Hk2). exists s2, (row :: rows).
  cbn [analyze_all map alone_run length]. rewrite H1. cbn [mbind option_bind]. rewrite H2. cbn [mbind option_bind].
  split; [done|]. split; [lia|]. rewrite Hk2, Hn.
  destruct (alone_step s (packet_num self + 1) (message_input m)) as [s' e]. cbn [fst].
  by destruct (alone_run s' _ _).
Qed.
End alone.

(** A detector the configuration enables has a slot in the harness, in its initial state. *)
Lemma lookup_add_if {D : Decoders} b a (h : Harness) k x :
  analyzers h !! k = Some x -> analyzers (add_if b a h) !! k = Some x.
Proof. intros H. destruct b; [|done]. by apply lookup_app_l_Some. Qed.

Lemma lookup_added {D : Decoders} a (h : Harness) : analyzers (add_if true a h) !! length (analyzers h) = Some a.
Proof. unfold add_if, add_analyzer. cbn [analyzers]. by rewrite lookup_app_r, Nat.sub_diag. Qed.

(** Peel the steps of [new_with_config] until the slot's own. *)
Ltac find_slot := unfold new_with_config; intros ->; eexists;
  repeat (first [apply lookup_added | apply lookup_add_if]).

Lemma null_cipher_slot {D : Decoders} c d :
  null_cipher c = true -> exists k, analyzers (new_with_config c d) !! k = Some (boxed NullCipher_new).
Proof. find_slot. Qed.
Lemma flash_catch_slot {D : Decoders} c d :
  flash_catch c = true -> exists k, analyzers (new_with_config c d) !! k = Some (boxed FlashCatch_new).
Proof. find_slot. Qed.

Lemma new_with_config_packet_num {D : Decoders} c d : packet_num (new_with_config c d) = 0.
Proof. unfold new_with_config, add_if. repeat (match goal with |- context [if ?b then _ else _] => destruct b end); reflexivity. Qed.

(** ** Properties *)

Section properties.
Context {C : Crc16} {K : Deku} {R : DiagReader} {D : Decoders} {T : DebugText}.

(** C1: the harness is its detectors.  Whatever else runs beside it, a detector in slot [k] goes
    through exactly the states it would go through alone on the recording's packets, and what
    slot [k] of a packet's row holds is what the detector alone says of the packet, with the
    packet's number appended.  Every theorem about a detector is thereby one about the report. *)
Theorem detector_in_harness {S} `{!Analyzer S} (self : Harness) l m k (s : S) :
  analyzers self !! k = Some (boxed s) ->
  exists self1 rows self2 row,
    analyze_all self l = Some (self1, rows) /\ analyze_qmdl_message self1 m = Some (self2, row) /\
    let n := packet_num self + Z.of_nat (length l) + 1 in
    let s1 := fst (alone_run s (packet_num self) (map message_input l)) in
    analyzers self2 !! k = Some (boxed (fst (alone_step s1 n (message_input m)))) /\
    (is_Some (message_input m) ->
     events row !! k = Some (option_map (numbered n) (snd (alone_step s1 n (message_input m))))).
Proof.
  intros Hk. destruct (analyze_all_slot self l k s Hk) as (self1 & rows & H1 & Hn & Hk1).
  destruct (analyze_message_slot self1 m k _ Hk1) as (self2 & row & H2 & _ & Hk2 & Hev).
  exists self1, rows, self2, row. split; [done|]. split; [done|]. rewrite Hn in Hk2, Hev. by split.
Qed.

(** C18: a null cipher is always reported.  With the detector enabled, whatever the other settings
    and whatever the recording held before, a downlink message that offers EEA0 makes its
    packet's row a warning of the highest severity. *)
Theorem null_cipher_reported c device l m x t :
  null_cipher c = true -> message_input m = Some (Element (IE_LTE (IE_DlDcch x)) t) -> dcch_offers x EEA0 ->
  exists self1 rows self2 row,
    analyze_all (new_with_config c device) l = Some (self1, rows) /\
    analyze_qmdl_message self1 m = Some (self2, row) /\
    contains_warnings row = true /\ get_max_event_type row = High.
Proof.
  intros Hc Hm Hx. destruct (null_cipher_slot c device Hc) as [k Hk].
  destruct (analyze_all_slot _ l k NullCipher_new Hk) as (self1 & rows & H1 & Hn & Hk1).
  destruct (alone_run NullCipher_new _ _) as [[] es]. cbn [fst] in Hk1.
  destruct (analyze_message_slot self1 m k _ Hk1) as (self2 & row & H2 & _ & _ & Hev).
  exists self1, rows, self2, row. split; [done|]. split; [done|].
  rewrite Hm in Hev. specialize (Hev (ex_intro _ _ eq_refl)). cbn [alone_step analyze_information_element] in Hev.
  change (analyze_information_element NullCipher_new) with (null_cipher_analyze NullCipher_new) in Hev.
  rewrite null_cipher_dcch, (proj2 (dcch_offers_check x) Hx) in Hev.
  apply list_elem_of_lookup_2 in Hev. split.
  - apply warnings_iff. eexists. split; [exact Hev | done].
  - by eapply high_row.
Qed.
End properties.

(** ** Witnesses *)

Section witnesses.
(** A network whose every dedicated downlink message is a security mode command choosing EEA0. *)
Definition null_command : DL_DCCH_Message := {| dcch_message := DCCH_C1 (DCCH_SecurityModeCommand
  {| smc_critical_extensions := SMC_C1 (SecurityModeCommand_r8
     {| security_config_smc := {| smc_security_algorithm_config := {| ciphering_algorithm := EEA0; integrity_prot_algorithm := 0 |} |} |}) |}) |}.
Let D : Decoders := sample_decoders (fun _ => Ok NAS_Other) (fun _ => Ok null_command).
Definition null_message : result (@DiagParsingError deku_fits) Message :=
  Ok (Log 0 0 0 0xb0c0 {| ts := 0 |} (LteRrcOtaMessage 2 (LteRrc_V0 9 0 1 2 3 4 6 1 [0]))).
Definition default_harness : @Harness D := @new_with_config D AnalyzerConfig_default {| metadata_home_plmn := [] |}.

Lemma null_cipher_reported_witness :
  exists self1 rows self2 row,
    @analyze_all deku_fits D plain_debug default_harness [null_message] = Some (self1, rows) /\
    @analyze_qmdl_message deku_fits D plain_debug self1 null_message = Some (self2, row) /\
    get_max_event_type row = High.
Proof.
  destruct (@null_cipher_reported deku_fits D plain_debug AnalyzerConfig_default
    {| metadata_home_plmn := [] |} [null_message] null_message null_command (to_datetime {| ts := 0 |})
    eq_refl) as (s1 & rows & s2 & row & H1 & H2 & _ & H3).
  - vm_compute. reflexivity.
  - apply dcch_security_mode.
  - by exists s1, rows, s2, row.
Defined.

Lemma detector_in_harness_witness :
  exists self1 rows self2 row,
    @analyze_all deku_fits D plain_debug default_harness [null_message] = Some (self1, rows) /\
    @analyze_qmdl_message deku_fits D plain_debug self1 null_message = Some (self2, row) /\
    events row !! 3%nat = Some (Some (numbered 2 {| event_type := High;
      message := lit "Cell suggested use of null cipher" |})).
Proof.
  destruct (@detector_in_harness deku_fits D plain_debug NullCipherAnalyzer _ default_harness [null_message]
    null_message 3 NullCipher_new eq_refl) as (s1 & rows & s2 & row & H1 & H2 & _ & H3).
  exists s1, rows, s2, row. split; [exact H1|]. split; [exact H2|]. rewrite H3; [vm_compute; reflexivity|].
  vm_compute. by eexists.
Defined.
End witnesses.
