(* ===== verification/Glob.v ===== *)
(** * Bounded glob matching ([radio/src/glob.rs])

    The two-pointer scan, as the loop it is: the fuel is one more than the number of turns the
    loop can take, which is bounded by the product of the lengths. *)

From S2P Require Import Prelude RustStr.

Local Open Scope nat_scope.

Definition STAR : rchar := 42.
Definition QUESTION : rchar := 63.

(** One turn per unit of fuel.  The outer [option] is the fuel; inside, [None] is the early
    [return false] and [Some pi] the end of the loop. *)
Fixpoint glob_loop (fuel : nat) (p s : rstr) (pi si : nat) (star : option nat) (resume : nat)
    : option (option nat) :=
  match fuel with
  | O => None
  | S fuel =>
      match s !! si with
      | None => Some (Some pi)
      | Some c =>
          if match p !! pi with Some x => ((x =? QUESTION) || (x =? c))%Z | None => false end
          then glob_loop fuel p s (pi + 1) (si + 1) star resume
          else if match p !! pi with Some x => (x =? STAR)%Z | None => false end
          then glob_loop fuel p s (pi + 1) si (Some pi) si
          else match star with
            | Some sp => glob_loop fuel p s (sp + 1) (resume + 1) star (resume + 1)
            | None => Some None
            end
      end
  end.

Definition glob_fuel (p s : rstr) : nat := length s * (length p + 1) + length p + 1.

(** Trailing stars may match nothing. *)
Fixpoint leading_stars (p : rstr) : nat :=
  match p with x :: p => if (x =? STAR)%Z then S (leading_stars p) else O | [] => O end.

Definition glob_result (p : rstr) (r : option nat) : bool :=
  match r with
  | None => false
  | Some pi => pi + leading_stars (drop pi p) =? length p
  end.

Definition glob_match (pattern input : rstr) : bool :=
  match glob_loop (glob_fuel pattern input) pattern input 0 0 None 0 with
  | Some r => glob_result pattern r
  | None => false
  end.

(** ** What a glob means *)

Inductive globs : rstr -> rstr -> Prop :=
| globs_nil : globs [] []
| globs_none p s : globs p s -> globs (STAR :: p) s
| globs_more p c s : globs (STAR :: p) s -> globs (STAR :: p) (c :: s)
| globs_any p c s : globs p s -> globs (QUESTION :: p) (c :: s)
| globs_char p c s : c <> STAR -> globs p s -> globs (c :: p) (c :: s).

(** ** Lemmas *)

Lemma globs_star_app p a s : globs (STAR :: p) s -> globs (STAR :: p) (a ++ s).
Proof. induction a as [|c a IH]; [done|]. intros H. simpl. by apply globs_more, IH. Qed.

Lemma globs_star_suffix p s : globs (STAR :: p) s -> exists k, k <= length s /\ globs p (drop k s).
Proof.
  remember (STAR :: p) as q eqn:Eq. induction 1; simplify_eq; try done.
  - exists 0. split; [lia|]. by rewrite drop_0.
  - destruct IHglobs as (k & Hk & Hg); [done|]. exists (S k). simpl. split; [lia | done].
Qed.

(** A piece of pattern without stars takes exactly as many characters as it has. *)
Lemma globs_segment seg p s :
  STAR ∉ seg -> globs (seg ++ p) s -> length seg <= length s /\ globs p (drop (length seg) s).
Proof.
  revert s. induction seg as [|x seg IH]; intros s Hs Hg; simpl.
  { split; [lia|]. by rewrite drop_0. }
  apply not_elem_of_cons in Hs as [Hx Hs]. simpl in Hg.
  inversion Hg; subst; try done; simpl;
    (match goal with H : globs (seg ++ p) _ |- _ => destruct (IH _ Hs H) end); split; (lia || done).
Qed.

Lemma leading_stars_le p : leading_stars p <= length p.
Proof. induction p as [|x p IH]; simpl; [lia|]. destruct (_ =? _)%Z; lia. Qed.

Lemma leading_stars_all p : leading_stars p = length p <-> globs p [].
Proof.
  induction p as [|x p IH]; simpl; [split; [intros _; constructor | done]|].
  destruct (Z.eqb_spec x STAR) as [->|Hx].
  - rewrite Nat.succ_inj_wd, IH. split; [apply globs_none|]. intros H. by inversion H.
  - split; [done|]. intros H. inversion H; congruence.
Qed.

Section loop.
Context (p s : rstr).

(** What every state of the loop satisfies. *)
Definition loop_ok (pi si : nat) (star : option nat) (resume : nat) : Prop :=
  pi <= length p /\ resume <= si <= length s /\
  (star = None -> resume = 0) /\
  forall sp, star = Some sp -> sp < pi /\ p !! sp = Some STAR.

Lemma loop_ok_step_char pi si star resume x c :
  loop_ok pi si star resume -> p !! pi = Some x -> s !! si = Some c -> loop_ok (pi + 1) (si + 1) star resume.
Proof.
  intros (H1 & H2 & H3 & H4) Hx%lookup_lt_Some Hc%lookup_lt_Some.
  split; [lia|]. split; [lia|]. split; [done|]. intros sp Hsp. destruct (H4 sp Hsp). split; [lia | done].
Qed.

Lemma loop_ok_step_star pi si star resume :
  loop_ok pi si star resume -> p !! pi = Some STAR -> loop_ok (pi + 1) si (Some pi) si.
Proof.
  intros (H1 & H2 & H3 & H4) Hx. pose proof (lookup_lt_Some _ _ _ Hx).
  split; [lia|]. split; [lia|]. split; [done|]. intros sp [= <-]. split; [lia | done].
Qed.

Lemma loop_ok_step_retry pi si sp resume :
  loop_ok pi si (Some sp) resume -> si < length s -> loop_ok (sp + 1) (resume + 1) (Some sp) (resume + 1).
Proof.
  intros (H1 & H2 & H3 & H4) Hsi. destruct (H4 sp eq_refl). split; [lia|]. split; [lia|].
  split; [done|]. intros sp' [= <-]. split; [lia | done].
Qed.

(** The tests of the loop's three branches. *)
Definition char_test (pi : nat) (c : rchar) : bool :=
  match p !! pi with Some x => ((x =? QUESTION) || (x =? c))%Z | None => false end.
Definition star_test (pi : nat) : bool := match p !! pi with Some x => (x =? STAR)%Z | None => false end.

Lemma char_test_spec pi c :
  char_test pi c = true -> exists x, p !! pi = Some x /\ (x = QUESTION \/ x = c).
Proof.
  unfold char_test. destruct (p !! pi) as [x|]; [|done]. rewrite orb_true_iff, !Z.eqb_eq. eauto.
Qed.
Lemma star_test_spec pi : star_test pi = true -> p !! pi = Some STAR.
Proof. unfold star_test. destruct (p !! pi) as [x|]; [|done]. by intros ->%Z.eqb_eq. Qed.

(** Turns left: each turn lowers it. *)
Definition turns (pi resume : nat) : nat := (length s - resume) * (length p + 1) + (length p - pi).

Lemma glob_loop_total fuel pi si star resume :
  loop_ok pi si star resume -> turns pi resume < fuel ->
  exists r, glob_loop fuel p s pi si star resume = Some r.
Proof.
  revert pi si star resume. induction fuel as [|fuel IH]; intros pi si star resume Hok Hf; [lia|].
  cbn [glob_loop]. destruct (s !! si) as [c|] eqn:Hc; [|by eexists].
  fold (char_test pi c) (star_test pi). destruct (char_test pi c) eqn:Hch.
  - destruct (char_test_spec _ _ Hch) as (x & Hx & _). apply IH; [by eapply loop_ok_step_char|].
    apply lookup_lt_Some in Hx. unfold turns in *. lia.
  - destruct (star_test pi) eqn:Hst.
    + apply star_test_spec in Hst. apply IH; [by eapply loop_ok_step_star|].
      apply lookup_lt_Some in Hst. destruct Hok as (_ & Hr & _). unfold turns in *. nia.
    + destruct star as [sp|]; [|by eexists]. apply lookup_lt_Some in Hc.
      apply IH; [by eapply loop_ok_step_retry|]. destruct Hok as (_ & Hr & _). unfold turns in *. nia.
Qed.

(** *** Soundness: what has been read is matched by the pattern so far. *)
Definition read_ok (pi si : nat) (star : option nat) (resume : nat) : Prop :=
  (forall rest, globs (drop pi p) rest -> globs p (take si s ++ rest)) /\
  forall sp, star = Some sp ->
    forall rest, globs (drop sp p) rest -> globs p (take resume s ++ rest).

Lemma drop_cons_lookup (l : rstr) i x : l !! i = Some x -> drop i l = x :: drop (i + 1) l.
Proof. intros H. rewrite Nat.add_1_r. by apply drop_S. Qed.

Lemma take_snoc_lookup (l : rstr) i x : l !! i = Some x -> take (i + 1) l = take i l ++ [x].
Proof. intros H. rewrite Nat.add_1_r. by apply take_S_r. Qed.

Lemma glob_loop_sound fuel pi si star resume r :
  loop_ok pi si star resume -> read_ok pi si star resume ->
  glob_loop fuel p s pi si star resume = Some r -> glob_result p r = true -> globs p s.
Proof.
  revert pi si star resume. induction fuel as [|fuel IH]; intros pi si star resume Hok [Hr1 Hr2]; [done|].
  cbn [glob_loop]. destruct (s !! si) as [c|] eqn:Hc.
  2:{ intros [= <-]. cbn [glob_result]. intros Heq%Nat.eqb_eq. destruct Hok as (Hpi & Hsi & _).
      apply lookup_ge_None_1 in Hc. rewrite <- (app_nil_r s), <- (take_ge s si) by lia.
      apply Hr1, leading_stars_all. rewrite length_drop. lia. }
  fold (char_test pi c) (star_test pi). destruct (char_test pi c) eqn:Hch.
  - destruct (char_test_spec _ _ Hch) as (x & Hx & Hxc). apply IH; [by eapply loop_ok_step_char|].
    split; [|exact Hr2]. intros rest Hg. rewrite (take_snoc_lookup _ _ _ Hc), <- app_assoc. apply Hr1.
    rewrite (drop_cons_lookup _ _ _ Hx). cbn [app]. destruct (decide (x = STAR)) as [->|Hns].
    + by apply globs_more, globs_none.
    + destruct Hxc as [->| ->]; [by apply globs_any | by apply globs_char].
  - destruct (star_test pi) eqn:Hst.
    + apply star_test_spec in Hst. apply IH; [by eapply loop_ok_step_star|]. split.
      * intros rest Hg. apply Hr1. rewrite (drop_cons_lookup _ _ _ Hst). by apply globs_none.
      * intros sp [= <-] rest Hg. by apply Hr1.
    + destruct star as [sp|]; [|by intros [= <-]]. pose proof (lookup_lt_Some _ _ _ Hc) as Hlt.
      destruct (proj2 (proj2 (proj2 Hok)) sp eq_refl) as [Hsp Hstar].
      destruct (lookup_lt_is_Some_2 s resume) as [d Hd]; [destruct Hok as (_ & ? & _); lia|].
      assert (Hnext : forall rest, globs (drop sp p) rest -> globs p (take (resume + 1) s ++ rest)).
      { intros rest Hg. rewrite (take_snoc_lookup _ _ _ Hd), <- app_assoc. apply (Hr2 sp eq_refl).
        rewrite (drop_cons_lookup _ _ _ Hstar) in *. by apply globs_more. }
      apply IH; [by eapply loop_ok_step_retry|]. split; [|intros sp' [= <-]; exact Hnext].
      intros rest Hg. apply Hnext. rewrite (drop_cons_lookup _ _ _ Hstar). by apply globs_none.
Qed.

(** *** Completeness: a match that exists is still ahead of the loop. *)
Definition promise (pi si : nat) (star : option nat) (resume : nat) : Prop :=
  globs (drop pi p) (drop si s) \/
  exists sp k, star = Some sp /\ resume < k <= length s /\ globs (drop (sp + 1) p) (drop k s).

(** The pattern read since the last star has no star of its own. *)
Definition segment_ok (pi si : nat) (star : option nat) (resume : nat) : Prop :=
  forall sp, star = Some sp ->
    exists seg, drop (sp + 1) p = seg ++ drop pi p /\ (STAR ∉ seg) /\ length seg = si - resume.

Lemma promise_end pi si star resume :
  loop_ok pi si star resume -> promise pi si star resume -> segment_ok pi si star resume ->
  s !! si = None -> globs (drop pi p) [].
Proof.
  intros (_ & Hsi & _) Hp Hs Hend%lookup_ge_None_1. destruct Hp as [Hg | (sp & k & -> & Hk & Hg)].
  { by rewrite (drop_ge s) in Hg by done. }
  destruct (Hs sp eq_refl) as (seg & Heq & Hns & Hlen). rewrite Heq in Hg.
  apply globs_segment in Hg as [Hl _]; [|done]. rewrite length_drop in Hl. lia.
Qed.

Lemma promise_char pi si star resume x c :
  (x = QUESTION \/ x = c) -> x <> STAR -> p !! pi = Some x -> s !! si = Some c ->
  loop_ok pi si star resume -> promise pi si star resume -> segment_ok pi si star resume ->
  promise (pi + 1) (si + 1) star resume /\ segment_ok (pi + 1) (si + 1) star resume.
Proof.
  intros Hxc Hns Hx Hc (_ & Hsi & _) Hp Hs. pose proof (drop_cons_lookup _ _ _ Hx) as Hdp.
  pose proof (drop_cons_lookup _ _ _ Hc) as Hds. split.
  - destruct Hp as [Hg|Hg]; [left | by right]. rewrite Hdp, Hds in Hg. by inversion Hg; subst.
  - intros sp Hsp. destruct (Hs sp Hsp) as (seg & Heq & Hstar & Hlen). exists (seg ++ [x]).
    rewrite Heq, Hdp, <- app_assoc. split; [done|]. split; [set_solver|]. rewrite length_app. simpl. lia.
Qed.

Lemma promise_star pi si star resume :
  p !! pi = Some STAR -> loop_ok pi si star resume -> promise pi si star resume -> segment_ok pi si star resume ->
  promise (pi + 1) si (Some pi) si /\ segment_ok (pi + 1) si (Some pi) si.
Proof.
  intros Hx (_ & Hsi & _) Hp Hs. pose proof (drop_cons_lookup _ _ _ Hx) as Hdp.
  assert (Hgo : forall j, si <= j -> globs (STAR :: drop (pi + 1) p) (drop j s) -> j <= length s ->
    promise (pi + 1) si (Some pi) si).
  { intros j Hj Hg Hjs. apply globs_star_suffix in Hg as (k & Hk & Hg).
    rewrite length_drop in Hk. rewrite drop_drop in Hg.
    destruct (decide (j + k = si)) as [Hjk|Hne]; [left; by rewrite Hjk in Hg|]. right. exists pi, (j + k). split; [done|]. split; [lia | done]. }
  split; [|intros sp [= <-]; exists []; split; [done|]; split; [set_solver | simpl; lia]].
  destruct Hp as [Hg | (sp & k & -> & Hk & Hg)].
  - rewrite Hdp in Hg. apply (Hgo si); [lia | done | lia].
  - destruct (Hs sp eq_refl) as (seg & Heq & Hns & Hlen). rewrite Heq in Hg.
    apply globs_segment in Hg as [Hl Hg]; [|done]. rewrite length_drop in Hl. rewrite drop_drop, Hdp in Hg.
    apply (Hgo (k + length seg)); [lia | done | lia].
Qed.

(** No first character of the pattern takes [c]: only a later start of the last star is left. *)
Lemma promise_retry pi si star resume c :
  s !! si = Some c -> char_test pi c = false -> star_test pi = false -> promise pi si star resume ->
  exists sp, star = Some sp /\
    promise (sp + 1) (resume + 1) star (resume + 1) /\ segment_ok (sp + 1) (resume + 1) star (resume + 1).
Proof.
  intros Hc Hch Hst Hp. destruct Hp as [Hg | (sp & k & -> & Hk & Hg)].
  - exfalso. rewrite (drop_cons_lookup _ _ _ Hc) in Hg. unfold char_test, star_test in *.
    destruct (p !! pi) as [x|] eqn:Hx.
    + rewrite (drop_cons_lookup _ _ _ Hx) in Hg. zbool. inversion Hg; subst; congruence.
    + apply lookup_ge_None_1 in Hx. rewrite drop_ge in Hg by done. inversion Hg.
  - exists sp. split; [done|]. split.
    + destruct (decide (k = resume + 1)) as [->|]; [by left|]. right. exists sp, k. split; [done|]. split; [lia | done].
    + intros sp' [= <-]. exists []. split; [done|]. split; [set_solver | simpl; lia].
Qed.

Lemma glob_loop_complete fuel pi si star resume r :
  STAR ∉ s -> loop_ok pi si star resume -> promise pi si star resume -> segment_ok pi si star resume ->
  glob_loop fuel p s pi si star resume = Some r -> glob_result p r = true.
Proof.
  intros Hstar. revert pi si star resume. induction fuel as [|fuel IH]; intros pi si star resume Hok Hp Hs; [done|].
  cbn [glob_loop]. destruct (s !! si) as [c|] eqn:Hc.
  2:{ intros [= <-]. cbn [glob_result]. apply Nat.eqb_eq.
      pose proof (promise_end _ _ _ _ Hok Hp Hs Hc) as Hg%leading_stars_all. rewrite length_drop in Hg.
      destruct Hok. lia. }
  fold (char_test pi c) (star_test pi). destruct (char_test pi c) eqn:Hch.
  - destruct (char_test_spec _ _ Hch) as (x & Hx & Hxc).
    assert (Hns : x <> STAR).
    { destruct Hxc as [-> | ->]; [done|]. intros ->. by apply Hstar, (list_elem_of_lookup_2 _ si). }
    destruct (promise_char _ _ _ _ _ _ Hxc Hns Hx Hc Hok Hp Hs) as [Hp' Hs'].
    apply IH; [by eapply loop_ok_step_char | done | done].
  - destruct (star_test pi) eqn:Hst.
    + apply star_test_spec in Hst. destruct (promise_star _ _ _ _ Hst Hok Hp Hs) as [Hp' Hs'].
      apply IH; [by eapply loop_ok_step_star | done | done].
    + destruct (promise_retry _ _ _ _ _ Hc Hch Hst Hp) as (sp & -> & Hp' & Hs').
      apply IH; [|done|done]. eapply loop_ok_step_retry; [exact Hok|]. by eapply lookup_lt_Some.
Qed.

Lemma loop_ok_start : loop_ok 0 0 None 0.
Proof. split; [lia|]. split; [lia|]. by split. Qed.
End loop.

Lemma glob_match_run p s : exists r,
  glob_loop (glob_fuel p s) p s 0 0 None 0 = Some r /\ glob_match p s = glob_result p r.
Proof.
  destruct (glob_loop_total p s (glob_fuel p s) 0 0 None 0) as [r Hr]; [apply loop_ok_start| |].
  { unfold turns, glob_fuel. lia. }
  exists r. split; [done|]. unfold glob_match. by rewrite Hr.
Qed.

Lemma glob_match_sound p s : glob_match p s = true -> globs p s.
Proof.
  destruct (glob_match_run p s) as (r & Hr & ->). intros Hres.
  eapply glob_loop_sound; [apply loop_ok_start| |exact Hr|exact Hres].
  split; [|done]. intros rest. by rewrite drop_0, take_0.
Qed.

(** ** Properties *)

(** C35: the glob matcher against its meaning.  On every pattern and every name the loop ends within
    |name| * (|pattern| + 1) + |pattern| + 1 turns, the bound the comment claims; what it accepts
    is a match ([*] any run of characters, [?] exactly one, anything else itself); and of a name
    that holds no [*] it accepts every match.  The restriction is needed: a [*] in the name is
    compared with a [*] of the pattern as an ordinary character, which then no longer stands for
    a run, so that [F*] does not match [F*1]. *)
Theorem glob_match_spec p s :
  (exists r, glob_loop (glob_fuel p s) p s 0 0 None 0 = Some r /\ glob_match p s = glob_result p r) /\
  (glob_match p s = true -> globs p s) /\
  ((STAR ∉ s) -> globs p s -> glob_match p s = true) /\
  (globs (lit "F*") (lit "F*1") /\ glob_match (lit "F*") (lit "F*1") = false).
Proof.
  split; [apply glob_match_run|]. split; [apply glob_match_sound|]. split.
  - intros Hstar Hg. destruct (glob_match_run p s) as (r & Hr & ->).
    eapply glob_loop_complete; [exact Hstar | apply loop_ok_start| | |exact Hr]; [by left|]. by intros sp.
  - split; [|reflexivity]. apply globs_char; [done|]. do 2 apply globs_more. apply globs_none. constructor.
Qed.

Lemma glob_match_spec_witness :
  glob_match (lit "Flock-??*") (lit "Flock-42 camera") = true /\ globs (lit "Flock-??*") (lit "Flock-42 camera").
Proof.
  destruct (glob_match_spec (lit "Flock-??*") (lit "Flock-42 camera")) as (_ & H & _).
  split; [reflexivity | apply H; reflexivity].
Defined.
