(* ===== verification/Mac.v ===== *)
(** * Hardware addresses and address prefixes ([radio/src/mac.rs])

    A [MacAddr] is six octets; a [MacPrefix] is its octets, left-aligned and zero-filled, with
    its length in nibbles.  The specification reads both as sequences of nibbles: a prefix
    matches an address when the digits it was written with begin the address's digits. *)

From S2P Require Import Prelude RustStr.

Local Open Scope Z_scope.

(** ** Addresses *)

Record MacAddr := mkMacAddr { mac_octets : list Z }.
#[export] Instance MacAddr_eq_dec : EqDecision MacAddr.
Proof. solve_decision. Defined.

(** The array type [[u8; 6]]. *)
Definition octets_ok (o : list Z) : Prop := length o = 6%nat /\ bytes_ok o.

Definition is_locally_administered (a : MacAddr) : bool := negb (Z.land (mac_octets a !!! 0%nat) 0x02 =? 0).
Definition is_multicast (a : MacAddr) : bool := negb (Z.land (mac_octets a !!! 0%nat) 0x01 =? 0).
Definition is_globally_unique (a : MacAddr) : bool := negb (is_locally_administered a) && negb (is_multicast a).

Inductive MacParseError :=
| NotHex (c : rchar)
| WrongLength (nibbles : nat).
#[export] Instance MacParseError_eq_dec : EqDecision MacParseError.
Proof. solve_decision. Defined.

(** The messages of the [Error] derive. *)
Definition MacParseError_display (e : MacParseError) : rstr :=
  match e with
  | NotHex c => lit "'" ++ [c] ++ lit "' is not a hexadecimal digit"
  | WrongLength n => lit "expected 2-12 hex digits for a prefix or exactly 12 for an address, got " ++ dec (Z.of_nat n)
  end.

Definition is_separator (c : rchar) : bool := (c =? 58) || (c =? 45) || (c =? 46).

(** The loop over the characters of the text; [out] is the vector filled so far. *)
Fixpoint collect_hex_digits_from (out : list Z) (s : rstr) : result MacParseError (list Z) :=
  match s with
  | [] => Ok out
  | c :: s =>
      if is_separator c then collect_hex_digits_from out s
      else match to_digit16 c with
           | Some d => collect_hex_digits_from (out ++ [d]) s
           | None => Err (NotHex c)
           end
  end.
Definition collect_hex_digits (s : rstr) : result MacParseError (list Z) := collect_hex_digits_from [] s.

Definition MacAddr_parse (s : rstr) : result MacParseError MacAddr :=
  match collect_hex_digits s with
  | Err e => Err e
  | Ok digits =>
      if negb (length digits =? 12)%nat then Err (WrongLength (length digits))
      else Ok (mkMacAddr (map (fun i => Z.lor (wrapu 8 (Z.shiftl (digits !!! (i * 2)%nat) 4))
                                              (digits !!! (i * 2 + 1)%nat)) (seq 0 6)))
  end.

Definition MacAddr_display (a : MacAddr) : rstr := join (lit ":") (map fmt_02x (mac_octets a)).

(** ** Prefixes *)

Record MacPrefix := mkMacPrefix { prefix_octets : list Z; prefix_nibbles : nat }.
#[export] Instance MacPrefix_eq_dec : EqDecision MacPrefix.
Proof. solve_decision. Defined.

Definition MIN_NIBBLES : nat := 2.
Definition MAX_NIBBLES : nat := 12.

(** [octets[i / 2] |= digit << shift]. *)
Definition put_digit (octets : list Z) (i : nat) (digit : Z) : list Z :=
  let shift := if (i mod 2 =? 0)%nat then 4 else 0 in
  alter (fun o => Z.lor o (wrapu 8 (Z.shiftl digit shift))) (i / 2)%nat octets.

Fixpoint put_digits (octets : list Z) (i : nat) (digits : list Z) : list Z :=
  match digits with
  | [] => octets
  | digit :: digits => put_digits (put_digit octets i digit) (S i) digits
  end.

Definition MacPrefix_parse (s : rstr) : result MacParseError MacPrefix :=
  match collect_hex_digits s with
  | Err e => Err e
  | Ok digits =>
      let nibbles := length digits in
      if (nibbles <? MIN_NIBBLES)%nat || (MAX_NIBBLES <? nibbles)%nat then Err (WrongLength nibbles)
      else Ok (mkMacPrefix (put_digits (replicate 6 0) 0 digits) nibbles)
  end.

Definition matches (p : MacPrefix) (addr : MacAddr) : bool :=
  let whole := (prefix_nibbles p / 2)%nat in
  if negb (bool_decide (take whole (prefix_octets p) = take whole (mac_octets addr))) then false
  else if (prefix_nibbles p mod 2 =? 1)%nat then
    Z.land (prefix_octets p !!! whole) 0xf0 =? Z.land (mac_octets addr !!! whole) 0xf0
  else true.

Definition specificity (p : MacPrefix) : nat := prefix_nibbles p.

Definition MacPrefix_display (p : MacPrefix) : rstr :=
  let whole := (prefix_nibbles p / 2)%nat in
  flat_map (fun i => (if (0 <? i)%nat then lit ":" else []) ++ fmt_02x (prefix_octets p !!! i)) (seq 0 whole)
  ++ (if (prefix_nibbles p mod 2 =? 1)%nat
      then (if (0 <? whole)%nat then lit ":" else []) ++ fmt_x1 (Z.shiftr (prefix_octets p !!! whole) 4)
      else []).

(** ** Addresses and prefixes as nibbles *)

Definition nibbles_of (o : list Z) : list Z := flat_map (fun b => [b / 16; b mod 16]) o.
Definition digits_ok (ds : list Z) : Prop := Forall (fun d => 0 <= d < 16) ds.

(** Digits packed into [n] octets. *)
Fixpoint pack (n : nat) (ds : list Z) : list Z :=
  match n with
  | O => []
  | S n => match ds with
           | [] => 0 :: pack n []
           | [d] => d * 16 :: pack n []
           | d1 :: d2 :: ds => (d1 * 16 + d2) :: pack n ds
           end
  end.

(** Induction on a list of digits, two at a time, along a number of octets. *)
Lemma pairs_ind (P : nat -> list Z -> Prop) :
  P O [] -> (forall n, P n [] -> P (S n) []) -> (forall n d, P n [] -> P (S n) [d]) ->
  (forall n d1 d2 ds, (length ds <= 2 * n)%nat -> P n ds -> P (S n) (d1 :: d2 :: ds)) ->
  forall n ds, (length ds <= 2 * n)%nat -> P n ds.
Proof.
  intros H0 Hn H1 H2. assert (Hnil : forall n, P n []) by (induction n; eauto).
  induction n as [|n IH]; intros ds Hl.
  - destruct ds; [done | simpl in Hl; lia].
  - destruct ds as [|d1 [|d2 ds]]; [apply Hnil | by apply H1|]. simpl in Hl.
    apply H2; [lia|]. apply IH. lia.
Qed.

(** ** Lemmas: reading the digits *)

Lemma collect_app out a b r :
  collect_hex_digits_from out a = Ok r -> collect_hex_digits_from out (a ++ b) = collect_hex_digits_from r b.
Proof.
  revert out. induction a as [|c a IH]; intros out; simpl; [by intros [= ->]|].
  destruct (is_separator c); [apply IH|]. destruct (to_digit16 c); [apply IH | done].
Qed.

Lemma collect_digits_ok out s r :
  digits_ok out -> collect_hex_digits_from out s = Ok r -> digits_ok r.
Proof.
  revert out. induction s as [|c s IH]; intros out Hout; simpl; [by intros [= <-]|].
  destruct (is_separator c); [by apply IH|]. destruct (to_digit16 c) as [d|] eqn:Hd; [|done].
  apply IH, Forall_app_2; [done|]. apply Forall_singleton. by eapply to_digit16_range.
Qed.

Lemma collect_hex_digit out d s :
  0 <= d < 16 -> collect_hex_digits_from out (hex_digit d :: s) = collect_hex_digits_from (out ++ [d]) s.
Proof.
  intros Hd. cbn [collect_hex_digits_from]. rewrite to_digit16_hex_digit by done.
  replace (is_separator (hex_digit d)) with false; [done|].
  unfold is_separator, hex_digit. destruct (Z.ltb_spec d 10); repeat ztest; simpl; (done || lia).
Qed.

Lemma byte_digits b : in_u 8 b -> 0 <= b / 16 < 16 /\ 0 <= b mod 16 < 16.
Proof. unfold in_u. intros. dlia. Qed.

Lemma collect_fmt_02x out b s :
  in_u 8 b -> collect_hex_digits_from out (fmt_02x b ++ s) = collect_hex_digits_from (out ++ [b / 16; b mod 16]) s.
Proof.
  intros Hb. destruct (byte_digits b Hb). unfold fmt_02x. cbn [app].
  rewrite !collect_hex_digit, <- app_assoc by done. done.
Qed.

Lemma collect_colon out s : collect_hex_digits_from out (lit ":" ++ s) = collect_hex_digits_from out s.
Proof. done. Qed.

(** ** Lemmas: packing *)

Lemma pack_nil n : pack n [] = replicate n 0.
Proof. induction n as [|n IH]; simpl; [done | by rewrite IH]. Qed.

Lemma alter_middle (f : Z -> Z) pre x l : alter f (length pre) (pre ++ x :: l) = pre ++ f x :: l.
Proof. induction pre as [|y pre IH]; simpl; [done|]. f_equal. exact IH. Qed.

Lemma half_even k : (2 * k / 2 = k /\ (2 * k) mod 2 = 0)%nat.
Proof. split; symmetry; [apply (Nat.div_unique _ 2 k 0) | apply (Nat.mod_unique _ 2 k 0)]; lia. Qed.
Lemma half_odd k : (S (2 * k) / 2 = k /\ S (2 * k) mod 2 = 1)%nat.
Proof. split; symmetry; [apply (Nat.div_unique _ 2 k 1) | apply (Nat.mod_unique _ 2 k 1)]; lia. Qed.

Lemma put_high pre l d :
  0 <= d < 16 -> put_digit (pre ++ 0 :: l) (2 * length pre) d = pre ++ d * 16 :: l.
Proof.
  intros Hd. unfold put_digit. destruct (half_even (length pre)) as [-> ->].
  cbn [Nat.eqb]. rewrite alter_middle. rewrite Z.lor_0_l, Z.shiftl_mul_pow2 by lia.
  rewrite wrapu_id; [done|]. unfold in_u. lia.
Qed.

Lemma put_low pre l h d :
  0 <= h < 16 -> 0 <= d < 16 ->
  put_digit (pre ++ h * 16 :: l) (S (2 * length pre)) d = pre ++ (h * 16 + d) :: l.
Proof.
  intros Hh Hd. unfold put_digit. destruct (half_odd (length pre)) as [-> ->].
  cbn [Nat.eqb]. rewrite alter_middle, Z.shiftl_0_r, wrapu_id by (unfold in_u; lia). do 2 f_equal.
  change (h * 16) with (h * 2 ^ 4). rewrite <- Z.shiftl_mul_pow2 by lia. rewrite lor_shiftl by lia.
  by rewrite Z.shiftl_mul_pow2 by lia.
Qed.

Lemma put_digits_pack n ds pre :
  (length ds <= 2 * n)%nat -> digits_ok ds ->
  put_digits (pre ++ replicate n 0) (2 * length pre) ds = pre ++ pack n ds.
Proof.
  intros Hl. revert n ds Hl pre. apply (pairs_ind (fun n ds => forall pre, digits_ok ds -> _)).
  - done.
  - intros n _ pre _. by rewrite pack_nil.
  - intros n d _ pre [Hd _]%Forall_cons. cbn [put_digits replicate pack].
    by rewrite put_high, pack_nil.
  - intros n d1 d2 ds _ IH pre Hds. apply Forall_cons in Hds as [H1 Hds]. apply Forall_cons in Hds as [H2 Hds].
    cbn [put_digits replicate pack]. rewrite put_high, put_low by done.
    rewrite (cons_middle (d1 * 16 + d2) pre), (cons_middle (d1 * 16 + d2) pre (pack n ds)), !app_assoc.
    replace (S (S (2 * length pre))) with (2 * length (pre ++ [(d1 * 16 + d2)%Z]))%nat by (rewrite length_app; simpl; lia).
    by apply IH.
Qed.

Lemma pack_length n ds : (length ds <= 2 * n)%nat -> length (pack n ds) = n.
Proof. revert n ds. apply pairs_ind; intros; cbn [pack length]; congruence. Qed.

Lemma pack_ok n ds : (length ds <= 2 * n)%nat -> digits_ok ds -> bytes_ok (pack n ds).
Proof.
  revert n ds. apply (pairs_ind (fun n ds => digits_ok ds -> bytes_ok (pack n ds))); cbn [pack].
  - intros _. constructor.
  - intros n IH _. constructor; [done | by apply IH; constructor].
  - intros n d IH [Hd _]%Forall_cons. constructor; [unfold in_u; lia | by apply IH; constructor].
  - intros n d1 d2 ds _ IH Hds. unfold digits_ok in Hds. forall_inv. constructor; [unfold in_u; lia | by apply IH].
Qed.

Lemma nibbles_cons b o : nibbles_of (b :: o) = b / 16 :: b mod 16 :: nibbles_of o.
Proof. done. Qed.

Lemma nibbles_digits o : bytes_ok o -> digits_ok (nibbles_of o).
Proof.
  induction 1 as [|b o Hb _ IH]; [constructor|]. destruct (byte_digits b Hb).
  rewrite nibbles_cons. constructor; [done|]. by constructor.
Qed.

Lemma nibbles_length o : length (nibbles_of o) = (2 * length o)%nat.
Proof. induction o as [|b o IH]; [done|]. rewrite nibbles_cons. cbn [length]. lia. Qed.

(** Packing then reading: the digits, and zeros after them. *)
Lemma nibbles_pack n ds :
  (length ds <= 2 * n)%nat -> digits_ok ds -> nibbles_of (pack n ds) = ds ++ replicate (2 * n - length ds) 0.
Proof.
  revert n ds. apply (pairs_ind (fun n ds => digits_ok ds -> nibbles_of (pack n ds) = ds ++ replicate (2 * n - length ds) 0)).
  - done.
  - intros n IH _. specialize (IH (Forall_nil_2 _)). cbn [length] in *.
    replace (2 * S n - 0)%nat with (S (S (2 * n - 0))) by lia.
    cbn [pack replicate]. rewrite nibbles_cons, IH. done.
  - intros n d IH [Hd _]%Forall_cons. specialize (IH (Forall_nil_2 _)). rewrite Nat.sub_0_r in IH.
    replace (2 * S n - length [d])%nat with (S (2 * n)) by (simpl; lia).
    cbn [pack replicate app]. rewrite nibbles_cons, Z.div_mul, Z.mod_mul by lia. do 2 f_equal. exact IH.
  - intros n d1 d2 ds Hl IH Hds. unfold digits_ok in Hds. forall_inv.
    replace (2 * S n - length (d1 :: d2 :: ds))%nat with (2 * n - length ds)%nat by (simpl; lia).
    cbn [pack app]. rewrite nibbles_cons. f_equal; [dlia|]. f_equal; [dlia|]. by apply IH.
Qed.

Lemma pack_nibbles o : bytes_ok o -> pack (length o) (nibbles_of o) = o.
Proof.
  induction 1 as [|b o Hb _ IH]; [done|]. rewrite nibbles_cons. cbn [pack length].
  f_equal; [unfold in_u in Hb; dlia | exact IH].
Qed.

(** ** Lemmas: matching *)

Lemma div2_SS k : (S (S k) / 2 = S (k / 2))%nat /\ (S (S k) mod 2 = k mod 2)%nat.
Proof.
  replace (S (S k)) with (k + 1 * 2)%nat by lia.
  rewrite Nat.div_add, Nat.Div0.mod_add by done. lia.
Qed.

Lemma land_high b : in_u 8 b -> Z.land b 0xf0 = b / 16 * 16.
Proof.
  intros Hb. apply Z.eqb_eq.
  apply (byte_cases (fun b => Z.land b 0xf0 =? b / 16 * 16)); [by vm_compute | done].
Qed.

Lemma matches_step x o k b a :
  matches (mkMacPrefix (x :: o) (S (S k))) (mkMacAddr (b :: a)) = true <->
  x = b /\ matches (mkMacPrefix o k) (mkMacAddr a) = true.
Proof.
  unfold matches. cbn [prefix_octets prefix_nibbles mac_octets]. destruct (div2_SS k) as [-> ->].
  cbn [take]. change ((x :: o) !!! S (k / 2)) with (o !!! (k / 2)%nat).
  change ((b :: a) !!! S (k / 2)) with (a !!! (k / 2)%nat).
  destruct (decide (x = b)) as [->|Hne].
  - destruct (decide (take (k / 2) o = take (k / 2) a)) as [He|He].
    + rewrite He, !bool_decide_true by done. cbn [negb]. naive_solver.
    + rewrite !bool_decide_false by congruence. naive_solver.
  - rewrite bool_decide_false by congruence. naive_solver.
Qed.

Lemma matches_pack n ds a :
  (length ds <= 2 * n)%nat -> digits_ok ds -> length a = n -> bytes_ok a ->
  matches (mkMacPrefix (pack n ds) (length ds)) (mkMacAddr a) = true <-> ds `prefix_of` nibbles_of a.
Proof.
  intros Hl. revert n ds Hl a. apply (pairs_ind (fun n ds => forall a, digits_ok ds -> length a = n -> bytes_ok a -> _)).
  - intros [|] _ ??; [|done]. split; [intros _; apply prefix_nil | done].
  - intros n _ a _ _ _. split; [intros _; apply prefix_nil | done].
  - intros n d _ [|b a] [Hd _]%Forall_cons Hn Hb; [done|]. apply Forall_cons in Hb as [Hb Ha].
    unfold matches. cbn [prefix_octets prefix_nibbles mac_octets length pack].
    change (1 / 2)%nat with 0%nat. cbn [take Nat.modulo Nat.divmod Nat.eqb fst snd Nat.sub].
    rewrite bool_decide_true by done. cbn [negb]. change ((?x :: ?l) !!! 0%nat) with x.
    change ((d * 16 :: pack n []) !!! 0%nat) with (d * 16). change ((b :: a) !!! 0%nat) with b.
    rewrite !land_high, Z.div_mul, Z.eqb_eq, nibbles_cons by (done || unfold in_u; lia).
    split; [|intros H; apply prefix_cons_inv_1 in H; lia].
    intros H. replace d with (b / 16) by lia. apply prefix_cons, prefix_nil.
  - intros n d1 d2 ds Hl IH [|b a] Hds Hn Hb; [done|]. unfold digits_ok in Hds. forall_inv.
    apply Forall_cons in Hb as [Hb Ha]. cbn [pack length]. rewrite matches_step, IH, nibbles_cons by (done || simpl in Hn; lia).
    unfold in_u in Hb. split.
    + intros [<- Hp]. replace ((d1 * 16 + d2) / 16) with d1 by dlia.
      replace ((d1 * 16 + d2) mod 16) with d2 by dlia. by do 2 apply prefix_cons.
    + intros Hp. pose proof (prefix_cons_inv_1 _ _ _ _ Hp). apply prefix_cons_inv_2 in Hp.
      pose proof (prefix_cons_inv_1 _ _ _ _ Hp). apply prefix_cons_inv_2 in Hp. split; [dlia | done].
Qed.

(** ** Lemmas: printing *)

Lemma drop_total (o : list Z) k : (k < length o)%nat -> drop k o = o !!! k :: drop (S k) o.
Proof. intros Hk. apply drop_S, list_lookup_lookup_total_lt. exact Hk. Qed.

Lemma collect_display_octets o w k out rest :
  bytes_ok o -> (k + w <= length o)%nat ->
  collect_hex_digits_from out
    (flat_map (fun i => (if (0 <? i)%nat then lit ":" else []) ++ fmt_02x (o !!! i)) (seq k w) ++ rest)
  = collect_hex_digits_from (out ++ nibbles_of (take w (drop k o))) rest.
Proof.
  intros Ho. revert k out. induction w as [|w IH]; intros k out Hk; [by rewrite app_nil_r|].
  cbn [seq flat_map]. rewrite (drop_total o k) by lia. cbn [take]. rewrite nibbles_cons.
  assert (Hb : in_u 8 (o !!! k)).
  { eapply (Forall_lookup_1 _ _ k); [exact Ho | apply list_lookup_lookup_total_lt; lia]. }
  rewrite <- !app_assoc. destruct (0 <? k)%nat; [rewrite collect_colon | cbn [app]].
  all: rewrite collect_fmt_02x, IH by (done || lia); by rewrite <- app_assoc.
Qed.

Lemma display_pack n ds :
  (length ds <= 2 * n)%nat -> digits_ok ds ->
  nibbles_of (take (length ds / 2) (pack n ds))
  ++ (if (length ds mod 2 =? 1)%nat then [Z.shiftr (pack n ds !!! (length ds / 2)%nat) 4] else []) = ds.
Proof.
  revert n ds. apply (pairs_ind (fun n ds => digits_ok ds -> _ = ds)).
  - done.
  - done.
  - intros n d _ _. cbn [length pack]. change (1 / 2)%nat with 0%nat. change (1 mod 2 =? 1)%nat with true.
    cbn [take nibbles_of flat_map app]. change ((d * 16 :: pack n []) !!! 0%nat) with (d * 16).
    by rewrite Z.shiftr_div_pow2, Z.div_mul by lia.
  - intros n d1 d2 ds Hl IH Hds. unfold digits_ok in Hds. forall_inv. cbn [length].
    destruct (div2_SS (length ds)) as [-> ->]. cbn [pack take]. rewrite nibbles_cons. cbn [app].
    change ((d1 * 16 + d2 :: pack n ds) !!! S (length ds / 2)) with (pack n ds !!! (length ds / 2)%nat).
    f_equal; [dlia|]. f_equal; [dlia|]. by apply IH.
Qed.

(** A prefix with these digits. *)
Definition prefix_of_digits (ds : list Z) : MacPrefix := mkMacPrefix (pack 6 ds) (length ds).

Lemma MacPrefix_parse_digits s ds :
  collect_hex_digits s = Ok ds -> (MIN_NIBBLES <= length ds <= MAX_NIBBLES)%nat ->
  MacPrefix_parse s = Ok (prefix_of_digits ds).
Proof.
  intros Hc Hl. unfold MacPrefix_parse. rewrite Hc.
  rewrite (proj2 (Nat.ltb_ge _ _)), (proj2 (Nat.ltb_ge _ _)) by lia. cbn [orb].
  assert (Hp : put_digits (replicate 6 0) 0 ds = pack 6 ds); [apply (put_digits_pack 6 ds [])|by rewrite Hp].
  - unfold MAX_NIBBLES in Hl. lia.
  - eapply collect_digits_ok; [|exact Hc]. constructor.
Qed.

Lemma collect_display ds :
  (length ds <= MAX_NIBBLES)%nat -> digits_ok ds ->
  collect_hex_digits (MacPrefix_display (prefix_of_digits ds)) = Ok ds.
Proof.
  intros Hl Hds. unfold MAX_NIBBLES in Hl. unfold collect_hex_digits, MacPrefix_display, prefix_of_digits.
  cbn [prefix_octets prefix_nibbles].
  pose proof (pack_ok 6 ds ltac:(lia) Hds) as Hok. pose proof (pack_length 6 ds ltac:(lia)) as Hlen.
  pose proof (display_pack 6 ds ltac:(lia) Hds) as Hd.
  pose proof (Nat.div_mod (length ds) 2 ltac:(done)) as Hdm.
  rewrite collect_display_octets by (done || lia). rewrite drop_0. cbn [app].
  destruct (length ds mod 2 =? 1)%nat eqn:Hodd.
  - apply Nat.eqb_eq in Hodd.
    assert (Hb : in_u 8 (pack 6 ds !!! (length ds / 2)%nat)).
    { eapply (Forall_lookup_1 _ _ (length ds / 2)); [exact Hok | apply list_lookup_lookup_total_lt; lia]. }
    assert (0 <= Z.shiftr (pack 6 ds !!! (length ds / 2)%nat) 4 < 16).
    { rewrite Z.shiftr_div_pow2 by lia. apply (byte_digits _ Hb). }
    destruct (0 <? _)%nat; [rewrite collect_colon | cbn [app]]; unfold fmt_x1; rewrite collect_hex_digit by done;
      cbn [collect_hex_digits_from]; by rewrite Hd.
  - cbn [collect_hex_digits_from]. rewrite app_nil_r in Hd. by rewrite Hd.
Qed.

Lemma MacAddr_roundtrip a : octets_ok (mac_octets a) -> MacAddr_parse (MacAddr_display a) = Ok a.
Proof.
  destruct a as [o]. intros [Hl Ho]. cbn [mac_octets] in *.
  destruct o as [|o0 [|o1 [|o2 [|o3 [|o4 [|o5 [|]]]]]]]; try done.
  unfold bytes_ok in Ho. forall_inv.
  assert (Hc : collect_hex_digits (MacAddr_display (mkMacAddr [o0; o1; o2; o3; o4; o5]))
    = Ok (nibbles_of [o0; o1; o2; o3; o4; o5])).
  { unfold MacAddr_display, collect_hex_digits. cbn [mac_octets map join].
    do 5 rewrite collect_fmt_02x, collect_colon by done.
    rewrite <- (app_nil_r (fmt_02x o5)). by rewrite collect_fmt_02x by done. }
  unfold MacAddr_parse. rewrite Hc. cbn [nibbles_of flat_map app length Nat.eqb negb seq map Nat.mul Nat.add].
  do 2 f_equal.
  assert (Hj : forall o, in_u 8 o -> Z.lor (wrapu 8 (Z.shiftl (o / 16) 4)) (o mod 16) = o).
  { intros o Hb. apply Z.eqb_eq.
    apply (byte_cases (fun o => Z.lor (wrapu 8 (Z.shiftl (o / 16) 4)) (o mod 16) =? o)); [by vm_compute | done]. }
  cons_eq ltac:(apply Hj; assumption).
Qed.

(** ** Properties *)

(** Address prefixes of any nibble length.  A text is refused with the first character that is
    neither a hexadecimal digit nor a separator, or with its number of digits when that is not
    between two and twelve; any other text gives a prefix that has exactly the digits written, that
    matches an address when and only when the address begins with those digits (also where they
    stop in the middle of an octet), and that prints to a text which parses back to it.  An address
    prints to a text which parses back to it. *)
Theorem mac_prefix_spec s :
  match collect_hex_digits s with
  | Err e => MacPrefix_parse s = Err e
  | Ok ds =>
      if bool_decide (MIN_NIBBLES <= length ds <= MAX_NIBBLES)%nat then
        exists p, MacPrefix_parse s = Ok p /\ octets_ok (prefix_octets p) /\ specificity p = length ds /\
          nibbles_of (prefix_octets p) = ds ++ replicate (12 - length ds) 0 /\
          (forall a, octets_ok (mac_octets a) -> matches p a = true <-> ds `prefix_of` nibbles_of (mac_octets a)) /\
          MacPrefix_parse (MacPrefix_display p) = Ok p
      else MacPrefix_parse s = Err (WrongLength (length ds))
  end /\
  forall a, octets_ok (mac_octets a) -> MacAddr_parse (MacAddr_display a) = Ok a.
Proof.
  split; [|apply MacAddr_roundtrip]. destruct (collect_hex_digits s) as [ds|e] eqn:Hc.
  2:{ unfold MacPrefix_parse. by rewrite Hc. }
  assert (Hds : digits_ok ds) by (eapply collect_digits_ok; [|exact Hc]; constructor).
  case_bool_decide as Hl.
  - exists (prefix_of_digits ds). split; [by apply MacPrefix_parse_digits|].
    unfold MAX_NIBBLES in *. split; [split; [apply pack_length | apply pack_ok]; (done || lia)|].
    split; [done|]. split; [apply (nibbles_pack 6); (done || lia)|]. split.
    + intros [a] [Hn Ha]. apply (matches_pack 6); [lia | done | exact Hn | exact Ha].
    + apply MacPrefix_parse_digits; [|done]. apply collect_display; [apply Hl | done].
  - unfold MacPrefix_parse. rewrite Hc.
    destruct (Nat.ltb_spec (length ds) MIN_NIBBLES); [done|].
    destruct (Nat.ltb_spec MAX_NIBBLES (length ds)); [done | lia].
Qed.

(** The KeyW allocation of the module's comment: nine nibbles. *)
Lemma mac_prefix_spec_witness :
  exists p, MacPrefix_parse (lit "70:b3:d5:7c:b") = Ok p /\
    matches p (mkMacAddr [0x70; 0xb3; 0xd5; 0x7c; 0xb9; 0x01]) = true /\
    matches p (mkMacAddr [0x70; 0xb3; 0xd5; 0x7c; 0xa9; 0x01]) = false.
Proof.
  destruct (mac_prefix_spec (lit "70:b3:d5:7c:b")) as [H _].
  assert (Hc : collect_hex_digits (lit "70:b3:d5:7c:b") = Ok [7; 0; 11; 3; 13; 5; 7; 12; 11]) by (by vm_compute).
  rewrite Hc, bool_decide_true in H by (unfold MIN_NIBBLES, MAX_NIBBLES; simpl; lia).
  destruct H as (p & Hp & _ & _ & _ & Hm & _). exists p. split; [exact Hp|].
  split; [apply Hm; [split; [reflexivity | apply bytes_okb; reflexivity] | by exists [9; 0; 1]]|].
  apply not_true_iff_false. rewrite Hm by (split; [reflexivity | apply bytes_okb; reflexivity]).
  intros [k Hk]. vm_compute in Hk. discriminate Hk.
Defined.
