(* ===== verification/Observation.v ===== *)
(** * What a radio saw ([radio/src/observation.rs])

    The records the radio backends fill in and the matching engine reads.  Times are
    nanoseconds since the Unix epoch; the counters keep their machine widths. *)

From S2P Require Import Prelude RustStr Floats Mac.

Local Open Scope Z_scope.

Inductive RadioTech := Tech_Wifi | Tech_Ble | Tech_RemoteId.
#[export] Instance RadioTech_eq_dec : EqDecision RadioTech.
Proof. solve_decision. Defined.

Definition badge (t : RadioTech) : rstr :=
  match t with Tech_Wifi => lit "WIFI" | Tech_Ble => lit "BLE" | Tech_RemoteId => lit "REMOTE ID" end.

Inductive ObservationSource := HostWifiScan | HostWifiMonitor | HostBle | External (name : rstr).
#[export] Instance ObservationSource_eq_dec : EqDecision ObservationSource.
Proof. solve_decision. Defined.

Inductive FrameKind := Beacon | ProbeRequest | ProbeResponse | BeaconOrProbeResponse | Data | Other.
#[export] Instance FrameKind_eq_dec : EqDecision FrameKind.
Proof. solve_decision. Defined.

(** ** Network names *)

Inductive Ssid := Wildcard | Named (bytes : list Z).
Definition MAX_LEN : nat := 32.

Definition Ssid_from_bytes (bytes : list Z) : Ssid :=
  match bytes with
  | [] => Wildcard
  | _ => Named (take (length bytes `min` MAX_LEN) bytes)
  end.
Definition is_wildcard (s : Ssid) : bool := match s with Wildcard => true | Named _ => false end.
Definition Ssid_display (s : Ssid) : rstr :=
  match s with
  | Wildcard => []
  | Named bytes => map (fun c => if is_control c then 0xfffd else c) (from_utf8_lossy bytes)
  end.

(** ** Information elements *)

Record InformationElement := mkIE { ie_id : Z; ie_data : list Z }.
Definition MAX_DATA : nat := 255.
Definition VENDOR_SPECIFIC : Z := 221.
Definition InformationElement_new (id : Z) (data : list Z) : InformationElement :=
  mkIE id (take (length data `min` MAX_DATA) data).
Definition vendor_oui (ie : InformationElement) : option (Z * Z * Z) :=
  if negb (ie_id ie =? VENDOR_SPECIFIC) || (length (ie_data ie) <? 3)%nat then None
  else Some (ie_data ie !!! 0%nat, ie_data ie !!! 1%nat, ie_data ie !!! 2%nat).

(** ** Security flags *)

Record Security := mkSecurity { open : bool; wep : bool; wpa : bool; wpa2 : bool; wpa3 : bool; enterprise : bool }.
Definition security_label (s : Security) : rstr :=
  if open s then lit "Open"
  else
    let parts := (if wep s then [lit "WEP"] else []) ++ (if wpa s then [lit "WPA"] else [])
              ++ (if wpa2 s then [lit "WPA2"] else []) ++ (if wpa3 s then [lit "WPA3"] else []) in
    match parts with
    | [] => lit "Unknown"
    | _ => join (lit "/") parts ++ (if enterprise s then lit " Enterprise" else [])
    end.
Definition is_unprotected (s : Security) : bool := open s || wep s.

(** ** Observations *)

Record WifiObservation := mkWifi {
  bssid : option MacAddr;
  transmitter : option MacAddr;
  receiver : option MacAddr;
  addr3 : option MacAddr;
  ssid : option Ssid;
  frequency_mhz : option Z;
  wifi_rssi_dbm : option Z;
  frame : option FrameKind;
  information_elements : list InformationElement;
  security : option Security;
  last_seen_ms : option Z;
  wps : bool }.
Definition WifiObservation_empty : WifiObservation :=
  mkWifi None None None None None None None None [] None None false.

(** [Option::or]. *)
Definition opt_or {A} (a b : option A) : option A := match a with Some _ => a | None => b end.
Definition primary_address (w : WifiObservation) : option MacAddr :=
  opt_or (opt_or (transmitter w) (bssid w)) (addr3 w).

Definition channel (w : WifiObservation) : option Z :=
  match frequency_mhz w with
  | None => None
  | Some freq =>
      if in_range 2412 2472 freq then Some (wrapu 16 ((freq - 2407) / 5))
      else if freq =? 2484 then Some 14
      else if in_range 5000 5895 freq then Some (wrapu 16 ((freq - 5000) / 5))
      else None
  end.

Record BleObservation := mkBle {
  ble_address : option MacAddr;
  address_is_random : bool;
  local_name : option rstr;
  company_id : option Z;
  service_uuids : list rstr;
  manufacturer_data : list Z;
  ble_rssi_dbm : option Z }.

Record RemoteIdObservation := mkRemoteId {
  uas_id : option rstr;
  operator_id : option rstr;
  latitude : option f64;
  longitude : option f64;
  altitude_m : option f32;
  speed_mps : option f32;
  heading_deg : option f32;
  operator_latitude : option f64;
  operator_longitude : option f64;
  protocol_version : option Z;
  rid_rssi_dbm : option Z }.

Inductive ObservationPayload :=
| PWifi (w : WifiObservation)
| PBle (b : BleObservation)
| PRemoteId (r : RemoteIdObservation).

Definition payload_tech (p : ObservationPayload) : RadioTech :=
  match p with PWifi _ => Tech_Wifi | PBle _ => Tech_Ble | PRemoteId _ => Tech_RemoteId end.
Definition payload_rssi_dbm (p : ObservationPayload) : option Z :=
  match p with PWifi w => wifi_rssi_dbm w | PBle b => ble_rssi_dbm b | PRemoteId r => rid_rssi_dbm r end.
Definition payload_address (p : ObservationPayload) : option MacAddr :=
  match p with PWifi w => primary_address w | PBle b => ble_address b | PRemoteId _ => None end.

Record RadioObservation := mkObservation {
  source : ObservationSource;
  first_seen : Z;
  last_seen : Z;
  observation_count : Z;
  payload : ObservationPayload }.

Definition RadioObservation_new (src : ObservationSource) (at_ : Z) (p : ObservationPayload) : RadioObservation :=
  mkObservation src at_ at_ 1 p.

Definition merge_sighting (o : RadioObservation) (at_ : Z) : RadioObservation :=
  mkObservation (source o)
    (if at_ <? first_seen o then at_ else first_seen o)
    (if last_seen o <? at_ then at_ else last_seen o)
    (sat_addu 32 (observation_count o) 1)
    (payload o).

(** ** Lemmas *)

(** The replacement character is not a control character, so none is left. *)
Lemma Ssid_display_printable s : Forall (fun c => is_control c = false) (Ssid_display s).
Proof.
  destruct s as [|bytes]; [constructor|]. apply List.Forall_map, List.Forall_forall. intros c _.
  by destruct (is_control c) eqn:Hc.
Qed.

(** ** Properties *)

(** Merging sightings of one device in any order.  Whatever the times, first and last seen are
    the least and the greatest of them and the sighting that made the record, so first never
    passes last; the count is one per sighting and stops at the largest [u32]; who saw what is
    left alone. *)
Theorem merge_sightings_spec src at_ p ats :
  let o := fold_left merge_sighting ats (RadioObservation_new src at_ p) in
  first_seen o = fold_left Z.min ats at_ /\ last_seen o = fold_left Z.max ats at_ /\
  (first_seen o ∈ at_ :: ats /\ last_seen o ∈ at_ :: ats /\
   Forall (fun t => first_seen o <= t <= last_seen o) (at_ :: ats)) /\
  observation_count o = Z.min (1 + Z.of_nat (length ats)) (2 ^ 32 - 1) /\
  source o = src /\ payload o = p.
Proof.
  induction ats as [|t ats IH] using rev_ind; cbn zeta in *.
  - cbn [fold_left first_seen last_seen RadioObservation_new]. split; [done|]. split; [done|].
    split; [|done]. split; [by left|]. split; [by left|]. constructor; [lia | done].
  - rewrite !fold_left_app. cbn [fold_left].
    set (o := fold_left merge_sighting ats (RadioObservation_new src at_ p)) in *.
    destruct IH as (Hf & Hl & (Hfin & Hlin & Hall) & Hc & Hs & Hp). rewrite <- Hf, <- Hl.
    cbn [first_seen last_seen observation_count source payload merge_sighting].
    assert (Hfm : (if t <? first_seen o then t else first_seen o) = Z.min (first_seen o) t) by (ztest; lia).
    assert (Hlm : (if last_seen o <? t then t else last_seen o) = Z.max (last_seen o) t) by (ztest; lia).
    rewrite Hfm, Hlm. split; [done|]. split; [done|]. split.
    + rewrite app_comm_cons, !elem_of_app, !list_elem_of_singleton. split; [|split].
      * destruct (Z.min_spec (first_seen o) t) as [[_ ->]|[_ ->]]; [by left | by right].
      * destruct (Z.max_spec (last_seen o) t) as [[_ ->]|[_ ->]]; [by right | by left].
      * apply Forall_app_2; [eapply Forall_impl; [exact Hall|]; cbn beta; lia|]. constructor; [lia | done].
    + split; [|done]. rewrite Hc, length_app. unfold sat_addu. cbn [length]. lia.
Qed.
