(* ===== verification/Signature.v ===== *)
(** * Surveillance signatures ([radio/src/signature.rs])

    What a signature is, when it matches an observation, and the log that decides whether a match
    is surfaced.  The reasons are the strings the code formats; the one formatting the model does
    not spell out is [{:?}] on a string, whose escaping needs the Unicode tables of the standard
    library: it is the argument [str_debug], and nothing depends on what it is.  Reading a pack is
    [serde_json]'s: the argument [from_str] of [from_json]. *)

From S2P Require Import Prelude RustStr Mac Glob Observation.

Local Open Scope Z_scope.

Definition SCHEMA_VERSION : Z := 1.

(** The derived order is the order of the constructors. *)
Inductive Confidence := C_Info | C_Low | C_Medium | C_High.
#[export] Instance Confidence_eq_dec : EqDecision Confidence.
Proof. solve_decision. Defined.
Definition confidence_rank (c : Confidence) : nat :=
  match c with C_Info => 0 | C_Low => 1 | C_Medium => 2 | C_High => 3 end.
Definition confidence_ltb (a b : Confidence) : bool := (confidence_rank a <? confidence_rank b)%nat.
Definition confidence_label (c : Confidence) : rstr :=
  match c with C_Info => lit "INFO" | C_Low => lit "LOW" | C_Medium => lit "MEDIUM" | C_High => lit "HIGH" end.

Inductive Severity := S_Informational | S_Low | S_Medium | S_High.
#[export] Instance Severity_eq_dec : EqDecision Severity.
Proof. solve_decision. Defined.

Inductive MacField := F_Any | F_Bssid | F_Transmitter | F_Receiver | F_Addr3.

Inductive MatchCondition :=
| MacExact (field : MacField) (mac : MacAddr)
| MacPrefixCond (field : MacField) (prefix : MacPrefix) (allow_locally_administered : bool)
| SsidExact (ssid : rstr)
| SsidContains (substring : rstr)
| SsidGlob (pattern : rstr)
| SsidWildcard
| FrameType (frame : FrameKind)
| InformationElementCond (id : Z) (prefix : option (list Z))
| VendorOui (oui : MacPrefix)
| IeIdSequence (ids : list Z)
| BleCompanyId (id : Z)
| BleServiceUuid (uuid : rstr)
| BleNameContains (substring : rstr).

Record Signature := mkSignature {
  sig_id : rstr;
  sig_vendor : rstr;
  sig_product : option rstr;
  sig_technology : RadioTech;
  conditions : list MatchCondition;
  sig_confidence : Confidence;
  sig_severity : Severity;
  description : rstr;
  evidence : list rstr;
  last_verified : option rstr;
  sig_notes : option rstr;
  enabled : bool }.

(** The conditions that need what a BSS scan does not give. *)
Definition needs_more_than_scan (c : MatchCondition) : bool :=
  match c with
  | FrameType frame => negb (match frame with Beacon | ProbeResponse | BeaconOrProbeResponse => true | _ => false end)
  | IeIdSequence _ => true
  | InformationElementCond _ prefix => match prefix with Some _ => true | None => false end
  | VendorOui _ => true
  | BleCompanyId _ | BleServiceUuid _ | BleNameContains _ => true
  | _ => false
  end.
Definition reachable_via_bss_scan (s : Signature) : bool := negb (existsb needs_more_than_scan (conditions s)).

(** ** Packs *)

Record SignatureDb := mkDb { schema_version : Z; pack_version : option rstr; signatures : list Signature }.
Definition SignatureDb_empty : SignatureDb := mkDb SCHEMA_VERSION None [].

Inductive SignatureError (E : Type) :=
| UnsupportedSchema (found expected : Z)
| NoConditions (id : rstr)
| DuplicateId (id : rstr)
| EmptyId
| ParseError (e : E).
Arguments UnsupportedSchema {E}.
Arguments NoConditions {E}.
Arguments DuplicateId {E}.
Arguments EmptyId {E}.
Arguments ParseError {E}.

Fixpoint validate_from {E} (seen : list rstr) (sigs : list Signature) : result (SignatureError E) unit :=
  match sigs with
  | [] => Ok tt
  | sig :: sigs =>
      if bool_decide (trim (sig_id sig) = []) then Err EmptyId
      else if bool_decide (conditions sig = []) then Err (NoConditions (sig_id sig))
      else if bool_decide (sig_id sig ∈ seen) then Err (DuplicateId (sig_id sig))
      else validate_from (seen ++ [sig_id sig]) sigs
  end.
Definition validate {E} (db : SignatureDb) : result (SignatureError E) unit := validate_from [] (signatures db).

Definition from_json {E} (from_str : rstr -> result E SignatureDb) (input : rstr) : result (SignatureError E) SignatureDb :=
  match from_str input with
  | Err e => Err (ParseError e)
  | Ok db =>
      if negb (schema_version db =? SCHEMA_VERSION) then Err (UnsupportedSchema (schema_version db) SCHEMA_VERSION)
      else match validate db with Err e => Err e | Ok _ => Ok db end
  end.

(** ** Matching *)

Record Detection := mkDetection {
  signature_id : rstr;
  det_vendor : rstr;
  det_product : option rstr;
  det_technology : RadioTech;
  det_confidence : Confidence;
  det_severity : Severity;
  matched_fields : list rstr }.
#[export] Instance Detection_eq_dec : EqDecision Detection.
Proof. solve_decision. Defined.

Definition addresses_for (field : MacField) (w : WifiObservation) : list MacAddr :=
  match field with
  | F_Any => omap id [transmitter w; bssid w; addr3 w; receiver w]
  | F_Bssid => option_list (bssid w)
  | F_Transmitter => option_list (transmitter w)
  | F_Receiver => option_list (receiver w)
  | F_Addr3 => option_list (addr3 w)
  end.

Definition field_name (field : MacField) : rstr :=
  match field with
  | F_Any => lit "address"
  | F_Bssid => lit "BSSID"
  | F_Transmitter => lit "transmitter"
  | F_Receiver => lit "receiver"
  | F_Addr3 => lit "addr3"
  end.

Definition frame_debug (k : FrameKind) : rstr :=
  match k with
  | Beacon => lit "Beacon" | ProbeRequest => lit "ProbeRequest" | ProbeResponse => lit "ProbeResponse"
  | BeaconOrProbeResponse => lit "BeaconOrProbeResponse" | Data => lit "Data" | Other => lit "Other"
  end.
(** [{:?}] and [{:02x?}] of a vector. *)
Definition vec_debug (f : Z -> rstr) (l : list Z) : rstr := lit "[" ++ join (lit ", ") (map f l) ++ lit "]".

(** [bool::then]. *)
Definition then_ {A} (b : bool) (x : A) : option A := if b then Some x else None.

Definition oui_address (v : Z * Z * Z) : MacAddr := let '(a, b, c) := v in mkMacAddr [a; b; c; 0; 0; 0].

Section matching.
Context (str_debug : rstr -> rstr).

Definition match_wifi (condition : MatchCondition) (w : WifiObservation) : option rstr :=
  match condition with
  | MacExact field mac =>
      then_ (existsb (fun a => bool_decide (a = mac)) (addresses_for field w))
        (field_name field ++ lit " is " ++ MacAddr_display mac)
  | MacPrefixCond field prefix allow_la =>
      hit ← List.find (fun a => negb (is_multicast a) && (allow_la || negb (is_locally_administered a)) && matches prefix a)
              (addresses_for field w);
      Some (field_name field ++ lit " " ++ MacAddr_display hit ++ lit " matches prefix " ++ MacPrefix_display prefix)
  | SsidExact s =>
      observed ← ssid w;
      then_ (bool_decide (Ssid_display observed = s)) (lit "SSID is " ++ str_debug s)
  | SsidContains substring =>
      observed ← ssid w;
      then_ (contains (Ssid_display observed) substring) (lit "SSID contains " ++ str_debug substring)
  | SsidGlob pattern =>
      observed ← ssid w;
      then_ (glob_match pattern (Ssid_display observed)) (lit "SSID matches pattern " ++ str_debug pattern)
  | SsidWildcard =>
      observed ← ssid w;
      then_ (is_wildcard observed) (lit "wildcard (zero-length) SSID observed")
  | FrameType f =>
      seen ← frame w;
      then_ (bool_decide (seen = f)) (lit "frame type is " ++ frame_debug f)
  | InformationElementCond id prefix =>
      element ← List.find (fun ie => ie_id ie =? id) (information_elements w);
      match prefix with
      | None => Some (lit "information element " ++ dec id ++ lit " present")
      | Some bytes =>
          then_ (starts_with (ie_data element) bytes)
            (lit "information element " ++ dec id ++ lit " starts with " ++ vec_debug fmt_02x bytes)
      end
  | VendorOui oui =>
      hit ← head (omap (fun ie => vendor ← vendor_oui ie; then_ (matches oui (oui_address vendor)) vendor)
                       (information_elements w));
      let '(a, b, c) := hit in
      Some (lit "vendor-specific element with OUI " ++ fmt_02x a ++ lit ":" ++ fmt_02x b ++ lit ":" ++ fmt_02x c)
  | IeIdSequence ids =>
      then_ (bool_decide (map ie_id (information_elements w) = ids))
        (lit "information-element fingerprint " ++ vec_debug dec ids ++ lit " matched")
  | BleCompanyId _ | BleServiceUuid _ | BleNameContains _ => None
  end.

Definition match_ble (condition : MatchCondition) (b : BleObservation) : option rstr :=
  match condition with
  | MacExact _ mac =>
      address ← ble_address b;
      then_ (bool_decide (address = mac)) (lit "BLE address is " ++ MacAddr_display mac)
  | MacPrefixCond _ prefix allow_la =>
      addr ← ble_address b;
      if address_is_random b then None
      else if is_multicast addr || (is_locally_administered addr && negb allow_la) then None
      else then_ (matches prefix addr)
             (lit "BLE address " ++ MacAddr_display addr ++ lit " matches prefix " ++ MacPrefix_display prefix)
  | BleCompanyId id =>
      company ← company_id b;
      then_ (company =? id) (lit "BLE company ID 0x" ++ fmt_hex_fixed 4 id)
  | BleServiceUuid uuid =>
      then_ (existsb (fun u => eq_ignore_ascii_case u uuid) (service_uuids b)) (lit "BLE service UUID " ++ uuid)
  | BleNameContains substring =>
      name ← local_name b;
      then_ (contains name substring) (lit "BLE name contains " ++ str_debug substring)
  | _ => None
  end.

Definition match_one (condition : MatchCondition) (payload : ObservationPayload) : option rstr :=
  match payload with
  | PWifi w => match_wifi condition w
  | PBle b => match_ble condition b
  | PRemoteId _ => None
  end.

Fixpoint match_all (conditions : list MatchCondition) (payload : ObservationPayload) : option (list rstr) :=
  match conditions with
  | [] => Some []
  | condition :: conditions =>
      match match_one condition payload with
      | None => None
      | Some reason =>
          match match_all conditions payload with
          | None => None
          | Some reasons => Some (reason :: reasons)
          end
      end
  end.

Definition detection_of (sig : Signature) (reasons : list rstr) : Detection :=
  mkDetection (sig_id sig) (sig_vendor sig) (sig_product sig) (sig_technology sig)
    (sig_confidence sig) (sig_severity sig) reasons.

Fixpoint match_signatures (sigs : list Signature) (payload : ObservationPayload) : list Detection :=
  match sigs with
  | [] => []
  | sig :: sigs =>
      if negb (enabled sig) then match_signatures sigs payload
      else if negb (bool_decide (sig_technology sig = payload_tech payload)) then match_signatures sigs payload
      else match match_all (conditions sig) payload with
           | Some reasons => detection_of sig reasons :: match_signatures sigs payload
           | None => match_signatures sigs payload
           end
  end.
Definition match_observation (db : SignatureDb) (payload : ObservationPayload) : list Detection :=
  match_signatures (signatures db) payload.
End matching.

(** ** The detection log *)

Record LoggedDetection := mkLogged { log_key : rstr; log_signature_id : rstr; log_confidence : Confidence }.
Abbreviation DetectionLog := (list LoggedDetection).

Inductive LogOutcome := New | Escalated (from : Confidence) | Suppressed.

(** The entry [find] stops at, changed in place; [None] when there is none. *)
Fixpoint observe_existing (entries : DetectionLog) (device_key : rstr) (d : Detection)
    : option (DetectionLog * LogOutcome) :=
  match entries with
  | [] => None
  | e :: entries =>
      if bool_decide (log_key e = device_key) && bool_decide (log_signature_id e = signature_id d) then
        if confidence_ltb (log_confidence e) (det_confidence d)
        then Some (mkLogged (log_key e) (log_signature_id e) (det_confidence d) :: entries, Escalated (log_confidence e))
        else Some (e :: entries, Suppressed)
      else match observe_existing entries device_key d with
           | Some (entries, o) => Some (e :: entries, o)
           | None => None
           end
  end.

Definition observe (log : DetectionLog) (device_key : rstr) (d : Detection) : DetectionLog * LogOutcome :=
  match observe_existing log device_key d with
  | Some r => r
  | None => (log ++ [mkLogged device_key (signature_id d) (det_confidence d)], New)
  end.

Definition conf_max (a b : Confidence) : Confidence := if confidence_ltb a b then b else a.
Definition max_confidence (l : list Confidence) : option Confidence :=
  match l with [] => None | c :: l => Some (fold_left conf_max l c) end.

Definition best_confidence (log : DetectionLog) (device_key : rstr) : option Confidence :=
  max_confidence (map log_confidence (List.filter (fun e => bool_decide (log_key e = device_key)) log)).

(** ** What a condition means *)

Inductive address_of : MacField -> WifiObservation -> MacAddr -> Prop :=
| addr_bssid f w a : bssid w = Some a -> f = F_Bssid \/ f = F_Any -> address_of f w a
| addr_transmitter f w a : transmitter w = Some a -> f = F_Transmitter \/ f = F_Any -> address_of f w a
| addr_receiver f w a : receiver w = Some a -> f = F_Receiver \/ f = F_Any -> address_of f w a
| addr_addr3 f w a : addr3 w = Some a -> f = F_Addr3 \/ f = F_Any -> address_of f w a.

(** A vendor prefix speaks of hardware: not for a group address, nor for a locally administered
    one unless the rule says so. *)
Definition names_hardware (allow_la : bool) (a : MacAddr) : Prop :=
  is_multicast a = false /\ (allow_la = true \/ is_locally_administered a = false).

Definition holds_wifi (c : MatchCondition) (w : WifiObservation) : Prop :=
  match c with
  | MacExact f mac => address_of f w mac
  | MacPrefixCond f prefix la => exists a, address_of f w a /\ names_hardware la a /\ matches prefix a = true
  | SsidExact s => exists o, ssid w = Some o /\ Ssid_display o = s
  | SsidContains s => exists o a b, ssid w = Some o /\ Ssid_display o = a ++ s ++ b
  | SsidGlob p => exists o, ssid w = Some o /\ glob_match p (Ssid_display o) = true
  | SsidWildcard => ssid w = Some Wildcard
  | FrameType f => frame w = Some f
  | InformationElementCond id prefix =>
      exists before ie after, information_elements w = before ++ ie :: after /\ ie_id ie = id /\
        Forall (fun x => ie_id x <> id) before /\
        forall bytes, prefix = Some bytes -> bytes `prefix_of` ie_data ie
  | VendorOui oui =>
      exists ie v, ie ∈ information_elements w /\ vendor_oui ie = Some v /\ matches oui (oui_address v) = true
  | IeIdSequence ids => map ie_id (information_elements w) = ids
  | BleCompanyId _ | BleServiceUuid _ | BleNameContains _ => False
  end.

Definition holds_ble (c : MatchCondition) (b : BleObservation) : Prop :=
  match c with
  | MacExact _ mac => ble_address b = Some mac
  | MacPrefixCond _ prefix la =>
      exists a, ble_address b = Some a /\ address_is_random b = false /\ names_hardware la a /\ matches prefix a = true
  | BleCompanyId id => company_id b = Some id
  | BleServiceUuid uuid => exists u, u ∈ service_uuids b /\ eq_ignore_ascii_case u uuid = true
  | BleNameContains s => exists a c, local_name b = Some (a ++ s ++ c)
  | _ => False
  end.

Definition holds (c : MatchCondition) (p : ObservationPayload) : Prop :=
  match p with PWifi w => holds_wifi c w | PBle b => holds_ble c b | PRemoteId _ => False end.

(** ** Lemmas *)

Lemma then_is_Some {A} b (x : A) : is_Some (then_ b x) <-> b = true.
Proof. destruct b; simpl; split; [done | by eexists | by intros [] | done]. Qed.

Lemma bind_is_Some {A B} (o : option A) (f : A -> option B) :
  is_Some (o ≫= f) <-> exists x, o = Some x /\ is_Some (f x).
Proof. destruct o as [x|]; simpl; split; [intros H; eauto | by intros (? & [= <-] & H) | by intros [] | by intros (? & ? & _)]. Qed.

Lemma option_list_elem {A} (x : A) o : x ∈ option_list o <-> o = Some x.
Proof. destruct o; cbn; set_solver. Qed.

Lemma address_of_elem f w a : a ∈ addresses_for f w <-> address_of f w a.
Proof.
  split.
  - destruct f; cbn [addresses_for].
    + rewrite list_elem_of_omap. intros (o & Ho & Hid). unfold id in Hid. subst o.
      set_unfold in Ho. destruct Ho as [Ho|[Ho|[Ho|[Ho|[]]]]]; symmetry in Ho;
        eauto using addr_bssid, addr_transmitter, addr_receiver, addr_addr3.
    + rewrite option_list_elem. eauto using addr_bssid.
    + rewrite option_list_elem. eauto using addr_transmitter.
    + rewrite option_list_elem. eauto using addr_receiver.
    + rewrite option_list_elem. eauto using addr_addr3.
  - assert (Hany : forall o, Some a = o -> o ∈ [transmitter w; bssid w; addr3 w; receiver w] -> a ∈ addresses_for F_Any w).
    { intros o Ho Hin. apply list_elem_of_omap. exists o. by subst. }
    destruct 1 as [f w a H [->| ->]|f w a H [->| ->]|f w a H [->| ->]|f w a H [->| ->]];
      try (by apply option_list_elem); eapply Hany; try (symmetry; exact H); set_solver.
Qed.

Lemma find_is_Some {A} (p : A -> bool) l : is_Some (List.find p l) <-> exists x, x ∈ l /\ p x = true.
Proof.
  split.
  - intros [x Hx]. apply List.find_some in Hx as [Hin Hp]. exists x. by rewrite list_elem_of_In.
  - intros (x & Hin & Hp). destruct (List.find p l) eqn:Hf; [by eexists|].
    apply list_elem_of_In in Hin. pose proof (List.find_none _ _ Hf x Hin). congruence.
Qed.

Lemma find_split {A} (p : A -> bool) l x :
  List.find p l = Some x <-> exists a b, l = a ++ x :: b /\ p x = true /\ Forall (fun y => p y = false) a.
Proof.
  induction l as [|y l IH]; simpl.
  - split; [done | by intros ([|] & b & ? & _)].
  - destruct (p y) eqn:Hy.
    + split; [intros [= ->]; by exists [], l | intros ([|z a] & b & Heq & Hp & Ha); simplify_eq/=; [done|]].
      apply Forall_cons in Ha as [Ha _]. congruence.
    + rewrite IH. split.
      * intros (a & b & -> & Hp & Ha). exists (y :: a), b. split; [done|]. split; [done | by constructor].
      * intros ([|z a] & b & Heq & Hp & Ha); simplify_eq/=; [congruence|].
        apply Forall_cons in Ha as [_ Ha]. eauto.
Qed.

Lemma existsb_elem {A} (p : A -> bool) l : existsb p l = true <-> exists x, x ∈ l /\ p x = true.
Proof. rewrite existsb_exists. setoid_rewrite list_elem_of_In. done. Qed.

Lemma names_hardware_test la a : negb (is_multicast a) && (la || negb (is_locally_administered a)) = true <-> names_hardware la a.
Proof. unfold names_hardware. rewrite andb_true_iff, orb_true_iff, !negb_true_iff. done. Qed.

Section lemmas.
Context (str_debug : rstr -> rstr).

Lemma match_wifi_iff c w : is_Some (match_wifi str_debug c w) <-> holds_wifi c w.
Proof.
  destruct c as [f mac|f prefix la|s|s|p| |fk|id prefix|oui|ids|id|u|s]; cbn [match_wifi holds_wifi].
  - rewrite then_is_Some, existsb_elem. setoid_rewrite bool_decide_eq_true.
    rewrite <- address_of_elem. naive_solver.
  - rewrite bind_is_Some. setoid_rewrite <- address_of_elem. setoid_rewrite <- names_hardware_test.
    split.
    + intros (a & Ha & _). apply List.find_some in Ha as [Hin Hp]. exists a. rewrite list_elem_of_In.
      split; [done|]. by apply andb_true_iff in Hp.
    + intros (a & Hin & Hh & Hm).
      destruct (proj2 (find_is_Some (fun a => negb (is_multicast a) && (la || negb (is_locally_administered a)) && matches prefix a)
        (addresses_for f w))) as [x Hx]; [exists a; by rewrite Hh, Hm|]. exists x. split; [exact Hx | by eexists].
  - rewrite bind_is_Some. setoid_rewrite then_is_Some. setoid_rewrite bool_decide_eq_true. done.
  - rewrite bind_is_Some. setoid_rewrite then_is_Some. setoid_rewrite contains_spec. naive_solver.
  - rewrite bind_is_Some. setoid_rewrite then_is_Some. done.
  - rewrite bind_is_Some. setoid_rewrite then_is_Some. split; [intros ([|bs] & ? & ?); done | intros ->; by exists Wildcard].
  - rewrite bind_is_Some. setoid_rewrite then_is_Some. setoid_rewrite bool_decide_eq_true. naive_solver.
  - rewrite bind_is_Some. setoid_rewrite find_split. split.
    + intros (ie & (a & b & Hl & Hid & Ha) & Hs). exists a, ie, b. split; [done|]. split; [by apply Z.eqb_eq|].
      split; [eapply Forall_impl; [exact Ha|]; intros x; apply Z.eqb_neq|].
      intros bytes ->. by apply then_is_Some, starts_with_spec in Hs.
    + intros (a & ie & b & Hl & Hid & Ha & Hp). exists ie. split.
      * exists a, b. split; [done|]. split; [by apply Z.eqb_eq|].
        eapply Forall_impl; [exact Ha|]. intros x. apply Z.eqb_neq.
      * destruct prefix as [bytes|]; [|by eexists]. by apply then_is_Some, starts_with_spec, Hp.
  - rewrite bind_is_Some. split.
    + intros ([[a b] c] & Hh & _). apply head_Some_elem_of, list_elem_of_omap in Hh as (ie & Hin & Hie).
      apply bind_Some in Hie as (v & Hv & Ht). unfold then_ in Ht. case_match eqn:Hm; [|done]. simplify_eq. eauto.
    + intros (ie & v & Hin & Hv & Hm).
      destruct (omap (fun ie => vendor ← vendor_oui ie; then_ (matches oui (oui_address vendor)) vendor) (information_elements w)) as [|x l] eqn:Ho.
      * exfalso. apply (not_elem_of_nil v). rewrite <- Ho. apply list_elem_of_omap. exists ie. split; [done|].
        by rewrite Hv; simpl; rewrite Hm.
      * exists x. split; [done|]. destruct x as [[a b] c]. by eexists.
  - rewrite then_is_Some, bool_decide_eq_true. done.
  - split; [by intros [] | done].
  - split; [by intros [] | done].
  - split; [by intros [] | done].
Qed.

Lemma match_ble_iff c b : is_Some (match_ble str_debug c b) <-> holds_ble c b.
Proof.
  destruct c as [f mac|f prefix la|s|s|p| |fk|id prefix|oui|ids|id|u|s]; cbn [match_ble holds_ble];
    try (split; [by intros [] | done]).
  - rewrite bind_is_Some. setoid_rewrite then_is_Some. setoid_rewrite bool_decide_eq_true. naive_solver.
  - rewrite bind_is_Some. setoid_rewrite <- names_hardware_test.
    split; intros (a & Ha & Hs); exists a; (split; [done|]).
    + destruct (address_is_random b); [by destruct Hs|].
      destruct (is_multicast a), (is_locally_administered a), la; simpl in *; try (by destruct Hs);
        apply then_is_Some in Hs; done.
    + destruct Hs as (-> & Hh & Hm).
      destruct (is_multicast a), (is_locally_administered a), la; simpl in *; try done; by apply then_is_Some.
  - rewrite bind_is_Some. setoid_rewrite then_is_Some. setoid_rewrite Z.eqb_eq. naive_solver.
  - rewrite then_is_Some, existsb_elem. done.
  - rewrite bind_is_Some. setoid_rewrite then_is_Some. setoid_rewrite contains_spec. naive_solver.
Qed.

Lemma match_one_iff c p : is_Some (match_one str_debug c p) <-> holds c p.
Proof.
  destruct p; [apply match_wifi_iff | apply match_ble_iff|]. split; [by intros [] | done].
Qed.

(** One reason for each condition, in order, when every one holds. *)
Lemma match_all_iff cs p : is_Some (match_all str_debug cs p) <-> Forall (fun c => holds c p) cs.
Proof.
  induction cs as [|c cs IH]; cbn [match_all]; [split; [constructor | intros _; by eexists]|].
  rewrite Forall_cons, <- IH, <- match_one_iff.
  destruct (match_one str_debug c p); [|split; [by intros [] | by intros [[] _]]].
  destruct (match_all str_debug cs p); [|split; [by intros [] | by intros [_ []]]].
  split; [intros _; split; by eexists | intros _; by eexists].
Qed.

Lemma match_all_reasons cs p rs :
  match_all str_debug cs p = Some rs -> Forall2 (fun c r => match_one str_debug c p = Some r) cs rs.
Proof.
  revert rs. induction cs as [|c cs IH]; cbn [match_all]; intros rs; [by intros [= <-]|].
  destruct (match_one str_debug c p) eqn:Hc; [|done].
  destruct (match_all str_debug cs p) eqn:Hcs; [|done]. intros [= <-]. constructor; [done | by apply IH].
Qed.
End lemmas.

(** *** The log *)

(** What is on record for a device and a signature. *)
Definition logged (log : DetectionLog) (k sid : rstr) : option Confidence :=
  log_confidence <$> List.find (fun e => bool_decide (log_key e = k) && bool_decide (log_signature_id e = sid)) log.

(** The larger of an optional confidence and another. *)
Definition opt_max (o : option Confidence) (c : Confidence) : option Confidence :=
  Some (match o with None => c | Some b => conf_max b c end).

Lemma conf_max_assoc a b c : conf_max a (conf_max b c) = conf_max (conf_max a b) c.
Proof. by destruct a, b, c. Qed.

Lemma max_confidence_snoc l c : max_confidence (l ++ [c]) = opt_max (max_confidence l) c.
Proof. destruct l as [|b l]; [done|]. cbn [max_confidence app opt_max]. by rewrite fold_left_app. Qed.

Lemma fold_conf_max l a b : fold_left conf_max l (conf_max a b) = conf_max a (fold_left conf_max l b).
Proof. revert b. induction l as [|c l IH]; intros b; cbn [fold_left]; [done|]. by rewrite <- conf_max_assoc, IH. Qed.

Lemma max_confidence_cons c l :
  max_confidence (c :: l) = match max_confidence l with None => Some c | Some m => Some (conf_max c m) end.
Proof. destruct l as [|b l]; [done|]. cbn [max_confidence fold_left]. by rewrite fold_conf_max. Qed.

Lemma logged_cons e log k sid :
  logged (e :: log) k sid =
  if bool_decide (log_key e = k) && bool_decide (log_signature_id e = sid) then Some (log_confidence e) else logged log k sid.
Proof. unfold logged. cbn [List.find]. by destruct (_ && _). Qed.

Lemma best_cons e log k :
  best_confidence (e :: log) k =
  if bool_decide (log_key e = k)
  then match best_confidence log k with None => Some (log_confidence e) | Some m => Some (conf_max (log_confidence e) m) end
  else best_confidence log k.
Proof.
  unfold best_confidence. cbn [List.filter]. destruct (bool_decide (log_key e = k)); [|done].
  cbn [map]. by rewrite max_confidence_cons.
Qed.

(** Raising the first entry of a device, or leaving it, gives the maximum either way. *)
Lemma opt_max_raise c n (o : option Confidence) :
  (if confidence_ltb c n then match o with None => Some n | Some m => Some (conf_max n m) end
   else match o with None => Some c | Some m => Some (conf_max c m) end)
  = opt_max match o with None => Some c | Some m => Some (conf_max c m) end n.
Proof. by destruct c, n, o as [[]|]. Qed.

Lemma opt_max_under e n (o : option Confidence) :
  match opt_max o n with None => Some e | Some m => Some (conf_max e m) end
  = opt_max match o with None => Some e | Some m => Some (conf_max e m) end n.
Proof. by destruct e, n, o as [[]|]. Qed.

Definition same_entry (k : rstr) (d : Detection) (k' s' : rstr) : bool :=
  bool_decide (k' = k) && bool_decide (s' = signature_id d).

Lemma observe_existing_spec log k d :
  match observe_existing log k d with
  | None => logged log k (signature_id d) = None
  | Some (log', o) => exists c, logged log k (signature_id d) = Some c /\
      o = (if confidence_ltb c (det_confidence d) then Escalated c else Suppressed) /\
      (forall k' s', logged log' k' s' =
        if same_entry k d k' s' then opt_max (Some c) (det_confidence d) else logged log k' s') /\
      (forall k', best_confidence log' k' =
        if bool_decide (k' = k) then opt_max (best_confidence log k) (det_confidence d) else best_confidence log k')
  end.
Proof.
  induction log as [|e log IH]; [done|]. cbn [observe_existing]. rewrite logged_cons.
  destruct (bool_decide (log_key e = k) && bool_decide (log_signature_id e = signature_id d)) eqn:Hhit.
  - apply andb_true_iff in Hhit as [Hk%bool_decide_eq_true Hs%bool_decide_eq_true].
    pose proof (opt_max_raise (log_confidence e) (det_confidence d) (best_confidence log k)) as Hmax.
    destruct (confidence_ltb (log_confidence e) (det_confidence d)) eqn:Hlt;
      exists (log_confidence e); rewrite Hlt; (split; [done|]); (split; [done|]); split; intros;
      rewrite ?logged_cons, ?best_cons; cbn [log_key log_signature_id log_confidence]; rewrite Hk, ?Hs.
    1, 3: unfold same_entry; repeat case_bool_decide; subst; try congruence; try done;
      unfold opt_max, conf_max; by rewrite Hlt.
    all: repeat case_bool_decide; subst; try congruence; exact Hmax.
  - destruct (observe_existing log k d) as [[log' o]|]; [|done].
    destruct IH as (c & Hc & Ho & Hl & Hb). exists c. split; [done|]. split; [done|].
    split; intros; rewrite ?logged_cons, ?best_cons, ?Hl, ?Hb.
    + destruct (bool_decide (log_key e = k') && bool_decide (log_signature_id e = s')) eqn:Hhit'; [|done].
      apply andb_true_iff in Hhit' as [<-%bool_decide_eq_true <-%bool_decide_eq_true].
      unfold same_entry. by rewrite Hhit.
    + repeat case_bool_decide; subst; try congruence; try done. by rewrite opt_max_under.
Qed.


Lemma logged_snoc log e k sid :
  logged (log ++ [e]) k sid = match logged log k sid with Some c => Some c | None => logged [e] k sid end.
Proof. unfold logged. rewrite find_app. by destruct (List.find _ log). Qed.

Lemma observe_spec log k d :
  let '(log', o) := observe log k d in
  o = (match logged log k (signature_id d) with
       | None => New
       | Some c => if confidence_ltb c (det_confidence d) then Escalated c else Suppressed
       end) /\
  (forall k' s', logged log' k' s' =
    if same_entry k d k' s' then opt_max (logged log k (signature_id d)) (det_confidence d) else logged log k' s') /\
  (forall k', best_confidence log' k' =
    if bool_decide (k' = k) then opt_max (best_confidence log k) (det_confidence d) else best_confidence log k').
Proof.
  pose proof (observe_existing_spec log k d) as H. unfold observe.
  destruct (observe_existing log k d) as [[log' o]|].
  - destruct H as (c & -> & -> & Hl & Hb). done.
  - rewrite H. split; [done|]. split.
    + intros k' s'. rewrite logged_snoc, logged_cons. cbn [log_key log_signature_id log_confidence].
      unfold same_entry. destruct (decide (k' = k /\ s' = signature_id d)) as [[-> ->]|Hne].
      * by rewrite H, !bool_decide_true.
      * destruct (logged log k' s'); repeat case_bool_decide; subst; naive_solver.
    + intros k'. unfold best_confidence. rewrite List.filter_app, map_app. cbn [List.filter log_key].
      repeat case_bool_decide; subst; try congruence; cbn [map]; [apply max_confidence_snoc | by rewrite app_nil_r].
Qed.

(** *** Runs of the log *)

Fixpoint run_log (log : DetectionLog) (h : list (rstr * Detection)) : DetectionLog :=
  match h with
  | [] => log
  | (k, d) :: h => run_log (observe log k d).1 h
  end.

(** What a history says about a device, under one signature or any. *)
Definition seen_of (h : list (rstr * Detection)) (k sid : rstr) : list Confidence :=
  map (fun x => det_confidence x.2)
      (List.filter (fun x => bool_decide (x.1 = k) && bool_decide (signature_id x.2 = sid)) h).
Definition seen_of_device (h : list (rstr * Detection)) (k : rstr) : list Confidence :=
  map (fun x => det_confidence x.2) (List.filter (fun x => bool_decide (x.1 = k)) h).

Lemma run_log_app log h1 h2 : run_log log (h1 ++ h2) = run_log (run_log log h1) h2.
Proof. revert log. induction h1 as [|[k d] h1 IH]; intros log; [done | apply IH]. Qed.

Lemma run_log_spec h :
  (forall k sid, logged (run_log [] h) k sid = max_confidence (seen_of h k sid)) /\
  (forall k, best_confidence (run_log [] h) k = max_confidence (seen_of_device h k)).
Proof.
  induction h as [|[k d] h [IHl IHb]] using rev_ind; [done|].
  pose proof (observe_spec (run_log [] h) k d) as H. rewrite run_log_app. cbn [run_log].
  destruct (observe (run_log [] h) k d) as [log' o]. destruct H as (_ & Hl & Hb). cbn [fst]. split.
  - intros k' s'. rewrite Hl. unfold seen_of, same_entry. rewrite List.filter_app, map_app. cbn [List.filter fst snd].
    fold (seen_of h k' s'). repeat case_bool_decide; subst; try congruence; cbn [andb map];
      rewrite ?app_nil_r; try done. rewrite max_confidence_snoc. by rewrite IHl.
  - intros k'. rewrite Hb. unfold seen_of_device. rewrite List.filter_app, map_app. cbn [List.filter fst snd].
    fold (seen_of_device h k'). repeat case_bool_decide; subst; try congruence; cbn [map];
      rewrite ?app_nil_r; try done. rewrite max_confidence_snoc. by rewrite IHb.
Qed.

(** *** Packs *)

Lemma validate_from_ok {E} seen sigs :
  validate_from (E := E) seen sigs = Ok tt ->
  NoDup (map sig_id sigs) /\ (forall i, i ∈ map sig_id sigs -> i ∉ seen) /\
  Forall (fun sig => conditions sig <> [] /\ trim (sig_id sig) <> []) sigs.
Proof.
  revert seen. induction sigs as [|sig sigs IH]; intros seen; cbn [validate_from map].
  { intros _. split; [constructor|]. split; [set_solver | constructor]. }
  repeat case_bool_decide; try done. intros H2. destruct (IH _ H2) as (Hnd & Hseen & Hall).
  split; [constructor; [|done] | split; [|by constructor]].
  - intros Hin. apply (Hseen _ Hin). set_solver.
  - intros i [->|Hi]%elem_of_cons; [done|]. specialize (Hseen i Hi). set_solver.
Qed.

Lemma validate_from_intro {E} seen sigs :
  NoDup (map sig_id sigs) -> (forall i, i ∈ map sig_id sigs -> i ∉ seen) ->
  Forall (fun sig => conditions sig <> [] /\ trim (sig_id sig) <> []) sigs ->
  validate_from (E := E) seen sigs = Ok tt.
Proof.
  revert seen. induction sigs as [|sig sigs IH]; intros seen Hnd Hseen Hall; cbn [validate_from map] in *; [done|].
  apply NoDup_cons in Hnd as [Hni Hnd]. apply Forall_cons in Hall as [[Hc Ht] Hall].
  rewrite !bool_decide_false; [|apply Hseen; by left|done|done].
  apply IH; [done| |done]. intros i Hi Hin. apply elem_of_app in Hin as [Hin| ->%list_elem_of_singleton]; [|done].
  eapply Hseen; [by right | exact Hin].
Qed.

Lemma match_signatures_sublist sd sigs p :
  map signature_id (match_signatures sd sigs p) `sublist_of` map sig_id sigs.
Proof.
  induction sigs as [|sig sigs IH]; cbn [match_signatures map]; [constructor|].
  destruct (negb (enabled sig)); [by constructor|].
  destruct (negb (bool_decide _)); [by constructor|].
  destruct (match_all sd (conditions sig) p); cbn [map]; by constructor.
Qed.

(** A signature fires when it is on, for this technology, and every condition holds. *)
Definition fires (sig : Signature) (p : ObservationPayload) : Prop :=
  enabled sig = true /\ sig_technology sig = payload_tech p /\ Forall (fun c => holds c p) (conditions sig).

Lemma match_signatures_elem sd sigs p d :
  d ∈ match_signatures sd sigs p <->
  exists sig, sig ∈ sigs /\ fires sig p /\
    d = detection_of sig (matched_fields d) /\
    Forall2 (fun c r => match_one sd c p = Some r) (conditions sig) (matched_fields d).
Proof.
  induction sigs as [|sig sigs IH]; cbn [match_signatures].
  { split; [by intros ?%elem_of_nil | by intros (? & ?%elem_of_nil & _)]. }
  assert (Hskip : (forall rs, fires sig p -> match_all sd (conditions sig) p = Some rs -> False) ->
    d ∈ match_signatures sd sigs p <-> exists s0, s0 ∈ sig :: sigs /\ fires s0 p /\
      d = detection_of s0 (matched_fields d) /\
      Forall2 (fun c r => match_one sd c p = Some r) (conditions s0) (matched_fields d)).
  { intros Hno. rewrite IH. split; intros (s0 & Hin & Hrest); exists s0; (split; [|done]); [by right|].
    apply elem_of_cons in Hin as [->|Hin]; [|done]. exfalso. destruct Hrest as (Hf & _).
    destruct (proj2 (match_all_iff sd (conditions sig) p)) as [rs Hrs]; [apply Hf | by eapply Hno]. }
  destruct (enabled sig) eqn:He; cbn [negb]; [|apply Hskip; intros rs (? & _); congruence].
  case_bool_decide as Ht; cbn [negb]; [|apply Hskip; intros rs (_ & ? & _); congruence].
  destruct (match_all sd (conditions sig) p) as [rs|] eqn:Hm; [|apply Hskip; intros rs _ ?; done].
  rewrite elem_of_cons, IH. split.
  - intros [->|(s0 & Hin & Hrest)]; [exists sig | exists s0; split; [by right | done]].
    split; [by left|]. split; [|split; [done | by apply match_all_reasons]].
    split; [done|]. split; [done|]. apply (match_all_iff sd). by eexists.
  - intros (s0 & [->|Hin]%elem_of_cons & Hf & Hd & Hr); [left | right; eauto 6].
    rewrite Hd. f_equal. apply match_all_reasons in Hm. clear -Hm Hr.
    revert rs Hm. induction Hr; intros rs Hm; inversion Hm; subst; [done|]. f_equal; [congruence | auto].
Qed.

(** ** Properties *)

(** Matching an observation against a validated pack.  The detections are exactly those of the
    enabled signatures for its technology whose conditions all hold, each with one reason per
    condition, in the order of the pack and never two for one signature.  No detection is without a
    reason, and a Remote ID broadcast is never one. *)
Theorem match_observation_spec (E : Type) sd db p :
  validate (E := E) db = Ok tt ->
  let ds := match_observation sd db p in
  (forall d, d ∈ ds <->
     exists sig, sig ∈ signatures db /\ fires sig p /\
       d = detection_of sig (matched_fields d) /\
       Forall2 (fun c r => match_one sd c p = Some r) (conditions sig) (matched_fields d)) /\
  map signature_id ds `sublist_of` map sig_id (signatures db) /\
  NoDup (map signature_id ds) /\
  Forall (fun d => matched_fields d <> []) ds /\
  (forall r, p = PRemoteId r -> ds = []).
Proof.
  intros Hv ds. destruct (validate_from_ok _ _ Hv) as (Hnd & _ & Hall).
  pose proof (match_signatures_sublist sd (signatures db) p) as Hsub.
  assert (Hne : Forall (fun d => matched_fields d <> []) ds).
  { apply Forall_forall. intros d (sig & Hin & _ & _ & Hr)%match_signatures_elem Hnil.
    rewrite Hnil in Hr. inversion Hr as [Hc|]. symmetry in Hc.
    rewrite Forall_forall in Hall. by destruct (Hall _ Hin). }
  split; [intros d; apply match_signatures_elem|]. split; [exact Hsub|].
  split; [by eapply sublist_NoDup|]. split; [exact Hne|].
  intros r ->. destruct ds as [|d ds'] eqn:Hds; [done|]. exfalso.
  assert (Hd : d ∈ match_observation sd db (PRemoteId r)) by (unfold ds in Hds; rewrite Hds; by left).
  apply match_signatures_elem in Hd as (sig & Hin & (_ & _ & Hf) & _).
  rewrite Forall_forall in Hall. destruct (Hall _ Hin) as [Hc _].
  destruct (conditions sig) as [|c cs]; [done|]. by apply Forall_cons in Hf as [[] _].
Qed.

(** A pack of one rule, on a vendor prefix, and a camera's beacon. *)
Definition demo_signature : Signature :=
  mkSignature (lit "flock") (lit "Flock") None Tech_Wifi
    [MacPrefixCond F_Transmitter (mkMacPrefix [0x70; 0xb3; 0xd5; 0; 0; 0] 6) false; SsidGlob (lit "Flock-*")]
    C_Medium S_Medium [] [] None None true.
Definition demo_wifi : WifiObservation :=
  mkWifi None (Some (mkMacAddr [0x70; 0xb3; 0xd5; 1; 2; 3])) None None (Some (Named (lit "Flock-17"))) None None None [] None None false.

Lemma match_observation_spec_witness :
  map signature_id (match_observation id (mkDb 1 None [demo_signature]) (PWifi demo_wifi)) = [lit "flock"] /\
  fires demo_signature (PWifi demo_wifi).
Proof.
  destruct (match_observation_spec unit id (mkDb 1 None [demo_signature]) (PWifi demo_wifi) eq_refl) as [H _].
  split; [vm_compute; reflexivity|].
  assert (Hd : detection_of demo_signature
    [lit "transmitter 70:b3:d5:01:02:03 matches prefix 70:b3:d5"; lit "SSID matches pattern Flock-*"]
    ∈ match_observation id (mkDb 1 None [demo_signature]) (PWifi demo_wifi)).
  { apply elem_of_cons. left. vm_compute. reflexivity. }
  apply H in Hd as (sig & Hin & Hf & _). apply elem_of_cons in Hin as [Heq|Hin].
  - rewrite Heq in Hf. exact Hf.
  - exfalso. exact (proj1 (elem_of_nil _) Hin).
Defined.

(** Weak matches never suppress strong ones.  After any history, what the log says of a detection is
    decided by the strongest earlier one of the same device and signature: none, it is new; a
    weaker one, it escalates from exactly that; one at least as strong, it is suppressed.  What is
    on record for a device is the strongest detection it ever had, under any signature. *)
Theorem detection_log_spec h k d :
  (observe (run_log [] h) k d).2 =
    (match max_confidence (seen_of h k (signature_id d)) with
     | None => New
     | Some c => if confidence_ltb c (det_confidence d) then Escalated c else Suppressed
     end) /\
  best_confidence (run_log [] h) k = max_confidence (seen_of_device h k) /\
  forall c, max_confidence (seen_of_device h k) = Some c ->
    c ∈ seen_of_device h k /\ Forall (fun x => confidence_ltb c x = false) (seen_of_device h k).
Proof.
  destruct (run_log_spec h) as [Hl Hb]. pose proof (observe_spec (run_log [] h) k d) as H.
  destruct (observe (run_log [] h) k d) as [log' o]. destruct H as (-> & _). cbn [snd].
  split; [by rewrite Hl|]. split; [apply Hb|]. intros c Hc.
  revert c Hc. induction (seen_of_device h k) as [|x l IH] using rev_ind; [done|]. intros c.
  rewrite max_confidence_snoc. intros [= <-].
  destruct (max_confidence l) as [b|] eqn:Hm.
  - destruct (IH b eq_refl) as [Hin Hall]. rewrite elem_of_app. unfold conf_max. split.
    + destruct (confidence_ltb b x); [right; by left | by left].
    + apply Forall_app_2; [|constructor; [|done]].
      * eapply Forall_impl; [exact Hall|]. intros y. by destruct b, x, y.
      * by destruct b, x.
  - destruct l; [|done]. split; [by left|]. constructor; [by destruct x | done].
Qed.

(** An Info match, a High one, then a repeat. *)
Lemma detection_log_spec_witness :
  let det c := mkDetection (lit "flock") [] None Tech_Wifi c S_Low [] in
  (observe (run_log [] [(lit "cam", det C_Info)]) (lit "cam") (det C_High)).2 = Escalated C_Info /\
  (observe (run_log [] [(lit "cam", det C_Info); (lit "cam", det C_High)]) (lit "cam") (det C_Medium)).2 = Suppressed.
Proof.
  intros det. split.
  - rewrite (proj1 (detection_log_spec [(lit "cam", det C_Info)] (lit "cam") (det C_High))). reflexivity.
  - rewrite (proj1 (detection_log_spec [(lit "cam", det C_Info); (lit "cam", det C_High)] (lit "cam") (det C_Medium))).
    reflexivity.
Defined.
