(* ===== verification/Scan.v ===== *)
(** * Reading a BSS scan ([radio/src/scan.rs])

    [parse_iw_scan] turns the text of [iw dev <iface> scan] into observations, one line at a time:
    the state is the records finished and the one being filled.  The theorems say what every
    record it makes looks like, undo the escaping of network names, and settle which signatures
    can fire on such a record against what [reachable_via_bss_scan] claims. *)

From S2P Require Import Prelude RustStr Floats Mac Glob Observation Signature.

Local Open Scope Z_scope.

Definition PRINTED_ELEMENT_NAMES : list (rstr * Z) :=
  [ (lit "SSID:", 0); (lit "Supported rates:", 1); (lit "DS Parameter set:", 3); (lit "TIM:", 5);
    (lit "Country:", 7); (lit "ERP:", 42); (lit "RSN:", 48); (lit "Extended supported rates:", 50);
    (lit "HT capabilities:", 45); (lit "HT operation:", 61); (lit "Extended capabilities:", 127);
    (lit "VHT capabilities:", 191); (lit "VHT operation:", 192) ].

(** ** Network names *)

(** The loop over the bytes of the text; each turn takes one, two or four of them. *)
Fixpoint unescape_bytes (raw : list Z) : list Z :=
  match raw with
  | [] => []
  | b :: rest =>
      let other :=
        match rest with
        | b1 :: rest1 => if (b =? 92) && (b1 =? 92) then 92 :: unescape_bytes rest1 else b :: unescape_bytes rest
        | [] => b :: unescape_bytes rest
        end in
      match rest with
      | x :: h :: l :: rest3 =>
          if (b =? 92) && (x =? 120) then
            match to_digit16 h, to_digit16 l with
            | Some hi, Some lo => wrapu 8 (hi * 16 + lo) :: unescape_bytes rest3
            | _, _ => other
            end
          else other
      | _ => other
      end
  end.
Definition unescape_iw (text : rstr) : list Z := unescape_bytes (as_bytes text).

(** ** Records *)

Definition default_security : Security := mkSecurity false false false false false false.
Definition get_or_insert_security (o : WifiObservation) : Security := default default_security (security o).

Definition set_bssid_transmitter (o : WifiObservation) (m : MacAddr) : WifiObservation :=
  mkWifi (Some m) (Some m) (receiver o) (addr3 o) (ssid o) (frequency_mhz o) (wifi_rssi_dbm o) (frame o)
    (information_elements o) (security o) (last_seen_ms o) (wps o).
Definition set_frame (o : WifiObservation) (f : FrameKind) : WifiObservation :=
  mkWifi (bssid o) (transmitter o) (receiver o) (addr3 o) (ssid o) (frequency_mhz o) (wifi_rssi_dbm o) (Some f)
    (information_elements o) (security o) (last_seen_ms o) (wps o).
Definition set_frequency (o : WifiObservation) (f : Z) : WifiObservation :=
  mkWifi (bssid o) (transmitter o) (receiver o) (addr3 o) (ssid o) (Some f) (wifi_rssi_dbm o) (frame o)
    (information_elements o) (security o) (last_seen_ms o) (wps o).
Definition set_rssi (o : WifiObservation) (r : Z) : WifiObservation :=
  mkWifi (bssid o) (transmitter o) (receiver o) (addr3 o) (ssid o) (frequency_mhz o) (Some r) (frame o)
    (information_elements o) (security o) (last_seen_ms o) (wps o).
Definition set_security (o : WifiObservation) (s : Security) : WifiObservation :=
  mkWifi (bssid o) (transmitter o) (receiver o) (addr3 o) (ssid o) (frequency_mhz o) (wifi_rssi_dbm o) (frame o)
    (information_elements o) (Some s) (last_seen_ms o) (wps o).
Definition set_wps (o : WifiObservation) : WifiObservation :=
  mkWifi (bssid o) (transmitter o) (receiver o) (addr3 o) (ssid o) (frequency_mhz o) (wifi_rssi_dbm o) (frame o)
    (information_elements o) (security o) (last_seen_ms o) true.
Definition set_last_seen (o : WifiObservation) (ms : Z) : WifiObservation :=
  mkWifi (bssid o) (transmitter o) (receiver o) (addr3 o) (ssid o) (frequency_mhz o) (wifi_rssi_dbm o) (frame o)
    (information_elements o) (security o) (Some ms) (wps o).
Definition set_ssid (o : WifiObservation) (s : Ssid) : WifiObservation :=
  mkWifi (bssid o) (transmitter o) (receiver o) (addr3 o) (Some s) (frequency_mhz o) (wifi_rssi_dbm o) (frame o)
    (information_elements o) (security o) (last_seen_ms o) (wps o).
Definition push_element (o : WifiObservation) (ie : InformationElement) : WifiObservation :=
  mkWifi (bssid o) (transmitter o) (receiver o) (addr3 o) (ssid o) (frequency_mhz o) (wifi_rssi_dbm o) (frame o)
    (information_elements o ++ [ie]) (security o) (last_seen_ms o) (wps o).

Definition finish_security (o : WifiObservation) : WifiObservation :=
  match security o with
  | Some sec =>
      if negb (open sec) && negb (wpa sec) && negb (wpa2 sec) && negb (wpa3 sec)
      then set_security o (mkSecurity (open sec) true (wpa sec) (wpa2 sec) (wpa3 sec) (enterprise sec))
      else o
  | None => o
  end.

(** A ["BSS "] line: the record it begins. *)
Definition begin_record (rest : rstr) : WifiObservation :=
  let addr_text := default [] (head (split_on 40 (default [] (head (split_whitespace rest))))) in
  let obs := match MacAddr_parse addr_text with
             | Ok mac => set_bssid_transmitter WifiObservation_empty mac
             | Err _ => WifiObservation_empty
             end in
  set_frame obs BeaconOrProbeResponse.

(** The chain of tests on any other line, in the order of the code. *)
Definition read_field (o : WifiObservation) (trimmed : rstr) : WifiObservation :=
  if strip_prefix (lit "freq:") trimmed is Some v then
    match parse_f64 (trim v) with Some freq => set_frequency o (sf_as_int 0 (2 ^ 32 - 1) freq) | None => o end
  else if strip_prefix (lit "signal:") trimmed is Some v then
    match head (split_whitespace v) with
    | Some num => match parse_f64 num with
                  | Some dbm => set_rssi o (sf_round_as_int (- 2 ^ 15) (2 ^ 15 - 1) dbm)
                  | None => o
                  end
    | None => o
    end
  else if strip_prefix (lit "capability:") trimmed is Some v then
    let sec := get_or_insert_security o in
    set_security o (if contains v (lit "Privacy") then sec
                    else mkSecurity true (wep sec) (wpa sec) (wpa2 sec) (wpa3 sec) (enterprise sec))
  else if starts_with trimmed (lit "RSN:") then
    let sec := get_or_insert_security o in
    set_security o (mkSecurity false (wep sec) (wpa sec) true (wpa3 sec) (enterprise sec))
  else if starts_with trimmed (lit "WPA:") then
    let sec := get_or_insert_security o in
    set_security o (mkSecurity false (wep sec) true (wpa2 sec) (wpa3 sec) (enterprise sec))
  else if starts_with trimmed (lit "WPS:") then set_wps o
  else if strip_prefix (lit "* Authentication suites:") trimmed is Some v then
    let sec := get_or_insert_security o in
    set_security o (mkSecurity (open sec) (wep sec) (wpa sec) (wpa2 sec)
      (wpa3 sec || contains v (lit "00-0f-ac:8") || contains v (lit "SAE"))
      (enterprise sec || contains v (lit "802.1X")))
  else if strip_prefix (lit "last seen:") trimmed is Some v then
    match head (split_whitespace v) with
    | Some num => match parse_unsigned 32 num with Some ms => set_last_seen o ms | None => o end
    | None => o
    end
  else if strip_prefix (lit "SSID:") trimmed is Some v then
    set_ssid o (Ssid_from_bytes (unescape_iw (default v (strip_prefix [32] v))))
  else o.

Definition note_element (trimmed : rstr) (o : WifiObservation) (entry : rstr * Z) : WifiObservation :=
  let '(name, id) := entry in
  if starts_with trimmed name && negb (existsb (fun ie => ie_id ie =? id) (information_elements o))
  then push_element o (InformationElement_new id []) else o.

Definition read_line (o : WifiObservation) (trimmed : rstr) : WifiObservation :=
  fold_left (note_element trimmed) PRINTED_ELEMENT_NAMES (read_field o trimmed).

(** ** The scan *)

Record scan_state := mkScan { out : list WifiObservation; current : option WifiObservation }.

(** [current.take()], finished and pushed. *)
Definition flush (s : scan_state) : list WifiObservation :=
  match current s with Some done => out s ++ [finish_security done] | None => out s end.

Definition scan_line (s : scan_state) (line : rstr) : scan_state :=
  let trimmed := trim line in
  match strip_prefix (lit "BSS ") trimmed with
  | Some rest => mkScan (flush s) (Some (begin_record rest))
  | None =>
      match current s with
      | None => s
      | Some obs => mkScan (out s) (Some (read_line obs trimmed))
      end
  end.

Definition parse_iw_scan (output : rstr) : list WifiObservation :=
  flush (fold_left scan_line (lines output) (mkScan [] None)).

Example scan_two : 
  map (fun o => (MacAddr_display <$> bssid o, frequency_mhz o, wifi_rssi_dbm o, security_label <$> security o, map ie_id (information_elements o)))
    (parse_iw_scan (lit "BSS 3c:52:a1:fe:c9:8b(on wlan0) -- associated
	freq: 2417.0
	signal: -27.50 dBm
	capability: ESS Privacy (0x1411)
	SSID: Jan\xe2\x80\x99s House
	RSN:	 * Version: 1
		 * Authentication suites: PSK 00-0f-ac:8
BSS not-a-mac(on x)
	capability: ESS (0x1001)
"))
  = [ (Some (lit "3c:52:a1:fe:c9:8b"), Some 2417, Some (-28), Some (lit "WPA2/WPA3"), [0; 48]);
      (None, None, None, Some (lit "Open"), []) ].
Proof. vm_compute. reflexivity. Qed.

(** ** What every record looks like *)

(** While a record is being filled. *)
Definition filling (o : WifiObservation) : Prop :=
  frame o = Some BeaconOrProbeResponse /\ transmitter o = bssid o /\ receiver o = None /\ addr3 o = None /\
  Forall (fun ie => ie_data ie = [] /\ ie_id ie ∈ map snd PRINTED_ELEMENT_NAMES) (information_elements o) /\
  NoDup (map ie_id (information_elements o)) /\
  (forall sec, security o = Some sec -> wep sec = false) /\
  (forall bs, ssid o = Some (Named bs) -> (1 <= length bs <= MAX_LEN)%nat).

(** Once it is finished: a scheme is known wherever the capability or a security block was. *)
Definition finished (o : WifiObservation) : Prop :=
  frame o = Some BeaconOrProbeResponse /\ transmitter o = bssid o /\ receiver o = None /\ addr3 o = None /\
  Forall (fun ie => ie_data ie = [] /\ ie_id ie ∈ map snd PRINTED_ELEMENT_NAMES) (information_elements o) /\
  NoDup (map ie_id (information_elements o)) /\
  (forall sec, security o = Some sec ->
     wep sec = negb (open sec || wpa sec || wpa2 sec || wpa3 sec)) /\
  (forall bs, ssid o = Some (Named bs) -> (1 <= length bs <= MAX_LEN)%nat).

Lemma finish_finished o : filling o -> finished (finish_security o).
Proof.
  intros (Hf & Ht & Hr & Ha & Hie & Hnd & Hsec & Hs). unfold finish_security.
  destruct (security o) as [sec|] eqn:Hso; [|by repeat (split; [done|]); rewrite Hso].
  specialize (Hsec _ eq_refl). destruct sec as [o1 w w1 w2 w3 e]. simpl in *. subst w.
  destruct o1, w1, w2, w3; cbn [negb andb];
    (repeat (split; [first [assumption | exact Hf]|]); split; [|assumption]);
    cbn [security set_security]; rewrite ?Hso; intros sec [= <-]; reflexivity.
Qed.

Lemma begin_filling rest : filling (begin_record rest).
Proof.
  unfold begin_record. destruct (MacAddr_parse _); repeat split; try done; constructor.
Qed.

Lemma from_bytes_length bs data : Ssid_from_bytes data = Named bs -> (1 <= length bs <= MAX_LEN)%nat.
Proof.
  unfold Ssid_from_bytes. destruct data as [|b data]; [done|]. intros H.
  assert (bs = take (length (b :: data) `min` MAX_LEN) (b :: data)) as -> by congruence.
  rewrite length_take. unfold MAX_LEN. cbn [length]. lia.
Qed.

Lemma get_or_insert_filling o : filling o -> wep (get_or_insert_security o) = false.
Proof.
  intros (_ & _ & _ & _ & _ & _ & Hsec & _). unfold get_or_insert_security.
  destruct (security o); [by apply Hsec | done].
Qed.

Lemma set_security_filling o sec : filling o -> wep sec = false -> filling (set_security o sec).
Proof. unfold filling. intros H Hw. simpl. naive_solver. Qed.

Lemma read_field_filling o t : filling o -> filling (read_field o t).
Proof.
  intros H. pose proof (get_or_insert_filling o H) as Hw. unfold read_field.
  repeat (match goal with |- filling (match ?x with _ => _ end) => destruct x end); try exact H;
    try (apply set_security_filling; [exact H | by try destruct (contains _ _)]);
    destruct H as (Hf & Ht & Hr & Ha & Hie & Hnd & Hsec & Hs); (repeat (split; [assumption|])); try assumption.
  intros bs [= Hbs]. by eapply from_bytes_length.
Qed.

Lemma note_element_filling t o e : filling o -> e ∈ PRINTED_ELEMENT_NAMES -> filling (note_element t o e).
Proof.
  intros H He. destruct e as [name id]. unfold note_element.
  destruct (starts_with t name && negb (existsb (fun ie => ie_id ie =? id) (information_elements o))) eqn:Hc; [|exact H].
  apply andb_true_iff in Hc as [_ Hex%negb_true_iff].
  destruct H as (Hf & Ht & Hr & Ha & Hie & Hnd & Hsec & Hs).
  repeat (split; [assumption|]). split; [|split; [|split; assumption]]; cbn [push_element information_elements].
  - apply Forall_app_2; [assumption|]. constructor; [|constructor]. split; [done|].
    apply list_elem_of_fmap. by exists (name, id).
  - rewrite map_app. apply NoDup_app. split; [assumption|]. split; [|apply NoDup_singleton].
    intros i Hi Hin. apply list_elem_of_singleton in Hin. cbn in Hin. subst i.
    apply list_elem_of_fmap in Hi as (ie & -> & Hin).
    apply not_true_iff_false in Hex. apply Hex, existsb_elem. exists ie. split; [done | apply Z.eqb_refl].
Qed.

Lemma read_line_filling o t : filling o -> filling (read_line o t).
Proof.
  intros H. unfold read_line. apply (read_field_filling o t) in H. revert H. generalize (read_field o t).
  assert (Hall : forall l, (forall e, e ∈ l -> e ∈ PRINTED_ELEMENT_NAMES) ->
    forall o, filling o -> filling (fold_left (note_element t) l o)).
  { induction l as [|e l IH]; intros Hin o' Ho; cbn [fold_left]; [done|].
    apply IH; [intros x Hx; apply Hin; by right|]. apply note_element_filling; [done|]. apply Hin. by left. }
  apply Hall. done.
Qed.

Definition state_ok (s : scan_state) : Prop :=
  Forall finished (out s) /\ forall o, current s = Some o -> filling o.

Lemma flush_finished s : state_ok s -> Forall finished (flush s).
Proof.
  intros [Ho Hc]. unfold flush. destruct (current s) as [o|]; [|done].
  apply Forall_app_2; [done|]. constructor; [|constructor]. by apply finish_finished, Hc.
Qed.

Lemma scan_line_ok s l : state_ok s -> state_ok (scan_line s l).
Proof.
  intros H. unfold scan_line. destruct (strip_prefix _ _) as [rest|].
  - split; [by apply flush_finished|]. intros o [= <-]. apply begin_filling.
  - destruct (current s) as [o|] eqn:Hc; [|done]. destruct H as [Ho Hf]. split; [done|].
    intros o' [= <-]. by apply read_line_filling, Hf.
Qed.

Lemma scan_lines_ok ls s : state_ok s -> state_ok (fold_left scan_line ls s).
Proof. revert s. induction ls as [|l ls IH]; intros s H; [done|]. by apply IH, scan_line_ok. Qed.

(** Lines that begin a record. *)
Definition begins_record (line : rstr) : bool := starts_with (trim line) (lit "BSS ").

Lemma scan_line_count s l :
  length (flush (scan_line s l)) = (length (flush s) + if begins_record l then 1 else 0)%nat.
Proof.
  unfold scan_line, begins_record, starts_with. destruct (strip_prefix _ _) as [rest|].
  - rewrite bool_decide_true by (by eexists). unfold flush at 1. cbn [current out]. by rewrite length_app.
  - rewrite bool_decide_false by (by intros []). unfold flush. destruct (current s) as [o|] eqn:Hc; cbn [current out].
    + rewrite !length_app. simpl. lia.
    + rewrite Hc. lia.
Qed.

Lemma scan_lines_count ls s :
  length (flush (fold_left scan_line ls s)) = (length (flush s) + length (List.filter begins_record ls))%nat.
Proof.
  revert s. induction ls as [|l ls IH]; intros s; cbn [fold_left List.filter]; [simpl; lia|].
  rewrite IH, scan_line_count. destruct (begins_record l); simpl; lia.
Qed.

Lemma parse_iw_scan_finished output : Forall finished (parse_iw_scan output).
Proof. apply flush_finished, scan_lines_ok. by split. Qed.

(** ** The escaping of names *)

(** The texts that stand for a run of bytes: a byte other than the backslash as itself, any byte
    as [\xNN] with two hexadecimal digits, a backslash also doubled. *)
Inductive escapes : list Z -> list Z -> Prop :=
| escapes_nil : escapes [] []
| escapes_plain b bs t : b <> 92 -> escapes bs t -> escapes (b :: bs) (b :: t)
| escapes_hex h l hi lo bs t :
    to_digit16 h = Some hi -> to_digit16 l = Some lo -> escapes bs t ->
    escapes (hi * 16 + lo :: bs) (92 :: 120 :: h :: l :: t)
| escapes_backslash bs t : escapes bs t -> escapes (92 :: bs) (92 :: 92 :: t).

Lemma unescape_plain b t : b <> 92 -> unescape_bytes (b :: t) = b :: unescape_bytes t.
Proof.
  intros Hb. cbn [unescape_bytes]. rewrite (proj2 (Z.eqb_neq b 92)) by done. cbn [andb].
  by destruct t as [|x [|h [|l t]]].
Qed.

Lemma unescape_hex h l hi lo t :
  to_digit16 h = Some hi -> to_digit16 l = Some lo ->
  unescape_bytes (92 :: 120 :: h :: l :: t) = hi * 16 + lo :: unescape_bytes t.
Proof.
  intros Hh Hl. cbn [unescape_bytes]. cbn [Z.eqb Pos.eqb andb]. rewrite Hh, Hl, wrapu_id; [done|].
  apply to_digit16_range in Hh, Hl. unfold in_u. lia.
Qed.

Lemma unescape_backslash t : unescape_bytes (92 :: 92 :: t) = 92 :: unescape_bytes t.
Proof. cbn [unescape_bytes]. by destruct t as [|h [|l t]]. Qed.

Lemma unescape_escapes bs t : escapes bs t -> unescape_bytes t = bs.
Proof.
  induction 1 as [|b bs t Hb _ IH|h l hi lo bs t Hh Hl _ IH|bs t _ IH]; [done| | |].
  - by rewrite unescape_plain, IH.
  - by erewrite unescape_hex, IH.
  - by rewrite unescape_backslash, IH.
Qed.

(** Printable ASCII but the space and the backslash as itself, every other byte escaped. *)
Definition escape_byte (b : Z) : list Z :=
  if in_range 33 126 b && negb (b =? 92) then [b] else [92; 120] ++ fmt_02x b.
Definition escape_name (bs : list Z) : list Z := flat_map escape_byte bs.

Lemma escape_name_escapes bs : bytes_ok bs -> escapes bs (escape_name bs).
Proof.
  induction 1 as [|b bs Hb _ IH]; [constructor|]. unfold escape_name. cbn [flat_map].
  fold (escape_name bs). unfold escape_byte. destruct (in_range 33 126 b && negb (b =? 92)) eqn:Hc.
  - apply andb_true_iff in Hc as [_ Hc%negb_true_iff%Z.eqb_neq]. by constructor.
  - destruct (byte_digits b Hb). unfold fmt_02x. cbn [app].
    replace b with (b / 16 * 16 + b mod 16) at 1 by (unfold in_u in Hb; dlia).
    apply escapes_hex; [by apply to_digit16_hex_digit..|exact IH].
Qed.

Lemma hex_digit_printable d : 0 <= d < 16 -> in_range 33 126 (hex_digit d) = true.
Proof. intros Hd. unfold hex_digit, in_range. destruct (Z.ltb_spec d 10); apply andb_true_iff; lia. Qed.

Lemma escape_name_printable bs : bytes_ok bs -> Forall (fun c => in_range 33 126 c = true) (escape_name bs).
Proof.
  induction 1 as [|b bs Hb _ IH]; [constructor|]. unfold escape_name. cbn [flat_map]. apply Forall_app_2; [|exact IH].
  unfold escape_byte. destruct (in_range 33 126 b && _) eqn:Hc.
  - apply andb_true_iff in Hc as [Hc _]. by constructor.
  - destruct (byte_digits b Hb). unfold fmt_02x. cbn [app].
    repeat (apply Forall_cons; split; [by first [reflexivity | apply hex_digit_printable]|]). constructor.
Qed.

Lemma as_bytes_ascii t : Forall (fun c => in_range 33 126 c = true) t -> as_bytes t = t.
Proof.
  induction 1 as [|c t Hc _ IH]; [done|]. unfold as_bytes in *. cbn [flat_map]. rewrite IH.
  unfold in_range in Hc. apply andb_true_iff in Hc. unfold utf8_char.
  rewrite (proj2 (Z.ltb_lt c 0x80)) by lia. done.
Qed.

(** ** Which signatures can fire on a scan *)

(** Conditions no record of a scan meets, although [reachable_via_bss_scan] lets them pass. *)
Definition never_in_scan (c : MatchCondition) : Prop :=
  match c with
  | FrameType (Beacon | ProbeResponse) => True
  | MacExact (F_Receiver | F_Addr3) _ | MacPrefixCond (F_Receiver | F_Addr3) _ _ => True
  | InformationElementCond id None => id ∉ map snd PRINTED_ELEMENT_NAMES
  | _ => False
  end.

Lemma address_of_receiver f w a :
  receiver w = None -> addr3 w = None -> f = F_Receiver \/ f = F_Addr3 -> ~ address_of f w a.
Proof. intros Hr Ha Hf H. destruct H as [? w a H [->| ->]|? w a H [->| ->]|? w a H [->| ->]|? w a H [->| ->]]; naive_solver. Qed.

Lemma never_in_scan_fails c w : finished w -> never_in_scan c -> ~ holds_wifi c w.
Proof.
  intros (Hf & Ht & Hr & Ha & Hie & _) Hn.
  destruct c as [[] mac|[] p la| | | | |[]|id [bytes|]| | | | |]; try done; cbn [holds_wifi];
    try (by apply address_of_receiver; eauto);
    try (by intros (a & H & _); revert H; apply address_of_receiver; eauto); try congruence.
  intros (b & ie & c & Heq & Hid & _). apply Hn. rewrite <- Hid.
  rewrite Forall_forall in Hie. apply (Hie ie). rewrite Heq. set_solver.
Qed.

Lemma needs_more_fails c w :
  finished w -> needs_more_than_scan c = true -> holds_wifi c w ->
  (exists ids, c = IeIdSequence ids) \/ (exists id, c = InformationElementCond id (Some [])).
Proof.
  intros (Hf & Ht & Hr & Ha & Hie & _) Hn. rewrite Forall_forall in Hie.
  destruct c as [| | | | | |fk|id [bytes|]|oui|ids| | |]; try done; cbn [holds_wifi]; intros H; [| | |by eauto].
  - rewrite H in Hf. injection Hf as ->. done.
  - right. exists id. destruct H as (b & ie & a & Heq & _ & _ & Hp).
    destruct (Hie ie) as [Hd _]; [rewrite Heq; set_solver|].
    specialize (Hp _ eq_refl). rewrite Hd in Hp. by apply prefix_nil_inv in Hp as ->.
  - destruct H as (ie & v & Hin & Hv & _). exfalso. destruct (Hie ie Hin) as [Hd _].
    unfold vendor_oui in Hv. rewrite Hd in Hv. simpl in Hv. by rewrite orb_true_r in Hv.
Qed.

(** ** Properties *)

(** Every record of every scan, whatever the transmitters put in it.  There is one record per
    "BSS" line; it names its access point as both BSSID and transmitter and no other address, is a
    beacon or probe response, and lists known elements, each once and without a payload; its
    network name is at most 32 bytes; and where the capability or a security block was read, its
    flags settle a scheme (WEP exactly when nothing else is set), so no label is "Unknown". *)
Theorem parse_iw_scan_records output :
  Forall finished (parse_iw_scan output) /\
  length (parse_iw_scan output) = length (List.filter begins_record (lines output)) /\
  Forall (fun o => forall sec, security o = Some sec -> security_label sec <> lit "Unknown") (parse_iw_scan output).
Proof.
  pose proof (parse_iw_scan_finished output) as H. split; [done|]. split; [apply scan_lines_count|].
  eapply Forall_impl; [exact H|]. intros o (_ & _ & _ & _ & _ & _ & Hsec & _) sec Hs. specialize (Hsec _ Hs).
  destruct sec as [o1 w w1 w2 w3 e]. simpl in Hsec. subst w. by destruct o1, w1, w2, w3, e.
Qed.

(** Network names survive the escaping of the scan tool.  Any text in which a byte stands for
    itself unless it is a backslash, or is written as a hexadecimal escape, or is a doubled
    backslash, is read as the bytes it stands for; in particular a name of up to 32 arbitrary bytes
    comes out of its escaped line unchanged, and what is shown of it has no control character. *)
Theorem unescape_iw_roundtrip :
  (forall bs t, escapes bs t -> unescape_bytes t = bs) /\
  forall bs, bytes_ok bs -> (1 <= length bs <= MAX_LEN)%nat ->
    unescape_iw (escape_name bs) = bs /\
    ssid (read_line (begin_record []) (lit "SSID: " ++ escape_name bs)) = Some (Named bs) /\
    Forall (fun c => is_control c = false) (Ssid_display (Named bs)).
Proof.
  split; [apply unescape_escapes|]. intros bs Hb Hl.
  assert (Hu : unescape_iw (escape_name bs) = bs).
  { unfold unescape_iw. rewrite as_bytes_ascii by (by apply escape_name_printable).
    by apply unescape_escapes, escape_name_escapes. }
  split; [exact Hu|]. split; [|apply Ssid_display_printable].
  assert (Hnote : forall l o t, ssid (fold_left (note_element t) l o) = ssid o).
  { induction l as [|[name id] l IH]; intros o t; cbn [fold_left]; [done|]. rewrite IH.
    unfold note_element. by destruct (_ && _). }
  unfold read_line. rewrite Hnote.
  assert (Hread : read_field (begin_record []) (lit "SSID: " ++ escape_name bs)
    = set_ssid (begin_record []) (Ssid_from_bytes (unescape_iw (escape_name bs)))) by reflexivity.
  rewrite Hread, Hu. cbn [ssid set_ssid]. f_equal. unfold Ssid_from_bytes.
  destruct bs as [|b bs]; [simpl in Hl; lia|]. by rewrite Nat.min_l, firstn_all by lia.
Qed.

Lemma unescape_iw_roundtrip_witness :
  unescape_iw (escape_name [74; 97; 110; 0xe2; 0x80; 0x99; 115]) = [74; 97; 110; 0xe2; 0x80; 0x99; 115] /\
  escape_name [110; 0xe2; 92] = lit "n\xe2\x5c".
Proof.
  split; [|reflexivity].
  apply (proj2 unescape_iw_roundtrip); [apply bytes_okb; reflexivity | unfold MAX_LEN; simpl; lia].
Defined.

(** What [reachable_via_bss_scan] is worth.  A signature it calls unreachable never fires on a
    record of a scan, unless it asks for an element order or for an element with an empty payload
    prefix: those it calls unreachable can fire, and the second half shows one that does.  The other
    way round it passes signatures that no scan can ever fire: a frame type of beacon or of probe
    response alone (a scan always reports the two as one), the receiver or third address, or an
    element the scan does not print. *)
Theorem bss_scan_reachability sd :
  (forall output w sig rs,
     w ∈ parse_iw_scan output -> match_all sd (conditions sig) (PWifi w) = Some rs ->
     (reachable_via_bss_scan sig = true \/
      exists c, c ∈ conditions sig /\
        ((exists ids, c = IeIdSequence ids) \/ (exists id, c = InformationElementCond id (Some [])))) /\
     Forall (fun c => ~ never_in_scan c) (conditions sig)) /\
  (exists output w rs,
     w ∈ parse_iw_scan output /\ match_all sd [IeIdSequence [0; 48]] (PWifi w) = Some rs) /\
  (forall fk, fk = Beacon \/ fk = ProbeResponse ->
     needs_more_than_scan (FrameType fk) = false /\ never_in_scan (FrameType fk)).
Proof.
  split; [|split].
  - intros output w sig rs Hin Hm.
    pose proof (parse_iw_scan_finished output) as Hfin. rewrite Forall_forall in Hfin. specialize (Hfin w Hin).
    assert (Hall : Forall (fun c => holds_wifi c w) (conditions sig)).
    { apply (match_all_iff sd (conditions sig) (PWifi w)). by eexists. }
    rewrite Forall_forall in Hall. split.
    + unfold reachable_via_bss_scan. destruct (existsb needs_more_than_scan (conditions sig)) eqn:He; [right | by left].
      apply existsb_elem in He as (c & Hc & Hn). exists c. split; [done|].
      eapply needs_more_fails; [exact Hfin | exact Hn | by apply Hall].
    + apply Forall_forall. intros c Hc Hn. eapply never_in_scan_fails; [exact Hfin | exact Hn | by apply Hall].
  - exists (lit "BSS 3c:52:a1:fe:c9:8b(on wlan0)
	SSID: cafe
	RSN:	 * Version: 1
"). eexists _, _. split; [apply elem_of_cons; left; reflexivity | reflexivity].
  - by intros fk [->| ->].
Qed.

(** A KeyW camera's record fires its vendor prefix rule, which is reachable. *)
Lemma bss_scan_reachability_witness :
  let sig := mkSignature (lit "keyw") [] None Tech_Wifi
    [MacPrefixCond F_Transmitter (mkMacPrefix [0x70; 0xb3; 0xd5; 0x7c; 0xb0; 0] 9) false] C_Info S_Low [] [] None None true in
  reachable_via_bss_scan sig = true \/
  exists c, c ∈ conditions sig /\ ((exists ids, c = IeIdSequence ids) \/ (exists id, c = InformationElementCond id (Some []))).
Proof.
  intros sig.
  refine (proj1 (proj1 (bss_scan_reachability id) (lit "BSS 70:b3:d5:7c:b4:01(on scan0)
	freq: 5745
") _ sig _ _ _)).
  - apply elem_of_cons. left. reflexivity.
  - reflexivity.
Defined.
