(* ===== verification/UserRules.v ===== *)
(** * Rules a user writes ([radio/src/userrules.rs])

    Validation of a rule set that comes from a browser, the ignore list, and the conversion of the
    enabled rules into signatures.  Reading the JSON is [serde_json]'s: the argument [from_str]. *)

From S2P Require Import Prelude RustStr Mac Glob Observation Signature.

Local Open Scope nat_scope.

Definition MAX_RULES : nat := 256.
Definition MAX_NAME : nat := 64.
Definition MAX_DESCRIPTION : nat := 512.
Definition MAX_NOTES : nat := 512.
Definition MAX_CRITERIA_PER_RULE : nat := 8.
Definition MAX_PATTERN : nat := 64.
Definition MAX_WILDCARDS : nat := 4.
Definition MAX_ALLOWLIST : nat := 256.
Definition MAX_COOLDOWN_SECS : Z := 86400.

Inductive UserCriterion :=
| U_Mac (mac : rstr)
| U_MacPrefix (prefix : rstr)
| U_SsidExact (ssid : rstr)
| U_SsidContains (substring : rstr)
| U_SsidGlob (pattern : rstr)
| U_BleCompanyId (id : Z)
| U_BleServiceUuid (uuid : rstr)
| U_BleNameContains (substring : rstr).

Record UserRule := mkRule {
  rule_id : rstr;
  name : rstr;
  rule_description : rstr;
  rule_enabled : bool;
  technology : RadioTech;
  severity : Severity;
  criteria : list UserCriterion;
  cooldown_secs : Z;
  notes : option rstr }.

Record AllowlistEntry := mkEntry { entry_prefix : rstr; entry_label : rstr }.

(** [builtin_overrides] is a [BTreeMap]: its pairs in the order of its keys. *)
Record UserRuleSet := mkRules {
  rules : list UserRule;
  allowlist : list AllowlistEntry;
  builtin_overrides : list (rstr * bool) }.

Inductive RuleError :=
| TooManyRules (count max : nat)
| TooManyAllowlistEntries (count max : nat)
| DuplicateRuleId (id : rstr)
| EmptyField (field : rstr)
| TooLong (field : rstr) (len max : nat)
| NoCriteria (name : rstr)
| TooManyCriteria (name : rstr) (max : nat)
| BadMac (value reason : rstr)
| BadPrefix (value reason : rstr)
| TooManyWildcards (count max : nat)
| MatchesEverything
| CooldownTooLong (secs max : Z)
| RuleParse (message : rstr).

Abbreviation R := (result RuleError).

(** ** Validation *)

Definition check_len (field value : rstr) (max : nat) : R unit :=
  if max <? length value then Err (TooLong field (length value) max) else Ok tt.

Definition parse_mac (mac : rstr) : R MacAddr :=
  map_err (fun e => BadMac mac (MacParseError_display e)) (MacAddr_parse mac).
Definition parse_prefix (prefix : rstr) : R MacPrefix :=
  map_err (fun e => BadPrefix prefix (MacParseError_display e)) (MacPrefix_parse prefix).

Definition wildcards (pattern : rstr) : nat :=
  length (List.filter (fun c => (c =? 42)%Z || (c =? 63)%Z) pattern).

Definition validate_criterion (c : UserCriterion) : R unit :=
  match c with
  | U_Mac mac => parse_mac mac ;; Ok tt
  | U_MacPrefix prefix => parse_prefix prefix ;; Ok tt
  | U_SsidExact ssid => check_len (lit "SSID") ssid MAX_PATTERN
  | U_SsidContains substring =>
      if bool_decide (substring = []) then Err (EmptyField (lit "substring"))
      else check_len (lit "SSID text") substring MAX_PATTERN
  | U_SsidGlob pattern =>
      if bool_decide (pattern = []) then Err (EmptyField (lit "pattern"))
      else check_len (lit "pattern") pattern MAX_PATTERN ;;
           if MAX_WILDCARDS <? wildcards pattern then Err (TooManyWildcards (wildcards pattern) MAX_WILDCARDS)
           else if forallb (fun c => (c =? 42)%Z) pattern then Err MatchesEverything
           else Ok tt
  | U_BleCompanyId _ => Ok tt
  | U_BleServiceUuid uuid =>
      check_len (lit "UUID") uuid MAX_PATTERN ;;
      if bool_decide (trim uuid = []) then Err (EmptyField (lit "uuid")) else Ok tt
  | U_BleNameContains substring =>
      if bool_decide (substring = []) then Err (EmptyField (lit "substring"))
      else check_len (lit "name text") substring MAX_PATTERN
  end.

(** [for x in l { f(x)?; }]. *)
Fixpoint each {A} (f : A -> R unit) (l : list A) : R unit :=
  match l with [] => Ok tt | x :: l => f x ;; each f l end.

Definition validate_rule (r : UserRule) : R unit :=
  if bool_decide (trim (rule_id r) = []) then Err (EmptyField (lit "id"))
  else if bool_decide (trim (name r) = []) then Err (EmptyField (lit "name"))
  else
    check_len (lit "name") (name r) MAX_NAME ;;
    check_len (lit "description") (rule_description r) MAX_DESCRIPTION ;;
    match notes r with Some n => check_len (lit "notes") n MAX_NOTES | None => Ok tt end ;;
    if bool_decide (criteria r = []) then Err (NoCriteria (name r))
    else if MAX_CRITERIA_PER_RULE <? length (criteria r) then Err (TooManyCriteria (name r) MAX_CRITERIA_PER_RULE)
    else if (MAX_COOLDOWN_SECS <? cooldown_secs r)%Z then Err (CooldownTooLong (cooldown_secs r) MAX_COOLDOWN_SECS)
    else each validate_criterion (criteria r).

Fixpoint validate_rules (seen : list rstr) (rs : list UserRule) : R unit :=
  match rs with
  | [] => Ok tt
  | r :: rs =>
      validate_rule r ;;
      if bool_decide (rule_id r ∈ seen) then Err (DuplicateRuleId (rule_id r))
      else validate_rules (seen ++ [rule_id r]) rs
  end.

Definition validate_entry (e : AllowlistEntry) : R unit :=
  parse_prefix (entry_prefix e) ;; check_len (lit "allowlist label") (entry_label e) MAX_NAME.

Definition validate_set (s : UserRuleSet) : R unit :=
  if MAX_RULES <? length (rules s) then Err (TooManyRules (length (rules s)) MAX_RULES)
  else if MAX_ALLOWLIST <? length (allowlist s) then Err (TooManyAllowlistEntries (length (allowlist s)) MAX_ALLOWLIST)
  else
    validate_rules [] (rules s) ;;
    if MAX_RULES <? length (builtin_overrides s) then Err (TooManyRules (length (builtin_overrides s)) MAX_RULES)
    else
      each (fun o => check_len (lit "signature id") o.1 MAX_NAME) (builtin_overrides s) ;;
      each validate_entry (allowlist s).

Definition rules_from_json (from_str : rstr -> result rstr UserRuleSet) (input : rstr) : R UserRuleSet :=
  set ← map_err RuleParse (from_str input);
  validate_set set ;; Ok set.

(** ** The ignore list *)

Definition is_allowlisted (s : UserRuleSet) (addr : MacAddr) : bool :=
  existsb (fun e => match MacPrefix_parse (entry_prefix e) with Ok p => matches p addr | Err _ => false end) (allowlist s).

(** ** Conversion *)

Definition convert_criterion (c : UserCriterion) : R MatchCondition :=
  match c with
  | U_Mac mac => m ← parse_mac mac; Ok (MacExact F_Any m)
  | U_MacPrefix prefix => p ← parse_prefix prefix; Ok (MacPrefixCond F_Any p true)
  | U_SsidExact ssid => Ok (SsidExact ssid)
  | U_SsidContains substring => Ok (SsidContains substring)
  | U_SsidGlob pattern => Ok (SsidGlob pattern)
  | U_BleCompanyId id => Ok (BleCompanyId id)
  | U_BleServiceUuid uuid => Ok (BleServiceUuid uuid)
  | U_BleNameContains substring => Ok (BleNameContains substring)
  end.

Definition to_signature (r : UserRule) : R Signature :=
  conditions ← collect_result convert_criterion (criteria r);
  Ok (mkSignature (lit "user." ++ rule_id r) (lit "user-defined") (Some (name r)) (technology r) conditions
        C_Low (severity r)
        (if bool_decide (trim (rule_description r) = []) then lit "user rule: " ++ name r else rule_description r)
        [lit "added by the device owner"] None (notes r) true).

Definition to_signatures (s : UserRuleSet) : R (list Signature) :=
  collect_result to_signature (List.filter rule_enabled (rules s)).

(** ** Lemmas *)

Lemma seq_ok {A B} (m : R A) (k : R B) b : (m ;; k) = Ok b -> (exists a, m = Ok a) /\ k = Ok b.
Proof. destruct m; [by eauto | done]. Qed.

Lemma each_ok {A} (f : A -> R unit) l : each f l = Ok tt <-> Forall (fun x => f x = Ok tt) l.
Proof.
  induction l as [|x l IH]; cbn [each]; [split; [constructor | done]|].
  rewrite Forall_cons, <- IH. destruct (f x) as [[]|e] eqn:Hf; cbn; [naive_solver | naive_solver].
Qed.

Lemma validate_rules_ok seen rs :
  validate_rules seen rs = Ok tt ->
  Forall (fun r => validate_rule r = Ok tt) rs /\ NoDup (map rule_id rs) /\ (forall i, i ∈ map rule_id rs -> i ∉ seen).
Proof.
  revert seen. induction rs as [|r rs IH]; intros seen; cbn [validate_rules map].
  { intros _. split; [constructor|]. split; [constructor | set_solver]. }
  intros [[[] Hr] H]%seq_ok. case_bool_decide as Hs; [done|]. destruct (IH _ H) as (Hall & Hnd & Hseen).
  split; [by constructor|]. split.
  - constructor; [|done]. intros Hin. apply (Hseen _ Hin). set_solver.
  - intros i [->|Hi]%elem_of_cons; [done|]. specialize (Hseen i Hi). set_solver.
Qed.

Lemma validate_rule_ok r :
  validate_rule r = Ok tt ->
  trim (rule_id r) <> [] /\ 1 <= length (criteria r) <= MAX_CRITERIA_PER_RULE /\
  (cooldown_secs r <= MAX_COOLDOWN_SECS)%Z /\ Forall (fun c => validate_criterion c = Ok tt) (criteria r).
Proof.
  unfold validate_rule. case_bool_decide; [done|]. case_bool_decide; [done|].
  intros [_ [_ [_ H']%seq_ok]%seq_ok]%seq_ok. revert H'. case_bool_decide as Hc; [done|].
  destruct (Nat.ltb_spec MAX_CRITERIA_PER_RULE (length (criteria r))); [done|].
  destruct (Z.ltb_spec MAX_COOLDOWN_SECS (cooldown_secs r)); [done|]. intros Hall%each_ok.
  split; [done|]. split; [|done]. split; [|done]. destruct (criteria r); [done | simpl; lia].
Qed.

Lemma convert_validated c : validate_criterion c = Ok tt -> exists cond, convert_criterion c = Ok cond.
Proof. destruct c; cbn; try (by eauto); intros [[x Hx] _]%seq_ok; rewrite Hx; by eexists. Qed.

Lemma collect_result_total {A B} (f : A -> R B) l :
  Forall (fun x => exists y, f x = Ok y) l -> exists ys, collect_result f l = Ok ys /\ Forall2 (fun x y => f x = Ok y) l ys.
Proof.
  induction 1 as [|x l [y Hy] _ (ys & Hc & Hall)]; cbn [collect_result]; [by exists []|].
  exists (y :: ys). rewrite Hy, Hc. split; [done | by constructor].
Qed.

Lemma trim_start_app p l c : p c = false -> trim_start_by p (l ++ [c]) <> [].
Proof. intros Hp. induction l as [|x l IH]; cbn [app trim_start_by]; [by rewrite Hp|]. by destruct (p x). Qed.

Lemma trim_user id : trim (lit "user." ++ id) <> [].
Proof.
  unfold trim, trim_by, trim_end_by. change (lit "user." ++ id) with (117 :: (lit "ser." ++ id))%Z.
  cbn [trim_start_by]. replace (is_whitespace 117) with false by reflexivity. cbn [rev].
  intros H. apply (f_equal (@rev Z)) in H. rewrite rev_involutive in H.
  by apply trim_start_app in H.
Qed.

(** What a signature made from a rule carries. *)
Definition converted (r : UserRule) (sig : Signature) : Prop :=
  sig_id sig = lit "user." ++ rule_id r /\ sig_technology sig = technology r /\ sig_severity sig = severity r /\
  sig_confidence sig = C_Low /\ enabled sig = true /\
  Forall2 (fun c cond => convert_criterion c = Ok cond) (criteria r) (conditions sig) /\
  1 <= length (conditions sig) <= MAX_CRITERIA_PER_RULE.

Lemma to_signature_converted r :
  validate_rule r = Ok tt -> exists sig, to_signature r = Ok sig /\ converted r sig.
Proof.
  intros (Hid & Hl & _ & Hall)%validate_rule_ok.
  destruct (collect_result_total convert_criterion (criteria r)) as (conds & Hc & H2).
  { eapply Forall_impl; [exact Hall|]. apply convert_validated. }
  unfold to_signature. rewrite Hc. eexists. split; [reflexivity|].
  pose proof (Forall2_length _ _ _ H2). unfold converted; cbn. repeat (split; [done|]). lia.
Qed.

Lemma Forall2_converted (rs : list UserRule) sigs :
  Forall (fun r => validate_rule r = Ok tt) rs -> Forall2 (fun r sig => to_signature r = Ok sig) rs sigs ->
  Forall2 converted rs sigs.
Proof.
  intros Hall H. induction H as [|r sig rs sigs Hr _ IH]; [constructor|].
  apply Forall_cons in Hall as [Hv Hall]. constructor; [|by apply IH].
  destruct (to_signature_converted r Hv) as (sig' & Hs & Hc). congruence.
Qed.

Lemma converted_ids rs sigs : Forall2 converted rs sigs -> map sig_id sigs = map (fun r => lit "user." ++ rule_id r) rs.
Proof. induction 1 as [|r sig rs sigs Hc _ IH]; [done|]. cbn [map]. destruct Hc as (-> & _). by rewrite IH. Qed.

Lemma NoDup_user_ids rs : NoDup (map rule_id rs) -> NoDup (map (fun r => lit "user." ++ rule_id r) rs).
Proof.
  intros H. replace (map (fun r => lit "user." ++ rule_id r) rs) with (app (lit "user.") <$> map rule_id rs).
  - apply NoDup_fmap_2; [|done]. intros x y. apply app_inv_head.
  - rewrite <- list_fmap_compose. done.
Qed.

Lemma NoDup_filter_ids (f : UserRule -> bool) rs : NoDup (map rule_id rs) -> NoDup (map rule_id (List.filter f rs)).
Proof.
  induction rs as [|r rs IH]; cbn [List.filter map]; [done|]. intros [Hn Hnd]%NoDup_cons.
  destruct (f r); [|by apply IH]. cbn [map]. constructor; [|by apply IH].
  intros (x & Hx & Hin)%list_elem_of_fmap. apply Hn. rewrite Hx. apply list_elem_of_fmap_2.
  apply list_elem_of_In in Hin. apply filter_In in Hin as [Hin _]. by apply list_elem_of_In.
Qed.

(** ** Properties *)

(** A rule set that was accepted can always be used.  Every enabled rule becomes one signature, in
    order, with the rule's technology and severity, low confidence and one condition for each of
    its one to eight criteria; and the signatures together pass the validation of a pack: no two
    share an identifier, none is without conditions. *)
Theorem user_rules_convert (E : Type) s :
  validate_set s = Ok tt ->
  exists sigs, to_signatures s = Ok sigs /\
    Forall2 converted (List.filter rule_enabled (rules s)) sigs /\
    validate (E := E) (mkDb SCHEMA_VERSION None sigs) = Ok tt.
Proof.
  unfold validate_set. destruct (_ <? _); [done|]. destruct (_ <? _); [done|].
  intros [[[] Hrules] _]%seq_ok. destruct (validate_rules_ok _ _ Hrules) as (Hall & Hnd & _).
  assert (Hf : Forall (fun r => validate_rule r = Ok tt) (List.filter rule_enabled (rules s))).
  { apply Forall_forall. intros r [Hr _]%list_elem_of_In%filter_In. rewrite Forall_forall in Hall.
    by apply Hall, list_elem_of_In. }
  destruct (collect_result_total to_signature (List.filter rule_enabled (rules s))) as (sigs & Hc & H2).
  { eapply Forall_impl; [exact Hf|]. intros r Hr. destruct (to_signature_converted r Hr) as (sig & ? & _). by exists sig. }
  pose proof (Forall2_converted _ _ Hf H2) as Hconv. exists sigs. split; [done|]. split; [done|].
  apply validate_from_intro; cbn [signatures].
  - rewrite (converted_ids _ _ Hconv). by apply NoDup_user_ids, NoDup_filter_ids.
  - intros i _. apply not_elem_of_nil.
  - clear -Hconv. induction Hconv as [|r sig rs sigs Hc _ IH]; constructor; [|done].
    destruct Hc as (-> & _ & _ & _ & _ & _ & Hl). split; [destruct (conditions sig); [simpl in Hl; lia | done] | apply trim_user].
Qed.

Definition demo_rule : UserRule :=
  mkRule (lit "1") (lit "neighbour") [] true Tech_Wifi S_High [U_SsidGlob (lit "Cam-*"); U_MacPrefix (lit "70:b3:d5:7c:b")] 60 None.

Lemma user_rules_convert_witness :
  exists sigs, to_signatures (mkRules [demo_rule] [] []) = Ok sigs /\
    Forall2 converted (List.filter rule_enabled [demo_rule]) sigs.
Proof.
  destruct (user_rules_convert unit (mkRules [demo_rule] [] []) eq_refl) as (sigs & H & H2 & _). by exists sigs.
Defined.

(** The pattern guard is exact.  Of the patterns within the bounds on length and wildcards, those
    refused as matching everything are exactly the ones that match every name; and no accepted
    pattern matches the empty name, which is what a hidden network shows. *)
Theorem match_everything_refused pattern :
  (validate_criterion (U_SsidGlob pattern) = Err MatchesEverything <->
     pattern <> [] /\ length pattern <= MAX_PATTERN /\ wildcards pattern <= MAX_WILDCARDS /\ forall s, globs pattern s) /\
  (validate_criterion (U_SsidGlob pattern) = Ok tt -> glob_match pattern [] = false).
Proof.
  assert (Hstars : forallb (fun c => (c =? 42)%Z) pattern = true <-> leading_stars pattern = length pattern).
  { clear. induction pattern as [|c p IH]; cbn [forallb leading_stars length]; [done|]. unfold STAR.
    destruct (c =? 42)%Z; cbn [andb]; [rewrite IH; lia | done]. }
  assert (Hall : pattern <> [] -> leading_stars pattern = length pattern -> forall s, globs pattern s).
  { intros Hne H%leading_stars_all s. destruct pattern as [|c p]; [done|]. inversion H; subst.
    rewrite <- (app_nil_r s). by apply globs_star_app. }
  cbn [validate_criterion]. case_bool_decide as Hnil; [naive_solver|]. unfold check_len.
  destruct (Nat.ltb_spec MAX_PATTERN (length pattern)) as [Hl|Hl]; cbn [mbind result_bind];
    [split; [split; [done | intros (_ & ? & _); lia] | done]|].
  destruct (Nat.ltb_spec MAX_WILDCARDS (wildcards pattern)) as [Hw|Hw];
    [split; [split; [done | intros (_ & _ & ? & _); lia] | done]|].
  destruct (forallb _ pattern) eqn:Hf.
  - split; [|done]. split; [|done]. intros _. pose proof (proj1 Hstars eq_refl). eauto 6.
  - assert (Hno : ~ globs pattern []) by (rewrite <- leading_stars_all; intros H%Hstars; congruence).
    split; [split; [done | intros (_ & _ & _ & H); by destruct Hno]|].
    intros _. apply not_true_iff_false. intros H%glob_match_sound. done.
Qed.

Lemma match_everything_refused_witness :
  glob_match (lit "*a") [] = false /\ (forall s, globs (lit "***") s).
Proof.
  split; [by apply (proj2 (match_everything_refused (lit "*a")))|].
  apply (proj1 (proj1 (match_everything_refused (lit "***"))) eq_refl).
Defined.
