(* ===== verification/Persistence.v ===== *)
(** * Has this device followed me? ([radio/src/persistence.rs])

    The environment tracker, the history of sightings and its two memory bounds, and the score,
    in binary32 as the code computes it.  Times are nanoseconds.  [HashMap] iterates in an order it
    does not document: it is the argument [iter] of the operations that depend on it, some
    permutation of the map's pairs. *)

From S2P Require Import Prelude RustStr Floats Mac.
From Stdlib Require Import Floats.SpecFloat.

Local Open Scope Z_scope.

Inductive Persistence := Incidental | Persistent | UnusuallyPersistent | PossibleFollowing | HighConfidenceFollowing.
#[export] Instance Persistence_eq_dec : EqDecision Persistence.
Proof. solve_decision. Defined.
Definition persistence_rank (p : Persistence) : nat :=
  match p with
  | Incidental => 0 | Persistent => 1 | UnusuallyPersistent => 2 | PossibleFollowing => 3 | HighConfidenceFollowing => 4
  end.
Definition persistence_label (p : Persistence) : rstr :=
  match p with
  | Incidental => lit "incidental"
  | Persistent => lit "persistent"
  | UnusuallyPersistent => lit "unusually persistent"
  | PossibleFollowing => lit "possible following behaviour"
  | HighConfidenceFollowing => lit "correlated following behaviour"
  end.

Record PersistenceConfig := mkPConfig {
  min_sightings : Z;
  temporal_saturation_hours : f32;
  reappearance_gap : Z;
  environment_saturation : Z;
  density_saturation : Z;
  max_tracked_devices : nat;
  max_sightings_per_device : nat }.
Definition PersistenceConfig_default : PersistenceConfig :=
  mkPConfig 3 (f32_of_Z 4) (10 * 60 * 10 ^ 9) 4 20 512 64.

Record PersistenceScore := mkScore {
  score_value : f32;
  classification : Persistence;
  score_sightings : Z;
  distinct_environments : Z;
  reappearances : Z;
  span_hours : f32;
  reasons : list rstr }.

(** ** Environments *)

Record EnvironmentTracker := mkEnv {
  env_current : list MacAddr;
  env_index : Z;
  similarity_threshold : f32;
  min_anchors : nat }.
Definition EnvironmentTracker_new : EnvironmentTracker := mkEnv [] 0 (f32_lit 5 10) 3.

Definition env_observe (t : EnvironmentTracker) (visible : list MacAddr) : EnvironmentTracker * bool :=
  if (length visible <? min_anchors t)%nat then (t, false)
  else if bool_decide (env_current t = []) then
    (mkEnv visible (env_index t) (similarity_threshold t) (min_anchors t), false)
  else
    let overlap := length (List.filter (fun m => bool_decide (m ∈ env_current t)) visible) in
    let smaller := f32_of_Z (Z.of_nat (length (env_current t) `min` length visible)) in
    let similarity := f32_div (f32_of_Z (Z.of_nat overlap)) smaller in
    if SFltb similarity (similarity_threshold t)
    then (mkEnv visible (sat_addu 32 (env_index t) 1) (similarity_threshold t) (min_anchors t), true)
    else (mkEnv visible (env_index t) (similarity_threshold t) (min_anchors t), false).

(** ** Histories *)

Record Sighting := mkSighting { at_ : Z; environment : Z; rssi_dbm : option Z }.
Record DeviceHistory := mkHistory { sightings : list Sighting; last_seen : Z }.
Abbreviation Devices := (gmap rstr DeviceHistory).
Record PersistenceTracker := mkTracker { config : PersistenceConfig; devices : Devices }.

Definition PersistenceTracker_new (c : PersistenceConfig) : PersistenceTracker := mkTracker c ∅.
Definition tracked_devices (t : PersistenceTracker) : nat := size (devices t).

(** [Iterator::min_by_key]: the first of the least. *)
Fixpoint min_by_last_seen (l : list (rstr * DeviceHistory)) : option (rstr * DeviceHistory) :=
  match l with
  | [] => None
  | x :: l => match min_by_last_seen l with
              | Some y => if last_seen y.2 <? last_seen x.2 then Some y else Some x
              | None => Some x
              end
  end.

Definition push_sighting (c : PersistenceConfig) (h : DeviceHistory) (s : Sighting) : DeviceHistory :=
  let l := sightings h ++ [s] in
  mkHistory (if (max_sightings_per_device c <? length l)%nat then tail l else l)
    (if last_seen h <? at_ s then at_ s else last_seen h).

Section order.
Context (iter : Devices -> list (rstr * DeviceHistory)).

Definition evict_oldest (d : Devices) : Devices :=
  match min_by_last_seen (iter d) with Some (k, _) => delete k d | None => d end.

Definition record (t : PersistenceTracker) (key : rstr) (when env : Z) (rssi : option Z) : PersistenceTracker :=
  let d := if bool_decide (devices t !! key = None) && (max_tracked_devices (config t) <=? size (devices t))%nat
           then evict_oldest (devices t) else devices t in
  let entry := default (mkHistory [] when) (d !! key) in
  mkTracker (config t) (<[key := push_sighting (config t) entry (mkSighting when env rssi)]> d).
End order.

Definition retain_since (cutoff : Z) (h : DeviceHistory) : DeviceHistory :=
  mkHistory (List.filter (fun s => cutoff <=? at_ s) (sightings h)) (last_seen h).
Definition prune (t : PersistenceTracker) (cutoff : Z) : PersistenceTracker :=
  mkTracker (config t)
    (omap (fun h => let h' := retain_since cutoff h in if bool_decide (sightings h' = []) then None else Some h') (devices t)).

(** ** The score *)

Definition zero : f32 := S754_zero false.
Definition one : f32 := f32_of_Z 1.
Definition clamp01 (x : f32) : f32 := f32_clamp x zero one.

(** [windows(2)] further apart than the gap. *)
Fixpoint count_reappearances (gap : Z) (l : list Sighting) : Z :=
  match l with
  | a :: (b :: _) as rest => (if gap <? at_ b - at_ a then 1 else 0) + count_reappearances gap rest
  | _ => 0
  end.

Definition classify (s : f32) (distinct : Z) : Persistence :=
  let ge num := SFleb (f32_lit num 10) s in
  if distinct <=? 1 then
    if ge 4 then UnusuallyPersistent else if ge 2 then Persistent else Incidental
  else if ge 8 then HighConfidenceFollowing
  else if ge 6 then PossibleFollowing
  else if ge 4 then UnusuallyPersistent
  else if ge 2 then Persistent
  else Incidental.

Definition list_min (l : list Z) : option Z := match l with [] => None | x :: l => Some (fold_left Z.min l x) end.
Definition list_max (l : list Z) : option Z := match l with [] => None | x :: l => Some (fold_left Z.max l x) end.

Definition rssi_summary (ss : list Sighting) : option rstr :=
  let values := omap rssi_dbm ss in
  if (length values <? 3)%nat then None
  else mn ← list_min values; mx ← list_max values;
       let mean := Z.quot (fold_left Z.add values 0) (Z.of_nat (length values)) in
       Some (lit "signal averaged " ++ dec mean ++ lit " dBm, ranging " ++ dec mn ++ lit " to " ++ dec mx).

(** [sort_unstable] and [dedup], then [len]: the number of distinct values. *)
Definition count_distinct (l : list Z) : Z := wrapu 32 (Z.of_nat (length (remove_dups l))).

Definition components (c : PersistenceConfig) (span : f32) (reapp distinct n : Z) : f32 :=
  let temporal := clamp01 (f32_div span (temporal_saturation_hours c)) in
  let recurrence := clamp01 (f32_div (f32_of_Z reapp) (f32_of_Z 5)) in
  let movement := if 1 <? environment_saturation c
                  then clamp01 (f32_div (f32_of_Z (sat_subu distinct 1)) (f32_of_Z (environment_saturation c - 1)))
                  else zero in
  let density := clamp01 (f32_div (f32_of_Z n) (f32_of_Z (density_saturation c))) in
  clamp01 (f32_add (f32_add (f32_add (f32_mul (f32_lit 40 100) movement) (f32_mul (f32_lit 25 100) temporal))
                            (f32_mul (f32_lit 25 100) recurrence)) (f32_mul (f32_lit 10 100) density)).

Definition score (t : PersistenceTracker) (key : rstr) : option PersistenceScore :=
  history ← devices t !! key;
  let ss := sightings history in
  let n := wrapu 32 (Z.of_nat (length ss)) in
  if n <? min_sightings (config t) then None
  else
    first ← head ss; last ← last ss;
    let span := f32_div (f32_of_Z (Z.max (Z.quot (at_ last - at_ first) (10 ^ 9)) 0)) (f32_of_Z 3600) in
    let distinct := count_distinct (map environment ss) in
    let reapp := count_reappearances (reappearance_gap (config t)) ss in
    let value := components (config t) span reapp distinct n in
    let class := classify value distinct in
    Some (mkScore value class n distinct reapp span
      ([lit "seen " ++ dec n ++ lit " times over " ++ fmt_fixed1 span ++ lit " hours"]
       ++ (if 1 <? distinct
           then [lit "present in " ++ dec distinct ++ lit " distinct surroundings as you moved"]
           else [lit "only ever seen in one set of surroundings"])
       ++ (if 0 <? reapp then [lit "left and returned " ++ dec reapp ++ lit " times"] else [])
       ++ option_list (rssi_summary ss)
       ++ (if (distinct <=? 1) && SFleb (f32_lit 6 10) value
           then [lit "not treated as following: a device seen in only one place is most likely a fixture"] else []))).

(** [sort_by] on the scores, descending: stable insertion; [partial_cmp] without an answer is equal. *)
Definition score_gtb (a b : PersistenceScore) : bool := SFltb (score_value b) (score_value a).
Fixpoint insert_desc (x : rstr * PersistenceScore) (l : list (rstr * PersistenceScore)) :=
  match l with
  | [] => [x]
  | y :: l' => if score_gtb x.2 y.2 then x :: l else y :: insert_desc x l'
  end.
Definition above (iter : Devices -> list (rstr * DeviceHistory)) (t : PersistenceTracker) (floor : Persistence)
    : list (rstr * PersistenceScore) :=
  fold_left (fun acc x => insert_desc x acc)
    (omap (fun '(k, _) =>
       s ← score t k;
       if (persistence_rank floor <=? persistence_rank (classification s))%nat then Some (k, s) else None)
     (iter (devices t))) [].

(** ** Lemmas *)

Lemma min_by_last_seen_spec l :
  match min_by_last_seen l with
  | None => l = []
  | Some x => x ∈ l /\ Forall (fun y => last_seen x.2 <= last_seen y.2) l
  end.
Proof.
  induction l as [|x l IH]; cbn [min_by_last_seen]; [done|].
  destruct (min_by_last_seen l) as [y|].
  - destruct IH as [Hin Hall]. destruct (Z.ltb_spec (last_seen y.2) (last_seen x.2)).
    + split; [by right | constructor; [lia | done]].
    + split; [by left|]. constructor; [lia|]. eapply Forall_impl; [exact Hall|]. cbn. lia.
  - subst l. split; [by left | constructor; [lia | done]].
Qed.

Section order_lemmas.
Context (iter : Devices -> list (rstr * DeviceHistory)) (Hiter : forall d, iter d ≡ₚ map_to_list d).

Lemma evict_spec d :
  d <> ∅ -> exists k h, d !! k = Some h /\ evict_oldest iter d = delete k d /\
    forall k' h', d !! k' = Some h' -> last_seen h <= last_seen h'.
Proof.
  intros Hd. unfold evict_oldest. pose proof (min_by_last_seen_spec (iter d)) as H.
  destruct (min_by_last_seen (iter d)) as [[k h]|].
  - destruct H as [Hin Hall]. rewrite Hiter in Hin. exists k, h.
    split; [by apply elem_of_map_to_list|]. split; [done|]. intros k' h' Hk'.
    rewrite Forall_forall in Hall. apply (Hall (k', h')). rewrite Hiter. by apply elem_of_map_to_list.
  - exfalso. apply Hd, map_to_list_empty_iff. apply Permutation_nil_r. rewrite <- Hiter, H. done.
Qed.

(** The two bounds. *)
Definition bounded (t : PersistenceTracker) : Prop :=
  (size (devices t) <= 1 `max` max_tracked_devices (config t))%nat /\
  map_Forall (fun _ h => (length (sightings h) <= max_sightings_per_device (config t))%nat) (devices t).

Lemma push_length c h s :
  (length (sightings h) <= max_sightings_per_device c)%nat ->
  (length (sightings (push_sighting c h s)) <= max_sightings_per_device c)%nat.
Proof.
  intros H. cbn [push_sighting sightings]. destruct (Nat.ltb_spec (max_sightings_per_device c) (length (sightings h ++ [s]))); [|done].
  destruct (sightings h); cbn [app tl length] in *; [lia|]. rewrite length_app. simpl. lia.
Qed.

Lemma record_bounded t key when env rssi : bounded t -> bounded (record iter t key when env rssi).
Proof.
  intros [Hsize Hall]. unfold record. destruct (devices t !! key) as [h0|] eqn:Hk.
  - rewrite bool_decide_false by done. cbn [andb]. split; cbn [devices config].
    + rewrite map_size_insert_Some by done. exact Hsize.
    + apply map_Forall_insert_2; [|done]. rewrite Hk. by apply push_length, (Hall key).
  - rewrite bool_decide_true by done. cbn [andb].
    destruct (Nat.leb_spec (max_tracked_devices (config t)) (size (devices t))) as [Hle|Hlt].
    + assert (Hnew : forall d, d !! key = None -> (size d < 1 `max` max_tracked_devices (config t))%nat ->
        map_Forall (fun _ h => (length (sightings h) <= max_sightings_per_device (config t))%nat) d ->
        bounded (mkTracker (config t) (<[key := push_sighting (config t) (default (mkHistory [] when) (d !! key)) (mkSighting when env rssi)]> d))).
      { intros d Hd Hs Hf. split; cbn [devices config].
        - rewrite map_size_insert_None by done. lia.
        - apply map_Forall_insert_2; [|done]. rewrite Hd. apply push_length. simpl. lia. }
      destruct (decide (devices t = ∅)) as [He|He].
      * assert (Hev : evict_oldest iter (devices t) = ∅).
        { unfold evict_oldest. pose proof (min_by_last_seen_spec (iter (devices t))) as H.
          destruct (min_by_last_seen _) as [[k h]|]; [|done]. rewrite He. apply delete_empty. }
        rewrite Hev. apply Hnew; [apply lookup_empty | rewrite map_size_empty; lia | apply map_Forall_empty].
      * destruct (evict_spec _ He) as (k & h & Hkh & -> & _). apply Hnew.
        -- apply lookup_delete_None. by right.
        -- rewrite map_size_delete_Some by (by eexists).
           assert (size (devices t) <> 0%nat) by (by rewrite map_size_non_empty_iff). lia.
        -- by apply map_Forall_delete.
    + split; cbn [devices config].
      * rewrite map_size_insert_None by done. lia.
      * apply map_Forall_insert_2; [|done]. rewrite Hk. apply push_length. simpl. lia.
Qed.

Lemma prune_bounded t cutoff : bounded t -> bounded (prune t cutoff).
Proof.
  intros [Hsize Hall]. split; cbn [devices config prune].
  - etrans; [|exact Hsize]. rewrite <- !size_dom. apply subseteq_size, dom_omap_subseteq.
  - intros k h. rewrite lookup_omap_Some. intros (h0 & Hh & Hk). case_bool_decide; [done|]. injection Hh as <-.
    etrans; [|by apply (Hall k)]. cbn [retain_since sightings]. apply List.filter_length_le.
Qed.
End order_lemmas.

Lemma reappearances_nonneg gap l : 0 <= count_reappearances gap l.
Proof.
  induction l as [|a [|b l] IH]; cbn [count_reappearances] in *; [done..|]. destruct (_ <? _); lia.
Qed.

Lemma clamp01_spec x : nonneg x -> nonneg_finite (clamp01 x) /\ SFleb zero (clamp01 x) = true /\ SFleb (clamp01 x) one = true.
Proof. intros Hx. by apply (clamp_nonneg x 8388608 (-23)). Qed.

Lemma f32_of_Z_nonneg z : 0 <= z -> nonneg (f32_of_Z z).
Proof. apply normalize_nonneg. Qed.

(** With the default thresholds every part of the score is a number between zero and one. *)
Lemma components_bounds span reapp distinct n :
  nonneg span -> 0 <= reapp -> 0 <= distinct -> 0 <= n ->
  let v := components PersistenceConfig_default span reapp distinct n in
  SFleb zero v = true /\ SFleb v one = true.
Proof.
  intros Hs Hr Hd Hn v.
  assert (Hc : forall x d, nonneg x -> (exists m e, f32_of_Z d = S754_finite false m e) ->
    nonneg_finite (clamp01 (f32_div x (f32_of_Z d)))).
  { intros x d Hx (m & e & He). apply clamp01_spec. eapply div_nonneg; [exact Hx | exact He]. }
  assert (Hm : forall k x, nonneg_finite k -> nonneg_finite x -> nonneg (f32_mul k x)).
  { intros k x. apply mul_nonneg_finite. }
  assert (Hfin : forall d,
    (match f32_of_Z d with S754_finite false m e => True | _ => False end) -> exists m e, f32_of_Z d = S754_finite false m e).
  { intros d H. destruct (f32_of_Z d) as [| | |[] m e]; try done. by exists m, e. }
  unfold v, components. change (1 <? environment_saturation PersistenceConfig_default) with true. cbv iota.
  change (temporal_saturation_hours PersistenceConfig_default) with (f32_of_Z 4).
  apply clamp01_spec. unfold f32_add. apply add_nonneg; [apply add_nonneg; [apply add_nonneg|]|];
    (apply Hm; [vm_compute; exact I | apply Hc; [|apply Hfin; vm_compute; exact I]]);
    first [exact Hs | apply f32_of_Z_nonneg; unfold sat_subu; lia].
Qed.

Lemma two_environments l : 1 < count_distinct l -> exists a b, a ∈ l /\ b ∈ l /\ a <> b.
Proof.
  unfold count_distinct, wrapu. intros H.
  pose proof (Z.mod_le (Z.of_nat (length (remove_dups l))) (2 ^ 32) ltac:(lia) ltac:(lia)).
  pose proof (NoDup_remove_dups l) as Hnd.
  destruct (remove_dups l) as [|a [|b r]] eqn:Hr; [simpl in *; lia..|].
  exists a, b. rewrite <- !(elem_of_remove_dups l), Hr. split; [set_solver|]. split; [set_solver|].
  apply NoDup_cons in Hnd as [Hn _]. set_solver.
Qed.

Lemma classify_following v distinct :
  (persistence_rank PossibleFollowing <= persistence_rank (classify v distinct))%nat ->
  1 < distinct /\ SFleb (f32_lit 6 10) v = true \/ 1 < distinct /\ SFleb (f32_lit 8 10) v = true.
Proof.
  unfold classify. destruct (Z.leb_spec distinct 1); repeat case_match; cbn [persistence_rank]; intros; try lia; auto.
Qed.

(** ** Runs of the tracker *)

Inductive tracker_op :=
| Op_record (key : rstr) (when env : Z) (rssi : option Z)
| Op_prune (cutoff : Z).

Definition tracker_step (iter : Devices -> list (rstr * DeviceHistory)) (t : PersistenceTracker) (o : tracker_op) : PersistenceTracker :=
  match o with
  | Op_record key when env rssi => record iter t key when env rssi
  | Op_prune cutoff => prune t cutoff
  end.

Lemma run_bounded iter (Hiter : forall d, iter d ≡ₚ map_to_list d) ops t :
  bounded t -> bounded (fold_left (tracker_step iter) ops t) /\ config (fold_left (tracker_step iter) ops t) = config t.
Proof.
  revert t. induction ops as [|o ops IH]; intros t Ht; cbn [fold_left]; [done|].
  destruct (IH (tracker_step iter t o)) as [Hb Hc].
  { destruct o; [by apply record_bounded | by apply prune_bounded]. }
  split; [done|]. rewrite Hc. by destruct o.
Qed.

(** ** Properties *)

(** Memory stays bounded however many devices are seen and for however long.  After any sequence of
    sightings and prunings, whatever order the hash map iterates in, at most the configured number
    of devices is held (one, if that is zero) and at most the configured number of sightings for
    each; recording makes the sighting the device's last; and the device given up to make room is
    one that was last seen no later than any other. *)
Theorem tracker_bounded iter c ops :
  (forall d, iter d ≡ₚ map_to_list d) ->
  let t := fold_left (tracker_step iter) ops (PersistenceTracker_new c) in
  (tracked_devices t <= 1 `max` max_tracked_devices c)%nat /\
  map_Forall (fun _ h => (length (sightings h) <= max_sightings_per_device c)%nat) (devices t) /\
  (forall key when env rssi, (1 <= max_sightings_per_device c)%nat ->
     exists h, devices (record iter t key when env rssi) !! key = Some h /\
       last (sightings h) = Some (mkSighting when env rssi)) /\
  (devices t <> ∅ -> exists k h, devices t !! k = Some h /\ evict_oldest iter (devices t) = delete k (devices t) /\
     forall k' h', devices t !! k' = Some h' -> last_seen h <= last_seen h').
Proof.
  intros Hiter t. destruct (run_bounded iter Hiter ops (PersistenceTracker_new c)) as [[Hs Hl] Hc].
  { split; [cbn; rewrite map_size_empty; lia | apply map_Forall_empty]. }
  fold t in Hs, Hl, Hc. rewrite Hc in Hs, Hl. split; [exact Hs|]. split; [exact Hl|]. split; [|by apply evict_spec].
  intros key when env rssi Hm. unfold record. cbn [devices]. rewrite lookup_insert_eq. eexists. split; [done|].
  unfold push_sighting. cbn [sightings]. rewrite Hc.
  set (l := sightings (default (mkHistory [] when) _)). change (config (PersistenceTracker_new c)) with c.
  destruct (Nat.ltb_spec (max_sightings_per_device c) (length (l ++ [mkSighting when env rssi]))) as [Hlt|_]; [|apply last_snoc].
  destruct l as [|x l]; [simpl in Hlt; lia|]. apply last_snoc.
Qed.

Lemma tracker_bounded_witness :
  let c := mkPConfig 1 one 0 4 20 2 1 in
  let ops := [Op_record [1] 10 0 None; Op_record [2] 20 0 None; Op_record [3] 30 0 None; Op_record [3] 40 1 None] in
  (tracked_devices (fold_left (tracker_step map_to_list) ops (PersistenceTracker_new c)) <= 2)%nat.
Proof. intros c ops. apply (tracker_bounded map_to_list c ops). intros d. reflexivity. Defined.

(** Persistence alone is not following.  A device is only ever called possibly or confidently
    following when its retained sightings include two in different surroundings, there are at least
    as many of them as the configuration asks, and its score reaches 0.6; and with the default
    thresholds the score is always a number from 0 to 1 (never a NaN), so that the comparison is
    meaningful. *)
Theorem following_needs_movement t key s :
  score t key = Some s ->
  ((persistence_rank PossibleFollowing <= persistence_rank (classification s))%nat ->
     exists h a b, devices t !! key = Some h /\ a ∈ sightings h /\ b ∈ sightings h /\
       environment a <> environment b /\ min_sightings (config t) <= score_sightings s /\
       (SFleb (f32_lit 6 10) (score_value s) = true \/ SFleb (f32_lit 8 10) (score_value s) = true)) /\
  (config t = PersistenceConfig_default ->
     SFleb zero (score_value s) = true /\ SFleb (score_value s) one = true).
Proof.
  unfold score. intros (h & Hh & Hs)%bind_Some. destruct (Z.ltb_spec (wrapu 32 (Z.of_nat (length (sightings h)))) (min_sightings (config t))) as [|Hn]; [done|].
  apply bind_Some in Hs as (first & _ & Hs). apply bind_Some in Hs as (lst & _ & Hs). injection Hs as <-.
  cbn [classification score_value score_sightings]. split.
  - intros Hc. apply classify_following in Hc. assert (Hd : 1 < count_distinct (map environment (sightings h))) by tauto.
    apply two_environments in Hd as (x & y & Hx & Hy & Hne).
    apply list_elem_of_fmap in Hx as (a & -> & Ha). apply list_elem_of_fmap in Hy as (b & -> & Hb).
    exists h, a, b. tauto.
  - intros ->. apply components_bounds.
    + eapply div_nonneg; [apply f32_of_Z_nonneg; lia | by vm_compute].
    + apply reappearances_nonneg.
    + apply wrapu_in_u. lia.
    + apply wrapu_in_u. lia.
Qed.

(** A device seen in four places over four hours. *)
Definition demo_tracker : PersistenceTracker :=
  fold_left (tracker_step map_to_list)
    [Op_record [1] 0 0 None; Op_record [1] (4800 * 10 ^ 9) 1 None; Op_record [1] (9600 * 10 ^ 9) 2 None; Op_record [1] (14400 * 10 ^ 9) 3 None]
    (PersistenceTracker_new PersistenceConfig_default).

Lemma following_needs_movement_witness :
  exists s, score demo_tracker [1] = Some s /\ classification s = HighConfidenceFollowing /\
    exists h a b, devices demo_tracker !! [1] = Some h /\ a ∈ sightings h /\ b ∈ sightings h /\ environment a <> environment b.
Proof.
  destruct (score demo_tracker [1]) as [s|] eqn:Hs; [|vm_compute in Hs; discriminate Hs].
  exists s. split; [reflexivity|].
  assert (Hc : classification s = HighConfidenceFollowing) by (vm_compute in Hs; injection Hs as <-; reflexivity).
  split; [exact Hc|].
  destruct (proj1 (following_needs_movement demo_tracker [1] s Hs)) as (h & a & b & Hh & Ha & Hb & Hne & _).
  - rewrite Hc. simpl. lia.
  - exists h, a, b. tauto.
Defined.
