(* ===== verification/Evidence.v ===== *)
(** * Evidence records ([radio/src/evidence.rs])

    How a device is named in a record, and the sidecar file of records.  Writing and reading one
    record is [serde_json]'s: the arguments [to_string] and [from_str]. *)

From S2P Require Import Prelude RustStr Mac Observation Signature.

Local Open Scope Z_scope.

Inductive RetentionPolicy := Identify | Pseudonymise.

Inductive DeviceRef := Ref_Mac (mac : MacAddr) | Ref_Pseudonym (pseudonym : rstr).

Record EvidenceRecord := mkEvidence {
  timestamp : Z;
  recording_id : rstr;
  ev_technology : RadioTech;
  ev_source : ObservationSource;
  device : DeviceRef;
  ev_ssid : option rstr;
  ev_rssi_dbm : option Z;
  ev_frequency_mhz : option Z;
  ev_channel : option Z;
  ev_first_seen : Z;
  ev_last_seen : Z;
  ev_observation_count : Z;
  detection : option Detection;
  rule_version : option rstr }.

#[export] Instance DeviceRef_eq_dec : EqDecision DeviceRef.
Proof. solve_decision. Defined.
#[export] Instance EvidenceRecord_eq_dec : EqDecision EvidenceRecord.
Proof. solve_decision. Defined.

Definition FNV_OFFSET : Z := 0xcbf29ce484222325.
Definition FNV_PRIME : Z := 0x00000100000001b3.

(** [hash ^= byte; hash = hash.wrapping_mul(PRIME)]. *)
Definition fnv_step (hash byte : Z) : Z := wrapu 64 (Z.lxor hash byte * FNV_PRIME).
Definition fnv (hash : Z) (bytes : list Z) : Z := fold_left fnv_step bytes hash.

Definition pseudonymise (mac : MacAddr) (salt : list Z) : rstr :=
  lit "anon-" ++ fmt_hex_fixed 16 (fnv FNV_OFFSET (salt ++ mac_octets mac)).

Definition DeviceRef_new (mac : MacAddr) (policy : RetentionPolicy) (salt : list Z) : DeviceRef :=
  match policy with
  | Identify => Ref_Mac mac
  | Pseudonymise => Ref_Pseudonym (pseudonymise mac salt)
  end.
Definition device_key (r : DeviceRef) : rstr :=
  match r with Ref_Mac mac => MacAddr_display mac | Ref_Pseudonym p => p end.
Definition is_identifying (r : DeviceRef) : bool := match r with Ref_Mac _ => true | _ => false end.

(** ** The sidecar *)

Section ndjson.
Context (to_string : EvidenceRecord -> option rstr) (from_str : rstr -> option EvidenceRecord).

Fixpoint to_ndjson (records : list EvidenceRecord) : rstr :=
  match records with
  | [] => []
  | r :: records => match to_string r with
                    | Some line => line ++ [10] ++ to_ndjson records
                    | None => to_ndjson records
                    end
  end.

Definition from_ndjson (input : rstr) : list EvidenceRecord :=
  omap from_str (List.filter (fun l => negb (bool_decide (trim l = []))) (lines input)).
End ndjson.

(** ** Lemmas *)

(** The multiplier is odd: multiplying by it loses nothing. *)
Definition FNV_INVERSE : Z := 0xce965057aff6957b.

Lemma fnv_step_range h b : in_u 64 (fnv_step h b).
Proof. by apply wrapu_in_u. Qed.

Lemma lxor_range h b : in_u 64 h -> in_u 8 b -> in_u 64 (Z.lxor h b).
Proof.
  unfold in_u. intros Hh Hb. split; [apply Z.lxor_nonneg; lia|].
  destruct (Z.eq_dec (Z.lxor h b) 0) as [->|Hne]; [lia|].
  assert (0 < Z.lxor h b) by (pose proof (proj2 (Z.lxor_nonneg h b)); lia).
  apply Z.log2_lt_pow2; [done|]. eapply Z.le_lt_trans; [apply Z.log2_lxor; lia|].
  apply Z.max_lub_lt; (destruct (Z.eq_dec h 0), (Z.eq_dec b 0); subst; try (simpl; lia); apply Z.log2_lt_pow2; lia).
Qed.

Lemma fnv_mul_inj x y : in_u 64 x -> in_u 64 y -> wrapu 64 (x * FNV_PRIME) = wrapu 64 (y * FNV_PRIME) -> x = y.
Proof.
  unfold wrapu, in_u. intros Hx Hy H. apply (f_equal (fun z => (z * FNV_INVERSE) mod 2 ^ 64)) in H.
  rewrite !Zmult_mod_idemp_l, <- !Z.mul_assoc in H.
  rewrite <- !(Zmult_mod_idemp_r (FNV_PRIME * FNV_INVERSE)) in H.
  change ((FNV_PRIME * FNV_INVERSE) mod 2 ^ 64) with 1 in H. rewrite !Z.mul_1_r, !Z.mod_small in H by lia. exact H.
Qed.

Lemma fnv_step_inj_hash h1 h2 b : in_u 64 h1 -> in_u 64 h2 -> in_u 8 b -> fnv_step h1 b = fnv_step h2 b -> h1 = h2.
Proof.
  intros H1 H2 Hb H. apply fnv_mul_inj in H; [|by apply lxor_range..].
  apply (f_equal (fun z => Z.lxor z b)) in H. by rewrite !Z.lxor_assoc, Z.lxor_nilpotent, !Z.lxor_0_r in H.
Qed.

Lemma fnv_step_inj_byte h b1 b2 : in_u 64 h -> in_u 8 b1 -> in_u 8 b2 -> fnv_step h b1 = fnv_step h b2 -> b1 = b2.
Proof.
  intros Hh H1 H2 H. apply fnv_mul_inj in H; [|by apply lxor_range..].
  apply (f_equal (Z.lxor h)) in H. by rewrite <- !Z.lxor_assoc, Z.lxor_nilpotent, !Z.lxor_0_l in H.
Qed.

Lemma fnv_range h bs : in_u 64 h -> in_u 64 (fnv h bs).
Proof. revert h. induction bs as [|b bs IH]; intros h Hh; [done|]. apply IH, fnv_step_range. Qed.

Lemma fnv_inj h1 h2 bs : in_u 64 h1 -> in_u 64 h2 -> bytes_ok bs -> fnv h1 bs = fnv h2 bs -> h1 = h2.
Proof.
  intros H1 H2 Hb. revert h1 h2 H1 H2. induction Hb as [|b bs Hb _ IH]; intros h1 h2 H1 H2; [done|].
  cbn. intros H. apply IH in H; [|apply fnv_step_range..]. by eapply fnv_step_inj_hash.
Qed.

Lemma hex_digit_inj a b : 0 <= a < 16 -> 0 <= b < 16 -> hex_digit a = hex_digit b -> a = b.
Proof. intros Ha Hb H. apply (f_equal to_digit16) in H. rewrite !to_digit16_hex_digit in H by done. by injection H. Qed.

Lemma fmt_hex_inj n x y :
  0 <= x < 16 ^ Z.of_nat n -> 0 <= y < 16 ^ Z.of_nat n -> fmt_hex_fixed n x = fmt_hex_fixed n y -> x = y.
Proof.
  revert x y. induction n as [|n IH]; intros x y Hx Hy; cbn [fmt_hex_fixed]; [simpl in *; lia|].
  rewrite Nat2Z.inj_succ, Z.pow_succ_r in Hx, Hy by lia.
  intros [Hq Hr]%app_inj_tail. apply hex_digit_inj in Hr; [|apply Z.mod_pos_bound; lia..].
  apply IH in Hq; [|split; [apply Z.div_pos; lia | apply Z.div_lt_upper_bound; lia]..].
  rewrite (Z.div_mod x 16), (Z.div_mod y 16) by lia. lia.
Qed.

Lemma bytes_ok_app a b : bytes_ok (a ++ b) <-> bytes_ok a /\ bytes_ok b.
Proof. apply Forall_app. Qed.

(** *** Lines *)

Lemma lines_line l s : 10 ∉ l -> 13 ∉ l -> lines (l ++ [10] ++ s) = l :: lines s.
Proof.
  intros H10 H13. unfold lines. cbn [app]. rewrite split_inclusive_frame by done. cbn [map]. f_equal.
  unfold line_of_piece. by rewrite strip_suffix_snoc, strip_suffix_none.
Qed.

Section roundtrip.
Context (to_string : EvidenceRecord -> option rstr) (from_str : rstr -> option EvidenceRecord).

(** What the writing and reading of one record promise: a line without line breaks, not blank,
    that reads back to the record. *)
Definition serde_ok : Prop := forall r line, to_string r = Some line ->
  (10 ∉ line) /\ (13 ∉ line) /\ trim line <> [] /\ from_str line = Some r.

Lemma from_ndjson_line l s :
  10 ∉ l -> 13 ∉ l -> trim l <> [] ->
  from_ndjson from_str (l ++ [10] ++ s) = option_list (from_str l) ++ from_ndjson from_str s.
Proof.
  intros H10 H13 Ht. unfold from_ndjson. rewrite lines_line by done. cbn [List.filter].
  rewrite bool_decide_false by done. cbn. by destruct (from_str l).
Qed.

Lemma from_to_ndjson rs s :
  serde_ok -> from_ndjson from_str (to_ndjson to_string rs ++ s)
  = List.filter (fun r => bool_decide (is_Some (to_string r))) rs ++ from_ndjson from_str s.
Proof.
  intros Hok. induction rs as [|r rs IH]; [done|]. cbn [to_ndjson List.filter].
  destruct (to_string r) as [line|] eqn:Hr.
  - destruct (Hok r line Hr) as (H10 & H13 & Ht & Hf). rewrite bool_decide_true by (by eexists).
    rewrite <- !app_assoc, from_ndjson_line by done. rewrite Hf, IH. done.
  - rewrite bool_decide_false by (by intros []). exact IH.
Qed.
End roundtrip.

(** ** Properties *)

(** Pseudonyms.  A record names the address exactly when the policy is to identify; otherwise the name is
    "anon-" and sixteen hexadecimal digits, which is never the text of an address; and within one
    session two addresses that differ in a single octet, as those of one vendor's neighbouring
    devices do, never share a pseudonym. *)
Theorem pseudonym_spec salt a b :
  octets_ok (mac_octets a) -> octets_ok (mac_octets b) -> bytes_ok salt ->
  (forall policy, is_identifying (DeviceRef_new a policy salt) = true <-> policy = Identify) /\
  length (pseudonymise a salt) = 21%nat /\
  device_key (DeviceRef_new a Pseudonymise salt) <> device_key (DeviceRef_new b Identify salt) /\
  (forall pre x y post, mac_octets a = pre ++ x :: post -> mac_octets b = pre ++ y :: post -> x <> y ->
     pseudonymise a salt <> pseudonymise b salt).
Proof.
  intros [Hla Ha] [Hlb Hb] Hsalt. split; [by intros []|].
  assert (Hlen : forall m, length (pseudonymise m salt) = 21%nat).
  { intros m. unfold pseudonymise. by rewrite length_app, fmt_hex_fixed_length. }
  split; [apply Hlen|]. split.
  - cbn [device_key DeviceRef_new]. intros H. apply (f_equal length) in H. rewrite Hlen in H.
    destruct b as [[|b0 [|b1 [|b2 [|b3 [|b4 [|b5 [|]]]]]]]]; done.
  - intros pre x y post Hax Hby Hne H. apply Hne. unfold pseudonymise in H. apply app_inv_head in H.
    assert (Hoff : in_u 64 FNV_OFFSET) by (unfold in_u, FNV_OFFSET; lia).
    apply fmt_hex_inj in H; [|apply fnv_range; exact Hoff..].
    rewrite Hax, Hby in H. rewrite Hax in Ha. rewrite Hby in Hb.
    apply bytes_ok_app in Ha as [Hpre [Hx Hpost]%Forall_cons]. apply bytes_ok_app in Hb as [_ [Hy _]%Forall_cons].
    unfold fnv in H. rewrite !fold_left_app in H. cbn [fold_left] in H.
    apply fnv_inj in H; [|apply fnv_step_range..|done].
    eapply fnv_step_inj_byte; [|exact Hx|exact Hy|exact H].
    apply (fnv_range _ pre), (fnv_range _ salt), Hoff.
Qed.

Lemma pseudonym_spec_witness :
  pseudonymise (mkMacAddr [0x70; 0xb3; 0xd5; 1; 2; 3]) [1; 2] <> pseudonymise (mkMacAddr [0x70; 0xb3; 0xd5; 1; 2; 4]) [1; 2].
Proof.
  apply (pseudonym_spec [1; 2] (mkMacAddr [0x70; 0xb3; 0xd5; 1; 2; 3]) (mkMacAddr [0x70; 0xb3; 0xd5; 1; 2; 4]))
    with (pre := [0x70; 0xb3; 0xd5; 1; 2]) (x := 3) (y := 4) (post := []).
  all: try (split; [reflexivity | apply bytes_okb; reflexivity]); try reflexivity; try discriminate.
  apply bytes_okb; reflexivity.
Defined.

(** One malformed record costs nothing but itself.  Reading a sidecar gives back, in order, every
    record that could be written; a line that is not a record, wherever it is, is skipped and takes
    nothing with it. *)
Theorem sidecar_roundtrip to_string from_str before after junk :
  serde_ok to_string from_str -> 10 ∉ junk -> 13 ∉ junk -> from_str junk = None -> trim junk <> [] ->
  let written := List.filter (fun r => bool_decide (is_Some (to_string r))) in
  from_ndjson from_str (to_ndjson to_string before ++ junk ++ [10] ++ to_ndjson to_string after)
  = written before ++ written after.
Proof.
  intros Hok H10 H13 Hj Ht written. rewrite from_to_ndjson by done. f_equal.
  rewrite from_ndjson_line by done. rewrite Hj. cbn [option_list app].
  rewrite <- (app_nil_r (to_ndjson to_string after)), from_to_ndjson by done. by rewrite app_nil_r.
Qed.

(** A codec for the one record of the example: its line is "{}". *)
Definition demo_record : EvidenceRecord :=
  mkEvidence 0 [] Tech_Wifi HostWifiScan (Ref_Pseudonym []) None None None None 0 0 1 None None.

Ltac by_decision := match goal with |- ?P => apply (bool_decide_eq_true_1 P); vm_compute; reflexivity end.

Lemma sidecar_roundtrip_witness :
  let ts r := if bool_decide (r = demo_record) then Some (lit "{}") else None in
  let fs l := if bool_decide (l = lit "{}") then Some demo_record else None in
  from_ndjson fs (to_ndjson ts [demo_record] ++ lit "not json" ++ [10] ++ to_ndjson ts [demo_record])
  = [demo_record; demo_record].
Proof.
  intros ts fs. rewrite (sidecar_roundtrip ts fs [demo_record] [demo_record] (lit "not json")); [reflexivity|..].
  - intros r line. unfold ts. destruct (decide (r = demo_record)) as [->|Hne].
    + rewrite bool_decide_true by done. intros [= <-].
      split; [by_decision|]. split; [by_decision|].
      split; [by_decision | reflexivity].
    + by rewrite bool_decide_false.
  - by_decision.
  - by_decision.
  - reflexivity.
  - by_decision.
Defined.
