(* ===== verification/Filesystem.v ===== *)
(** * The storage directory and its failures

    What [tokio::fs] gives the daemon: the files of one directory, by name; a schedule that makes any
    operation fail (a failing write may leave a part of what it was given); and the
    clock, whose successive readings are arbitrary.  Operations are functions of this world that
    return a result and the world after, so that what a failure leaves behind is part of every
    statement.  A crash of the process is the failure of everything after some point. *)

From S2P Require Import Prelude RustStr.

(** [std::io::ErrorKind], as far as the program tells kinds apart: [NotFound] and [AlreadyExists] say
    what the directory holds; any other kind is a failure of the device. *)
Inductive failure := StorageFull | OtherIo.
#[export] Instance failure_eq_dec : EqDecision failure.
Proof. solve_decision. Defined.
Inductive ErrorKind := NotFound | AlreadyExists | Failed (f : failure).
#[export] Instance ErrorKind_eq_dec : EqDecision ErrorKind.
Proof. solve_decision. Defined.

Record fault := mkFault { fault_kind : failure; fault_written : nat }.

Abbreviation files_t := (gmap rstr (list Z)).
Record World := mkWorld {
  files : files_t;
  schedule : list (option fault);
  time : nat -> Z;
  reads : nat;
  offset : Z;
  sequence : Z }.

Definition set_files (w : World) (f : files_t) : World :=
  mkWorld f (schedule w) (time w) (reads w) (offset w) (sequence w).

(** ** Computations that fail and change a state *)

Definition M (S E A : Type) : Type := S -> result E A * S.
#[export] Instance M_ret S E : MRet (M S E) := fun A a s => (Ok a, s).
#[export] Instance M_bind S E : MBind (M S E) :=
  fun A B k m s => match m s with (Ok a, s') => k a s' | (Err e, s') => (Err e, s') end.

Definition fail {S E A : Type} (e : E) : M S E A := fun s => (Err e, s).
Definition map_err_m {S E F A} (f : E -> F) (m : M S E A) : M S F A :=
  fun s => let '(r, s') := m s in (map_err f r, s').
(** The result as a value: what a [match] on it starts from. *)
Definition attempt {S E F A} (m : M S E A) : M S F (result E A) := fun s => let '(r, s') := m s in (Ok r, s').

(** ** File operations *)

Abbreviation IO := (M World ErrorKind).

(** One operation: it fails as the schedule says, with a partial effect, or does [op]. *)
Definition faulty {A : Type} (partial : nat -> files_t -> files_t) (op : files_t -> result ErrorKind (A * files_t)) : IO A :=
  fun w =>
    let w0 := mkWorld (files w) (tail (schedule w)) (time w) (reads w) (offset w) (sequence w) in
    match head (schedule w) with
    | Some (Some f) => (Err (Failed (fault_kind f)), set_files w0 (partial (fault_written f) (files w)))
    | _ => match op (files w) with
           | Ok (a, fs) => (Ok a, set_files w0 fs)
           | Err e => (Err e, w0)
           end
    end.
Definition no_effect (n : nat) (fs : files_t) : files_t := fs.

(** [OpenOptions::new().write(true).create_new(true).open(p)]. *)
Definition create_new (p : rstr) : IO unit :=
  faulty no_effect (fun fs => match fs !! p with Some _ => Err AlreadyExists | None => Ok (tt, <[p := []]> fs) end).
(** [File::create(p)]. *)
Definition file_create (p : rstr) : IO unit := faulty no_effect (fun fs => Ok (tt, <[p := []]> fs)).
(** [file.write_all(bytes)] on a file just created or opened for appending. *)
Definition append (p : rstr) (bytes : list Z) : IO unit :=
  faulty (fun n fs => <[p := default [] (fs !! p) ++ take n bytes]> fs)
    (fun fs => Ok (tt, <[p := default [] (fs !! p) ++ bytes]> fs)).
(** [fs::rename(a, b)]. *)
Definition rename (a b : rstr) : IO unit :=
  faulty no_effect (fun fs => match fs !! a with Some c => Ok (tt, <[b := c]> (delete a fs)) | None => Err NotFound end).
(** [fs::remove_file(p)]. *)
Definition remove_file (p : rstr) : IO unit :=
  faulty no_effect (fun fs => match fs !! p with Some _ => Ok (tt, delete p fs) | None => Err NotFound end).
(** [fs::read(p)]. *)
Definition read_file (p : rstr) : IO (list Z) :=
  faulty no_effect (fun fs => match fs !! p with Some c => Ok (c, fs) | None => Err NotFound end).
(** Opening an existing file; [truncate] empties it. *)
Definition open_existing (p : rstr) (truncate : bool) : IO unit :=
  faulty no_effect (fun fs => match fs !! p with
                              | Some c => Ok (tt, if truncate then <[p := []]> fs else fs)
                              | None => Err NotFound end).
(** [OpenOptions::new().create(true).append(true).open(p)]. *)
Definition open_append (p : rstr) : IO unit :=
  faulty no_effect (fun fs => Ok (tt, <[p := default [] (fs !! p)]> fs)).

(** ** The clock ([lib/src/clock.rs]) *)

Definition local_now {E} : M World E Z :=
  fun w => (Ok (time w (reads w)), mkWorld (files w) (schedule w) (time w) (S (reads w)) (offset w) (sequence w)).
Definition get_offset {E} : M World E Z := fun w => (Ok (offset w), w).
Definition set_offset {E} (o : Z) : M World E unit :=
  fun w => (Ok tt, mkWorld (files w) (schedule w) (time w) (reads w) o (sequence w)).
Definition get_adjusted_now {E} : M World E Z := t ← local_now; o ← get_offset; mret (t + o)%Z.

(** ** What an operation can change *)

(** Files outside [X] stay as they are. *)
Definition touches {S E A : Type} (fs : S -> files_t) (X : gset rstr) (m : M S E A) : Prop :=
  forall s p, p ∉ X -> fs (m s).2 !! p = fs s !! p.
(** Files outside [X] that exist stay as they are; others may be created. *)
Definition keeps {S E A : Type} (fs : S -> files_t) (X : gset rstr) (m : M S E A) : Prop :=
  forall s p c, p ∉ X -> fs s !! p = Some c -> fs (m s).2 !! p = Some c.

Section footprint.
Context {S E : Type} (fs : S -> files_t).

Lemma touches_keeps {A : Type} X (m : M S E A) : touches fs X m -> keeps fs X m.
Proof. intros H s p c Hp Hc. by rewrite H. Qed.

Lemma touches_weaken {A : Type} X Y (m : M S E A) : X ⊆ Y -> touches fs X m -> touches fs Y m.
Proof. intros Hxy H s p Hp. apply H. set_solver. Qed.

Lemma keeps_weaken {A : Type} X Y (m : M S E A) : X ⊆ Y -> keeps fs X m -> keeps fs Y m.
Proof. intros Hxy H s p c Hp. apply H. set_solver. Qed.

Lemma touches_ret {A : Type} X (a : A) : touches (E := E) fs X (mret a).
Proof. done. Qed.

Lemma touches_fail {A : Type} X (e : E) : touches (A := A) fs X (fail e).
Proof. done. Qed.

Lemma touches_bind {A B : Type} X (m : M S E A) (k : A -> M S E B) :
  touches fs X m -> (forall a, touches fs X (k a)) -> touches fs X (m ≫= k).
Proof.
  intros Hm Hk s p Hp. unfold mbind, M_bind. specialize (Hm s p Hp).
  destruct (m s) as [[a|e] s']; cbn [snd] in *; [|done]. by rewrite Hk.
Qed.

Lemma keeps_bind {A B : Type} X (m : M S E A) (k : A -> M S E B) :
  keeps fs X m -> (forall a, keeps fs X (k a)) -> keeps fs X (m ≫= k).
Proof.
  intros Hm Hk s p c Hp Hc. unfold mbind, M_bind. specialize (Hm s p c Hp Hc).
  destruct (m s) as [[a|e] s']; cbn [snd] in *; [|done]. by apply Hk.
Qed.

Lemma touches_map_err {A F : Type} X (f : E -> F) (m : M S E A) : touches fs X m -> touches fs X (map_err_m f m).
Proof. intros H s p Hp. specialize (H s p Hp). unfold map_err_m. by destruct (m s). Qed.

Lemma keeps_map_err {A F : Type} X (f : E -> F) (m : M S E A) : keeps fs X m -> keeps fs X (map_err_m f m).
Proof. intros H s p c Hp Hc. specialize (H s p c Hp Hc). unfold map_err_m. by destruct (m s). Qed.

Lemma touches_attempt {A F : Type} X (m : M S E A) : touches fs X m -> touches fs X (attempt (F := F) m).
Proof. intros H s p Hp. specialize (H s p Hp). unfold attempt. by destruct (m s). Qed.

Lemma keeps_attempt {A F : Type} X (m : M S E A) : keeps fs X m -> keeps fs X (attempt (F := F) m).
Proof. intros H s p c Hp Hc. specialize (H s p c Hp Hc). unfold attempt. by destruct (m s). Qed.
End footprint.

Lemma touches_faulty {A : Type} (X : gset rstr) (partial : nat -> files_t -> files_t) (op : files_t -> result ErrorKind (A * files_t)) :
  (forall n fs p, p ∉ X -> partial n fs !! p = fs !! p) ->
  (forall fs a fs' p, op fs = Ok (a, fs') -> p ∉ X -> fs' !! p = fs !! p) ->
  touches files X (faulty partial op).
Proof.
  intros Hp Hop w p Hx. unfold faulty.
  destruct (head (schedule w)) as [[f|]|]; cbn [snd files set_files]; [by apply Hp|..];
    destruct (op (files w)) as [[a fs']|e] eqn:Ho; cbn [snd files set_files]; try done; by eapply Hop.
Qed.

Ltac file_touches :=
  apply touches_faulty; [intros n fs q Hq | intros fs [] fs' q Ho Hq; repeat case_match; simplify_eq];
  unfold no_effect; try done;
  repeat match goal with
  | |- <[?a := _]> _ !! ?p = _ => rewrite lookup_insert_ne by set_solver
  | |- delete ?a _ !! ?p = _ => rewrite lookup_delete_ne by set_solver
  end; try done.

Lemma file_create_touches p : touches files {[p]} (file_create p).
Proof. file_touches. Qed.
Lemma append_touches p bs : touches files {[p]} (append p bs).
Proof. file_touches. Qed.
Lemma rename_touches a b : touches files {[a; b]} (rename a b).
Proof. file_touches. Qed.
Lemma remove_file_touches p : touches files {[p]} (remove_file p).
Proof. file_touches. Qed.
Lemma create_new_touches p : touches files {[p]} (create_new p).
Proof. file_touches. Qed.
Lemma open_append_touches p : touches files {[p]} (open_append p).
Proof. file_touches. Qed.
Lemma open_existing_touches p t : touches files {[p]} (open_existing p t).
Proof. file_touches. Qed.
Lemma read_file_touches p : touches files ∅ (read_file p).
Proof. apply touches_faulty; [done|]. intros fs a fs' q Ho _. repeat case_match; by simplify_eq. Qed.

(** An exclusive creation never changes a file that exists. *)
Lemma create_new_keeps p : keeps files ∅ (create_new p).
Proof.
  intros w q c _ Hc. unfold create_new, faulty.
  destruct (head (schedule w)) as [[f|]|]; cbn [snd files set_files]; try done;
    destruct (files w !! p) eqn:Hp; cbn [snd files set_files]; try done;
    rewrite lookup_insert_ne; try done; congruence.
Qed.

(** What success means. *)
Lemma create_new_ok p w w' :
  create_new p w = (Ok tt, w') -> files w !! p = None /\ files w' = <[p := []]> (files w).
Proof.
  unfold create_new, faulty.
  destruct (head (schedule w)) as [[f|]|]; [done|..]; destruct (files w !! p) eqn:Hp; try done; intros [= <-]; done.
Qed.
Lemma file_create_ok p w w' : file_create p w = (Ok tt, w') -> files w' = <[p := []]> (files w).
Proof. unfold file_create, faulty. destruct (head (schedule w)) as [[f|]|]; [done|..]; by intros [= <-]. Qed.
Lemma append_ok p bs w w' :
  append p bs w = (Ok tt, w') -> files w' = <[p := default [] (files w !! p) ++ bs]> (files w).
Proof. unfold append, faulty. destruct (head (schedule w)) as [[f|]|]; [done|..]; by intros [= <-]. Qed.
Lemma rename_ok a b w w' :
  rename a b w = (Ok tt, w') -> exists c, files w !! a = Some c /\ files w' = <[b := c]> (delete a (files w)).
Proof.
  unfold rename, faulty. destruct (head (schedule w)) as [[f|]|]; [done|..];
    destruct (files w !! a) eqn:Ha; try done; intros [= <-]; eauto.
Qed.
Lemma rename_err a b w e w' : rename a b w = (Err e, w') -> files w' = files w.
Proof.
  unfold rename, faulty, no_effect. destruct (head (schedule w)) as [[f|]|]; [by intros [= <- <-]|..];
    destruct (files w !! a) eqn:Ha; try done; by intros [= <- <-].
Qed.
Lemma create_new_err p w e w' : create_new p w = (Err e, w') -> files w' = files w.
Proof.
  unfold create_new, faulty, no_effect. destruct (head (schedule w)) as [[f|]|]; [by intros [= <- <-]|..];
    destruct (files w !! p); try done; by intros [= <- <-].
Qed.
Lemma remove_file_spec p w :
  let '(r, w') := remove_file p w in
  match r with
  | Ok _ => files w' = delete p (files w)
  | Err NotFound => files w' = files w /\ files w !! p = None
  | Err _ => files w' = files w
  end.
Proof.
  unfold remove_file, faulty, no_effect. destruct (head (schedule w)) as [[f|]|]; cbn; [done|..];
    by destruct (files w !! p) eqn:Hp; cbn.
Qed.
Lemma read_file_files p w : files (read_file p w).2 = files w.
Proof.
  unfold read_file, faulty, no_effect. destruct (head (schedule w)) as [[f|]|]; cbn; [done|..];
    by destruct (files w !! p) eqn:Hp; cbn.
Qed.
Lemma read_file_missing p w : files w !! p = None -> exists e, (read_file p w).1 = Err e.
Proof.
  intros Hp. unfold read_file, faulty. destruct (head (schedule w)) as [[f|]|]; cbn; [by eexists|..];
    rewrite Hp; by eexists.
Qed.
