(* ===== verification/Sidecar.v ===== *)
(** * Recording metadata ([lib/src/recording_metadata.rs], [daemon/src/recording_metadata.rs])

    The sidecar of a recording: its file name, where it is looked for beside a capture, the copy
    made for other people, and how it is written when a recording closes.  The JSON encoding is
    [serde_json]'s: the arguments [to_vec] and [from_slice]; [/proc/uptime] is the text [uptime]. *)

From S2P Require Import Prelude RustStr Floats Filesystem.

Local Open Scope Z_scope.

Definition SIDECAR_VERSION : Z := 1.
Definition SIDECAR_SUFFIX : rstr := lit "-meta.json".

Record SoftwareInfo := mkSoftware { rayhunter_version : rstr; system_os : rstr; arch : rstr; kernel : option rstr }.
Record HardwareInfo := mkHardware {
  hw_device : rstr; model : option rstr; hardware_version : option rstr; soc : option rstr; firmware_build : option rstr }.
Record ClockInfo := mkClock {
  system_time_at_start : option Z;
  offset_seconds_at_start : Z;
  corrected_time_at_start : option Z;
  uptime_seconds_at_start : option f64;
  system_time_at_end : option Z;
  offset_seconds_at_end : option Z;
  uptime_seconds_at_end : option f64;
  offset_changed_during_recording : option bool }.
Record ResourceInfo := mkResources {
  storage_path : option rstr; disk_total_bytes : option Z; disk_available_bytes : option Z;
  memory_total_kb : option Z; memory_available_kb : option Z }.
Record WifiInfo := mkWifiInfo { client_enabled : bool; client_state : rstr; connected_network : option rstr }.

Record RecordingSidecar := mkSidecar {
  sidecar_version : Z;
  recording : rstr;
  software : SoftwareInfo;
  hardware : HardwareInfo;
  home_plmn : gset rstr;
  clock : ClockInfo;
  resources : ResourceInfo;
  wifi : option WifiInfo;
  redacted_fields : list rstr }.

Definition redacted (s : RecordingSidecar) : RecordingSidecar :=
  let removed := (if bool_decide (home_plmn s = ∅) then [] else [lit "home_plmn"])
              ++ (match wifi s with Some _ => [lit "wifi"] | None => [] end) in
  mkSidecar (sidecar_version s) (recording s) (software s) (hardware s) ∅ (clock s) (resources s) None
    (redacted_fields s ++ removed).

Definition sidecar_filename (entry_name : rstr) : rstr := entry_name ++ SIDECAR_SUFFIX.

(** The name of the sidecar beside a capture of this name, in the same directory. *)
Fixpoint first_suffix (exts : list rstr) (s : rstr) : option rstr :=
  match exts with
  | [] => None
  | e :: exts => match strip_suffix e s with Some r => Some r | None => first_suffix exts s end
  end.
Definition sidecar_name_beside (file_name : rstr) : option rstr :=
  let stem := default file_name (strip_suffix (lit ".gz") file_name) in
  stem ← first_suffix [lit ".qmdl"; lit ".pcapng"; lit ".pcap"] stem;
  if bool_decide (stem = []) then None else Some (sidecar_filename stem).

(** ** On the device *)

(** The first field of [/proc/uptime]. *)
Definition uptime_seconds (uptime : option rstr) : option f64 :=
  text ← uptime; field ← head (split_whitespace text); parse_f64 field.

Definition finish_clock (c : ClockInfo) (now offset : Z) (up : option f64) : ClockInfo :=
  mkClock (system_time_at_start c) (offset_seconds_at_start c) (corrected_time_at_start c) (uptime_seconds_at_start c)
    (Some now) (Some offset) up (Some (negb (offset =? offset_seconds_at_start c))).
Definition set_clock (s : RecordingSidecar) (c : ClockInfo) : RecordingSidecar :=
  mkSidecar (sidecar_version s) (recording s) (software s) (hardware s) (home_plmn s) c (resources s) (wifi s) (redacted_fields s).

Section device.
Context (to_vec : RecordingSidecar -> result ErrorKind (list Z)) (from_slice : list Z -> option RecordingSidecar)
  (uptime : option rstr).

Definition tmp_name (p : rstr) : rstr := p ++ lit ".tmp".

(** [fs::write] creates or truncates, then writes. *)
Definition sidecar_write (p : rstr) (s : RecordingSidecar) : IO unit :=
  match to_vec s with
  | Err e => fail e
  | Ok json =>
      file_create (tmp_name p) ≫= fun _ =>
      append (tmp_name p) json ≫= fun _ =>
      rename (tmp_name p) p
  end.

Definition sidecar_read (p : rstr) : IO (option RecordingSidecar) :=
  r ← attempt (read_file p);
  mret (match r with Ok bytes => from_slice bytes | Err _ => None end).

Definition finish (p : rstr) : IO unit :=
  s ← sidecar_read p;
  match s with
  | None => mret tt
  | Some sidecar =>
      o ← get_offset;
      now ← local_now;
      sidecar_write p (set_clock sidecar (finish_clock (clock sidecar) now (Z.quot o (10 ^ 9)) (uptime_seconds uptime)))
  end.

(** Closing a sidecar changes it and its temporary file, nothing else. *)
Lemma sidecar_write_touches p s : touches files {[p; tmp_name p]} (sidecar_write p s).
Proof.
  unfold sidecar_write. destruct (to_vec s) as [json|e]; [|apply touches_fail].
  apply touches_bind; [eapply touches_weaken; [|apply file_create_touches]; set_solver|]. intros _.
  apply touches_bind; [eapply touches_weaken; [|apply append_touches]; set_solver|]. intros _.
  eapply touches_weaken; [|apply rename_touches]. set_solver.
Qed.

Lemma finish_touches p : touches files {[p; tmp_name p]} (finish p).
Proof.
  unfold finish. apply touches_bind.
  - unfold sidecar_read. apply touches_bind; [|intros; apply touches_ret].
    apply touches_attempt. eapply touches_weaken; [|apply read_file_touches]. set_solver.
  - intros [s|]; [|apply touches_ret]. apply touches_bind; [done|]. intros o.
    apply touches_bind; [done|]. intros now. apply sidecar_write_touches.
Qed.
End device.
