(* ===== verification/Store.v ===== *)
(** * The recording store ([daemon/src/qmdl_store.rs])

    The manifest of recordings, the files they own and every operation that changes either, over
    the failing file operations of [Filesystem].  File names are relative to the store's
    directory.  The TOML encoding of the manifest is [toml]'s: the arguments [to_toml] and
    [from_toml]; [runtime] is what [RuntimeMetadata::new] reads from the running system. *)

From S2P Require Import Prelude RustStr Filesystem Sidecar.

Local Open Scope Z_scope.

Inductive FileKind := Kind_Qmdl | Kind_Analysis | Kind_Gps | Kind_Meta.
#[export] Instance FileKind_eq_dec : EqDecision FileKind.
Proof. solve_decision. Defined.
Definition ALL : list FileKind := [Kind_Qmdl; Kind_Analysis; Kind_Gps; Kind_Meta].

Definition get_filename (k : FileKind) (entry_name : rstr) (qmdl_compressed : bool) : rstr :=
  match k with
  | Kind_Qmdl => if qmdl_compressed then entry_name ++ lit ".qmdl.gz" else entry_name ++ lit ".qmdl"
  | Kind_Analysis => entry_name ++ lit ".ndjson"
  | Kind_Gps => entry_name ++ lit "-gps.ndjson"
  | Kind_Meta => sidecar_filename entry_name
  end.

Inductive GpsMode := Gps_Disabled | Gps_Fixed | Gps_Api.
#[export] Instance GpsMode_eq_dec : EqDecision GpsMode.
Proof. solve_decision. Defined.

Record ManifestEntry := mkManifestEntry {
  name : rstr;
  start_time : Z;
  last_message_time : option Z;
  qmdl_size_bytes : Z;
  entry_version : option rstr;
  entry_os : option rstr;
  entry_arch : option rstr;
  stop_reason : option rstr;
  upload_time : option Z;
  gps_mode : option GpsMode;
  compressed : bool;
  display_name : option rstr;
  notes : option rstr }.
#[export] Instance ManifestEntry_eq_dec : EqDecision ManifestEntry.
Proof. solve_decision. Defined.

Abbreviation Manifest := (list ManifestEntry).
Record RecordingStore := mkStore { entries : Manifest; current_entry : option nat }.

Definition file_of (e : ManifestEntry) (k : FileKind) : rstr := get_filename k (name e) (compressed e).

Definition MAX_DISPLAY_NAME : nat := 29.
Definition MAX_NOTES : nat := 2000.

Definition sanitize_display_name (s : rstr) : rstr :=
  let cleaned := take MAX_DISPLAY_NAME
    (map (fun c => if is_ascii_alphanumeric c || (c =? 45) || (c =? 95) then c else 95) s) in
  let trimmed := trim_matches 95 cleaned in
  match trimmed with [] => [] | _ => trimmed end.

Inductive RecordingStoreError :=
| NoCurrentEntry
| NoSuchEntryError
| CreateFileError (e : ErrorKind)
| ReadFileError (e : ErrorKind)
| WriteFileError (e : ErrorKind)
| DeleteFileError (e : ErrorKind)
| OpenDirError (e : ErrorKind)
| ReadManifestError (e : ErrorKind)
| WriteManifestError (e : ErrorKind)
| ParseManifestError
| InsufficientDiskSpace (available required : Z)
| GpsStorageNotFound
| SerializationError.

(** ** The state an operation runs on *)

Record Sys := mkSys { store : RecordingStore; world : World }.
Definition sys_files (s : Sys) : files_t := files (world s).
Abbreviation Op := (M Sys RecordingStoreError).

Definition io {A : Type} (f : ErrorKind -> RecordingStoreError) (m : IO A) : Op A :=
  fun s => let '(r, w) := m (world s) in (map_err f r, mkSys (store s) w).
(** File operations whose failure the code looks at. *)
Definition io_attempt {A : Type} (m : IO A) : Op (result ErrorKind A) :=
  fun s => let '(r, w) := m (world s) in (Ok r, mkSys (store s) w).
Definition get_store : Op RecordingStore := fun s => (Ok (store s), s).
Definition put_store (st : RecordingStore) : Op unit := fun s => (Ok tt, mkSys st (world s)).
Definition adjusted_now : Op Z := io CreateFileError get_adjusted_now.

Definition set_current (c : option nat) (st : RecordingStore) : RecordingStore := mkStore (entries st) c.
Definition set_entries (es : Manifest) (st : RecordingStore) : RecordingStore := mkStore es (current_entry st).

Definition position (n : rstr) (es : Manifest) : option nat := fst <$> list_find (fun e => name e = n) es.

Definition manifest_name : rstr := lit "manifest.toml".
Definition manifest_tmp : rstr := lit "manifest.toml.new".

(** [filter_map(..).max_by_key(age)]: the last of the greatest. *)
Fixpoint max_by_age (l : list (rstr * Z)) : option (rstr * Z) :=
  match l with
  | [] => None
  | x :: l => match max_by_age l with
              | Some y => if x.2 <=? y.2 then Some y else Some x
              | None => Some x
              end
  end.

Definition is_current_entry (st : RecordingStore) (n : rstr) : bool :=
  match current_entry st with
  | Some idx => match entries st !! idx with Some e => bool_decide (name e = n) | None => false end
  | None => false
  end.

Definition get_next_unuploaded_entry (st : RecordingStore) (now min_age : Z) : option rstr :=
  fst <$> max_by_age (omap (fun e =>
    if is_current_entry st (name e) || bool_decide (is_Some (upload_time e)) then None
    else let age := now - default (start_time e) (last_message_time e) in
         if min_age <? age then Some (name e, age) else None) (entries st)).

Definition entry_for_name (st : RecordingStore) (n : rstr) : option (nat * ManifestEntry) :=
  idx ← position n (entries st); e ← entries st !! idx; Some (idx, e).
Definition get_current_entry (st : RecordingStore) : option (nat * ManifestEntry) :=
  idx ← current_entry st; e ← entries st !! idx; Some (idx, e).

Section operations.
Context (to_toml : Manifest -> list Z) (from_toml : list Z -> option Manifest)
  (to_vec : RecordingSidecar -> result ErrorKind (list Z)) (from_slice : list Z -> option RecordingSidecar)
  (uptime : option rstr) (runtime : rstr * rstr * rstr).

Definition write_manifest : Op unit :=
  st ← get_store;
  io WriteManifestError (file_create manifest_tmp) ;;
  io WriteManifestError (append manifest_tmp (to_toml (entries st))) ;;
  io WriteManifestError (rename manifest_tmp manifest_name).

(** [ManifestEntry::new]: the clock, then the process's sequence number. *)
Definition claim_entry (mode : GpsMode) (now : Z) : Op ManifestEntry := fun s =>
  let w := world s in
  let seq := sequence w in
  let w' := mkWorld (files w) (schedule w) (time w) (reads w) (offset w) (wrapu 64 (seq + 1)) in
  let '(version, os, arch) := runtime in
  (Ok (mkManifestEntry (dec (now / 10 ^ 9) ++ lit "-" ++ dec seq) now None 0 (Some version) (Some os) (Some arch)
         None None (Some mode) true None None), mkSys (store s) w').
Definition new_manifest_entry (mode : GpsMode) : Op ManifestEntry := now ← adjusted_now; claim_entry mode now.

Definition close_current_entry : Op unit :=
  st ← get_store;
  match current_entry st with
  | None => fail NoCurrentEntry
  | Some idx =>
      put_store (set_current None st) ;;
      match entries st !! idx with
      | None => mret tt
      | Some e => _ ← io_attempt (finish to_vec from_slice uptime (file_of e Kind_Meta)); mret tt
      end
  end.

Definition MAX_ATTEMPTS : nat := 1024.

(** The loop of attempts; [last] is the last collision. *)
Fixpoint new_entry_loop (attempts : nat) (mode : GpsMode) (last : option ErrorKind) : Op unit :=
  match attempts with
  | O => fail (CreateFileError (default AlreadyExists last))
  | S attempts =>
      e ← new_manifest_entry mode;
      r ← io_attempt (create_new (file_of e Kind_Qmdl));
      match r with
      | Err AlreadyExists => new_entry_loop attempts mode (Some AlreadyExists)
      | Err k => fail (CreateFileError k)
      | Ok _ =>
          io CreateFileError (create_new (file_of e Kind_Analysis)) ;;
          io CreateFileError (create_new (file_of e Kind_Gps)) ;;
          st ← get_store;
          put_store (mkStore (entries st ++ [e]) (Some (length (entries st)))) ;;
          write_manifest
      end
  end.

Definition new_entry (mode : GpsMode) : Op unit :=
  st ← get_store;
  (if bool_decide (is_Some (current_entry st)) then close_current_entry else mret tt) ;;
  new_entry_loop MAX_ATTEMPTS mode None.

(** [&mut self.manifest.entries[idx]] and the change; the index is in range wherever it is used. *)
Definition alter_entry (idx : nat) (f : ManifestEntry -> ManifestEntry) : Op unit :=
  st ← get_store; put_store (set_entries (alter f idx (entries st)) st).

Definition set_size (size now : Z) (e : ManifestEntry) : ManifestEntry :=
  mkManifestEntry (name e) (start_time e) (Some now) size (entry_version e) (entry_os e) (entry_arch e)
    (stop_reason e) (upload_time e) (gps_mode e) (compressed e) (display_name e) (notes e).
Definition set_stop (reason : rstr) (e : ManifestEntry) : ManifestEntry :=
  mkManifestEntry (name e) (start_time e) (last_message_time e) (qmdl_size_bytes e) (entry_version e) (entry_os e) (entry_arch e)
    (Some reason) (upload_time e) (gps_mode e) (compressed e) (display_name e) (notes e).
Definition set_annotations (d n : option rstr) (e : ManifestEntry) : ManifestEntry :=
  mkManifestEntry (name e) (start_time e) (last_message_time e) (qmdl_size_bytes e) (entry_version e) (entry_os e) (entry_arch e)
    (stop_reason e) (upload_time e) (gps_mode e) (compressed e) d n.
Definition set_uploaded (t : Z) (e : ManifestEntry) : ManifestEntry :=
  mkManifestEntry (name e) (start_time e) (last_message_time e) (qmdl_size_bytes e) (entry_version e) (entry_os e) (entry_arch e)
    (stop_reason e) (Some t) (gps_mode e) (compressed e) (display_name e) (notes e).

Definition update_current_entry_qmdl_size (size : Z) : Op unit :=
  st ← get_store;
  match current_entry st with
  | None => fail NoCurrentEntry
  | Some idx => now ← adjusted_now; alter_entry idx (set_size size now) ;; write_manifest
  end.

Definition set_current_stop_reason (reason : rstr) : Op unit :=
  st ← get_store;
  match current_entry st with
  | Some idx => alter_entry idx (set_stop reason) ;; write_manifest
  | None => mret tt
  end.

Definition find_entry (n : rstr) : Op nat :=
  st ← get_store; match position n (entries st) with Some i => mret i | None => fail NoSuchEntryError end.

Definition set_entry_annotations (n : rstr) (d nt : option rstr) : Op unit :=
  idx ← find_entry n; alter_entry idx (set_annotations d nt) ;; write_manifest.
Definition mark_entry_as_uploaded (n : rstr) (t : Z) : Op unit :=
  idx ← find_entry n; alter_entry idx (set_uploaded t) ;; write_manifest.

Definition remove_file_if_exists (p : rstr) : IO unit :=
  r ← attempt (remove_file p);
  match r with Ok _ => mret tt | Err NotFound => mret tt | Err e => fail e end.

(** [for &file_kind in FileKind::ALL]. *)
Fixpoint remove_kinds (kinds : list FileKind) (e : ManifestEntry) : IO unit :=
  match kinds with
  | [] => mret tt
  | k :: kinds => remove_file_if_exists (file_of e k) ;; remove_kinds kinds e
  end.

Definition delete_entry (n : rstr) : Op unit :=
  idx ← find_entry n;
  st ← get_store;
  match entries st !! idx with
  | None => mret tt
  | Some e =>
      io DeleteFileError (remove_kinds ALL e) ;;
      (match current_entry st with
       | Some c => if (c =? idx)%nat then close_current_entry
                   else if (idx <? c)%nat then put_store (set_current (Some (c - 1)%nat) st)
                   else mret tt
       | None => mret tt
       end) ;;
      st ← get_store;
      put_store (set_entries (delete idx (entries st)) st) ;;
      write_manifest
  end.

(** The labelled loop: which entries are kept because a file would not go. *)
Fixpoint delete_files (es : Manifest) : Op Manifest :=
  match es with
  | [] => mret []
  | e :: es =>
      r ← io_attempt (remove_kinds ALL e);
      kept ← delete_files es;
      mret (match r with Ok _ => kept | Err _ => e :: kept end)
  end.

Definition delete_all_entries : Op unit :=
  st ← get_store;
  (if bool_decide (is_Some (current_entry st)) then close_current_entry else mret tt) ;;
  st ← get_store;
  kept ← delete_files (entries st);
  put_store (set_entries kept st) ;;
  write_manifest.
(** ** Opening a store *)

Abbreviation Open := (M World RecordingStoreError).

Definition with_store (st : RecordingStore) (op : Op unit) : Open RecordingStore := fun w =>
  match op (mkSys st w) with
  | (Ok _, s) => (Ok (store s), world s)
  | (Err e, s) => (Err e, world s)
  end.

Definition read_manifest : Open Manifest :=
  contents ← map_err_m ReadManifestError (read_file manifest_name);
  match from_toml contents with Some m => mret m | None => fail ParseManifestError end.

Definition load : Open RecordingStore := m ← read_manifest; mret (mkStore m None).

(** What touches the directory itself ([create_dir_all], [read_dir], [next_entry], [try_exists]): it
    can fail, and changes none of the files. *)
Definition dir_op : IO unit := faulty no_effect (fun fs => Ok (tt, fs)).

Definition create : Open RecordingStore :=
  map_err_m OpenDirError dir_op ;; with_store (mkStore [] None) write_manifest.

(** Seconds [DateTime::from_timestamp] accepts. *)
Definition timestamp_ok (secs : Z) : bool := (-8334601228800 <=? secs) && (secs <=? 8210266876799).

(** The size of a file, as [metadata] gives it. *)
Definition file_size (p : rstr) : IO Z :=
  faulty no_effect (fun fs => match fs !! p with Some c => Ok (Z.of_nat (length c), fs) | None => Err NotFound end).

(** What the name of a file says, before its metadata is read. *)
Definition recording_stem (filename : rstr) : option (rstr * bool) :=
  if ends_with filename (lit ".qmdl") then Some (trim_end_matches (lit ".qmdl") filename, false)
  else if ends_with filename (lit ".qmdl.gz") then Some (trim_end_matches (lit ".qmdl.gz") filename, true)
  else None.
Definition stem_seconds (stem : rstr) : option Z := parse_i64 (default stem (head (split_on 45 stem))).

Definition recovered_entry (stem : rstr) (compressed : bool) (secs modified size : Z) : ManifestEntry :=
  mkManifestEntry stem (secs * 10 ^ 9) (Some modified) size None None None None None None compressed None None.

Definition recover_file (modified : rstr -> option Z) (filename : rstr) : IO (option ManifestEntry) :=
  match recording_stem filename with
  | None => mret None
  | Some (stem, c) =>
      match stem_seconds stem with
      | None => mret None
      | Some secs =>
          r ← attempt (file_size filename);
          mret (match r with
                | Err _ => None
                | Ok size => if timestamp_ok secs
                             then m ← modified filename; Some (recovered_entry stem c secs m size)
                             else None
                end)
      end
  end.

(** [next_entry], then the file; [listing] is the order the directory is listed in. *)
Fixpoint recover_files (modified : rstr -> option Z) (listing : list rstr) : IO Manifest :=
  match listing with
  | [] => dir_op ;; mret []
  | f :: listing =>
      dir_op ;;
      e ← recover_file modified f;
      es ← recover_files modified listing;
      mret (option_list e ++ es)
  end.

(** [sort_by_key(|a| a.start_time)]: stable. *)
Fixpoint insert_by_start (e : ManifestEntry) (l : Manifest) : Manifest :=
  match l with
  | [] => [e]
  | x :: l' => if start_time e <=? start_time x then e :: l else x :: insert_by_start e l'
  end.
Definition sort_by_start (l : Manifest) : Manifest := foldr insert_by_start [] l.

Definition recover (modified : rstr -> option Z) (listing : list rstr) : Open RecordingStore :=
  map_err_m OpenDirError dir_op ;;
  es ← map_err_m OpenDirError (recover_files modified listing);
  with_store (mkStore (sort_by_start es) None) write_manifest.

Definition try_exists (p : rstr) : IO bool := faulty no_effect (fun fs => Ok (bool_decide (is_Some (fs !! p)), fs)).

(** [dir_exists] is what the first test finds. *)
Definition open_or_recover (dir_exists : bool) (modified : rstr -> option Z) (listing : list rstr) : Open RecordingStore :=
  map_err_m OpenDirError dir_op ;;
  manifest_exists ← (if dir_exists then map_err_m ReadManifestError (try_exists manifest_name) else mret false);
  if (manifest_exists : bool) then
    r ← attempt load;
    match r with
    | Ok st => mret st
    | Err ParseManifestError => recover modified listing
    | Err e => fail e
    end
  else if dir_exists then recover modified listing
  else create.

(** ** Opening the files of an entry *)

Definition open_file (st : RecordingStore) (idx : nat) (k : FileKind) : Open (option rstr) :=
  match entries st !! idx with
  | None => mret None
  | Some e =>
      r ← attempt (open_existing (file_of e k) false);
      match r with
      | Ok _ => mret (Some (file_of e k))
      | Err NotFound => mret None
      | Err err => fail (ReadFileError err)
      end
  end.

Definition open_entry_gps_for_append (st : RecordingStore) (idx : nat) : Open (option rstr) :=
  match entries st !! idx with
  | None => mret None
  | Some e =>
      r ← attempt (open_append (file_of e Kind_Gps));
      match r with
      | Ok _ => mret (Some (file_of e Kind_Gps))
      | Err NotFound => mret None
      | Err err => fail (CreateFileError err)
      end
  end.

Definition clear_and_open_entry_analysis (st : RecordingStore) (idx : nat) : Open unit :=
  match entries st !! idx with
  | None => mret tt
  | Some e => map_err_m ReadFileError (open_existing (file_of e Kind_Analysis) true)
  end.
End operations.

(** ** File names *)


(** Two endings, neither of which ends the other. *)
Definition endings_differ (a b : rstr) : bool :=
  match strip_suffix a b, strip_suffix b a with None, None => true | _, _ => false end.

Lemma endings_ne x y a b : endings_differ a b = true -> x ++ a <> y ++ b.
Proof.
  unfold endings_differ. intros Hd H. apply app_eq_inv in H as [(k & _ & ->) | (k & _ & ->)].
  - by rewrite strip_suffix_app in Hd.
  - rewrite (strip_suffix_app k b) in Hd. by destruct (strip_suffix (k ++ b) b).
Qed.

Definition ending (k : FileKind) (c : bool) : rstr := get_filename k [] c.
Lemma file_of_ending e k : file_of e k = name e ++ ending k (compressed e).
Proof. unfold file_of. by destruct k, (compressed e). Qed.

Ltac names_differ :=
  rewrite ?file_of_ending; unfold tmp_name; rewrite <- ?(app_assoc (name _));
  repeat match goal with |- context [compressed ?e] => destruct (compressed e) end;
  first [ apply endings_ne; vm_compute; reflexivity
        | apply (endings_ne _ []); vm_compute; reflexivity
        | apply not_eq_sym, (endings_ne _ []); vm_compute; reflexivity
        | intros Hne%app_inv_head; vm_compute in Hne; discriminate Hne ].

Lemma file_of_manifest e k : file_of e k <> manifest_name /\ file_of e k <> manifest_tmp.
Proof. split; destruct k; names_differ. Qed.
Lemma tmp_manifest e : tmp_name (file_of e Kind_Meta) <> manifest_name /\ tmp_name (file_of e Kind_Meta) <> manifest_tmp.
Proof. split; names_differ. Qed.

Definition manifest_files : gset rstr := {[manifest_name; manifest_tmp]}.
Definition meta_files (e : ManifestEntry) : gset rstr := {[file_of e Kind_Meta; tmp_name (file_of e Kind_Meta)]}.

(** A capture is named as one. *)
Definition is_capture (p : rstr) : Prop := exists n c, p = n ++ ending Kind_Qmdl c.

Lemma capture_not_manifest p : is_capture p -> p ∉ manifest_files.
Proof.
  intros (n & c & ->). unfold manifest_files. rewrite elem_of_union, !elem_of_singleton.
  intros [H|H]; revert H; destruct c; first [apply (endings_ne _ []); vm_compute; reflexivity].
Qed.
Lemma capture_not_meta p e : is_capture p -> p ∉ meta_files e.
Proof.
  intros (n & c & ->). unfold meta_files. rewrite elem_of_union, !elem_of_singleton, file_of_ending. unfold tmp_name.
  rewrite <- app_assoc. intros [H|H]; revert H; destruct c, (compressed e); apply endings_ne; vm_compute; reflexivity.
Qed.
Lemma capture_of e : is_capture (file_of e Kind_Qmdl).
Proof. rewrite file_of_ending. by exists (name e), (compressed e). Qed.

(** ** Footprints of the operations *)

Lemma io_touches {A : Type} f X (m : IO A) : touches files X m -> touches sys_files X (io f m).
Proof. intros H s p Hp. specialize (H (world s) p Hp). unfold io, sys_files. by destruct (m (world s)). Qed.
Lemma io_attempt_touches {A : Type} X (m : IO A) : touches files X m -> touches sys_files X (io_attempt m).
Proof. intros H s p Hp. specialize (H (world s) p Hp). unfold io_attempt, sys_files. by destruct (m (world s)). Qed.
Lemma put_store_touches X st : touches sys_files X (put_store st).
Proof. done. Qed.
Lemma alter_entry_touches X idx f : touches sys_files X (alter_entry idx f).
Proof. done. Qed.
Lemma find_entry_touches X n : touches sys_files X (find_entry n).
Proof. intros s p _. unfold find_entry, mbind, M_bind, get_store. by destruct (position _ _). Qed.
Lemma find_entry_ok n s i s' : find_entry n s = (Ok i, s') -> position n (entries (store s)) = Some i /\ s' = s.
Proof. unfold find_entry, mbind, M_bind, get_store. destruct (position _ _); [by intros [= <- <-] | done]. Qed.
Lemma get_store_bind {A : Type} (k : RecordingStore -> Op A) s : (get_store ≫= k) s = k (store s) s.
Proof. done. Qed.

(** A run that goes on, and one that stops. *)
Lemma bind_ok {S E A B : Type} (m : M S E A) (k : A -> M S E B) s a s' : m s = (Ok a, s') -> (m ≫= k) s = k a s'.
Proof. unfold mbind, M_bind. by intros ->. Qed.
Lemma bind_err {S E A B : Type} (m : M S E A) (k : A -> M S E B) s e s' : m s = (Err e, s') -> (m ≫= k) s = (Err e, s').
Proof. unfold mbind, M_bind. by intros ->. Qed.
Lemma bind_Ok_inv {S E A B : Type} (m : M S E A) (k : A -> M S E B) s b s' :
  (m ≫= k) s = (Ok b, s') -> exists a s1, m s = (Ok a, s1) /\ k a s1 = (Ok b, s').
Proof. unfold mbind, M_bind. destruct (m s) as [[a|e] s1]; [eauto | done]. Qed.
Lemma io_ok {A : Type} f (m : IO A) s a s' :
  io f m s = (Ok a, s') -> exists w', m (world s) = (Ok a, w') /\ s' = mkSys (store s) w'.
Proof. unfold io. destruct (m (world s)) as [[x|e] w']; [intros [= <- <-]; eauto | done]. Qed.
Lemma io_store {A : Type} f (m : IO A) s : store (io f m s).2 = store s.
Proof. unfold io. by destruct (m (world s)). Qed.

Lemma remove_file_if_exists_touches p : touches files {[p]} (remove_file_if_exists p).
Proof.
  apply touches_bind; [apply touches_attempt, remove_file_touches|]. by intros [[]|[]].
Qed.

(** The files an entry owns. *)
Definition entry_files (e : ManifestEntry) : gset rstr := list_to_set (map (file_of e) ALL).

Lemma remove_kinds_touches kinds e : touches files (list_to_set (map (file_of e) kinds)) (remove_kinds kinds e).
Proof.
  induction kinds as [|k kinds IH]; cbn [remove_kinds map list_to_set]; [apply touches_ret|].
  apply touches_bind; [|intros _]; eapply touches_weaken; [|apply remove_file_if_exists_touches| |apply IH]; set_solver.
Qed.

Lemma remove_if_exists_ok p w w' :
  remove_file_if_exists p w = (Ok tt, w') -> files w' = delete p (files w).
Proof.
  unfold remove_file_if_exists, attempt, mbind, M_bind. pose proof (remove_file_spec p w) as H.
  destruct (remove_file p w) as [[[]|[| |f]] w1]; cbn; try done; intros [= <-]; [done|].
  destruct H as [-> Hn]. by rewrite delete_id.
Qed.

(** Removing only removes, and removes everything when it succeeds. *)
Lemma remove_kinds_ok kinds e w w' k :
  remove_kinds kinds e w = (Ok tt, w') -> k ∈ kinds -> files w' !! file_of e k = None.
Proof.
  revert w k. induction kinds as [|k0 kinds IH]; intros w k H Hk; [set_solver|]. cbn [remove_kinds] in H.
  apply bind_Ok_inv in H as ([] & w1 & H1 & H2). apply elem_of_cons in Hk as [->|Hk]; [|by eapply IH].
  apply remove_if_exists_ok in H1.
  destruct (decide (file_of e k0 ∈ map (file_of e) kinds)) as [Hin|Hni].
  - apply list_elem_of_fmap in Hin as (k1 & Heq & Hin). rewrite Heq. by eapply IH.
  - pose proof (remove_kinds_touches kinds e w1 (file_of e k0)) as Ht. rewrite H2 in Ht.
    cbn [snd] in Ht. rewrite Ht, H1; [apply lookup_delete_eq|]. by rewrite elem_of_list_to_set.
Qed.

Lemma remove_kinds_removes kinds e w p c : files (remove_kinds kinds e w).2 !! p = Some c -> files w !! p = Some c.
Proof.
  revert w. induction kinds as [|k0 kinds IH]; intros w; cbn [remove_kinds]; [done|].
  unfold mbind, M_bind. assert (Hone : forall q, files (remove_file_if_exists (file_of e k0) w).2 !! p = Some q -> files w !! p = Some q).
  { intros q. unfold remove_file_if_exists, attempt, mbind, M_bind. pose proof (remove_file_spec (file_of e k0) w) as H.
    destruct (remove_file (file_of e k0) w) as [[[]|[| |f]] w1]; cbn.
    - rewrite H. by intros [_ ?]%lookup_delete_Some.
    - by destruct H as [-> _].
    - by rewrite H.
    - by rewrite H. }
  destruct (remove_file_if_exists (file_of e k0) w) as [[[]|err] w1]; cbn [snd] in *; [|apply Hone].
  intros H. by apply Hone, IH.
Qed.

Section proofs.
Context (to_toml : Manifest -> list Z) (from_toml : list Z -> option Manifest)
  (to_vec : RecordingSidecar -> result ErrorKind (list Z)) (from_slice : list Z -> option RecordingSidecar)
  (uptime : option rstr) (runtime : rstr * rstr * rstr).
Abbreviation write_manifest := (write_manifest to_toml).
Abbreviation close_current_entry := (close_current_entry to_vec from_slice uptime).
Abbreviation new_entry_loop := (new_entry_loop to_toml runtime).

Lemma write_manifest_touches : touches sys_files manifest_files write_manifest.
Proof.
  unfold write_manifest. apply touches_bind; [done|]. intros st.
  apply touches_bind; [|intros _; apply touches_bind; [|intros _]]; apply io_touches; (eapply touches_weaken;
    [|first [apply file_create_touches | apply append_touches | apply rename_touches]]); unfold manifest_files; set_solver.
Qed.

Lemma write_manifest_store s : store (write_manifest s).2 = store s.
Proof.
  unfold write_manifest. rewrite get_store_bind. unfold mbind, M_bind, io.
  destruct (file_create _ _) as [[[]|e1] w1]; cbn; [|done].
  destruct (append _ _ _) as [[[]|e2] w2]; cbn; [|done]. by destruct (rename _ _ _) as [[[]|e3] w3].
Qed.

(** The manifest on disk is the whole new one or the old one, never a part. *)
Lemma write_manifest_atomic s :
  let '(r, s') := write_manifest s in
  match r with
  | Ok _ => sys_files s' !! manifest_name = Some (to_toml (entries (store s)))
  | Err _ => sys_files s' !! manifest_name = sys_files s !! manifest_name
  end.
Proof.
  unfold write_manifest. rewrite get_store_bind. unfold mbind, M_bind, io, sys_files.
  assert (Hne : manifest_name ∉ ({[manifest_tmp]} : gset rstr)).
  { rewrite elem_of_singleton. intros H. vm_compute in H. discriminate H. }
  pose proof (file_create_touches manifest_tmp (world s) manifest_name Hne) as H1.
  destruct (file_create manifest_tmp (world s)) as [[[]|e1] w1] eqn:E1; cbn in *; [|done].
  pose proof (append_touches manifest_tmp (to_toml (entries (store s))) w1 manifest_name Hne) as H2.
  destruct (append _ _ w1) as [[[]|e2] w2] eqn:E2; cbn in *; [|by rewrite H2].
  destruct (rename _ _ w2) as [[[]|e3] w3] eqn:E3; cbn in *.
  - apply rename_ok in E3 as (c & Hc & ->). rewrite lookup_insert_eq.
    apply file_create_ok in E1. apply append_ok in E2. rewrite E2, E1, !lookup_insert_eq in Hc. by injection Hc as <-.
  - apply rename_err in E3. by rewrite E3, H2.
Qed.

Lemma close_store s :
  store (close_current_entry s).2 = set_current None (store s).
Proof.
  unfold close_current_entry. rewrite get_store_bind. destruct (store s) as [es [idx|]] eqn:Hs; cbn [current_entry entries].
  - unfold mbind, M_bind, put_store, io_attempt. cbn. destruct (es !! idx); cbn; [|done]. by destruct (finish _ _ _ _ _).
  - cbn. by rewrite Hs.
Qed.

Lemma close_touches s p :
  (forall idx e, get_current_entry (store s) = Some (idx, e) -> p ∉ meta_files e) ->
  sys_files (close_current_entry s).2 !! p = sys_files s !! p.
Proof.
  intros Hp. unfold close_current_entry. rewrite get_store_bind. unfold get_current_entry in Hp.
  destruct (current_entry (store s)) as [idx|]; [|done]. cbn [mbind option_bind] in Hp.
  unfold mbind at 1, M_bind at 1, put_store. cbn [store world].
  destruct (entries (store s) !! idx) as [e|]; [|done].
  unfold mbind, M_bind, io_attempt, sys_files. cbn [store world].
  pose proof (finish_touches to_vec from_slice uptime (file_of e Kind_Meta) (world s) p (Hp idx e eq_refl)) as H.
  destruct (finish _ _ _ _ _) as [r w1]. exact H.
Qed.

Lemma close_ok s s' : close_current_entry s = (Ok tt, s') -> is_Some (current_entry (store s)).
Proof. unfold close_current_entry. rewrite get_store_bind. destruct (current_entry (store s)); [by eexists | done]. Qed.

(** A sidecar that is not there is not made. *)
Lemma finish_missing p w : files w !! p = None -> files (finish to_vec from_slice uptime p w).2 = files w.
Proof.
  intros Hp. unfold finish, sidecar_read, attempt, mbind, M_bind.
  pose proof (read_file_files p w) as Hf. destruct (read_file_missing p w Hp) as [e He].
  destruct (read_file p w) as [[bs|e'] w1]; cbn in *; [done | exact Hf].
Qed.

(** *** Starting a recording *)

Lemma new_manifest_entry_spec mode s :
  exists e w', new_manifest_entry runtime mode s = (Ok e, mkSys (store s) w') /\ files w' = files (world s) /\ compressed e = true.
Proof.
  unfold new_manifest_entry, adjusted_now, io, get_adjusted_now, local_now, get_offset, claim_entry, mbind, M_bind.
  cbn. destruct runtime as [[v os] a]. by eexists _, _.
Qed.

(** What a fresh recording looks like. *)
Definition fresh (e : ManifestEntry) (fs fs' : files_t) : Prop :=
  compressed e = true /\ forall k, k <> Kind_Meta -> fs !! file_of e k = None /\ fs' !! file_of e k = Some [].

(** Nothing that exists changes, and what appears is empty, but for the manifest. *)
Definition grows (X : gset rstr) (fs fs' : files_t) : Prop :=
  forall p c, p ∉ X -> (fs !! p = Some c -> fs' !! p = Some c) /\ (fs !! p = None -> fs' !! p = Some c -> c = []).

Lemma grows_refl X fs : grows X fs fs.
Proof. intros p c _. split; [done | congruence]. Qed.
Lemma grows_trans X f1 f2 f3 : grows X f1 f2 -> grows X f2 f3 -> grows X f1 f3.
Proof.
  intros H12 H23 p c Hp. destruct (H12 p c Hp) as [Ha Hb], (H23 p c Hp) as [Hc Hd]. split; [eauto|].
  intros Hn Hs. destruct (f2 !! p) as [c2|] eqn:H2; [|by eauto].
  destruct (H12 p c2 Hp) as [_ Hb']. rewrite (Hb' Hn H2) in H2. destruct (H23 p [] Hp) as [Hc' _].
  specialize (Hc' H2). congruence.
Qed.
Lemma grows_touches {A : Type} X Y (m : Op A) s : touches sys_files X m -> X ⊆ Y -> grows Y (sys_files s) (sys_files (m s).2).
Proof.
  clear to_toml from_toml to_vec from_slice uptime runtime. intros H Hxy p c Hp.
  rewrite (H s p) by set_solver. split; [done | congruence].
Qed.
Lemma grows_bind {A B : Type} X (m : Op A) (k : A -> Op B) :
  (forall s, grows X (sys_files s) (sys_files (m s).2)) ->
  (forall a s, grows X (sys_files s) (sys_files (k a s).2)) ->
  forall s, grows X (sys_files s) (sys_files ((m ≫= k) s).2).
Proof.
  intros Hm Hk s. specialize (Hm s). unfold mbind, M_bind. destruct (m s) as [[a|e] s1]; cbn [snd] in *; [|done].
  eapply grows_trans; [exact Hm | apply Hk].
Qed.
Lemma create_new_grows X p w : grows X (files w) (files (create_new p w).2).
Proof.
  destruct (create_new p w) as [[[]|e] w1] eqn:E; cbn.
  - apply create_new_ok in E as [Hn ->]. intros q c _. destruct (decide (q = p)) as [->|Hne].
    + rewrite lookup_insert_eq. split; [congruence | by intros _ [= <-]].
    + rewrite lookup_insert_ne by done. split; [done | congruence].
  - rewrite (create_new_err _ _ _ _ E). apply grows_refl.
Qed.
Lemma io_create_new_grows f X p s : grows X (sys_files s) (sys_files (io f (create_new p) s).2).
Proof. unfold io, sys_files. pose proof (create_new_grows X p (world s)). by destruct (create_new p (world s)). Qed.

Lemma new_entry_loop_grows attempts mode last s :
  grows manifest_files (sys_files s) (sys_files (new_entry_loop attempts mode last s).2).
Proof.
  revert last s. induction attempts as [|attempts IH]; intros last; cbn [new_entry_loop]; [intros s; apply grows_refl|].
  apply grows_bind.
  { intros s. destruct (new_manifest_entry_spec mode s) as (e & w1 & -> & Hf & _). unfold sys_files. cbn. rewrite Hf. apply grows_refl. }
  intros e. apply grows_bind.
  { intros s. unfold io_attempt, sys_files. pose proof (create_new_grows manifest_files (file_of e Kind_Qmdl) (world s)).
    by destruct (create_new _ (world s)). }
  intros [[]|[| |f]]; [|intros s; apply grows_refl|apply IH|intros s; apply grows_refl].
  repeat (apply grows_bind; [intros s; apply io_create_new_grows | intros _]).
  apply grows_bind; [intros s; apply grows_refl|]. intros st.
  apply grows_bind; [intros s; apply grows_refl|]. intros _ s.
  eapply grows_touches; [apply write_manifest_touches | done].
Qed.

(** An attempt that succeeds. *)
Lemma new_entry_loop_ok attempts mode last s s' :
  new_entry_loop attempts mode last s = (Ok tt, s') ->
  exists e, store s' = mkStore (entries (store s) ++ [e]) (Some (length (entries (store s)))) /\
    fresh e (sys_files s) (sys_files s') /\
    sys_files s' !! manifest_name = Some (to_toml (entries (store s'))).
Proof.
  revert last s. induction attempts as [|attempts IH]; intros last s; cbn [new_entry_loop]; [done|].
  destruct (new_manifest_entry_spec mode s) as (e & w1 & Hnew & Hf1 & Hc). erewrite bind_ok by exact Hnew.
  unfold io_attempt at 1, mbind at 1, M_bind at 1. cbn [world store].
  destruct (create_new (file_of e Kind_Qmdl) w1) as [[[]|k] w2] eqn:E2.
  2:{ pose proof (create_new_err _ _ _ _ E2) as Hf2. rewrite Hf1 in Hf2. destruct k; [done| |done].
      intros H. apply IH in H. unfold sys_files in *. cbn [world store] in H. by rewrite Hf2 in H. }
  apply create_new_ok in E2 as [Hn2 Hf2]. rewrite Hf1 in Hn2, Hf2.
  intros ([] & s3 & (w3 & E3 & ->)%io_ok & H)%bind_Ok_inv. cbn [world] in E3. apply create_new_ok in E3 as [Hn3 Hf3].
  apply bind_Ok_inv in H as ([] & s4 & (w4 & E4 & ->)%io_ok & H). cbn [world] in E4. apply create_new_ok in E4 as [Hn4 Hf4].
  rewrite get_store_bind in H. unfold mbind, M_bind, put_store in H. cbn [store world] in H.
  set (s5 := mkSys _ w4) in H.
  pose proof (write_manifest_store s5) as Hst. pose proof (write_manifest_atomic s5) as Hat.
  pose proof (fun p Hp => write_manifest_touches s5 p Hp) as Ht. rewrite H in Hst, Hat, Ht. cbn [snd] in *.
  exists e. split; [done|]. split; [|by rewrite Hst]. split; [done|].
  assert (Hd : forall k k', k <> k' -> file_of e k <> file_of e k').
  { intros k k' Hk. destruct k, k'; try done; rewrite !file_of_ending, Hc; intros Hne%app_inv_head; vm_compute in Hne; discriminate Hne. }
  assert (Hm : forall k, file_of e k ∉ manifest_files).
  { intros k. unfold manifest_files. pose proof (file_of_manifest e k). set_solver. }
  intros k Hk. rewrite Ht by apply Hm. unfold sys_files, s5. cbn [world].
  rewrite Hf4, Hf3, Hf2. rewrite Hf3, Hf2 in Hn4. rewrite Hf2 in Hn3.
  rewrite lookup_insert_ne in Hn3 by (by apply Hd). rewrite !lookup_insert_ne in Hn4 by (by apply Hd).
  destruct k; [| | |done].
  - rewrite !(lookup_insert_ne _ _ (file_of e Kind_Qmdl)) by (by apply Hd). by rewrite lookup_insert_eq.
  - rewrite (lookup_insert_ne _ _ (file_of e Kind_Analysis)) by (by apply Hd). by rewrite lookup_insert_eq.
  - by rewrite lookup_insert_eq.
Qed.

Lemma new_entry_loop_err_store attempts mode last s e s' :
  new_entry_loop attempts mode last s = (Err e, s') ->
  store s' = store s \/ exists me, store s' = mkStore (entries (store s) ++ [me]) (Some (length (entries (store s)))).
Proof.
  revert last s. induction attempts as [|attempts IH]; intros last s; cbn [new_entry_loop]; [intros [= _ <-]; by left|].
  destruct (new_manifest_entry_spec mode s) as (me & w1 & Hnew & _). erewrite bind_ok by exact Hnew.
  unfold io_attempt at 1, mbind at 1, M_bind at 1. cbn [world store].
  destruct (create_new _ w1) as [[[]|[| |k]] w2]; try (intros [= _ <-]; by left); [|by intros H; apply IH in H].
  unfold mbind, M_bind, io, get_store, put_store. cbn [world store].
  destruct (create_new _ w2) as [[[]|k] w3]; cbn; [|intros [= _ <-]; by left].
  destruct (create_new _ w3) as [[[]|k] w4]; cbn; [|intros [= _ <-]; by left].
  intros H. right. exists me.
  pose proof (write_manifest_store (mkSys (mkStore (entries (store s) ++ [me]) (Some (length (entries (store s))))) w4)) as Hst.
  rewrite H in Hst. exact Hst.
Qed.
End proofs.
