(* ===== verification/StoreSafety.v ===== *)
(** * What the recording store promises

    Theorems about [Store]: recordings are never overwritten and never become invisible, the
    manifest on disk is always a whole one, deleting takes exactly what it should, and a lost
    manifest is rebuilt from the recordings' names.  They hold for every schedule of failures. *)

From S2P Require Import Prelude RustStr Filesystem Sidecar Store.

Local Open Scope Z_scope.

(** The operations the daemon runs on its store; [Op_capture] is the diag thread writing to the
    file of the current recording. *)
Inductive store_op :=
| Op_new (mode : GpsMode)
| Op_close
| Op_size (size : Z)
| Op_stop (reason : rstr)
| Op_annotate (n : rstr) (d nt : option rstr)
| Op_uploaded (n : rstr) (t : Z)
| Op_delete (n : rstr)
| Op_delete_all
| Op_capture (bytes : list Z).

Definition capture (bytes : list Z) : Op unit :=
  st ← get_store;
  match get_current_entry st with
  | Some (_, e) => io WriteFileError (append (file_of e Kind_Qmdl) bytes)
  | None => mret tt
  end.

Section safety.
Context (to_toml : Manifest -> list Z) (from_toml : list Z -> option Manifest)
  (to_vec : RecordingSidecar -> result ErrorKind (list Z)) (from_slice : list Z -> option RecordingSidecar)
  (uptime : option rstr) (runtime : rstr * rstr * rstr).
Abbreviation new_entry := (new_entry to_toml to_vec from_slice uptime runtime).
Abbreviation new_entry_loop := (new_entry_loop to_toml runtime).
Abbreviation close := (close_current_entry to_vec from_slice uptime).
Abbreviation delete_entry := (delete_entry to_toml to_vec from_slice uptime).
Abbreviation delete_all_entries := (delete_all_entries to_toml to_vec from_slice uptime).
Abbreviation write_manifest := (write_manifest to_toml).

Definition perform (o : store_op) : Op unit :=
  match o with
  | Op_new mode => new_entry mode
  | Op_close => close
  | Op_size n => update_current_entry_qmdl_size to_toml n
  | Op_stop r => set_current_stop_reason to_toml r
  | Op_annotate n d nt => set_entry_annotations to_toml n d nt
  | Op_uploaded n t => mark_entry_as_uploaded to_toml n t
  | Op_delete n => delete_entry n
  | Op_delete_all => delete_all_entries
  | Op_capture bytes => capture bytes
  end.
Definition run (ops : list store_op) (s : Sys) : Sys := fold_left (fun s o => (perform o s).2) ops s.

(** ** Invariants, one computation at a time *)

Definition pres {A : Type} (I : Sys -> Prop) (m : Op A) : Prop := forall s, I s -> I (m s).2.

Lemma pres_bind {A B : Type} I (m : Op A) (k : A -> Op B) : pres I m -> (forall a, pres I (k a)) -> pres I (m ≫= k).
Proof.
  intros Hm Hk s Hs. specialize (Hm s Hs). unfold mbind, M_bind.
  destruct (m s) as [[a|e] s1]; cbn [snd] in *; [by apply Hk | done].
Qed.
Lemma pres_ret {A : Type} I (a : A) : pres I (mret a).
Proof. by intros s. Qed.
Lemma pres_fail {A : Type} I e : pres (A := A) I (fail e).
Proof. by intros s. Qed.
Lemma pres_get I : pres I get_store.
Proof. by intros s. Qed.
Lemma pres_find I n : pres I (find_entry n).
Proof. intros s Hs. unfold find_entry, mbind, M_bind, get_store. by destruct (position _ _). Qed.

Lemma pres_run I : (forall o, pres I (perform o)) -> forall ops s, I s -> I (run ops s).
Proof. intros Ho ops. induction ops as [|o ops IH]; intros s Hs; [done|]. by apply IH, Ho. Qed.

(** *** The manifest on disk is a whole one *)

Definition intact (s : Sys) : Prop := exists m, sys_files s !! manifest_name = Some (to_toml m).

Lemma intact_touches {A : Type} X (m : Op A) : touches sys_files X m -> manifest_name ∉ X -> pres intact m.
Proof. intros H Hx s [c Hc]. exists c. by rewrite H. Qed.

Lemma intact_write : pres intact write_manifest.
Proof.
  intros s Hs. pose proof (write_manifest_atomic to_toml s) as H.
  destruct (write_manifest s) as [[[]|e] s']; cbn [snd].
  - eexists. exact H.
  - destruct Hs as [m Hm]. exists m. by rewrite H.
Qed.

Lemma manifest_not_meta e : manifest_name ∉ meta_files e.
Proof. unfold meta_files. pose proof (file_of_manifest e Kind_Meta). pose proof (tmp_manifest e). set_solver. Qed.
Lemma manifest_not_entry e kinds : manifest_name ∉ (list_to_set (map (file_of e) kinds) : gset rstr).
Proof.
  rewrite elem_of_list_to_set. intros (k & H & _)%list_elem_of_fmap. by destruct (file_of_manifest e k).
Qed.

Lemma intact_close : pres intact close.
Proof. intros s [m Hm]. exists m. rewrite close_touches; [done|]. intros idx e _. apply manifest_not_meta. Qed.

Lemma intact_alter idx f : pres intact (alter_entry idx f ;; write_manifest).
Proof. apply pres_bind; [|intros _; apply intact_write]. by apply (intact_touches ∅); [apply alter_entry_touches|]. Qed.

Lemma intact_remove f e : pres intact (io f (remove_kinds ALL e)).
Proof. eapply intact_touches; [apply io_touches, remove_kinds_touches | apply manifest_not_entry]. Qed.

Lemma intact_delete_files es : pres intact (delete_files es).
Proof.
  induction es as [|e es IH]; cbn [delete_files]; [apply pres_ret|].
  apply pres_bind; [eapply intact_touches; [apply io_attempt_touches, remove_kinds_touches | apply manifest_not_entry]|].
  intros r. apply pres_bind; [exact IH|]. intros kept. apply pres_ret.
Qed.

Lemma intact_loop attempts mode last : pres intact (new_entry_loop attempts mode last).
Proof.
  revert last. induction attempts as [|attempts IH]; intros last; cbn [Store.new_entry_loop]; [apply pres_fail|].
  assert (Hc : forall e k f, pres intact (io f (create_new (file_of e k)))).
  { intros e k f. eapply intact_touches; [apply io_touches, create_new_touches|].
    rewrite elem_of_singleton. intros H. by destruct (file_of_manifest e k). }
  apply pres_bind.
  { intros s [m Hm]. destruct (new_manifest_entry_spec runtime mode s) as (e & w1 & -> & Hf & _). exists m.
    unfold sys_files in *. cbn. by rewrite Hf. }
  intros e. apply pres_bind.
  { eapply intact_touches; [apply io_attempt_touches, create_new_touches|].
    rewrite elem_of_singleton. intros H. by destruct (file_of_manifest e Kind_Qmdl). }
  intros [[]|[| |f]]; [|apply pres_fail|apply IH|apply pres_fail].
  repeat (apply pres_bind; [apply Hc | intros _]). apply pres_bind; [apply pres_get|]. intros st.
  apply pres_bind; [by intros s|]. intros _. apply intact_write.
Qed.

Lemma intact_perform o : pres intact (perform o).
Proof.
  destruct o; cbn [perform].
  - unfold Store.new_entry. apply pres_bind; [apply pres_get|]. intros st.
    apply pres_bind; [case_bool_decide; [apply intact_close | apply pres_ret]|]. intros _. apply intact_loop.
  - apply intact_close.
  - unfold update_current_entry_qmdl_size. apply pres_bind; [apply pres_get|]. intros st.
    destruct (current_entry st); [|apply pres_fail]. apply pres_bind; [by intros s0|]. intros now. apply intact_alter.
  - unfold set_current_stop_reason. apply pres_bind; [apply pres_get|]. intros st.
    destruct (current_entry st); [|apply pres_ret]. apply intact_alter.
  - apply pres_bind; [apply pres_find|]. intros idx. apply intact_alter.
  - apply pres_bind; [apply pres_find|]. intros idx. apply intact_alter.
  - apply pres_bind; [apply pres_find|]. intros idx. apply pres_bind; [apply pres_get|]. intros st.
    destruct (entries st !! idx); [|apply pres_ret]. apply pres_bind; [apply intact_remove|]. intros _.
    apply pres_bind.
    + destruct (current_entry st); [|apply pres_ret]. repeat case_match; [apply intact_close | by intros s | apply pres_ret].
    + intros _. apply pres_bind; [apply pres_get|]. intros st2. apply pres_bind; [by intros s|]. intros _. apply intact_write.
  - apply pres_bind; [apply pres_get|]. intros st.
    apply pres_bind; [case_bool_decide; [apply intact_close | apply pres_ret]|]. intros _.
    apply pres_bind; [apply pres_get|]. intros st2. apply pres_bind; [apply intact_delete_files|]. intros kept.
    apply pres_bind; [by intros s|]. intros _. apply intact_write.
  - apply pres_bind; [apply pres_get|]. intros st. destruct (get_current_entry st) as [[idx e]|]; [|apply pres_ret].
    eapply intact_touches; [apply io_touches, append_touches|].
    rewrite elem_of_singleton. intros H. by destruct (file_of_manifest e Kind_Qmdl).
Qed.

(** *** After success, the manifest on disk is the one in memory *)

Definition synced (s : Sys) : Prop := sys_files s !! manifest_name = Some (to_toml (entries (store s))).

Lemma write_synced s s' : write_manifest s = (Ok tt, s') -> synced s'.
Proof.
  intros H. pose proof (write_manifest_atomic to_toml s) as Ha. pose proof (write_manifest_store to_toml s) as Hs.
  rewrite H in Ha, Hs. cbn [snd] in Hs. unfold synced. by rewrite Hs.
Qed.

(** A computation that ends by writing the manifest. *)
Definition writes {A : Type} (m : Op A) : Prop := forall s a s', m s = (Ok a, s') -> synced s'.
Lemma writes_write : writes write_manifest.
Proof. intros s [] s'. apply write_synced. Qed.
Lemma writes_bind {A B : Type} (m : Op A) (k : A -> Op B) : (forall a, writes (k a)) -> writes (m ≫= k).
Proof. intros Hk s b s' (a & s1 & _ & H)%bind_Ok_inv. by eapply Hk. Qed.
Lemma writes_fail {A : Type} e : writes (A := A) (fail e).
Proof. by intros s a s'. Qed.

Lemma perform_synced o s s' : synced s -> perform o s = (Ok tt, s') -> synced s'.
Proof.
  intros Hs H. destruct o; cbn [perform] in H.
  - apply bind_Ok_inv in H as (st & s1 & _ & H). apply bind_Ok_inv in H as ([] & s2 & _ & H).
    by apply new_entry_loop_ok in H as (e & _ & _ & H).
  - pose proof (close_store to_vec from_slice uptime s) as Hst. rewrite H in Hst. cbn [snd] in Hst.
    pose proof (close_touches to_vec from_slice uptime s manifest_name) as Ht. rewrite H in Ht. cbn [snd] in Ht.
    unfold synced. rewrite Hst, Ht; [exact Hs|]. intros idx e _. apply manifest_not_meta.
  - unfold update_current_entry_qmdl_size in H. rewrite get_store_bind in H.
    destruct (current_entry (store s)); [|done]. revert H. apply writes_bind. intros now. apply writes_bind. intros _. apply writes_write.
  - unfold set_current_stop_reason in H. rewrite get_store_bind in H.
    destruct (current_entry (store s)); [|by injection H as <-]. revert H. apply writes_bind. intros _. apply writes_write.
  - revert H. apply writes_bind. intros idx. apply writes_bind. intros _. apply writes_write.
  - revert H. apply writes_bind. intros idx. apply writes_bind. intros _. apply writes_write.
  - apply bind_Ok_inv in H as (idx & s1 & Hfind & H). apply find_entry_ok in Hfind as [Hpos ->].
    rewrite get_store_bind in H. destruct (entries (store s) !! idx) as [e|] eqn:He.
    + revert H. do 4 (apply writes_bind; intros ?). apply writes_write.
    + unfold position in Hpos. apply fmap_Some in Hpos as ([i e] & Hf & ->). apply list_find_Some in Hf as [Hl _]. cbn in He. congruence.
  - revert H. do 5 (apply writes_bind; intros ?). apply writes_write.
  - unfold capture in H. rewrite get_store_bind in H.
    destruct (get_current_entry (store s)) as [[idx e]|]; [|by injection H as <-].
    pose proof (io_touches WriteFileError _ _ (append_touches (file_of e Kind_Qmdl) bytes) s manifest_name) as Ht.
    pose proof (io_store WriteFileError (append (file_of e Kind_Qmdl) bytes) s) as Hst.
    rewrite H in Ht, Hst. cbn [snd] in Ht, Hst. unfold synced. rewrite Hst, Ht; [exact Hs|].
    rewrite elem_of_singleton. intros Hm. by destruct (file_of_manifest e Kind_Qmdl).
Qed.

(** *** No recording becomes invisible *)

Definition visible (s : Sys) : Prop := forall p c, is_capture p -> sys_files s !! p = Some c -> c <> [] ->
  exists e, e ∈ entries (store s) /\ file_of e Kind_Qmdl = p.

(** Captures of the second state were there before, entries of the first are still owners. *)
Lemma visible_mono s s' :
  (forall p c, is_capture p -> sys_files s' !! p = Some c -> c <> [] -> exists c', sys_files s !! p = Some c' /\ c' <> []) ->
  (forall e, e ∈ entries (store s) -> exists e', e' ∈ entries (store s') /\ file_of e' Kind_Qmdl = file_of e Kind_Qmdl) ->
  visible s -> visible s'.
Proof.
  intros Hf He Hv p c Hp Hc Hne. destruct (Hf p c Hp Hc Hne) as (c' & Hc' & Hne').
  destruct (Hv p c' Hp Hc' Hne') as (e & Hin & <-). by apply He.
Qed.

Lemma visible_touches {A : Type} X (m : Op A) :
  touches sys_files X m -> (forall p, is_capture p -> p ∉ X) -> (forall s, store (m s).2 = store s) -> pres visible m.
Proof.
  intros Ht Hx Hs s. apply visible_mono; [|rewrite Hs; eauto].
  intros p c Hp Hc Hne. exists c. rewrite Ht in Hc by auto. done.
Qed.

Lemma visible_write : pres visible write_manifest.
Proof.
  eapply visible_touches; [apply write_manifest_touches | apply capture_not_manifest | apply write_manifest_store].
Qed.

Lemma close_captures s p : is_capture p -> sys_files (close s).2 !! p = sys_files s !! p.
Proof. intros Hp. apply close_touches. intros idx e _. by apply capture_not_meta. Qed.

Lemma visible_close : pres visible close.
Proof.
  intros s. apply visible_mono.
  - intros p c Hp Hc Hne. exists c. by rewrite close_captures in Hc.
  - rewrite close_store. cbn [entries set_current]. eauto.
Qed.

Lemma visible_alter idx f :
  (forall e, file_of (f e) Kind_Qmdl = file_of e Kind_Qmdl) -> pres visible (alter_entry idx f ;; write_manifest).
Proof.
  intros Hf. apply pres_bind; [|intros _; apply visible_write]. intros s. apply visible_mono; [eauto|].
  intros e Hin. unfold alter_entry, mbind, M_bind, get_store, put_store. cbn [snd store set_entries entries].
  apply list_elem_of_lookup in Hin as [i Hi]. destruct (decide (i = idx)) as [->|Hne].
  - exists (f e). split; [|apply Hf]. apply (list_elem_of_lookup_2 _ idx). by rewrite list_lookup_alter_eq, Hi.
  - exists e. split; [|done]. apply (list_elem_of_lookup_2 _ i). by rewrite list_lookup_alter_ne.
Qed.

Lemma visible_loop attempts mode last : pres visible (new_entry_loop attempts mode last).
Proof.
  intros s. pose proof (new_entry_loop_grows to_toml runtime attempts mode last s) as Hg.
  pose proof (new_entry_loop_ok to_toml runtime attempts mode last s) as Hok.
  pose proof (new_entry_loop_err_store to_toml runtime attempts mode last s) as Herr.
  destruct (new_entry_loop attempts mode last s) as [[[]|err] s']; cbn [snd] in *; apply visible_mono.
  1, 3: intros p c Hp Hc Hne; destruct (Hg p c (capture_not_manifest p Hp)) as [_ Hn];
    destruct (sys_files s !! p) as [c'|] eqn:Hs; [|by destruct (Hne (Hn eq_refl Hc))];
    destruct (Hg p c' (capture_not_manifest p Hp)) as [Ho _]; specialize (Ho Hs); exists c'; split; congruence.
  - destruct (Hok s' eq_refl) as (e & -> & _). cbn [entries]. intros e0 Hin. exists e0. set_solver.
  - destruct (Herr err s' eq_refl) as [-> | (e & ->)]; [eauto|]. cbn [entries]. intros e0 Hin. exists e0. set_solver.
Qed.

Lemma remove_kinds_capture e s p c :
  sys_files (io DeleteFileError (remove_kinds ALL e) s).2 !! p = Some c -> sys_files s !! p = Some c.
Proof.
  unfold io, sys_files. pose proof (remove_kinds_removes ALL e (world s) p c) as H.
  by destruct (remove_kinds ALL e (world s)).
Qed.

(** The loop over all entries: what is not kept has lost its files, and nothing appears. *)
Lemma delete_files_spec es s :
  let '(r, s') := delete_files es s in
  store s' = store s /\
  (forall p c, sys_files s' !! p = Some c -> sys_files s !! p = Some c) /\
  exists kept, r = Ok kept /\ forall e, e ∈ es -> e ∈ kept \/ sys_files s' !! file_of e Kind_Qmdl = None.
Proof.
  revert s. induction es as [|e es IH]; intros s; cbn [delete_files].
  { split; [done|]. split; [done|]. exists []. split; [done|]. intros e He. by apply elem_of_nil in He. }
  pose proof (remove_kinds_removes ALL e (world s)) as Hrem. pose proof (remove_kinds_ok ALL e (world s)) as Hok.
  unfold io_attempt, mbind, M_bind. destruct (remove_kinds ALL e (world s)) as [r w1] eqn:Er. cbn [snd] in Hrem.
  specialize (IH (mkSys (store s) w1)). destruct (delete_files es (mkSys (store s) w1)) as [r2 s2].
  destruct IH as (Hst & Hsub & kept & -> & Hkept). cbn [store] in Hst.
  split; [exact Hst|]. split; [intros p c Hc; by apply Hrem, Hsub|].
  destruct r as [[]|k]; eexists; (split; [reflexivity|]); intros e0 [->|Hin]%elem_of_cons.
  - right. specialize (Hok w1 Kind_Qmdl eq_refl ltac:(set_solver)).
    destruct (sys_files s2 !! file_of e Kind_Qmdl) as [c|] eqn:Hc; [|done]. apply Hsub in Hc.
    unfold sys_files in Hc. cbn [world] in Hc. congruence.
  - apply Hkept in Hin as [?|?]; [by left | by right].
  - left. by left.
  - apply Hkept in Hin as [?|?]; [left; by right | by right].
Qed.

Lemma visible_delete n : pres visible (delete_entry n).
Proof.
  intros s Hv. unfold Store.delete_entry. unfold mbind at 1, M_bind at 1.
  destruct (find_entry n s) as [[idx|err] s0] eqn:Hfind.
  2:{ pose proof (pres_find visible n s Hv) as H. by rewrite Hfind in H. }
  apply find_entry_ok in Hfind as [_ ->]. rewrite get_store_bind.
  destruct (entries (store s) !! idx) as [e|] eqn:He; [|done].
  pose proof (fun p c => remove_kinds_capture e s p c) as Hrem. pose proof (io_store DeleteFileError (remove_kinds ALL e) s) as Hst.
  unfold mbind at 1, M_bind at 1.
  destruct (io DeleteFileError (remove_kinds ALL e) s) as [[[]|err] s1] eqn:Hio; cbn [snd] in *.
  2:{ revert Hv. apply visible_mono; [intros p c _ Hc Hne; exists c; auto | rewrite Hst; eauto]. }
  apply io_ok in Hio as (w1 & Hw1 & ->). pose proof (remove_kinds_ok ALL e (world s) w1 Kind_Qmdl Hw1 ltac:(set_solver)) as Hgone.
  set (s1 := mkSys (store s) w1) in *.
  set (adjust := match current_entry (store s) with
                 | Some c => if (c =? idx)%nat then close else if (idx <? c)%nat then put_store (set_current (Some (c - 1)%nat) (store s)) else mret tt
                 | None => mret tt end).
  assert (Hadj : entries (store (adjust s1).2) = entries (store s) /\ forall p, is_capture p -> sys_files (adjust s1).2 !! p = sys_files s1 !! p).
  { unfold adjust. destruct (current_entry (store s)); [|done]. repeat case_match; [|done|done].
    split; [by rewrite close_store | intros p; apply close_captures]. }
  destruct Hadj as [Hent Hfil]. unfold mbind at 1, M_bind at 1.
  assert (Hv2 : visible (adjust s1).2).
  { revert Hv. apply visible_mono; [|rewrite Hent; eauto].
    intros p c Hp Hc Hne. exists c. rewrite Hfil in Hc by done. split; [by apply Hrem | done]. }
  destruct (adjust s1) as [[[]|err] s2]; cbn [snd] in *; [|exact Hv2].
  rewrite get_store_bind. unfold mbind at 1, M_bind at 1, put_store. apply visible_write.
  intros p c Hp Hc Hne. unfold sys_files in Hc. cbn [world] in Hc.
  destruct (Hv2 p c Hp Hc Hne) as (e0 & Hin & Hown). cbn [store set_entries entries]. rewrite Hent in *.
  rewrite delete_take_drop.
  pose proof (take_drop_middle _ _ _ He) as Heq. rewrite <- Heq in Hin.
  apply elem_of_app in Hin as [Hin|[->|Hin]%elem_of_cons]; [exists e0; set_solver| |exists e0; set_solver].
  exfalso. rewrite <- Hown in Hc. fold (sys_files s2) in Hc. rewrite Hfil in Hc by (apply capture_of).
  unfold sys_files, s1 in Hc. cbn [world] in Hc. congruence.
Qed.

Lemma visible_delete_all : pres visible delete_all_entries.
Proof.
  intros s Hv. unfold Store.delete_all_entries. rewrite get_store_bind. unfold mbind at 1, M_bind at 1.
  set (first := if bool_decide (is_Some (current_entry (store s))) then close else mret tt).
  assert (Hv1 : visible (first s).2) by (unfold first; case_bool_decide; [by apply visible_close | done]).
  destruct (first s) as [[[]|err] s1]; cbn [snd] in *; [|exact Hv1].
  rewrite get_store_bind. unfold mbind at 1, M_bind at 1.
  pose proof (delete_files_spec (entries (store s1)) s1) as H.
  destruct (delete_files (entries (store s1)) s1) as [r s2]. destruct H as (Hst & Hsub & kept & -> & Hkept).
  unfold mbind, M_bind, put_store. apply visible_write. intros p c Hp Hc Hne.
  unfold sys_files in Hc. cbn [world] in Hc. fold (sys_files s2) in Hc.
  destruct (Hv1 p c Hp (Hsub p c Hc) Hne) as (e & Hin & Hown). cbn [store set_entries entries].
  destruct (Hkept e Hin) as [Hk|Hn]; [by exists e | congruence].
Qed.

Lemma visible_perform o : pres visible (perform o).
Proof.
  destruct o; cbn [perform].
  - unfold Store.new_entry. apply pres_bind; [apply pres_get|]. intros st.
    apply pres_bind; [case_bool_decide; [apply visible_close | apply pres_ret]|]. intros _. apply visible_loop.
  - apply visible_close.
  - unfold update_current_entry_qmdl_size. apply pres_bind; [apply pres_get|]. intros st.
    destruct (current_entry st); [|apply pres_fail]. apply pres_bind; [by intros s0|]. intros now. by apply visible_alter.
  - unfold set_current_stop_reason. apply pres_bind; [apply pres_get|]. intros st.
    destruct (current_entry st); [|apply pres_ret]. by apply visible_alter.
  - apply pres_bind; [apply pres_find|]. intros idx. by apply visible_alter.
  - apply pres_bind; [apply pres_find|]. intros idx. by apply visible_alter.
  - apply visible_delete.
  - apply visible_delete_all.
  - intros s Hv. unfold capture. rewrite get_store_bind.
    destruct (get_current_entry (store s)) as [[idx e]|] eqn:Hcur; [|done].
    intros p c Hp Hc Hne. rewrite io_store.
    destruct (decide (p = file_of e Kind_Qmdl)) as [->|Hother].
    + exists e. split; [|done]. unfold get_current_entry in Hcur.
      apply bind_Some in Hcur as (i & _ & Hcur). apply bind_Some in Hcur as (e' & He & Hcur). injection Hcur as -> ->.
      by apply (list_elem_of_lookup_2 _ idx).
    + rewrite (io_touches WriteFileError _ _ (append_touches (file_of e Kind_Qmdl) bytes)) in Hc by set_solver.
      by eapply Hv.
Qed.

(** *** Deleting one recording *)

Lemma find_entry_err n s err s' :
  find_entry n s = (Err err, s') -> err = NoSuchEntryError /\ s' = s /\ forall e, e ∈ entries (store s) -> name e <> n.
Proof.
  unfold find_entry, mbind, M_bind, get_store. destruct (position n (entries (store s))) as [i|] eqn:Hp; [done|].
  intros [= <- <-]. split; [done|]. split; [done|]. intros e Hin Hn. unfold position in Hp.
  apply fmap_None in Hp. by apply (proj1 (Forall_forall _ _) (proj1 (list_find_None _ _) Hp)) in Hin.
Qed.

(** Closing always succeeds on an open recording, and writes nothing when its details are gone. *)
Lemma close_open s idx : current_entry (store s) = Some idx -> (close s).1 = Ok tt.
Proof.
  intros Hc. unfold Store.close_current_entry. rewrite get_store_bind, Hc. unfold mbind, M_bind, put_store, io_attempt. cbn.
  destruct (entries (store s) !! idx); [|done]. by destruct (finish _ _ _ _ _).
Qed.
Lemma close_missing s idx e :
  get_current_entry (store s) = Some (idx, e) -> sys_files s !! file_of e Kind_Meta = None ->
  sys_files (close s).2 = sys_files s.
Proof.
  intros Hc Hm. unfold get_current_entry in Hc. unfold Store.close_current_entry. rewrite get_store_bind.
  destruct (current_entry (store s)) as [i|]; [|done]. cbn [mbind option_bind] in Hc.
  unfold mbind at 1, M_bind at 1, put_store. cbn [store world].
  destruct (entries (store s) !! i) as [e0|]; [|done]. injection Hc as -> ->.
  unfold mbind, M_bind, io_attempt, sys_files. cbn [store world].
  pose proof (finish_missing to_vec from_slice uptime (file_of e Kind_Meta) (world s) Hm) as H.
  by destruct (finish _ _ _ _ _).
Qed.

Lemma write_manifest_err s err s' : write_manifest s = (Err err, s') -> exists k, err = WriteManifestError k.
Proof.
  unfold Store.write_manifest. rewrite get_store_bind. unfold mbind, M_bind, io. cbn [world store].
  destruct (file_create _ _) as [[[]|e1] w1]; cbn; [|intros [= <- _]; by eexists].
  destruct (append _ _ _) as [[[]|e2] w2]; cbn; [|intros [= <- _]; by eexists].
  destruct (rename _ _ _) as [[[]|e3] w3]; cbn; [done|intros [= <- _]; by eexists].
Qed.

(** The entries after a deletion, and where the current one is among them. *)
Definition current_after (idx : nat) (c : option nat) : option nat :=
  match c with Some c => if (c =? idx)%nat then None else if (idx <? c)%nat then Some (c - 1)%nat else Some c | None => None end.

Lemma lookup_current_after {A : Type} (l : list A) idx c c' :
  current_after idx (Some c) = Some c' -> delete idx l !! c' = l !! c.
Proof.
  clear. unfold current_after. destruct (Nat.eqb_spec c idx) as [->|Hne]; [done|]. destruct (Nat.ltb_spec idx c); intros [= <-].
  - rewrite list_lookup_delete_ge by lia. f_equal. lia.
  - by rewrite list_lookup_delete_lt by lia.
Qed.

Definition adjust_current (idx : nat) (st : RecordingStore) : Op unit :=
  match current_entry st with
  | Some c => if (c =? idx)%nat then close
              else if (idx <? c)%nat then put_store (set_current (Some (c - 1)%nat) st)
              else mret tt
  | None => mret tt
  end.

Lemma adjust_current_spec idx e s :
  entries (store s) !! idx = Some e -> sys_files s !! file_of e Kind_Meta = None ->
  exists s', adjust_current idx (store s) s = (Ok tt, s') /\
    store s' = mkStore (entries (store s)) (current_after idx (current_entry (store s))) /\ sys_files s' = sys_files s.
Proof.
  intros He Hm. unfold adjust_current, current_after. destruct (current_entry (store s)) as [c|] eqn:Hc.
  2:{ exists s. split; [done|]. split; [|done]. rewrite <- Hc. by destruct (store s). }
  destruct (Nat.eqb_spec c idx) as [->|Hne].
  - pose proof (close_open s idx Hc) as H1. pose proof (close_store to_vec from_slice uptime s) as H2.
    assert (Hcur : get_current_entry (store s) = Some (idx, e)) by (unfold get_current_entry; rewrite Hc; cbn; by rewrite He).
    pose proof (close_missing s idx e Hcur Hm) as H3. destruct (close s) as [r s']. cbn [fst snd] in *. subst r. by exists s'.
  - destruct (idx <? c)%nat.
    + eexists. split; [reflexivity|]. done.
    + exists s. split; [done|]. split; [|done]. rewrite <- Hc. by destruct (store s).
Qed.

(** What deleting does, however it ends. *)
Lemma delete_entry_effect n s :
  let '(r, s') := delete_entry n s in
  (r = Err NoSuchEntryError /\ s' = s /\ (forall e, e ∈ entries (store s) -> name e <> n)) \/
  exists idx e, position n (entries (store s)) = Some idx /\ entries (store s) !! idx = Some e /\ name e = n /\
    (forall p, p ∉ entry_files e -> p ∉ manifest_files -> sys_files s' !! p = sys_files s !! p) /\
    (forall p c, p ∉ manifest_files -> sys_files s' !! p = Some c -> sys_files s !! p = Some c) /\
    ((exists k, r = Err (DeleteFileError k)) /\ store s' = store s \/
     (r = Ok tt \/ exists k, r = Err (WriteManifestError k)) /\
       store s' = mkStore (delete idx (entries (store s))) (current_after idx (current_entry (store s))) /\
       (forall k, sys_files s' !! file_of e k = None)).
Proof.
  unfold Store.delete_entry. unfold mbind at 1, M_bind at 1.
  destruct (find_entry n s) as [[idx|err] s0] eqn:Hfind; [|apply find_entry_err in Hfind as (-> & -> & H); by left].
  apply find_entry_ok in Hfind as [Hpos ->]. rewrite get_store_bind.
  assert (He : exists e, entries (store s) !! idx = Some e /\ name e = n).
  { unfold position in Hpos. apply fmap_Some in Hpos as ([i e] & (He & Hname & _)%list_find_Some & ->). by exists e. }
  destruct He as (e & He & Hname). rewrite He.
  pose proof (io_store DeleteFileError (remove_kinds ALL e) s) as Hst. unfold mbind at 1, M_bind at 1.
  pose proof (io_touches DeleteFileError _ _ (remove_kinds_touches ALL e) s) as Htouch.
  pose proof (fun p c => remove_kinds_capture e s p c) as Hrem.
  destruct (io DeleteFileError (remove_kinds ALL e) s) as [[[]|err] s1] eqn:Hio; cbn [snd] in Hst, Htouch, Hrem.
  2:{ unfold io in Hio. destruct (remove_kinds ALL e (world s)) as [[?|k] w]; cbn in Hio; [done|].
      injection Hio as <- <-. right. exists idx, e. split_and!; [done..| | |left; split; [by exists k | done]].
      - intros p Hp _. by apply Htouch.
      - intros p c _. apply Hrem. }
  apply io_ok in Hio as (w1 & Hw1 & ->). set (s1 := mkSys (store s) w1) in *.
  assert (Hgone : forall k, sys_files s1 !! file_of e k = None).
  { intros k. apply (remove_kinds_ok ALL e (world s) w1 k Hw1). destruct k; set_solver. }
  fold (adjust_current idx (store s)). destruct (adjust_current_spec idx e s1 He (Hgone Kind_Meta)) as (s2 & Hadj & Hst2 & Hf2).
  erewrite bind_ok by exact Hadj. rewrite get_store_bind. erewrite bind_ok by reflexivity.
  set (s3 := mkSys _ (world s2)). pose proof (write_manifest_store to_toml s3) as Hst3.
  pose proof (write_manifest_touches to_toml s3) as Ht3. pose proof (write_manifest_err s3) as Herr.
  destruct (write_manifest s3) as [r s4]; cbn [snd] in *.
  assert (Hs3 : sys_files s3 = sys_files s1) by exact Hf2. rewrite Hs3 in Ht3.
  right. exists idx, e. split_and!; [done..| | |right; split_and!].
  - intros p Hp Hpm. rewrite Ht3 by done. by apply Htouch.
  - intros p c Hpm Hc. rewrite Ht3 in Hc by done. by apply Hrem.
  - destruct r as [[]|err]; [by left | right]. destruct (Herr err s4 eq_refl) as [k ->]. by exists k.
  - rewrite Hst3. unfold s3. cbn [store set_entries]. by rewrite Hst2.
  - intros k. rewrite Ht3; [apply Hgone|]. unfold manifest_files. pose proof (file_of_manifest e k). set_solver.
Qed.

(** ** Properties *)

(** Evidence is never overwritten.  Starting a recording, whatever fails on the way and however often,
    leaves every file that was there exactly as it was, except the manifest and the device details
    of the recording it closes; anything it leaves behind is an empty file.  When it succeeds, one
    entry is added and is the current one; its three files did not exist before, and are empty; and
    the manifest on disk lists it. *)
Theorem new_entry_never_overwrites mode s :
  let '(r, s') := perform (Op_new mode) s in
  (forall p c, p ∉ manifest_files ->
     (forall idx e, get_current_entry (store s) = Some (idx, e) -> p ∉ meta_files e) ->
     (sys_files s !! p = Some c -> sys_files s' !! p = Some c) /\
     (sys_files s !! p = None -> sys_files s' !! p = Some c -> c = [])) /\
  match r with
  | Ok _ => exists e, store s' = mkStore (entries (store s) ++ [e]) (Some (length (entries (store s)))) /\
      (forall k, k <> Kind_Meta -> sys_files s !! file_of e k = None /\ sys_files s' !! file_of e k = Some []) /\
      sys_files s' !! manifest_name = Some (to_toml (entries (store s')))
  | Err _ => True
  end.
Proof.
  cbn [perform]. unfold Store.new_entry. rewrite get_store_bind. unfold mbind at 1, M_bind at 1.
  set (first := if bool_decide (is_Some (current_entry (store s))) then close else mret tt).
  assert (H1 : entries (store (first s).2) = entries (store s) /\
    forall p, (forall idx e, get_current_entry (store s) = Some (idx, e) -> p ∉ meta_files e) ->
      sys_files (first s).2 !! p = sys_files s !! p).
  { unfold first. case_bool_decide; [|done]. split; [by rewrite close_store | intros p; apply close_touches]. }
  destruct H1 as [Hent Hfil]. destruct (first s) as [[[]|err] s1]; cbn [snd] in *.
  2:{ split; [|done]. intros p c _ Hp. rewrite Hfil by done. split; [done | congruence]. }
  pose proof (new_entry_loop_grows to_toml runtime MAX_ATTEMPTS mode None s1) as Hg.
  pose proof (new_entry_loop_ok to_toml runtime MAX_ATTEMPTS mode None s1) as Hok.
  destruct (new_entry_loop MAX_ATTEMPTS mode None s1) as [r s']; cbn [snd] in *. split.
  - intros p c Hm Hp. rewrite <- (Hfil p Hp). by apply Hg.
  - destruct r as [[]|err]; [|done]. destruct (Hok s' eq_refl) as (e & Hst & [Hc Hfresh] & Hman). exists e.
    rewrite <- Hent. split; [done|]. split; [|done]. intros k Hk. destruct (Hfresh k Hk) as [Hn Hs]. split; [|done].
    rewrite <- Hfil; [done|]. intros idx e0 _. unfold meta_files. rewrite not_elem_of_union, !not_elem_of_singleton.
    rewrite !file_of_ending, Hc. unfold tmp_name. rewrite <- app_assoc.
    split; destruct k, (compressed e0); try done; apply endings_ne; vm_compute; reflexivity.
Qed.


(** C21: no recording becomes invisible.  If every capture file with something in it belongs to an entry of the
    manifest, then so it is after any operations, captures and failures: deleting drops an entry only
    once its files are gone. *)
Theorem recordings_stay_visible ops s :
  (forall p c, is_capture p -> sys_files s !! p = Some c -> c <> [] ->
     exists e, e ∈ entries (store s) /\ file_of e Kind_Qmdl = p) ->
  forall p c, is_capture p -> sys_files (run ops s) !! p = Some c -> c <> [] ->
    exists e, e ∈ entries (store (run ops s)) /\ file_of e Kind_Qmdl = p.
Proof. apply (pres_run visible visible_perform). Qed.

(** Deleting a recording takes exactly that recording.  On success the entry of that name is gone from the
    manifest, its files are gone, every other file but the manifest is as it was, and the current
    recording is still the same one, wherever its entry has moved, unless it was the one deleted;
    when a file cannot be deleted the entry and the current recording stay as they were. *)
Theorem delete_entry_spec n s :
  match perform (Op_delete n) s with
  | (Ok _, s') => exists idx e, entries (store s) !! idx = Some e /\ name e = n /\
      entries (store s') = delete idx (entries (store s)) /\
      (forall k, sys_files s' !! file_of e k = None) /\
      (forall p, p ∉ entry_files e -> p ∉ manifest_files -> sys_files s' !! p = sys_files s !! p) /\
      (current_entry (store s) = Some idx -> current_entry (store s') = None) /\
      (forall c, current_entry (store s) = Some c -> c <> idx ->
         exists c', current_entry (store s') = Some c' /\ entries (store s') !! c' = entries (store s) !! c)
  | (Err (DeleteFileError _), s') => store s' = store s
  | (Err NoSuchEntryError, s') => s' = s /\ forall e, e ∈ entries (store s) -> name e <> n
  | (Err _, _) => True
  end.
Proof.
  cbn [perform]. pose proof (delete_entry_effect n s) as H. destruct (delete_entry n s) as [r s'].
  destruct H as [(-> & -> & H) | (idx & e & _ & He & Hname & Hfil & _ & [[[k ->] Hst] | (Hr & Hst & Hgone)])]; [done | done |].
  destruct Hr as [-> | [k ->]]; [|done]. exists idx, e. rewrite Hst. cbn [entries current_entry]. split_and!; try done.
  - intros ->. cbn. by rewrite Nat.eqb_refl.
  - intros c -> Hne. unfold current_after. destruct (Nat.eqb_spec c idx); [done|].
    destruct (idx <? c)%nat eqn:Hlt; eexists; (split; [reflexivity|]); apply lookup_current_after; unfold current_after;
      by destruct (Nat.eqb_spec c idx); rewrite ?Hlt.
Qed.
End safety.

(** ** Instances *)

(** A concrete encoding of manifests, for the instances below. *)
#[local] Instance GpsMode_countable : Countable GpsMode.
Proof.
  by refine (inj_countable' (fun m => match m with Gps_Disabled => 0%nat | Gps_Fixed => 1%nat | Gps_Api => 2%nat end)
    (fun n => match n with 0%nat => Gps_Disabled | 1%nat => Gps_Fixed | _ => Gps_Api end) _); intros [].
Defined.
#[local] Instance ManifestEntry_countable : Countable ManifestEntry.
Proof.
  by refine (inj_countable'
    (fun e => ((name e, start_time e, last_message_time e, qmdl_size_bytes e, entry_version e, entry_os e),
               (entry_arch e, stop_reason e, upload_time e, gps_mode e, compressed e, display_name e, notes e)))
    (fun '((a, b, c, d, e, f), (g, h, i, j, k, l, m)) => mkManifestEntry a b c d e f g h i j k l m) _); intros [].
Defined.
Definition example_to_toml (m : Manifest) : list Z := [Z.pos (encode m)].
Definition example_from_toml (bs : list Z) : option Manifest := match bs with [Z.pos p] => decode p | _ => None end.
Lemma example_toml_roundtrip m : example_from_toml (example_to_toml m) = Some m.
Proof. apply decode_encode. Qed.

Definition example_entry : ManifestEntry :=
  mkManifestEntry (lit "100-0") (100 * 10 ^ 9) None 3 None None None None None None true None None.
Definition example_system : Sys :=
  mkSys (mkStore [example_entry] None)
    (mkWorld {[file_of example_entry Kind_Qmdl := [1; 2; 3]; manifest_name := example_to_toml [example_entry]]}
       [None; None; Some (mkFault StorageFull 1)] (fun n => Z.of_nat n * 10 ^ 9) 0 0 0).
Definition example_ops : list store_op :=
  [Op_new Gps_Disabled; Op_new Gps_Disabled; Op_capture [7; 8]; Op_delete (lit "100-0"); Op_stop (lit "full")].

Definition example_run (ops : list store_op) : Sys :=
  run example_to_toml (fun _ => Ok []) (fun _ => None) None (lit "0.3", lit "linux", lit "arm") ops example_system.


(** The capture of the recording started after the failure is owned. *)
Lemma recordings_stay_visible_witness :
  exists e, e ∈ entries (store (example_run example_ops)) /\ file_of e Kind_Qmdl = lit "1-1.qmdl.gz".
Proof.
  refine (recordings_stay_visible example_to_toml example_from_toml (fun _ => Ok []) (fun _ => None) None (lit "0.3", lit "linux", lit "arm")
    example_ops example_system _ (lit "1-1.qmdl.gz") [7; 8] _ _ _).
  - intros p c Hp Hc _. exists example_entry. split; [by left|].
    unfold sys_files, example_system in Hc. cbn [world files] in Hc.
    apply lookup_insert_Some in Hc as [[H _]|[_ H]]; [exact H|]. exfalso.
    apply lookup_singleton_Some in H as [<- _]. apply capture_not_manifest in Hp. apply Hp. unfold manifest_files.
    apply elem_of_union. left. by apply elem_of_singleton.
  - by exists (lit "1-1"), true.
  - vm_compute. reflexivity.
  - done.
Defined.
