(* ===== verification/Recovery.v ===== *)
(** * Rebuilding the store, names and uploads

    Theorems about the rest of [Store]: a lost manifest is rebuilt from the names of the recordings,
    display names are made safe, and the upload worker is given the entry it should. *)

From stdpp Require Import sorting.
From S2P Require Import Prelude RustStr Filesystem Sidecar Store.

Local Open Scope Z_scope.

(** ** A storage that works *)

Definition calm (w : World) : Prop := Forall (fun f => f = None) (schedule w).

Lemma faulty_calm {A : Type} (partial : nat -> files_t -> files_t) (op : files_t -> result ErrorKind (A * files_t)) w : calm w ->
  exists w', calm w' /\ faulty partial op w = match op (files w) with
    | Ok (a, fs) => (Ok a, set_files w' fs) | Err e => (Err e, set_files w' (files w)) end.
Proof.
  unfold calm, faulty. intros Hw. exists (mkWorld (files w) (tail (schedule w)) (time w) (reads w) (offset w) (sequence w)).
  destruct (schedule w) as [|f l]; cbn; [split; [done|]; by destruct (op (files w)) as [[]|]|].
  apply Forall_cons in Hw as [-> Hl]. split; [done|]. by destruct (op (files w)) as [[]|].
Qed.
Lemma calm_set_files w fs : calm w -> calm (set_files w fs).
Proof. done. Qed.

(** Running a step that works. *)
Ltac calm_step H :=
  match goal with
  | |- context [faulty ?p ?op ?w] =>
      let w' := fresh "w" in let Hc := fresh "Hc" in let Heq := fresh "Heq" in
      destruct (faulty_calm p op w ltac:(first [exact H | apply calm_set_files; exact H])) as (w' & Hc & Heq); rewrite Heq; clear Heq; cbn
  end.

(** Lists in order of the start, the entries that start together in the order they had. *)
Definition starts_before (a b : ManifestEntry) : Prop := start_time a <= start_time b.
#[export] Instance starts_before_trans : Transitive starts_before.
Proof. intros a b c. unfold starts_before. lia. Qed.

Lemma insert_perm e l : insert_by_start e l ≡ₚ e :: l.
Proof. induction l as [|x l IH]; cbn; [done|]. destruct (_ <=? _); [done|]. rewrite IH. apply Permutation_swap. Qed.
Lemma sort_perm l : sort_by_start l ≡ₚ l.
Proof. induction l as [|e l IH]; cbn; [done|]. by rewrite insert_perm, IH. Qed.

Lemma insert_sorted e l : StronglySorted starts_before l -> StronglySorted starts_before (insert_by_start e l).
Proof.
  induction 1 as [|x l Hs IH Hx]; cbn; [repeat constructor|]. destruct (Z.leb_spec (start_time e) (start_time x)).
  - constructor; [by constructor|]. constructor; [done|]. eapply Forall_impl; [exact Hx|].
    unfold starts_before. intros y ?. lia.
  - constructor; [done|]. rewrite insert_perm. constructor; [unfold starts_before; lia | done].
Qed.
Lemma sort_sorted l : StronglySorted starts_before (sort_by_start l).
Proof. induction l as [|e l IH]; cbn; [constructor | by apply insert_sorted]. Qed.

Lemma insert_stable t e l :
  filter (fun x => start_time x = t) (insert_by_start e l) = filter (fun x => start_time x = t) (e :: l).
Proof.
  induction l as [|x l IH]; cbn; [done|]. destruct (Z.leb_spec (start_time e) (start_time x)); [done|].
  rewrite !filter_cons in *. rewrite IH. repeat case_decide; try done. lia.
Qed.
Lemma sort_stable t l : filter (fun x => start_time x = t) (sort_by_start l) = filter (fun x => start_time x = t) l.
Proof.
  induction l as [|e l IH]; [done|]. change (sort_by_start (e :: l)) with (insert_by_start e (sort_by_start l)).
  rewrite insert_stable. rewrite !filter_cons. by rewrite IH.
Qed.

(** ** What a listed file is recovered as *)

Section recovery.
Context (to_toml : Manifest -> list Z) (modified : rstr -> option Z).

Definition recovered (fs : files_t) (filename : rstr) : option ManifestEntry :=
  p ← recording_stem filename;
  secs ← stem_seconds p.1;
  c ← fs !! filename;
  if timestamp_ok secs then m ← modified filename; Some (recovered_entry p.1 p.2 secs m (Z.of_nat (length c))) else None.

Lemma recover_file_calm f w : calm w ->
  exists w', calm w' /\ files w' = files w /\ recover_file modified f w = (Ok (recovered (files w) f), w').
Proof.
  intros Hw. unfold recover_file, recovered. destruct (recording_stem f) as [[stem c]|]; cbn; [|by exists w].
  destruct (stem_seconds stem) as [secs|]; cbn; [|by exists w].
  unfold mbind, M_bind, attempt, file_size. calm_step Hw.
  destruct (files w !! f) as [bs|]; cbn; eexists; (split; [|split; [|reflexivity]]); done.
Qed.

Lemma recover_files_calm listing w : calm w ->
  exists w', calm w' /\ files w' = files w /\ recover_files modified listing w = (Ok (omap (recovered (files w)) listing), w').
Proof.
  revert w. induction listing as [|f listing IH]; intros w Hw; cbn [recover_files];
    unfold mbind, M_bind, dir_op; calm_step Hw; [by exists (set_files w0 (files w))|].
  destruct (recover_file_calm f (set_files w0 (files w)) Hc) as (w1 & Hw1 & Hf1 & ->).
  destruct (IH w1 Hw1) as (w2 & Hw2 & Hf2 & ->). exists w2. split; [done|]. split; [by rewrite Hf2, Hf1|].
  rewrite Hf1. cbn [files set_files omap list_omap]. by destruct (recovered (files w) f).
Qed.

Lemma write_manifest_calm s : calm (world s) ->
  exists w', calm w' /\ write_manifest to_toml s = (Ok tt, mkSys (store s) w') /\
    files w' = <[manifest_name := to_toml (entries (store s))]> (delete manifest_tmp (files (world s))).
Proof.
  intros Hw. unfold write_manifest. rewrite get_store_bind. unfold mbind, M_bind, io, file_create, append, rename.
  calm_step Hw. calm_step Hc. rewrite !lookup_insert_eq. cbn. calm_step Hc0. rewrite !lookup_insert_eq. cbn.
  eexists. split; [|split; [reflexivity|]]; [done|]. cbn. by rewrite !delete_insert_eq.
Qed.

(** The name an entry is made with, and what the rebuild makes of it. *)
Definition own_stem (secs seq : Z) : rstr := dec secs ++ lit "-" ++ dec seq.

Lemma no_digit_ending suf c : last suf = Some c -> is_ascii_digit c = false ->
  forall secs seq, 0 <= seq -> strip_suffix suf (own_stem secs seq) = None.
Proof.
  clear. intros Hl Hc secs seq Hs. destruct (strip_suffix suf (own_stem secs seq)) as [r|] eqn:Hr; [|done]. exfalso.
  destruct (dec_spec seq Hs) as (Hne & Hd & _). unfold strip_suffix in Hr.
  destruct (strip_prefix (rev suf) (rev (own_stem secs seq))) as [q|] eqn:Hp; [|done].
  assert (Hsw : starts_with (rev (own_stem secs seq)) (rev suf) = true) by (apply bool_decide_eq_true; rewrite Hp; by eexists).
  apply starts_with_spec in Hsw as [t Ht]. unfold own_stem in Ht. rewrite app_assoc, rev_app_distr in Ht.
  apply last_Some in Hl as [l' ->]. rewrite (rev_app_distr l') in Ht.
  destruct (rev (dec seq)) as [|x xs] eqn:Hx.
  { apply Hne. rewrite <- (rev_involutive (dec seq)), Hx. done. }
  cbn in Ht. injection Ht as -> _. apply Forall_rev in Hd. rewrite Hx in Hd. apply Forall_cons in Hd as [Hd _]. congruence.
Qed.

Lemma own_stem_recovered secs seq c : 0 <= secs < 2 ^ 63 -> 0 <= seq ->
  recording_stem (own_stem secs seq ++ ending Kind_Qmdl c) = Some (own_stem secs seq, c) /\
  stem_seconds (own_stem secs seq) = Some secs.
Proof.
  clear. intros Hs Hq. split.
  - unfold recording_stem, ends_with.
    assert (Htrim : forall suf ch, last suf = Some ch -> is_ascii_digit ch = false ->
              trim_end_matches suf (own_stem secs seq ++ suf) = own_stem secs seq).
    { intros suf ch Hl Hd. unfold trim_end_matches. rewrite length_app. apply last_Some in Hl as Hl'. destruct Hl' as [l' Hl'].
      assert (length suf = S (length l')) as -> by (rewrite Hl', length_app; cbn; lia). rewrite Nat.add_succ_r.
      cbn [trim_end_matches_fuel]. rewrite strip_suffix_app.
      destruct (length (own_stem secs seq) + length l')%nat; cbn [trim_end_matches_fuel]; [done|].
      by rewrite (no_digit_ending _ _ Hl Hd). }
    destruct c; unfold ending; cbn [get_filename app].
    + rewrite bool_decide_eq_false_2, bool_decide_eq_true_2.
      * by rewrite (Htrim _ 122).
      * rewrite strip_suffix_app. by eexists.
      * intros [r Hr]. unfold strip_suffix in Hr. rewrite rev_app_distr in Hr. discriminate Hr.
    + rewrite bool_decide_eq_true_2; [by rewrite (Htrim _ 108)|]. rewrite strip_suffix_app. by eexists.
  - unfold stem_seconds, own_stem. destruct (dec_spec secs) as (_ & Hd & _); [lia|].
    change (lit "-" ++ dec seq) with (45 :: dec seq). rewrite split_on_head; [by apply parse_i64_dec|].
    intros Hin. apply (proj1 (Forall_forall _ _) Hd) in Hin. done.
Qed.

(** ** Properties *)

(** A lost manifest is rebuilt.  On a storage that works, the recovery
    returns the entries read off the listed names, each of the listed ones once, in order of their start and otherwise as
    listed; it writes them as the manifest and changes no other file but the manifest's temporary
    one.  Every recording the program made itself comes back under its own name, with the seconds
    of its start and its size, as the owner of the very file it was. *)
Theorem recover_own_recordings listing w : calm w ->
  exists es w', recover to_toml modified listing w = (Ok (mkStore es None), w') /\
    es ≡ₚ omap (recovered (files w)) listing /\ StronglySorted starts_before es /\
    (forall t, filter (fun x => start_time x = t) es = filter (fun x => start_time x = t) (omap (recovered (files w)) listing)) /\
    files w' = <[manifest_name := to_toml es]> (delete manifest_tmp (files w)) /\
    (forall secs seq c content m p, 0 <= secs <= 8210266876799 -> 0 <= seq ->
       p = own_stem secs seq ++ ending Kind_Qmdl c ->
       p ∈ listing -> files w !! p = Some content -> modified p = Some m ->
       exists e, e ∈ es /\ file_of e Kind_Qmdl = p /\ name e = own_stem secs seq /\ compressed e = c /\
         start_time e = secs * 10 ^ 9 /\ last_message_time e = Some m /\ qmdl_size_bytes e = Z.of_nat (length content)).
Proof.
  intros Hw. unfold recover, map_err_m, mbind, M_bind, dir_op. calm_step Hw.
  destruct (recover_files_calm listing (set_files w0 (files w)) Hc) as (w1 & Hw1 & Hf1 & Heq). rewrite Heq. cbn.
  cbn in Hf1, Heq. set (found := omap (recovered (files w)) listing).
  unfold with_store. destruct (write_manifest_calm (mkSys (mkStore (sort_by_start found) None) w1) Hw1) as (w2 & _ & -> & Hf2).
  exists (sort_by_start found), w2. cbn [store world entries] in *. split; [done|]. split; [apply sort_perm|]. split; [apply sort_sorted|]. split; [intros t; apply sort_stable|]. split.
  - by rewrite Hf2, Hf1.
  - intros secs seq c content m p Hs Hq Hp Hin Hc0 Hm. change (p = own_stem secs seq ++ ending Kind_Qmdl c) in Hp. destruct (own_stem_recovered secs seq c ltac:(lia) Hq) as [Hr Hsec].
    exists (recovered_entry (own_stem secs seq) c secs m (Z.of_nat (length content))). split.
    + rewrite sort_perm. apply list_elem_of_omap. exists p. split; [done|]. unfold recovered. rewrite Hp, Hr. cbn [mbind option_bind fst snd].
      rewrite Hsec. cbn [mbind option_bind]. rewrite <- Hp, Hc0, Hm. cbn. unfold timestamp_ok.
      by rewrite (proj2 (Z.leb_le _ _)), (proj2 (Z.leb_le _ _)) by lia.
    + rewrite Hp. by destruct c.
Qed.
End recovery.

(** A recording of the program's own and a file that is none. *)
Definition example_listing : list rstr := [own_stem 1700000000 3 ++ ending Kind_Qmdl true; lit "notes.txt"].
Definition example_world : World :=
  mkWorld {[own_stem 1700000000 3 ++ ending Kind_Qmdl true := [1; 2; 3]]} [] (fun _ => 0) 0 0 0.
Lemma recover_own_recordings_witness :
  exists es w', recover (fun _ => []) (fun _ => Some 5) example_listing example_world = (Ok (mkStore es None), w') /\
    exists e, e ∈ es /\ file_of e Kind_Qmdl = lit "1700000000-3.qmdl.gz" /\ start_time e = 1700000000 * 10 ^ 9 /\ qmdl_size_bytes e = 3.
Proof.
  destruct (recover_own_recordings (fun _ => []) (fun _ => Some 5) example_listing example_world) as (es & w' & Hr & _ & _ & _ & _ & Hown);
    [constructor|].
  exists es, w'. split; [exact Hr|].
  destruct (Hown 1700000000 3 true [1; 2; 3] 5 (own_stem 1700000000 3 ++ ending Kind_Qmdl true)) as (e & He & Hf & _ & _ & Hs & _ & Hn);
    [lia | lia | reflexivity | by left | reflexivity | reflexivity|].
  exists e. split_and!; [done | by rewrite Hf | done | done].
Defined.

(** ** Display names *)

Definition display_char (c : rchar) : bool := is_ascii_alphanumeric c || (c =? 45) || (c =? 95).
Definition clean_char (c : rchar) : rchar := if display_char c then c else 95.

Lemma sanitize_trims s : sanitize_display_name s = trim_matches 95 (take MAX_DISPLAY_NAME (map clean_char s)).
Proof. unfold sanitize_display_name. by destruct (trim_matches 95 _). Qed.

Lemma clean_chars s : Forall (fun c => display_char c = true) (map clean_char s).
Proof. apply Forall_forall. intros c (x & -> & _)%list_elem_of_fmap. unfold clean_char. by destruct (display_char x) eqn:H. Qed.

Lemma clean_id s : Forall (fun c => display_char c = true) s -> map clean_char s = s.
Proof. induction 1 as [|c s Hc _ IH]; cbn; [done|]. unfold clean_char at 1. by rewrite Hc, IH. Qed.

(** A display name is safe wherever it is used.  Whatever text is given, the name kept has at most 29 characters, all
    of them ASCII letters, digits, [-] or [_], and neither begins nor ends with [_]; it is the cleaned beginning of
    the text without the [_] around it; a text that is already such a name is kept as it is, so
    that cleaning twice changes nothing. *)
Theorem sanitize_display_name_spec s :
  let r := sanitize_display_name s in
  (length r <= MAX_DISPLAY_NAME)%nat /\ Forall (fun c => display_char c = true) r /\
  (forall c t, r = c :: t -> c <> 95) /\ (forall c t, r = t ++ [c] -> c <> 95) /\
  (exists a b, take MAX_DISPLAY_NAME (map clean_char s) = a ++ r ++ b /\ Forall (fun c => c = 95) (a ++ b)) /\
  (forall t, (length t <= MAX_DISPLAY_NAME)%nat -> Forall (fun c => display_char c = true) t ->
     (forall c u, t = c :: u -> c <> 95) -> (forall c u, t = u ++ [c] -> c <> 95) -> sanitize_display_name t = t) /\
  sanitize_display_name r = r.
Proof.
  assert (Hid : forall t, (length t <= MAX_DISPLAY_NAME)%nat -> Forall (fun c => display_char c = true) t ->
     (forall c u, t = c :: u -> c <> 95) -> (forall c u, t = u ++ [c] -> c <> 95) -> sanitize_display_name t = t).
  { intros t Hl Hc Hh He. rewrite sanitize_trims, clean_id, take_ge by done. apply trim_by_id.
    - intros c u ->. apply Z.eqb_neq. by eapply Hh.
    - intros c u ->. apply Z.eqb_neq. by eapply He. }
  rewrite sanitize_trims. unfold trim_matches.
  destruct (trim_by_spec (fun x => x =? 95) (take MAX_DISPLAY_NAME (map clean_char s))) as (a & b & Hab & Hp & Hh & Hl).
  set (r := trim_by _ _) in *. cbn zeta.
  assert (Hlen : (length r <= MAX_DISPLAY_NAME)%nat).
  { apply (f_equal (@length _)) in Hab. rewrite length_take, !length_app in Hab. lia. }
  assert (Hch : Forall (fun c => display_char c = true) r).
  { pose proof (Forall_take _ MAX_DISPLAY_NAME _ (clean_chars s)) as H. rewrite Hab in H. by apply Forall_app in H as [_ [H _]%Forall_app]. }
  assert (Hh' : forall c t, r = c :: t -> c <> 95) by (intros c t Hr; apply Z.eqb_neq; by eapply Hh).
  assert (Hl' : forall c t, r = t ++ [c] -> c <> 95) by (intros c t Hr; apply Z.eqb_neq; by eapply Hl).
  split_and!; try done; [|by apply Hid].
  exists a, b. split; [done|]. eapply Forall_impl; [exact Hp|]. cbn. lia.
Qed.

(** ** The next recording to upload *)

Definition age_of (now : Z) (e : ManifestEntry) : Z := now - default (start_time e) (last_message_time e).
Definition eligible (st : RecordingStore) (now min_age : Z) (e : ManifestEntry) : Prop :=
  e ∈ entries st /\ is_current_entry st (name e) = false /\ upload_time e = None /\ min_age < age_of now e.

Lemma max_by_age_spec l :
  match max_by_age l with
  | Some x => x ∈ l /\ forall y, y ∈ l -> y.2 <= x.2
  | None => l = []
  end.
Proof.
  induction l as [|x l IH]; [done|]. cbn [max_by_age]. destruct (max_by_age l) as [y|].
  - destruct IH as [Hin Hmax]. destruct (Z.leb_spec x.2 y.2).
    + split; [by right|]. intros z [->|Hz]%elem_of_cons; [done | by apply Hmax].
    + split; [by left|]. intros z [->|Hz]%elem_of_cons; [done|]. specialize (Hmax z Hz). lia.
  - subst. split; [by left|]. intros z Hz%list_elem_of_singleton. by subst.
Qed.

(** The upload worker is given the longest idle finished recording.  The entry returned is never the one
    being recorded, was never uploaded, and has been idle for longer than the minimum; none that
    qualifies has been idle for longer; and nothing is returned only when none qualifies. *)
Theorem next_unuploaded_spec st now min_age :
  match get_next_unuploaded_entry st now min_age with
  | Some n => exists e, eligible st now min_age e /\ name e = n /\
      forall e', eligible st now min_age e' -> age_of now e' <= age_of now e
  | None => forall e, ~ eligible st now min_age e
  end.
Proof.
  unfold get_next_unuploaded_entry.
  set (f := fun e => _) at 1. set (l := omap f (entries st)).
  assert (Hf : forall n a, (n, a) ∈ l <-> exists e, eligible st now min_age e /\ name e = n /\ age_of now e = a).
  { intros n a. unfold l. rewrite list_elem_of_omap. unfold f, eligible. split.
    - intros (e & Hin & He). exists e. destruct (is_current_entry st (name e)); [done|].
      case_bool_decide as Hu; [done|]. cbn in He. fold (age_of now e) in He.
      destruct (Z.ltb_spec min_age (age_of now e)); [|done]. injection He as <- <-. rewrite eq_None_not_Some. done.
    - intros (e & (Hin & Hc & Hu & Ha) & <- & <-). exists e. split; [done|]. rewrite Hc, Hu. cbn.
      fold (age_of now e). by rewrite (proj2 (Z.ltb_lt _ _)). }
  pose proof (max_by_age_spec l) as Hmax. destruct (max_by_age l) as [[n a]|]; cbn.
  - destruct Hmax as [Hin Hmax]. apply Hf in Hin as (e & He & Hn & Ha). exists e. split_and!; [done..|].
    intros e' He'. rewrite Ha. apply (Hmax (name e', age_of now e')), Hf. eauto.
  - intros e He. assert (Hin : (name e, age_of now e) ∈ l) by (apply Hf; eauto). rewrite Hmax in Hin. by apply elem_of_nil in Hin.
Qed.
