(* ===== verification/SubscriberId.v ===== *)
(** * The identities a device sends ([daemon/src/subscriber_id.rs], [daemon/src/redact.rs])

    Finding the identity in a NAS message, decoding it, and overwriting it in a capture that is to
    be shared.  Octets are numbers below 256. *)

From S2P Require Import Prelude RustStr.

Local Open Scope Z_scope.

Inductive Identity :=
| Identity_Imsi (value : rstr)
| Identity_Imei (value : rstr)
| Identity_Imeisv (value : rstr)
| Identity_Tmsi (value : rstr).
#[export] Instance Identity_eq_dec : EqDecision Identity.
Proof. solve_decision. Defined.

Definition TYPE_IMSI : Z := 1.
Definition TYPE_IMEI : Z := 2.
Definition TYPE_IMEISV : Z := 3.
Definition TYPE_GUTI : Z := 6.

(** [char::from_digit(n, 10)]. *)
Definition from_digit (n : Z) : option rchar := if n <? 10 then Some (48 + n) else None.

(** The loop over the octets after the first: the last high nibble of an even count is filler. *)
Fixpoint more_digits (odd : bool) (bytes : list Z) : option rstr :=
  match bytes with
  | [] => Some []
  | byte :: bytes =>
      lo ← from_digit (Z.land byte 0x0f);
      if match bytes with [] => negb odd | _ :: _ => false end then Some [lo]
      else hi ← from_digit (Z.shiftr byte 4); more ← more_digits odd bytes; Some (lo :: hi :: more)
  end.

Definition decode_eps_mobile_identity (bytes : list Z) : option Identity :=
  match bytes with
  | [] => None
  | first :: rest =>
      let id_type := Z.land first 7 in
      let odd := negb (Z.land first 8 =? 0) in
      if (id_type =? TYPE_IMSI) || (id_type =? TYPE_IMEI) || (id_type =? TYPE_IMEISV) then
        d ← from_digit (Z.shiftr first 4);
        more ← more_digits odd rest;
        let digits := d :: more in
        Some (if id_type =? TYPE_IMSI then Identity_Imsi digits
              else if id_type =? TYPE_IMEI then Identity_Imei digits else Identity_Imeisv digits)
      else if id_type =? TYPE_GUTI then
        if (length bytes <? 11)%nat then None
        else Some (Identity_Tmsi (fmt_hex_fixed 8 (be_value (take 4 (drop 7 bytes)))))
      else None
  end.

Definition PD_EMM : Z := 7.
Definition IDENTITY_RESPONSE : Z := 0x56.
Definition ATTACH_REQUEST : Z := 0x41.

(** [payload.get(range)] for [ie_start + 1 .. ie_start + 1 + length]. *)
Definition get_range (payload : list Z) (lo len : nat) : option (list Z) :=
  if (lo + len <=? length payload)%nat then Some (take len (drop lo payload)) else None.

(** The identity, where its octets begin and how many there are. *)
Definition identity_from_nas_with_range (payload : list Z) : option (Identity * (nat * nat)) :=
  header ← head payload;
  if negb (Z.land header 0x0f =? PD_EMM) then None
  else if negb (Z.shiftr header 4 =? 0) then None
  else
    message_type ← payload !! 1%nat;
    ie_start ← (if message_type =? IDENTITY_RESPONSE then Some 2%nat
                else if message_type =? ATTACH_REQUEST then Some 3%nat else None);
    len ← payload !! ie_start;
    value ← get_range payload (S ie_start) (Z.to_nat len);
    identity ← decode_eps_mobile_identity value;
    Some (identity, (S ie_start, Z.to_nat len)).

Definition identity_from_nas (payload : list Z) : option Identity :=
  fst <$> identity_from_nas_with_range payload.

(** ** Redaction *)

Record RedactionReport := mkReport { imsi : Z; imei : Z; imeisv : Z; tmsi : Z; messages_scanned : Z }.
Definition report_total (r : RedactionReport) : Z := imsi r + imei r + imeisv r + tmsi r.
Definition report_record (r : RedactionReport) (identity : Identity) : RedactionReport :=
  match identity with
  | Identity_Imsi _ => mkReport (imsi r + 1) (imei r) (imeisv r) (tmsi r) (messages_scanned r)
  | Identity_Imei _ => mkReport (imsi r) (imei r + 1) (imeisv r) (tmsi r) (messages_scanned r)
  | Identity_Imeisv _ => mkReport (imsi r) (imei r) (imeisv r + 1) (tmsi r) (messages_scanned r)
  | Identity_Tmsi _ => mkReport (imsi r) (imei r) (imeisv r) (tmsi r + 1) (messages_scanned r)
  end.

Definition redact_value (value : list Z) : list Z :=
  match value with [] => [] | first :: rest => Z.land first 0x0f :: map (fun _ => 0) rest end.

(** What was removed, and the payload after. *)
Definition redact_nas_identity (payload : list Z) : option Identity * list Z :=
  match identity_from_nas_with_range payload with
  | None => (None, payload)
  | Some (identity, (lo, len)) =>
      (Some identity, take lo payload ++ redact_value (take len (drop lo payload)) ++ drop (lo + len) payload)
  end.

(** ** The encoding of TS 24.301, section 9.9.3.12 *)

(** Digits two to an octet, the lower nibble first; an even count ends in a filler. *)
Fixpoint pack_digits (ds : list Z) : list Z :=
  match ds with
  | [] => []
  | [d] => [0xf0 + d]
  | lo :: hi :: ds => (16 * hi + lo) :: pack_digits ds
  end.
Definition encode_digits (id_type : Z) (ds : list Z) : list Z :=
  match ds with
  | [] => []
  | d :: ds => (16 * d + (if Nat.odd (length (d :: ds)) then 8 else 0) + id_type) :: pack_digits ds
  end.
Definition digit_text (ds : list Z) : rstr := map (fun d => 48 + d) ds.
Definition identity_of (id_type : Z) (text : rstr) : Identity :=
  if id_type =? TYPE_IMSI then Identity_Imsi text else if id_type =? TYPE_IMEI then Identity_Imei text else Identity_Imeisv text.

Definition is_digit (d : Z) : Prop := 0 <= d < 10.

Ltac digit := unfold is_digit in *; lia.

Lemma from_digit_ok d : is_digit d -> from_digit d = Some (48 + d).
Proof. unfold is_digit, from_digit. intros H. by rewrite (proj2 (Z.ltb_lt _ _)) by lia. Qed.

(** The nibbles of an octet. *)
Lemma low_nibble hi lo : 0 <= lo < 16 -> Z.land (16 * hi + lo) 0x0f = lo.
Proof. intros H. rewrite (Z.land_ones _ 4) by lia. rewrite Z.mul_comm, Z.add_comm, Z.mod_add by lia. by apply Z.mod_small. Qed.
Lemma high_nibble_of hi lo : 0 <= lo < 16 -> Z.shiftr (16 * hi + lo) 4 = hi.
Proof. intros H. rewrite Z.shiftr_div_pow2 by lia. rewrite Z.mul_comm, Z.div_add_l by lia. rewrite Z.div_small by done. lia. Qed.

(** Induction two elements at a time. *)
Lemma digit_pairs_ind {A : Type} (P : list A -> Prop) :
  P [] -> (forall x, P [x]) -> (forall x y l, P l -> P (x :: y :: l)) -> forall l, P l.
Proof.
  intros H0 H1 H2 l. enough (H : P l /\ forall x, P (x :: l)) by apply H.
  induction l as [|y l [IHl IHc]]; split; auto.
Qed.

Lemma more_digits_pack ds odd : Forall is_digit ds -> odd = Nat.even (length ds) ->
  more_digits odd (pack_digits ds) = Some (digit_text ds).
Proof.
  revert odd. induction ds as [| d | lo hi ds IH] using digit_pairs_ind; intros odd Hd ->; [done| |].
  - forall_inv. cbn [pack_digits more_digits length]. change (0xf0 + d) with (16 * 15 + d).
    rewrite low_nibble by digit. by rewrite (from_digit_ok d).
  - forall_inv. cbn [pack_digits more_digits]. rewrite low_nibble, high_nibble_of by digit.
    rewrite !from_digit_ok by done. cbn [mbind option_bind].
    assert (Hl : match pack_digits ds with [] => negb (Nat.even (length (lo :: hi :: ds))) | _ :: _ => false end = false).
    { by destruct ds as [|x [|y ds]]. }
    rewrite Hl. change (Nat.even (length (lo :: hi :: ds))) with (Nat.even (length ds)). by rewrite (IH (Nat.even (length ds)) Hd eq_refl).
Qed.

Lemma nibble_cases (P : Z -> bool) : forallb P (seqZ 0 8) = true -> forall v, 0 <= v < 8 -> P v = true.
Proof. rewrite forallb_forall. intros H v Hv. apply H, list_elem_of_In, elem_of_seqZ. lia. Qed.

Lemma type_octet d (odd : bool) ty : is_digit d -> 0 <= ty < 8 ->
  let first := 16 * d + (if odd then 8 else 0) + ty in
  Z.land first 7 = ty /\ negb (Z.land first 8 =? 0) = odd /\ Z.shiftr first 4 = d.
Proof.
  intros Hd Ht. cbn zeta. unfold is_digit in Hd.
  assert (Hlow : forall x, 0 <= x < 16 -> forall m, 0 <= m < 16 -> Z.land (16 * d + x) m = Z.land x m).
  { intros x Hx m Hm. rewrite <- (low_nibble d x Hx) at 2. rewrite <- Z.land_assoc. f_equal.
    rewrite Z.land_comm, (Z.land_ones _ 4) by lia. symmetry. by apply Z.mod_small. }
  rewrite <- Z.add_assoc. split_and!.
  - rewrite Hlow by (destruct odd; lia). destruct odd; cbn [Z.add]; [apply (Z.eqb_eq _ ty), (nibble_cases (fun t => Z.land (8 + t) 7 =? t)) | apply (Z.eqb_eq _ ty), (nibble_cases (fun t => Z.land t 7 =? t))]; done.
  - rewrite Hlow by (destruct odd; lia). destruct odd; cbn [Z.add].
    + apply (nibble_cases (fun t => negb (Z.land (8 + t) 8 =? 0))); done.
    + apply negb_false_iff, (nibble_cases (fun t => Z.land t 8 =? 0)); done.
  - rewrite high_nibble_of; [done | destruct odd; lia].
Qed.

Lemma decode_encode_digits ty ds : 1 <= ty <= 3 -> ds <> [] -> Forall is_digit ds ->
  decode_eps_mobile_identity (encode_digits ty ds) = Some (identity_of ty (digit_text ds)).
Proof.
  intros Ht Hne Hds. destruct ds as [|d ds]; [done|]. forall_inv. cbn [encode_digits].
  destruct (type_octet d (Nat.odd (length (d :: ds))) ty) as (H7 & H8 & H4); [done | lia|].
  unfold decode_eps_mobile_identity. rewrite H7, H8, H4. unfold TYPE_IMSI, TYPE_IMEI, TYPE_IMEISV, identity_of.
  assert (Hcase : (ty =? 1) || (ty =? 2) || (ty =? 3) = true) by lia. rewrite Hcase.
  rewrite from_digit_ok by done. cbn [mbind option_bind length]. rewrite Nat.odd_succ. by rewrite more_digits_pack.
Qed.

(** *** Redacted values *)

Definition blank (i : Identity) : Identity :=
  match i with
  | Identity_Imsi v => Identity_Imsi (map (fun _ => 48) v)
  | Identity_Imei v => Identity_Imei (map (fun _ => 48) v)
  | Identity_Imeisv v => Identity_Imeisv (map (fun _ => 48) v)
  | Identity_Tmsi v => Identity_Tmsi (map (fun _ => 48) v)
  end.

Lemma more_digits_blank odd bytes m :
  more_digits odd bytes = Some m -> more_digits odd (map (fun _ => 0) bytes) = Some (map (fun _ => 48) m).
Proof.
  revert m. induction bytes as [|b bytes IH]; intros m; cbn [more_digits map]; [by intros [= <-]|].
  destruct (from_digit (Z.land b 15)) as [lo|]; cbn [mbind option_bind]; [|done].
  change (from_digit (Z.land 0 15)) with (Some 48). change (from_digit (Z.shiftr 0 4)) with (Some 48). cbn [mbind option_bind].
  replace (match map (fun _ : Z => 0) bytes with [] => negb odd | _ :: _ => false end)
    with (match bytes with [] => negb odd | _ :: _ => false end) by (by destruct bytes).
  destruct (match bytes with [] => negb odd | _ :: _ => false end); [by intros [= <-]|].
  destruct (from_digit (Z.shiftr b 4)) as [hi|]; cbn [mbind option_bind]; [|done].
  destruct (more_digits odd bytes) as [more|]; cbn [mbind option_bind]; [|done]. intros [= <-]. by rewrite (IH more).
Qed.

Lemma fmt_hex_fixed_zeros n v m : length (fmt_hex_fixed n v) = m -> map (fun _ => 48) (fmt_hex_fixed n v) = replicate m 48.
Proof.
  intros <-. induction (fmt_hex_fixed n v) as [|c l IH]; cbn; [done|]. by rewrite IH.
Qed.

Lemma decode_blank value i : decode_eps_mobile_identity value = Some i ->
  decode_eps_mobile_identity (redact_value value) = Some (blank i).
Proof.
  destruct value as [|first rest]; [done|]. cbn [redact_value]. unfold decode_eps_mobile_identity.
  assert (H7 : Z.land (Z.land first 15) 7 = Z.land first 7) by (by rewrite <- Z.land_assoc).
  assert (H8 : Z.land (Z.land first 15) 8 = Z.land first 8) by (by rewrite <- Z.land_assoc).
  assert (H4 : Z.shiftr (Z.land first 15) 4 = 0) by (rewrite Z.shiftr_land; by apply Z.land_0_r).
  rewrite H7, H8, H4. change (from_digit 0) with (Some 48). cbn [mbind option_bind].
  destruct (_ || _).
  - destruct (from_digit (Z.shiftr first 4)) as [d|]; cbn [mbind option_bind]; [|done].
    destruct (more_digits _ rest) as [more|] eqn:Hm; cbn [mbind option_bind]; [|done].
    rewrite (more_digits_blank _ _ _ Hm). cbn [mbind option_bind]. intros [= <-]. by repeat case_match.
  - destruct (_ =? _); [|done]. cbn [length]. rewrite length_map. destruct (_ <? _)%nat eqn:Hl; [done|].
    set (value := be_value (take 4 (drop 7 (first :: rest)))). intros Hi.
    assert (i = Identity_Tmsi (fmt_hex_fixed 8 value)) as -> by congruence. cbn [blank]. erewrite fmt_hex_fixed_zeros by apply fmt_hex_fixed_length. do 2 f_equal.
    rewrite !skipn_cons. apply Nat.ltb_ge in Hl.
    destruct rest as [|? [|? [|? [|? [|? [|? [|? [|? [|? [|? rest]]]]]]]]]]; cbn in Hl; try lia. reflexivity.
Qed.

Lemma redact_value_length value : length (redact_value value) = length value.
Proof. destruct value; cbn; [done|]. by rewrite length_map. Qed.

(** *** Payloads with another value at the same place *)

Lemma get_range_spec payload lo len v :
  get_range payload lo len = Some v -> (lo + len <= length payload)%nat /\ v = take len (drop lo payload) /\ length v = len.
Proof.
  unfold get_range. destruct (Nat.leb_spec (lo + len) (length payload)); intros [= <-]. split_and!; [done..|].
  rewrite length_take, length_drop. lia.
Qed.

Definition replace_range (payload : list Z) (lo len : nat) (v : list Z) : list Z := take lo payload ++ v ++ drop (lo + len) payload.

Lemma replace_range_spec payload lo len v : (lo + len <= length payload)%nat -> length v = len ->
  let p := replace_range payload lo len v in
  length p = length payload /\ take len (drop lo p) = v /\ forall i, (i < lo \/ lo + len <= i)%nat -> p !! i = payload !! i.
Proof.
  intros Hl Hv. cbn zeta. unfold replace_range. subst len.
  assert (Ht : length (take lo payload) = lo) by (rewrite length_take; lia). split_and!.
  - rewrite !length_app, length_drop, Ht. lia.
  - rewrite drop_app_length' by done. by rewrite take_app_length.
  - intros i [Hi|Hi].
    + rewrite lookup_app_l by lia. by rewrite lookup_take_lt.
    + rewrite lookup_app_r by lia. rewrite lookup_app_r by lia. rewrite lookup_drop. f_equal. lia.
Qed.

(** What the search found, step by step. *)
Lemma identity_range_inv payload i lo len :
  identity_from_nas_with_range payload = Some (i, (lo, len)) ->
  (2 < lo)%nat /\ get_range payload lo len = Some (take len (drop lo payload)) /\
  decode_eps_mobile_identity (take len (drop lo payload)) = Some i /\
  forall p, length p = length payload -> (forall k, (k < lo)%nat -> p !! k = payload !! k) ->
    forall j, decode_eps_mobile_identity (take len (drop lo p)) = Some j ->
    identity_from_nas_with_range p = Some (j, (lo, len)).
Proof.
  unfold identity_from_nas_with_range. rewrite !head_lookup.
  destruct (payload !! 0%nat) as [header|] eqn:H0; cbn [mbind option_bind]; [|done].
  destruct (negb _) eqn:Hpd; [done|]. destruct (negb (Z.shiftr _ _ =? _)) eqn:Hsec; [done|].
  destruct (payload !! 1%nat) as [mt|] eqn:H1; cbn [mbind option_bind]; [|done].
  destruct (if mt =? IDENTITY_RESPONSE then _ else _) as [start|] eqn:Hst; cbn [mbind option_bind]; [|done].
  assert (2 <= start)%nat by (repeat case_match; simplify_eq; lia).
  destruct (payload !! start) as [n|] eqn:Hn; cbn [mbind option_bind]; [|done].
  destruct (get_range payload (S start) (Z.to_nat n)) as [v|] eqn:Hg; cbn [mbind option_bind]; [|done].
  destruct (decode_eps_mobile_identity v) as [i'|] eqn:Hd; cbn [mbind option_bind]; [|done]. intros [= <- <- <-].
  apply get_range_spec in Hg as (Hlen & -> & Hv). split_and!; [lia| |done|].
  { unfold get_range. by rewrite (proj2 (Nat.leb_le _ _)). }
  intros p Hp Hsame j Hj. rewrite head_lookup, !Hsame by lia. rewrite H0. cbn [mbind option_bind]. rewrite Hpd, Hsec, H1.
  cbn [mbind option_bind]. rewrite Hst. cbn [mbind option_bind]. rewrite Hsame by lia. rewrite Hn. cbn [mbind option_bind].
  unfold get_range. rewrite (proj2 (Nat.leb_le _ _)) by lia. cbn [mbind option_bind]. by rewrite Hj.
Qed.

(** ** Properties *)

(** The two messages an identity is found in, with the octets before the identity. *)
Definition nas_prefix (attach : option Z) : list Z :=
  match attach with None => [PD_EMM; IDENTITY_RESPONSE] | Some ksi => [PD_EMM; ATTACH_REQUEST; ksi] end.
Definition encode_guti (plmn_and_mme : list Z) (m_tmsi : Z) : list Z := 0xf6 :: plmn_and_mme ++ be_bytes 4 m_tmsi.

Lemma found_at attach value rest i :
  decode_eps_mobile_identity value = Some i ->
  identity_from_nas_with_range (nas_prefix attach ++ Z.of_nat (length value) :: value ++ rest) =
  Some (i, (S (length (nas_prefix attach)), length value)).
Proof.
  intros Hd. destruct attach as [ksi|]; unfold identity_from_nas_with_range; cbn -[decode_eps_mobile_identity get_range];
    rewrite Nat2Z.id; unfold get_range; cbn [length]; rewrite length_app, (proj2 (Nat.leb_le _ _)) by lia;
    cbn [mbind option_bind]; rewrite !skipn_cons, skipn_0, take_app_length, Hd; reflexivity.
Qed.

(** An identity sent in the clear is read back as it was sent.  In an identity response and in an
    attach request, whatever follows, digits packed as TS 24.301 says are read as exactly those
    digits, of odd and of even count, and a temporary identity as its 32 bits in hexadecimal; and
    the place reported is where the value's octets are. *)
Theorem identity_roundtrip attach rest :
  (forall ty ds, 1 <= ty <= 3 -> ds <> [] -> Forall is_digit ds ->
     let value := encode_digits ty ds in
     identity_from_nas_with_range (nas_prefix attach ++ Z.of_nat (length value) :: value ++ rest) =
     Some (identity_of ty (digit_text ds), (S (length (nas_prefix attach)), length value))) /\
  (forall before m_tmsi, length before = 6%nat -> in_u 32 m_tmsi ->
     let value := encode_guti before m_tmsi in
     identity_from_nas_with_range (nas_prefix attach ++ Z.of_nat (length value) :: value ++ rest) =
     Some (Identity_Tmsi (fmt_hex_fixed 8 m_tmsi), (S (length (nas_prefix attach)), length value))).
Proof.
  split.
  - intros ty ds Ht Hne Hds. by apply found_at, decode_encode_digits.
  - intros before m_tmsi Hb Hm. apply found_at. unfold encode_guti.
    destruct before as [|? [|? [|? [|? [|? [|? [|? before]]]]]]]; try discriminate Hb.
    unfold decode_eps_mobile_identity. rewrite skipn_cons. cbn [app].
    change (Z.land 0xf6 7) with 6. cbn -[be_bytes fmt_hex_fixed be_value Nat.ltb].
    rewrite be_bytes_length. cbn [Nat.ltb Nat.leb]. rewrite skipn_0, take_ge by (by rewrite be_bytes_length).
    rewrite be_value_bytes. f_equal. f_equal. f_equal. rewrite Z.mod_small; [done|]. unfold in_u in Hm. cbn. lia.
Qed.

(** Redaction removes the identity and nothing else.  When no identity is found the payload is
    untouched.  Otherwise only its octets change: type and parity stay in the first, all other bits
    become zero, so that what is left depends on neither digits nor temporary identity; the message keeps its
    length, and read again it shows an identity of the same kind and size, all zeros. *)
Theorem redact_nas_identity_spec payload :
  match redact_nas_identity payload with
  | (None, p) => p = payload /\ identity_from_nas payload = None
  | (Some i, p) => exists lo len first,
      identity_from_nas_with_range payload = Some (i, (lo, len)) /\ payload !! lo = Some first /\
      length p = length payload /\
      take len (drop lo p) = Z.land first 0x0f :: replicate (len - 1) 0 /\
      (forall k, (k < lo \/ lo + len <= k)%nat -> p !! k = payload !! k) /\
      identity_from_nas_with_range p = Some (blank i, (lo, len))
  end.
Proof.
  unfold redact_nas_identity, identity_from_nas.
  destruct (identity_from_nas_with_range payload) as [[i [lo len]]|] eqn:Hid; [|done].
  destruct (identity_range_inv _ _ _ _ Hid) as (Hlo & Hg & Hd & Hnew). apply get_range_spec in Hg as (Hlen & _ & Hv).
  set (value := take len (drop lo payload)) in *.
  destruct (replace_range_spec payload lo len (redact_value value) Hlen) as (Hl & Htake & Hsame);
    [by rewrite redact_value_length|].
  unfold replace_range in *. set (p := take lo payload ++ redact_value value ++ drop (lo + len) payload) in *.
  destruct value as [|first rest] eqn:Hval; [done|]. exists lo, len, first. split_and!; try done.
  - assert (Hh : (take len (drop lo payload)) !! 0%nat = Some first) by (fold value; by rewrite Hval).
    rewrite lookup_take in Hh. case_decide; [|done]. rewrite lookup_drop in Hh. by rewrite Nat.add_0_r in Hh.
  - rewrite Htake. cbn [redact_value]. f_equal. cbn [length] in Hv.
    rewrite (Forall_replicate_eq (map (fun _ => 0) rest) 0) by (apply Forall_forall; intros x (y & Hy & _)%list_elem_of_fmap; exact Hy).
    f_equal. rewrite length_map. lia.
  - apply Hnew; [done | intros k Hk; apply Hsame; lia |]. rewrite Htake. by apply decode_blank.
Qed.

(** An identity response with an IMSI of fifteen digits. *)
Example redact_example :
  redact_nas_identity [7; 0x56; 8; 0x39; 0x01; 0x41; 0x21; 0x43; 0x65; 0x87; 0x09]
  = (Some (Identity_Imsi (lit "310141234567890")), [7; 0x56; 8; 9; 0; 0; 0; 0; 0; 0; 0]).
Proof. reflexivity. Qed.
