(* ===== verification/CellInfo.v ===== *)
(** * What the modem sees ([daemon/src/cell_info.rs] and what it is made of)

    The tracker of the serving cell, its neighbours, the history of cells, the ciphers and the
    identities sent; the watch on the timing advance ([daemon/src/timing_advance.rs]), the judgement
    on the SIM ([daemon/src/sim_health.rs]), and how a container of diag messages is folded into the
    tracker ([update_cell_info] of [daemon/src/diag.rs]).  Times are nanoseconds; an operation takes
    the reading of the clock it makes. *)

From Stdlib Require Import SpecFloat.
From S2P Require Import Prelude RustStr Floats Deku Hdlc DiagLog Diag LteRrc Gsmtap GsmtapParser InformationElement SubscriberId.

Local Open Scope Z_scope.

(** ** Timing advance *)

Definition METRES_PER_STEP : f64 := f64_lit 7807 100.
Definition JUMP_THRESHOLD_STEPS : Z := 16.
Definition SAMPLES_FOR_BASELINE : Z := 2.
Definition MAX_CELLS : nat := 32.

Inductive TimingAdvanceStatus :=
| Unsupported
| Learning
| Consistent
| Moved (baseline observed metres : Z).
#[export] Instance TimingAdvanceStatus_eq_dec : EqDecision TimingAdvanceStatus.
Proof. solve_decision. Defined.

Definition metres (ta : Z) : Z := f64_round_i64 (f64_mul (f64_of_Z ta) METRES_PER_STEP).

Record CellSamples := mkSamples { baseline : option Z; samples_seen : Z }.
Record TimingAdvanceTracker := mkTaTracker {
  ta_cells : gmap (Z * Z) CellSamples;
  any_non_zero : bool;
  ta_status : TimingAdvanceStatus }.
Definition TimingAdvanceTracker_default : TimingAdvanceTracker := mkTaTracker ∅ false Unsupported.

(** What one more sample of a cell makes of it. *)
Definition sample (entry : CellSamples) (ta : Z) : CellSamples * TimingAdvanceStatus :=
  let seen := samples_seen entry + 1 in
  match baseline entry with
  | None => if SAMPLES_FOR_BASELINE <=? seen then (mkSamples (Some ta) seen, Consistent)
            else (mkSamples None seen, Learning)
  | Some b => if JUMP_THRESHOLD_STEPS <=? Z.abs (ta - b)
              then (mkSamples (Some ta) seen, Moved b ta (metres ta - metres b))
              else (mkSamples (Some b) seen, Consistent)
  end.

Definition ta_observe (t : TimingAdvanceTracker) (pci earfcn ta : Z) : TimingAdvanceTracker :=
  let any := any_non_zero t || negb (ta =? 0) in
  if negb any then mkTaTracker (ta_cells t) any Unsupported
  else
    let cells := if (MAX_CELLS <=? size (ta_cells t))%nat && bool_decide (ta_cells t !! (pci, earfcn) = None)
                 then ∅ else ta_cells t in
    let '(entry, status) := sample (default (mkSamples None 0) (cells !! (pci, earfcn))) ta in
    mkTaTracker (<[(pci, earfcn) := entry]> cells) any status.

(** ** SIM health *)

Definition NAS_FRESH_FOR_MINUTES : Z := 60.
Definition SILENT_ATTACH_MINUTES : Z := 5.

Inductive SimVerdict := Working | Registered | NotRegistering | Searching.
#[export] Instance SimVerdict_eq_dec : EqDecision SimVerdict.
Proof. solve_decision. Defined.
Definition is_problem (v : SimVerdict) : bool := bool_decide (v = NotRegistering).

(** [TimeDelta::num_minutes]. *)
Definition num_minutes (ns : Z) : Z := Z.quot ns (60 * 10 ^ 9).

Definition verdict (data_interface : option rstr) (last_nas_message first_cell_seen : option Z) (serving_cell : bool)
    (now : Z) : SimVerdict * bool * option Z :=
  let nas_age := (fun t => num_minutes (now - t)) <$> last_nas_message in
  let nas_recent := match nas_age with Some age => age <=? NAS_FRESH_FOR_MINUTES | None => false end in
  if bool_decide (is_Some data_interface) then (Working, nas_recent, None)
  else if nas_recent then (Registered, true, None)
  else if serving_cell && bool_decide (last_nas_message = None) then
    let silent := (fun t => num_minutes (now - t)) <$> first_cell_seen in
    if match silent with Some m => SILENT_ATTACH_MINUTES <=? m | None => false end
    then (NotRegistering, false, silent) else (Searching, false, silent)
  else if bool_decide (is_Some last_nas_message) then (Registered, false, None)
  else (Searching, false, None).

Definition is_cellular_interface (name : rstr) : bool :=
  existsb (fun p => starts_with name p) [lit "rmnet"; lit "wwan"; lit "rmnet_data"; lit "ppp"].

(** The lines of [/proc/net/route] after the first; a line with fewer than two fields ends the search. *)
Fixpoint route_lines (l : list rstr) : option rstr :=
  match l with
  | [] => None
  | line :: l =>
      match split_whitespace line with
      | name :: destination :: _ =>
          if negb (bool_decide (destination = lit "00000000")) then route_lines l
          else if is_cellular_interface name then Some name else route_lines l
      | _ => None
      end
  end.
Definition cellular_default_route (table : option rstr) : option rstr := t ← table; route_lines (drop 1 (lines t)).

Record SimHealth := mkSimHealth {
  sim_verdict : SimVerdict;
  data_interface : option rstr;
  nas_recent : bool;
  sim_last_nas_message : option Z;
  serving_cell : bool;
  silent_for_minutes : option Z }.

(** ** The data *)

Definition HISTORY_LIMIT : nat := 256.

Record CellIdentity := mkCellIdentity { id_mcc : option rstr; id_mnc : option rstr; id_cell_id : option Z; id_tac : option Z }.
Record SignalMeasurements := mkSignal {
  rsrp_dbm : f32; rsrq_db : f32; rssi_dbm : f32; avg_rsrp_dbm : option f32; avg_rsrq_db : option f32 }.
Record ServingCell := mkServing {
  search_threshold : option Z;
  srv_pci : Z;
  srv_earfcn : Z;
  band : option Z;
  srv_signal : SignalMeasurements;
  identity : option CellIdentity;
  timing_advance : option Z;
  srv_last_seen : Z }.
Record NeighborCell := mkNeighbor { nb_pci : Z; nb_earfcn : Z; nb_signal : SignalMeasurements; nb_s_rxlev : option Z }.
Record CellObservation := mkCellObservation {
  obs_pci : Z; obs_earfcn : Z; obs_identity : option CellIdentity; first_seen : Z; obs_last_seen : Z; best_rsrp_dbm : f32 }.
Record EncryptionStatus := mkEncryption {
  rrc_cipher : option rstr; rrc_integrity : option rstr; nas_cipher : option rstr; nas_integrity : option rstr; enc_last_seen : Z }.
Record DetectionHealth := mkHealth { messages_seen : Z; messages_skipped : Z; last_message : option Z }.
Record SubscriberIdentities := mkIdentities {
  s_imsi : option rstr; s_imei : option rstr; s_imeisv : option rstr; s_tmsi : option rstr; imsi_sends : Z; tmsi_changes : Z }.
#[export] Instance SubscriberIdentities_eq_dec : EqDecision SubscriberIdentities.
Proof. solve_decision. Defined.
Definition SubscriberIdentities_default : SubscriberIdentities := mkIdentities None None None None 0 0.

Definition cipher_name (algorithm : Z) : rstr :=
  if algorithm =? 0 then lit "EEA0 (none)" else if algorithm =? 1 then lit "EEA1 (SNOW 3G)"
  else if algorithm =? 2 then lit "EEA2 (AES)" else if algorithm =? 3 then lit "EEA3 (ZUC)" else lit "reserved".
Definition integrity_name (algorithm : Z) : rstr :=
  if algorithm =? 0 then lit "EIA0 (none)" else if algorithm =? 1 then lit "EIA1 (SNOW 3G)"
  else if algorithm =? 2 then lit "EIA2 (AES)" else if algorithm =? 3 then lit "EIA3 (ZUC)" else lit "reserved".

Record CellTracker := mkTracker {
  serving : option ServingCell;
  neighbors : list NeighborCell;
  history : list CellObservation;
  encryption : option EncryptionStatus;
  health : DetectionHealth;
  identities : SubscriberIdentities;
  first_cell_seen : option Z;
  last_nas_message : option Z;
  timing : TimingAdvanceTracker }.
Definition CellTracker_new : CellTracker :=
  mkTracker None [] [] None (mkHealth 0 0 None) SubscriberIdentities_default None None TimingAdvanceTracker_default.

Record CellInfo := mkCellInfo {
  ci_serving : option ServingCell;
  ci_neighbors : list NeighborCell;
  ci_history : list CellObservation;
  ci_encryption : option EncryptionStatus;
  ci_health : DetectionHealth;
  ci_identities : option SubscriberIdentities;
  has_data : bool;
  ci_sim_health : SimHealth;
  ci_timing_advance : TimingAdvanceStatus }.

Definition RANGES : list (Z * Z * Z) :=
  [(0, 599, 1); (600, 1199, 2); (1200, 1949, 3); (1950, 2399, 4); (2400, 2649, 5); (2750, 3449, 7);
   (3450, 3799, 8); (3800, 4149, 9); (4150, 4749, 10); (5010, 5179, 12); (5180, 5279, 13); (5280, 5379, 14);
   (5730, 5849, 17); (5850, 5999, 18); (6000, 6149, 19); (6150, 6449, 20); (6450, 6599, 21); (7500, 7699, 24);
   (7700, 8039, 25); (8040, 8689, 26); (8690, 9039, 27); (9040, 9209, 28); (9210, 9659, 29); (9770, 9869, 30);
   (9870, 9919, 31); (36000, 36199, 33); (36200, 36349, 34); (36350, 36949, 35); (36950, 37549, 36);
   (37550, 37749, 37); (37750, 38249, 38); (38250, 38649, 39); (38650, 39649, 40); (39650, 41589, 41);
   (41590, 43589, 42); (43590, 45589, 43); (45590, 46589, 44); (46590, 46789, 45); (46790, 54539, 46);
   (55240, 56739, 48); (56740, 58239, 49); (58240, 59089, 50); (59090, 59139, 51); (59140, 60139, 52);
   (60140, 60254, 53); (65536, 66435, 65); (66436, 67335, 66); (67336, 67535, 67); (67536, 67835, 68);
   (67836, 68335, 69); (68336, 68585, 70); (68586, 68935, 71)].
Definition band_for_earfcn (earfcn : Z) : option Z :=
  snd <$> List.find (fun '(lo, hi, _) => (lo <=? earfcn) && (earfcn <=? hi)) RANGES.

(** ** The tracker's operations *)

Definition same_cell (s : ServingCell) (pci earfcn : Z) : bool := (srv_pci s =? pci) && (srv_earfcn s =? earfcn).

Fixpoint observe_existing (l : list CellObservation) (pci earfcn : Z) (rsrp : f32) (now : Z) : option (list CellObservation) :=
  match l with
  | [] => None
  | e :: l =>
      if (obs_pci e =? pci) && (obs_earfcn e =? earfcn)
      then Some (mkCellObservation (obs_pci e) (obs_earfcn e) (obs_identity e) (first_seen e) now
                   (if SFltb (best_rsrp_dbm e) rsrp then rsrp else best_rsrp_dbm e) :: l)
      else cons e <$> observe_existing l pci earfcn rsrp now
  end.
Definition record_observation (h : list CellObservation) (pci earfcn : Z) (rsrp : f32) (now : Z) : list CellObservation :=
  match observe_existing h pci earfcn rsrp now with
  | Some h => h
  | None => (if (HISTORY_LIMIT <=? length h)%nat then drop 1 h else h) ++ [mkCellObservation pci earfcn None now now rsrp]
  end.

Definition set_serving (t : CellTracker) (s : option ServingCell) : CellTracker :=
  mkTracker s (neighbors t) (history t) (encryption t) (health t) (identities t) (first_cell_seen t) (last_nas_message t) (timing t).
Definition set_encryption (t : CellTracker) (e : EncryptionStatus) : CellTracker :=
  mkTracker (serving t) (neighbors t) (history t) (Some e) (health t) (identities t) (first_cell_seen t) (last_nas_message t) (timing t).

Definition update_serving (t : CellTracker) (pci earfcn : Z) (signal : SignalMeasurements) (threshold : option Z) (now : Z) : CellTracker :=
  let first := match first_cell_seen t with Some f => f | None => now end in
  let identity := match serving t with Some prev => if same_cell prev pci earfcn then identity prev else None | None => None end in
  let ta := match serving t with Some prev => if same_cell prev pci earfcn then timing_advance prev else None | None => None end in
  mkTracker (Some (mkServing threshold pci earfcn (band_for_earfcn earfcn) signal identity ta now))
    (neighbors t) (record_observation (history t) pci earfcn (rsrp_dbm signal) now)
    (encryption t) (health t) (identities t) (Some first) (last_nas_message t) (timing t).

Definition encryption_or_new (t : CellTracker) (now : Z) : EncryptionStatus :=
  default (mkEncryption None None None None now) (encryption t).
Definition update_rrc_security (t : CellTracker) (cipher integrity now : Z) : CellTracker :=
  let e := encryption_or_new t now in
  set_encryption t (mkEncryption (Some (cipher_name cipher)) (Some (integrity_name integrity)) (nas_cipher e) (nas_integrity e) now).
Definition update_nas_security (t : CellTracker) (cipher integrity now : Z) : CellTracker :=
  let e := encryption_or_new t now in
  set_encryption t (mkEncryption (rrc_cipher e) (rrc_integrity e) (Some (cipher_name cipher)) (Some (integrity_name integrity)) now).

Definition update_nas_seen (t : CellTracker) (now : Z) : CellTracker :=
  mkTracker (serving t) (neighbors t) (history t) (encryption t) (health t) (identities t) (first_cell_seen t) (Some now) (timing t).

Definition record_messages (t : CellTracker) (seen skipped now : Z) : CellTracker :=
  mkTracker (serving t) (neighbors t) (history t) (encryption t)
    (mkHealth (messages_seen (health t) + seen) (messages_skipped (health t) + skipped)
       (if 0 <? seen then Some now else last_message (health t)))
    (identities t) (first_cell_seen t) (last_nas_message t) (timing t).

Definition update_timing_advance (t : CellTracker) (ta : Z) : CellTracker :=
  match serving t with
  | None => t
  | Some s =>
      mkTracker (Some (mkServing (search_threshold s) (srv_pci s) (srv_earfcn s) (band s) (srv_signal s) (identity s) (Some ta) (srv_last_seen s)))
        (neighbors t) (history t) (encryption t) (health t) (identities t) (first_cell_seen t) (last_nas_message t)
        (ta_observe (timing t) (srv_pci s) (srv_earfcn s) ta)
  end.

(** [iter_mut().rev().find(..)]: the last entry of that cell. *)
Fixpoint identify_first (l : list CellObservation) (pci earfcn : Z) (i : CellIdentity) : list CellObservation :=
  match l with
  | [] => []
  | e :: l => if (obs_pci e =? pci) && (obs_earfcn e =? earfcn)
              then mkCellObservation (obs_pci e) (obs_earfcn e) (Some i) (first_seen e) (obs_last_seen e) (best_rsrp_dbm e) :: l
              else e :: identify_first l pci earfcn i
  end.
Definition update_identity (t : CellTracker) (i : CellIdentity) : CellTracker :=
  match serving t with
  | None => t
  | Some s =>
      mkTracker (Some (mkServing (search_threshold s) (srv_pci s) (srv_earfcn s) (band s) (srv_signal s) (Some i) (timing_advance s) (srv_last_seen s)))
        (neighbors t) (rev (identify_first (rev (history t)) (srv_pci s) (srv_earfcn s) i))
        (encryption t) (health t) (identities t) (first_cell_seen t) (last_nas_message t) (timing t)
  end.

Definition update_neighbors (t : CellTracker) (n : list NeighborCell) : CellTracker :=
  mkTracker (serving t) n (history t) (encryption t) (health t) (identities t) (first_cell_seen t) (last_nas_message t) (timing t).

Definition note_identity (ids : SubscriberIdentities) (i : Identity) : SubscriberIdentities :=
  match i with
  | Identity_Imsi v => mkIdentities (Some v) (s_imei ids) (s_imeisv ids) (s_tmsi ids) (sat_addu 32 (imsi_sends ids) 1) (tmsi_changes ids)
  | Identity_Imei v => mkIdentities (s_imsi ids) (Some v) (s_imeisv ids) (s_tmsi ids) (imsi_sends ids) (tmsi_changes ids)
  | Identity_Imeisv v => mkIdentities (s_imsi ids) (s_imei ids) (Some v) (s_tmsi ids) (imsi_sends ids) (tmsi_changes ids)
  | Identity_Tmsi v =>
      if bool_decide (s_tmsi ids = Some v) then ids
      else mkIdentities (s_imsi ids) (s_imei ids) (s_imeisv ids) (Some v) (imsi_sends ids) (sat_addu 32 (tmsi_changes ids) 1)
  end.
Definition update_identity_sent (t : CellTracker) (i : Identity) : CellTracker :=
  mkTracker (serving t) (neighbors t) (history t) (encryption t) (health t) (note_identity (identities t) i)
    (first_cell_seen t) (last_nas_message t) (timing t).
Definition identities_seen (t : CellTracker) : option SubscriberIdentities :=
  if bool_decide (identities t = SubscriberIdentities_default) then None else Some (identities t).

Definition sim_health (t : CellTracker) (route : option rstr) (now : Z) : SimHealth :=
  let interface := cellular_default_route route in
  let '(v, recent, silent) := verdict interface (last_nas_message t) (first_cell_seen t) (bool_decide (is_Some (serving t))) now in
  mkSimHealth v interface recent (last_nas_message t) (bool_decide (is_Some (serving t))) silent.

(** A stable sort: [after x y] when [y] must come before [x]. *)
Fixpoint insert_by {A} (after : A -> A -> bool) (x : A) (l : list A) : list A :=
  match l with [] => [x] | y :: l' => if after x y then y :: insert_by after x l' else x :: l end.
Definition sort_by {A} (after : A -> A -> bool) (l : list A) : list A := foldr (insert_by after) [] l.

Definition snapshot (t : CellTracker) (route : option rstr) (now : Z) : CellInfo :=
  mkCellInfo (serving t)
    (sort_by (fun a b => SFltb (rsrp_dbm (nb_signal a)) (rsrp_dbm (nb_signal b))) (neighbors t))
    (sort_by (fun a b => obs_last_seen a <? obs_last_seen b) (history t))
    (encryption t) (health t) None
    (bool_decide (is_Some (serving t)) || negb (bool_decide (history t = [])))
    (sim_health t route now) (ta_status (timing t)).

(** ** Reading elements *)

Definition digit_char (value : Z) : rchar := if value <? 10 then 48 + value else 63.

(** [.fold(0u32, |acc, bit| (acc << 1) | bit)]: the upper bits fall off. *)
Definition fold_bits (bits : list bool) : Z :=
  fold_left (fun acc (bit : bool) => Z.lor (wrapu 32 (Z.shiftl acc 1)) (Z.b2z bit)) bits 0.

Definition rrc_security_from_information_element {D : Decoders} (ie : InformationElement) : option (Z * Z) :=
  match ie with
  | IE_LTE (IE_DlDcch dcch) =>
      match dcch_message dcch with
      | DCCH_C1 (DCCH_SecurityModeCommand command) =>
          match smc_critical_extensions command with
          | SMC_C1 (SecurityModeCommand_r8 r8) =>
              let config := smc_security_algorithm_config (security_config_smc r8) in
              Some (ciphering_algorithm config, integrity_prot_algorithm config)
          | _ => None
          end
      | _ => None
      end
  | _ => None
  end.

Definition nas_security_from_information_element {D : Decoders} (ie : InformationElement) : option (Z * Z) :=
  match ie with
  | IE_LTE (IE_NAS (NAS_EMMMessage (EMMSecurityModeCommand ciph_algo integ_algo))) =>
      let cipher := match ciph_algo with
        | EPSEncryptionAlgorithmEEA0Null => 0
        | EPSEncryptionAlgorithm128EEA1SNOW => 1
        | EPSEncryptionAlgorithm128EEA2AES => 2
        | EPSEncryptionAlgorithm128EEA3ZUC => 3
        | CiphAlgo_Other => 255
        end in
      let integrity := match integ_algo with
        | EPSIntegrityAlgorithmEIA0Null => 0
        | EPSIntegrityAlgorithm128EIA1SNOW => 1
        | EPSIntegrityAlgorithm128EIA2AES => 2
        | IntegAlgo_Other => 255
        end in
      Some (cipher, integrity)
  | _ => None
  end.

Definition identity_from_information_element {D : Decoders} (ie : InformationElement) : option CellIdentity :=
  match ie with
  | IE_LTE (IE_BcchDlSch sch) =>
      match bcch_message sch with
      | BCCH_C1 (BCCH_SystemInformationBlockType1 sib1) =>
          let info := cell_access_related_info sib1 in
          let plmn := plmn_identity <$> head (plmn_identity_list info) in
          Some (mkCellIdentity (map digit_char <$> (plmn ≫= LteRrc.mcc))
                  ((fun p => map digit_char (LteRrc.mnc p)) <$> plmn)
                  (Some (fold_bits (cell_identity info))) (Some (fold_bits (tracking_area_code info))))
      | _ => None
      end
  | _ => None
  end.

(** ** Folding a container into the tracker *)

(** What the first loop gathers. *)
Record Gathered := mkGathered {
  g_serving : option (Z * Z * SignalMeasurements * option Z);
  g_neighbors : option (list NeighborCell);
  g_timing_advance : option Z;
  g_rrc : list Message }.

Definition gather (g : Gathered) (m : Message) : Gathered :=
  match m with
  | Log _ _ _ _ _ (LteMl1ServingCellMeasurementAndEvaluation data) =>
      mkGathered (Some (mae_get_pci data, mae_get_earfcn data,
          mkSignal (mae_get_meas_rsrp data) (mae_get_meas_rsrq data) (mae_get_meas_rssi data) (Some (mae_get_avg_rsrp data)) None,
          Some (s_search data)))
        (g_neighbors g) (g_timing_advance g) (g_rrc g)
  | Log _ _ _ _ _ (LteMl1NeighborCellsMeasurements data) =>
      mkGathered (g_serving g)
        (Some (map (fun c => mkNeighbor (cell_pci c) (m_get_earfcn data)
            (mkSignal (cell_get_meas_rsrp c) (cell_get_meas_rsrq c) (cell_get_meas_rssi c)
               (Some (cell_get_avg_rsrp c)) (Some (cell_get_avg_rsrq c))) (Some (s_rxlev c))) (m_cells data)))
        (g_timing_advance g) (g_rrc g)
  | Log _ _ _ _ _ (LteMacRachResponse packet) =>
      mkGathered (g_serving g) (g_neighbors g)
        (fold_left (fun acc s => match sub_body s with
                                 | RachAttempt a => match get_msg2 a with Some m2 => Some (ta m2) | None => acc end
                                 | _ => acc end) (subpackets packet) (g_timing_advance g))
        (g_rrc g)
  | Log _ _ _ _ _ (LteRrcOtaMessage _ _) | Log _ _ _ _ _ (Nas4GMessage _ _ _ _ _ _ _) =>
      mkGathered (g_serving g) (g_neighbors g) (g_timing_advance g) (g_rrc g ++ [m])
  | _ => g
  end.

Definition nothing_gathered (g : Gathered) : bool :=
  match g with mkGathered None None None [] => true | _ => false end.

Section container.
Context {C : Crc16} {K : Deku} {R : DiagReader} {D : Decoders}.

Definition is_lte_nas (t : GsmtapType) : bool := match t with LteNas _ => true | _ => false end.
Definition is_lte_nas_plain (t : GsmtapType) : bool := match t with LteNas LteNas_Plain => true | _ => false end.

(** One message of the second loop. *)
Definition fold_message (need_identity : bool) (now : Z) (t : CellTracker) (m : Message) : CellTracker :=
  match GsmtapParser.parse m with
  | Ok (Some (_, gsmtap)) =>
      match ie_try_from gsmtap with
      | Err _ => t
      | Ok element =>
          let t := if need_identity
                   then match identity_from_information_element element with Some i => update_identity t i | None => t end else t in
          let t := match rrc_security_from_information_element element with Some (c, i) => update_rrc_security t c i now | None => t end in
          let t := match nas_security_from_information_element element with Some (c, i) => update_nas_security t c i now | None => t end in
          let t := if is_lte_nas (gsmtap_type (header gsmtap)) then update_nas_seen t now else t in
          if is_lte_nas_plain (gsmtap_type (header gsmtap))
          then match identity_from_nas (payload gsmtap) with Some i => update_identity_sent t i | None => t end else t
      end
  | _ => t
  end.

Definition update_cell_info (t : CellTracker) (container : MessagesContainer) (now : Z) : CellTracker :=
  let all := container_messages container in
  let oks := omap result_ok all in
  let g := fold_left gather oks (mkGathered None None None []) in
  if nothing_gathered g then t
  else
    let t := record_messages t (Z.of_nat (length all)) (Z.of_nat (length (filter (fun r => is_ok r = false) all))) now in
    let t := match g_serving g with Some (pci, earfcn, signal, threshold) => update_serving t pci earfcn signal threshold now | None => t end in
    let t := match g_neighbors g with Some n => update_neighbors t n | None => t end in
    let t := match g_timing_advance g with Some a => update_timing_advance t a | None => t end in
    let need_identity := match serving t with Some s => bool_decide (identity s = None) | None => false end in
    fold_left (fold_message need_identity now) (g_rrc g) t.
End container.

(** ** Properties of the parts *)

(** *** Timing advance *)

Definition ta_run (samples : list (Z * Z * Z)) : TimingAdvanceTracker :=
  fold_left (fun t '(pci, earfcn, ta) => ta_observe t pci earfcn ta) samples TimingAdvanceTracker_default.

(** What holds after any samples: a baseline is a value its cell reported. *)
Definition ta_ok (samples : list (Z * Z * Z)) (t : TimingAdvanceTracker) : Prop :=
  (size (ta_cells t) <= MAX_CELLS)%nat /\
  (any_non_zero t = false -> t = TimingAdvanceTracker_default /\ Forall (fun '(_, _, ta) => ta = 0) samples) /\
  (forall pci earfcn e b, ta_cells t !! (pci, earfcn) = Some e -> baseline e = Some b -> (pci, earfcn, b) ∈ samples).

(** What [Moved] says. *)
Definition ta_moved (samples : list (Z * Z * Z)) (pci earfcn ta : Z) (st : TimingAdvanceStatus) : Prop :=
  forall b o m, st = Moved b o m ->
    o = ta /\ JUMP_THRESHOLD_STEPS <= Z.abs (o - b) /\ m = metres o - metres b /\ (pci, earfcn, b) ∈ samples.

Lemma ta_observe_ok samples t pci earfcn ta :
  ta_ok samples t ->
  ta_ok (samples ++ [(pci, earfcn, ta)]) (ta_observe t pci earfcn ta) /\
  ta_moved samples pci earfcn ta (ta_status (ta_observe t pci earfcn ta)).
Proof.
  intros (Hsize & Hzero & Hbase). unfold ta_observe.
  destruct (any_non_zero t || negb (ta =? 0)) eqn:Hany; cbn [negb].
  2:{ apply orb_false_iff in Hany as [Ha Hz]. destruct (Hzero Ha) as [-> Hall]. apply negb_false_iff, Z.eqb_eq in Hz. subst ta.
      split; [|intros ? ? ? [=]]. split_and!; cbn [ta_cells any_non_zero TimingAdvanceTracker_default]; [rewrite map_size_empty; lia | | intros ? ? ? ? H; by rewrite lookup_empty in H]. intros _. split; [done|].
      apply Forall_app. split; [done|]. by apply Forall_singleton. }
  set (cells := if (MAX_CELLS <=? size (ta_cells t))%nat && bool_decide (ta_cells t !! (pci, earfcn) = None) then ∅ else ta_cells t).
  assert (Hsub : cells ⊆ ta_cells t) by (unfold cells; destruct (_ && _); [apply map_empty_subseteq | done]).
  assert (Hnew : (size (<[(pci, earfcn) := (sample (default (mkSamples None 0) (cells !! (pci, earfcn))) ta).1]> cells) <= MAX_CELLS)%nat).
  { unfold cells. destruct (_ && _) eqn:Hfull; [rewrite map_size_insert, lookup_empty, map_size_empty; unfold MAX_CELLS; lia|].
    rewrite map_size_insert. destruct (ta_cells t !! (pci, earfcn)) eqn:Hl; [done|].
    rewrite bool_decide_eq_true_2, andb_true_r in Hfull by done. apply Nat.leb_gt in Hfull. lia. }
  assert (Hold : forall b, baseline (default (mkSamples None 0) (cells !! (pci, earfcn))) = Some b -> (pci, earfcn, b) ∈ samples).
  { intros b. destruct (cells !! (pci, earfcn)) as [e|] eqn:Hl; [|done]. cbn. intros Hb.
    eapply Hbase; [|exact Hb]. by eapply lookup_weaken. }
  destruct (sample _ ta) as [e' st] eqn:Hs. cbn [fst] in Hnew. unfold sample in Hs.
  assert (He : (baseline e' = Some ta \/ baseline e' = baseline (default (mkSamples None 0) (cells !! (pci, earfcn)))) /\ ta_moved samples pci earfcn ta st).
  { unfold ta_moved. destruct (baseline (default _ _)) as [b|] eqn:Hb.
    - destruct (JUMP_THRESHOLD_STEPS <=? Z.abs (ta - b)) eqn:Hj; injection Hs as <- <-; cbn; (split; [by auto|]); [|done].
      intros ? ? ? [= <- <- <-]. apply Z.leb_le in Hj. split_and!; auto.
    - destruct (_ <=? _); injection Hs as <- <-; cbn; (split; [by auto | done]). }
  destruct He as [He Hm]. split; [|exact Hm]. split_and!; cbn [ta_cells any_non_zero]; [exact Hnew | done |].
  intros p f e b Hl Hb. apply elem_of_app. apply lookup_insert_Some in Hl as [[[= <- <-] <-]|[_ Hl]].
  - destruct He as [He|He]; rewrite He in Hb; [right; injection Hb as ->; by apply list_elem_of_singleton | left; by apply Hold].
  - left. eapply Hbase; [|exact Hb]. by eapply lookup_weaken.
Qed.

Lemma ta_run_ok samples : ta_ok samples (ta_run samples).
Proof.
  induction samples as [|[[pci earfcn] ta] samples IH] using rev_ind.
  - split_and!; cbn [ta_cells any_non_zero TimingAdvanceTracker_default ta_run fold_left]; [rewrite map_size_empty; lia | by auto | intros ? ? ? ? H; by rewrite lookup_empty in H].
  - unfold ta_run in *. rewrite fold_left_app. cbn [fold_left]. by apply ta_observe_ok.
Qed.

(** A cell is only said to have moved when it did.  After any samples, [Moved] names the value just
    reported and one that the same cell reported before, at least sixteen steps away, and the
    difference in metres; a modem that only ever reports zero is unsupported; no more than 32 cells
    are remembered.  The second sample of a cell is its baseline whatever the first was. *)
Theorem timing_advance_status_sound samples pci earfcn ta :
  let t := ta_run (samples ++ [(pci, earfcn, ta)]) in
  (size (ta_cells t) <= MAX_CELLS)%nat /\
  (forall b o m, ta_status t = Moved b o m ->
     o = ta /\ 16 <= Z.abs (o - b) /\ m = metres o - metres b /\ (pci, earfcn, b) ∈ samples) /\
  (Forall (fun '(_, _, v) => v = 0) samples -> ta = 0 -> ta_status t = Unsupported) /\
  (forall a b, a <> 0 -> ta_status (ta_run [(pci, earfcn, a); (pci, earfcn, b)]) = Consistent).
Proof.
  cbn zeta. pose proof (ta_run_ok (samples ++ [(pci, earfcn, ta)])) as (Hsize & _). split; [exact Hsize|].
  assert (Hrun : ta_run (samples ++ [(pci, earfcn, ta)]) = ta_observe (ta_run samples) pci earfcn ta).
  { unfold ta_run. by rewrite fold_left_app. }
  rewrite Hrun. split_and!.
  - apply (ta_observe_ok samples (ta_run samples)), ta_run_ok.
  - intros Hz ->. assert (Hdef : ta_run samples = TimingAdvanceTracker_default).
    { clear Hsize Hrun. induction Hz as [|[[p f] v] l Hv _ IH]; [done|]. unfold ta_run in *. cbn [fold_left]. by subst v. }
    by rewrite Hdef.
  - intros a b Ha. unfold ta_run. cbn [fold_left].
    assert (H1 : ta_observe TimingAdvanceTracker_default pci earfcn a = mkTaTracker {[(pci, earfcn) := mkSamples None 1]} true Learning).
    { unfold ta_observe. cbn [any_non_zero TimingAdvanceTracker_default orb]. by rewrite (proj2 (Z.eqb_neq a 0) Ha). }
    rewrite H1. unfold ta_observe. cbn [any_non_zero orb negb ta_cells]. rewrite map_size_singleton. cbn [Nat.leb MAX_CELLS andb].
    by rewrite lookup_singleton_eq.
Qed.

(** *** The SIM *)

(** A SIM is only called faulty on evidence.  The verdict is that it does not register exactly when no cellular
    interface carries data, it never spoke to the core in this run, a cell serves the device, and
    cells have been heard for five minutes or more; with data it is working whatever else, and
    once it has spoken to the core it is registered. *)
Theorem sim_verdict_spec interface last first serving now :
  ((verdict interface last first serving now).1.1 = NotRegistering <->
     interface = None /\ last = None /\ serving = true /\ exists f, first = Some f /\ 5 * (60 * 10 ^ 9) <= now - f) /\
  ((verdict interface last first serving now).1.1 = Working <-> is_Some interface) /\
  ((verdict interface last first serving now).1.1 = Registered <-> interface = None /\ is_Some last).
Proof.
  assert (Hq : forall f, (SILENT_ATTACH_MINUTES <=? num_minutes (now - f)) = true <-> 5 * (60 * 10 ^ 9) <= now - f).
  { intros f. unfold SILENT_ATTACH_MINUTES, num_minutes. rewrite Z.leb_le. pose proof (Z.quot_rem' (now - f) (60 * 10 ^ 9)) as H.
    split; intros Hle.
    - assert (0 <= now - f) by (destruct (Z.neg_nonneg_cases (now - f)); [|done]; pose proof (Z.quot_opp_l (f - now) (60 * 10 ^ 9));
        pose proof (Z.quot_pos (f - now) (60 * 10 ^ 9)); replace (- (f - now)) with (now - f) in * by lia; lia).
      pose proof (Z.rem_nonneg (now - f) (60 * 10 ^ 9)). lia.
    - apply Z.quot_le_lower_bound; lia. }
  unfold verdict. destruct interface as [i|]; cbn [fmap option_fmap option_map].
  { rewrite bool_decide_eq_true_2 by eauto. cbn. split_and!; split; naive_solver. }
  rewrite bool_decide_eq_false_2 by (by intros [? ?]).
  destruct last as [l|]; cbn [fmap option_fmap option_map].
  - assert (Hr : forall b : bool, (if b then (Registered, true, @None Z) else
        if serving && bool_decide (Some l = None) then (if match (fun t => num_minutes (now - t)) <$> first with Some m => SILENT_ATTACH_MINUTES <=? m | None => false end
           then (NotRegistering, false, (fun t => num_minutes (now - t)) <$> first) else (Searching, false, (fun t => num_minutes (now - t)) <$> first))
        else if bool_decide (is_Some (Some l)) then (Registered, false, None) else (Searching, false, None)).1.1 = Registered).
    { intros [|]; [done|]. rewrite bool_decide_eq_false_2, andb_false_r, bool_decide_eq_true_2 by eauto. done. }
    cbn [fmap option_fmap option_map] in Hr. rewrite Hr. split_and!; split; naive_solver.
  - rewrite (bool_decide_eq_true_2 (None = None)), andb_true_r by done. destruct serving; cbn [andb].
    + destruct first as [f|]; cbn [fmap option_fmap option_map].
      * specialize (Hq f). destruct (SILENT_ATTACH_MINUTES <=? num_minutes (now - f)); cbn.
        -- pose proof (proj1 Hq eq_refl). split_and!; split; naive_solver.
        -- assert (Hn : ~ 5 * (60 * 10 ^ 9) <= now - f) by (intros H; by apply Hq in H). split_and!; split; naive_solver.
      * cbn. split_and!; split; naive_solver.
    + cbn. split_and!; split; naive_solver.
Qed.

(** *** The serving cell and the history *)

Inductive cell_op :=
| Cell_serving (pci earfcn : Z) (signal : SignalMeasurements) (threshold : option Z) (now : Z)
| Cell_neighbors (n : list NeighborCell)
| Cell_timing (ta : Z)
| Cell_identity (i : CellIdentity)
| Cell_rrc (cipher integrity now : Z)
| Cell_nas (cipher integrity now : Z)
| Cell_nas_seen (now : Z)
| Cell_messages (seen skipped now : Z)
| Cell_sent (i : Identity).
Definition cell_apply (t : CellTracker) (o : cell_op) : CellTracker :=
  match o with
  | Cell_serving pci earfcn signal threshold now => update_serving t pci earfcn signal threshold now
  | Cell_neighbors n => update_neighbors t n
  | Cell_timing ta => update_timing_advance t ta
  | Cell_identity i => update_identity t i
  | Cell_rrc c i now => update_rrc_security t c i now
  | Cell_nas c i now => update_nas_security t c i now
  | Cell_nas_seen now => update_nas_seen t now
  | Cell_messages seen skipped now => record_messages t seen skipped now
  | Cell_sent i => update_identity_sent t i
  end.
Definition cell_run (ops : list cell_op) : CellTracker := fold_left cell_apply ops CellTracker_new.

(** What an operation says of the serving cell. *)
Definition measured (o : cell_op) : option (Z * Z) := match o with Cell_serving p f _ _ _ => Some (p, f) | _ => None end.
Definition named (o : cell_op) : option CellIdentity := match o with Cell_identity i => Some i | _ => None end.
Definition timed (o : cell_op) : option Z := match o with Cell_timing ta => Some ta | _ => None end.
(** Replacing the cell is all a measurement and the two notes do to it. *)
Definition key_of (s : ServingCell) : Z * Z := (srv_pci s, srv_earfcn s).

(** The stay at a cell: what came after the device last arrived there. *)
Definition stay (ops : list cell_op) (s : ServingCell) (post : list cell_op) : Prop :=
  exists pre arrival, ops = pre ++ arrival :: post /\ measured arrival = Some (key_of s) /\
    last (omap measured pre) <> Some (key_of s) /\ Forall (fun c => c = key_of s) (omap measured post).

Definition serving_ok (ops : list cell_op) (o : option ServingCell) : Prop :=
  match o with
  | None => omap measured ops = []
  | Some s => last (omap measured ops) = Some (key_of s) /\
      exists post, stay ops s post /\ identity s = last (omap named post) /\ timing_advance s = last (omap timed post)
  end.

Lemma omap_snoc {A B : Type} (f : A -> option B) l x : omap f (l ++ [x]) = omap f l ++ option_list (f x).
Proof. rewrite omap_app. cbn. by destruct (f x). Qed.
Lemma last_snoc_option {A : Type} (l : list A) o : last (l ++ option_list o) = match o with Some x => Some x | None => last l end.
Proof. destruct o as [x|]; cbn [option_list]; [apply last_snoc | by rewrite app_nil_r]. Qed.

(** An operation that keeps the cell continues the stay. *)
Lemma serving_ok_keep ops s s' o :
  key_of s' = key_of s -> (measured o = None \/ measured o = Some (key_of s)) ->
  identity s' = match named o with Some i => Some i | None => identity s end ->
  timing_advance s' = match timed o with Some a => Some a | None => timing_advance s end ->
  serving_ok ops (Some s) -> serving_ok (ops ++ [o]) (Some s').
Proof.
  intros Hk Hm Hi Ht (Hlast & post & (pre & arrival & -> & Ha & Hpre & Hpost) & Hid & Hta). unfold serving_ok. rewrite Hk. split.
  { rewrite omap_snoc, last_snoc_option, Hlast. by destruct Hm as [->| ->]. }
  exists (post ++ [o]). split; [|split].
  - unfold stay. rewrite Hk. exists pre, arrival. split_and!; [by rewrite <- app_assoc | done | done |].
    rewrite omap_snoc. apply Forall_app. split; [done|]. destruct Hm as [->| ->]; cbn; by repeat constructor.
  - by rewrite omap_snoc, last_snoc_option, Hi, Hid.
  - by rewrite omap_snoc, last_snoc_option, Ht, Hta.
Qed.

Lemma serving_ok_other ops o s : measured o = None -> named o = None -> timed o = None ->
  serving_ok ops s -> serving_ok (ops ++ [o]) s.
Proof.
  intros Hm Hn Ht. destruct s as [s|]; [apply serving_ok_keep; rewrite ?Hm, ?Hn, ?Ht; auto|].
  unfold serving_ok. rewrite omap_snoc, Hm. intros ->. done.
Qed.

Lemma serving_ok_run ops : serving_ok ops (serving (cell_run ops)).
Proof.
  induction ops as [|o ops IH] using rev_ind; [done|].
  unfold cell_run in *. rewrite fold_left_app. cbn [fold_left]. set (t := fold_left cell_apply ops CellTracker_new) in *.
  destruct o as [pci earfcn signal threshold now|n|ta|i|c i now|c i now|now|seen skipped now|i]; cbn [cell_apply].
  - cbn [update_serving serving]. destruct (serving t) as [s|] eqn:Hs.
    + destruct (same_cell s pci earfcn) eqn:Hsame.
      * unfold same_cell in Hsame. apply andb_true_iff in Hsame as [<-%Z.eqb_eq <-%Z.eqb_eq].
        apply (serving_ok_keep ops s); cbn; auto.
      * destruct IH as [Hlast _]. split; [by rewrite omap_snoc; cbn; rewrite last_snoc|]. exists []. split; [|done].
        exists ops, (Cell_serving pci earfcn signal threshold now). split_and!; [done|done| |constructor].
        rewrite Hlast. unfold key_of. cbn [srv_pci srv_earfcn]. intros [= Hp Hf]. unfold same_cell in Hsame. rewrite Hp, Hf, !Z.eqb_refl in Hsame. done.
    + split; [by rewrite omap_snoc; cbn; rewrite last_snoc|]. exists []. split; [|done].
      exists ops, (Cell_serving pci earfcn signal threshold now). split_and!; [done|done| |constructor]. cbn in IH. by rewrite IH.
  - by apply serving_ok_other.
  - unfold update_timing_advance. destruct (serving t) as [s|] eqn:Hs; [|rewrite Hs].
    + cbn [serving]. apply (serving_ok_keep ops s); cbn; auto.
    + unfold serving_ok in *. rewrite omap_snoc, IH. done.
  - unfold update_identity. destruct (serving t) as [s|] eqn:Hs; [|rewrite Hs].
    + cbn [serving]. apply (serving_ok_keep ops s); cbn; auto.
    + unfold serving_ok in *. rewrite omap_snoc, IH. done.
  - by apply serving_ok_other.
  - by apply serving_ok_other.
  - by apply serving_ok_other.
  - by apply serving_ok_other.
  - by apply serving_ok_other.
Qed.

(** An identity is never shown for another cell.  After any updates there is a serving cell exactly
    when one was measured, and it is the last one measured; the identity and the timing advance
    shown are the last ones given since the device last arrived at that very cell, and none when
    none was: what was learnt of a cell is forgotten when another is measured. *)
Theorem serving_cell_spec ops :
  match serving (cell_run ops) with
  | None => omap measured ops = []
  | Some s => last (omap measured ops) = Some (key_of s) /\
      exists pre arrival post, ops = pre ++ arrival :: post /\ measured arrival = Some (key_of s) /\
        last (omap measured pre) <> Some (key_of s) /\ Forall (fun c => c = key_of s) (omap measured post) /\
        identity s = last (omap named post) /\ timing_advance s = last (omap timed post)
  end.
Proof.
  pose proof (serving_ok_run ops) as H. destruct (serving (cell_run ops)) as [s|]; [|exact H].
  destruct H as (Hl & post & (pre & arrival & H) & Hi & Ht). split; [done|]. exists pre, arrival, post. tauto.
Qed.

(** *** The history *)

Definition obs_key (e : CellObservation) : Z * Z := (obs_pci e, obs_earfcn e).
Definition history_ok (t : CellTracker) : Prop :=
  (length (history t) <= HISTORY_LIMIT)%nat /\ NoDup (map obs_key (history t)) /\
  forall s, serving t = Some s -> exists e, e ∈ history t /\ obs_key e = key_of s /\
    (identity s <> None -> obs_identity e = identity s).

Lemma observe_existing_cell l pci earfcn rsrp now :
  match observe_existing l pci earfcn rsrp now with
  | None => (pci, earfcn) ∉ map obs_key l
  | Some l' => map obs_key l' = map obs_key l /\ map obs_identity l' = map obs_identity l /\
      exists e, e ∈ l' /\ obs_key e = (pci, earfcn)
  end.
Proof.
  induction l as [|e l IH]; cbn [observe_existing map]; [by intros H%elem_of_nil|].
  destruct (Z.eqb_spec (obs_pci e) pci) as [<-|Hp]; [destruct (Z.eqb_spec (obs_earfcn e) earfcn) as [<-|Hf]|]; cbn [andb].
  - split_and!; [done..|]. eexists. split; [by left | done].
  - destruct (observe_existing l (obs_pci e) earfcn rsrp now) as [l'|]; cbn [fmap option_fmap option_map].
    + destruct IH as (Hkk & Hi & e' & He & Hk). cbn [map]. rewrite Hkk, Hi. split_and!; [done..|]. exists e'. split; [by right | done].
    + rewrite not_elem_of_cons. split; [|done]. intros [= ?]. congruence.
  - destruct (observe_existing l pci earfcn rsrp now) as [l'|]; cbn [fmap option_fmap option_map].
    + destruct IH as (Hkk & Hi & e' & He & Hk). cbn [map]. rewrite Hkk, Hi. split_and!; [done..|]. exists e'. split; [by right | done].
    + rewrite not_elem_of_cons. split; [|done]. intros [= ?]. congruence.
Qed.

(** Entries of one list of unique keys with the same keys and identities are the same to the serving cell. *)
Lemma record_observation_spec h pci earfcn rsrp now :
  (length h <= HISTORY_LIMIT)%nat -> NoDup (map obs_key h) ->
  let h' := record_observation h pci earfcn rsrp now in
  (length h' <= HISTORY_LIMIT)%nat /\ NoDup (map obs_key h') /\
  (exists e, e ∈ h' /\ obs_key e = (pci, earfcn)) /\
  (forall e, e ∈ h -> obs_key e = (pci, earfcn) -> exists e', e' ∈ h' /\ obs_key e' = (pci, earfcn) /\ obs_identity e' = obs_identity e).
Proof.
  intros Hl Hn. cbn zeta. unfold record_observation. pose proof (observe_existing_cell h pci earfcn rsrp now) as H.
  destruct (observe_existing h pci earfcn rsrp now) as [h'|].
  - destruct H as (Hk & Hi & He). split_and!; [|by rewrite Hk | done |].
    + apply (f_equal length) in Hk. rewrite !length_map in Hk. lia.
    + intros e Hin Hkey. apply list_elem_of_lookup in Hin as [i Hi'].
      assert (Hki : map obs_key h' !! i = Some (pci, earfcn)) by (rewrite Hk, list_lookup_fmap, Hi'; cbn; by rewrite Hkey).
      assert (Hii : map obs_identity h' !! i = Some (obs_identity e)) by (rewrite Hi, list_lookup_fmap, Hi'; done).
      change (map obs_key h') with (obs_key <$> h') in Hki. change (map obs_identity h') with (obs_identity <$> h') in Hii.
      rewrite list_lookup_fmap in Hki. rewrite list_lookup_fmap in Hii. destruct (h' !! i) as [e'|] eqn:He'; [|done]. cbn in Hki, Hii.
      exists e'. split; [by apply (list_elem_of_lookup_2 _ i)|]. split; congruence.
  - set (h0 := if (HISTORY_LIMIT <=? length h)%nat then drop 1 h else h).
    assert (Hsub : forall k, k ∈ map obs_key h0 -> k ∈ map obs_key h).
    { unfold h0. destruct (_ <=? _)%nat; [|done]. destruct h; [done|]. intros k Hk. by right. }
    split_and!.
    + rewrite length_app. unfold h0. destruct (Nat.leb_spec HISTORY_LIMIT (length h)); cbn [length]; [rewrite length_drop|]; unfold HISTORY_LIMIT in *; lia.
    + rewrite map_app. apply NoDup_app. split_and!; [| |apply NoDup_singleton].
      * unfold h0. destruct (_ <=? _)%nat; [|done]. destruct h; [done|]. cbn in *. by apply NoDup_cons in Hn as [_ ?].
      * intros k Hk Hs. apply list_elem_of_singleton in Hs as ->. by apply H, Hsub.
    + eexists. split; [apply elem_of_app; right; by apply list_elem_of_singleton | done].
    + intros e Hin Hkey. destruct H. rewrite <- Hkey. apply list_elem_of_fmap. by exists e.
Qed.

Lemma identify_spec l pci earfcn i :
  map obs_key (identify_first l pci earfcn i) = map obs_key l /\
  ((pci, earfcn) ∈ map obs_key l -> exists e, e ∈ identify_first l pci earfcn i /\ obs_key e = (pci, earfcn) /\ obs_identity e = Some i).
Proof.
  induction l as [|e l [IHk IHe]]; cbn [identify_first map]; [split; [done | by intros ?%elem_of_nil]|].
  destruct (Z.eqb_spec (obs_pci e) pci) as [<-|Hp]; [destruct (Z.eqb_spec (obs_earfcn e) earfcn) as [<-|Hf]|]; cbn [andb map].
  - split; [done|]. intros _. eexists. split; [by left | done].
  - rewrite IHk. split; [done|]. intros [Heq|Hin]%elem_of_cons; [by injection Heq|].
    destruct (IHe Hin) as (e' & He & Hr). exists e'. split; [by right | done].
  - rewrite IHk. split; [done|]. intros [Heq|Hin]%elem_of_cons; [by injection Heq|].
    destruct (IHe Hin) as (e' & He & Hr). exists e'. split; [by right | done].
Qed.

Lemma history_ok_same t t' : history t' = history t ->
  (forall s', serving t' = Some s' -> exists s, serving t = Some s /\ key_of s = key_of s' /\ identity s = identity s') ->
  history_ok t -> history_ok t'.
Proof.
  intros Hh Hs (Hl & Hn & Hid). unfold history_ok. rewrite Hh. split_and!; [done..|]. intros s' H.
  destruct (Hs s' H) as (s & Hser & Hk & Hi). rewrite <- Hk, <- Hi. by apply Hid.
Qed.

Lemma history_ok_apply t o : history_ok t -> history_ok (cell_apply t o).
Proof.
  destruct o as [pci earfcn signal threshold now|n|ta|i|c i now|c i now|now|seen skipped now|i]; cbn [cell_apply];
    try (apply history_ok_same; [done | intros s' Hs'; exists s'; by split_and!]).
  - intros (Hl & Hn & Hid). destruct (record_observation_spec (history t) pci earfcn (rsrp_dbm signal) now Hl Hn) as (Hl' & Hn' & He & Hold).
    split_and!; cbn [update_serving history]; [done..|]. intros s [= <-]. unfold key_of. cbn [srv_pci srv_earfcn identity].
    destruct (serving t) as [prev|] eqn:Hp; [|destruct He as (e & ? & ?); exists e; by split_and!].
    destruct (same_cell prev pci earfcn) eqn:Hsame; [|destruct He as (e & ? & ?); exists e; by split_and!].
    unfold same_cell in Hsame. apply andb_true_iff in Hsame as [<-%Z.eqb_eq <-%Z.eqb_eq].
    destruct (Hid prev eq_refl) as (e & Hin & Hk & Hi). destruct (Hold e Hin Hk) as (e' & ? & ? & Hie). exists e'. split_and!; [done..|]. by rewrite Hie.
  - unfold update_timing_advance. destruct (serving t) as [s|] eqn:Hs; [|done].
    apply history_ok_same; [done|]. intros s' [= <-]. exists s. by split_and!.
  - unfold update_identity. destruct (serving t) as [s|] eqn:Hs; [|done]. intros (Hl & Hn & Hid).
    destruct (identify_spec (rev (history t)) (srv_pci s) (srv_earfcn s) i) as [Hk He].
    split_and!; cbn [history serving].
    + apply (f_equal length) in Hk. rewrite !length_map, !length_rev in *. lia.
    + rewrite map_rev, Hk, <- map_rev, rev_involutive. done.
    + intros s' [= <-]. cbn [identity]. destruct (Hid s Hs) as (e & Hin & Hkey & _).
      destruct He as (e' & Hin' & Hk' & Hi').
      { rewrite map_rev. apply list_elem_of_In, in_rev. rewrite rev_involutive. apply list_elem_of_In, list_elem_of_fmap. by exists e. }
      exists e'. split_and!; [apply list_elem_of_In; rewrite <- in_rev; by apply list_elem_of_In | done | done].
Qed.

(** The history holds each cell once.  After any updates there are at most 256 observations and no two of the
    same cell; the serving cell is among them, under the identity shown for it. *)
Theorem cell_history_spec ops :
  let t := cell_run ops in
  (length (history t) <= 256)%nat /\ NoDup (map obs_key (history t)) /\
  forall s, serving t = Some s -> exists e, e ∈ history t /\ obs_key e = key_of s /\
    (identity s <> None -> obs_identity e = identity s).
Proof.
  change (history_ok (cell_run ops)). unfold cell_run.
  assert (H : forall t, history_ok t -> history_ok (fold_left cell_apply ops t)).
  { induction ops as [|o ops IH]; intros t Ht; [done|]. by apply IH, history_ok_apply. }
  apply H. split_and!; cbn; [unfold HISTORY_LIMIT; lia | constructor | done].
Qed.

(** *** Counting what could not be decoded *)

Definition gathered_nothing : Gathered := mkGathered None None None [].
(** A message that makes the tracker look at its container: a measurement, a random access response with a
    timing advance, RRC or NAS. *)
Definition relevant (m : Message) : bool := negb (nothing_gathered (gather gathered_nothing m)).

Lemma rach_fold (l : list Subpacket) (acc : option Z) :
  let f := fun (acc : option Z) s => match sub_body s with
             | RachAttempt a => match get_msg2 a with Some m2 => Some (ta m2) | None => acc end
             | _ => acc end in
  is_Some (fold_left f l acc) <-> is_Some acc \/ is_Some (fold_left f l None).
Proof.
  cbn zeta. revert acc. induction l as [|s l IH]; intros acc; cbn [fold_left].
  - split; [by left|]. intros [H|[? ?]]; done.
  - destruct (sub_body s) as [a|b|b|d]; try apply IH. destruct (get_msg2 a) as [m2|]; [|apply IH].
    pose proof (proj2 (IH (Some (ta m2))) (or_introl (ex_intro _ _ eq_refl))) as H. split; auto.
Qed.

Lemma gather_relevant g m : nothing_gathered (gather g m) = nothing_gathered g && negb (relevant m).
Proof.
  unfold relevant. rewrite negb_involutive. destruct g as [s n a r], m as [? ? ? ? ? body|]; [|cbn; by rewrite andb_true_r].
  destruct body; cbn; rewrite ?andb_true_r, ?andb_false_r; try done; try (by destruct s, n, a, r); try (by destruct s, n, a).
  pose proof (rach_fold (subpackets packet) a) as H. cbn zeta in H.
  set (f := fun acc s => _) in *.
  destruct (fold_left f (subpackets packet) a) as [x|], (fold_left f (subpackets packet) None) as [y|]; cbn.
  - destruct s, n, a, r; reflexivity.
  - destruct H as [H _]. destruct H as [H|H]; [by eexists | | by destruct H]. destruct H as [z ->]. destruct s, n; reflexivity.
  - destruct H as [_ H]. destruct H as [? H]; [right; by eexists | done].
  - destruct a; [destruct H as [_ H]; destruct H as [? H]; [left; by eexists | done]|]. destruct s, n, r; reflexivity.
Qed.

Lemma gather_all_relevant ms g :
  nothing_gathered (fold_left gather ms g) = nothing_gathered g && negb (existsb relevant ms).
Proof.
  revert g. induction ms as [|m ms IH]; intros g; cbn [fold_left existsb]; [by rewrite andb_true_r|].
  rewrite IH, gather_relevant, negb_orb. by rewrite andb_assoc.
Qed.

Lemma health_identity t i : health (update_identity t i) = health t.
Proof. unfold update_identity. by destruct (serving t). Qed.
Lemma health_rrc t c i now : health (update_rrc_security t c i now) = health t.
Proof. done. Qed.
Lemma health_nas t c i now : health (update_nas_security t c i now) = health t.
Proof. done. Qed.
Lemma health_seen t now : health (update_nas_seen t now) = health t.
Proof. done. Qed.
Lemma health_sent t i : health (update_identity_sent t i) = health t.
Proof. done. Qed.

Section counting.
Context {C : Crc16} {K : Deku} {R : DiagReader} {D : Decoders}.

Lemma fold_message_health need now t m : health (fold_message need now t m) = health t.
Proof.
  unfold fold_message. repeat case_match;
    rewrite ?health_sent, ?health_seen, ?health_nas, ?health_rrc, ?health_identity; done.
Qed.
Lemma fold_messages_health need now ms t : health (fold_left (fold_message need now) ms t) = health t.
Proof. revert t. induction ms as [|m ms IH]; intros t; cbn [fold_left]; [done|]. by rewrite IH, fold_message_health. Qed.

(** What could not be decoded is only counted in good company.  When a container holds a message
    that is relevant to the tracker, the health shows all of its messages, and those that could not be decoded, and the
    time; otherwise the tracker is left as it was, so that a container of which nothing could be decoded at all, which is
    what a detector gone blind receives, is not counted. *)
Theorem undecodable_containers_uncounted t container now :
  let all := container_messages container in
  let t' := update_cell_info t container now in
  (if existsb relevant (omap result_ok all)
   then health t' = mkHealth (messages_seen (health t) + Z.of_nat (length all))
          (messages_skipped (health t) + Z.of_nat (length (filter (fun r => is_ok r = false) all))) (Some now)
   else t' = t) /\
  (Forall (fun r => is_ok r = false) all -> t' = t).
Proof.
  cbn zeta. set (all := container_messages container).
  assert (H : if existsb relevant (omap result_ok all)
    then health (update_cell_info t container now) = mkHealth (messages_seen (health t) + Z.of_nat (length all))
          (messages_skipped (health t) + Z.of_nat (length (filter (fun r => is_ok r = false) all))) (Some now)
    else update_cell_info t container now = t).
  { unfold update_cell_info. fold all. rewrite gather_all_relevant. destruct (existsb relevant (omap result_ok all)) eqn:Hr; [|done].
    cbn [nothing_gathered andb negb]. rewrite fold_messages_health.
    assert (Hlen : (0 <? Z.of_nat (length all)) = true) by (apply Z.ltb_lt; destruct all; [done | cbn [length]; lia]).
    unfold record_messages. rewrite Hlen.
    destruct (g_serving _) as [[[[p f] s] th]|], (g_neighbors _) as [n|], (g_timing_advance _) as [a|];
      unfold update_timing_advance, update_neighbors, update_serving; cbn [serving health]; try done; by destruct (serving t). }
  split; [exact H|]. intros Hall. assert (Hnone : omap result_ok all = []).
  { clear H. induction Hall as [|r l Hr _ IH]; [done|]. cbn. destruct r; [done|]. exact IH. }
  by rewrite Hnone in H.
Qed.
End counting.
