(* ===== verification/Cleanup.v ===== *)
(** * Making room ([daemon/src/cleanup.rs])

    Which recordings may be deleted to make room, and the loop that deletes them.  Parsing JSON is
    [serde_json]'s: the argument [from_str], whose values are its [Value]; [statvfs] is the
    operating system's answer on the free bytes of the store's partition, [None] when it fails. *)

From S2P Require Import Prelude RustStr Filesystem Sidecar Store StoreSafety.

Local Open Scope Z_scope.

Set Warnings "-register-all".

(** [serde_json::Value]; a number is kept as its text. *)
Inductive Value :=
| Value_Null
| Value_Bool (b : bool)
| Value_Number (n : rstr)
| Value_String (s : rstr)
| Value_Array (l : list Value)
| Value_Object (fields : list (rstr * Value)).

Definition value_get (key : rstr) (v : Value) : option Value :=
  match v with Value_Object fields => snd <$> List.find (fun '(k, _) => bool_decide (k = key)) fields | _ => None end.
Definition as_array (v : Value) : option (list Value) := match v with Value_Array l => Some l | _ => None end.
Definition as_str (v : Value) : option rstr := match v with Value_String s => Some s | _ => None end.

Inductive Verdict := Clean | HasWarnings | Unknown.
#[export] Instance Verdict_eq_dec : EqDecision Verdict.
Proof. solve_decision. Defined.
Inductive LineClass := Line_Warning | Line_NoWarning | Line_Malformed.
#[export] Instance LineClass_eq_dec : EqDecision LineClass.
Proof. solve_decision. Defined.

(** The test on one event, and on a line's value. *)
Definition event_warns (event : Value) : bool :=
  match value_get (lit "event_type") event ≫= as_str with
  | Some t => negb (bool_decide (t = lit "Informational"))
  | None => false
  end.
Definition value_warns (v : Value) : bool :=
  match value_get (lit "events") v ≫= as_array with Some events => existsb event_warns events | None => false end.

Section cleanup.
Context (from_str : rstr -> option Value).

Definition classify_line (line : rstr) : LineClass :=
  let trimmed := trim line in
  match trimmed with
  | [] => Line_NoWarning
  | _ :: _ => match from_str trimmed with
              | None => Line_Malformed
              | Some v => if value_warns v then Line_Warning else Line_NoWarning
              end
  end.

(** The loop over [next_line]; [pieces] is what is left of the file. *)
Fixpoint verdict_lines (pieces : list (list Z)) (saw_a_line : bool) : IO Verdict :=
  r ← attempt dir_op;
  match r with
  | Err _ => mret Unknown
  | Ok _ =>
      match pieces with
      | [] => mret (if saw_a_line then Clean else Unknown)
      | piece :: pieces =>
          match from_utf8 piece with
          | None => mret Unknown
          | Some s =>
              let line := line_of_piece s in
              let saw := saw_a_line || negb (bool_decide (trim line = [])) in
              match classify_line line with
              | Line_Warning => mret HasWarnings
              | Line_Malformed => mret Unknown
              | Line_NoWarning => verdict_lines pieces saw
              end
          end
      end
  end.

(** Reading the file just opened to its end. *)
Definition read_verdict (p : rstr) : M World RecordingStoreError Verdict := fun w =>
  match files w !! p with
  | Some c => map_err_m ReadFileError (verdict_lines (split_inclusive 10 c) false) w
  | None => (Ok Unknown, w)
  end.

Definition verdict_for (st : RecordingStore) (index : nat) (uploads_configured : bool) : M World RecordingStoreError Verdict :=
  match entries st !! index with
  | None => mret Unknown
  | Some entry =>
      if is_current_entry st (name entry) then mret Unknown
      else if uploads_configured && bool_decide (upload_time entry = None) then mret Unknown
      else if bool_decide (is_Some (display_name entry)) || bool_decide (is_Some (notes entry)) then mret Unknown
      else
        r ← attempt (open_file st index Kind_Analysis);
        match r with
        | Ok (Some p) => read_verdict p
        | _ => mret Unknown
        end
  end.

Context (to_toml : Manifest -> list Z)
  (to_vec : RecordingSidecar -> result ErrorKind (list Z)) (from_slice : list Z -> option RecordingSidecar)
  (uptime : option rstr) (statvfs : World -> option Z).

Definition available_mb (w : World) : Z :=
  match statvfs w with Some bytes => bytes / 1024 / 1024 | None => 2 ^ 64 - 1 end.

(** Operations that look at the store's files only. *)
Definition look {A : Type} (m : RecordingStore -> M World RecordingStoreError A) : Op A :=
  fun s => let '(r, w) := m (store s) (world s) in (r, mkSys (store s) w).

Fixpoint prune_loop (names : list rstr) (target_mb : Z) (uploads_configured : bool) (removed : Z) : Op Z := fun s =>
  match names with
  | [] => (Ok removed, s)
  | n :: names =>
      if target_mb <=? available_mb (world s) then (Ok removed, s)
      else
        match entry_for_name (store s) n with
        | None => prune_loop names target_mb uploads_configured removed s
        | Some (index, _) =>
            match look (fun st => verdict_for st index uploads_configured) s with
            | (Ok Clean, s) =>
                match delete_entry to_toml to_vec from_slice uptime n s with
                | (Ok _, s) => prune_loop names target_mb uploads_configured (removed + 1) s
                | (Err _, s) => prune_loop names target_mb uploads_configured removed s
                end
            | (_, s) => prune_loop names target_mb uploads_configured removed s
            end
        end
  end.

Definition prune_clean_recordings (target_mb : Z) (uploads_configured : bool) : Op Z := fun s =>
  if target_mb <=? available_mb (world s) then (Ok 0, s)
  else prune_loop (map name (entries (store s))) target_mb uploads_configured 0 s.

Lemma prune_loop_ok names target up removed s : exists n s', prune_loop names target up removed s = (Ok n, s').
Proof.
  revert removed s. induction names as [|n names IH]; intros removed s; cbn [prune_loop]; [by eauto|].
  destruct (target <=? _); [by eauto|]. destruct (entry_for_name _ _) as [[i e]|]; [|apply IH].
  destruct (look _ s) as [[[]|err] s1]; try apply IH. destruct (delete_entry _ _ _ _ _ s1) as [[?|?] s2]; apply IH.
Qed.
Lemma prune_ok target up s : exists n, (prune_clean_recordings target up s).1 = Ok n.
Proof.
  unfold prune_clean_recordings. destruct (_ <=? _); [by eexists|].
  edestruct prune_loop_ok as (n & s' & ->). by exists n.
Qed.

(** ** What a verdict rests on *)

Definition line_ok (piece : list Z) : Prop :=
  exists s, from_utf8 piece = Some s /\ classify_line (line_of_piece s) = Line_NoWarning.
Definition line_says_something (piece : list Z) : Prop :=
  exists s, from_utf8 piece = Some s /\ trim (line_of_piece s) <> [].
(** A report every line of which was understood, none with a warning, and that says something. *)
Definition clean_report (c : list Z) : Prop :=
  Forall line_ok (split_inclusive 10 c) /\ Exists line_says_something (split_inclusive 10 c).

Lemma dir_op_files w : files (dir_op w).2 = files w.
Proof. unfold dir_op, faulty, no_effect. by destruct (head (schedule w)) as [[f|]|]. Qed.

Lemma verdict_lines_spec pieces saw w :
  let '(r, w') := verdict_lines pieces saw w in
  files w' = files w /\ exists v, r = Ok v /\
    (v = Clean -> Forall line_ok pieces /\ (saw = true \/ Exists line_says_something pieces)).
Proof.
  revert saw w. induction pieces as [|p ps IH]; intros saw w; cbn [verdict_lines];
    unfold attempt at 1, mbind at 1, M_bind at 1; pose proof (dir_op_files w) as Hf;
    destruct (dir_op w) as [[[]|e] w1]; cbn [snd] in Hf.
  - split; [done|]. destruct saw; eexists; (split; [reflexivity|]); [|done]. intros _. split; [constructor | by left].
  - split; [done|]. by eexists.
  - destruct (from_utf8 p) as [s|] eqn:Hu; [|split; [done|]; by eexists].
    destruct (classify_line (line_of_piece s)) eqn:Hc; try (split; [done|]; by eexists).
    set (saw' := saw || _). specialize (IH saw' w1). destruct (verdict_lines ps saw' w1) as [r w2].
    destruct IH as (Hf2 & v & -> & Hv). split; [congruence|]. exists v. split; [done|]. intros Hcl.
    destruct (Hv Hcl) as [Hok Hsaw]. split; [constructor; [by exists s | done]|].
    destruct Hsaw as [Hs|Hs]; [|right; by right]. unfold saw' in Hs. apply orb_true_iff in Hs as [Hs|Hs]; [by left|].
    right. left. exists s. split; [done|]. by apply negb_true_iff, bool_decide_eq_false in Hs.
  - split; [done|]. by eexists.
Qed.

(** The entry of the recording in progress. *)
Definition current_of (st : RecordingStore) : option ManifestEntry := snd <$> get_current_entry st.
Lemma is_current_of st n : is_current_entry st n = match current_of st with Some e => bool_decide (name e = n) | None => false end.
Proof.
  unfold is_current_entry, current_of, get_current_entry. destruct (current_entry st) as [c|]; [|done].
  cbn. by destruct (entries st !! c).
Qed.

(** What makes a recording one that may go: it is in the manifest, not the one in progress, uploaded
    if it is to be, not named and without notes, and its report on disk is clean. *)
Definition certified (uploads_configured : bool) (s : Sys) (e : ManifestEntry) : Prop :=
  e ∈ entries (store s) /\ is_current_entry (store s) (name e) = false /\
  (uploads_configured = true -> upload_time e <> None) /\ display_name e = None /\ notes e = None /\
  exists c, sys_files s !! file_of e Kind_Analysis = Some c /\ clean_report c.

Lemma open_existing_files p w : files (open_existing p false w).2 = files w.
Proof.
  unfold open_existing, faulty, no_effect. destruct (head (schedule w)) as [[f|]|]; cbn; [done|..];
    by destruct (files w !! p) eqn:Hp; cbn.
Qed.

Lemma verdict_for_spec st index up w :
  let '(r, w') := verdict_for st index up w in
  files w' = files w /\
  (r = Ok Clean -> exists e, entries st !! index = Some e /\ certified up (mkSys st w) e).
Proof.
  unfold verdict_for. destruct (entries st !! index) as [e|] eqn:He; [|done].
  destruct (is_current_entry st (name e)) eqn:Hcur; [done|].
  destruct (up && bool_decide (upload_time e = None)) eqn:Hup; [done|].
  destruct (bool_decide (is_Some (display_name e)) || bool_decide (is_Some (notes e))) eqn:Hnamed; [done|].
  unfold attempt at 1, mbind at 1, M_bind at 1, open_file. rewrite He.
  unfold attempt at 1, mbind at 1, M_bind at 1. pose proof (open_existing_files (file_of e Kind_Analysis) w) as Hf.
  destruct (open_existing (file_of e Kind_Analysis) false w) as [[[]|err] w1] eqn:Hopen; cbn [snd] in Hf.
  2:{ destruct err; cbn; (split; [done|]); done. }
  cbn [mret M_ret]. unfold read_verdict, map_err_m. destruct (files w1 !! file_of e Kind_Analysis) as [c|] eqn:Hc; [|done].
  pose proof (verdict_lines_spec (split_inclusive 10 c) false w1) as H.
  destruct (verdict_lines _ false w1) as [r w2]. destruct H as (Hf2 & v & -> & Hv). cbn [map_err].
  split; [by rewrite Hf2|]. intros [= ->]. destruct (Hv eq_refl) as [Hok [?|Hsome]]; [done|].
  exists e. split; [done|]. apply orb_false_iff in Hnamed as [Hd%bool_decide_eq_false Hn%bool_decide_eq_false].
  rewrite <- eq_None_not_Some in Hd, Hn. split_and!; try done.
  - cbn. by apply (list_elem_of_lookup_2 _ index).
  - intros ->. cbn in Hup. by apply bool_decide_eq_false in Hup.
  - exists c. split; [|done]. unfold sys_files. cbn. by rewrite <- Hf.
Qed.

(** ** What pruning does *)

Record pruned (up : bool) (s s' : Sys) : Prop := mkPruned {
  pruned_kept : forall e, e ∈ entries (store s) -> e ∈ entries (store s') \/ certified up s e;
  pruned_sub : forall e, e ∈ entries (store s') -> e ∈ entries (store s);
  pruned_current : current_of (store s') = current_of (store s);
  pruned_files : forall p, p ∉ manifest_files -> (forall e, certified up s e -> p ∉ entry_files e) ->
    sys_files s' !! p = sys_files s !! p;
  pruned_gone : forall p c, p ∉ manifest_files -> sys_files s' !! p = Some c -> sys_files s !! p = Some c;
  pruned_length : (length (entries (store s')) <= length (entries (store s)))%nat }.

Lemma pruned_refl up s : pruned up s s.
Proof. by split; auto. Qed.

(** Looking changes nothing the statements speak of. *)
Lemma pruned_look up s w' : files w' = files (world s) -> pruned up s (mkSys (store s) w').
Proof. intros Hf. split; unfold sys_files; cbn [store world]; rewrite ?Hf; auto. Qed.

Lemma certified_before up s s' e : pruned up s s' -> certified up s' e -> certified up s e.
Proof.
  intros [_ Hsub Hcur _ Hgone _] (Hin & Hc & Hup & Hd & Hn & c & Hfile & Hrep). split_and!; try done.
  - by apply Hsub.
  - by rewrite is_current_of, <- Hcur, <- is_current_of.
  - exists c. split; [|done]. apply Hgone; [|done]. unfold manifest_files. pose proof (file_of_manifest e Kind_Analysis). set_solver.
Qed.

Lemma pruned_trans up s1 s2 s3 : pruned up s1 s2 -> pruned up s2 s3 -> pruned up s1 s3.
Proof.
  intros H12 H23. pose proof (certified_before up s1 s2) as Hb.
  destruct H12 as [Hk1 Hs1 Hc1 Hf1 Hg1 Hl1] eqn:E12, H23 as [Hk2 Hs2 Hc2 Hf2 Hg2 Hl2]. split.
  - intros e He. destruct (Hk1 e He) as [H|H]; [|by right]. destruct (Hk2 e H) as [H'|H']; [by left | right; by apply Hb].
  - auto.
  - congruence.
  - intros p Hp Hno. rewrite Hf2, Hf1; [done | done | done | done |]. intros e He. by apply Hno, Hb.
  - auto.
  - lia.
Qed.

Lemma position_lookup n es i : position n es = Some i -> exists e, es !! i = Some e /\ name e = n.
Proof. unfold position. intros ([j e] & (He & Hn & _)%list_find_Some & ->)%fmap_Some. by exists e. Qed.

(** Deleting a recording that was judged clean. *)
Lemma pruned_delete up n s e idx :
  position n (entries (store s)) = Some idx -> entries (store s) !! idx = Some e -> certified up s e ->
  let '(r, s') := delete_entry to_toml to_vec from_slice uptime n s in
  pruned up s s' /\ (r = Ok tt -> length (entries (store s)) = S (length (entries (store s')))).
Proof.
  intros Hpos He Hcert. pose proof (delete_entry_effect to_toml to_vec from_slice uptime n s) as H.
  destruct (delete_entry _ _ _ _ n s) as [r s'].
  destruct H as [(-> & -> & _) | (idx' & e' & Hpos' & He' & Hname & Hfil & Hsub & Hcase)].
  { split; [apply pruned_refl | done]. }
  assert (idx' = idx) as -> by congruence. assert (e' = e) as -> by congruence.
  assert (Hfiles : forall p, p ∉ manifest_files -> (forall e, certified up s e -> p ∉ entry_files e) -> sys_files s' !! p = sys_files s !! p).
  { intros p Hp Hno. apply Hfil; [by apply Hno | done]. }
  destruct Hcase as [[[k ->] Hst] | (Hr & Hst & _)].
  { split; [|done]. split; rewrite ?Hst; auto. }
  assert (Hlen : length (entries (store s)) = S (length (entries (store s')))).
  { rewrite Hst. cbn [entries]. rewrite length_delete by (by eexists). apply lookup_lt_Some in He. lia. }
  split; [split|].
  - intros e0 Hin. rewrite Hst. cbn [entries]. rewrite delete_take_drop.
    pose proof (take_drop_middle _ _ _ He) as Heq. rewrite <- Heq in Hin.
    apply elem_of_app in Hin as [Hin|[->|Hin]%elem_of_cons]; [left; apply elem_of_app; by left | by right | left; apply elem_of_app; by right].
  - intros e0. rewrite Hst. cbn [entries]. rewrite delete_take_drop. intros Hin.
    rewrite <- (take_drop_middle _ _ _ He). apply elem_of_app in Hin as [Hin|Hin]; apply elem_of_app; [by left | right; by right].
  - rewrite Hst. unfold current_of, get_current_entry. cbn [current_entry entries]. destruct Hcert as (_ & Hc & _).
    unfold is_current_entry in Hc. destruct (current_entry (store s)) as [c|] eqn:Hcur; [|done]. cbn [mbind option_bind].
    destruct (current_after idx (Some c)) as [c'|] eqn:Haft.
    + cbn [mbind option_bind]. rewrite (lookup_current_after (entries (store s)) idx c c' Haft).
      by destruct (entries (store s) !! c).
    + unfold current_after in Haft. destruct (Nat.eqb_spec c idx) as [->|]; [|by destruct (idx <? c)%nat].
      rewrite He in Hc. by rewrite bool_decide_eq_true_2 in Hc.
  - done.
  - done.
  - lia.
  - done.
Qed.

Lemma prune_loop_spec up target names removed s :
  let '(r, s') := prune_loop names target up removed s in
  pruned up s s' /\ exists n, r = Ok n /\ removed <= n /\ n - removed + Z.of_nat (length (entries (store s'))) <= Z.of_nat (length (entries (store s))).
Proof.
  revert removed s. induction names as [|n names IH]; intros removed s; cbn [prune_loop].
  { split; [apply pruned_refl|]. exists removed. split; [done|lia]. }
  destruct (target <=? available_mb (world s)); [split; [apply pruned_refl|]; exists removed; split; [done|lia]|].
  destruct (entry_for_name (store s) n) as [[idx e]|] eqn:Hfor; [|apply IH].
  unfold look. pose proof (verdict_for_spec (store s) idx up (world s)) as Hv.
  destruct (verdict_for (store s) idx up (world s)) as [r w1]. destruct Hv as [Hf Hclean].
  set (s1 := mkSys (store s) w1). assert (H01 : pruned up s s1) by (by apply pruned_look).
  assert (Hskip : let '(r, s') := prune_loop names target up removed s1 in
    pruned up s s' /\ exists n, r = Ok n /\ removed <= n /\ n - removed + Z.of_nat (length (entries (store s'))) <= Z.of_nat (length (entries (store s)))).
  { specialize (IH removed s1). destruct (prune_loop names target up removed s1) as [r' s2]. destruct IH as [Hp Hn].
    split; [by eapply pruned_trans | exact Hn]. }
  destruct r as [[| |]|err]; try exact Hskip. clear Hskip.
  destruct (Hclean eq_refl) as (e' & He' & Hcert).
  unfold entry_for_name in Hfor. apply bind_Some in Hfor as (i & Hpos & Hfor). apply bind_Some in Hfor as (e0 & He0 & Heq).
  injection Heq as -> ->. assert (e' = e) as -> by congruence.
  assert (Hcert1 : certified up s1 e).
  { destruct Hcert as (H1 & H2 & H3 & H4 & H5 & c & H6 & H7). split_and!; try done. exists c. split; [|done].
    unfold sys_files, s1 in *. cbn [world] in *. by rewrite Hf. }
  pose proof (pruned_delete up n s1 e idx Hpos He0 Hcert1) as Hdel.
  destruct (delete_entry _ _ _ _ n s1) as [r2 s2]. destruct Hdel as [H12 Hlen].
  assert (H02 : pruned up s s2) by (by eapply pruned_trans).
  pose proof (pruned_length _ _ _ H12) as Hle. cbn [store s1] in Hle, Hlen.
  destruct r2 as [[]|err].
  - specialize (IH (removed + 1) s2). destruct (prune_loop names target up (removed + 1) s2) as [r' s3].
    destruct IH as [Hp (m & -> & Hm1 & Hm2)]. split; [by eapply pruned_trans|]. exists m. specialize (Hlen eq_refl). split; [done|lia].
  - specialize (IH removed s2). destruct (prune_loop names target up removed s2) as [r' s3].
    destruct IH as [Hp (m & -> & Hm1 & Hm2)]. split; [by eapply pruned_trans|]. exists m. split; [done|lia].
Qed.

(** ** Properties *)

(** C19: making room only takes recordings that found nothing.  Whatever fails, pruning never returns
    an error; an entry disappears only if its recording was not the one in progress, had been
    uploaded where uploads are set up, had neither name nor notes, and had a report on disk every line of which was
    understood and warned of nothing; no file but those of such recordings and the manifest
    changes; the recording in progress is still the same; no more are reported as removed than went; and nothing at all
    happens while there is room, or when the free space cannot be read. *)
Theorem prune_only_clean target up s :
  let '(r, s') := prune_clean_recordings target up s in
  (forall e, e ∈ entries (store s) -> e ∈ entries (store s') \/ certified up s e) /\
  (forall p, p ∉ manifest_files -> (forall e, certified up s e -> p ∉ entry_files e) -> sys_files s' !! p = sys_files s !! p) /\
  current_of (store s') = current_of (store s) /\
  (exists n, r = Ok n /\ 0 <= n /\ n + Z.of_nat (length (entries (store s'))) <= Z.of_nat (length (entries (store s)))) /\
  (target <= available_mb (world s) -> s' = s) /\
  (statvfs (world s) = None -> target < 2 ^ 64 -> s' = s).
Proof.
  unfold prune_clean_recordings. destruct (Z.leb_spec target (available_mb (world s))) as [Hle|Hgt].
  { split_and!; auto. exists 0. split; [done|lia]. }
  pose proof (prune_loop_spec up target (map name (entries (store s))) 0 s) as H.
  destruct (prune_loop _ _ _ _ s) as [r s']. destruct H as [[Hk Hs Hc Hf Hg Hl] (n & Hr & Hn)].
  split_and!; [done..| exists n; split; [done|lia] | lia |].
  intros Hnone Hlt. unfold available_mb in Hgt. rewrite Hnone in Hgt. lia.
Qed.
End cleanup.
