(* ===== verification/AnalysisTask.v ===== *)
(** * The analysis worker ([daemon/src/analysis.rs])

    The queue of recordings to analyse, the requests that add to it and the thread that works it
    off, with the lock on the queue and the bounded channel between them.  What an analysis itself
    does is [Analyzer] and [Qmdl]; here it takes a while and ends. *)

From S2P Require Import Prelude RustStr Filesystem Sidecar Store.

Record AnalysisStatus := mkStatus { queued : list rstr; running : option rstr; finished : list rstr }.
Definition AnalysisStatus_new (st : RecordingStore) : AnalysisStatus := mkStatus [] None (map name (entries st)).

Inductive AnalysisCtrlMessage := NewFilesQueued | RecordingFinished (n : rstr) | Exit.
#[export] Instance AnalysisCtrlMessage_eq_dec : EqDecision AnalysisCtrlMessage.
Proof. solve_decision. Defined.

Definition queue_qmdl (n : rstr) (s : AnalysisStatus) : bool * AnalysisStatus :=
  if bool_decide (n ∈ queued s) || bool_decide (running s = Some n) then (false, s)
  else (true, mkStatus (queued s ++ [n]) (running s) (finished s)).

(** [entry_names.iter().any(|name| queue_qmdl(..))]: it stops at the first that is queued. *)
Fixpoint any_queue (names : list rstr) (s : AnalysisStatus) : bool * AnalysisStatus :=
  match names with
  | [] => (false, s)
  | n :: names => let '(b, s) := queue_qmdl n s in if b then (true, s) else any_queue names s
  end.

(** The part of [start_analysis] under the locks, before it sends. *)
Definition start_analysis (qmdl_name : rstr) (st : RecordingStore) (s : AnalysisStatus) : bool * AnalysisStatus :=
  match qmdl_name with
  | [] => let entry_names := map name (entries st) in
          any_queue (match current_entry st with Some c => delete c entry_names | None => entry_names end) s
  | _ :: _ => queue_qmdl qmdl_name s
  end.

Definition queued_len (s : AnalysisStatus) : nat := length (queued s).
(** [None] where the code panics. *)
Definition dequeue_to_running (s : AnalysisStatus) : option AnalysisStatus :=
  match queued s, running s with
  | n :: q, None => Some (mkStatus q (Some n) (finished s))
  | _, _ => None
  end.
Definition finish_running_analysis (s : AnalysisStatus) : option AnalysisStatus :=
  match running s with
  | Some n => Some (mkStatus (queued s) None (finished s ++ [n]))
  | None => None
  end.

(** ** The system *)

(** The capacity [main] gives the channel. *)
Definition ANALYSIS_CHANNEL : nat := 5.

(** Where the thread of [run_analysis_thread] is; the number is how often its inner loop still goes round. *)
Inductive Thread :=
| Idle
| Got (m : AnalysisCtrlMessage)
| Draining (k : nat)
| Opening (k : nat)
| Working (k : nat)
| Analysed (k : nat)
| Exited
| Panicked.
#[export] Instance Thread_eq_dec : EqDecision Thread.
Proof. solve_decision. Defined.

(** [sending]: a request that has queued something holds the lock on the queue, and on the store, and
    is sending its message. *)
Record Worker := mkWorker { status : AnalysisStatus; channel : list AnalysisCtrlMessage; thread : Thread; sending : bool }.

Inductive action :=
| Act_request (n : rstr)
| Act_send
| Act_recording_finished (n : rstr)
| Act_exit
| Act_thread.

Definition set_thread (w : Worker) (t : Thread) : Worker := mkWorker (status w) (channel w) t (sending w).
Definition with_status (w : Worker) (o : option AnalysisStatus) (t : Thread) : Worker :=
  match o with Some s => mkWorker s (channel w) t (sending w) | None => set_thread w Panicked end.

(** The thread's next step, [None] while it waits. *)
Definition thread_step (w : Worker) : option Worker :=
  match thread w with
  | Idle => match channel w with m :: rest => Some (mkWorker (status w) rest (Got m) (sending w)) | [] => None end
  | Got NewFilesQueued => if sending w then None else Some (set_thread w (Draining (queued_len (status w))))
  | Got (RecordingFinished n) =>
      if sending w then None
      else Some (mkWorker (mkStatus (queued (status w)) (running (status w)) (finished (status w) ++ [n])) (channel w) Idle false)
  | Got Exit => Some (set_thread w Exited)
  | Draining O => Some (set_thread w Idle)
  | Draining (S k) => if sending w then None else Some (with_status w (dequeue_to_running (status w)) (Opening k))
  | Opening k => if sending w then None else Some (set_thread w (Working k))
  | Working k => Some (set_thread w (Analysed k))
  | Analysed k => if sending w then None else Some (with_status w (finish_running_analysis (status w)) (Draining k))
  | Exited | Panicked => None
  end.

Definition push (w : Worker) (m : AnalysisCtrlMessage) (snd : bool) : option Worker :=
  if (length (channel w) <? ANALYSIS_CHANNEL)%nat then Some (mkWorker (status w) (channel w ++ [m]) (thread w) snd) else None.

Definition step (a : action) (w : Worker) : option Worker :=
  match a with
  | Act_request n =>
      if sending w then None
      else let '(b, s) := queue_qmdl n (status w) in Some (mkWorker s (channel w) (thread w) b)
  | Act_send => if sending w then push w NewFilesQueued false else None
  | Act_recording_finished n => push w (RecordingFinished n) (sending w)
  | Act_exit => push w Exit (sending w)
  | Act_thread => thread_step w
  end.

Fixpoint run (acts : list action) (w : Worker) : option Worker :=
  match acts with [] => Some w | a :: acts => match step a w with Some w => run acts w | None => None end end.

Inductive reachable : Worker -> Prop :=
| reach_start finished : reachable (mkWorker (mkStatus [] None finished) [] Idle false)
| reach_step w a w' : reachable w -> step a w = Some w' -> reachable w'.

(** ** Invariant *)

(** How many of the queue the thread is already bound to take. *)
Definition committed (t : Thread) : nat :=
  match t with Draining k | Opening k | Working k | Analysed k => k | _ => O end.
Definition is_busy (t : Thread) : bool :=
  match t with Opening _ | Working _ | Analysed _ => true | _ => false end.

Definition woken (w : Worker) : Prop :=
  sending w = true \/ NewFilesQueued ∈ channel w \/ thread w = Got NewFilesQueued.

Record worker_ok (w : Worker) : Prop := {
  ok_alive : thread w <> Panicked;
  ok_nodup : NoDup (queued (status w));
  ok_running : forall n, running (status w) = Some n -> n ∉ queued (status w);
  ok_busy : is_Some (running (status w)) <-> is_busy (thread w) = true;
  ok_committed : (committed (thread w) <= length (queued (status w)))%nat;
  ok_woken : (committed (thread w) < length (queued (status w)))%nat -> thread w <> Exited -> woken w }.

Lemma worker_ok_push w m b w' : push w m b = Some w' -> (b = sending w \/ m = NewFilesQueued) -> worker_ok w -> worker_ok w'.
Proof.
  unfold push. destruct (_ <? _)%nat; intros [= <-] Hb [H1 H2 H3 H4 H5 H6]; split; cbn; auto.
  intros Hlt Hne. unfold woken in *. cbn. destruct Hb as [-> | ->].
  - destruct (H6 Hlt Hne) as [H|[H|H]]; auto. right. left. set_solver.
  - right. left. set_solver.
Qed.

Lemma worker_ok_step w a w' : step a w = Some w' -> worker_ok w -> worker_ok w'.
Proof.
  destruct a as [n| |n| |]; cbn [step].
  - destruct (sending w) eqn:Hs; [done|]. unfold queue_qmdl.
    destruct (bool_decide (n ∈ queued (status w)) || bool_decide (running (status w) = Some n)) eqn:Hdup; intros [= <-] [H1 H2 H3 H4 H5 H6].
    + split; cbn; auto. intros Hlt Hne. destruct (H6 Hlt Hne) as [?|?]; [congruence | by right].
    + apply orb_false_iff in Hdup as [Hq%bool_decide_eq_false Hr%bool_decide_eq_false]. split; cbn; auto.
      * apply NoDup_app. split_and!; [done | | apply NoDup_singleton]. intros x Hx ->%list_elem_of_singleton. done.
      * intros x Hx. specialize (H3 x Hx). rewrite elem_of_app, list_elem_of_singleton. intros [?| ->]; [done | congruence].
      * rewrite length_app. lia.
      * intros _ _. by left.
  - destruct (sending w); [|done]. intros H. eapply worker_ok_push; [exact H | by right].
  - intros H. eapply worker_ok_push; [exact H | by left].
  - intros H. eapply worker_ok_push; [exact H | by left].
  - unfold thread_step. intros Hstep [H1 H2 H3 H4 H5 H6]. destruct (thread w) as [|m|k|k|k|k| |] eqn:Ht; cbn in *.
    + destruct (channel w) as [|m rest] eqn:Hc; [done|]. injection Hstep as <-. split; cbn; [done | done | done | by destruct m | lia |].
      intros Hlt Hne. unfold woken in *. cbn. destruct (H6 ltac:(destruct m; done) ltac:(done)) as [H|[H|H]]; [by left| |congruence].
      rewrite Hc in H. apply elem_of_cons in H as [<-|H]; [by right; right | by right; left].
    + destruct m as [|n|]; cbn in *.
      * destruct (sending w) eqn:Hs; [done|]. injection Hstep as <-. split; cbn; auto; unfold queued_len; lia.
      * destruct (sending w) eqn:Hs; [done|]. injection Hstep as <-. split; cbn; auto.
        intros Hlt Hne. unfold woken in *. cbn. destruct (H6 Hlt ltac:(done)) as [H|[H|H]]; [congruence | by right; left | congruence].
      * injection Hstep as <-. split; cbn; auto; done.
    + destruct k as [|k].
      * injection Hstep as <-. split; cbn; [done | done | done | done | lia |]. intros Hlt Hne. unfold woken in *. cbn.
        destruct (H6 Hlt ltac:(done)) as [H|[H|H]]; [by left | by right; left | congruence].
      * destruct (sending w) eqn:Hs; [done|]. injection Hstep as <-. unfold dequeue_to_running.
        destruct (queued (status w)) as [|n q] eqn:Hq; [cbn in H5; lia|].
        destruct (running (status w)) as [r|] eqn:Hr; [destruct H4 as [H4 _]; by specialize (H4 ltac:(by eexists))|].
        apply NoDup_cons in H2 as [Hn Hnd]. split; cbn; [done | done | by intros ? [= <-] | split; [done | by eexists] | cbn in H5; lia |].
        intros Hlt _. unfold woken in *. cbn. destruct (H6 ltac:(cbn; lia) ltac:(done)) as [H|[H|H]]; [congruence | by right; left | congruence].
    + destruct (sending w) eqn:Hs; [done|]. injection Hstep as <-. split; cbn; auto.
      intros Hlt _. unfold woken in *. cbn. destruct (H6 Hlt ltac:(done)) as [H|[H|H]]; [congruence | by right; left | congruence].
    + injection Hstep as <-. split; cbn; auto.
      intros Hlt _. unfold woken in *. cbn. destruct (H6 Hlt ltac:(done)) as [H|[H|H]]; [by left | by right; left | congruence].
    + destruct (sending w) eqn:Hs; [done|]. injection Hstep as <-. unfold finish_running_analysis.
      destruct (running (status w)) as [r|] eqn:Hr; [|destruct H4 as [_ H4]; by destruct (H4 eq_refl)].
      split; cbn; [done | done | done | split; [by intros [? ?] | done] | done |].
      intros Hlt _. unfold woken in *. cbn. destruct (H6 Hlt ltac:(done)) as [H|[H|H]]; [congruence | by right; left | congruence].
    + done.
    + done.
Qed.

Lemma worker_ok_reachable w : reachable w -> worker_ok w.
Proof.
  induction 1 as [fin|w a w' _ IH Hstep]; [|by eapply worker_ok_step].
  split; cbn; [done | constructor | done | split; [by intros [? ?] | done] | lia | lia].
Qed.

(** ** Properties *)


Lemma run_reachable acts w w' : reachable w -> run acts w = Some w' -> reachable w'.
Proof.
  revert w. induction acts as [|a acts IH]; intros w Hw; cbn [run]; [by intros [= <-]|].
  destruct (step a w) as [w1|] eqn:Hs; [|done]. apply IH. by eapply reach_step.
Qed.

(** A recording asked for, analysed and done with. *)
Definition one_analysis : list action :=
  [Act_request (lit "a"); Act_send; Act_thread; Act_thread; Act_thread; Act_thread; Act_thread; Act_thread; Act_thread].

(** One recording is being analysed while six more are asked for, one after the other. *)
Definition deadlock_run : list action :=
  [Act_request (lit "a"); Act_send; Act_thread; Act_thread; Act_thread; Act_thread;
   Act_request (lit "b"); Act_send; Act_request (lit "c"); Act_send; Act_request (lit "d"); Act_send;
   Act_request (lit "e"); Act_send; Act_request (lit "f"); Act_send; Act_request (lit "g"); Act_thread].

(** Seven requests can hang the daemon.  There is a reachable state, with one recording analysed and six
    requests since, in which a request holds the lock on the queue (and on the store) while it waits
    for room in the channel, the thread waits for that lock and so never makes room, and from
    which no step of anything is possible again. *)
Theorem analysis_deadlock : exists w,
  reachable w /\ sending w = true /\ is_Some (running (status w)) /\ length (queued (status w)) = 6%nat /\
  forall a, step a w = None.
Proof.
  destruct (run deadlock_run (mkWorker (mkStatus [] None []) [] Idle false)) as [w|] eqn:Hrun; [|by vm_compute in Hrun].
  exists w. split; [eapply run_reachable; [apply reach_start | exact Hrun]|].
  vm_compute in Hrun. injection Hrun as <-. split_and!; [done | by eexists | done |]. by intros [| | | |].
Qed.

(** Asking for everything queues one recording.  With an empty name, of the recordings other than the
    one in progress only the first that is neither queued nor running is queued; the others are not. *)
Theorem queue_all_queues_one st s :
  let names := match current_entry st with Some c => delete c (map name (entries st)) | None => map name (entries st) end in
  let fresh := filter (fun n => (n ∉ queued s) /\ running s <> Some n) names in
  start_analysis [] st s =
    match fresh with
    | [] => (false, s)
    | n :: _ => (true, mkStatus (queued s ++ [n]) (running s) (finished s))
    end.
Proof.
  cbn zeta. unfold start_analysis. set (names := match current_entry st with Some c => _ | None => _ end).
  induction names as [|n names IH]; [done|]. cbn [any_queue]. unfold queue_qmdl. rewrite filter_cons.
  destruct (bool_decide (n ∈ queued s) || bool_decide (running s = Some n)) eqn:Hd.
  - apply orb_true_iff in Hd as [Hd%bool_decide_eq_true|Hd%bool_decide_eq_true]; (rewrite decide_False by tauto); exact IH.
  - apply orb_false_iff in Hd as [Hq%bool_decide_eq_false Hr%bool_decide_eq_false]. by rewrite decide_True by tauto.
Qed.
