(* ===== verification/Gps.v ===== *)
(** * Where the unit was ([daemon/src/gps.rs], [find_nearest_gps] of [daemon/src/pcap.rs])

    The records of a recording's position file, read and sorted, and the one that belongs to a packet.
    [serde_json]'s reading of a line is an argument; latitude and longitude are checked as the
    deserializers of a submitted position check them. *)

From S2P Require Import Prelude RustStr Floats.

Local Open Scope Z_scope.

Record GpsRecord := mkGpsRecord { gps_timestamp : option Z; gps_system_time : Z; gps_lat : f64; gps_lon : f64 }.

(** [(-90.0..=90.0).contains(&v)] and [(-180.0..=180.0).contains(&v)]. *)
Definition latitude_ok (v : f64) : bool := f64_leb (f64_of_Z (-90)) v && f64_leb v (f64_of_Z 90).
Definition longitude_ok (v : f64) : bool := f64_leb (f64_of_Z (-180)) v && f64_leb v (f64_of_Z 180).

Definition I64_MIN : Z := - 2 ^ 63.

(** ** Reading *)

(** [records.sort_by_key(key)], which is stable. *)
Fixpoint insert_by {A : Type} (key : A -> Z) (x : A) (l : list A) : list A :=
  match l with
  | [] => [x]
  | y :: l => if key x <? key y then x :: y :: l else y :: insert_by key x l
  end.
Definition sort_by_key {A : Type} (key : A -> Z) (l : list A) : list A := fold_left (fun acc x => insert_by key x acc) l [].

Definition record_sort_key (r : GpsRecord) : Z := default I64_MIN (gps_timestamp r).

(** The lines as they are read, [None] for one that cannot be; what a line says is the argument's. *)
Fixpoint read_records (from_str : rstr -> option GpsRecord) (lines : list (option rstr)) : list GpsRecord :=
  match lines with
  | [] | None :: _ => []
  | Some line :: lines => match from_str line with
                          | Some r => r :: read_records from_str lines
                          | None => read_records from_str lines
                          end
  end.
Definition load_gps_records (from_str : rstr -> option GpsRecord) (lines : list (option rstr)) : list GpsRecord :=
  sort_by_key record_sort_key (read_records from_str lines).

(** ** The nearest record *)

Definition distance_to (r : GpsRecord) (packet_timestamp : Z) : option Z :=
  (fun ts => Z.abs (packet_timestamp - ts)) <$> gps_timestamp r.

(** [partition_point] of a slice that is partitioned. *)
Fixpoint partition_point {A : Type} (p : A -> bool) (l : list A) : nat :=
  match l with [] => O | x :: l => if p x then S (partition_point p l) else O end.

Definition nearest_record (records : list GpsRecord) (packet_timestamp : Z) : option GpsRecord :=
  match records with
  | [] => None
  | first :: _ =>
      let idx := partition_point (fun r => record_sort_key r <=? packet_timestamp) records in
      if (idx =? 0)%nat then Some first
      else if (length records <=? idx)%nat then last records
      else
        before ← records !! (idx - 1)%nat;
        after ← records !! idx;
        Some (match distance_to before packet_timestamp, distance_to after packet_timestamp with
              | Some b, Some a => if b <=? a then before else after
              | Some _, None => before
              | None, Some _ => after
              | None, None => before
              end)
  end.

(** ** Facts about them *)

Lemma insert_by_perm {A : Type} (key : A -> Z) x l : insert_by key x l ≡ₚ x :: l.
Proof.
  induction l as [|y l IH]; cbn [insert_by]; [done|]. destruct (key x <? key y); [done|]. rewrite IH. constructor.
Qed.
Lemma sort_by_key_perm {A : Type} (key : A -> Z) l : sort_by_key key l ≡ₚ l.
Proof.
  unfold sort_by_key. assert (Hg : forall l acc, fold_left (fun acc x => insert_by key x acc) l acc ≡ₚ acc ++ l).
  { clear l. induction l as [|x l IH]; intros acc; cbn [fold_left]; [by rewrite app_nil_r|]. rewrite IH, insert_by_perm. apply Permutation_middle. }
  by rewrite Hg.
Qed.

Definition sorted_by {A : Type} (key : A -> Z) (l : list A) : Prop :=
  forall i j x y, l !! i = Some x -> l !! j = Some y -> (i <= j)%nat -> key x <= key y.

Lemma sorted_cons {A : Type} (key : A -> Z) x l : (forall y, y ∈ l -> key x <= key y) -> sorted_by key l -> sorted_by key (x :: l).
Proof.
  intros Hx Hl [|i] [|j] a b; cbn; intros Ha Hb Hij; try lia.
  - injection Ha as <-. injection Hb as <-. lia.
  - injection Ha as <-. apply Hx. by eapply list_elem_of_lookup_2.
  - eapply Hl; [done..|lia].
Qed.
Lemma sorted_tail {A : Type} (key : A -> Z) x l : sorted_by key (x :: l) -> sorted_by key l /\ forall y, y ∈ l -> key x <= key y.
Proof.
  intros H. split.
  - intros i j a b Ha Hb Hij. apply (H (S i) (S j)); [done|done|lia].
  - intros y [i Hi]%list_elem_of_lookup. apply (H O (S i)); [done|done|lia].
Qed.
Lemma insert_by_sorted {A : Type} (key : A -> Z) x l : sorted_by key l -> sorted_by key (insert_by key x l).
Proof.
  induction l as [|y l IH]; intros Hl; cbn [insert_by].
  - by apply sorted_cons; [intros y Hy; by apply not_elem_of_nil in Hy|].
  - pose proof (sorted_tail _ _ _ Hl) as [Ht Hy]. destruct (Z.ltb_spec (key x) (key y)).
    + apply sorted_cons; [|done]. intros z [->|Hz]%elem_of_cons; [lia|]. specialize (Hy z Hz). lia.
    + apply sorted_cons; [|by apply IH]. intros z Hz. rewrite insert_by_perm in Hz. apply elem_of_cons in Hz as [->|Hz]; [lia|by apply Hy].
Qed.
Lemma sort_by_key_sorted {A : Type} (key : A -> Z) l : sorted_by key (sort_by_key key l).
Proof.
  unfold sort_by_key. assert (Hg : forall l acc, sorted_by key acc -> sorted_by key (fold_left (fun acc x => insert_by key x acc) l acc)).
  { clear l. induction l as [|x l IH]; intros acc Ha; cbn [fold_left]; [done|]. by apply IH, insert_by_sorted. }
  apply Hg. by intros i j x y.
Qed.

Lemma partition_point_spec {A : Type} (p : A -> bool) l :
  (partition_point p l <= length l)%nat /\ (forall i x, (i < partition_point p l)%nat -> l !! i = Some x -> p x = true) /\
  (forall x, l !! partition_point p l = Some x -> p x = false).
Proof.
  induction l as [|y l (H1 & H2 & H3)]; cbn [partition_point]; [by split_and!; [|intros; lia|]|].
  destruct (p y) eqn:Hp; cbn [length].
  - split_and!; [lia| |done]. intros [|i] x Hi; cbn; [by intros [= <-]|]. apply H2. lia.
  - split_and!; [lia|intros; lia|]. by intros x [= <-].
Qed.

(** ** The record that belongs to a packet *)

Definition record_time_ok (r : GpsRecord) : Prop := forall ts, gps_timestamp r = Some ts -> I64_MIN < ts.
Definition timed (r : GpsRecord) : Prop := is_Some (gps_timestamp r).

Lemma key_timed r : record_time_ok r -> timed r \/ (gps_timestamp r = None /\ record_sort_key r = I64_MIN).
Proof. unfold timed, record_sort_key. destruct (gps_timestamp r); [by left|by right]. Qed.
Lemma key_of r ts : gps_timestamp r = Some ts -> record_sort_key r = ts.
Proof. unfold record_sort_key. by intros ->. Qed.

(** The choice among sorted records: one of them, and as near as any that has a time. *)
Lemma nearest_sorted records t : sorted_by record_sort_key records -> Forall record_time_ok records -> I64_MIN <= t ->
  match nearest_record records t with
  | None => records = []
  | Some r => r ∈ records /\ forall r' ts', r' ∈ records -> gps_timestamp r' = Some ts' ->
      exists ts, gps_timestamp r = Some ts /\ Z.abs (t - ts) <= Z.abs (t - ts')
  end.
Proof.
  intros Hs Hok Ht. rewrite Forall_forall in Hok. destruct records as [|first rest] eqn:Hr; [done|]. unfold nearest_record.
  rewrite <- Hr in *. set (p := fun r => record_sort_key r <=? t). destruct (partition_point_spec p records) as (Hlen & Hbelow & Habove).
  set (idx := partition_point p records) in *. assert (Hne : (0 < length records)%nat) by (rewrite Hr; cbn; lia).
  assert (Hfirst : records !! 0%nat = Some first) by (by rewrite Hr).
  (* a record with a time has its time for a key *)
  assert (Hkey : forall i r, records !! i = Some r -> record_time_ok r) by (intros i r Hi; apply Hok; by eapply list_elem_of_lookup_2).
  assert (Hhas : forall i r, records !! i = Some r -> I64_MIN < record_sort_key r -> exists ts, gps_timestamp r = Some ts /\ record_sort_key r = ts).
  { intros i r Hi Hk. unfold record_sort_key in *. destruct (gps_timestamp r) as [ts|]; [by exists ts|]. cbn in Hk. lia. }
  destruct (Nat.eqb_spec idx 0) as [H0|H0].
  - split; [by eapply list_elem_of_lookup_2|]. intros r' ts' [j Hj]%list_elem_of_lookup Hts'. rewrite H0 in Habove.
    assert (Hf : t < record_sort_key first) by (specialize (Habove _ Hfirst); unfold p in Habove; lia).
    destruct (Hhas _ _ Hfirst) as (ts & Hts & Hkf); [lia|]. exists ts. split; [done|].
    pose proof (Hs 0%nat j first r' Hfirst Hj ltac:(lia)) as Hle. rewrite (key_of _ _ Hts') in Hle. lia.
  - destruct (Nat.leb_spec (length records) idx) as [Hge|Hlt].
    + destruct (last records) as [r|] eqn:Hlast; [|by apply last_None in Hlast; rewrite Hlast in Hne; cbn in Hne; lia].
      pose proof Hlast as Hl. rewrite last_lookup in Hl. split; [by eapply list_elem_of_lookup_2|].
      intros r' ts' [j Hj]%list_elem_of_lookup Hts'. pose proof (lookup_lt_Some _ _ _ Hj) as Hjl.
      pose proof (Hs j _ r' r Hj Hl ltac:(lia)) as Hle. rewrite (key_of _ _ Hts') in Hle. pose proof (Hkey _ _ Hj ts' Hts').
      destruct (Hhas _ _ Hl) as (ts & Hts & Hkr); [lia|]. exists ts. split; [done|].
      assert (Hp : p r = true) by (eapply Hbelow; [|exact Hl]; lia). unfold p in Hp. apply Z.leb_le in Hp. lia.
    + destruct (lookup_lt_is_Some_2 records (idx - 1)) as [before Hb]; [lia|]. destruct (lookup_lt_is_Some_2 records idx) as [after Ha]; [lia|].
      rewrite Hb, Ha. cbn [mbind option_bind].
      assert (Hpb : record_sort_key before <= t) by (apply Z.leb_le; eapply (Hbelow (idx - 1)%nat); [lia|exact Hb]).
      assert (Hpa : t < record_sort_key after) by (apply Z.leb_gt; by apply Habove).
      destruct (Hhas _ _ Ha) as (ta & Hta & Hka); [lia|].
      assert (Hall : forall r' ts', r' ∈ records -> gps_timestamp r' = Some ts' ->
        (ts' <= t -> exists tb, gps_timestamp before = Some tb /\ ts' <= tb <= t) /\ (t < ts' -> t < ta <= ts')).
      { intros r' ts' [j Hj]%list_elem_of_lookup Hts'. pose proof (Hkey _ _ Hj ts' Hts'). pose proof (key_of _ _ Hts') as Hk'.
        destruct (decide (j < idx)%nat) as [Hji|Hji].
        - pose proof (Hs j _ r' before Hj Hb ltac:(lia)) as Hle. rewrite Hk' in Hle. destruct (Hhas _ _ Hb) as (tb & Htb & Hkb); [lia|].
          split; [intros; exists tb; split; [done|lia]|lia].
        - pose proof (Hs idx j after r' Ha Hj ltac:(lia)) as Hle. rewrite Hk' in Hle. split; lia. }
      unfold distance_to. rewrite Hta. cbn [fmap option_fmap option_map].
      destruct (gps_timestamp before) as [tb|] eqn:Htb; cbn [fmap option_fmap option_map].
      * assert (Hkb : record_sort_key before = tb) by (by apply key_of). destruct (Z.leb_spec (Z.abs (t - tb)) (Z.abs (t - ta))).
        -- split; [by eapply list_elem_of_lookup_2|]. intros r' ts' Hin Hts'. exists tb. split; [done|].
           destruct (Hall _ _ Hin Hts') as [H1 H2]. destruct (Z.le_gt_cases ts' t) as [Hle|Hgt]; [|specialize (H2 Hgt); lia].
           destruct (H1 Hle) as (tb' & [= <-] & ?). lia.
        -- split; [by eapply list_elem_of_lookup_2|]. intros r' ts' Hin Hts'. exists ta. split; [done|].
           destruct (Hall _ _ Hin Hts') as [H1 H2]. destruct (Z.le_gt_cases ts' t) as [Hle|Hgt]; [|specialize (H2 Hgt); lia].
           destruct (H1 Hle) as (tb' & [= <-] & ?). lia.
      * split; [by eapply list_elem_of_lookup_2|]. intros r' ts' Hin Hts'. exists ta. split; [done|].
        destruct (Hall _ _ Hin Hts') as [H1 H2]. destruct (Z.le_gt_cases ts' t) as [Hle|Hgt]; [|specialize (H2 Hgt); lia].
        by destruct (H1 Hle) as (tb' & ? & ?).
Qed.

(** A packet gets the nearest known position.  Whatever lines the position file has, the record chosen
    for a packet is one that was read, and if any was read that has a packet time, the chosen one has one too and no
    other is nearer; none is chosen only when none was read.  (Times are those of an [i64] after its
    smallest.) *)
Theorem nearest_position from_str lines t : Forall record_time_ok (read_records from_str lines) -> I64_MIN <= t ->
  match nearest_record (load_gps_records from_str lines) t with
  | None => read_records from_str lines = []
  | Some r => r ∈ read_records from_str lines /\
      forall r' ts', r' ∈ read_records from_str lines -> gps_timestamp r' = Some ts' ->
        exists ts, gps_timestamp r = Some ts /\ Z.abs (t - ts) <= Z.abs (t - ts')
  end.
Proof.
  intros Hok Ht. unfold load_gps_records. set (rs := read_records from_str lines) in *.
  pose proof (sort_by_key_perm record_sort_key rs) as Hp.
  pose proof (nearest_sorted (sort_by_key record_sort_key rs) t (sort_by_key_sorted _ _)) as Hn.
  specialize (Hn ltac:(by rewrite Hp) Ht). destruct (nearest_record _ t) as [r|].
  - destruct Hn as [Hin Hr]. rewrite Hp in Hin. split; [done|]. intros r' ts' Hin'. apply Hr. by rewrite Hp.
  - rewrite Hn in Hp. by apply Permutation_nil_l in Hp.
Qed.
Definition sample_line (line : rstr) : option GpsRecord :=
  match parse_unsigned 32 line with
  | Some n => Some (mkGpsRecord (if n =? 0 then None else Some n) n (f64_of_Z n) (f64_of_Z n))
  | None => None
  end.
Lemma nearest_position_witness :
  let lines := map Some [lit "200"; lit "0"; lit "nothing"; lit "100"] in
  Forall record_time_ok (read_records sample_line lines) /\ I64_MIN <= 130 /\
  exists r, nearest_record (load_gps_records sample_line lines) 130 = Some r /\ gps_timestamp r = Some 100 /\
    r ∈ read_records sample_line lines.
Proof.
  intros lines. assert (Hok : Forall record_time_ok (read_records sample_line lines)).
  { vm_compute read_records. repeat constructor; intros ts [= <-]; reflexivity. }
  split; [exact Hok|]. split; [by vm_compute|]. pose proof (nearest_position sample_line lines 130 Hok ltac:(by vm_compute)) as H.
  destruct (nearest_record (load_gps_records sample_line lines) 130) as [r|] eqn:Hr.
  - exists r. split; [done|]. split; [|exact (proj1 H)]. vm_compute in Hr. injection Hr as <-. reflexivity.
  - vm_compute in Hr. discriminate Hr.
Defined.
