(* ===== verification/Export.v ===== *)
(** * Downloading a capture ([daemon/src/pcap.rs])

    A stored recording is turned into a pcapng file while it is downloaded: its messages one by one, every
    frame of each, with the position of the moment, and for a redacted download without the
    subscriber's identity.  It is made of [Qmdl]'s reader, [GsmtapParser], [SubscriberId]'s redaction,
    [Gps] and [Pcap]'s writer.  The pcapng encoding is an argument ([PcapNgWriter], [PcapNgStart]); of what a
    write that fails leaves behind nothing is said: the state is then the one before it. *)

From S2P Require Import Prelude RustStr Floats Deku Hdlc DiagLog Diag Gsmtap GsmtapMac GsmtapParser Qmdl.
From S2P Require Import InformationElement Analyzer Pcap Gps SubscriberId.

Local Open Scope Z_scope.

(** [PcapNgWriter::with_section_header] and the interface's description block. *)
Class PcapNgStart (W : Type) {P : PcapNgWriter W} := {
  with_section_header : W -> result PcapError W;
  write_interface_block : W -> result PcapError W
}.

Inductive ExportError {K : Deku} {W} {P : PcapNgWriter W} :=
| Read_Error (e : ErrorKind)
| Parser_Error (e : GsmtapParserError)
| Pcap_Write_Error (e : @GsmtapPcapError K W P).

Definition find_nearest_gps (records : list GpsRecord) (packet_timestamp : Z) : option GpsPoint :=
  r ← nearest_record records packet_timestamp;
  Some {| unix_ts := default (gps_system_time r) (gps_timestamp r); latitude := gps_lat r; longitude := gps_lon r |}.

Definition is_lte_nas (m : GsmtapMessage) : bool := match gsmtap_type (header m) with LteNas _ => true | _ => false end.

Definition no_report : RedactionReport := mkReport 0 0 0 0 0.

(** What is done to a frame before it is written, and the report. *)
Definition redact_frame (redact : bool) (report : RedactionReport) (m : GsmtapMessage) : RedactionReport * GsmtapMessage :=
  if redact && is_lte_nas m then
    let report := mkReport (imsi report) (imei report) (imeisv report) (tmsi report) (messages_scanned report + 1) in
    let '(found, p) := redact_nas_identity (payload m) in
    (match found with Some i => report_record report i | None => report end, {| header := header m; payload := p |})
  else (report, m).

(** [timestamp.to_datetime().timestamp()]. *)
Definition unix_seconds (t : Timestamp) : Z := to_datetime t / 10 ^ 9.

Section export.
Context {C : Crc16} {K : Deku} {R : DiagReader} {B W : Type} `{!BufRead B} {P : PcapNgWriter W} {S0 : PcapNgStart W}.

Definition GsmtapPcapWriter_new (w : W) : result GsmtapPcapError (GsmtapPcapWriter W) :=
  match with_section_header w with
  | Err e => Err (Pcap_Error e)
  | Ok w => Ok {| Pcap.writer := w; ip_id := 0 |}
  end.
Definition write_iface_header (self : GsmtapPcapWriter W) : result GsmtapPcapError (GsmtapPcapWriter W) :=
  match write_interface_block (Pcap.writer self) with
  | Err e => Err (Pcap_Error e)
  | Ok w => Ok {| Pcap.writer := w; ip_id := ip_id self |}
  end.

(** The state of a download: the report and the writer. *)
Abbreviation exporter := (RedactionReport * GsmtapPcapWriter W)%type.

(** The loop over the frames of one message. *)
Fixpoint export_frames (gps_records : list GpsRecord) (redact : bool) (frames : list (Timestamp * GsmtapMessage)) (st : exporter)
    : result GsmtapPcapError unit * exporter :=
  match frames with
  | [] => (Ok tt, st)
  | (timestamp, gsmtap_msg) :: frames =>
      let '(report, pcap_writer) := st in
      let '(report, gsmtap_msg) := redact_frame redact report gsmtap_msg in
      let gps := find_nearest_gps gps_records (unix_seconds timestamp) in
      match write_gsmtap_message pcap_writer gsmtap_msg timestamp gps with
      | Err e => (Err e, (report, pcap_writer))
      | Ok pcap_writer => export_frames gps_records redact frames (report, pcap_writer)
      end
  end.

(** The loop over the messages; [None] when the fuel is too small. *)
Fixpoint export_messages (fuel : nat) (gps_records : list GpsRecord) (redact : bool) (reader : B) (st : exporter)
    : option (result ExportError unit * exporter) :=
  match fuel with
  | O => None
  | S fuel =>
      match get_next_message reader with
      | (Err e, _) => Some (Err (Read_Error e), st)
      | (Ok None, _) => Some (Ok tt, st)
      | (Ok (Some (Err _)), reader) => export_messages fuel gps_records redact reader st
      | (Ok (Some (Ok msg)), reader) =>
          match parse_all msg with
          | Err e => Some (Err (Parser_Error e), st)
          | Ok frames =>
              match export_frames gps_records redact frames st with
              | (Err e, st) => Some (Err (Pcap_Write_Error e), st)
              | (Ok tt, st) => export_messages fuel gps_records redact reader st
              end
          end
      end
  end.

(** What is returned, and what has been written when it is. *)
Definition generate_pcap_data_inner (fuel : nat) (writer : W) (reader : B) (gps_records : list GpsRecord) (redact : bool)
    : option (result ExportError RedactionReport * W) :=
  match GsmtapPcapWriter_new writer with
  | Err e => Some (Err (Pcap_Write_Error e), writer)
  | Ok pcap_writer =>
      match write_iface_header pcap_writer with
      | Err e => Some (Err (Pcap_Write_Error e), Pcap.writer pcap_writer)
      | Ok pcap_writer =>
          match export_messages fuel gps_records redact reader (no_report, pcap_writer) with
          | None => None
          | Some (res, (report, pcap_writer)) =>
              Some (match res with Ok tt => Ok report | Err e => Err e end, Pcap.writer pcap_writer)
          end
      end
  end.

(** [generate_pcap_data] drops the report. *)
Definition generate_pcap_data (fuel : nat) (writer : W) (reader : B) (gps_records : list GpsRecord) : option (result ExportError unit * W) :=
  match generate_pcap_data_inner fuel writer reader gps_records false with
  | None => None
  | Some (res, w) => Some (match res with Ok _ => Ok tt | Err e => Err e end, w)
  end.
Definition generate_redacted_pcap_data (fuel : nat) (writer : W) (reader : B) (gps_records : list GpsRecord)
    : option (result ExportError RedactionReport * W) := generate_pcap_data_inner fuel writer reader gps_records true.

(** ** The frames of a recording *)

(** The frames of the messages up to the first that cannot be converted, and what is wrong with that one. *)
Fixpoint frames_of (items : list (result DiagParsingError Message)) : list (Timestamp * GsmtapMessage) * option GsmtapParserError :=
  match items with
  | [] => ([], None)
  | Err _ :: items => frames_of items
  | Ok msg :: items =>
      match parse_all msg with
      | Err e => ([], Some e)
      | Ok frames => let '(more, e) := frames_of items in (frames ++ more, e)
      end
  end.

Lemma export_frames_app gps redact fs gs st :
  export_frames gps redact (fs ++ gs) st =
  match export_frames gps redact fs st with (Ok tt, st) => export_frames gps redact gs st | r => r end.
Proof.
  revert st. induction fs as [|[t m] fs IH]; intros [report w]; [done|]. cbn [app export_frames].
  destruct (redact_frame redact report m) as [report' m']. destruct (write_gsmtap_message _ _ _ _); [apply IH|done].
Qed.

Definition recorded (reader : B) : list (result DiagParsingError Message) :=
  map from_hdlc (split_inclusive MESSAGE_TERMINATOR (contents reader)).

(** The nested loops are one loop over the frames of the recording. *)
Lemma export_messages_stream fuel gps redact reader st :
  always_healthy (B := B) -> (length (contents reader) < fuel)%nat ->
  export_messages fuel gps redact reader st = Some
    match export_frames gps redact (frames_of (recorded reader)).1 st with
    | (Err e, st) => (Err (Pcap_Write_Error e), st)
    | (Ok tt, st) => (match (frames_of (recorded reader)).2 with None => Ok tt | Some e => Err (Parser_Error e) end, st)
    end.
Proof.
  intros Hh Hf. pose proof (into_message_stream_pieces fuel reader Hh Hf) as Hs. fold (recorded reader) in Hs.
  revert Hs. generalize (recorded reader). clear Hf. revert reader st. induction fuel as [|fuel IH]; intros reader st items; [done|].
  cbn [into_message_stream export_messages]. destruct (get_next_message reader) as [[[[msg|e]|]|e] reader'].
  - destruct (into_message_stream fuel reader') as [[items' e]|] eqn:Hr; cbn; [|done]. intros [= <- ->]. cbn [frames_of].
    destruct (parse_all msg) as [frames|e]; [|done].
    destruct (frames_of items') as [more e] eqn:Hi. cbn [fst snd]. rewrite export_frames_app.
    destruct (export_frames gps redact frames st) as [[[]|err] st']; [|done].
    rewrite (IH _ st' _ Hr), Hi. done.
  - destruct (into_message_stream fuel reader') as [[items' e']|] eqn:Hr; cbn; [|done]. intros [= <- ->]. rewrite (IH _ st _ Hr). done.
  - by intros [= <-].
  - done.
Qed.
End export.

(** ** What is written *)

#[export] Instance collecting_start : @PcapNgStart (list PacketBlock) collecting_writer :=
  { with_section_header := fun w => Ok w; write_interface_block := fun w => Ok w }.

(** The block of the [n]th frame. *)
Definition export_block (gps : list GpsRecord) (redact : bool) (n : nat) (frame : Timestamp * GsmtapMessage) : PacketBlock :=
  frame_block (P := collecting_writer) (wrapu 16 (Z.of_nat n)) (redact_frame redact no_report frame.2).2 frame.1
    (find_nearest_gps gps (unix_seconds frame.1)).
Definition writable (frame : Timestamp * GsmtapMessage) : Prop := header_ok (header frame.2) /\ 0 <= to_datetime frame.1.
(** Frames that are looked through, and those an identity is found in. *)
Definition scanned (frame : Timestamp * GsmtapMessage) : bool := is_lte_nas frame.2.
Definition identifies (frame : Timestamp * GsmtapMessage) : bool :=
  is_lte_nas frame.2 && bool_decide (is_Some (identity_from_nas (payload frame.2))).

Lemma redact_frame_message redact report m : (redact_frame redact report m).2 = (redact_frame redact no_report m).2.
Proof. unfold redact_frame. destruct (redact && is_lte_nas m); [|done]. by destruct (redact_nas_identity _). Qed.
Lemma redact_frame_header redact report m : header (redact_frame redact report m).2 = header m.
Proof. unfold redact_frame. destruct (redact && is_lte_nas m); [|done]. by destruct (redact_nas_identity _). Qed.

Lemma report_record_total r i : report_total (report_record r i) = report_total r + 1 /\ messages_scanned (report_record r i) = messages_scanned r.
Proof. destruct i; unfold report_total; cbn; lia. Qed.
Lemma redact_frame_counts redact report m t : let report' := (redact_frame redact report m).1 in
  messages_scanned report' = messages_scanned report + (if redact && scanned (t, m) then 1 else 0) /\
  report_total report' = report_total report + (if redact && identifies (t, m) then 1 else 0).
Proof.
  unfold redact_frame, scanned, identifies. cbn [snd]. destruct redact, (is_lte_nas m); cbn [andb fst]; try lia.
  unfold redact_nas_identity, identity_from_nas. destruct (identity_from_nas_with_range (payload m)) as [[i [lo len]]|]; cbn.
  - destruct i; unfold report_total; cbn; lia.
  - unfold report_total. cbn. lia.
Qed.

Definition count (p : Timestamp * GsmtapMessage -> bool) (frames : list (Timestamp * GsmtapMessage)) : Z :=
  Z.of_nat (length (List.filter p frames)).
Lemma count_cons p f frames : count p (f :: frames) = (if p f then 1 else 0) + count p frames.
Proof. unfold count. cbn. destruct (p f); cbn [length]; lia. Qed.

(** What the loop over the frames writes. *)
Lemma export_frames_collect {K : Deku} gps redact frames report blocks n : Forall writable frames ->
  exists report', export_frames (P := collecting_writer) gps redact frames (report, {| Pcap.writer := blocks; ip_id := wrapu 16 (Z.of_nat n) |}) =
    (Ok tt, (report', {| Pcap.writer := blocks ++ imap (fun i f => export_block gps redact (n + i) f) frames;
                         ip_id := wrapu 16 (Z.of_nat (n + length frames)) |})) /\
    messages_scanned report' = messages_scanned report + (if redact then count scanned frames else 0) /\
    report_total report' = report_total report + (if redact then count identifies frames else 0).
Proof.
  intros Hw. revert report blocks n. induction Hw as [|[t m] frames [Hh Ht] _ IH]; intros report blocks n; cbn [export_frames].
  { exists report. rewrite app_nil_r, Nat.add_0_r. by destruct redact; rewrite !Z.add_0_r. }
  cbn [fst snd] in *. pose proof (redact_frame_counts redact report m t) as [Hc1 Hc2].
  pose proof (redact_frame_message redact report m) as Hm. pose proof (redact_frame_header redact report m) as Hhm.
  destruct (redact_frame redact report m) as [report1 m1] eqn:Hr. cbn [fst snd] in *.
  rewrite write_gsmtap_message_ok by (rewrite ?Hhm; try done; apply wrapu_in_u; lia).
  cbn [write_pcapng_block collecting_writer Pcap.writer ip_id].
  assert (Hn : wrapu 16 (wrapu 16 (Z.of_nat n) + 1) = wrapu 16 (Z.of_nat (S n))).
  { unfold wrapu. rewrite Zplus_mod_idemp_l. f_equal. lia. }
  rewrite Hn. destruct (IH report1 (blocks ++ [frame_block (P := collecting_writer) (wrapu 16 (Z.of_nat n)) m1 t (find_nearest_gps gps (unix_seconds t))]) (S n))
    as (report' & -> & H1 & H2). exists report'. split_and!.
  - cbn [imap length]. rewrite <- app_assoc. cbn [app]. rewrite Nat.add_succ_r. cbn [Nat.add]. do 4 f_equal. f_equal.
    + unfold export_block. rewrite Nat.add_0_r. cbn [fst snd]. by rewrite Hm.
    + apply imap_ext. intros i f _. cbn. by rewrite Nat.add_succ_r.
  - rewrite H1, Hc1, count_cons. destruct redact; cbn [andb]; lia.
  - rewrite H2, Hc2, count_cons. destruct redact; cbn [andb]; lia.
Qed.

(** ** What a redacted capture says *)

(** Payloads that name a subscriber at the same place, and differ in nothing else and not in the kind of
    identity or the parity of its length. *)
Inductive same_but_identity : list Z -> list Z -> Prop :=
| same_payload p : same_but_identity p p
| other_identity p q i j lo len a b :
    identity_from_nas_with_range p = Some (i, (lo, len)) -> identity_from_nas_with_range q = Some (j, (lo, len)) ->
    length p = length q -> (forall k, (k < lo \/ lo + len <= k)%nat -> p !! k = q !! k) ->
    p !! lo = Some a -> q !! lo = Some b -> Z.land a 0x0f = Z.land b 0x0f -> same_but_identity p q.

Inductive frames_alike : Timestamp * GsmtapMessage -> Timestamp * GsmtapMessage -> Prop :=
| alike_frame t h p q : p = q \/ (is_lte_nas {| header := h; payload := p |} = true /\ same_but_identity p q) ->
    frames_alike (t, {| header := h; payload := p |}) (t, {| header := h; payload := q |}).

Definition items_alike {K : Deku} (x y : result DiagParsingError Message) : Prop :=
  match x, y with
  | Err _, Err _ => True
  | Ok m, Ok n => match parse_all m, parse_all n with
                  | Ok fs, Ok gs => Forall2 frames_alike fs gs
                  | Err e, Err e' => e = e'
                  | _, _ => False
                  end
  | _, _ => False
  end.

Lemma decode_kind value i : decode_eps_mobile_identity value = Some i ->
  exists first, head value = Some first /\
    (forall r, report_record r i = let ty := Z.land first 7 in
       report_record r (if ty =? TYPE_IMSI then Identity_Imsi [] else if ty =? TYPE_IMEI then Identity_Imei []
                        else if ty =? TYPE_IMEISV then Identity_Imeisv [] else Identity_Tmsi [])).
Proof.
  destruct value as [|first rest]; [done|]. intros H. exists first. split; [done|]. revert H. unfold decode_eps_mobile_identity.
  set (ty := Z.land first 7). destruct ((ty =? TYPE_IMSI) || (ty =? TYPE_IMEI) || (ty =? TYPE_IMEISV)) eqn:Hty.
  - destruct (from_digit _) as [d|]; cbn [mbind option_bind]; [|done].
    destruct (more_digits _ _) as [more|]; cbn [mbind option_bind]; [|done]. intros [= <-] r. cbn zeta.
    destruct (ty =? TYPE_IMSI); [done|]. destruct (ty =? TYPE_IMEI); [done|]. by destruct (ty =? TYPE_IMEISV).
  - apply orb_false_iff in Hty as [[H1 H2]%orb_false_iff H3]. destruct (ty =? TYPE_GUTI); [|done].
    destruct (_ <? _)%nat; [done|]. intros [= <-] r. cbn zeta. by rewrite H1, H2, H3.
Qed.

Lemma redacted_alike p q : same_but_identity p q ->
  (redact_nas_identity p).2 = (redact_nas_identity q).2 /\
  forall r, match (redact_nas_identity p).1 with Some i => report_record r i | None => r end =
            match (redact_nas_identity q).1 with Some i => report_record r i | None => r end.
Proof.
  intros [|p' q' i j lo len a b Hp Hq Hl Hout Ha Hb Hab]; [done|]. unfold redact_nas_identity. rewrite Hp, Hq. cbn [fst snd].
  destruct (identity_range_inv _ _ _ _ Hp) as (_ & Hgp & Hdp & _). destruct (identity_range_inv _ _ _ _ Hq) as (_ & Hgq & Hdq & _).
  apply get_range_spec in Hgp as (Hlp & _ & Hvp). apply get_range_spec in Hgq as (Hlq & _ & Hvq).
  apply decode_kind in Hdp as (fp & Hfp & Hkp). apply decode_kind in Hdq as (fq & Hfq & Hkq).
  assert (Hlen : (0 < len)%nat) by (destruct len; [by rewrite take_0 in Hfp|lia]).
  assert (fp = a /\ fq = b) as [-> ->].
  { rewrite head_lookup, lookup_take_lt, lookup_drop, Nat.add_0_r in Hfp by done.
    rewrite head_lookup, lookup_take_lt, lookup_drop, Nat.add_0_r in Hfq by done. split; congruence. }
  assert (Hty : Z.land a 7 = Z.land b 7).
  { change 7 with (Z.land 0x0f 7). by rewrite !Z.land_assoc, Hab. }
  split; [|intros r; by rewrite Hkp, Hkq, Hty]. f_equal; [|f_equal].
  - apply list_eq. intros k. rewrite !lookup_take. case_decide; [apply Hout; lia|done].
  - destruct (take len (drop lo p')) as [|x xs] eqn:E1; [done|]. destruct (take len (drop lo q')) as [|y ys] eqn:E2; [done|].
    injection Hfp as ->. injection Hfq as ->. cbn [redact_value]. rewrite Hab. f_equal. cbn [length] in *.
    assert (Hxy : length xs = length ys) by lia. clear -Hxy. revert ys Hxy. induction xs as [|x xs IH]; intros [|y ys]; cbn; intros; try lia; [done|].
    f_equal. apply IH. lia.
  - apply list_eq. intros k. rewrite !lookup_drop. apply Hout. lia.
Qed.

Lemma redact_frame_alike t h p q report :
  frames_alike (t, {| header := h; payload := p |}) (t, {| header := h; payload := q |}) ->
  redact_frame true report {| header := h; payload := p |} = redact_frame true report {| header := h; payload := q |}.
Proof.
  intros H. inversion H as [? ? ? ? [->|[Hn Hs]]]; subst; [done|]. unfold redact_frame. unfold is_lte_nas in *. cbn [header payload] in *.
  rewrite Hn. cbn [andb]. destruct (redacted_alike _ _ Hs) as [H1 H2].
  destruct (redact_nas_identity p) as [fp p'], (redact_nas_identity q) as [fq q']. cbn [fst snd] in *. subst p'. by rewrite H2.
Qed.

Lemma export_frames_alike {K : Deku} {W} {P : PcapNgWriter W} gps fs gs st :
  Forall2 frames_alike fs gs -> export_frames gps true fs st = export_frames gps true gs st.
Proof.
  intros H. revert st. induction H as [|f g fs gs Hfg _ IH]; intros [report w]; [done|]. destruct Hfg as [t h p q Hpq].
  cbn [export_frames]. rewrite (redact_frame_alike t h p q) by by constructor.
  destruct (redact_frame true report _) as [report' m]. destruct (write_gsmtap_message _ _ _ _); [apply IH|done].
Qed.

Lemma frames_of_alike {K : Deku} xs ys : Forall2 items_alike xs ys ->
  Forall2 frames_alike (frames_of xs).1 (frames_of ys).1 /\ (frames_of xs).2 = (frames_of ys).2.
Proof.
  induction 1 as [|x y xs ys Hxy _ [IH1 IH2]]; [done|]. destruct x as [m|e], y as [n|e']; try done. cbn [frames_of items_alike] in *.
  destruct (parse_all m) as [fs|e1], (parse_all n) as [gs|e2]; try done; [|by rewrite Hxy].
  destruct (frames_of xs) as [more1 err1], (frames_of ys) as [more2 err2]. cbn [fst snd] in *. split; [by apply Forall2_app|done].
Qed.

(** ** Properties *)


(** Recordings to evaluate downloads with: a frame is a NAS message, unless it is one octet long, which
    stands for a record of a version that is not known. *)
Definition sample_log (bytes : list Z) : Message :=
  match bytes with
  | [v] => Log 0 0 0 0xb0c0 {| ts := 0 |} (LteRrcOtaMessage v (LteRrc_V8 0 0 0 0 5110 0x123 9 0 2 [0x10; 0x20]))
  | _ => Log 0 0 0 0xb0ec {| ts := 0 |} (Nas4GMessage 0xb0ec Downlink 1 9 0 0 bytes)
  end.
Definition sample_reader : @DiagReader deku_fits := {| message_from_bytes := fun bytes => Ok ([], sample_log bytes) |}.
Definition sample_recording (messages : list (list Z)) : list Z := flat_map (@hdlc_encapsulate crc_ccitt) messages.
Lemma list_reader_healthy : always_healthy (B := list Z).
Proof. intros r byte. by eexists _, _. Qed.


Definition sample_nas (d : Z) : list Z := [7; 0x56; 8; 0x39; 0x01; 0x41; 0x21; 0x43; d; 0x87; 0x09].
Definition sample_found (d : Z) : bool :=
  match identity_from_nas_with_range (sample_nas d) with Some (_, (3%nat, 8%nat)) => true | _ => false end.
Lemma sample_alike d d' : sample_found d = true -> sample_found d' = true ->
  items_alike (K := deku_fits) (Ok (sample_log (sample_nas d))) (Ok (sample_log (sample_nas d'))).
Proof.
  unfold sample_found. intros Hd Hd'.
  destruct (identity_from_nas_with_range (sample_nas d)) as [[i [lo len]]|] eqn:E; [|done].
  destruct (identity_from_nas_with_range (sample_nas d')) as [[j [lo' len']]|] eqn:E'; [|done].
  assert (lo = 3 /\ len = 8)%nat as [-> ->] by (by repeat case_match).
  assert (lo' = 3 /\ len' = 8)%nat as [-> ->] by (by repeat case_match). clear Hd Hd'.
  unfold items_alike. cbn -[GsmtapHeader_new set_uplink]. constructor; [|constructor]. constructor. right. split; [done|].
  apply (other_identity _ _ i j 3 8 0x39 0x39); try done.
  intros k Hk. do 3 (destruct k as [|k]; [done|]). do 8 (destruct k as [|k]; [lia|]). by destruct k.
Qed.
