(* ===== verification/Storage.v ===== *)
(** * Where recordings go ([daemon/src/storage.rs])

    The list of mounts, whether a memory card is there and takes a write, mounting and detaching it, the decision
    to move, and the task that keeps making it; and the start, in [main.rs].  What the system does is the class [Os]:
    files, commands, and the recording task that is asked to move ([SwitchStore], which is
    [DiagTask.switch_store]).  Its answers may differ from one call to the next, since its state is
    passed along: a card may be pulled between any two steps. *)

From S2P Require Import Prelude RustStr.

Local Open Scope Z_scope.

Definition KNOWN_CARD_DIRS : list rstr := [lit "/media/card"; lit "/media/sdcard"; lit "/mnt/sdcard"].

Record StorageConfig := mkStorageConfig { internal : rstr; removable : option rstr; card_hint : option rstr }.

(** [StorageConfig::from_config] and [Config::validate_storage], from what the configuration says. *)
Definition blank_filter (o : option rstr) : option rstr := s ← o; if bool_decide (trim s = []) then None else Some s.
Definition from_config (qmdl_store_path : rstr) (removable_store_path removable_store_device : option rstr) : StorageConfig :=
  mkStorageConfig qmdl_store_path (blank_filter removable_store_path) (blank_filter removable_store_device).

Definition SLASH : rchar := 47.
Definition trim_slashes (p : rstr) : rstr := trim_end_by (fun c => c =? SLASH) p.

Definition validate_storage (qmdl_store_path : rstr) (removable_store_path : option rstr) : result rstr unit :=
  match trim <$> removable_store_path with
  | None | Some [] => Ok tt
  | Some path =>
      if negb (starts_with path [SLASH]) then Err (lit "removable_store_path must be an absolute path, got " ++ path)
      else if bool_decide (trim_slashes path = trim_slashes qmdl_store_path) then
        Err (lit "removable_store_path must differ from qmdl_store_path (internal storage)")
      else Ok tt
  end.

Inductive RemovableState := NotConfigured | Present | Missing | Unusable (reason : rstr).
#[export] Instance RemovableState_eq_dec : EqDecision RemovableState.
Proof. solve_decision. Defined.

Record StorageStatus := mkStorageStatus {
  active_path : rstr; internal_path : rstr; removable_path : option rstr; removable_state : RemovableState;
  using_fallback : bool; since : option Z; last_event : option rstr }.

(** [Path]'s equality, of its path_components. *)
Definition path_components (p : rstr) : bool * bool * list rstr :=
  let parts := split_on SLASH p in
  (starts_with p [SLASH], bool_decide (head parts = Some (lit ".")), filter (fun c => c <> [] /\ c <> lit ".") parts).
Definition path_eqb (p q : rstr) : bool := bool_decide (path_components p = path_components q).

Definition StorageStatus_new (now : Z) (config : StorageConfig) (active : rstr) (st : RemovableState) : StorageStatus :=
  mkStorageStatus active (internal config) (removable config) st
    (bool_decide (is_Some (removable config)) && path_eqb active (internal config)) (Some now) None.

(** ** The list of mounts *)

Record MountEntry := mkMount { mount_device : rstr; mountpoint : rstr; fstype : rstr }.
#[export] Instance MountEntry_eq_dec : EqDecision MountEntry.
Proof. solve_decision. Defined.

Definition is_octal (b : Z) : bool := in_range 48 55 b.
(** The arithmetic is on [u8] (a debug build panics where it wraps). *)
Fixpoint unescape_octal (bytes : list Z) : list Z :=
  match bytes with
  | [] => []
  | b :: rest =>
      match rest with
      | o1 :: o2 :: o3 :: rest' =>
          if (b =? 92) && is_octal o1 && is_octal o2 && is_octal o3 then
            wrapu 8 (wrapu 8 (wrapu 8 ((o1 - 48) * 64) + (o2 - 48) * 8) + (o3 - 48)) :: unescape_octal rest'
          else b :: unescape_octal rest
      | _ => b :: unescape_octal rest
      end
  end.
Definition unescape_mount_field (field : rstr) : rstr := from_utf8_lossy (unescape_octal (as_bytes field)).

Definition parse_mount_line (line : rstr) : option MountEntry :=
  match split_whitespace line with
  | device :: point :: ty :: _ => Some (mkMount (unescape_mount_field device) (unescape_mount_field point) ty)
  | _ => None
  end.
Definition parse_mounts (contents : rstr) : list MountEntry := omap parse_mount_line (lines contents).

Definition normalise (path : rstr) : rstr := match trim_slashes path with [] => [SLASH] | t => t end.

(** [wanted == dir || wanted.starts_with("{dir}/")]. *)
Definition within (wanted dir : rstr) : bool := bool_decide (wanted = dir) || starts_with wanted (dir ++ [SLASH]).
Definition path_is_within (path root : rstr) : bool := within (normalise path) (normalise root).

(** [max_by_key]: the last of the greatest. *)
Definition max_by_key {A : Type} (key : A -> Z) (l : list A) : option A :=
  fold_left (fun best x => match best with Some b => if key x <? key b then Some b else Some x | None => Some x end) l None.

Definition covers (path : rstr) (m : MountEntry) : bool :=
  let point := normalise (mountpoint m) in bool_decide (point = [SLASH]) || within (normalise path) point.
Definition mount_covering (path : rstr) (mounts : list MountEntry) : option MountEntry :=
  max_by_key (fun m => str_len (normalise (mountpoint m))) (List.filter (covers path) mounts).

Definition looks_removable (entry : MountEntry) : bool :=
  existsb (starts_with (mount_device entry)) [lit "/dev/mmcblk"; lit "/dev/sd"; lit "/dev/block/mmcblk"; lit "/dev/block/sd"] &&
  bool_decide (fstype entry ∈ map lit ["vfat"; "msdos"; "exfat"; "ext2"; "ext3"; "ext4"; "f2fs"; "ntfs"; "fuseblk"]%string).

Definition mount_is_the_card (path : rstr) (mount : MountEntry) (device_hint : option rstr) : bool :=
  let point := normalise (mountpoint mount) in
  if bool_decide (point = normalise path) then true
  else if bool_decide (point = [SLASH]) then false
  else looks_removable mount || existsb (fun d => bool_decide (normalise d = point)) KNOWN_CARD_DIRS
       || bool_decide (device_hint = Some (mount_device mount)).

Definition mount_target (path : rstr) : rstr := default path (find (within (normalise path)) (map normalise KNOWN_CARD_DIRS)).

(** ** The system *)

Definition act (W A : Type) : Type := W -> A * W.
Definition done_with {W A : Type} (a : A) : act W A := fun w => (a, w).
Definition and_then {W A B : Type} (m : act W A) (f : A -> act W B) : act W B := fun w => let '(a, w) := m w in f a w.
Declare Scope act_scope.
Delimit Scope act_scope with act.
Notation "'let!' x := m 'in' k" := (and_then m (fun x => k)) (at level 10, x pattern, m at level 100, k at level 200) : act_scope.
Local Open Scope act_scope.

Record DiskStats := mkDiskStats { total_bytes : option Z; available_bytes : option Z }.

Class Os (W : Type) := {
  (** [/proc/mounts], when it can be read. *)
  read_mounts : act W (option rstr);
  metadata_ok : rstr -> act W bool;
  os_create_dir_all : rstr -> act W (result rstr unit);
  os_write : rstr -> act W (result rstr unit);
  os_remove_file : rstr -> act W (result rstr unit);
  (** [Command::output]: whether it succeeded and its standard error, or why it did not start. *)
  command_output : rstr -> list rstr -> act W (result rstr (bool * list Z));
  disk_stats : rstr -> act W (option DiskStats);
  process_id : Z;
  now : act W Z;
  (** [SwitchStore] sent and answered; [None] when the recording task is gone. *)
  send_switch_store : rstr -> rstr -> act W (option (result rstr unit))
}.

Section operations.
Context {W : Type} `{!Os W}.

Definition run_quiet (program : rstr) (args : list rstr) : act W (result rstr unit) :=
  let! output := command_output program args in
  done_with match output with
       | Err e => Err (program ++ lit ": " ++ e)
       | Ok (true, _) => Ok tt
       | Ok (false, stderr) => Err (trim (from_utf8_lossy stderr))
       end.

Fixpoint first_present (paths : list rstr) : act W (option rstr) :=
  match paths with
  | [] => done_with None
  | p :: paths => let! there := metadata_ok p in if there then done_with (Some p) else first_present paths
  end.
Definition card_candidates : list rstr :=
  flat_map (fun n => [lit "/dev/mmcblk" ++ dec n ++ lit "p1"; lit "/dev/mmcblk" ++ dec n]) [0; 1; 2; 3].
Definition card_device (hint : option rstr) : act W (option rstr) :=
  match hint with
  | Some hint => let! there := metadata_ok hint in done_with (if there then Some hint else None)
  | None => first_present card_candidates
  end.

(** [path.join(name)]. *)
Definition path_join (path name : rstr) : rstr :=
  match last path with None => name | Some c => if c =? SLASH then path ++ name else path ++ SLASH :: name end.
Definition probe_writable (path : rstr) : act W (result rstr unit) :=
  let probe := path_join path (lit ".rayhunter-probe-" ++ dec process_id) in
  let! r := os_write probe in
  match r with
  | Err e => done_with (Err e)
  | Ok tt => os_remove_file probe
  end.

Record Observation := mkObservation { mounted : bool; writable : result rstr unit; device_present : bool }.

Definition judge (o : Observation) : RemovableState :=
  match mounted o, writable o with
  | true, Ok _ => Present
  | true, Err reason => if device_present o then Unusable reason else Missing
  | false, _ => if device_present o then Unusable (lit "card present but not mounted") else Missing
  end.

Definition list_mounts : act W (list MountEntry) := 
  let! text := read_mounts in done_with match text with Some text => parse_mounts text | None => [] end.

Definition card_mount (path : rstr) (device_hint : option rstr) (mounts : list MountEntry) : option MountEntry :=
  m ← mount_covering path mounts; if mount_is_the_card path m device_hint then Some m else None.

Definition observe_card (path : rstr) (device_hint : option rstr) : act W (Observation * option rstr) :=
  let! mounts := list_mounts in
  let mounted_entry := card_mount path device_hint mounts in
  let! device := match mounted_entry with
           | Some entry =>
               if starts_with (mount_device entry) (lit "/dev/") then
                 let! there := metadata_ok (mount_device entry) in done_with (if there then Some (mount_device entry) else None)
               else card_device device_hint
           | None => card_device device_hint
           end in
  let! w := match mounted_entry with
      | Some _ => let! made := os_create_dir_all path in
                  match made with Ok tt => probe_writable path | Err e => done_with (Err e) end
      | None => done_with (Err (lit "not mounted"))
      end in
  done_with (mkObservation (bool_decide (is_Some mounted_entry)) w (bool_decide (is_Some device)), device).

Record CheckResult := mkCheck { check_state : RemovableState; remounted : bool }.

Definition check_removable (path : rstr) (device_hint : option rstr) : act W CheckResult :=
  let! seen := observe_card path device_hint in
  let '(observation, device) := seen in
  match judge observation with
  | Missing =>
      if mounted observation then
        let! _ := run_quiet (lit "umount") [lit "-l"; mount_target path] in
        done_with (mkCheck Missing false)
      else done_with (mkCheck Missing false)
  | Unusable reason =>
      if mounted observation then done_with (mkCheck (Unusable reason) false)
      else
        match device with
        | None => done_with (mkCheck (Unusable reason) false)
        | Some device =>
            let target := mount_target path in
            let! made := os_create_dir_all target in
            match made with
            | Err e => done_with (mkCheck (Unusable (lit "cannot create " ++ target ++ lit ": " ++ e)) false)
            | Ok tt =>
                let! m := run_quiet (lit "mount") [device; target] in
                match m with
                | Ok tt => let! again := observe_card path device_hint in done_with (mkCheck (judge again.1) true)
                | Err e => done_with (mkCheck (Unusable (lit "mount failed: " ++ e)) false)
                end
            end
        end
  | st => done_with (mkCheck st false)
  end.

Definition decide_switch (previous : RemovableState) (check : CheckResult) (active_is_card : bool) : option bool :=
  let want_card := bool_decide (check_state check = Present) in
  let returned := want_card && (negb (bool_decide (previous = Present)) || remounted check) in
  if Bool.eqb want_card active_is_card && negb returned then None else Some want_card.

Definition choose_active (config : StorageConfig) : act W (rstr * RemovableState) :=
  match removable config with
  | None => done_with (internal config, NotConfigured)
  | Some path =>
      let! check := check_removable path (card_hint config) in
      done_with (if bool_decide (check_state check = Present) then path else internal config, check_state check)
  end.

Definition initial_status (config : StorageConfig) (active : rstr) (st : RemovableState) : act W StorageStatus :=
  let! t := now in
  let status := StorageStatus_new t config active st in
  done_with (mkStorageStatus (active_path status) (internal_path status) (removable_path status) (removable_state status)
    (using_fallback status) (since status) (Some match st with
      | NotConfigured => lit "Recording to internal storage."
      | Present => lit "Recording to the memory card at " ++ active ++ lit "."
      | Missing => lit "Memory card missing at startup: recording to internal storage until it returns."
      | Unusable reason => lit "Memory card cannot be used (" ++ reason ++ lit "): recording to internal storage."
      end)).

(** The choice of [run_with_config] in [main.rs]; [init_qmdl_store] opens the store at a path. *)
Definition startup {S E : Type} (init_qmdl_store : rstr -> act W (result E S)) (text : E -> rstr) (debug_mode : bool)
    (config : StorageConfig) : act W (result E (S * StorageStatus)) :=
  let! chosen := if debug_mode then done_with (internal config, NotConfigured) else choose_active config in
  let '(active, st) := chosen in
  let! opened := init_qmdl_store active in
  match opened with
  | Ok store => let! status := initial_status config active st in done_with (Ok (store, status))
  | Err err =>
      if negb (path_eqb active (internal config)) then
        let! again := init_qmdl_store (internal config) in
        match again with
        | Err e => done_with (Err e)
        | Ok store =>
            let! status := initial_status config (internal config) (Unusable (lit "cannot open its recording store: " ++ text err)) in
            done_with (Ok (store, status))
        end
      else done_with (Err err)
  end.

(** ** The task *)

(** What a turn asks the recording task for: where to, why, and what is said when it is done. *)
Definition switch_to_card (card : rstr) : rstr * rstr * rstr :=
  (card, lit "memory card returned", lit "Memory card back: recording to it again at " ++ card ++ lit ".").
Definition switch_to_internal (config : StorageConfig) (st : RemovableState) (disk : option DiskStats) : rstr * rstr * rstr :=
  let free := match d ← disk; available_bytes d with
              | Some b => lit " (" ++ dec (b / 1024 / 1024) ++ lit " MB free)"
              | None => []
              end in
  let why := match st with
             | Unusable reason => lit "Memory card cannot be used (" ++ reason ++ lit ")"
             | _ => lit "Memory card missing"
             end in
  (internal config, why, why ++ lit ": recording to internal storage" ++ free ++ lit " until it returns.").

Definition status_with (s : StorageStatus) (st : RemovableState) (event : option rstr) : StorageStatus :=
  mkStorageStatus (active_path s) (internal_path s) (removable_path s) st (using_fallback s) (since s) event.

(** One turn of [run_storage_monitor]: the status after it and the notifications, [None] when the task ends. *)
Definition monitor_turn (config : StorageConfig) (card : rstr) (status : StorageStatus) : act W (option (StorageStatus * list rstr)) :=
  let! check := check_removable card (card_hint config) in
  let st := check_state check in
  match decide_switch (removable_state status) check (path_eqb (active_path status) card) with
  | None => done_with (Some (if bool_decide (st = removable_state status) then status else status_with status st (last_event status), []))
  | Some want_card =>
      let! asked := (if want_card then done_with (switch_to_card card)
               else let! disk := disk_stats (internal config) in done_with (switch_to_internal config st disk)) in
      let '(target, reason, event) := asked in
      let! answer := send_switch_store target reason in
      match answer with
      | Some (Ok tt) =>
          let! t := now in
          let new := StorageStatus_new t config target st in
          done_with (Some (status_with new st (Some event), [event]))
      | Some (Err e) =>
          done_with (Some (status_with status st (Some (lit "Could not move recordings to " ++ target ++ lit ": " ++ e)), []))
      | None => done_with None
      end
  end.

(** ** What can be chosen *)

Record StorageCandidate := mkCandidate {
  candidate_path : rstr; candidate_kind : rstr; candidate_device : option rstr; candidate_fstype : option rstr;
  candidate_mounted : bool; candidate_stats : option DiskStats; configured : bool }.

Definition describe_place (mounts : list MountEntry) (path kind : rstr) (is_configured : bool) : act W StorageCandidate :=
  let entry := card_mount path None mounts in
  let! stats := (if bool_decide (kind = lit "internal") || bool_decide (is_Some entry) then disk_stats path else done_with None) in
  done_with (mkCandidate path kind (mount_device <$> entry) (fstype <$> entry) (bool_decide (is_Some entry)) stats is_configured).

Definition configured_within (config : StorageConfig) (path : rstr) : bool :=
  match removable config with Some card => path_is_within card path | None => false end.

(** The closure [push_place], on what it captures. *)
Definition push_place (config : StorageConfig) (mounts : list MountEntry) (path kind : rstr) (seen : list rstr) (listed : list StorageCandidate)
    : act W (list rstr * list StorageCandidate) :=
  let key := normalise path in
  if bool_decide (key ∈ seen) then done_with (seen, listed)
  else let! c := describe_place mounts path kind (configured_within config path) in done_with (seen ++ [key], listed ++ [c]).

Fixpoint push_mounts (config : StorageConfig) (mounts entries : list MountEntry) (seen : list rstr) (listed : list StorageCandidate)
    : act W (list rstr * list StorageCandidate) :=
  match entries with
  | [] => done_with (seen, listed)
  | entry :: entries =>
      let path := mountpoint entry in
      let kind := if existsb (fun d => bool_decide (normalise d = normalise path)) KNOWN_CARD_DIRS then lit "card" else lit "other" in
      let! st := push_place config mounts path kind seen listed in
      push_mounts config mounts entries st.1 st.2
  end.
Fixpoint push_dirs (config : StorageConfig) (mounts : list MountEntry) (dirs : list rstr) (seen : list rstr) (listed : list StorageCandidate)
    : act W (list rstr * list StorageCandidate) :=
  match dirs with
  | [] => done_with (seen, listed)
  | dir :: dirs =>
      let! there := metadata_ok dir in
      let! st := (if there then push_place config mounts dir (lit "card") seen listed else done_with (seen, listed)) in
      push_dirs config mounts dirs st.1 st.2
  end.

Definition candidates (config : StorageConfig) : act W (list StorageCandidate) :=
  let! mounts := list_mounts in
  let! first := describe_place mounts (internal config) (lit "internal") false in
  let! st := push_mounts config mounts (List.filter looks_removable mounts) [normalise (internal config)] [first] in
  let! device := card_device (card_hint config) in
  let! st := (match device with
              | Some _ => push_dirs config mounts KNOWN_CARD_DIRS st.1 st.2
              | None => done_with st
              end) in
  match removable config with
  | Some card =>
      if existsb configured st.2 then done_with st.2
      else let! st := push_place config mounts card (lit "card") st.1 st.2 in done_with st.2
  | None => done_with st.2
  end.
End operations.

(** ** The kernel's text of the mounts *)

(** [mangle]: what separates fields, and the backslash, in octal. *)
Definition is_mangled (c : rchar) : bool := bool_decide (c ∈ [9; 10; 32; 35; 92]).
Definition mangle (s : rstr) : rstr :=
  flat_map (fun c => if is_mangled c then [92; 48 + c / 64; 48 + (c / 8) mod 8; 48 + c mod 8] else [c]) s.
Definition kernel_line (m : MountEntry) : rstr :=
  mangle (mount_device m) ++ 32 :: mangle (mountpoint m) ++ 32 :: mangle (fstype m) ++ lit " rw,relatime 0 0".
Definition kernel_text (mounts : list MountEntry) : rstr := flat_map (fun m => kernel_line m ++ [10]) mounts.

(** A field that may be there: no whitespace but what is mangled. *)
Definition field_ok (s : rstr) : Prop := s <> [] /\ Forall (fun c => is_scalar c /\ (is_whitespace c = true -> is_mangled c = true)) s.
Definition mount_ok (m : MountEntry) : Prop :=
  field_ok (mount_device m) /\ field_ok (mountpoint m) /\ field_ok (fstype m) /\ Forall (fun c => is_mangled c = false) (fstype m).

Lemma mangled_cases c : is_mangled c = true -> c = 9 \/ c = 10 \/ c = 32 \/ c = 35 \/ c = 92.
Proof. intros H%bool_decide_eq_true. repeat (apply elem_of_cons in H as [->|H]; [tauto|]). by apply not_elem_of_nil in H. Qed.

Lemma unescape_octal_plain bs rest : Forall (fun b => b <> 92) bs -> unescape_octal (bs ++ rest) = bs ++ unescape_octal rest.
Proof.
  induction 1 as [|b bs Hb _ IH]; [done|]. cbn [app]. rewrite <- IH. cbn [unescape_octal].
  rewrite (proj2 (Z.eqb_neq _ _) Hb). cbn [andb]. destruct (bs ++ rest) as [|? [|? [|? ?]]]; reflexivity.
Qed.

Lemma unescape_mangle s : field_ok s -> unescape_mount_field (mangle s) = s.
Proof.
  intros [_ Hs]. unfold unescape_mount_field. assert (H : unescape_octal (as_bytes (mangle s)) = as_bytes s).
  - induction Hs as [|c s [Hc _] _ IH]; [done|]. unfold mangle, as_bytes in *. cbn [flat_map]. rewrite flat_map_app.
    destruct (is_mangled c) eqn:Hm.
    + apply mangled_cases in Hm as [->|[->|[->|[->| -> ]]]]; cbn -[unescape_octal]; (etransitivity; [|exact (f_equal (cons _) IH)]); reflexivity.
    + cbn [flat_map]. rewrite app_nil_r, unescape_octal_plain; [by rewrite IH|].
      destruct (utf8_first_step c [] Hc) as (b & rest & Hb & _ & Hbig). destruct (Z.lt_ge_cases c 128) as [Hl|Hl].
      * unfold utf8_char. rewrite (proj2 (Z.ltb_lt _ _)) by lia. constructor; [|constructor]. intros ->. by vm_compute in Hm.
      * eapply Forall_impl; [exact (Hbig Hl)|]. cbn. intros. lia.
  - rewrite H. apply utf8_roundtrip. eapply Forall_impl; [exact Hs|]. cbn. tauto.
Qed.

Lemma mangle_dark s : field_ok s -> Forall (fun c => is_whitespace c = false) (mangle s) /\ mangle s <> [].
Proof.
  intros [Hne Hs]. split.
  - clear Hne. unfold mangle. induction Hs as [|c s [_ Hc] _ IH]; [constructor|]. cbn [flat_map]. apply Forall_app. split; [|exact IH].
    destruct (is_mangled c) eqn:Hm; [|constructor; [|constructor]; destruct (is_whitespace c); [by discriminate Hc|done]].
    apply mangled_cases in Hm as [->|[->|[->|[->| -> ]]]]; by repeat constructor.
  - destruct s as [|c s]; [done|]. unfold mangle. cbn [flat_map]. by destruct (is_mangled c).
Qed.

Lemma split_by_word p w rest : Forall (fun c => p c = false) w -> (forall c t, rest = c :: t -> p c = true) ->
  split_by p (w ++ rest) = w :: match rest with [] => [] | _ :: t => split_by p t end.
Proof.
  intros Hw Hr. induction Hw as [|c w Hc _ IH]; cbn [app].
  - destruct rest as [|c t]; [done|]. cbn [split_by]. by rewrite (Hr c t).
  - cbn [split_by]. by rewrite Hc, IH.
Qed.
Lemma split_whitespace_word w c rest : w <> [] -> Forall (fun c => is_whitespace c = false) w -> is_whitespace c = true ->
  split_whitespace (w ++ c :: rest) = w :: split_whitespace rest.
Proof.
  intros Hne Hw Hc. unfold split_whitespace. rewrite split_by_word; [|done|by intros ? ? [= <- _]].
  rewrite filter_cons_True by done. done.
Qed.

Lemma parse_kernel_line m : mount_ok m -> parse_mount_line (kernel_line m) = Some m.
Proof.
  intros (Hd & Hp & Hf & Hfm). unfold parse_mount_line, kernel_line.
  destruct (mangle_dark _ Hd) as [Hd1 Hd2]. destruct (mangle_dark _ Hp) as [Hp1 Hp2]. destruct (mangle_dark _ Hf) as [Hf1 Hf2].
  rewrite split_whitespace_word, split_whitespace_word by done.
  change (lit " rw,relatime 0 0") with (32 :: lit "rw,relatime 0 0"). rewrite split_whitespace_word by done.
  rewrite !unescape_mangle by done. destruct m as [d p f]. cbn [mount_device mountpoint fstype] in *. repeat f_equal.
  clear -Hfm. induction Hfm as [|c f Hc _ IH]; [done|]. unfold mangle in *. cbn [flat_map]. rewrite Hc. cbn [app]. by rewrite IH.
Qed.

Lemma kernel_line_newline m : mount_ok m -> 10 ∉ kernel_line m.
Proof.
  intros (Hd & Hp & Hf & _) Hin. unfold kernel_line in Hin.
  assert (Hno : forall s, field_ok s -> 10 ∉ mangle s).
  { intros s Hs Hin'. destruct (mangle_dark s Hs) as [H _]. rewrite Forall_forall in H. specialize (H _ Hin'). by vm_compute in H. }
  apply elem_of_app in Hin as [Hin|Hin]; [by eapply Hno in Hin|]. apply elem_of_cons in Hin as [?|Hin]; [done|].
  apply elem_of_app in Hin as [Hin|Hin]; [by eapply Hno in Hin|]. apply elem_of_cons in Hin as [?|Hin]; [done|].
  apply elem_of_app in Hin as [Hin|Hin]; [by eapply Hno in Hin|]. revert Hin. apply (bool_decide_unpack (10 ∉ _)). by vm_compute.
Qed.

(** The mounts are read as they are. *)
Lemma parse_kernel_text mounts : Forall mount_ok mounts -> parse_mounts (kernel_text mounts) = mounts.
Proof.
  unfold parse_mounts, kernel_text, lines. induction 1 as [|m mounts Hm _ IH]; [done|]. cbn [flat_map].
  rewrite <- app_assoc. cbn [app]. rewrite split_inclusive_frame by by apply kernel_line_newline. cbn [map omap].
  assert (Hl : line_of_piece (kernel_line m ++ [10]) = kernel_line m).
  { unfold line_of_piece. rewrite strip_suffix_snoc. destruct (strip_suffix [13] (kernel_line m)) as [l|] eqn:E; [|done].
    assert (Hk : exists l0, kernel_line m = l0 ++ [48]).
    { exists (mangle (mount_device m) ++ 32 :: mangle (mountpoint m) ++ 32 :: mangle (fstype m) ++ lit " rw,relatime 0 ").
      unfold kernel_line. rewrite <- !app_assoc. cbn [app]. rewrite <- !app_assoc. cbn [app]. by rewrite <- !app_assoc. }
    destruct Hk as [l0 Hk]. rewrite Hk in E. unfold strip_suffix in E. rewrite rev_app_distr in E. discriminate E. }
  rewrite Hl. cbn [list_omap]. rewrite parse_kernel_line by done. f_equal. exact IH.
Qed.

(** ** Which mount a path is on *)

Lemma max_by_key_spec {A : Type} (key : A -> Z) l :
  match max_by_key key l with
  | None => l = []
  | Some b => exists before after, l = before ++ b :: after /\ Forall (fun x => key x <= key b) before /\ Forall (fun x => key x < key b) after
  end.
Proof.
  unfold max_by_key. induction l as [|x l IH] using rev_ind; [done|]. rewrite fold_left_app. cbn [fold_left].
  destruct (fold_left _ l None) as [b|].
  - destruct IH as (before & after & -> & Hb & Ha). destruct (Z.ltb_spec (key x) (key b)).
    + exists before, (after ++ [x]). rewrite <- app_assoc. split_and!; [done|done|]. apply Forall_app. split; [done|]. by constructor.
    + exists (before ++ b :: after), []. split_and!; [done| |constructor]. apply Forall_app. split; [|constructor; [done|]];
        (eapply Forall_impl; [eassumption|]; cbn; intros; lia).
  - subst l. by exists [], [].
Qed.

Lemma mount_covering_spec path mounts :
  match mount_covering path mounts with
  | None => forall m, m ∈ mounts -> covers path m = false
  | Some m => m ∈ mounts /\ covers path m = true /\
      forall m', m' ∈ mounts -> covers path m' = true -> str_len (normalise (mountpoint m')) <= str_len (normalise (mountpoint m))
  end.
Proof.
  unfold mount_covering. pose proof (max_by_key_spec (fun m => str_len (normalise (mountpoint m))) (List.filter (covers path) mounts)) as H.
  assert (Hin : forall m, m ∈ List.filter (covers path) mounts <-> m ∈ mounts /\ covers path m = true).
  { intros m. rewrite !list_elem_of_In. apply filter_In. }
  destruct (max_by_key _ _) as [m|].
  - destruct H as (before & after & He & Hb & Ha). assert (Hm : m ∈ List.filter (covers path) mounts) by (rewrite He; set_solver).
    apply Hin in Hm as [H1 H2]. split_and!; [done..|]. intros m' H3 H4. assert (Hm' : m' ∈ List.filter (covers path) mounts) by (by apply Hin).
    rewrite He in Hm'. rewrite Forall_forall in Hb, Ha. apply elem_of_app in Hm' as [Hm'|[->|Hm']%elem_of_cons]; [by apply Hb| lia|].
    specialize (Ha _ Hm'). lia.
  - intros m Hm. destruct (covers path m) eqn:E; [|done]. assert (Hm' : m ∈ List.filter (covers path) mounts) by (by apply Hin).
    rewrite H in Hm'. by apply not_elem_of_nil in Hm'.
Qed.
(** The mount on top: the last of the list, when no other is nearer. *)
Lemma mount_covering_top path mounts m : covers path m = true ->
  (forall m', m' ∈ mounts -> covers path m' = true -> str_len (normalise (mountpoint m')) <= str_len (normalise (mountpoint m))) ->
  mount_covering path (mounts ++ [m]) = Some m.
Proof.
  intros Hm Hall. unfold mount_covering. rewrite List.filter_app. cbn [List.filter]. rewrite Hm. unfold max_by_key. rewrite fold_left_app.
  cbn [fold_left]. pose proof (max_by_key_spec (fun m => str_len (normalise (mountpoint m))) (List.filter (covers path) mounts)) as H.
  unfold max_by_key in H. destruct (fold_left _ (List.filter _ _) None) as [b|]; [|done].
  destruct H as (before & after & He & _ & _). assert (Hb : b ∈ List.filter (covers path) mounts) by (rewrite He; set_solver).
  rewrite list_elem_of_In, filter_In, <- list_elem_of_In in Hb. destruct Hb as [Hb1 Hb2].
  specialize (Hall _ Hb1 Hb2). by rewrite (proj2 (Z.ltb_ge _ _)).
Qed.

(** ** What is concluded of a card *)

Section facts.
Context {W : Type} `{!Os W}.

(** Whatever happens in between, a card is only called present when it was seen mounted and took a write. *)
Lemma judge_present o : judge o = Present <-> mounted o = true /\ is_ok (writable o) = true.
Proof. unfold judge. destruct (mounted o), (writable o) as [[]|], (device_present o); cbn; split; try done; by intros [? ?]. Qed.

Lemma check_present path hint w w' r : check_removable path hint w = (mkCheck Present r, w') ->
  exists w0 o d, observe_card path hint w0 = ((o, d), w') /\ mounted o = true /\ is_ok (writable o) = true.
Proof.
  unfold check_removable, and_then, done_with. destruct (observe_card path hint w) as [[o d] w1] eqn:Ho.
  destruct (judge o) eqn:Hj; try done.
  - intros [= <- <-]. exists w, o, d. split; [done|]. by apply judge_present.
  - destruct (mounted o); [|done]. by destruct (run_quiet _ _ w1).
  - destruct (mounted o); [done|]. destruct d as [d|]; [|done]. destruct (os_create_dir_all _ w1) as [[[]|e] w2]; [|done].
    destruct (run_quiet _ _ w2) as [[[]|e] w3]; [|done]. destruct (observe_card path hint w3) as [[o' d'] w4] eqn:Ho'.
    cbn [fst]. intros [= Hj' <- <-]. exists w3, o', d'. split; [done|]. by apply judge_present.
Qed.

Lemma check_configured path hint w : check_state (check_removable path hint w).1 <> NotConfigured.
Proof.
  unfold check_removable, and_then, done_with. assert (Hj : forall o, judge o <> NotConfigured).
  { intros o. unfold judge. by destruct (mounted o), (writable o), (device_present o). }
  destruct (observe_card path hint w) as [[o d] w1]. destruct (judge o) eqn:Hjo; try done.
  - by destruct (Hj o).
  - destruct (mounted o); [|done]. by destruct (run_quiet _ _ w1).
  - destruct (mounted o); [done|]. destruct d as [d|]; [|done]. destruct (os_create_dir_all _ w1) as [[[]|e] w2]; [|done].
    destruct (run_quiet _ _ w2) as [[[]|e] w3]; [|done]. destruct (observe_card path hint w3) as [[o' d'] w4]. apply Hj.
Qed.
End facts.

(** ** A machine with a card slot *)

(** The mounts with whether what they are of is still there, the device nodes, and where the recording task
    records: it does what it is asked. *)
Record Machine := mkMachine { mount_table : list (MountEntry * bool); nodes : list rstr; recording_at : rstr }.

(** A write reaches what is mounted nearest. *)
Definition takes_writes (m : Machine) (path : rstr) : bool :=
  match mount_covering path (map fst (mount_table m)) with
  | Some e => bool_decide ((e, true) ∈ mount_table m)
  | None => false
  end.
Fixpoint drop_until_slash (s : rstr) : rstr := match s with [] => [] | c :: s => if c =? SLASH then s else drop_until_slash s end.
Definition parent (path : rstr) : rstr := rev (drop_until_slash (rev path)).

(** [umount -l]: the last mount there. *)
Fixpoint detach_last (point : rstr) (table : list (MountEntry * bool)) : option (list (MountEntry * bool)) :=
  match table with
  | [] => None
  | e :: table => match detach_last point table with
                  | Some table => Some (e :: table)
                  | None => if bool_decide (mountpoint e.1 = point) then Some table else None
                  end
  end.

#[export] Instance machine_os : Os Machine := {
  read_mounts := fun m => (Some (kernel_text (map fst (mount_table m))), m);
  metadata_ok := fun p m => (bool_decide (p ∈ nodes m), m);
  os_create_dir_all := fun p m => (if takes_writes m p then Ok tt else Err (lit "Input/output error"), m);
  os_write := fun p m => (if takes_writes m (parent p) then Ok tt else Err (lit "Input/output error"), m);
  os_remove_file := fun p m => (if takes_writes m (parent p) then Ok tt else Err (lit "Input/output error"), m);
  command_output := fun program args m =>
    if bool_decide (program = lit "umount") then
      match detach_last (default [] (args !! 1%nat)) (mount_table m) with
      | Some table => (Ok (true, []), mkMachine table (nodes m) (recording_at m))
      | None => (Ok (false, [110; 111]), m)
      end
    else
      let device := default [] (head args) in
      if bool_decide (device ∈ nodes m) then
        (Ok (true, []), mkMachine (mount_table m ++ [(mkMount device (default [] (args !! 1%nat)) (lit "vfat"), true)]) (nodes m) (recording_at m))
      else (Ok (false, [110; 111]), m);
  disk_stats := fun _ m => (None, m);
  process_id := 1;
  now := fun m => (0, m);
  send_switch_store := fun target _ m => (Some (Ok tt), mkMachine (mount_table m) (nodes m) target) }.

(** The card is pulled out, and put in again. *)
Definition pull (device : rstr) (m : Machine) : Machine :=
  mkMachine (map (fun e => (e.1, e.2 && negb (bool_decide (mount_device e.1 = device)))) (mount_table m))
    (filter (fun n => n <> device) (nodes m)) (recording_at m).
Definition insert_card (device : rstr) (m : Machine) : Machine := mkMachine (mount_table m) (device :: nodes m) (recording_at m).

Lemma drop_until_slash_app a b : SLASH ∉ a -> drop_until_slash (a ++ SLASH :: b) = b.
Proof.
  induction a as [|c a IH]; intros Ha; cbn [app drop_until_slash]; [by rewrite Z.eqb_refl|].
  apply not_elem_of_cons in Ha as [Hc Ha]. rewrite (proj2 (Z.eqb_neq _ _)) by congruence. by apply IH.
Qed.
Lemma trim_slashes_snoc p : trim_slashes (p ++ [SLASH]) = trim_slashes p.
Proof. unfold trim_slashes, trim_end_by. rewrite rev_app_distr. reflexivity. Qed.
Lemma normalise_parent card name : SLASH ∉ name -> card <> [] -> normalise (parent (path_join card name)) = normalise card.
Proof.
  intros Hn Hne. unfold path_join, parent. destruct (last card) as [c|] eqn:Hl; [|by apply last_None in Hl].
  apply last_Some in Hl as [card' ->]. destruct (Z.eqb_spec c SLASH) as [->|Hc].
  - rewrite <- app_assoc. cbn [app]. rewrite rev_app_distr. cbn [rev]. rewrite <- app_assoc. cbn [app].
    rewrite drop_until_slash_app by (by rewrite list_elem_of_In, <- in_rev, <- list_elem_of_In). rewrite rev_involutive. unfold normalise. by rewrite trim_slashes_snoc.
  - rewrite rev_app_distr. cbn [rev]. rewrite <- app_assoc. cbn [app].
    rewrite drop_until_slash_app by (by rewrite list_elem_of_In, <- in_rev, <- list_elem_of_In). by rewrite rev_involutive.
Qed.
Lemma covering_normalise p q mounts : normalise p = normalise q -> mount_covering p mounts = mount_covering q mounts.
Proof. intros H. unfold mount_covering, covers. by rewrite H. Qed.

(** *** The card's own mount *)

Lemma starts_with_refl_app a b : starts_with (a ++ b) a = true.
Proof. apply starts_with_spec. by exists b. Qed.
Lemma target_covers card ty device : covers card (mkMount device (mount_target card) ty) = true /\
  mount_is_the_card card (mkMount device (mount_target card) ty) (Some device) = true \/ normalise (mount_target card) = [SLASH].
Proof.
  destruct (decide (normalise (mount_target card) = [SLASH])) as [|Hroot]; [by right|]. left. unfold covers, mount_is_the_card. cbn [mountpoint mount_device].
  unfold mount_target in *. destruct (find _ _) as [d|] eqn:Hf; cbn [default from_option id] in *.
  - apply find_some in Hf as [Hin Hw]. assert (Hd : normalise d = d).
    { cbn in Hin. repeat (destruct Hin as [<-|Hin]; [by vm_compute|]). done. }
    rewrite Hd in *. rewrite Hw, orb_true_r. split; [done|]. destruct (bool_decide (d = normalise card)); [done|].
    rewrite (bool_decide_eq_false_2 (d = [SLASH])) by done. rewrite (bool_decide_eq_true_2 (Some device = Some device)) by done. apply orb_true_r.
  - unfold within. rewrite (bool_decide_eq_true_2 (normalise card = normalise card)) by done. cbn [orb]. by rewrite orb_true_r.
Qed.

Section slot.
Context (card device : rstr) (base : list MountEntry).
Abbreviation e := (mkMount device (mount_target card) (lit "vfat")).

(** A machine whose other mounts are there to stay, and whose card is mounted where it is looked for. *)
Record slot_ok : Prop := {
  base_text : Forall mount_ok base;
  card_text : mount_ok e;
  card_nonempty : card <> [];
  target_not_root : normalise (mount_target card) <> [SLASH];
  no_other_card : card_mount card (Some device) base = None;
  on_top : forall m, m ∈ base -> covers card m = true -> str_len (normalise (mountpoint m)) <= str_len (normalise (mount_target card));
  is_node : starts_with device (lit "/dev/") = true;
  target_exists : is_Some (mount_covering (mount_target card) base);
  other_devices : forall m, m ∈ base -> mount_device m <> device
}.
Context (Hok : slot_ok).

Definition bare (ns : list rstr) (at_ : rstr) : Machine := mkMachine (map (fun m => (m, true)) base) ns at_.
Definition mounted_card (live : bool) (ns : list rstr) (at_ : rstr) : Machine := mkMachine (map (fun m => (m, true)) base ++ [(e, live)]) ns at_.

Lemma base_fst : map fst (map (fun m : MountEntry => (m, true)) base) = base.
Proof. rewrite map_map. apply map_id. Qed.
Lemma list_bare ns at_ : list_mounts (bare ns at_) = (base, bare ns at_).
Proof.
  destruct Hok. unfold list_mounts, and_then, done_with. cbn [read_mounts machine_os bare mount_table]. rewrite base_fst.
  by rewrite parse_kernel_text.
Qed.
Lemma list_mounted live ns at_ : list_mounts (mounted_card live ns at_) = (base ++ [e], mounted_card live ns at_).
Proof.
  destruct Hok. unfold list_mounts, and_then, done_with. cbn [read_mounts machine_os mounted_card mount_table]. rewrite map_app, base_fst.
  cbn [map fst]. rewrite parse_kernel_text; [done|]. apply Forall_app. split; [done|]. by constructor.
Qed.

Lemma covering_card : mount_covering card (base ++ [e]) = Some e.
Proof. destruct Hok. destruct (target_covers card (lit "vfat") device) as [[H _]|]; [|done]. by apply mount_covering_top. Qed.
Lemma card_mount_e : card_mount card (Some device) (base ++ [e]) = Some e.
Proof.
  unfold card_mount. rewrite covering_card. cbn [mbind option_bind]. destruct Hok.
  destruct (target_covers card (lit "vfat") device) as [[_ H]|]; [|done]. by rewrite H.
Qed.
Lemma takes_writes_card live ns at_ p : normalise p = normalise card -> takes_writes (mounted_card live ns at_) p = live.
Proof.
  intros Hp. unfold takes_writes. cbn [mounted_card mount_table]. rewrite map_app, base_fst. cbn [map fst].
  rewrite (covering_normalise _ card), covering_card by done. destruct live; case_bool_decide as Hin; [done| |exfalso|done].
  - exfalso. apply Hin. set_solver.
  - apply elem_of_app in Hin as [(m & Hm & Hin)%list_elem_of_fmap|[?|?%not_elem_of_nil]%elem_of_cons]; [|done|done].
    injection Hm as <-. apply (other_devices Hok _ Hin). done.
Qed.
Lemma takes_writes_target ns at_ : takes_writes (bare ns at_) (mount_target card) = true.
Proof.
  destruct Hok as [_ _ _ _ _ _ _ [m Hm] _]. unfold takes_writes. cbn [bare mount_table]. rewrite base_fst, Hm.
  pose proof (mount_covering_spec (mount_target card) base) as H. rewrite Hm in H. destruct H as (Hin & _ & _).
  apply bool_decide_eq_true_2, list_elem_of_fmap. by exists m.
Qed.
Lemma detach_card live : detach_last (mount_target card) (map (fun m => (m, true)) base ++ [(e, live)]) = Some (map (fun m => (m, true)) base).
Proof.
  induction (map (fun m => (m, true)) base) as [|x l IH]; cbn [app detach_last]; [|by rewrite IH].
  by rewrite (bool_decide_eq_true_2 _).
Qed.

Lemma probe_card live ns at_ : (probe_writable card (mounted_card live ns at_)) =
  ((if live then Ok tt else Err (lit "Input/output error")), mounted_card live ns at_).
Proof.
  unfold probe_writable, and_then, done_with. cbn [os_write os_remove_file machine_os].
  assert (Hw : takes_writes (mounted_card live ns at_) (parent (path_join card (lit ".rayhunter-probe-" ++ dec process_id))) = live).
  { apply takes_writes_card, normalise_parent; [|apply card_nonempty, Hok]. apply (bool_decide_unpack (SLASH ∉ _)). by vm_compute. }
  rewrite Hw. destruct live; [by rewrite Hw|done].
Qed.

(** A card that is mounted, and there or not. *)
Lemma observe_mounted live ns at_ : exists d, observe_card card (Some device) (mounted_card live ns at_) =
  ((mkObservation true (if live then Ok tt else Err (lit "Input/output error")) (bool_decide (device ∈ ns)), d), mounted_card live ns at_).
Proof.
  unfold observe_card, and_then, done_with. rewrite list_mounted, card_mount_e. cbn [mount_device]. rewrite (is_node Hok).
  cbn [metadata_ok machine_os mounted_card nodes os_create_dir_all]. fold (mounted_card live ns at_). rewrite takes_writes_card by done.
  exists (if bool_decide (device ∈ ns) then Some device else None).
  destruct live; rewrite ?probe_card; by destruct (bool_decide (device ∈ ns)).
Qed.
Lemma observe_bare ns at_ : observe_card card (Some device) (bare ns at_) =
  ((mkObservation false (Err (lit "not mounted")) (bool_decide (device ∈ ns)), if bool_decide (device ∈ ns) then Some device else None), bare ns at_).
Proof.
  unfold observe_card, and_then, done_with. rewrite list_bare, (no_other_card Hok). cbn. by destruct (bool_decide (device ∈ ns)).
Qed.

(** What a check finds, and leaves. *)
Lemma check_stale ns at_ : device ∉ ns -> check_removable card (Some device) (mounted_card false ns at_) = (mkCheck Missing false, bare ns at_).
Proof.
  intros Hn. unfold check_removable, and_then, done_with. destruct (observe_mounted false ns at_) as [d ->].
  rewrite bool_decide_eq_false_2 by done. cbn [judge mounted writable device_present]. unfold run_quiet, and_then, done_with.
  cbn [command_output machine_os mounted_card mount_table nodes recording_at]. rewrite (bool_decide_eq_true_2 (lit "umount" = lit "umount")) by done.
  change (default [] ([lit "-l"; mount_target card] !! 1%nat)) with (mount_target card). by rewrite detach_card.
Qed.
Lemma check_gone ns at_ : device ∉ ns -> check_removable card (Some device) (bare ns at_) = (mkCheck Missing false, bare ns at_).
Proof.
  intros Hn. unfold check_removable, and_then, done_with. rewrite observe_bare, bool_decide_eq_false_2 by done. reflexivity.
Qed.
Lemma check_inserted ns at_ : device ∈ ns -> check_removable card (Some device) (bare ns at_) = (mkCheck Present true, mounted_card true ns at_).
Proof.
  intros Hn. unfold check_removable, and_then, done_with. rewrite observe_bare, bool_decide_eq_true_2 by done.
  cbn [judge mounted writable device_present os_create_dir_all machine_os]. rewrite takes_writes_target.
  unfold run_quiet, and_then, done_with. cbn [command_output machine_os]. rewrite (bool_decide_eq_false_2 (lit "mount" = lit "umount")) by done.
  change (default [] ([device; mount_target card] !! 1%nat)) with (mount_target card). change (default [] (head [device; mount_target card])) with device.
  cbn [bare nodes mount_table recording_at]. rewrite (bool_decide_eq_true_2 _) by done. fold (mounted_card true ns at_).
  destruct (observe_mounted true ns at_) as [d ->]. rewrite bool_decide_eq_true_2 by done. reflexivity.
Qed.
Lemma check_steady ns at_ : device ∈ ns -> check_removable card (Some device) (mounted_card true ns at_) = (mkCheck Present false, mounted_card true ns at_).
Proof.
  intros Hn. unfold check_removable, and_then, done_with. destruct (observe_mounted true ns at_) as [d ->]. reflexivity.
Qed.
End slot.

(** ** The choices offered *)

Section listed.
Context {W : Type} `{!Os W} (config : StorageConfig) (mounts : list MountEntry).

Lemma describe_place_spec ms path kind b w : exists c w', describe_place ms path kind b w = (c, w') /\
  candidate_path c = path /\ candidate_kind c = kind /\ configured c = b.
Proof.
  unfold describe_place, and_then. match goal with |- context [(if ?b then ?x else ?y) w] => destruct ((if b then x else y) w) as [stats w'] end.
  by eexists _, w'.
Qed.

(** What [push_place] keeps true of what it has seen and listed. *)
Definition listed_ok (first : StorageCandidate) (st : list rstr * list StorageCandidate) : Prop :=
  st.1 = map (fun c => normalise (candidate_path c)) st.2 /\ NoDup st.1 /\
  exists rest, st.2 = first :: rest /\ Forall (fun c => configured c = configured_within config (candidate_path c)) rest.

Lemma push_ok path kind first st w : listed_ok first st -> let st' := (push_place config mounts path kind st.1 st.2 w).1 in
  listed_ok first st' /\ normalise path ∈ st'.1.
Proof.
  intros (Hs & Hnd & rest & Hl & Hc). unfold push_place, and_then, done_with. case_bool_decide as Hin.
  - cbn [fst snd]. split; [|done]. split_and!; [done..|]. by exists rest.
  - destruct (describe_place_spec mounts path kind (configured_within config path) w) as (c & w' & -> & Hp & _ & Hcc).
    cbn [fst snd]. split; [|set_solver]. unfold listed_ok. cbn [fst snd]. split_and!.
    + rewrite map_app, Hs. cbn [map]. by rewrite Hp.
    + apply NoDup_app. split_and!; [done| |apply NoDup_singleton]. intros x Hx ->%list_elem_of_singleton. done.
    + eexists (rest ++ [_]). rewrite Hl. split; [reflexivity|]. apply Forall_app. split; [done|]. constructor; [by rewrite Hp|done].
Qed.
Lemma push_mounts_ok entries first st w : listed_ok first st -> listed_ok first (push_mounts config mounts entries st.1 st.2 w).1.
Proof.
  revert st w. induction entries as [|e entries IH]; intros st w Hst; [by destruct st|]. cbn [push_mounts]. unfold and_then.
  match goal with |- context [push_place config mounts ?p ?k _ _ w] => pose proof (push_ok p k first st w Hst) as [H _]; destruct (push_place config mounts p k st.1 st.2 w) as [st' w'] end.
  by apply IH.
Qed.
Lemma push_dirs_ok dirs first st w : listed_ok first st -> listed_ok first (push_dirs config mounts dirs st.1 st.2 w).1.
Proof.
  revert st w. induction dirs as [|d dirs IH]; intros st w Hst; [by destruct st|]. cbn [push_dirs]. unfold and_then, done_with.
  destruct (metadata_ok d w) as [[] w1]; [|by apply (IH (st.1, st.2))].
  pose proof (push_ok d (lit "card") first st w1 Hst) as [H _]. destruct (push_place config mounts d _ st.1 st.2 w1) as [st' w']. by apply IH.
Qed.
End listed.

(** ** Properties *)

(** The choices the settings page offers are internal storage and then cards, each place once; and a configured card
    is among them, marked, even when it is not there. *)
Theorem candidates_spec {W : Type} `{!Os W} config w :
  let listed := (candidates config w).1 in
  NoDup (map (fun c => normalise (candidate_path c)) listed) /\
  (exists first rest, listed = first :: rest /\ candidate_path first = internal config /\ candidate_kind first = lit "internal" /\ configured first = false) /\
  match removable config with
  | None => Forall (fun c => configured c = false) listed
  | Some card => normalise card = normalise (internal config) \/ exists c, c ∈ listed /\ configured c = true /\ path_is_within card (candidate_path c) = true
  end.
Proof.
  cbv zeta. pattern ((candidates config w).1). match goal with |- ?Q _ => set (P := Q) end.
  unfold candidates. unfold and_then at 1. destruct (list_mounts w) as [mounts w1]. unfold and_then at 1.
  destruct (describe_place mounts (internal config) (lit "internal") false w1) as [first w2] eqn:Hd.
  assert (Hf : candidate_path first = internal config /\ candidate_kind first = lit "internal" /\ configured first = false).
  { destruct (describe_place_spec mounts (internal config) (lit "internal") false w1) as (c & w' & He & Hc). rewrite Hd in He. by injection He as -> _. }
  assert (H0 : listed_ok config first ([normalise (internal config)], [first])).
  { split_and!; [cbn; by rewrite (proj1 Hf)|apply NoDup_singleton|]. by exists []. }
  unfold and_then at 1. pose proof (push_mounts_ok config mounts (List.filter looks_removable mounts) first _ w2 H0) as H1. cbn [fst snd] in H1.
  destruct (push_mounts config mounts _ _ _ w2) as [st1 w3]. cbn [fst] in H1. unfold and_then at 1. destruct (card_device (card_hint config) w3) as [dev w4].
  unfold and_then at 1. assert (H2 : listed_ok config first ((match dev with Some _ => push_dirs config mounts KNOWN_CARD_DIRS st1.1 st1.2
    | None => done_with st1 end) w4).1) by (destruct dev; [by apply push_dirs_ok|done]).
  match goal with |- context [(match dev with Some _ => ?x | None => ?y end) w4] =>
    destruct ((match dev with Some _ => x | None => y end) w4) as [st2 w5] end. cbn [fst] in H2.
  assert (Hend : forall st, listed_ok config first st -> NoDup (map (fun c => normalise (candidate_path c)) st.2) /\
    (exists first rest, st.2 = first :: rest /\ candidate_path first = internal config /\ candidate_kind first = lit "internal" /\ configured first = false)).
  { intros st (Hs & Hnd & rest & Hl & _). rewrite <- Hs. split; [done|]. by exists first, rest. }
  assert (Hmark : forall st c, listed_ok config first st -> c ∈ st.2 -> normalise (candidate_path c) <> normalise (internal config) ->
    configured c = configured_within config (candidate_path c)).
  { intros st c (_ & _ & rest & Hl & Hc) Hin Hne. rewrite Hl in Hin. rewrite Forall_forall in Hc.
    apply elem_of_cons in Hin as [->|Hin]; [by rewrite (proj1 Hf) in Hne|by apply Hc]. }
  subst P. destruct (removable config) as [card|] eqn:Hr.
  - destruct (existsb configured st2.2) eqn:Hex; unfold done_with; cbn [fst]; cbv beta.
    + destruct (Hend _ H2) as [He1 He2]. split; [exact He1|]. split; [exact He2|]. right. apply existsb_exists in Hex as (c & Hin%list_elem_of_In & Hc). exists c. split_and!; [done..|].
      destruct (decide (normalise (candidate_path c) = normalise (internal config))) as [He|He].
      * destruct H2 as (Hs & Hnd & rest & Hl & Hcs). rewrite Hl in Hin. apply elem_of_cons in Hin as [->|Hin]; [by rewrite (proj2 (proj2 Hf)) in Hc|].
        rewrite Forall_forall in Hcs. specialize (Hcs _ Hin). rewrite Hc in Hcs. unfold configured_within in Hcs. by rewrite Hr in Hcs.
      * pose proof (Hmark _ _ H2 Hin He) as Hm. rewrite Hc in Hm. unfold configured_within in Hm. by rewrite Hr in Hm.
    + pose proof (push_ok config mounts card (lit "card") first st2 w5 H2) as [H3 Hin]. unfold and_then, done_with.
      destruct (push_place config mounts card _ st2.1 st2.2 w5) as [st3 w6]. cbn [fst] in *. destruct (Hend _ H3) as [He1 He2]. split; [exact He1|]. split; [exact He2|].
      destruct (decide (normalise card = normalise (internal config))) as [|Hne]; [by left|right].
      destruct H3 as (Hs & Hnd & Hrest). rewrite Hs in Hin. apply list_elem_of_fmap in Hin as (c & He & Hc). exists c. split; [done|].
      assert (Hw : path_is_within card (candidate_path c) = true).
      { unfold path_is_within, within. by rewrite He, (bool_decide_eq_true_2 _). }
      split; [|done]. rewrite (Hmark st3 c); [unfold configured_within; by rewrite Hr|by split|done|by rewrite <- He].
  - unfold done_with. cbn [fst]. cbv beta. destruct (Hend _ H2) as [He1 He2]. split; [exact He1|]. split; [exact He2|]. destruct H2 as (_ & _ & rest & -> & Hc). constructor; [tauto|].
    eapply Forall_impl; [exact Hc|]. cbn. intros c ->. unfold configured_within. by rewrite Hr.
Qed.

(** What a status says of itself agrees with itself. *)
Definition consistent (config : StorageConfig) (s : StorageStatus) : Prop :=
  internal_path s = internal config /\ removable_path s = removable config /\
  using_fallback s = bool_decide (is_Some (removable config)) && path_eqb (active_path s) (internal config).
Definition refused (s : StorageStatus) : Prop :=
  exists target e, last_event s = Some (lit "Could not move recordings to " ++ target ++ lit ": " ++ e).

(** Recordings follow the card.  Whatever the system answers, and however the card comes and goes between any
    two steps, after a turn of the monitor the status says what its check has found, and recordings go to
    the card exactly when that was a card that took a write, unless the move was refused: then the status
    names the place it named before, and says that the move failed.  Nothing is announced but a move, and what the
    status says of a fallback agrees with where recordings go, from the start on. *)
Theorem recordings_follow_card {W : Type} `{!Os W} config card :
  removable config = Some card -> path_eqb (internal config) card = false ->
  (forall active st w, consistent config (initial_status config active st w).1) /\
  forall status w, consistent config status ->
    match (monitor_turn config card status w).1 with
    | None => True
    | Some (status', sent) =>
        let found := check_state (check_removable card (card_hint config) w).1 in
        consistent config status' /\ removable_state status' = found /\
        ((path_eqb (active_path status') card = bool_decide (found = Present) /\
          (sent = [] /\ active_path status' = active_path status \/ exists event, sent = [event] /\ last_event status' = Some event)) \/
         (refused status' /\ active_path status' = active_path status /\ sent = []))
    end.
Proof.
  intros Hr Hne. split.
  { intros active st w. unfold initial_status, and_then, done_with. destruct (now w) as [t w']. done. }
  intros status w (Hi & Hp & Hu). unfold monitor_turn. unfold and_then at 1. destruct (check_removable card (card_hint config) w) as [check w1].
  cbn [fst]. destruct (decide_switch _ check _) as [want|] eqn:Hd.
  - assert (Hwant : want = bool_decide (check_state check = Present)) by (unfold decide_switch in Hd; destruct (_ && _) in Hd; congruence).
    assert (Htarget : exists target reason event w2, path_eqb target card = want /\
      ((if want then done_with (switch_to_card card)
        else let! disk := disk_stats (internal config) in done_with (switch_to_internal config (check_state check) disk)) w1) = ((target, reason, event), w2)).
    { destruct want; unfold and_then, done_with.
      - eexists _, _, _, w1. split; [|reflexivity]. by apply bool_decide_eq_true_2.
      - destruct (disk_stats _ w1) as [disk w2]. eexists _, _, _, w2. split; [|reflexivity]. done. }
    destruct Htarget as (target & reason & event & w2 & Hpath & Hask). unfold and_then at 1. rewrite Hask.
    unfold and_then, done_with. destruct (send_switch_store target reason w2) as [[[[]|e]|] w3]; [|cbn [fst]|done].
    + destruct (now w3) as [t w4]. cbn [fst status_with StorageStatus_new active_path internal_path removable_path using_fallback removable_state last_event].
      split_and!; try done. left. split; [by rewrite Hpath|]. right. by eexists.
    + cbn [status_with active_path internal_path removable_path using_fallback removable_state last_event]. split_and!; try done. right.
      split_and!; [|done|done]. by eexists target, e.
  - assert (Hq : path_eqb (active_path status) card = bool_decide (check_state check = Present)).
    { unfold decide_switch in Hd. destruct (_ && _) eqn:E in Hd; [|done]. apply andb_true_iff in E as [E _]. apply eqb_prop in E. done. }
    unfold done_with. cbn [fst]. destruct (bool_decide (check_state check = removable_state status)) eqn:Hs;
      [apply bool_decide_eq_true in Hs|]; (split; [done|]; split; [done|]); left; (split; [done|]); by left.
Qed.

(** A small machine: the root, and a card at a known place. *)
Definition root_mount : MountEntry := mkMount (lit "/dev/ubi0") (lit "/") (lit "ubifs").
Definition sample_config : StorageConfig := mkStorageConfig (lit "/data/rayhunter/qmdl") (Some (lit "/media/card/rayhunter")) (Some (lit "/dev/mmcblk0p1")).
Lemma recordings_follow_card_witness :
  path_eqb (internal sample_config) (lit "/media/card/rayhunter") = false /\
  consistent sample_config (initial_status sample_config (internal sample_config) Missing (mkMachine [(root_mount, true)] [] [])).1.
Proof.
  split; [by vm_compute|].
  exact (proj1 (recordings_follow_card (W := Machine) sample_config (lit "/media/card/rayhunter") eq_refl ltac:(by vm_compute)) _ _ _).
Defined.


(** A dead mount is detached only where the monitor would mount a card.  With recordings in a directory of a card
    that the system mounted elsewhere, the command names the directory, which is no mount: the dead mount stays,
    hides the card that is put back, and at every turn from then on recordings stay on internal storage. *)
Theorem stale_mount_stays n :
  let card := lit "/media/usb0/rayhunter" in
  let device := lit "/dev/sda1" in
  let config := mkStorageConfig (lit "/data/rayhunter/qmdl") (Some card) (Some device) in
  let status := mkStorageStatus card (internal config) (Some card) Present false None None in
  let machine := mkMachine [(root_mount, true); (mkMount device (lit "/media/usb0") (lit "vfat"), true)] [device] card in
  exists status1 status2 sent machine1,
    (monitor_turn config card status machine).1 = Some (status, []) /\
    monitor_turn config card status (pull device machine) = (Some (status1, sent), machine1) /\ removable_state status1 = Missing /\
    map fst (mount_table machine1) = map fst (mount_table machine) /\
    monitor_turn config card status1 (insert_card device machine1) = (Some (status2, []), insert_card device machine1) /\
    Nat.iter n (fun r => match r with (Some (s, _), m) => monitor_turn config card s m | r => r end) (Some (status2, []), insert_card device machine1)
      = (Some (status2, []), insert_card device machine1) /\
    recording_at machine1 = internal config /\ removable_state status2 = Unusable (lit "Input/output error").
Proof.
  intros card device config status machine. eexists _, _, _, _. split_and!.
  - vm_compute. reflexivity.
  - vm_compute. reflexivity.
  - reflexivity.
  - reflexivity.
  - vm_compute. reflexivity.
  - induction n as [|n IH]; [reflexivity|]. cbn [Nat.iter nat_rect]. unfold Nat.iter in IH. rewrite IH. vm_compute. reflexivity.
  - reflexivity.
  - reflexivity.
Qed.

(** Two spellings of internal storage pass for different places; there is then no card, what is recorded to is
    taken for it, and every turn asks for a move to where recordings already are, which closes the recording
    and begins another. *)
Theorem misspelt_internal_restarts n :
  let here := lit "/data/rayhunter/qmdl" in
  let card := lit "/data//rayhunter/qmdl" in
  let config := mkStorageConfig here (Some card) None in
  let machine := mkMachine [(root_mount, true)] [] here in
  let turn r := match r with (Some (s, sent), m) => match monitor_turn config card s m with
                                                    | (Some (s, more), m) => (Some (s, sent ++ more), m)
                                                    | (None, m) => (None, m) end | r => r end in
  validate_storage here (Some card) = Ok tt /\
  exists status events, Nat.iter n turn (Some ((initial_status config here Missing machine).1, []), machine) = (Some (status, events), machine) /\
    length events = n /\ active_path status = here.
Proof.
  intros here card config machine turn. split; [by vm_compute|].
  assert (Ht : forall s, active_path s = here -> removable_state s = Missing -> exists s' event, monitor_turn config card s machine = (Some (s', [event]), machine) /\
    active_path s' = here /\ removable_state s' = Missing).
  { intros s Ha Hs. unfold monitor_turn, and_then, done_with.
    assert (Hc : check_removable card (card_hint config) machine = (mkCheck Missing false, machine)) by (vm_compute; reflexivity).
    rewrite Hc. cbn [check_state]. rewrite Ha, Hs. assert (Hp : path_eqb here card = true) by (vm_compute; reflexivity). rewrite Hp.
    eexists _, _. split; [reflexivity|]. split; reflexivity. }
  assert (Hn : exists status events, Nat.iter n turn (Some ((initial_status config here Missing machine).1, []), machine) = (Some (status, events), machine) /\
    length events = n /\ active_path status = here /\ removable_state status = Missing).
  - induction n as [|n (s & events & IH & Hl & Ha & Hs)]; [by eexists _, _|]. cbn [Nat.iter nat_rect]. unfold Nat.iter in IH. rewrite IH. unfold turn.
    destruct (Ht s Ha Hs) as (s' & event & -> & Ha' & Hs'). exists s', (events ++ [event]). split_and!; try done. rewrite length_app. cbn. lia.
  - destruct Hn as (s & ev & H1 & H2 & H3 & _). by exists s, ev.
Qed.

(** A card that bounced is not recorded to again when the move fails: the monitor notes it as present, and finds
    from then on that nothing has changed. *)
Theorem bounced_card_forgotten {W : Type} `{!Os W} config card status (w w1 w2 : W) e :
  active_path status = card ->
  check_removable card (card_hint config) w = (mkCheck Present true, w1) ->
  send_switch_store card (lit "memory card returned") w1 = (Some (Err e), w2) ->
  exists status', monitor_turn config card status w = (Some (status', []), w2) /\
    forall w3 w4, check_removable card (card_hint config) w3 = (mkCheck Present false, w4) ->
      monitor_turn config card status' w3 = (Some (status', []), w4).
Proof.
  intros Ha Hc Hs. assert (Hp : path_eqb card card = true) by (by apply bool_decide_eq_true_2).
  exists (status_with status Present (Some (lit "Could not move recordings to " ++ card ++ lit ": " ++ e))). split.
  - unfold monitor_turn, and_then, done_with. rewrite Hc, Ha, Hp. unfold decide_switch. cbn [check_state remounted].
    rewrite (bool_decide_eq_true_2 (Present = Present)), orb_true_r by done. cbn [andb negb Bool.eqb switch_to_card]. by rewrite Hs.
  - intros w3 w4 Hc'. unfold monitor_turn, and_then, done_with. rewrite Hc'. cbn [status_with active_path removable_state check_state]. rewrite Ha, Hp. reflexivity.
Qed.
