(* ===== verification/Tls.v ===== *)
(** * The unit's certificates ([daemon/src/tls.rs])

    A unit makes itself a certificate authority, kept for its life, and a server certificate that is replaced when
    it is due.  Certificates, keys and signatures are other crates': the class [X509], with what is documented of
    reading back what was built.  The directory is a world whose operations may fail at any point, a write after
    any part of it; files have modes.  Times are seconds since the Unix epoch, the clock's reading is
    part of the world, and so are the draws from the system's randomness, of which there are finitely many before it fails. *)

From S2P Require Import Prelude RustStr.

Local Open Scope Z_scope.

Definition octal (a b c : Z) : Z := 64 * a + 8 * b + c.

Definition KEY_FILE : rstr := lit "tls.key".
Definition CERT_FILE : rstr := lit "tls.crt".
Definition CA_KEY_FILE : rstr := lit "ca.key".
Definition CA_CERT_FILE : rstr := lit "ca.crt".
Definition LEAF_DAYS : Z := 800.
Definition RENEW_BEFORE_DAYS : Z := 60.
Definition DAY : Z := 86400.
(** The beginning of 2025, [PLAUSIBLE_YEAR]. *)
Definition PLAUSIBLE_START : Z := 1735689600.

(** ** Certificates *)

Inductive GeneralName := DnsName (name : rstr) | IpAddress (octets : list Z) | OtherName.

(** What is read of a certificate; [alt_names] has an entry for each extension of that kind, [None] when its
    value cannot be read. *)
Record Cert := mkCert {
  issuer : rstr; subject : rstr; public_key : list Z; alt_names : list (option (list GeneralName)); not_before : Z; not_after : Z }.

Class X509 := {
  from_der : list Z -> option Cert;
  (** A secret key from its scalar, and as PKCS#8; its public half. *)
  secret_from_slice : list Z -> option (list Z);
  public_of : list Z -> option (list Z);
  (** A certificate with a serial number, signed by a key. *)
  build : Cert -> list Z -> list Z -> result rstr (list Z);
  (** [UtcTime::from_unix_duration]. *)
  utc_time : Z -> option Z;
  (** [IpAddr]'s text, from its octets. *)
  ip_text : list Z -> rstr;
  sha256 : list Z -> list Z;
  build_reads c serial key der : build c serial key = Ok der -> from_der der = Some c;
  secret_has_public seed key : secret_from_slice seed = Some key -> is_Some (public_of key);
  utc_exact t t' : utc_time t = Some t' -> t' = t
}.

Inductive TlsError := Tls_Io (path : rstr) | Tls_Certificate (text : rstr).

Record TlsIdentity := mkIdentity { ca_cert_der : list Z; ca_key_der : list Z; cert_der : list Z; key_der : list Z }.

(** [format!("{b:02X}")] of the bytes, and between them colons. *)
Definition upper_hex (b : Z) : rstr :=
  let digit d := if d <? 10 then 48 + d else 55 + d in [digit (b / 16); digit (b mod 16)].
Definition hex_colon (bytes : list Z) : rstr := join (lit ":") (map upper_hex bytes).

(** ** The directory *)

Inductive fault := Works | Fails (written : nat).
Record TlsWorld := mkTlsWorld {
  disk : gmap rstr (list Z * Z); dir_mode : option Z; faults : list fault; draws : list (option (list Z)); clock : Z }.

Definition TM (A : Type) : Type := TlsWorld -> result TlsError A * TlsWorld.
Definition tret {A : Type} (a : A) : TM A := fun w => (Ok a, w).
Definition terr {A : Type} (e : TlsError) : TM A := fun w => (Err e, w).
Definition tbind {A B : Type} (m : TM A) (f : A -> TM B) : TM B := fun w => match m w with (Ok a, w) => f a w | (Err e, w) => (Err e, w) end.
Declare Scope tls_scope.
Notation "'let*' x := m 'in' k" := (tbind m (fun x => k)) (at level 10, x pattern, m at level 100, k at level 200) : tls_scope.
Local Open Scope tls_scope.

Definition set_disk (w : TlsWorld) (d : gmap rstr (list Z * Z)) : TlsWorld := mkTlsWorld d (dir_mode w) (faults w) (draws w) (clock w).
Definition next_fault (w : TlsWorld) : fault * TlsWorld :=
  match faults w with
  | [] => (Works, w)
  | f :: fs => (f, mkTlsWorld (disk w) (dir_mode w) fs (draws w) (clock w))
  end.
(** An operation of the system: [effect] when it works, [partial] when it fails. *)
Definition sys (path : rstr) (effect : TlsWorld -> TlsWorld) (partial : nat -> TlsWorld -> TlsWorld) : TM unit := fun w =>
  match next_fault w with
  | (Works, w) => (Ok tt, effect w)
  | (Fails n, w) => (Err (Tls_Io path), partial n w)
  end.
Definition untouched (n : nat) (w : TlsWorld) : TlsWorld := w.

(** The mode is that of a file that is created; one that is there keeps its own. *)
Definition open_truncated (path : rstr) (mode : Z) : TM unit :=
  sys path (fun w => set_disk w (<[path := ([], match disk w !! path with Some (_, m) => m | None => mode end)]> (disk w))) untouched.
Definition write_all (path : rstr) (bytes : list Z) : TM unit :=
  let put b w := set_disk w (alter (fun '(_, m) => (b, m)) path (disk w)) in
  sys path (put bytes) (fun n => put (take n bytes)).
Definition sync_all (path : rstr) : TM unit := sys path (fun w => w) untouched.
Definition rename (from to : rstr) : TM unit :=
  sys to (fun w => match disk w !! from with Some f => set_disk w (<[to := f]> (delete from (disk w))) | None => w end) untouched.

(** [path.with_extension("tmp")], of names with one extension. *)
Definition with_tmp (path : rstr) : rstr := default path (head (split_on 46 path)) ++ lit ".tmp".

Definition write_atomic (path : rstr) (bytes : list Z) (mode : Z) : TM unit :=
  let tmp := with_tmp path in
  let* _ := open_truncated tmp mode in
  let* _ := write_all tmp bytes in
  let* _ := sync_all tmp in
  rename tmp path.

(** [tokio::fs::read]: [None] for a file that is not there. *)
Inductive ReadResult := Read_Ok (bytes : list Z) | Read_NotFound | Read_Failed.
Definition read_file (path : rstr) : TlsWorld -> ReadResult * TlsWorld := fun w =>
  match next_fault w with
  | (Works, w) => (match disk w !! path with Some (b, _) => Read_Ok b | None => Read_NotFound end, w)
  | (Fails _, w) => (Read_Failed, w)
  end.

Definition create_dir : TM unit :=
  sys [] (fun w => mkTlsWorld (disk w) (Some (default (octal 7 0 0) (dir_mode w))) (faults w) (draws w) (clock w)) untouched.
Definition set_dir_mode : TM unit := sys [] (fun w => mkTlsWorld (disk w) (Some (octal 7 0 0)) (faults w) (draws w) (clock w)) untouched.

(** [random_bytes]. *)
Definition random_bytes : TM (list Z) := fun w =>
  let rest := mkTlsWorld (disk w) (dir_mode w) (faults w) (tl (draws w)) (clock w) in
  match draws w with
  | Some bytes :: _ => (Ok bytes, rest)
  | _ => (Err (Tls_Certificate (lit "no randomness")), rest)
  end.
Definition plausible_now (w : TlsWorld) : option Z := if PLAUSIBLE_START <=? clock w then Some (clock w) else None.

Section tls.
Context {X : X509}.

(** ** Making certificates *)

Definition fingerprint_hex (i : TlsIdentity) : rstr := hex_colon (sha256 (cert_der i)).

(** The loop over draws until one is in range. *)
Fixpoint new_key_from (ds : list (option (list Z))) : result TlsError (list Z) * list (option (list Z)) :=
  match ds with
  | [] => (Err (Tls_Certificate (lit "no randomness")), [])
  | None :: ds => (Err (Tls_Certificate (lit "no randomness")), ds)
  | Some seed :: ds => match secret_from_slice seed with Some key => (Ok key, ds) | None => new_key_from ds end
  end.
Definition new_key : TM (list Z) := fun w =>
  let '(r, ds) := new_key_from (draws w) in (r, mkTlsWorld (disk w) (dir_mode w) (faults w) ds (clock w)).

Definition random_serial : TM (list Z) :=
  let* serial := random_bytes in
  tret match serial with b :: rest => Z.land b 0x7f :: rest | [] => [] end.

Definition utc (t : Z) : TM Z := match utc_time (Z.max t 0) with Some t => tret t | None => terr (Tls_Certificate (lit "date")) end.
Definition certified (r : result rstr (list Z)) : TM (list Z) := match r with Ok der => tret der | Err e => terr (Tls_Certificate e) end.
Definition public_half (key : list Z) : TM (list Z) := match public_of key with Some p => tret p | None => terr (Tls_Certificate (lit "key")) end.

(** 2020-01-01 00:00:00 and 2049-12-31 23:59:59. *)
Definition CA_START : Z := 1577836800.
Definition CA_END : Z := 2524607999.

Definition generate_ca : TM (list Z * list Z) :=
  let* key := new_key in
  let* tag := random_bytes in
  let name := lit "CN=Rayhunter " ++ flat_map upper_hex tag in
  let* public := public_half key in
  let* before := utc CA_START in
  let* after := utc CA_END in
  let* serial := random_serial in
  let* der := certified (build (mkCert name name public [] before after) serial key) in
  tret (der, key).

Definition leaf_start (now : option Z) : Z := match now with Some n => n - DAY | None => PLAUSIBLE_START end.
Definition leaf_names (addresses : list (list Z)) : list GeneralName := DnsName (lit "rayhunter.local") :: map IpAddress addresses.

Definition issue_leaf (ca_cert ca_key : list Z) (addresses : list (list Z)) (now : option Z) : TM (list Z * list Z) :=
  match from_der ca_cert with
  | None => terr (Tls_Certificate (lit "authority"))
  | Some ca =>
      let* _ := public_half ca_key in
      let* key := new_key in
      let start := leaf_start now in
      let* before := utc start in
      let* after := utc (start + LEAF_DAYS * DAY) in
      let* public := public_half key in
      let* serial := random_serial in
      let* der := certified (build (mkCert (subject ca) (lit "CN=Rayhunter") public [Some (leaf_names addresses)] before after) serial ca_key) in
      tret (der, key)
  end.

(** ** Judging them *)

Definition name_text (n : GeneralName) : list rstr :=
  match n with
  | DnsName dns => [lit "DNS:" ++ dns]
  | IpAddress octets => if ((length octets =? 4) || (length octets =? 16))%nat then [lit "IP:" ++ ip_text octets] else []
  | OtherName => []
  end.
(** The first extension that cannot be read is an error. *)
Fixpoint extension_names (exts : list (option (list GeneralName))) : option (list rstr) :=
  match exts with
  | [] => Some []
  | None :: _ => None
  | Some names :: exts => more ← extension_names exts; Some (flat_map name_text names ++ more)
  end.
Definition subject_alt_names (cert : list Z) : option (list rstr) := c ← from_der cert; extension_names (alt_names c).
Definition validity_of (cert : list Z) : option (Z * Z) := c ← from_der cert; Some (not_before c, not_after c).

Definition leaf_needs_reissue (cert ca_cert : list Z) (addresses : list (list Z)) (now : option Z) : option rstr :=
  match from_der cert, from_der ca_cert with
  | None, _ => Some (lit "it does not parse")
  | _, None => Some (lit "the authority does not parse")
  | Some c, Some ca =>
      if negb (bool_decide (issuer c = subject ca)) then Some (lit "it was not issued by this authority")
      else
        let sans := default [] (subject_alt_names cert) in
        if existsb (fun ip => negb (bool_decide (lit "IP:" ++ ip_text ip ∈ sans))) addresses then Some (lit "an address is missing from it")
        else match now, validity_of cert with
             | Some n, Some (before, after) =>
                 if n <? before then Some (lit "it is not valid yet by the clock")
                 else if after <? n + RENEW_BEFORE_DAYS * DAY then Some (lit "it is near its end") else None
             | _, _ => None
             end
  end.

Definition check_pair (cert key : list Z) : bool :=
  match from_der cert, public_of key with
  | Some c, Some p => bool_decide (p = public_key c)
  | _, _ => false
  end.

Definition read_pair (cert_path key_path : rstr) : TM (option (list Z * list Z)) := fun w =>
  let '(c, w) := read_file cert_path w in
  let '(k, w) := read_file key_path w in
  match c, k with
  | Read_Ok cert, Read_Ok key => (Ok (if check_pair cert key then Some (cert, key) else None), w)
  | Read_NotFound, _ | _, Read_NotFound => (Ok None, w)
  | Read_Failed, _ => (Err (Tls_Io cert_path), w)
  | _, Read_Failed => (Err (Tls_Io key_path), w)
  end.

(** ** The identity *)

Definition store_pair (cert_path key_path : rstr) (pair : list Z * list Z) : TM unit :=
  let* _ := write_atomic key_path pair.2 (octal 6 0 0) in write_atomic cert_path pair.1 (octal 6 4 4).

Definition load_or_generate (addresses : list (list Z)) : TM TlsIdentity :=
  let* _ := create_dir in
  let* _ := set_dir_mode in
  let* stored := read_pair CA_CERT_FILE CA_KEY_FILE in
  let* ca := match stored with
             | Some p => tret p
             | None => let* made := generate_ca in let* _ := store_pair CA_CERT_FILE CA_KEY_FILE made in tret made
             end in
  let* now := (fun w => (Ok (plausible_now w), w)) in
  let* leaf := read_pair CERT_FILE KEY_FILE in
  let usable := p ← leaf; match leaf_needs_reissue p.1 ca.1 addresses now with None => Some p | Some _ => None end in
  let* made := match usable with
               | Some p => tret p
               | None => let* made := issue_leaf ca.1 ca.2 addresses now in let* _ := store_pair CERT_FILE KEY_FILE made in tret made
               end in
  tret (mkIdentity ca.1 ca.2 made.1 made.2).

(** ** The certificate in service *)

(** [TlsRenewer], its resolver being what it serves; [load_private_key] of the crypto provider is [loadable]. *)
Record TlsRenewer := mkRenewer { addresses : list (list Z); identity : TlsIdentity; served : list Z * list Z * list Z; leaf_fingerprint : rstr }.
Definition certified_key (loadable : list Z -> bool) (i : TlsIdentity) : option (list Z * list Z * list Z) :=
  if loadable (key_der i) then Some (cert_der i, ca_cert_der i, key_der i) else None.
Definition TlsRenewer_new (loadable : list Z -> bool) (addresses : list (list Z)) (i : TlsIdentity) : option TlsRenewer :=
  s ← certified_key loadable i; Some (mkRenewer addresses i s (fingerprint_hex i)).

Definition renew (loadable : list Z -> bool) (r : TlsRenewer) (w : TlsWorld) : (bool * TlsRenewer) * TlsWorld :=
  let now := plausible_now w in
  match leaf_needs_reissue (cert_der (identity r)) (ca_cert_der (identity r)) (addresses r) now with
  | None => ((false, r), w)
  | Some _ =>
      match issue_leaf (ca_cert_der (identity r)) (ca_key_der (identity r)) (addresses r) now w with
      | (Err _, w) => ((false, r), w)
      | (Ok issued, w) =>
          match write_atomic KEY_FILE issued.2 (octal 6 0 0) w with
          | (Err _, w) => ((false, r), w)
          | (Ok _, w) =>
              match write_atomic CERT_FILE issued.1 (octal 6 4 4) w with
              | (Err _, w) => ((false, r), w)
              | (Ok _, w) =>
                  let i := mkIdentity (ca_cert_der (identity r)) (ca_key_der (identity r)) issued.1 issued.2 in
                  match certified_key loadable i with
                  | Some s => ((true, mkRenewer (addresses r) i s (fingerprint_hex i)), w)
                  | None => ((false, mkRenewer (addresses r) i (served r) (leaf_fingerprint r)), w)
                  end
              end
          end
      end
  end.
End tls.

(** ** What the operations leave *)

(** The same but for the faults to come. *)
Definition alike (w w' : TlsWorld) : Prop := disk w' = disk w /\ dir_mode w' = dir_mode w /\ draws w' = draws w /\ clock w' = clock w.

Lemma next_fault_alike w f w' : next_fault w = (f, w') -> alike w w'.
Proof. unfold next_fault. destruct (faults w); by intros [= <- <-]. Qed.
Lemma sys_cases path effect partial w r w' : sys path effect partial w = (r, w') ->
  exists w0, alike w w0 /\ ((r = Ok tt /\ w' = effect w0) \/ exists n, r = Err (Tls_Io path) /\ w' = partial n w0).
Proof.
  unfold sys. destruct (next_fault w) as [f w0] eqn:Hf. apply next_fault_alike in Hf.
  destruct f as [|n]; intros [= <- <-]; exists w0; (split; [done|]); [by left|right; by exists n].
Qed.

(** Only a file's temporary name and, when all went well, its own are touched. *)
Lemma write_atomic_cases path bytes mode w r w' : path <> with_tmp path -> write_atomic path bytes mode w = (r, w') ->
  dir_mode w' = dir_mode w /\ draws w' = draws w /\ clock w' = clock w /\
  (forall p, p <> path -> p <> with_tmp path -> disk w' !! p = disk w !! p) /\
  match r with
  | Ok _ => disk w' !! path = Some (bytes, match disk w !! with_tmp path with Some (_, m) => m | None => mode end) /\ disk w' !! with_tmp path = None
  | Err _ => disk w' !! path = disk w !! path
  end.
Proof.
  intros Hne. set (tmp := with_tmp path) in *. unfold write_atomic, tbind. fold tmp. unfold open_truncated at 1.
  destruct (sys tmp _ untouched w) as [r1 w1] eqn:H1. apply sys_cases in H1 as (w0 & (D0 & M0 & R0 & C0) & [[-> ->]|(n & -> & ->)]).
  2: { intros [= <- <-]. unfold untouched. by rewrite D0, M0, R0, C0. }
  unfold write_all at 1. match goal with |- context [sys tmp ?e ?p ?w] => destruct (sys tmp e p w) as [r2 w2] eqn:H2 end.
  apply sys_cases in H2 as (w3 & (D3 & M3 & R3 & C3) & [[-> ->]|(n & -> & ->)]); cbn [set_disk disk dir_mode draws clock] in D3, M3, R3, C3.
  2: { intros [= <- <-]. cbn [set_disk disk dir_mode draws clock]. rewrite M3, R3, C3, M0, R0, C0, D3, D0. split_and!; try done.
       - intros p Hp Hpt. by rewrite lookup_alter_ne, lookup_insert_ne by done.
       - by rewrite lookup_alter_ne, lookup_insert_ne by done. }
  unfold sync_all at 1. match goal with |- context [sys tmp ?e ?p ?w] => destruct (sys tmp e p w) as [r4 w4] eqn:H4 end.
  apply sys_cases in H4 as (w5 & (D5 & M5 & R5 & C5) & [[-> ->]|(n & -> & ->)]); cbn [set_disk disk dir_mode draws clock] in D5, M5, R5, C5.
  2: { intros [= <- <-]. unfold untouched. rewrite M5, R5, C5, M3, R3, C3, M0, R0, C0, D5, D3, D0. split_and!; try done.
       - intros p Hp Hpt. by rewrite lookup_alter_ne, lookup_insert_ne by done.
       - by rewrite lookup_alter_ne, lookup_insert_ne by done. }
  unfold rename at 1. intros H6. apply sys_cases in H6 as (w7 & (D7 & M7 & R7 & C7) & [[-> ->]|(n & -> & ->)]).
  - rewrite D7, D5, D3, D0. rewrite lookup_alter_eq, lookup_insert_eq. cbn [fmap option_fmap option_map set_disk disk dir_mode draws clock].
    rewrite M7, R7, C7, M5, R5, C5, M3, R3, C3, M0, R0, C0. split_and!; try done.
    + intros p Hp Hpt. by rewrite lookup_insert_ne, lookup_delete_ne, lookup_alter_ne, lookup_insert_ne by done.
    + by rewrite lookup_insert_eq.
    + by rewrite lookup_insert_ne, lookup_delete_eq by done.
  - unfold untouched. rewrite M7, R7, C7, M5, R5, C5, M3, R3, C3, M0, R0, C0, D7, D5, D3, D0. split_and!; try done.
    + intros p Hp Hpt. by rewrite lookup_alter_ne, lookup_insert_ne by done.
    + by rewrite lookup_alter_ne, lookup_insert_ne by done.
Qed.

Section facts.
Context {X : X509}.

(** What the directory says of a pair. *)
Definition stored_pair (w : TlsWorld) (cert_path key_path : rstr) : option (list Z * list Z) :=
  match disk w !! cert_path, disk w !! key_path with
  | Some (c, _), Some (k, _) => if check_pair c k then Some (c, k) else None
  | _, _ => None
  end.
Abbreviation stored_ca w := (stored_pair w CA_CERT_FILE CA_KEY_FILE).
Abbreviation stored_leaf w := (stored_pair w CERT_FILE KEY_FILE).

Lemma read_pair_spec c k w r w' : read_pair c k w = (r, w') -> alike w w' /\ match r with Ok o => o = stored_pair w c k | Err _ => True end /\
  (faults w = [] -> faults w' = [] /\ is_ok r = true).
Proof.
  unfold read_pair, read_file, stored_pair. destruct (next_fault w) as [f1 w1] eqn:H1. pose proof (next_fault_alike _ _ _ H1) as (D1 & M1 & R1 & C1).
  destruct (next_fault w1) as [f2 w2] eqn:H2. pose proof (next_fault_alike _ _ _ H2) as (D2 & M2 & R2 & C2).
  assert (Ha : alike w w2) by (unfold alike; by rewrite D2, D1, M2, M1, R2, R1, C2, C1).
  assert (Hf : faults w = [] -> f1 = Works /\ f2 = Works /\ faults w2 = []).
  { intros Hf. unfold next_fault in H1. rewrite Hf in H1. injection H1 as <- <-. unfold next_fault in H2. rewrite Hf in H2. by injection H2 as <- <-. }
  destruct f1 as [|n1].
  - rewrite H2. destruct f2 as [|n2].
    + rewrite D2, !D1. destruct (disk w !! c) as [[b1 m1]|], (disk w !! k) as [[b2 m2]|]; intros [= <- <-]; split_and!; try done; intros Hw; destruct (Hf Hw) as (Hx & Hy & Hz); first [by rewrite Hz | congruence].
    + rewrite D1. destruct (disk w !! c) as [[b1 m1]|]; intros [= <- <-]; split_and!; try done; intros Hw; destruct (Hf Hw) as (Hx & Hy & Hz); first [by rewrite Hz | congruence].
  - rewrite H2. destruct f2 as [|n2].
    + rewrite D2, D1. destruct (disk w !! k) as [[b2 m2]|] eqn:E; intros [= <- <-]; split_and!; try done; try (intros Hw; destruct (Hf Hw) as (Hx & Hy & Hz); first [by rewrite Hz | congruence]).
      by destruct (disk w !! c) as [[? ?]|].
    + intros [= <- <-]. split_and!; try done. intros Hw; destruct (Hf Hw) as (Hx & Hy & Hz); first [by rewrite Hz | congruence].
Qed.

Record paths_ok (cert_path key_path : rstr) : Prop := {
  same_tmp : with_tmp cert_path = with_tmp key_path; two_files : cert_path <> key_path;
  cert_not_tmp : cert_path <> with_tmp cert_path; key_not_tmp : key_path <> with_tmp key_path }.
Lemma ca_paths : paths_ok CA_CERT_FILE CA_KEY_FILE.
Proof. split; vm_compute; congruence. Qed.
Lemma leaf_paths : paths_ok CERT_FILE KEY_FILE.
Proof. split; vm_compute; congruence. Qed.

Lemma store_pair_spec cert_path key_path pair w r w' : paths_ok cert_path key_path -> store_pair cert_path key_path pair w = (r, w') ->
  dir_mode w' = dir_mode w /\ draws w' = draws w /\ clock w' = clock w /\
  (forall p, p <> cert_path -> p <> key_path -> p <> with_tmp key_path -> disk w' !! p = disk w !! p) /\
  match r with
  | Ok _ => exists m m', disk w' !! cert_path = Some (pair.1, m) /\ disk w' !! key_path = Some (pair.2, m')
  | Err _ => True
  end.
Proof.
  intros [Ht H2 Hc Hk]. unfold store_pair, tbind. destruct (write_atomic key_path pair.2 _ w) as [r1 w1] eqn:H1.
  apply write_atomic_cases in H1 as (M1 & R1 & C1 & D1 & E1); [|done]. destruct r1 as [[]|e].
  - intros H3. apply write_atomic_cases in H3 as (M3 & R3 & C3 & D3 & E3); [|done]. rewrite M3, R3, C3, M1, R1, C1. split_and!; try done.
    + intros p Hp Hq Hpt. rewrite D3 by (by rewrite ?Ht). by apply D1.
    + destruct r as [[]|e']; [|done]. destruct E3 as [E3 _], E1 as [E1 _]. eexists _, _. split; [exact E3|].
      rewrite D3 by (by rewrite ?Ht). exact E1.
  - intros [= <- <-]. split_and!; try done. intros p Hp Hq Hpt. by apply D1.
Qed.

(** ** What is made *)

Lemma new_key_spec ds r ds' : new_key_from ds = (r, ds') -> match r with Ok key => exists seed, secret_from_slice seed = Some key | Err _ => True end.
Proof.
  revert r ds'. induction ds as [|[seed|] ds IH]; intros r ds'; cbn [new_key_from]; [by intros [= <- _]| |by intros [= <- _]].
  destruct (secret_from_slice seed) as [key|] eqn:Hs; [intros [= <- _]; by exists seed|apply IH].
Qed.

(** Steps that make things leave the directory and the clock as they are. *)
Definition makes {A : Type} (m : TM A) (good : A -> Prop) : Prop := forall w r w', m w = (r, w') ->
  disk w' = disk w /\ dir_mode w' = dir_mode w /\ clock w' = clock w /\ match r with Ok a => good a | Err _ => True end.
Lemma makes_bind {A B : Type} (m : TM A) (f : A -> TM B) good1 good2 :
  makes m good1 -> (forall a, good1 a -> makes (f a) good2) -> makes (tbind m f) good2.
Proof.
  intros Hm Hf w r w'. unfold tbind. destruct (m w) as [[a|e] w1] eqn:H1; apply Hm in H1 as (D1 & M1 & C1 & G1).
  - intros H2. apply (Hf a G1) in H2 as (D2 & M2 & C2 & G2). by rewrite D2, M2, C2, D1, M1, C1.
  - intros [= <- <-]. by rewrite D1, M1, C1.
Qed.
Lemma makes_ret {A : Type} (a : A) (good : A -> Prop) : good a -> makes (tret a) good.
Proof. intros Hg w r w' [= <- <-]. done. Qed.
Lemma makes_err {A : Type} (e : TlsError) (good : A -> Prop) : makes (terr e) good.
Proof. intros w r w' [= <- <-]. done. Qed.
Lemma makes_key : makes new_key (fun key => exists seed, secret_from_slice seed = Some key).
Proof.
  intros w r w'. unfold new_key. destruct (new_key_from (draws w)) as [r1 ds] eqn:H. intros [= <- <-]. apply new_key_spec in H. done.
Qed.
Lemma makes_random : makes random_bytes (fun _ => True).
Proof. intros w r w'. unfold random_bytes. destruct (draws w) as [|[b|] ds]; intros [= <- <-]; by split_and!. Qed.
Lemma makes_utc t : makes (utc t) (fun t' => t' = Z.max t 0).
Proof. unfold utc. destruct (utc_time _) as [t'|] eqn:H; [apply makes_ret; by apply utc_exact|apply makes_err]. Qed.
Lemma makes_public key : makes (public_half key) (fun p => public_of key = Some p).
Proof. unfold public_half. destruct (public_of key) as [p|]; [by apply makes_ret|apply makes_err]. Qed.
Lemma makes_serial : makes random_serial (fun _ => True).
Proof. eapply makes_bind; [apply makes_random|]. intros a _. by apply makes_ret. Qed.
Lemma makes_built c serial key : makes (certified (build c serial key)) (fun der => from_der der = Some c).
Proof. destruct (build c serial key) as [der|e] eqn:H; [apply makes_ret; by eapply build_reads|apply makes_err]. Qed.

Lemma pair_checks der key c p : from_der der = Some c -> public_of key = Some p -> public_key c = p -> check_pair der key = true.
Proof. intros Hd Hp Hc. unfold check_pair. rewrite Hd, Hp. by apply bool_decide_eq_true_2. Qed.

Lemma makes_ca : makes generate_ca (fun pair => check_pair pair.1 pair.2 = true).
Proof.
  eapply makes_bind; [apply makes_key|]. intros key _. eapply makes_bind; [apply makes_random|]. intros tag _.
  eapply makes_bind; [apply makes_public|]. intros public Hp. eapply makes_bind; [apply makes_utc|]. intros before _.
  eapply makes_bind; [apply makes_utc|]. intros after _. eapply makes_bind; [apply makes_serial|]. intros serial _.
  eapply makes_bind; [apply makes_built|]. intros der Hd. apply makes_ret. exact (pair_checks _ _ _ _ Hd Hp eq_refl).
Qed.

(** Octets of an address. *)
Definition address_ok (octets : list Z) : Prop := length octets = 4%nat \/ length octets = 16%nat.
Definition plausible (now : option Z) : Prop := match now with Some n => PLAUSIBLE_START <= n | None => True end.

Lemma leaf_fresh c der ca_cert ca addresses now : from_der ca_cert = Some ca -> from_der der = Some c -> issuer c = subject ca ->
  alt_names c = [Some (leaf_names addresses)] -> Forall address_ok addresses -> plausible now ->
  not_before c = Z.max (leaf_start now) 0 -> not_after c = Z.max (leaf_start now + LEAF_DAYS * DAY) 0 ->
  leaf_needs_reissue der ca_cert addresses now = None.
Proof.
  intros Hca Hd Hi Hn Hok Hpl Hb Ha. unfold leaf_needs_reissue. rewrite Hd, Hca, Hi, bool_decide_eq_true_2 by done. cbn [negb].
  destruct (existsb _ addresses) eqn:Hex.
  - exfalso. apply existsb_exists in Hex as (ip & Hin & Hb'). apply negb_true_iff, bool_decide_eq_false in Hb'. apply Hb'.
    unfold subject_alt_names. rewrite Hd. cbn [mbind option_bind]. rewrite Hn. cbn [extension_names mbind option_bind from_option]. rewrite app_nil_r.
    unfold leaf_names. cbn [flat_map]. apply elem_of_app. right. apply list_elem_of_In, in_flat_map. exists (IpAddress ip). split; [by apply in_map|].
    rewrite Forall_forall in Hok. assert (Hl : address_ok ip) by (apply Hok; by apply list_elem_of_In). cbn [name_text].
    destruct Hl as [-> | ->]; by left.
  - destruct now as [n|]; [|done]. unfold validity_of. rewrite Hd. cbn [mbind option_bind]. rewrite Hb, Ha. cbn [leaf_start plausible] in *.
    unfold PLAUSIBLE_START, DAY, LEAF_DAYS, RENEW_BEFORE_DAYS in *.
    rewrite (proj2 (Z.ltb_ge _ _)) by lia. by rewrite (proj2 (Z.ltb_ge _ _)) by lia.
Qed.
Lemma makes_leaf ca_cert ca_key addresses now : Forall address_ok addresses -> plausible now ->
  makes (issue_leaf ca_cert ca_key addresses now)
    (fun pair => check_pair pair.1 pair.2 = true /\ leaf_needs_reissue pair.1 ca_cert addresses now = None /\ exists seed, secret_from_slice seed = Some pair.2).
Proof.
  intros Hok Hpl. unfold issue_leaf. destruct (from_der ca_cert) as [ca|] eqn:Hca; [|apply makes_err].
  eapply makes_bind; [apply makes_public|]. intros _ _. eapply makes_bind; [apply makes_key|]. intros key Hkey.
  eapply makes_bind; [apply makes_utc|]. intros before Hb. eapply makes_bind; [apply makes_utc|]. intros after Ha.
  eapply makes_bind; [apply makes_public|]. intros public Hp. eapply makes_bind; [apply makes_serial|]. intros serial _.
  eapply makes_bind; [apply makes_built|]. intros der Hd. apply makes_ret. split_and!; [exact (pair_checks _ _ _ _ Hd Hp eq_refl)| |done].
  exact (leaf_fresh _ _ _ _ _ _ Hca Hd eq_refl eq_refl Hok Hpl Hb Ha).
Qed.

Lemma stored_pair_ext w w' c k : disk w' !! c = disk w !! c -> disk w' !! k = disk w !! k -> stored_pair w' c k = stored_pair w c k.
Proof. unfold stored_pair. by intros -> ->. Qed.
Lemma stored_alike w w' c k : disk w' = disk w -> stored_pair w' c k = stored_pair w c k.
Proof. intros H. apply stored_pair_ext; by rewrite H. Qed.
Lemma stored_keep w w' c k p : disk w' = disk w -> stored_pair w c k = Some p -> stored_pair w' c k = Some p.
Proof. intros H. by rewrite (stored_alike w w'). Qed.
Lemma stored_store c k m m' p w : disk w !! c = Some (p.1, m) -> disk w !! k = Some (p.2, m') -> check_pair p.1 p.2 = true -> stored_pair w c k = Some p.
Proof. unfold stored_pair. intros -> -> ->. by destruct p. Qed.
Lemma plausible_clock w : plausible (plausible_now w).
Proof. unfold plausible_now. case_match eqn:E; [|done]. apply Z.leb_le in E. done. Qed.

Lemma tbind_cases {A B : Type} (m : TM A) (f : A -> TM B) w r w' : tbind m f w = (r, w') ->
  exists r1 w1, m w = (r1, w1) /\ match r1 with Ok a => f a w1 = (r, w') | Err e => r = Err e /\ w' = w1 end.
Proof. unfold tbind. destruct (m w) as [[a|e] w1]; [by exists (Ok a), w1|]. intros [= <- <-]. by exists (Err e), w1. Qed.

(** Getting the authority. *)
Lemma ca_phase w r w' :
  (match stored_ca w with
   | Some p => tret p
   | None => let* made := generate_ca in let* _ := store_pair CA_CERT_FILE CA_KEY_FILE made in tret made
   end) w = (r, w') ->
  dir_mode w' = dir_mode w /\ clock w' = clock w /\ (forall p, stored_ca w = Some p -> stored_ca w' = Some p) /\
  match r with Ok p => stored_ca w' = Some p | Err _ => True end.
Proof.
  destruct (stored_ca w) as [p0|] eqn:Hs; [intros [= <- <-]; split_and!; try done; by intros p [= <-]|].
  unfold tbind, tret. destruct (generate_ca w) as [r1 w1] eqn:H1. apply makes_ca in H1 as (D1 & M1 & C1 & G1).
  destruct r1 as [p|e]; [|by intros [= <- <-]; split_and!].
  destruct (store_pair _ _ p w1) as [r2 w2] eqn:H2. apply store_pair_spec in H2 as (M2 & R2 & C2 & D2 & E2); [|apply ca_paths].
  destruct r2 as [[]|e]; intros [= <- <-]; rewrite M2, C2, M1, C1; split_and!; try done.
  destruct E2 as (m & m' & Ec & Ek). by eapply stored_store.
Qed.

(** Getting the server certificate. *)
Lemma leaf_phase ca addresses now w r w' : Forall address_ok addresses -> plausible now ->
  (match (p ← stored_leaf w; match leaf_needs_reissue p.1 ca.1 addresses now with None => Some p | Some _ => None end) with
   | Some p => tret p
   | None => let* made := issue_leaf ca.1 ca.2 addresses now in let* _ := store_pair CERT_FILE KEY_FILE made in tret made
   end) w = (r, w') ->
  dir_mode w' = dir_mode w /\ clock w' = clock w /\ stored_ca w' = stored_ca w /\
  match r with Ok p => stored_leaf w' = Some p /\ leaf_needs_reissue p.1 ca.1 addresses now = None | Err _ => True end.
Proof.
  intros Hok Hpl. destruct (p ← stored_leaf w; _) as [p0|] eqn:Hs.
  - intros [= <- <-]. destruct (stored_leaf w) as [p1|] eqn:Hl; cbn [mbind option_bind] in Hs; [|done].
    destruct (leaf_needs_reissue p1.1 ca.1 addresses now) eqn:Hr; [done|]. injection Hs as <-. by split_and!.
  - unfold tbind, tret. destruct (issue_leaf ca.1 ca.2 addresses now w) as [r1 w1] eqn:H1.
    apply makes_leaf in H1 as (D1 & M1 & C1 & G1); [|done|done].
    destruct r1 as [p|e]; [|intros [= <- <-]; split_and!; try done; by apply stored_alike].
    destruct (store_pair _ _ p w1) as [r2 w2] eqn:H2. apply store_pair_spec in H2 as (M2 & R2 & C2 & D2 & E2); [|apply leaf_paths].
    assert (Hca : stored_ca w2 = stored_ca w) by (rewrite <- (stored_alike w w1) by done; apply stored_pair_ext; apply D2; vm_compute; congruence).
    destruct G1 as (Gc & Gr & _). destruct r2 as [[]|e]; intros [= <- <-]; rewrite M2, C2, M1, C1; split_and!; try done.
    destruct E2 as (m & m' & Ec & Ek). by eapply stored_store.
Qed.

Lemma load_spec addresses w r w' : Forall address_ok addresses -> load_or_generate addresses w = (r, w') ->
  clock w' = clock w /\ (forall p, stored_ca w = Some p -> stored_ca w' = Some p) /\
  match r with
  | Err _ => True
  | Ok i => stored_ca w' = Some (ca_cert_der i, ca_key_der i) /\ stored_leaf w' = Some (cert_der i, key_der i) /\
      leaf_needs_reissue (cert_der i) (ca_cert_der i) addresses (plausible_now w) = None /\ dir_mode w' = Some (octal 7 0 0)
  end.
Proof.
  intros Hok. unfold load_or_generate. unfold tbind at 1. destruct (create_dir w) as [r1 w1] eqn:H1.
  unfold create_dir in H1. apply sys_cases in H1 as (w0 & (D0 & M0 & R0 & C0) & [[-> ->]|(n & -> & ->)]).
  2: { intros [= <- <-]. unfold untouched. split_and!; try done. intros p. by apply stored_keep. }
  unfold tbind at 1. match goal with |- context [set_dir_mode ?w] => set (w1 := w); destruct (set_dir_mode w1) as [r2 w2] eqn:H2 end.
  assert (D1 : disk w1 = disk w) by done. assert (C1 : clock w1 = clock w) by done.
  unfold set_dir_mode in H2. apply sys_cases in H2 as (w3 & (D3 & M3 & R3 & C3) & [[-> ->]|(n & -> & ->)]).
  2: { intros [= <- <-]. unfold untouched. rewrite C3. split_and!; try done. intros p. apply stored_keep. by rewrite D3. }
  unfold tbind at 1. match goal with |- context [read_pair _ _ ?w] => set (w4 := w); destruct (read_pair CA_CERT_FILE CA_KEY_FILE w4) as [r5 w5] eqn:H5 end.
  assert (D4 : disk w4 = disk w) by (cbn; by rewrite D3). assert (C4 : clock w4 = clock w) by (cbn; by rewrite C3). assert (M4 : dir_mode w4 = Some (octal 7 0 0)) by done.
  apply read_pair_spec in H5 as ((D5 & M5 & _ & C5) & S5 & _). destruct r5 as [stored|e].
  2: { intros [= <- <-]. rewrite C5. split_and!; try done. intros p. apply stored_keep. by rewrite D5. }
  assert (S5' : stored = stored_ca w5) by (rewrite S5; symmetry; by apply stored_alike). clear S5. subst stored.
  unfold tbind at 1. match goal with |- context [(match stored_ca w5 with Some p => _ | None => _ end) w5] => idtac end.
  destruct ((match stored_ca w5 with Some p => tret p | None => let* made := generate_ca in let* _ := store_pair CA_CERT_FILE CA_KEY_FILE made in tret made end) w5)
    as [r6 w6] eqn:H6. apply ca_phase in H6 as (M6 & C6 & K6 & G6).
  assert (Hkeep : forall p, stored_ca w = Some p -> stored_ca w6 = Some p) by (intros p Hp; apply K6; eapply stored_keep; [|exact Hp]; by rewrite D5).
  destruct r6 as [ca|e]; [|intros [= <- <-]; by rewrite C6, C5].
  unfold tbind at 1. unfold tbind at 1. destruct (read_pair CERT_FILE KEY_FILE w6) as [r7 w7] eqn:H7.
  apply read_pair_spec in H7 as ((D7 & M7 & _ & C7) & S7 & _). destruct r7 as [leaf|e].
  2: { intros [= <- <-]. rewrite C7, C6, C5. split_and!; try done. intros p Hp. eapply stored_keep; [exact D7|]. by apply Hkeep. }
  assert (S7' : leaf = stored_leaf w7) by (rewrite S7; symmetry; by apply stored_alike). clear S7. subst leaf. cbv zeta.
  intros Hrest. apply tbind_cases in Hrest as (r8 & w8 & H8 & Hrest).
  apply leaf_phase in H8 as (M8 & C8 & S8 & G8); [|done|apply plausible_clock].
  assert (Hnow : plausible_now w6 = plausible_now w) by (unfold plausible_now; by rewrite C6, C5, C4). rewrite Hnow in G8.
  assert (Hca8 : stored_ca w8 = stored_ca w6) by (rewrite S8; by apply stored_alike).
  revert Hrest. destruct r8 as [p|e]; [intros [= <- <-]|intros [-> ->]]; rewrite C8, C7, C6, C5, C4; (split; [done|]); (split; [intros q Hq; rewrite Hca8; by apply Hkeep|]); [|done].
  cbn [ca_cert_der ca_key_der cert_der key_der]. rewrite Hca8, G6, M8, M7, M6, M5. destruct G8 as [Hl Hr]. rewrite Hl. destruct ca, p. by split_and!.
Qed.
End facts.

(** ** Over the life of a unit *)

(** What a start or a check meets: the failures, the draws and the clock; the disk stays from one to the next. *)
Record Circumstances := mkCircumstances { c_faults : list fault; c_draws : list (option (list Z)); c_clock : Z }.
Definition under (c : Circumstances) (w : TlsWorld) : TlsWorld := mkTlsWorld (disk w) (dir_mode w) (c_faults c) (c_draws c) (c_clock c).
Inductive LifeEvent := Boot (addresses : list (list Z)) | Check_Leaf.

Section life.
Context {X : X509} (loadable : list Z -> bool).

Definition happens (u : option TlsRenewer * TlsWorld) (ev : LifeEvent * Circumstances) : option TlsRenewer * TlsWorld :=
  let w := under ev.2 u.2 in
  match ev.1 with
  | Boot addresses =>
      let '(r, w) := load_or_generate addresses w in
      (match r with Ok i => TlsRenewer_new loadable addresses i | Err _ => None end, w)
  | Check_Leaf => match u.1 with
                  | None => u
                  | Some r => let '((_, r), w) := renew loadable r w in (Some r, w)
                  end
  end.
Definition event_ok (ev : LifeEvent * Circumstances) : Prop := match ev.1 with Boot addresses => Forall address_ok addresses | Check_Leaf => True end.
Definition life (evs : list (LifeEvent * Circumstances)) (w : TlsWorld) : option TlsRenewer * TlsWorld := fold_left happens evs (None, w).

Lemma renew_spec r w b r' w' : Forall address_ok (addresses r) -> renew loadable r w = ((b, r'), w') ->
  (forall seed key, secret_from_slice seed = Some key -> loadable key = true) ->
  stored_pair w' CA_CERT_FILE CA_KEY_FILE = stored_pair w CA_CERT_FILE CA_KEY_FILE /\ addresses r' = addresses r /\
  (ca_cert_der (identity r'), ca_key_der (identity r')) = (ca_cert_der (identity r), ca_key_der (identity r)) /\
  if b then leaf_needs_reissue (cert_der (identity r')) (ca_cert_der (identity r')) (addresses r') (plausible_now w) = None /\
            check_pair (cert_der (identity r')) (key_der (identity r')) = true /\
            certified_key loadable (identity r') = Some (served r') /\ leaf_fingerprint r' = fingerprint_hex (identity r')
  else r' = r.
Proof.
  intros Hok Hr Hload. unfold renew in Hr. destruct (leaf_needs_reissue _ _ _ _) as [why|]; [|by injection Hr as <- <- <-].
  destruct (issue_leaf _ _ _ _ w) as [r1 w1] eqn:H1. apply makes_leaf in H1 as (D1 & M1 & C1 & G1); [|done|apply plausible_clock].
  destruct r1 as [pair|e]; [|injection Hr as <- <- <-; split_and!; try done; by apply stored_alike].
  destruct (write_atomic KEY_FILE _ _ w1) as [r2 w2] eqn:H2. apply write_atomic_cases in H2 as (_ & _ & _ & D2 & _); [|by vm_compute].
  assert (S2 : stored_pair w2 CA_CERT_FILE CA_KEY_FILE = stored_pair w CA_CERT_FILE CA_KEY_FILE).
  { rewrite <- (stored_alike w w1) by done. apply stored_pair_ext; apply D2; vm_compute; congruence. }
  destruct r2 as [[]|e]; [|injection Hr as <- <- <-; by split_and!].
  destruct (write_atomic CERT_FILE _ _ w2) as [r3 w3] eqn:H3. apply write_atomic_cases in H3 as (_ & _ & _ & D3 & _); [|by vm_compute].
  assert (S3 : stored_pair w3 CA_CERT_FILE CA_KEY_FILE = stored_pair w CA_CERT_FILE CA_KEY_FILE).
  { rewrite <- S2. apply stored_pair_ext; apply D3; vm_compute; congruence. }
  destruct r3 as [[]|e]; [|injection Hr as <- <- <-; by split_and!].
  destruct G1 as (Gc & Gn & seed & Hs). unfold certified_key in Hr |- *. cbn [key_der cert_der ca_cert_der] in Hr. rewrite (Hload _ _ Hs) in Hr.
  injection Hr as <- <- <-. cbn [identity served addresses leaf_fingerprint key_der cert_der ca_cert_der ca_key_der].
  rewrite (Hload _ _ Hs). by split_and!.
Qed.


(** C30: the certificate in service is the one to have.  At any point in the life of a unit whose interface is up,
    what browsers are served is the chain and the key of the identity the unit goes by, whose key belongs to its
    certificate, and the fingerprint it shows is that certificate's; and after a start, or a check that says it
    changed something, there is no reason to replace it: it was issued by the authority it is sent with, names
    every address, and by the clock is valid and will be for sixty days. *)
Theorem certificate_in_service evs w : (forall seed key, secret_from_slice seed = Some key -> loadable key = true) -> Forall event_ok evs ->
  match (life evs w).1 with
  | None => True
  | Some r => served r = (cert_der (identity r), ca_cert_der (identity r), key_der (identity r)) /\
      check_pair (cert_der (identity r)) (key_der (identity r)) = true /\ leaf_fingerprint r = fingerprint_hex (identity r)
  end /\
  forall u ev, u = life evs w -> event_ok ev ->
    match ev.1 with
    | Boot addrs => match (happens u ev).1 with
                    | Some r => addresses r = addrs /\ leaf_needs_reissue (cert_der (identity r)) (ca_cert_der (identity r)) addrs (plausible_now (under ev.2 u.2)) = None
                    | None => True
                    end
    | Check_Leaf => match u.1 with
                    | Some r => let '((changed, r'), _) := renew loadable r (under ev.2 u.2) in
                        if changed then leaf_needs_reissue (cert_der (identity r')) (ca_cert_der (identity r')) (addresses r') (plausible_now (under ev.2 u.2)) = None
                        else r' = r
                    | None => True
                    end
    end.
Proof.
  intros Hload Hevs. unfold life.
  set (good := fun r => certified_key loadable (identity r) = Some (served r) /\ check_pair (cert_der (identity r)) (key_der (identity r)) = true /\
    leaf_fingerprint r = fingerprint_hex (identity r) /\ Forall address_ok (addresses r)).
  assert (Hstep : forall u ev, event_ok ev -> match u.1 with Some r => good r | None => True end -> match (happens u ev).1 with Some r => good r | None => True end).
  { intros [running v] [ev c] Hev Hr. unfold happens. cbn [fst snd] in *. destruct ev as [addrs|].
    - destruct (load_or_generate addrs (under c v)) as [r w'] eqn:H. apply load_spec in H as (_ & _ & H); [|done]. cbn [fst].
      destruct r as [i|e]; [|done]. unfold TlsRenewer_new. destruct (certified_key loadable i) as [s|] eqn:Hs; [|done]. cbn [mbind option_bind].
      destruct H as (_ & Hl & _). unfold good. cbn [identity served leaf_fingerprint addresses]. split_and!; try done.
      unfold stored_pair in Hl. destruct (disk w' !! CERT_FILE) as [[c1 ?]|], (disk w' !! KEY_FILE) as [[k1 ?]|]; try done.
      destruct (check_pair c1 k1) eqn:Hc; [|done]. by injection Hl as <- <-.
    - destruct running as [r|]; [|done]. destruct Hr as (Hs & Hc & Hf & Ha). destruct (renew loadable r (under c v)) as [[b r'] w'] eqn:H.
      apply renew_spec in H as (_ & Hadd & _ & H); [|done|done]. cbn [fst]. unfold good. destruct b; [|by subst r'].
      destruct H as (_ & Hc' & Hs' & Hf'). rewrite Hadd. done. }
  assert (Hall : forall u, match u.1 with Some r => good r | None => True end ->
    match (fold_left happens evs u).1 with Some r => good r | None => True end).
  { induction Hevs as [|ev evs Hev _ IH]; intros u Hu; [done|]. cbn [fold_left]. apply IH. by apply Hstep. }
  specialize (Hall (None, w) I). destruct (fold_left happens evs (None, w)) as [running v] eqn:Hlife. cbn [fst] in *. split.
  - destruct running as [r|]; [|done]. destruct Hall as (Hs & Hc & Hf & _). split_and!; [|done..]. unfold certified_key in Hs.
    destruct (loadable _); [|done]. by injection Hs as <-.
  - intros u [ev c] -> Hev. cbn [fst snd]. destruct ev as [addrs|].
    + unfold happens. cbn [fst snd]. destruct (load_or_generate addrs (under c v)) as [r w'] eqn:H. apply load_spec in H as (_ & _ & H); [|done]. cbn [fst].
      destruct r as [i|e]; [|done]. unfold TlsRenewer_new. destruct (certified_key loadable i) as [s|]; [|done]. cbn [mbind option_bind addresses identity]. tauto.
    + destruct running as [r|]; [|done]. destruct Hall as (_ & _ & _ & Ha). destruct (renew loadable r (under c v)) as [[b r'] w'] eqn:H.
      apply renew_spec in H as (_ & _ & _ & H); [|done|done]. destruct b; [tauto|done].
Qed.
End life.

(** ** A unit is never locked out *)

Section recovery.
Context {X : X509}.

(** Cryptography that works, and draws that are keys. *)
Record crypto_works : Prop := {
  builds : forall c serial key, exists der, build c serial key = Ok der;
  utc_total : forall t, is_Some (utc_time t)
}.
Definition good_draw (d : option (list Z)) : Prop := exists seed, d = Some seed /\ is_Some (secret_from_slice seed).

(** Steps that do not fail when nothing does, and use at most so many draws. *)
Definition works_using {A : Type} (n : nat) (m : TM A) : Prop := forall w, faults w = [] -> Forall good_draw (draws w) -> (n <= length (draws w))%nat ->
  exists a w', m w = (Ok a, w') /\ faults w' = [] /\ Forall good_draw (draws w') /\ (length (draws w) - n <= length (draws w'))%nat.
Lemma works_bind {A B : Type} n k (m : TM A) (f : A -> TM B) : works_using n m -> (forall a, works_using k (f a)) -> works_using (n + k) (tbind m f).
Proof.
  intros Hm Hf w Hw Hd Hl. destruct (Hm w Hw Hd) as (a & w1 & H1 & Hw1 & Hd1 & Hl1); [lia|].
  destruct (Hf a w1 Hw1 Hd1) as (b & w2 & H2 & Hw2 & Hd2 & Hl2); [lia|]. exists b, w2. unfold tbind. rewrite H1. split_and!; try done. lia.
Qed.
Lemma works_ret {A : Type} n (a : A) : works_using n (tret a).
Proof. intros w Hw Hd Hl. exists a, w. split_and!; try done. lia. Qed.
Lemma works_sys path effect partial : (forall w, faults (effect w) = faults w /\ draws (effect w) = draws w) -> works_using 0 (sys path effect partial).
Proof.
  intros He w Hw Hd Hl. unfold sys, next_fault. rewrite Hw. exists tt, (effect w). destruct (He w) as [E1 E2]. rewrite E1, E2. split_and!; try done. lia.
Qed.
Lemma works_create : works_using 0 create_dir.
Proof. by apply works_sys. Qed.
Lemma works_set_mode : works_using 0 set_dir_mode.
Proof. by apply works_sys. Qed.
Lemma works_write path bytes mode : works_using 0 (write_atomic path bytes mode).
Proof.
  unfold write_atomic. eapply (works_bind 0 0); [by apply works_sys|]. intros _. eapply (works_bind 0 0); [by apply works_sys|]. intros _.
  eapply (works_bind 0 0); [by apply works_sys|]. intros _. apply works_sys. intros w. by destruct (disk w !! with_tmp path).
Qed.
Lemma works_store c k pair : works_using 0 (store_pair c k pair).
Proof. unfold store_pair. eapply (works_bind 0 0); [apply works_write|]. intros _. apply works_write. Qed.
Lemma works_random : works_using 1 random_bytes.
Proof.
  intros w Hw Hd Hl. unfold random_bytes. destruct (draws w) as [|d ds]; [cbn in Hl; lia|]. inversion Hd as [|? ? (seed & -> & _) Hds]; subst.
  eexists _, _. split; [reflexivity|]. cbn. split_and!; try done. lia.
Qed.
Lemma works_key : works_using 1 new_key.
Proof.
  intros w Hw Hd Hl. unfold new_key. destruct (draws w) as [|d ds]; [cbn in Hl; lia|]. inversion Hd as [|? ? (seed & -> & key & Hk) Hds]; subst.
  cbn [new_key_from]. rewrite Hk. eexists _, _. split; [reflexivity|]. cbn. split_and!; try done. lia.
Qed.
Lemma works_key_public {B : Type} n (f : list Z -> TM B) : (forall key, is_Some (public_of key) -> works_using n (f key)) -> works_using (1 + n) (tbind new_key f).
Proof.
  intros Hf w Hw Hd Hl. destruct (works_key w Hw Hd) as (key & w1 & H1 & Hw1 & Hd1 & Hl1); [lia|].
  assert (Hp : is_Some (public_of key)).
  { pose proof (makes_key w (Ok key) w1 H1) as (_ & _ & _ & seed & Hs). by eapply secret_has_public. }
  destruct (Hf key Hp w1 Hw1 Hd1) as (b & w2 & H2 & Hw2 & Hd2 & Hl2); [lia|]. exists b, w2. unfold tbind. rewrite H1. split_and!; try done. lia.
Qed.
Lemma works_public key : is_Some (public_of key) -> works_using 0 (public_half key).
Proof. intros [p Hp]. unfold public_half. rewrite Hp. apply works_ret. Qed.
Lemma works_serial : works_using 1 random_serial.
Proof. eapply (works_bind 1 0); [apply works_random|]. intros a. apply works_ret. Qed.
Context (Hx : crypto_works).
Lemma works_utc t : works_using 0 (utc t).
Proof. unfold utc. destruct (utc_total Hx (Z.max t 0)) as [t' ->]. apply works_ret. Qed.
Lemma works_built c serial key : works_using 0 (certified (build c serial key)).
Proof. destruct (builds Hx c serial key) as [der ->]. apply works_ret. Qed.

Lemma works_ca : works_using 3 generate_ca.
Proof.
  apply (works_key_public 2). intros key Hp. eapply (works_bind 1 1); [apply works_random|]. intros tag.
  eapply (works_bind 0 1); [by apply works_public|]. intros public. eapply (works_bind 0 1); [apply works_utc|]. intros before.
  eapply (works_bind 0 1); [apply works_utc|]. intros after. eapply (works_bind 1 0); [apply works_serial|]. intros serial.
  eapply (works_bind 0 0); [apply works_built|]. intros der. apply works_ret.
Qed.
Lemma works_leaf ca_cert ca_key addresses now : check_pair ca_cert ca_key = true -> works_using 2 (issue_leaf ca_cert ca_key addresses now).
Proof.
  intros Hc. unfold check_pair in Hc. unfold issue_leaf. destruct (from_der ca_cert) as [ca|]; [|done].
  destruct (public_of ca_key) as [p|] eqn:Hp; [|done]. eapply (works_bind 0 2); [by apply works_public|]. intros _.
  apply (works_key_public 1). intros key Hk. eapply (works_bind 0 1); [apply works_utc|]. intros before. eapply (works_bind 0 1); [apply works_utc|]. intros after.
  eapply (works_bind 0 1); [by apply works_public|]. intros public. eapply (works_bind 1 0); [apply works_serial|]. intros serial.
  eapply (works_bind 0 0); [apply works_built|]. intros der. apply works_ret.
Qed.
Lemma works_read c k : works_using 0 (read_pair c k).
Proof.
  intros w Hw Hd Hl. destruct (read_pair c k w) as [r w'] eqn:H. apply read_pair_spec in H as ((_ & _ & R & _) & _ & Hf).
  destruct (Hf Hw) as [Hw' Hok]. destruct r as [o|e]; [|done]. exists o, w'. rewrite R. split_and!; try done. lia.
Qed.
(** What is found in the directory, or made, is a pair. *)
Lemma stored_pair_checks w c k p : stored_pair w c k = Some p -> check_pair p.1 p.2 = true.
Proof. unfold stored_pair. destruct (disk w !! c) as [[a ?]|], (disk w !! k) as [[b ?]|]; try done. destruct (check_pair a b) eqn:E; [|done]. by intros [= <-]. Qed.
Lemma works_ca_phase w r : faults w = [] -> Forall good_draw (draws w) -> (3 <= length (draws w))%nat -> r = stored_pair w CA_CERT_FILE CA_KEY_FILE ->
  exists p w', (match r with
     | Some p => tret p
     | None => let* made := generate_ca in let* _ := store_pair CA_CERT_FILE CA_KEY_FILE made in tret made
     end) w = (Ok p, w') /\ faults w' = [] /\ Forall good_draw (draws w') /\ (length (draws w) - 3 <= length (draws w'))%nat /\ check_pair p.1 p.2 = true.
Proof.
  intros Hw Hd Hl ->.
  assert (Hworks : works_using 3 (match stored_pair w CA_CERT_FILE CA_KEY_FILE with
     | Some p => tret p
     | None => let* made := generate_ca in let* _ := store_pair CA_CERT_FILE CA_KEY_FILE made in tret made end)).
  { destruct (stored_pair _ _ _); [apply works_ret|]. eapply (works_bind 3 0); [apply works_ca|]. intros made.
    eapply (works_bind 0 0); [apply works_store|]. intros _. apply works_ret. }
  destruct (Hworks w Hw Hd Hl) as (p & w' & H & H1 & H2 & H3). exists p, w'. split_and!; try done.
  apply ca_phase in H as (_ & _ & _ & H). by eapply stored_pair_checks.
Qed.

(** No state of the directory keeps a unit from its interface.  Whatever the files are, absent, torn, of other
    units or not certificates at all, as an interrupted start, a full disk or a person may leave them: a start at
    which nothing fails has an identity, whatever the clock says. *)
Theorem tls_always_starts addrs w : faults w = [] -> Forall good_draw (draws w) -> (5 <= length (draws w))%nat ->
  exists i w', load_or_generate addrs w = (Ok i, w').
Proof.
  intros Hw Hd Hl. unfold load_or_generate.
  destruct (works_create w Hw Hd) as ([] & w1 & H1 & Hw1 & Hd1 & Hl1); [lia|]. unfold tbind at 1. rewrite H1. clear H1.
  destruct (works_set_mode w1 Hw1 Hd1) as ([] & w2 & H2 & Hw2 & Hd2 & Hl2); [lia|]. unfold tbind at 1. rewrite H2. clear H2.
  destruct (works_read CA_CERT_FILE CA_KEY_FILE w2 Hw2 Hd2) as (stored & w3 & H3 & Hw3 & Hd3 & Hl3); [lia|].
  unfold tbind at 1. rewrite H3. apply read_pair_spec in H3 as ((D3 & _) & S3 & _).
  destruct (works_ca_phase w3 stored Hw3 Hd3) as (ca & w4 & H4 & Hw4 & Hd4 & Hl4 & Hc4); [lia|rewrite S3; symmetry; by apply stored_alike|].
  unfold tbind at 1. rewrite H4. unfold tbind at 1. unfold tbind at 1.
  destruct (works_read CERT_FILE KEY_FILE w4 Hw4 Hd4) as (leaf & w5 & H5 & Hw5 & Hd5 & Hl5); [lia|]. rewrite H5. cbv zeta.
  match goal with |- context [tbind (match ?o with Some p => tret p | None => ?k end) _ w5] => assert (Hk : works_using 2 (match o with Some p => tret p | None => k end)) end.
  { destruct (p ← leaf; _); [apply works_ret|]. eapply (works_bind 2 0); [by apply works_leaf|]. intros made.
    eapply (works_bind 0 0); [apply works_store|]. intros _. apply works_ret. }
  destruct (Hk w5 Hw5 Hd5) as (made & w6 & H6 & _); [lia|]. unfold tbind at 1. rewrite H6. by eexists _, _.
Qed.
End recovery.

(** The temporary name is the same for a pair's key and certificate, and the mode is that of a file which is created:
    a certificate's write that is cut off leaves one that is readable by all, and the next key is written into it
    and keeps its mode. *)
Theorem key_left_readable w cert key n : disk w !! with_tmp KEY_FILE = None -> faults w = [Works; Fails n] ->
  let w1 := (write_atomic CERT_FILE cert (octal 6 4 4) w).2 in
  exists w2, write_atomic KEY_FILE key (octal 6 0 0) w1 = (Ok tt, w2) /\ disk w2 !! KEY_FILE = Some (key, octal 6 4 4).
Proof.
  intros Hn Hf w1. assert (Ht : with_tmp CERT_FILE = with_tmp KEY_FILE) by (by vm_compute).
  assert (H1 : faults w1 = [] /\ disk w1 !! with_tmp KEY_FILE = Some (take n cert, octal 6 4 4)).
  { unfold w1, write_atomic, tbind, open_truncated, write_all, sys, next_fault. rewrite Ht, Hf.
    cbn [set_disk disk dir_mode faults draws clock snd]. rewrite Hn. split; [done|]. by rewrite lookup_alter_eq, lookup_insert_eq. }
  destruct H1 as [Hf1 Hd1]. destruct (write_atomic KEY_FILE key (octal 6 0 0) w1) as [r w2] eqn:H2.
  assert (Hr : r = Ok tt).
  { assert (Hok : forall p e q v, faults v = [] -> sys p e q v = (Ok tt, e v)) by (intros p e q v Hv; unfold sys, next_fault; by rewrite Hv).
    unfold write_atomic, tbind, open_truncated, write_all, sync_all, rename in H2. do 4 (rewrite Hok in H2 by done). by injection H2 as <- _. }
  subst r. exists w2. split; [done|]. apply write_atomic_cases in H2 as (_ & _ & _ & _ & H2 & _); [|by vm_compute]. by rewrite Hd1 in H2.
Qed.

(** ** Certificates that are their contents *)

#[export] Instance GeneralName_eq_dec : EqDecision GeneralName.
Proof. solve_decision. Defined.
#[export] Instance GeneralName_countable : Countable GeneralName.
Proof.
  refine (inj_countable' (fun n => match n with DnsName s => inl s | IpAddress o => inr (Some o) | OtherName => inr None end)
    (fun s => match s with inl s => DnsName s | inr (Some o) => IpAddress o | inr None => OtherName end) _). by intros [].
Defined.
#[export] Instance Cert_eq_dec : EqDecision Cert.
Proof. solve_decision. Defined.
#[export] Instance Cert_countable : Countable Cert.
Proof.
  refine (inj_countable' (fun c => (issuer c, subject c, public_key c, alt_names c, not_before c, not_after c))
    (fun t => let '(i, s, p, a, b, e) := t in mkCert i s p a b e) _). by intros [].
Defined.

Definition plain_der (der : list Z) : option Cert := match der with [Z.pos p] => decode p | _ => None end.
#[local] Program Instance plain_x509 : X509 := {|
  from_der := plain_der;
  secret_from_slice := fun seed => Some seed;
  public_of := fun key => Some key;
  build := fun c _ _ => Ok [Z.pos (encode c)];
  utc_time := fun t => Some t;
  ip_text := fun o => o;
  sha256 := fun b => b |}.
Next Obligation. intros c serial key der [= <-]. apply decode_encode. Qed.
Next Obligation. intros seed key [= <-]. by eexists. Qed.
Next Obligation. by intros t t' [= <-]. Qed.

Lemma plain_works : crypto_works.
Proof. split; [intros c serial key; by eexists|intros t; by eexists]. Qed.

(** A unit, a torn key file in its directory, and draws to start with. *)
Definition torn_disk : TlsWorld :=
  mkTlsWorld {[ CA_KEY_FILE := ([1; 2], octal 6 0 0); CERT_FILE := ([], octal 6 4 4) ]} None [] (replicate 5 (Some [7])) 1800000000.
Lemma tls_always_starts_witness : exists i w', load_or_generate [[192; 168; 1; 1]] torn_disk = (Ok i, w').
Proof.
  apply (tls_always_starts plain_works [[192; 168; 1; 1]] torn_disk); [reflexivity| |by apply Nat.leb_le].
  repeat constructor; exists [7]; (split; [reflexivity|by exists [7]]).
Defined.

(** A directory that holds an authority. *)
Definition sample_ca : Cert := mkCert (lit "CN=Rayhunter 0A0B") (lit "CN=Rayhunter 0A0B") [9] [] 0 100.
Definition owned_disk : TlsWorld :=
  mkTlsWorld {[ CA_CERT_FILE := ([Z.pos (encode sample_ca)], octal 6 4 4); CA_KEY_FILE := ([9], octal 6 0 0) ]} None [] [] 0.
Lemma owned_disk_pair : stored_pair owned_disk CA_CERT_FILE CA_KEY_FILE = Some ([Z.pos (encode sample_ca)], [9]).
Proof.
  unfold stored_pair, owned_disk. cbn [disk]. rewrite lookup_insert_eq, lookup_insert_ne, lookup_singleton_eq by by vm_compute.
  unfold check_pair. cbn [from_der public_of plain_x509 plain_der]. rewrite decode_encode. cbn [public_key sample_ca]. by rewrite bool_decide_eq_true_2.
Qed.
Definition hard_life : list (LifeEvent * Circumstances) :=
  [(Boot [[192; 168; 1; 1]], mkCircumstances [Works; Works; Works; Works; Works; Works; Works; Fails 3] (replicate 9 (Some [7])) 1800000000);
   (Boot [[10; 0; 0; 1]], mkCircumstances [] (replicate 9 (Some [8])) 0); (Check_Leaf, mkCircumstances [Works; Fails 1] (replicate 9 (Some [8])) 1800000000)].
Lemma hard_life_ok : Forall event_ok hard_life.
Proof. repeat constructor. Qed.
Lemma certificate_in_service_witness :
  match (life (fun _ => true) hard_life owned_disk).1 with
  | None => True
  | Some r => check_pair (cert_der (identity r)) (key_der (identity r)) = true
  end.
Proof.
  pose proof (certificate_in_service (fun _ => true) hard_life owned_disk (fun _ _ _ => eq_refl) hard_life_ok) as [H _].
  destruct (life (fun _ => true) hard_life owned_disk).1 as [r|]; [exact (proj1 (proj2 H))|exact I].
Defined.
