(* ===== verification/Buttons.v ===== *)
(** * The unit's buttons ([daemon/src/key_input.rs], [daemon/src/wifi_ap.rs], [daemon/src/display/mod.rs])

    What a press does: it holds the unit's drawing back, confirms a step-up, re-arms pairing, switches the access point off
    or on, and restarts the recording.  Times are nanoseconds of the monotonic clock, [duration_since] giving
    zero for a time to come.  Effects are listed in the order they are begun; [StepUp] and [Pairing] say what a press
    does there. *)

From S2P Require Import Prelude RustStr.

Local Open Scope Z_scope.

Definition ms (n : Z) : Z := n * 10 ^ 6.
Definition duration_since (now earlier : Z) : Z := Z.max 0 (now - earlier).

(** ** Several presses in quick succession ([PressGesture]) *)

Definition MIN_PRESSES : Z := 4.
Definition MAX_PRESSES : Z := 20.

Record PressGesture := mkGesture { presses_required : nat; window : Z; recent_presses : list Z }.
Definition PressGesture_new (presses_required window : Z) : PressGesture :=
  mkGesture (Z.to_nat (Z.min (Z.max presses_required MIN_PRESSES) MAX_PRESSES)) window [].

Fixpoint drop_old (window now : Z) (presses : list Z) : list Z :=
  match presses with
  | [] => []
  | oldest :: rest => if window <? duration_since now oldest then drop_old window now rest else presses
  end.
Definition press (g : PressGesture) (now : Z) : bool * PressGesture :=
  let presses := drop_old (window g) now (recent_presses g) ++ [now] in
  if (presses_required g <=? length presses)%nat then (true, mkGesture (presses_required g) (window g) [])
  else (false, mkGesture (presses_required g) (window g) presses).

(** ** Drawing held back, and pictures *)

(** [DisplaySuppression]: milliseconds since its making. *)
Definition KEYPRESS_QUIET_PERIOD : Z := ms 20000.
Definition suppress_for (period elapsed until_ms : Z) : Z := Z.max until_ms (wrapu 64 ((elapsed + period) / ms 1)).
Definition suppressed (elapsed until_ms : Z) : bool := negb (until_ms =? 0) && (wrapu 64 (elapsed / ms 1) <? until_ms).

(** [DisplayOverride], of pictures and of banners: what is up and until when. *)
Definition show {A : Type} (what : A) (period now : Z) (slot : option (A * Z)) : option (A * Z) := Some (what, now + period).
Definition clear {A : Type} (slot : option (A * Z)) : option (A * Z) := None.
Definition current {A : Type} (now : Z) (slot : option (A * Z)) : option A * option (A * Z) :=
  match slot with
  | Some (what, until) => if now <? until then (Some what, slot) else (None, None)
  | None => (None, None)
  end.
Definition override_remaining {A : Type} (now : Z) (slot : option (A * Z)) : option Z :=
  '(_, until) ← slot; if until <? now then None else Some (until - now).

(** ** The access point *)

Inductive WifiApOffMode := Ap_Temporary | Ap_UntilRestart.
(** A process: the name of its directory, and its command line when that can be read. *)
Definition replace_nul (s : rstr) : rstr := map (fun c => if c =? 0 then 32 else c) s.
Definition daemon_of (entry : rstr * option (list Z)) : option (Z * rstr) :=
  pid ← parse_unsigned 32 entry.1;
  cmdline ← entry.2;
  let text := replace_nul (from_utf8_lossy cmdline) in
  let name := default [] (head (split_whitespace text)) in
  if bool_decide (last (split_on 47 name) = Some (lit "hostapd")) then Some (pid, trim text) else None.
Definition find_access_point_daemon (proc : list (rstr * option (list Z))) : option (Z * rstr) := head (omap daemon_of proc).

Inductive ApEffect := Ap_Terminate (pid : Z) | Ap_Restart | Ap_RestartAfter (secs : Z).
(** [toggle_access_point]: [proc] is looked through twice, [killed] says whether the signal could be sent. *)
Definition toggle_access_point (mode : WifiApOffMode) (off_minutes : Z) (proc proc' : list (rstr * option (list Z))) (killed : bool) : list ApEffect :=
  match find_access_point_daemon proc with
  | Some _ =>
      match find_access_point_daemon proc' with
      | None => []
      | Some (pid, _) =>
          if killed then Ap_Terminate pid :: match mode with Ap_Temporary => [Ap_RestartAfter (off_minutes * 60)] | Ap_UntilRestart => [] end
          else [Ap_Terminate pid]
      end
  | None => [Ap_Restart]
  end.

(** ** The loop *)

Definition INPUT_EVENT_SIZE : nat := 32.
Inductive KeyEvent := KeyDown | KeyUp.
Definition parse_event (input : list Z) : KeyEvent := if default 0 (input !! 12%nat) =? 0 then KeyUp else KeyDown.

(** [read_full], on what the reads give: bytes, none because it would block, or an error. *)
Inductive ReadOutcome := Read_Bytes (bytes : list Z) | Read_WouldBlock | Read_Error.
Fixpoint read_full (need : nat) (reads : list ReadOutcome) : option (option (list Z) * list ReadOutcome) :=
  match need with
  | O => Some (Some [], reads)
  | S _ =>
      match reads with
      | [] => None
      | Read_Error :: reads => Some (None, reads)
      | Read_WouldBlock :: reads => read_full need reads
      | Read_Bytes [] :: reads => Some (None, reads)
      | Read_Bytes bytes :: reads =>
          match read_full (need - length bytes) reads with
          | Some (Some more, reads) => Some (Some (bytes ++ more), reads)
          | r => r
          end
      end
  end.

Record KeyConfig := mkKeyConfig { restart_on_double_tap : bool; pause_on_keypress : bool; ap_toggle : bool; has_stepup : bool; has_pairing : bool }.
Record KeyState := mkKeyState { last_keyup : option Z; last_event_time : option Z; ap_gesture : PressGesture }.
Inductive KeyAction := Act_Suppress | Act_StepUp | Act_Pairing | Act_ToggleAp | Act_StopRecording | Act_StartRecording.
#[export] Instance KeyAction_eq_dec : EqDecision KeyAction.
Proof. solve_decision. Defined.

(** An event that came too soon after the one before. *)
Definition bounced (st : KeyState) (now : Z) : bool :=
  match last_event_time st with Some t => duration_since now t <? ms 50 | None => false end.
Definition is_double_tap (st : KeyState) (now : Z) : bool :=
  match last_keyup st with
  | Some t => let elapsed := duration_since now t in (ms 100 <=? elapsed) && (elapsed <=? ms 800)
  | None => false
  end.

Definition key_event (cfg : KeyConfig) (st : KeyState) (ev : KeyEvent) (now : Z) : list KeyAction * KeyState :=
  let quiet := if pause_on_keypress cfg then [Act_Suppress] else [] in
  let seen := mkKeyState (last_keyup st) (Some now) (ap_gesture st) in
  if bounced st now then (quiet, seen)
  else match ev with
       | KeyDown => (quiet, seen)
       | KeyUp =>
           let confirms := (if has_stepup cfg then [Act_StepUp] else []) ++ (if has_pairing cfg then [Act_Pairing] else []) in
           let '(fired, gesture) := if ap_toggle cfg then press (ap_gesture st) now else (false, ap_gesture st) in
           if fired then (quiet ++ confirms ++ [Act_ToggleAp], mkKeyState None (Some now) gesture)
           else if restart_on_double_tap cfg && is_double_tap st now then
             (quiet ++ confirms ++ [Act_StopRecording; Act_StartRecording], mkKeyState None (Some now) gesture)
           else (quiet ++ confirms, mkKeyState (Some now) (Some now) gesture)
       end.
Fixpoint key_events (cfg : KeyConfig) (st : KeyState) (evs : list (KeyEvent * Z)) : list (list KeyAction) * KeyState :=
  match evs with
  | [] => ([], st)
  | (ev, now) :: evs =>
      let '(a, st) := key_event cfg st ev now in
      let '(more, st) := key_events cfg st evs in (a :: more, st)
  end.
Definition key_start (presses window : Z) : KeyState := mkKeyState None None (PressGesture_new presses window).

(** The thread runs when something wants the buttons. *)
Definition key_input_runs (cfg : KeyConfig) : bool := restart_on_double_tap cfg || pause_on_keypress cfg || ap_toggle cfg || has_pairing cfg.

(** ** The gesture is a sliding window *)

(** What it means to recognise: the presses since it last fired, of which those within the window count. *)
Definition reference_press (required : nat) (window : Z) (since : list Z) (now : Z) : bool * list Z :=
  let since := since ++ [now] in
  if (required <=? length (List.filter (fun t => (now - t <=? window)%Z) since))%nat then (true, []) else (false, since).
Fixpoint reference_run (required : nat) (window : Z) (since times : list Z) : list bool :=
  match times with
  | [] => []
  | t :: times => let '(b, since) := reference_press required window since t in b :: reference_run required window since times
  end.
Fixpoint gesture_run (g : PressGesture) (times : list Z) : list bool :=
  match times with [] => [] | t :: times => let '(b, g) := press g t in b :: gesture_run g times end.

Fixpoint rising (from : Z) (times : list Z) : Prop :=
  match times with [] => True | t :: times => from <= t /\ rising t times end.

Lemma rising_le from times : rising from times -> Forall (fun t => from <= t) times.
Proof.
  revert from. induction times as [|t times IH]; intros from; cbn [rising]; [constructor|]. intros [H1 H2]. constructor; [done|].
  eapply Forall_impl; [exact (IH _ H2)|]. cbn. intros. lia.
Qed.
Lemma rising_snoc from times t : rising from times -> Forall (fun x => x <= t) times -> from <= t -> rising from (times ++ [t]).
Proof.
  revert from. induction times as [|x times IH]; intros from; cbn [rising app]; [done|]. intros [H1 H2] Hall Ht. inversion Hall; subst.
  split; [done|]. by apply IH.
Qed.
(** Dropping from the front is dropping the old ones. *)
Lemma drop_old_filter w now from presses : 0 <= w -> rising from presses -> Forall (fun t => t <= now) presses ->
  drop_old w now presses = List.filter (fun t => now - t <=? w) presses.
Proof.
  intros Hw. revert from. induction presses as [|t presses IH]; intros from Hr Hn; [done|]. cbn [drop_old List.filter].
  inversion Hn; subst. destruct Hr as [_ Hr]. unfold duration_since. destruct (Z.ltb_spec w (Z.max 0 (now - t))).
  - rewrite (proj2 (Z.leb_gt _ _)) by lia. by eapply IH.
  - rewrite (proj2 (Z.leb_le _ _)) by lia. f_equal. symmetry. apply List.forallb_filter_id. apply forallb_forall. intros x Hx%list_elem_of_In.
    pose proof (rising_le _ _ Hr) as Hle. rewrite Forall_forall in Hle. specialize (Hle x Hx). apply Z.leb_le. lia.
Qed.
Lemma filter_filter_old w now now' presses : now <= now' ->
  List.filter (fun t => now' - t <=? w) (List.filter (fun t => now - t <=? w) presses) = List.filter (fun t => now' - t <=? w) presses.
Proof.
  intros H. induction presses as [|t presses IH]; [done|]. cbn [List.filter]. destruct (Z.leb_spec (now - t) w); cbn [List.filter]; rewrite IH; [done|].
  by rewrite (proj2 (Z.leb_gt _ _)) by lia.
Qed.

(** The gesture fires exactly when enough of the presses since it last fired lie within the window before a press,
    that press among them: no press counts twice, none outside the window counts. *)
Theorem gesture_is_sliding_window required w times from : 0 <= w -> rising from times ->
  gesture_run (PressGesture_new required w) times = reference_run (Z.to_nat (Z.min (Z.max required MIN_PRESSES) MAX_PRESSES)) w [] times.
Proof.
  intros Hw Hr. set (n := Z.to_nat _).
  assert (Hg : forall last since kept, rising from kept -> Forall (fun t => t <= last) kept -> kept = List.filter (fun t => last - t <=? w) since ->
    Forall (fun t => t <= last) since -> from <= last -> rising last times ->
    gesture_run (mkGesture n w kept) times = reference_run n w since times).
  - clear Hr. induction times as [|t times IH]; intros last since kept Hk Hkl Hks Hsl Hfl Hr; [done|]. cbn [gesture_run reference_run]. destruct Hr as [Hlt Hr].
    unfold press, reference_press. cbn [window recent_presses presses_required].
    assert (Hkt : Forall (fun x => x <= t) kept) by (eapply Forall_impl; [exact Hkl|]; cbn; intros; lia).
    rewrite (drop_old_filter w t from kept Hw Hk Hkt). rewrite Hks, filter_filter_old by done.
    assert (Hnow : List.filter (fun x => t - x <=? w) (since ++ [t]) = List.filter (fun x => t - x <=? w) since ++ [t]).
    { rewrite List.filter_app. cbn [List.filter]. by rewrite (proj2 (Z.leb_le _ _)) by lia. }
    rewrite <- Hnow. destruct (_ <=? _)%nat; f_equal.
    + apply (IH t []); try done; lia.
    + assert (Hst : Forall (fun x => x <= t) (since ++ [t])).
      { apply Forall_app. split; [eapply Forall_impl; [exact Hsl|]; cbn; intros; lia|by constructor]. }
      apply (IH t (since ++ [t])); try done; [| |lia].
      * rewrite Hnow. apply rising_snoc; [|apply Forall_forall; intros x Hx|lia].
        -- rewrite <- filter_filter_old with (now := last), <- Hks by done. rewrite <- (drop_old_filter w t from kept Hw Hk Hkt).
           clear -Hk. revert from Hk. induction kept as [|x kept IH]; intros from Hk; [done|]. cbn [drop_old]. destruct (_ <? _); [|done].
           destruct Hk as [H1 H2]. apply IH. destruct kept; [done|]. cbn [rising] in *. split; [lia|tauto].
        -- rewrite list_elem_of_In, filter_In, <- list_elem_of_In in Hx. destruct Hx as [Hx _]. rewrite Forall_forall in Hsl. specialize (Hsl _ Hx). cbn in Hsl. lia.
      * apply Forall_forall. intros x Hx. rewrite list_elem_of_In, filter_In, <- list_elem_of_In in Hx. destruct Hx as [Hx _]. rewrite Forall_forall in Hst. by apply Hst.
  - apply (Hg from [] []); done.
Qed.

(** ** What restarts a recording *)

Ltac decide_actions := repeat match goal with
  | |- context [bool_decide (?a = ?b)] =>
      first [rewrite (bool_decide_eq_true_2 (a = b)) by reflexivity | rewrite (bool_decide_eq_false_2 (a = b)) by discriminate]
  end; cbn.

Definition count_action (a : KeyAction) (l : list (list KeyAction)) : nat := length (List.filter (fun x => bool_decide (x = a)) (concat l)).
Definition keyups (evs : list (KeyEvent * Z)) : nat := length (List.filter (fun ev => match ev.1 with KeyUp => true | KeyDown => false end) evs).

(** Each restart uses two releases of the button up, and asks for a stop and then a start: the two of a restart are
    at the end of what its event does. *)
Theorem restarts_use_presses cfg presses w evs :
  let '(acts, _) := key_events cfg (key_start presses w) evs in
  (2 * count_action Act_StopRecording acts <= keyups evs)%nat /\ count_action Act_StartRecording acts = count_action Act_StopRecording acts /\
  Forall (fun a => Act_StopRecording ∈ a -> exists before, a = before ++ [Act_StopRecording; Act_StartRecording]) acts.
Proof.
  assert (Hg : forall st, let '(acts, _) := key_events cfg st evs in
    (2 * count_action Act_StopRecording acts <= keyups evs + match last_keyup st with Some _ => 1 | None => 0 end)%nat /\
    count_action Act_StartRecording acts = count_action Act_StopRecording acts /\
    Forall (fun a => Act_StopRecording ∈ a -> exists before, a = before ++ [Act_StopRecording; Act_StartRecording]) acts).
  - induction evs as [|[ev now] evs IH]; intros st; cbn [key_events]; [split; [cbn; lia|done]|].
    destruct (key_event cfg st ev now) as [a st1] eqn:Ha. specialize (IH st1). destruct (key_events cfg st1 evs) as [more st2].
    destruct IH as (I1 & I2 & I3). unfold count_action in *. cbn [concat]. rewrite !List.filter_app, !length_app.
    assert (Hstep : (2 * length (List.filter (fun x => bool_decide (x = Act_StopRecording)) a) + match last_keyup st1 with Some _ => 1 | None => 0 end
        <= (match ev with KeyUp => 1 | KeyDown => 0 end) + match last_keyup st with Some _ => 1 | None => 0 end)%nat /\
      length (List.filter (fun x => bool_decide (x = Act_StartRecording)) a) = length (List.filter (fun x => bool_decide (x = Act_StopRecording)) a) /\
      (Act_StopRecording ∈ a -> exists before, a = before ++ [Act_StopRecording; Act_StartRecording])).
    { assert (Hq : forall q : bool, let l := if q then [Act_Suppress] else [] in
        List.filter (fun x => bool_decide (x = Act_StopRecording)) l = [] /\ List.filter (fun x => bool_decide (x = Act_StartRecording)) l = [] /\ Act_StopRecording ∉ l).
      { intros []; cbn; decide_actions; split_and!; try done; set_solver. }
      set (c := (if has_stepup cfg then [Act_StepUp] else []) ++ (if has_pairing cfg then [Act_Pairing] else [])) in *.
      assert (Hc : List.filter (fun x => bool_decide (x = Act_StopRecording)) c = [] /\ List.filter (fun x => bool_decide (x = Act_StartRecording)) c = [] /\ Act_StopRecording ∉ c).
      { unfold c. destruct (has_stepup cfg), (has_pairing cfg); cbn; decide_actions; split_and!; try done; set_solver. }
      specialize (Hq (pause_on_keypress cfg)). cbv zeta in Hq. unfold key_event in Ha. fold c in Ha.
      set (q := if pause_on_keypress cfg then [Act_Suppress] else []) in *. destruct Hq as (Q1 & Q2 & Q3), Hc as (C1 & C2 & C3).
      destruct (bounced st now); [injection Ha as <- <-; rewrite Q1, Q2; cbn; split_and!; [destruct ev; lia|done|done]|].
      destruct ev; [injection Ha as <- <-; rewrite Q1, Q2; cbn; split_and!; [lia|done|done]|].
      destruct (if ap_toggle cfg then press (ap_gesture st) now else (false, ap_gesture st)) as [fired g]. destruct fired.
      - injection Ha as <- <-. rewrite !List.filter_app, Q1, Q2, C1, C2. cbn. decide_actions. split_and!; [destruct (last_keyup st); cbn; lia|done|]. rewrite !elem_of_app. intros [?|[?|?]]; [done..|set_solver].
      - destruct (restart_on_double_tap cfg && is_double_tap st now) eqn:Ht.
        + apply andb_true_iff in Ht as [_ Ht]. unfold is_double_tap in Ht. destruct (last_keyup st); [|done].
          injection Ha as <- <-. rewrite !List.filter_app, Q1, Q2, C1, C2. cbn. decide_actions. split_and!; [cbn; lia|done|]. intros _. exists (q ++ c). by rewrite <- app_assoc.
        + injection Ha as <- <-. rewrite !List.filter_app, Q1, Q2, C1, C2. cbn. decide_actions. split_and!; [destruct (last_keyup st); lia|done|].
          rewrite elem_of_app. by intros [?|?]. }
    destruct Hstep as (S1 & S2 & S3). assert (Hk : keyups ((ev, now) :: evs) = ((match ev with KeyUp => 1 | KeyDown => 0 end) + keyups evs)%nat) by (unfold keyups; cbn; by destruct ev).
    rewrite Hk. split_and!; [lia|lia|by constructor].
  - specialize (Hg (key_start presses w)). destruct (key_events _ _ evs) as [acts st]. cbn [last_keyup key_start] in Hg. rewrite Nat.add_0_r in Hg. exact Hg.
Qed.

(** The presses of the access point's gesture are double taps too: five of them, switching it off, restart the
    recording twice on the way. *)
Theorem wifi_gesture_restarts_recording :
  let cfg := mkKeyConfig true false true false false in
  let evs := flat_map (fun n => [(KeyDown, ms (n * 400)); (KeyUp, ms (n * 400 + 150))]) [1; 2; 3; 4; 5] in
  concat (key_events cfg (key_start 5 (ms 4000)) evs).1 =
    [Act_StopRecording; Act_StartRecording; Act_StopRecording; Act_StartRecording; Act_ToggleAp].
Proof. vm_compute. reflexivity. Qed.

(** ** Reading events *)

(** Reads however split give the same event: as many bytes as one has, in order. *)
Theorem read_full_splits bytes chunks rest : concat chunks = bytes -> length bytes = INPUT_EVENT_SIZE -> Forall (fun c => c <> []) chunks ->
  read_full INPUT_EVENT_SIZE (map Read_Bytes chunks ++ rest) = Some (Some bytes, rest).
Proof.
  intros <- Hl Hne. revert Hl. generalize INPUT_EVENT_SIZE. induction Hne as [|c chunks Hc _ IH]; intros n Hl; cbn [concat map app] in *; [cbn in Hl; subst n; by destruct rest|].
  rewrite length_app in Hl. destruct c as [|b c]; [done|]. destruct n as [|n]; [cbn in Hl; lia|]. cbn [read_full].
  rewrite (IH (S n - length (b :: c))%nat) by lia. done.
Qed.
