(* ===== verification/DiagDevice.v ===== *)
(** * The modem's diag device ([lib/src/diag_device.rs])

    Opening it with retries, reading containers off it, and switching on the logs.  The character device is what
    its reads and writes give, one after another: reading past the end of the list is waiting for ever, [None].
    Opening and the [ioctl]s are one step that succeeds or fails.  The writers of requests and the reader
    of containers are [deku]'s: the class [DiagWire]. *)

From S2P Require Import Prelude RustStr Deku Hdlc DiagLog Diag.

Local Open Scope Z_scope.

(** ** Opening *)

Definition INITIAL_DELAY : Z := 100.
Definition MAX_DELAY : Z := 5000.
Definition MAX_DURATION : Z := 30000.

(** [new_with_retries], in milliseconds: [attempts] are what opening gives each time and the time since the start when
    it has; the delays that were slept come with the result. *)
Fixpoint new_with_retries {E D : Type} (max_duration delay : Z) (attempts : list (result E D * Z)) : option (result E D) * list Z :=
  match attempts with
  | [] => (None, [])
  | (Ok device, _) :: _ => (Some (Ok device), [])
  | (Err e, elapsed) :: attempts =>
      if max_duration <=? elapsed then (Some (Err e), [])
      else let '(r, slept) := new_with_retries max_duration (Z.min (delay * 2) MAX_DELAY) attempts in (r, delay :: slept)
  end.

(** ** Reading *)

Inductive IoErrorKind := Io_UnexpectedEof | Io_WriteZero | Io_Other.
Inductive DiagDeviceError {D : Deku} :=
| DeviceReadFailed (e : IoErrorKind)
| DeviceWriteFailed (e : IoErrorKind)
| RequestFailed (status : Z) (req : Request)
| NoResponse (req : Request)
| ParseMessagesContainerError (e : DekuError).

Class DiagWire {D : Deku} := {
  container_from_bytes : list Z -> result DekuError MessagesContainer;
  request_to_bytes : Request -> list Z;
  (** A request container, with the flag and its encapsulated request. *)
  request_container_to_bytes : bool -> list Z -> list Z
}.

Definition MAX_EMPTY_READS : Z := 16.

(** What the device does next: each read, and each write and flush. *)
Record DeviceScript := mkScript { reads : list (result IoErrorKind (list Z)); writes : list (result IoErrorKind unit); written : list (list Z) }.

Section device.
Context {C : Crc16} {D : Deku} {R : DiagReader} {X : DiagWire} (use_mdm : Z).

Fixpoint read_container (empty_reads : Z) (rs : list (result IoErrorKind (list Z)))
    : option (result DiagDeviceError MessagesContainer * list (result IoErrorKind (list Z))) :=
  match rs with
  | [] => None
  | Err e :: rs => Some (Err (DeviceReadFailed e), rs)
  | Ok bytes :: rs =>
      if (length bytes =? 0)%nat then
        if MAX_EMPTY_READS <=? empty_reads + 1 then Some (Err (DeviceReadFailed Io_UnexpectedEof), rs)
        else read_container (empty_reads + 1) rs
      else if (length bytes <=? 8)%nat then read_container 0 rs
      else Some (match container_from_bytes bytes with
                 | Ok container => Ok container
                 | Err err => Err (ParseMessagesContainerError err)
                 end, rs)
  end.

(** An operation on the device: [None] when it waits for ever. *)
Definition Dev (A : Type) : Type := DeviceScript -> option (result DiagDeviceError A * DeviceScript).
Definition dret {A : Type} (a : A) : Dev A := fun s => Some (Ok a, s).
Definition derr {A : Type} (e : DiagDeviceError) : Dev A := fun s => Some (Err e, s).
Definition dbind {A B : Type} (m : Dev A) (f : A -> Dev B) : Dev B := fun s =>
  match m s with
  | None => None
  | Some (Err e, s) => Some (Err e, s)
  | Some (Ok a, s) => f a s
  end.

Definition get_next_messages_container : Dev MessagesContainer := fun s =>
  match read_container 0 (reads s) with
  | None => None
  | Some (r, rs) => Some (r, mkScript rs (writes s) (written s))
  end.

(** ** Requests *)

Definition request_bytes (req : Request) : list Z := request_container_to_bytes (0 <? use_mdm) (hdlc_encapsulate (request_to_bytes req)).

(** One outcome of a write or a flush; there being no more to come means that they work. *)
Definition next_write (s : DeviceScript) : result IoErrorKind unit * DeviceScript :=
  match writes s with
  | [] => (Ok tt, s)
  | o :: os => (o, mkScript (reads s) os (written s))
  end.
Definition tolerated (o : result IoErrorKind unit) : option IoErrorKind :=
  match o with Ok _ | Err Io_WriteZero => None | Err e => Some e end.
Definition write_request (req : Request) : Dev unit := fun s =>
  let '(o, s) := next_write s in
  let s := mkScript (reads s) (writes s) (written s ++ [request_bytes req]) in
  match tolerated o with
  | Some e => Some (Err (DeviceWriteFailed e), s)
  | None =>
      let '(o, s) := next_write s in
      match tolerated o with
      | Some e => Some (Err (DeviceWriteFailed e), s)
      | None => Some (Ok tt, s)
      end
  end.

(** [read_response]: the first container for user space; there are no more of them than reads. *)
Fixpoint read_response_fuel (fuel : nat) : Dev (list (result DiagParsingError Message)) := fun s =>
  match fuel with
  | O => None
  | S fuel =>
      dbind get_next_messages_container (fun container =>
        match data_type container with
        | UserSpace => dret (container_messages container)
        | DataTypeOther _ => read_response_fuel fuel
        end) s
  end.
Definition read_response : Dev (list (result DiagParsingError Message)) := fun s => read_response_fuel (S (length (reads s))) s.

(** The loops over the messages of a response. *)
Fixpoint find_ranges (req : Request) (msgs : list (result DiagParsingError Message)) : Dev (list Z) :=
  match msgs with
  | [] => derr (NoResponse req)
  | Ok (Response _ _ _ _ _ status (LogConfigPayload (RetrieveIdRangesResponse sizes))) :: _ =>
      if negb (status =? 0) then derr (RequestFailed status req) else dret sizes
  | _ :: msgs => find_ranges req msgs
  end.
Fixpoint find_set_mask (req : Request) (msgs : list (result DiagParsingError Message)) : Dev unit :=
  match msgs with
  | [] => derr (NoResponse req)
  | Ok (Response _ _ _ _ _ status (LogConfigPayload SetMaskResponse)) :: _ =>
      if negb (status =? 0) then derr (RequestFailed status req) else dret tt
  | _ :: msgs => find_set_mask req msgs
  end.

Definition LOG_CODES_FOR_RAW_PACKET_LOGGING : list Z :=
  [LOG_GPRS_MAC_SIGNALLING_MESSAGE_C; LOG_GSM_RR_SIGNALING_MESSAGE_C; WCDMA_SIGNALLING_MESSAGE; LOG_LTE_RRC_OTA_MSG_LOG_C;
   LOG_NR_RRC_OTA_MSG_LOG_C; LOG_UMTS_NAS_OTA_MESSAGE_LOG_PACKET_C; LOG_LTE_NAS_ESM_OTA_IN_MSG_LOG_C; LOG_LTE_NAS_ESM_OTA_OUT_MSG_LOG_C;
   LOG_LTE_NAS_EMM_OTA_IN_MSG_LOG_C; LOG_LTE_NAS_EMM_OTA_OUT_MSG_LOG_C; LOG_DATA_PROTOCOL_LOGGING_C; LOG_LTE_ML1_SERVING_CELL_MEAS_AND_EVAL_C;
   LOG_LTE_ML1_NEIGHBOR_MEAS; LOG_LTE_MAC_RACH_RESPONSE_C; LOG_LTE_MAC_DL; LOG_LTE_MAC_UL; 0xb114].

Definition ranges_request : Request := LogConfig RetrieveIdRanges.
Definition mask_request (log_type size : Z) : Request := build_log_mask_request log_type size LOG_CODES_FOR_RAW_PACKET_LOGGING.

Definition retrieve_id_ranges : Dev (list Z) :=
  dbind (write_request ranges_request) (fun _ => dbind read_response (find_ranges ranges_request)).
Definition set_log_mask (log_type log_mask_bitsize : Z) : Dev unit :=
  let req := mask_request log_type log_mask_bitsize in
  dbind (write_request req) (fun _ => dbind read_response (find_set_mask req)).

Fixpoint set_log_masks (log_type : Z) (sizes : list Z) : Dev unit :=
  match sizes with
  | [] => dret tt
  | size :: sizes =>
      dbind (if 0 <? size then set_log_mask log_type size else dret tt) (fun _ => set_log_masks (log_type + 1) sizes)
  end.
Definition config_logs : Dev unit := dbind retrieve_id_ranges (set_log_masks 0).

(** The containers of the stream, until one fails: [as_stream]. *)
Fixpoint as_stream (fuel : nat) (s : DeviceScript) : list MessagesContainer * option DiagDeviceError :=
  match fuel with
  | O => ([], None)
  | S fuel =>
      match get_next_messages_container s with
      | None => ([], None)
      | Some (Err e, _) => ([], Some e)
      | Some (Ok c, s) => let '(cs, e) := as_stream fuel s in (c :: cs, e)
      end
  end.
End device.

(** ** Opening ends *)

(** A clock that goes on at least while the delays are slept. *)
Fixpoint paced_attempts {E D : Type} (delay slept : Z) (attempts : list (result E D * Z)) : Prop :=
  match attempts with
  | [] => True
  | (_, elapsed) :: attempts => slept <= elapsed /\ paced_attempts (Z.min (delay * 2) MAX_DELAY) (slept + delay) attempts
  end.
Theorem opening_ends {E D : Type} (attempts : list (result E D * Z)) :
  paced_attempts INITIAL_DELAY 0 attempts -> (12 <= length attempts)%nat -> exists r, (new_with_retries MAX_DURATION INITIAL_DELAY attempts).1 = Some r.
Proof.
  assert (Hg : forall n delay slept (attempts : list (result E D * Z)), (n <= length attempts)%nat -> paced_attempts delay slept attempts ->
    (exists sl, n = S sl /\ MAX_DURATION <= slept + (Nat.iter sl (fun '(d, acc) => (Z.min (d * 2) MAX_DELAY, acc + d)) (delay, 0)).2) ->
    exists r, (new_with_retries MAX_DURATION delay attempts).1 = Some r).
  - induction n as [|n IH]; intros delay slept [|[[d|e] elapsed] rest] Hl Hp (sl & Hn & Hs); try discriminate Hn; cbn [length] in Hl; try lia; cbn [new_with_retries].
    + by exists (Ok d).
    + destruct (Z.leb_spec MAX_DURATION elapsed); [by exists (Err e)|]. destruct Hp as [Hse Hp]. injection Hn as <-.
      destruct n as [|n]; [cbn in Hs; lia|]. specialize (IH (Z.min (delay * 2) MAX_DELAY) (slept + delay) rest ltac:(lia) Hp).
      destruct (new_with_retries MAX_DURATION (Z.min (delay * 2) MAX_DELAY) rest) as [r sl]. apply IH. exists n. split; [done|].
      assert (Hiter : forall k d a, (Nat.iter k (fun '(d, acc) => (Z.min (d * 2) MAX_DELAY, acc + d)) (d, a)).2 =
        a + (Nat.iter k (fun '(d, acc) => (Z.min (d * 2) MAX_DELAY, acc + d)) (d, 0)).2 /\
        (Nat.iter k (fun '(d, acc) => (Z.min (d * 2) MAX_DELAY, acc + d)) (d, a)).1 = (Nat.iter k (fun '(d, acc) => (Z.min (d * 2) MAX_DELAY, acc + d)) (d, 0)).1).
      { intros k d a. induction k as [|k [I1 I2]]; [cbn; lia|]. cbn [Nat.iter nat_rect]. unfold Nat.iter in *.
        destruct (nat_rect _ (d, a) _ k) as [d1 a1], (nat_rect _ (d, 0) _ k) as [d2 a2]. cbn [fst snd] in *. subst. lia. }
      replace (S n) with (n + 1)%nat in Hs by lia. rewrite Nat.iter_add in Hs. cbn [Nat.iter nat_rect] in Hs. rewrite Z.add_0_l in Hs.
      destruct (Hiter n (Z.min (delay * 2) MAX_DELAY) delay) as [Hi _]. unfold Nat.iter in *. rewrite Hi in Hs. lia.
  - intros Hp Hl. apply (Hg 12%nat INITIAL_DELAY 0 attempts Hl Hp). exists 11%nat. split; [done|]. vm_compute. discriminate.
Qed.

(** ** What a read gives *)

Section reading.
Context {D : Deku} {X : DiagWire}.

(** Short reads, with never sixteen empty ones in a row. *)
Fixpoint calm (empty_reads : Z) (pre : list (list Z)) : Prop :=
  match pre with
  | [] => True
  | b :: pre => if (length b =? 0)%nat then empty_reads + 1 < MAX_EMPTY_READS /\ calm (empty_reads + 1) pre else (length b <= 8)%nat /\ calm 0 pre
  end.

(** Short reads are passed over, and the first of more than eight bytes is the container; sixteen empty reads in a row
    are a device that has gone, whatever came before. *)
Theorem read_container_spec pre bytes rest : calm 0 pre ->
  ((8 < length bytes)%nat -> read_container 0 (map Ok pre ++ Ok bytes :: rest) =
     Some (match container_from_bytes bytes with Ok c => Ok c | Err e => Err (ParseMessagesContainerError e) end, rest)) /\
  (match last pre with Some b => b <> [] | None => True end ->
     read_container 0 (map Ok pre ++ replicate 16 (Ok []) ++ rest) = Some (Err (DeviceReadFailed Io_UnexpectedEof), rest)).
Proof.
  intros Hc. split.
  - intros Hl. revert Hc. generalize 0. induction pre as [|b pre IH]; intros n Hc; cbn [map app read_container calm] in *.
    + rewrite (proj2 (Nat.eqb_neq _ _)) by lia. by rewrite (proj2 (Nat.leb_gt _ _)) by lia.
    + destruct (length b =? 0)%nat; destruct Hc as [H1 H2]; [rewrite (proj2 (Z.leb_gt _ _)) by lia|rewrite (proj2 (Nat.leb_le _ _)) by lia]; by apply IH.
  - intros Hlast. assert (Hg : forall n, calm n pre -> (pre = [] -> n = 0) ->
      read_container n (map Ok pre ++ replicate 16 (Ok []) ++ rest) = Some (Err (DeviceReadFailed Io_UnexpectedEof), rest)); [|by apply Hg].
    clear Hc. induction pre as [|b pre IH]; intros n Hc Hn; [rewrite Hn by done; reflexivity|]. cbn [map app read_container calm] in *.
    destruct (length b =? 0)%nat eqn:Hb; destruct Hc as [H1 H2].
    + rewrite (proj2 (Z.leb_gt _ _)) by lia. destruct pre as [|b' pre].
      * apply Nat.eqb_eq in Hb. destruct b; [done|discriminate Hb].
      * apply IH; [exact Hlast|done|done].
    + rewrite (proj2 (Nat.leb_le _ _)) by lia. apply IH; [|done|done]. destruct pre; [done|exact Hlast].
Qed.
End reading.

(** ** What is asked of the modem *)

Section asked.
Context {C : Crc16} {D : Deku} {R : DiagReader} {X : DiagWire} (use_mdm : Z).

(** What an operation may write, by how it ends. *)
Definition sends {A : Type} (m : Dev A) (P : result DiagDeviceError A -> list Request -> Prop) : Prop :=
  forall s r s', m s = Some (r, s') -> exists reqs, written s' = written s ++ map (request_bytes use_mdm) reqs /\ P r reqs.
Lemma sends_ret {A : Type} (a : A) (P : result DiagDeviceError A -> list Request -> Prop) : P (Ok a) [] -> sends (dret a) P.
Proof. intros HP s r s' [= <- <-]. exists []. by rewrite app_nil_r. Qed.
Lemma sends_bind {A B : Type} (m : Dev A) (f : A -> Dev B) P Q :
  sends m P -> (forall a l, P (Ok a) l -> sends (f a) (fun r l' => Q r (l ++ l'))) -> (forall e l, P (Err e) l -> Q (Err e) l) -> sends (dbind m f) Q.
Proof.
  intros Hm Hf He s r s'. unfold dbind. destruct (m s) as [[[a|e] s1]|] eqn:H; [| |done]; apply Hm in H as (l & Hw & HP).
  - intros H'. apply (Hf a l HP) in H' as (l' & Hw' & HQ). exists (l ++ l'). by rewrite map_app, app_assoc, <- Hw, Hw'.
  - intros [= <- <-]. exists l. by split; [|apply He].
Qed.
Definition silent {A : Type} (m : Dev A) : Prop := sends m (fun _ l => l = []).
Lemma silent_next : silent get_next_messages_container.
Proof. intros s r s'. unfold get_next_messages_container. destruct (read_container 0 (reads s)) as [[r0 rs]|]; [|done]. intros [= <- <-]. exists []. by rewrite app_nil_r. Qed.
Lemma silent_bind {A B : Type} (m : Dev A) (f : A -> Dev B) : silent m -> (forall a, silent (f a)) -> silent (dbind m f).
Proof.
  intros Hm Hf. eapply sends_bind; [exact Hm| |done]. intros a l -> s r s' H. apply Hf in H as (l & Hw & ->). by exists [].
Qed.
Lemma silent_response : silent read_response.
Proof.
  intros s. unfold read_response. generalize (S (length (reads s))). intros fuel. revert s. change (silent (read_response_fuel fuel)).
  induction fuel as [|fuel IH]; [by intros s r s'|]. cbn [read_response_fuel].
  change (silent (dbind get_next_messages_container (fun container => match data_type container with UserSpace => dret (container_messages container) | DataTypeOther _ => read_response_fuel fuel end))).
  apply silent_bind; [apply silent_next|]. intros c. destruct (data_type c); [by apply sends_ret|exact IH].
Qed.
Lemma silent_err {A : Type} (e : DiagDeviceError) : silent (A := A) (derr e).
Proof. intros s r s' [= <- <-]. exists []. by rewrite app_nil_r. Qed.
Lemma silent_find_ranges req msgs : silent (find_ranges req msgs).
Proof.
  induction msgs as [|m msgs IH]; cbn [find_ranges]; [apply silent_err|]. repeat case_match; try exact IH; try apply silent_err; by apply sends_ret.
Qed.
Lemma silent_find_set_mask req msgs : silent (find_set_mask req msgs).
Proof.
  induction msgs as [|m msgs IH]; cbn [find_set_mask]; [apply silent_err|]. repeat case_match; try exact IH; try apply silent_err; by apply sends_ret.
Qed.
Lemma next_write_written s o s' : next_write s = (o, s') -> written s' = written s.
Proof. unfold next_write. destruct (writes s); by intros [= <- <-]. Qed.
Lemma sends_request req : sends (write_request use_mdm req) (fun _ l => l = [req]).
Proof.
  intros s r s'. unfold write_request. destruct (next_write s) as [o s1] eqn:H1. apply next_write_written in H1 as Hw1.
  set (s2 := mkScript (reads s1) (writes s1) (written s1 ++ [request_bytes use_mdm req])).
  assert (Hw2 : written s2 = written s ++ [request_bytes use_mdm req]) by (cbn; by rewrite Hw1).
  destruct (tolerated o); [intros [= <- <-]; by exists [req]|]. destruct (next_write s2) as [o' s3] eqn:H3.
  apply next_write_written in H3 as Hw3.
  destruct (tolerated o'); intros [= <- <-]; exists [req]; (split; [cbn [map]; by rewrite Hw3|done]).
Qed.
Lemma sends_exchange {A : Type} req (f : list (result DiagParsingError Message) -> Dev A) : (forall msgs, silent (f msgs)) ->
  sends (dbind (write_request use_mdm req) (fun _ => dbind read_response f)) (fun _ l => l = [req]).
Proof.
  intros Hf. eapply sends_bind; [apply sends_request| |done]. intros a l -> s r s' H.
  assert (Hs : silent (dbind read_response f)) by (apply silent_bind; [apply silent_response|done]). apply Hs in H as (l & Hw & ->). by exists [].
Qed.

(** The masks asked for, one for each type the modem has logs of. *)
Fixpoint mask_requests (log_type : Z) (sizes : list Z) : list Request :=
  match sizes with
  | [] => []
  | size :: sizes => (if 0 <? size then [mask_request log_type size] else []) ++ mask_requests (log_type + 1) sizes
  end.
Lemma sends_masks log_type sizes : sends (set_log_masks use_mdm log_type sizes)
  (fun r l => l `prefix_of` mask_requests log_type sizes /\ (is_ok r = true -> l = mask_requests log_type sizes)).
Proof.
  revert log_type. induction sizes as [|size sizes IH]; intros log_type; cbn [set_log_masks mask_requests]; [by apply sends_ret|].
  eapply (sends_bind _ _ (fun _ l => l = if 0 <? size then [mask_request log_type size] else [])).
  - destruct (0 <? size); [|by apply sends_ret]. apply sends_exchange. intros. apply silent_find_set_mask.
  - intros a l -> s r s' H. apply IH in H as (l & Hw & Hp & Ho). exists l. split; [done|]. split; [by apply prefix_app|]. intros Hr. by rewrite (Ho Hr).
  - intros e l ->. split; [by apply prefix_app_r|done].
Qed.

(** What is asked of the modem, whatever it answers and however writing fails: the ranges, and then, in order, a mask for
    each type it has logs of; all of it when the configuration succeeds, and otherwise the beginning of it, up to
    where it failed. *)
Theorem config_logs_requests s r s' : config_logs use_mdm s = Some (r, s') ->
  exists sizes reqs, written s' = written s ++ map (request_bytes use_mdm) reqs /\
    reqs `prefix_of` ranges_request :: mask_requests 0 sizes /\ (is_ok r = true -> reqs = ranges_request :: mask_requests 0 sizes).
Proof.
  intros H. assert (Hs : sends (config_logs use_mdm) (fun r l => exists sizes, l `prefix_of` ranges_request :: mask_requests 0 sizes /\
    (is_ok r = true -> l = ranges_request :: mask_requests 0 sizes))).
  - unfold config_logs. eapply sends_bind.
    + apply sends_exchange. intros. apply silent_find_ranges.
    + intros sizes l -> s0 r0 s0' H0. apply sends_masks in H0 as (l & Hw & Hp & Ho). exists l. split; [done|]. exists sizes.
      cbn [app]. split; [by apply prefix_cons|]. intros Hr. by rewrite (Ho Hr).
    + intros e l ->. exists []. split; [apply prefix_cons, prefix_nil|done].
  - apply Hs in H as (l & Hw & sizes & Hp & Ho). by exists sizes, l.
Qed.

(** What is written reads back as the request: unframing a request's frame gives its bytes. *)
Theorem request_frame_reads_back req : hdlc_decapsulate (hdlc_encapsulate (request_to_bytes req)) = Ok (request_to_bytes req).
Proof. apply decapsulate_frame. Qed.
End asked.
