(* ===== verification/Webdav.v ===== *)
(** * Uploading recordings ([daemon/src/webdav.rs])

    The worker that copies finished recordings to a WebDAV server: which recording is next, the upload
    of its files one by one, and what happens to it afterwards.  The lock on the store is held only while
    a file is opened, so that other tasks run in between: [others] says what they do at each
    such point.  [network] says how each request ends. *)

From S2P Require Import Prelude RustStr Filesystem Sidecar Store StoreSafety.

Local Open Scope Z_scope.

(** ** Configuration *)

Record WebdavConfig := mkWebdavConfig {
  url : rstr;
  username : option rstr;
  password : option rstr;
  upload_timeout_secs : Z;
  poll_interval_secs : Z;
  min_age_secs : Z;
  delete_on_upload : bool }.

Definition WebdavConfig_default : WebdavConfig := mkWebdavConfig [] None None 300 3600 86400 false.

Definition between (lo hi v : Z) : bool := (lo <=? v) && (v <=? hi).

Inductive WebdavInvalid := UploadTimeoutSecs (v : Z) | PollIntervalSecs (v : Z) | MinAgeSecs (v : Z).

Definition validate_webdav (c : WebdavConfig) : result WebdavInvalid unit :=
  if negb (between 1 3600 (upload_timeout_secs c)) then Err (UploadTimeoutSecs (upload_timeout_secs c))
  else if negb (between 1 604800 (poll_interval_secs c)) then Err (PollIntervalSecs (poll_interval_secs c))
  else if negb (between 0 315360000 (min_age_secs c)) then Err (MinAgeSecs (min_age_secs c))
  else Ok tt.

(** [TimeDelta::try_seconds]: milliseconds must fit an [i64]; in nanoseconds here. *)
Definition try_seconds (secs : Z) : option Z :=
  let limit := (2 ^ 63 - 1) / 1000 in
  if between (- limit) limit secs then Some (secs * 10 ^ 9) else None.

(** [WebdavUploadWorkerConfig::from]: the age, zero when it is out of range. *)
Definition min_age (c : WebdavConfig) : Z := default 0 (try_seconds (min_age_secs c)).

(** [WebDavClient::new]: the base address ends in a slash. *)
Definition client_url (u : rstr) : rstr :=
  match last u with Some 47 => u | _ => u ++ [47] end.

(** [try_upload_file]: where a file goes, and the credentials sent along. *)
Definition target (u name : rstr) : rstr := client_url u ++ name.
Definition credentials (c : WebdavConfig) : option (rstr * option rstr) :=
  match username c, password c with
  | Some u, Some p => Some (u, Some p)
  | Some u, None => Some (u, None)
  | None, _ => None
  end.

(** ** The worker *)

(** How a request ends: the server takes the file, or does not (an error, a refusal, a time-out, a size
    that cannot be read), or the daemon is shutting down. *)
Inductive Response := Delivered | Refused | Shutdown.

(** The store and its files, what the server has acknowledged so far (file name and contents), and
    the number of times the lock has been taken. *)
Record Dav := mkDav { sys : Sys; received : list (rstr * list Z); turn : nat }.

Section worker.
Context (to_toml : Manifest -> list Z) (to_vec : RecordingSidecar -> result ErrorKind (list Z))
  (from_slice : list Z -> option RecordingSidecar) (uptime : option rstr)
  (network : nat -> Response) (others : nat -> Sys -> Sys).
Abbreviation delete_entry := (delete_entry to_toml to_vec from_slice uptime).

(** Waiting for the lock: other tasks have had their turn when it is held. *)
Definition lock (d : Dav) : Dav := mkDav (others (turn d) (sys d)) (received d) (S (turn d)).

Definition put_sys (s : Sys) (d : Dav) : Dav := mkDav s (received d) (turn d).
Definition acknowledge (p : rstr) (bytes : list Z) (d : Dav) : Dav := mkDav (sys d) (received d ++ [(p, bytes)]) (turn d).

Definition try_upload_entry (entry_name : rstr) (k : FileKind) (d : Dav) : option unit * Dav :=
  let d := lock d in
  match entry_for_name (store (sys d)) entry_name with
  | None => (None, d)
  | Some (idx, e) =>
      let '(file, w) := open_file (store (sys d)) idx k (world (sys d)) in
      let d := put_sys (mkSys (store (sys d)) w) d in
      match file with
      | Ok None => (Some tt, d)
      | Err _ => (None, d)
      | Ok (Some p) =>
          match network (turn d) with
          | Delivered => (Some tt, acknowledge (get_filename k entry_name (compressed e)) (default [] (files w !! p)) d)
          | Refused | Shutdown => (None, d)
          end
      end
  end.

(** [join_all]: every upload runs to its end, whatever the others do; taken in the order of the kinds. *)
Fixpoint upload_files (kinds : list FileKind) (entry_name : rstr) (d : Dav) : list (option unit) * Dav :=
  match kinds with
  | [] => ([], d)
  | k :: kinds =>
      let '(r, d1) := try_upload_entry entry_name k d in
      let '(rs, d2) := upload_files kinds entry_name d1 in
      (r :: rs, d2)
  end.

(** What follows a complete upload; a failure of it is only logged. *)
Definition settle (del : bool) (entry_name : rstr) (d : Dav) : Dav :=
  let d := lock d in
  if del then put_sys (delete_entry entry_name (sys d)).2 d
  else match get_adjusted_now (E := RecordingStoreError) (world (sys d)) with
       | (Ok now, w) => put_sys (mark_entry_as_uploaded to_toml entry_name now (mkSys (store (sys d)) w)).2 d
       | (Err _, w) => put_sys (mkSys (store (sys d)) w) d
       end.

(** The choice of the next recording, under the lock. *)
Definition next_unuploaded (age : Z) (d : Dav) : option rstr * Dav :=
  let d := lock d in
  match get_adjusted_now (E := RecordingStoreError) (world (sys d)) with
  | (Ok now, w) => (get_next_unuploaded_entry (store (sys d)) now age, put_sys (mkSys (store (sys d)) w) d)
  | (Err _, w) => (None, put_sys (mkSys (store (sys d)) w) d)
  end.

(** One turn of the inner loop: whether it goes on. *)
Definition upload_next (age : Z) (del : bool) (d : Dav) : bool * Dav :=
  let '(next, d) := next_unuploaded age d in
  match next with
  | None => (false, d)
  | Some n =>
      let '(results, d) := upload_files ALL n d in
      if forallb (fun r => bool_decide (is_Some r)) results then (true, settle del n d) else (false, d)
  end.

(** The inner loop; the first component says whether it ended within [fuel] turns. *)
Fixpoint upload_pending (fuel : nat) (age : Z) (del : bool) (d : Dav) : bool * Dav :=
  match fuel with
  | O => (false, d)
  | S fuel => let '(go, d1) := upload_next age del d in
              if go then upload_pending fuel age del d1 else (true, d1)
  end.
End worker.

(** ** Uploading one recording *)

Lemma get_filename_of e k n c : name e = n -> compressed e = c -> get_filename k n c = file_of e k.
Proof. by intros <- <-. Qed.

Lemma position_name n es idx : position n es = Some idx -> exists e, es !! idx = Some e /\ name e = n.
Proof. unfold position. intros ([i e] & (He & Hn & _)%list_find_Some & ->)%fmap_Some. by exists e. Qed.

Lemma entry_for_name_spec st n idx e :
  entry_for_name st n = Some (idx, e) <-> position n (entries st) = Some idx /\ entries st !! idx = Some e.
Proof.
  unfold entry_for_name. destruct (position n (entries st)) as [i|]; cbn; [|naive_solver].
  destruct (entries st !! i) as [e'|] eqn:He; cbn; naive_solver.
Qed.

Lemma entry_for_name_name st n idx e : entry_for_name st n = Some (idx, e) -> name e = n.
Proof. intros [(e' & He' & <-)%position_name He]%entry_for_name_spec. by simplify_eq. Qed.

(** The recording called [n], unless it has been deleted, is finished and has the files [was]. *)
Definition intact_entry (n : rstr) (c : bool) (was : FileKind -> option (list Z)) (s : Sys) : Prop :=
  forall idx e, entry_for_name (store s) n = Some (idx, e) ->
    is_current_entry (store s) n = false /\ compressed e = c /\ forall k, sys_files s !! get_filename k n c = was k.

Lemma open_file_spec st idx e k w :
  entries st !! idx = Some e ->
  files (open_file st idx k w).2 = files w /\
  match (open_file st idx k w).1 with
  | Ok None => files w !! file_of e k = None
  | Ok (Some p) => p = file_of e k
  | Err _ => True
  end.
Proof.
  intros He. unfold open_file. rewrite He. unfold attempt, mbind, M_bind, open_existing, faulty.
  destruct (schedule w) as [|[f|] sch]; cbn; [|done|]; by destruct (files w !! file_of e k) eqn:Hf.
Qed.

(** A recording in progress writes to files of its own. *)
Lemma capture_file_other e k n c : name e <> n -> file_of e Kind_Qmdl <> get_filename k n c.
Proof.
  intros Hne Heq. assert (Hf : get_filename k n c = n ++ ending k c) by (by destruct k, c). rewrite Hf, file_of_ending in Heq.
  revert Heq. destruct k, c, (compressed e); try (apply endings_ne; vm_compute; reflexivity); by intros ?%app_inv_tail.
Qed.

Lemma capture_leaves_finished bytes n c was s : intact_entry n c was s -> intact_entry n c was (capture bytes s).2.
Proof.
  intros Hs. unfold capture. rewrite get_store_bind. destruct (get_current_entry (store s)) as [[i cur]|] eqn:Hcur; [|exact Hs].
  intros idx e. rewrite io_store. intros He. destruct (Hs idx e He) as (Hn & Hc & Hw). split; [done|]. split; [done|].
  intros k. rewrite <- Hw. apply (io_touches _ {[file_of cur Kind_Qmdl]}); [apply append_touches|]. rewrite elem_of_singleton.
  apply not_eq_sym, capture_file_other. unfold is_current_entry in Hn. unfold get_current_entry in Hcur.
  destruct (current_entry (store s)) as [i'|]; [|done]. cbn in Hcur. destruct (entries (store s) !! i') as [e'|]; [|done].
  cbn in Hcur. simplify_eq. by apply bool_decide_eq_false in Hn.
Qed.

Section proofs.
Context (to_toml : Manifest -> list Z) (to_vec : RecordingSidecar -> result ErrorKind (list Z))
  (from_slice : list Z -> option RecordingSidecar) (uptime : option rstr) (network : nat -> Response).

Section one.
Context (others : nat -> Sys -> Sys) (n : rstr) (c : bool) (was : FileKind -> option (list Z)).
Hypothesis others_leave_it : forall m s, intact_entry n c was s -> intact_entry n c was (others m s).
Abbreviation try_upload := (try_upload_entry network others n).

Lemma try_upload_spec k d :
  intact_entry n c was (sys d) ->
  let '(r, d1) := try_upload k d in
  intact_entry n c was (sys d1) /\ received d `prefix_of` received d1 /\
  (is_Some r -> forall bytes, was k = Some bytes -> (get_filename k n c, bytes) ∈ received d1).
Proof.
  intros Hd. unfold try_upload_entry. set (dl := lock others d).
  assert (Hl : intact_entry n c was (sys dl)) by apply others_leave_it, Hd.
  destruct (entry_for_name (store (sys dl)) n) as [[idx e]|] eqn:He.
  2:{ split; [done|]. split; [done|]. by intros []. }
  destruct (Hl idx e He) as (Hcur & Hc & Hw). pose proof (entry_for_name_name _ _ _ _ He) as Hn.
  pose proof (proj1 (entry_for_name_spec _ _ _ _) He) as [_ Hlook].
  pose proof (open_file_spec (store (sys dl)) idx e k (world (sys dl)) Hlook) as [Hf Ho].
  destruct (open_file (store (sys dl)) idx k (world (sys dl))) as [file w]. cbn [fst snd] in *.
  assert (Hi : intact_entry n c was (mkSys (store (sys dl)) w)).
  { intros i' e' He'. destruct (Hl i' e' He') as (? & ? & Hw'). split; [done|]. split; [done|]. intros k'. unfold sys_files. cbn. rewrite Hf. apply Hw'. }
  destruct file as [[p|]|err].
  - subst p. destruct (network (turn (put_sys _ dl))).
    2-3: split; [exact Hi|]; split; [done | by intros []].
    split; [exact Hi|]. split; [apply prefix_app_r; done|]. intros _ bytes Hb. apply elem_of_app. right.
    apply list_elem_of_singleton. rewrite <- (get_filename_of e k n c) by done. rewrite Hc, Hf.
    fold (sys_files (sys dl)). by rewrite Hw, Hb.
  - split; [exact Hi|]. split; [done|]. intros _ bytes Hb. exfalso.
    rewrite <- (get_filename_of e k n c) in Ho by done. fold (sys_files (sys dl)) in Ho. rewrite Hw in Ho. congruence.
  - split; [exact Hi|]. split; [done | by intros []].
Qed.

Lemma upload_files_spec kinds d :
  intact_entry n c was (sys d) ->
  let '(rs, d1) := upload_files network others kinds n d in
  intact_entry n c was (sys d1) /\ received d `prefix_of` received d1 /\
  (forallb (fun r => bool_decide (is_Some r)) rs = true ->
   forall k bytes, k ∈ kinds -> was k = Some bytes -> (get_filename k n c, bytes) ∈ received d1).
Proof.
  revert d. induction kinds as [|k kinds IH]; intros d Hd; cbn [upload_files].
  { split; [done|]. split; [done|]. intros _ k bytes Hk. by apply elem_of_nil in Hk. }
  pose proof (try_upload_spec k d Hd) as H1. destruct (try_upload k d) as [r d1]. destruct H1 as (Hi1 & Hp1 & Hr1).
  specialize (IH d1 Hi1). destruct (upload_files network others kinds n d1) as [rs d2]. destruct IH as (Hi2 & Hp2 & Hr2).
  split; [done|]. split; [by etrans|]. cbn [forallb]. intros [Hr Hrs]%andb_true_iff k' bytes Hk Hb.
  apply bool_decide_eq_true in Hr. apply elem_of_cons in Hk as [->|Hk]; [|by apply Hr2].
  eapply elem_of_prefix; [by apply Hr1 | done].
Qed.

Lemma settle_deletes_uploaded d p bytes :
  intact_entry n c was (sys d) -> (forall k b, was k = Some b -> (get_filename k n c, b) ∈ received d) ->
  p ∉ manifest_files -> sys_files (sys (lock others d)) !! p = Some bytes ->
  sys_files (sys (settle to_toml to_vec from_slice uptime others true n d)) !! p = Some bytes \/ (p, bytes) ∈ received d.
Proof.
  intros Hd Hall Hp Hb. unfold settle. set (dl := lock others d) in *. cbn [put_sys sys].
  assert (Hl : intact_entry n c was (sys dl)) by apply others_leave_it, Hd.
  pose proof (delete_entry_effect to_toml to_vec from_slice uptime n (sys dl)) as H.
  destruct (delete_entry to_toml to_vec from_slice uptime n (sys dl)) as [r s']. cbn [snd].
  destruct H as [(_ & -> & _) | (idx & e & Hpos & He & Hn & Hout & _)]; [by left|].
  destruct (decide (p ∈ entry_files e)) as [Hin|Hni]; [right | left; by rewrite Hout].
  destruct (Hl idx e) as (_ & Hc & Hw); [by apply entry_for_name_spec|].
  unfold entry_files in Hin. apply elem_of_list_to_set, list_elem_of_fmap in Hin as (k & -> & _).
  rewrite <- (get_filename_of e k n c) by done. apply Hall. by rewrite <- Hw, (get_filename_of e k n c) by done.
Qed.
End one.
End proofs.

(** ** The choice *)

Lemma max_by_age_greatest l x :
  max_by_age l = Some x -> x ∈ l /\ forall y, y ∈ l -> y.2 <= x.2.
Proof.
  revert x. induction l as [|a l IH]; intros x; cbn [max_by_age]; [done|].
  destruct (max_by_age l) as [m|] eqn:Hm.
  - destruct (IH m eq_refl) as [Hin Hmax]. destruct (Z.leb_spec a.2 m.2); intros [= <-]; (split; [set_solver|]);
      intros y [->|Hy]%elem_of_cons; try lia; specialize (Hmax y Hy); lia.
  - intros [= <-]. destruct l as [|b l]; [|cbn in Hm; by destruct (max_by_age l); [case_match|]].
    split; [set_solver|]. intros y ->%list_elem_of_singleton. lia.
Qed.

Definition entry_age (now : Z) (e : ManifestEntry) : Z := now - default (start_time e) (last_message_time e).
Definition eligible (st : RecordingStore) (now age : Z) (e : ManifestEntry) : Prop :=
  e ∈ entries st /\ is_current_entry st (name e) = false /\ upload_time e = None /\ age < entry_age now e.

Lemma eligible_elem st now age x :
  x ∈ omap (fun e => if is_current_entry st (name e) || bool_decide (is_Some (upload_time e)) then None
                     else let a := now - default (start_time e) (last_message_time e) in
                          if age <? a then Some (name e, a) else None) (entries st) <->
  exists e, eligible st now age e /\ x = (name e, entry_age now e).
Proof.
  rewrite list_elem_of_omap. unfold eligible, entry_age. split.
  - intros (e & Hin & He). exists e. destruct (is_current_entry st (name e)); [done|].
    destruct (upload_time e); cbn in He; [done|]. destruct (Z.ltb_spec age (now - default (start_time e) (last_message_time e))); [|done].
    by injection He as <-.
  - intros (e & (Hin & Hc & Hu & Ha) & ->). exists e. split; [done|]. rewrite Hc, Hu. cbn.
    by apply Z.ltb_lt in Ha as ->.
Qed.

Lemma get_next_spec st now age n :
  get_next_unuploaded_entry st now age = Some n ->
  exists e, eligible st now age e /\ name e = n /\ forall e', eligible st now age e' -> entry_age now e' <= entry_age now e.
Proof.
  unfold get_next_unuploaded_entry. intros ([m a] & Hm & ->)%fmap_Some.
  apply max_by_age_greatest in Hm as [Hin Hmax]. apply eligible_elem in Hin as (e & He & [= -> ->]). exists e.
  split; [done|]. split; [done|]. intros e' He'. apply (Hmax (name e', entry_age now e')). apply eligible_elem. eauto.
Qed.

(** ** The loop, when nothing else runs *)

Definition alone (m : nat) (s : Sys) : Sys := s.

Section loop.
Context (to_toml : Manifest -> list Z) (to_vec : RecordingSidecar -> result ErrorKind (list Z))
  (from_slice : list Z -> option RecordingSidecar) (uptime : option rstr) (network : nat -> Response).
Abbreviation settle_alone := (settle to_toml to_vec from_slice uptime alone).
Abbreviation next_alone := (upload_next to_toml to_vec from_slice uptime network alone).
Abbreviation pending_alone := (upload_pending to_toml to_vec from_slice uptime network alone).

(** The files outside the manifest that are gone have been sent. *)
Definition sent_or_kept (d d' : Dav) : Prop :=
  received d `prefix_of` received d' /\
  forall p bytes, p ∉ manifest_files -> sys_files (sys d) !! p = Some bytes ->
    sys_files (sys d') !! p = Some bytes \/ (p, bytes) ∈ received d'.

Lemma sent_or_kept_refl d : sent_or_kept d d.
Proof. split; [done | by left]. Qed.
Lemma sent_or_kept_trans d1 d2 d3 : sent_or_kept d1 d2 -> sent_or_kept d2 d3 -> sent_or_kept d1 d3.
Proof.
  intros [Hp1 H1] [Hp2 H2]. split; [by etrans|]. intros p bytes Hp Hb.
  destruct (H1 p bytes Hp Hb) as [Hb2|Hr]; [by apply H2 | right; by eapply elem_of_prefix].
Qed.
Lemma sent_or_kept_same d d' :
  sys_files (sys d') = sys_files (sys d) -> received d `prefix_of` received d' -> sent_or_kept d d'.
Proof. intros Hf Hr. split; [done|]. intros p bytes _ Hb. left. by rewrite Hf. Qed.

Lemma try_upload_keeps n k d :
  let d' := (try_upload_entry network alone n k d).2 in
  store (sys d') = store (sys d) /\ sys_files (sys d') = sys_files (sys d).
Proof.
  unfold try_upload_entry, lock, alone. cbn [sys].
  destruct (entry_for_name (store (sys d)) n) as [[idx e]|] eqn:He; [|done].
  apply entry_for_name_spec in He as [_ He]. pose proof (open_file_spec _ idx e k (world (sys d)) He) as [Hf _].
  destruct (open_file _ idx k (world (sys d))) as [[[p|]|err] w]; [|done|done]. by destruct (network _).
Qed.

Lemma upload_files_keeps kinds n d :
  let d' := (upload_files network alone kinds n d).2 in
  store (sys d') = store (sys d) /\ sys_files (sys d') = sys_files (sys d).
Proof.
  revert d. induction kinds as [|k kinds IH]; intros d; cbn [upload_files]; [done|].
  pose proof (try_upload_keeps n k d) as [Hs Hf]. destruct (try_upload_entry network alone n k d) as [r d1]. cbn [snd] in *.
  specialize (IH d1) as [Hs2 Hf2]. destruct (upload_files network alone kinds n d1) as [rs d2]. cbn [snd] in *.
  by rewrite Hs2, Hf2.
Qed.

(** The files of a finished recording, as they stand. *)
Lemma intact_now n s : is_current_entry (store s) n = false -> exists c was, intact_entry n c was s.
Proof.
  intros Hc. destruct (entry_for_name (store s) n) as [[idx e]|] eqn:He.
  - exists (compressed e), (fun k => sys_files s !! get_filename k n (compressed e)).
    intros idx' e' He'. rewrite He in He'. by simplify_eq.
  - exists true, (fun _ => None). intros idx e. by rewrite He.
Qed.

Lemma settle_sent_or_kept del n d c was :
  intact_entry n c was (sys d) -> (forall k b, was k = Some b -> (get_filename k n c, b) ∈ received d) ->
  sent_or_kept d (settle_alone del n d).
Proof.
  intros Hd Hall. split; [by destruct del|]. intros p bytes Hp Hb. destruct del.
  - change (received (settle_alone true n d)) with (received d).
    by apply (settle_deletes_uploaded to_toml to_vec from_slice uptime alone n c was (fun m s H => H)).
  - left. unfold settle, lock, alone. cbn [sys put_sys get_adjusted_now].
    unfold get_adjusted_now, local_now, get_offset, mbind, M_bind. cbn.
    set (s1 := mkSys _ _). rewrite <- Hb. change (sys_files (sys d)) with (sys_files s1).
    apply (touches_bind sys_files manifest_files); [eapply touches_weaken; [|apply (find_entry_touches ∅)]; set_solver| |done].
    intros idx. apply touches_bind; [apply alter_entry_touches|]. intros _. apply write_manifest_touches.
Qed.

Lemma next_unuploaded_leaves age d :
  let '(next, d') := next_unuploaded alone age d in
  store (sys d') = store (sys d) /\ sys_files (sys d') = sys_files (sys d) /\ received d' = received d /\
  exists now, next = get_next_unuploaded_entry (store (sys d)) now age.
Proof. unfold next_unuploaded. cbn. split_and!; [done..|]. by eexists. Qed.

Lemma upload_next_sent_or_kept age del d : sent_or_kept d (next_alone age del d).2.
Proof.
  unfold upload_next. pose proof (next_unuploaded_leaves age d) as Hn.
  destruct (next_unuploaded alone age d) as [next d1]. destruct Hn as (Hs1 & Hf1 & Hr1 & now & Hnext).
  assert (H1 : sent_or_kept d d1) by (apply sent_or_kept_same; by rewrite ?Hr1).
  destruct next as [n|]; [|exact H1].
  symmetry in Hnext. apply get_next_spec in Hnext as (e & (_ & Hcur & _) & <- & _). set (n := name e) in *.
  rewrite <- Hs1 in Hcur. destruct (intact_now n (sys d1) Hcur) as (c & was & Hi).
  pose proof (upload_files_spec network alone n c was (fun m s H => H) ALL d1 Hi) as H.
  pose proof (upload_files_keeps ALL n d1) as [_ Hf].
  destruct (upload_files network alone ALL n d1) as [rs d2]. cbn [snd] in Hf. destruct H as (Hi2 & Hp & Hall).
  assert (H2 : sent_or_kept d d2) by (eapply sent_or_kept_trans; [exact H1 | by apply sent_or_kept_same]).
  destruct (forallb _ rs); [|exact H2]. cbn [snd]. eapply sent_or_kept_trans; [exact H2|].
  apply (settle_sent_or_kept del n d2 c was Hi2). intros k b. apply Hall; [done|]. destruct k; set_solver.
Qed.

Lemma upload_pending_sent_or_kept fuel age del d : sent_or_kept d (pending_alone fuel age del d).2.
Proof.
  revert d. induction fuel as [|fuel IH]; intros d; cbn [upload_pending]; [apply sent_or_kept_refl|].
  pose proof (upload_next_sent_or_kept age del d) as H. destruct (next_alone age del d) as [[] d1]; [|exact H].
  by eapply sent_or_kept_trans; [|apply IH].
Qed.
End loop.

(** ** The loop ends *)

Definition waiting (es : Manifest) : nat := length (filter (fun e => upload_time e = None) es).

Lemma waiting_alter es idx e t :
  es !! idx = Some e -> upload_time e = None -> S (waiting (alter (set_uploaded t) idx es)) = waiting es.
Proof.
  unfold waiting. revert idx. induction es as [|a es IH]; intros idx; [done|]. destruct idx as [|idx]; cbn [lookup list_lookup].
  - intros [= ->] Hu. cbn [alter list_alter]. rewrite !filter_cons, decide_False, decide_True by done. done.
  - intros He Hu. cbn [alter list_alter]. rewrite !filter_cons. specialize (IH idx He Hu). case_decide; cbn [length]; lia.
Qed.

Lemma names_alter es idx t : map name (alter (set_uploaded t) idx es) = map name es.
Proof. revert idx. induction es as [|a es IH]; intros [|idx]; cbn; [done..|]. f_equal. apply IH. Qed.

Lemma position_NoDup es idx e : NoDup (map name es) -> es !! idx = Some e -> position (name e) es = Some idx.
Proof.
  intros Hnd He. unfold position. apply fmap_Some. exists (idx, e). split; [|done]. apply list_find_Some. split; [done|]. split; [done|].
  intros j e' He' Hlt Hn. apply (list_lookup_fmap_Some_2 name) in He, He'. rewrite Hn in He'.
  pose proof (NoDup_lookup _ _ _ _ Hnd He He'). lia.
Qed.

Section termination.
Context (to_toml : Manifest -> list Z) (to_vec : RecordingSidecar -> result ErrorKind (list Z))
  (from_slice : list Z -> option RecordingSidecar) (uptime : option rstr) (network : nat -> Response).

Lemma mark_store n t idx s :
  position n (entries (store s)) = Some idx ->
  store (mark_entry_as_uploaded to_toml n t s).2 = set_entries (alter (set_uploaded t) idx (entries (store s))) (store s).
Proof.
  intros Hp. unfold mark_entry_as_uploaded. erewrite bind_ok; [|unfold find_entry; rewrite get_store_bind, Hp; reflexivity].
  erewrite bind_ok by reflexivity. apply write_manifest_store.
Qed.

Lemma settle_marks n idx d :
  position n (entries (store (sys d))) = Some idx ->
  exists t, store (sys (settle to_toml to_vec from_slice uptime alone false n d)) =
    set_entries (alter (set_uploaded t) idx (entries (store (sys d)))) (store (sys d)).
Proof.
  intros Hp. eexists. set (w := (get_adjusted_now (E := RecordingStoreError) (world (sys d))).2).
  exact (mark_store n _ idx (mkSys (store (sys d)) w) Hp).
Qed.

Lemma upload_next_marks age d :
  NoDup (map name (entries (store (sys d)))) ->
  let '(go, d') := upload_next to_toml to_vec from_slice uptime network alone age false d in
  map name (entries (store (sys d'))) = map name (entries (store (sys d))) /\
  (go = true -> S (waiting (entries (store (sys d')))) = waiting (entries (store (sys d)))).
Proof.
  intros Hnd. unfold upload_next. pose proof (next_unuploaded_leaves age d) as Hn.
  destruct (next_unuploaded alone age d) as [next d1]. destruct Hn as (Hs1 & _ & _ & now & ->).
  destruct (get_next_unuploaded_entry (store (sys d)) now age) as [n|] eqn:Hn; [|cbn; split; [by rewrite Hs1 | done]].
  apply get_next_spec in Hn as (e & (Hin & _ & Hu & _) & <- & _).
  pose proof (upload_files_keeps network ALL (name e) d1) as [Hs2 _].
  destruct (upload_files network alone ALL (name e) d1) as [rs d2]. cbn [snd] in Hs2. rewrite Hs1 in Hs2.
  destruct (forallb _ rs); [|cbn; split; [by rewrite Hs2 | done]].
  apply list_elem_of_lookup in Hin as (idx & He). pose proof (position_NoDup _ _ _ Hnd He) as Hpos.
  rewrite <- Hs2 in Hpos. destruct (settle_marks _ _ _ Hpos) as [t ->]. cbn [set_entries entries]. rewrite Hs2, names_alter. split; [done|]. intros _. by eapply waiting_alter.
Qed.

Lemma upload_pending_ends age fuel d :
  NoDup (map name (entries (store (sys d)))) -> (waiting (entries (store (sys d))) < fuel)%nat ->
  (upload_pending to_toml to_vec from_slice uptime network alone fuel age false d).1 = true.
Proof.
  revert d. induction fuel as [|fuel IH]; intros d Hnd Hlt; [lia|]. cbn [upload_pending].
  pose proof (upload_next_marks age d Hnd) as H. destruct (upload_next _ _ _ _ _ _ age false d) as [[] d1]; [|done].
  destruct H as [Hnames Hw]. apply IH; [by rewrite Hnames | specialize (Hw eq_refl); lia].
Qed.
End termination.

(** ** Properties *)

Section properties.
Context (to_toml : Manifest -> list Z) (to_vec : RecordingSidecar -> result ErrorKind (list Z))
  (from_slice : list Z -> option RecordingSidecar) (uptime : option rstr) (network : nat -> Response).


(** C0: over any number of turns of the loop, with files and requests failing in any way, a file that was in
    the directory is there unchanged or has been acknowledged by the server with its contents; and what the server
    acknowledged stays acknowledged. *)
Theorem recordings_kept_or_sent fuel age del d :
  received d `prefix_of` received (upload_pending to_toml to_vec from_slice uptime network alone fuel age del d).2 /\
  forall p bytes, p ∉ manifest_files -> sys_files (sys d) !! p = Some bytes ->
    sys_files (sys (upload_pending to_toml to_vec from_slice uptime network alone fuel age del d).2) !! p = Some bytes \/
    (p, bytes) ∈ received (upload_pending to_toml to_vec from_slice uptime network alone fuel age del d).2.
Proof. apply upload_pending_sent_or_kept. Qed.

(** Recordings that are marked rather than deleted are each uploaded once: the loop ends after at most one
    turn per recording, even when the manifest cannot be written. *)
Theorem upload_ends age d :
  NoDup (map name (entries (store (sys d)))) ->
  (upload_pending to_toml to_vec from_slice uptime network alone (S (length (entries (store (sys d))))) age false d).1 = true.
Proof.
  intros Hnd. apply upload_pending_ends; [done|]. unfold waiting. pose proof (length_filter (fun e => upload_time e = None) (entries (store (sys d)))).
  lia.
Qed.

(** C0: the oldest recording goes first: what is chosen is finished, not yet uploaded, older than the configured
    age, and no other such recording has been silent for longer; when nothing is chosen there is none. *)
Theorem oldest_first st now age :
  match get_next_unuploaded_entry st now age with
  | Some n => exists e, eligible st now age e /\ name e = n /\ forall e', eligible st now age e' -> entry_age now e' <= entry_age now e
  | None => forall e, ~ eligible st now age e
  end.
Proof.
  destruct (get_next_unuploaded_entry st now age) as [n|] eqn:Hn; [by apply get_next_spec|].
  intros e He. unfold get_next_unuploaded_entry in Hn. apply fmap_None in Hn.
  pose proof (proj2 (eligible_elem st now age _) (ex_intro _ e (conj He eq_refl))) as Hin.
  destruct (omap _ (entries st)) as [|x l]; [by apply elem_of_nil in Hin|]. cbn in Hn. destruct (max_by_age l); [by case_match | done].
Qed.
End properties.

(** ** A deletion that fails *)

Definition outage (n : nat) : list (option fault) :=
  concat (replicate n [None; None; None; None; Some (mkFault OtherIo 0)]).
Definition outage_state (sch : list (option fault)) (r t : nat) (log : list (rstr * list Z)) : Dav :=
  mkDav (mkSys (mkStore [example_entry] None)
           (mkWorld {[file_of example_entry Kind_Qmdl := [1; 2; 3]]} sch (fun _ => 10 ^ 15) r 0 0)) log t.

Definition example_upload (fuel : nat) (d : Dav) : bool * Dav :=
  upload_pending example_to_toml (fun _ => Ok []) (fun _ => None) None (fun _ => Delivered) alone fuel 0 true d.

Lemma outage_step fuel sch r t log :
  example_upload (S fuel) (outage_state (None :: None :: None :: None :: Some (mkFault OtherIo 0) :: sch) r t log) =
  example_upload fuel (outage_state sch (S r) (t + 6) (log ++ [(file_of example_entry Kind_Qmdl, [1; 2; 3])])).
Proof. rewrite Nat.add_comm. reflexivity. Qed.

(** When the files of an uploaded recording cannot be deleted, the loop chooses it again at once, and
    uploads it as often as the deletion fails. *)
Theorem failed_deletion_resends n :
  exists d, example_upload n (outage_state (outage n) 0 0 []) = (false, d) /\
    received d = replicate n (file_of example_entry Kind_Qmdl, [1; 2; 3]) /\ store (sys d) = mkStore [example_entry] None.
Proof.
  enough (H : forall r t log, exists d, example_upload n (outage_state (outage n) r t log) = (false, d) /\
    received d = log ++ replicate n (file_of example_entry Kind_Qmdl, [1; 2; 3]) /\ store (sys d) = mkStore [example_entry] None)
    by apply (H 0%nat 0%nat []).
  induction n as [|n IH]; intros r t log; [by eexists; rewrite app_nil_r|].
  change (outage (S n)) with (None :: None :: None :: None :: Some (mkFault OtherIo 0) :: outage n).
  rewrite outage_step. destruct (IH (S r) (t + 6)%nat (log ++ [(file_of example_entry Kind_Qmdl, [1; 2; 3])])) as (d & Hd & Hr & Hs).
  exists d. split; [done|]. split; [|done]. by rewrite Hr, <- app_assoc.
Qed.

(** ** Instances *)

(** A finished recording is uploaded while another one is written. *)
Definition example_current : ManifestEntry :=
  mkManifestEntry (lit "200-1") (200 * 10 ^ 9) None 0 None None None None None None true None None.
Definition example_dav : Dav :=
  mkDav (mkSys (mkStore [example_entry; example_current] (Some 1%nat))
           (mkWorld {[file_of example_entry Kind_Qmdl := [1; 2; 3]; file_of example_current Kind_Qmdl := [4]]} [] (fun _ => 10 ^ 15) 0 0 0)) [] 0.
Definition example_others (m : nat) (s : Sys) : Sys := (capture [9] s).2.
Definition example_files (k : FileKind) : option (list Z) := match k with Kind_Qmdl => Some [1; 2; 3] | _ => None end.
Definition example_uploaded : list (option unit) * Dav :=
  upload_files (fun _ => Delivered) example_others ALL (lit "100-0") example_dav.
Definition example_settled : Dav :=
  settle example_to_toml (fun _ => Ok []) (fun _ => None) None example_others true (lit "100-0") example_uploaded.2.


(** The recording is gone from the unit, the one in progress has grown, and goes on. *)
Example upload_example :
  (forallb (fun r => bool_decide (is_Some r)) example_uploaded.1,
   received example_settled, sys_files (sys example_settled) !! lit "100-0.qmdl.gz",
   sys_files (sys example_settled) !! lit "200-1.qmdl.gz", current_entry (store (sys example_settled))) =
  (true, [(lit "100-0.qmdl.gz", [1; 2; 3])], None, Some [4; 9; 9; 9; 9; 9], Some 0%nat).
Proof. vm_compute. reflexivity. Qed.

Lemma upload_ends_witness :
  (upload_pending example_to_toml (fun _ => Ok []) (fun _ => None) None (fun _ => Delivered) alone 3 0 false example_dav).1 = true.
Proof.
  refine (upload_ends example_to_toml (fun _ => Ok []) (fun _ => None) None (fun _ => Delivered) 0 example_dav _).
  apply NoDup_ListNoDup. vm_compute. repeat constructor; intros H; vm_compute in H; naive_solver.
Defined.
