(* ===== verification/Notifications.v ===== *)
(** * Notifications ([daemon/src/notifications.rs])

    The worker that sends notifications to the owner's server: at most one message of each kind waits; a
    kind is quiet for a while after it was heard, if its sender says so; failed requests are tried again
    after longer and longer waits.  Times are nanoseconds of a monotonic clock, [clock i] its [i]-th reading;
    [network i] says whether the [i]-th request goes through. *)

From S2P Require Import Prelude RustStr.

Local Open Scope Z_scope.

Inductive NotificationType := Warning | LowBattery | Update | Storage.
#[export] Instance NotificationType_eq_dec : EqDecision NotificationType.
Proof. solve_decision. Defined.
#[export] Instance NotificationType_countable : Countable NotificationType.
Proof.
  by refine (inj_countable' (fun t => match t with Warning => 0%nat | LowBattery => 1%nat | Update => 2%nat | Storage => 3%nat end)
    (fun n => match n with 0%nat => Warning | 1%nat => LowBattery | 2%nat => Update | _ => Storage end) _); intros [].
Defined.

Record Notification := mkNotification {
  notification_type : NotificationType;
  message : rstr;
  debounce : option Z }.

Record NotificationStatus := mkStatus {
  status_message : rstr;
  needs_sending : bool;
  last_sent : option Z;
  last_attempt : option Z;
  failed_since_last_success : Z }.

Definition new_status : NotificationStatus := mkStatus [] true None None 0.

Definition second : Z := 10 ^ 9.

(** [Duration::from_secs(2u64.pow(min(failed, 8)))]. *)
Definition min_wait_time (failed : Z) : Z := 2 ^ Z.min failed 8 * second.
(** [Instant::elapsed], which does not go below zero. *)
Definition elapsed (now t : Z) : Z := Z.max 0 (now - t).

(** What the worker holds: the statuses, how often it has read the clock and made a request, and what the
    server has accepted, with the time noted for it. *)
Record Worker := mkWorker {
  statuses : gmap NotificationType NotificationStatus;
  instant : nat;
  call : nat;
  delivered : list (NotificationType * rstr * Z) }.

Definition new_worker : Worker := mkWorker ∅ 0 0 [].
Definition put_status (ty : NotificationType) (s : NotificationStatus) (w : Worker) : Worker :=
  mkWorker (<[ty := s]> (statuses w)) (instant w) (call w) (delivered w).

Section worker.
Context (clock : nat -> Z) (network : nat -> bool) (enabled_notifications : list NotificationType)
  (order : list NotificationType).

Definition read_clock (w : Worker) : Z * Worker :=
  (clock (instant w), mkWorker (statuses w) (S (instant w)) (call w) (delivered w)).

(** Whether the kind is still to be quiet; the clock is read only when there is something to compare. *)
Definition in_debounce (n : Notification) (s : NotificationStatus) (w : Worker) : bool * Worker :=
  match debounce n, last_sent s with
  | Some d, Some t => let '(now, w) := read_clock w in (elapsed now t <? d, w)
  | _, _ => (false, w)
  end.

(** One message of the channel. *)
Definition receive (w : Worker) (n : Notification) : Worker :=
  if negb (bool_decide (notification_type n ∈ enabled_notifications)) then w
  else
    let s := default new_status (statuses w !! notification_type n) in
    let '(quiet, w) := in_debounce n s w in
    put_status (notification_type n)
      (if quiet then s else mkStatus (message n) true (last_sent s) (last_attempt s) (failed_since_last_success s)) w.

Definition too_early (s : NotificationStatus) (w : Worker) : bool * Worker :=
  match last_attempt s with
  | Some t => let '(now, w) := read_clock w in (elapsed now t <? min_wait_time (failed_since_last_success s), w)
  | None => (false, w)
  end.

(** [send_notification]: whether the server answered with success. *)
Definition send_notification (w : Worker) : bool * Worker :=
  (network (call w), mkWorker (statuses w) (instant w) (S (call w)) (delivered w)).
Definition deliver (ty : NotificationType) (text : rstr) (now : Z) (w : Worker) : Worker :=
  mkWorker (statuses w) (instant w) (call w) (delivered w ++ [(ty, text, now)]).

(** One status of the loop over [values_mut()]. *)
Definition attempt_status (w : Worker) (ty : NotificationType) : Worker :=
  match statuses w !! ty with
  | None => w
  | Some s =>
      if negb (needs_sending s) then w
      else
        let '(early, w) := too_early s w in
        if early then w
        else
          let '(ok, w) := send_notification w in
          let '(now, w) := read_clock w in
          if ok then put_status ty (mkStatus (status_message s) false (Some now) (last_attempt s) 0) (deliver ty (status_message s) now w)
          else put_status ty (mkStatus (status_message s) (needs_sending s) (last_sent s) (Some now) (wrapu 32 (failed_since_last_success s + 1))) w
  end.

(** One turn of the worker: what the channel holds, then what is waiting, in the order of the map. *)
Definition worker_turn (w : Worker) (queue : list Notification) : Worker :=
  foldl attempt_status (foldl receive w queue) order.
Definition worker_run (queues : list (list Notification)) (w : Worker) : Worker := foldl worker_turn w queues.
End worker.

(** ** What the worker keeps *)

(** When messages of a kind were accepted by the server, oldest first. *)
Definition times (ty : NotificationType) (w : Worker) : list Z :=
  omap (fun '(t, _, now) => if bool_decide (t = ty) then Some now else None) (delivered w).
Definition spaced (d : Z) (l : list Z) : Prop := forall i a b, l !! i = Some a -> l !! S i = Some b -> a + d <= b.

Lemma spaced_snoc d l b : spaced d l -> (forall a, last l = Some a -> a + d <= b) -> spaced d (l ++ [b]).
Proof.
  intros Hl Hb i a c Ha Hc. destruct (decide (S i < length l)%nat) as [Hlt|Hge].
  - rewrite !lookup_app_l in * by lia. by eapply Hl.
  - apply lookup_lt_Some in Hc as Hi. rewrite length_app in Hi. cbn in Hi. assert (i = pred (length l)) as -> by lia.
    rewrite lookup_app_l in Ha by lia. rewrite lookup_app_r in Hc by lia.
    replace (S (pred (length l)) - length l)%nat with 0%nat in Hc by lia. injection Hc as <-.
    apply Hb. by rewrite last_lookup.
Qed.

Section proofs.
Context (clock : nat -> Z) (network : nat -> bool) (enabled : list NotificationType) (order : list NotificationType).
Abbreviation recv := (receive clock enabled).
Abbreviation attempt := (attempt_status clock network).

Lemma run_invariant (I : Worker -> Prop) queues w :
  (forall n w, n ∈ concat queues -> I w -> I (recv w n)) -> (forall ty w, I w -> I (attempt w ty)) ->
  I w -> I (worker_run clock network enabled order queues w).
Proof.
  intros Hr Ha. unfold worker_run. revert w. induction queues as [|q queues IH]; intros w Hw; cbn [foldl]; [done|].
  apply IH; [intros n w' Hn; apply Hr; set_solver|]. unfold worker_turn.
  assert (H1 : I (foldl recv w q)).
  { assert (Hq : forall n w, n ∈ q -> I w -> I (recv w n)) by (intros n w' Hn; apply Hr; set_solver). clear Hr IH.
    revert w Hw. induction q as [|n q IHq]; intros w Hw; cbn [foldl]; [done|].
    apply IHq; [intros n' w' Hn'; apply Hq; set_solver|]. apply Hq; [set_solver | done]. }
  clear Hr IH Hw. revert H1. generalize (foldl recv w q). induction order as [|ty l IHl]; intros w1 H1; cbn [foldl]; [done|].
  apply IHl. by apply Ha.
Qed.

(** Reading the clock changes nothing else, and what it is read for is known afterwards. *)
Definition same_but_clock (w w' : Worker) : Prop :=
  statuses w' = statuses w /\ call w' = call w /\ delivered w' = delivered w /\ (instant w <= instant w')%nat.

Lemma in_debounce_spec n s w :
  let '(quiet, w') := in_debounce clock n s w in
  same_but_clock w w' /\
  forall d t, debounce n = Some d -> last_sent s = Some t -> 0 < d ->
    exists i, (i < instant w')%nat /\ (quiet = false -> t + d <= clock i) /\ (quiet = true -> clock i < t + d).
Proof.
  unfold in_debounce, same_but_clock. destruct (debounce n) as [d|]; [|by split_and!; [..|intros ?; discriminate]].
  destruct (last_sent s) as [t|]; [|by split_and!; [..|intros ?? _; discriminate]].
  cbn. split; [by split_and!; [..|lia]|]. intros d' t' [= <-] [= <-] Hd. exists (instant w). split; [lia|].
  unfold elapsed. destruct (Z.ltb_spec (Z.max 0 (clock (instant w) - t)) d); split; intros ?; try done; lia.
Qed.

Lemma too_early_spec s w :
  let '(early, w') := too_early clock s w in
  same_but_clock w w' /\
  forall t, last_attempt s = Some t -> exists i, (instant w <= i < instant w')%nat /\
    (early = false <-> min_wait_time (failed_since_last_success s) <= elapsed (clock i) t).
Proof.
  unfold too_early, same_but_clock. destruct (last_attempt s) as [t|]; [|by split_and!; [..|intros ?; discriminate]].
  cbn. split; [by split_and!; [..|lia]|]. intros t' [= <-]. exists (instant w). split; [lia|].
  destruct (Z.ltb_spec (elapsed (clock (instant w)) t) (min_wait_time (failed_since_last_success s))); split; intros ?; done || lia.
Qed.

Lemma times_app ty w l :
  times ty (mkWorker (statuses w) (instant w) (call w) (delivered w ++ l)) =
  times ty w ++ omap (fun '(t, _, now) => if bool_decide (t = ty) then Some now else None) l.
Proof. unfold times. cbn [delivered]. apply omap_app. Qed.

(** What waits was accepted after the quiet time of the one sent before it. *)
Definition spaced_status (ty : NotificationType) (d : Z) (w : Worker) : Prop :=
  spaced d (times ty w) /\
  match statuses w !! ty with
  | None => times ty w = []
  | Some s => last_sent s = last (times ty w) /\
      (needs_sending s = true -> forall t, last_sent s = Some t -> exists i, (i < instant w)%nat /\ t + d <= clock i)
  end.

Lemma spaced_same ty d w w' :
  same_but_clock w w' -> spaced_status ty d w -> spaced_status ty d w'.
Proof.
  intros (Hs & _ & Hd & Hi) [H1 H2]. unfold spaced_status, times in *. rewrite Hs, Hd. split; [done|].
  destruct (statuses w !! ty) as [s|]; [|done]. destruct H2 as [Hl Hn]. split; [done|]. intros Hns t Ht.
  destruct (Hn Hns t Ht) as (i & Hlt & Hc). exists i. split; [lia | done].
Qed.

Lemma spaced_receive ty d n w :
  0 < d -> (notification_type n = ty -> debounce n = Some d) -> spaced_status ty d w -> spaced_status ty d (recv w n).
Proof.
  intros Hd Hn Hw. unfold receive. destruct (negb _); [done|].
  set (s := default new_status (statuses w !! notification_type n)).
  pose proof (in_debounce_spec n s w) as H. destruct (in_debounce clock n s w) as [quiet w1]. destruct H as [Hsame Hdeb].
  pose proof (spaced_same ty d w w1 Hsame Hw) as [H1 H2]. destruct Hsame as (Hst & _ & Hdel & _).
  destruct (decide (notification_type n = ty)) as [Heq|Hne].
  2:{ split; [exact H1|]. unfold put_status. cbn [statuses]. by rewrite lookup_insert_ne. }
  split; [exact H1|]. unfold put_status. cbn [statuses instant]. rewrite Heq, lookup_insert_eq.
  change (times ty (mkWorker _ _ _ _)) with (times ty w1).
  assert (Hl : last_sent s = last (times ty w1)).
  { unfold s. rewrite Heq, <- Hst. destruct (statuses w1 !! ty); cbn; [by destruct H2 | by rewrite H2]. }
  destruct quiet; cbn [last_sent needs_sending].
  - split; [exact Hl|]. intros Hns t Ht. unfold s in Hns, Ht. rewrite Heq, <- Hst in Hns, Ht.
    destruct (statuses w1 !! ty) as [s0|]; cbn in Hns, Ht; [|done]. destruct H2 as [_ H2]. by apply H2.
  - split; [exact Hl|]. intros _ t Ht. destruct (Hdeb d t (Hn Heq) Ht Hd) as (i & Hi & Hf & _). exists i. split; [done | by apply Hf].
Qed.

Lemma spaced_attempt ty d ty' w :
  (forall i j, (i <= j)%nat -> clock i <= clock j) -> spaced_status ty d w -> spaced_status ty d (attempt w ty').
Proof.
  intros Hclock Hw. unfold attempt_status. destruct (statuses w !! ty') as [s|] eqn:Hs; [|done].
  destruct (needs_sending s) eqn:Hns; cbn [negb]; [|done].
  pose proof (too_early_spec s w) as H. destruct (too_early clock s w) as [early w1]. destruct H as [Hsame _].
  pose proof (spaced_same ty d w w1 Hsame Hw) as [H1 H2]. destruct Hsame as (Hst & _ & _ & _).
  destruct early; [done|]. cbn [send_notification read_clock]. rewrite <- Hst in Hs.
  destruct (network (call w1)).
  - unfold spaced_status, put_status, deliver. cbn [statuses instant call].
    destruct (decide (ty' = ty)) as [->|Hne].
    + rewrite Hs in H2. destruct H2 as [Hl Hn]. rewrite lookup_insert_eq. cbn [last_sent needs_sending].
      assert (Ht : forall st i c, times ty (mkWorker st i c (delivered w1 ++ [(ty, status_message s, clock (instant w1))])) =
        times ty w1 ++ [clock (instant w1)]).
      { intros. unfold times. cbn [delivered]. rewrite omap_app. cbn. by rewrite bool_decide_true. }
      rewrite !Ht. split; [|split; [by rewrite last_snoc | done]].
      apply spaced_snoc; [done|]. intros a Ha. rewrite <- Hl in Ha. destruct (Hn Hns a Ha) as (i & Hi & Hc).
      pose proof (Hclock i (instant w1) ltac:(lia)). lia.
    + assert (Ht : forall st i c, times ty (mkWorker st i c (delivered w1 ++ [(ty', status_message s, clock (instant w1))])) = times ty w1).
      { intros. unfold times. cbn [delivered]. rewrite omap_app. cbn. rewrite bool_decide_false by done. apply app_nil_r. }
      rewrite !Ht, lookup_insert_ne by done. split; [done|]. destruct (statuses w1 !! ty) as [s0|]; [|done].
      destruct H2 as [Hl Hn]. split; [done|]. intros Hns0 t Ht0. destruct (Hn Hns0 t Ht0) as (i & Hi & Hc). exists i. split; [lia | done].
  - unfold spaced_status, put_status. cbn [statuses instant call]. split; [exact H1|].
    change (times ty (mkWorker _ _ _ _)) with (times ty w1).
    destruct (decide (ty' = ty)) as [->|Hne]; [rewrite lookup_insert_eq; rewrite Hs in H2 | rewrite lookup_insert_ne by done].
    + cbn [last_sent needs_sending]. destruct H2 as [Hl Hn]. split; [done|]. intros _ t Ht0.
      destruct (Hn Hns t Ht0) as (i & Hi & Hc). exists i. split; [lia | done].
    + destruct (statuses w1 !! ty) as [s0|]; [|done]. destruct H2 as [Hl Hn]. split; [done|]. intros Hns0 t Ht0.
      destruct (Hn Hns0 t Ht0) as (i & Hi & Hc). exists i. split; [lia | done].
Qed.
End proofs.

(** ** What is sent *)

Section sending.
Context (clock : nat -> Z) (network : nat -> bool) (enabled : list NotificationType) (order : list NotificationType).
Abbreviation recv := (receive clock enabled).
Abbreviation attempt := (attempt_status clock network).

(** An attempt at another kind. *)
Lemma attempt_other ty ty' w : ty <> ty' ->
  statuses (attempt w ty') !! ty = statuses w !! ty /\ delivered w `prefix_of` delivered (attempt w ty') /\
  (instant w <= instant (attempt w ty'))%nat.
Proof.
  intros Hne. unfold attempt_status. destruct (statuses w !! ty') as [s|]; [|done]. destruct (negb _); [done|].
  pose proof (too_early_spec clock s w) as H. destruct (too_early clock s w) as [early w1]. destruct H as [(Hs & _ & Hd & Hi) _].
  destruct early; [by rewrite Hs, Hd|]. cbn [send_notification read_clock].
  destruct (network (call w1)); unfold put_status, deliver; cbn [statuses instant delivered]; rewrite lookup_insert_ne, Hs, Hd by done;
    (split; [done|]; split; [|lia]); [by apply prefix_app_r | done].
Qed.

Lemma attempt_prefix ty w : delivered w `prefix_of` delivered (attempt w ty).
Proof.
  unfold attempt_status. destruct (statuses w !! ty) as [s|]; [|done]. destruct (negb _); [done|].
  pose proof (too_early_spec clock s w) as H. destruct (too_early clock s w) as [early w1]. destruct H as [(_ & _ & Hd & _) _].
  destruct early; [by rewrite Hd|]. cbn [send_notification read_clock]. rewrite <- Hd.
  destruct (network (call w1)); cbn [put_status deliver delivered]; [by apply prefix_app_r | done].
Qed.

Lemma attempts_prefix l w : delivered w `prefix_of` delivered (foldl attempt w l).
Proof.
  revert w. induction l as [|ty l IH]; intros w; cbn [foldl]; [done|]. etrans; [apply attempt_prefix | apply IH].
Qed.

Lemma min_wait_bound f : 0 <= f -> min_wait_time f <= 256 * second.
Proof. intros Hf. unfold min_wait_time. pose proof (Z.pow_le_mono_r 2 (Z.min f 8) 8). unfold second in *. lia. Qed.

Lemma attempt_delivers ty s w :
  statuses w !! ty = Some s -> needs_sending s = true -> network (call w) = true ->
  (forall t, last_attempt s = Some t -> t + min_wait_time (failed_since_last_success s) <= clock (instant w)) ->
  exists now, (ty, status_message s, now) ∈ delivered (attempt w ty).
Proof.
  intros Hs Hn Hnet Ht. unfold attempt_status. rewrite Hs, Hn. cbn [negb]. unfold too_early.
  destruct (last_attempt s) as [t|] eqn:Hla; cbn [read_clock send_notification].
  - specialize (Ht t eq_refl). destruct (Z.ltb_spec (elapsed (clock (instant w)) t) (min_wait_time (failed_since_last_success s)));
      [unfold elapsed in *; lia|].
    cbn [call instant]. rewrite Hnet. eexists. cbn [put_status deliver delivered]. apply elem_of_app. right. by left.
  - rewrite Hnet. eexists. cbn [put_status deliver delivered]. apply elem_of_app. right. by left.
Qed.

Lemma attempts_deliver l ty s w :
  ty ∈ l -> statuses w !! ty = Some s -> needs_sending s = true -> (forall i, network i = true) ->
  (forall t i, last_attempt s = Some t -> (instant w <= i)%nat -> t + min_wait_time (failed_since_last_success s) <= clock i) ->
  exists now, (ty, status_message s, now) ∈ delivered (foldl attempt w l).
Proof.
  revert w. induction l as [|ty' l IH]; intros w Hin Hs Hn Hnet Ht; cbn [foldl]; [by apply elem_of_nil in Hin|].
  destruct (decide (ty = ty')) as [<-|Hne].
  - destruct (attempt_delivers ty s w Hs Hn (Hnet _)) as [now Hnow]; [intros t Hla; by apply Ht|].
    exists now. eapply elem_of_prefix; [exact Hnow | apply attempts_prefix].
  - destruct (attempt_other ty ty' w Hne) as (Hs' & _ & Hi). apply IH; [set_solver | by rewrite Hs' | done | done |].
    intros t i Hla Hle. apply Ht; [done | lia].
Qed.

(** Where messages come from. *)
Definition genuine (heard : list Notification) (w : Worker) : Prop :=
  (forall ty text now, (ty, text, now) ∈ delivered w ->
     ty ∈ enabled /\ exists n, n ∈ heard /\ notification_type n = ty /\ message n = text) /\
  (forall ty s, statuses w !! ty = Some s -> ty ∈ enabled /\ exists n, n ∈ heard /\ notification_type n = ty /\ message n = status_message s).

Lemma genuine_receive heard n w :
  n ∈ heard -> genuine heard w -> genuine heard (recv w n).
Proof.
  intros Hn [H1 H2]. unfold receive. destruct (negb _) eqn:He; [done|].
  apply negb_false_iff, bool_decide_eq_true in He.
  set (s := default new_status (statuses w !! notification_type n)).
  pose proof (in_debounce_spec clock n s w) as H. destruct (in_debounce clock n s w) as [quiet w1] eqn:Hq. destruct H as [(Hs & _ & Hd & _) _].
  split; unfold put_status; cbn [delivered statuses].
  - intros ty text now. rewrite Hd. apply H1.
  - intros ty s'. rewrite Hs. destruct (decide (notification_type n = ty)) as [<-|Hne].
    + rewrite lookup_insert_eq. intros [= <-]. destruct quiet; [|eauto].
      split; [done|]. unfold s in *. destruct (statuses w !! notification_type n) as [s0|] eqn:H0; [by apply (H2 _ s0)|].
      cbn in Hq. unfold in_debounce in Hq. cbn in Hq. by destruct (debounce n).
    + rewrite lookup_insert_ne by done. apply H2.
Qed.

Lemma genuine_attempt heard ty w : genuine heard w -> genuine heard (attempt w ty).
Proof.
  intros [H1 H2]. unfold attempt_status. destruct (statuses w !! ty) as [s|] eqn:Hs; [|done]. destruct (negb _); [done|].
  pose proof (too_early_spec clock s w) as H. destruct (too_early clock s w) as [early w1]. destruct H as [(Hst & _ & Hd & _) _].
  assert (Hw1 : genuine heard w1) by (split; [rewrite Hd | rewrite Hst]; done). destruct early; [done|].
  destruct Hw1 as [H1' H2']. cbn [send_notification read_clock]. rewrite <- Hst in Hs.
  assert (Hst' : forall s', status_message s' = status_message s -> forall ty0 s0, <[ty := s']> (statuses w1) !! ty0 = Some s0 ->
    ty0 ∈ enabled /\ exists n, n ∈ heard /\ notification_type n = ty0 /\ message n = status_message s0).
  { intros s' Hm ty0 s0. destruct (decide (ty = ty0)) as [<-|Hne].
    - rewrite lookup_insert_eq. intros [= <-]. rewrite Hm. by apply (H2' ty s).
    - rewrite lookup_insert_ne by done. apply H2'. }
  destruct (network (call w1)); split; cbn [put_status deliver delivered statuses]; try (by apply Hst').
  - intros ty0 text now [Hin|[= -> -> ->]%list_elem_of_singleton]%elem_of_app; [by apply (H1' _ _ now) | by apply (H2' ty s)].
  - exact H1'.
Qed.
End sending.

(** ** Properties *)

Section properties.
Context (clock : nat -> Z) (network : nat -> bool) (enabled : list NotificationType) (order : list NotificationType).


(** C0: every message the server gets is one the worker was given, of a kind that is enabled. *)
Theorem notifications_genuine queues ty text now :
  (ty, text, now) ∈ delivered (worker_run clock network enabled order queues new_worker) ->
  ty ∈ enabled /\ exists n, n ∈ concat queues /\ notification_type n = ty /\ message n = text.
Proof.
  intros Hin. refine (proj1 (run_invariant clock network enabled order (genuine enabled (concat queues)) queues new_worker _ _ _) ty text now Hin).
  - intros n w. apply genuine_receive.
  - intros ty' w. apply genuine_attempt.
  - split; [intros ty' t n Hn; by apply elem_of_nil in Hn | intros ty' s Hs; cbn in Hs; by rewrite lookup_empty in Hs].
Qed.

(** C0: a message that waits is sent as soon as the network answers: in a turn that begins at least 256 seconds
    after the last failure, whatever number of failures went before and whatever else is waiting. *)
Theorem waiting_message_sent w queue ty s :
  ty ∈ order -> statuses (foldl (receive clock enabled) w queue) !! ty = Some s -> needs_sending s = true ->
  0 <= failed_since_last_success s -> (forall i, network i = true) ->
  (forall t i, last_attempt s = Some t -> (instant (foldl (receive clock enabled) w queue) <= i)%nat -> t + 256 * second <= clock i) ->
  exists now, (ty, status_message s, now) ∈ delivered (worker_turn clock network enabled order w queue).
Proof.
  intros Hin Hs Hn Hf Hnet Ht. unfold worker_turn. apply attempts_deliver; [done..|].
  intros t i Hla Hi. pose proof (min_wait_bound _ Hf). specialize (Ht t i Hla Hi). lia.
Qed.

(** A request is made only for a message that waits, and after [k] failures in a row not before
    2^min(k, 8) seconds have gone by. *)
Theorem request_backs_off w ty :
  call (attempt_status clock network w ty) <> call w ->
  exists s, statuses w !! ty = Some s /\ needs_sending s = true /\
    forall t, last_attempt s = Some t -> min_wait_time (failed_since_last_success s) <= elapsed (clock (instant w)) t.
Proof.
  unfold attempt_status. destruct (statuses w !! ty) as [s|]; [|done]. destruct (needs_sending s) eqn:Hn; cbn [negb]; [|done].
  intros H. exists s. split; [done|]. split; [done|]. intros t Ht. unfold too_early in H. rewrite Ht in H. cbn [read_clock] in H.
  by destruct (Z.ltb_spec (elapsed (clock (instant w)) t) (min_wait_time (failed_since_last_success s))).
Qed.
End properties.

(** ** A warning that is not heard *)

(** The two messages of [diag.rs]: space running out (quiet for 30 seconds), and an attack (for five minutes). *)
Definition space_low : Notification := mkNotification Warning (lit "Disk space low: 40MB free") (Some (30 * second)).
Definition attack (severity : string) : Notification :=
  mkNotification Warning (lit "Rayhunter has detected a " ++ lit severity ++ lit " severity event") (Some (300 * second)).
(** A clock that is read every two seconds. *)
Definition ticking (i : nat) : Z := Z.of_nat i * (2 * second).

Definition ticking_run (queues : list (list Notification)) : Worker :=
  worker_run ticking (fun _ => true) [Warning] [Warning] queues new_worker.

Lemma idle_turns n w s :
  statuses w = {[Warning := s]} -> needs_sending s = false ->
  worker_run ticking (fun _ => true) [Warning] [Warning] (replicate n []) w = w.
Proof.
  intros Hs Hn. induction n as [|n IH]; [done|]. cbn [replicate worker_run foldl]. unfold worker_turn at 2. cbn [foldl].
  unfold attempt_status. rewrite Hs, lookup_singleton_eq, Hn. exact IH.
Qed.

(** The quiet time is kept per kind, and messages of one kind differ: an attack of high severity found
    within five minutes of a message about disk space, or about an attack of low severity, is dropped, and
    is not sent later either, however long the worker goes on. *)
Theorem high_warning_dropped first n :
  first = space_low \/ first = attack "Low" ->
  (fun '(ty, text, _) => (ty, text)) <$> delivered (ticking_run ([first] :: [attack "High"] :: replicate n [])) =
  [(Warning, message first)].
Proof.
  intros Hf. unfold ticking_run, worker_run. cbn [foldl].
  set (w := worker_turn _ _ _ _ (worker_turn _ _ _ _ new_worker [first]) [attack "High"]).
  assert (Hw : exists s, statuses w = {[Warning := s]} /\ needs_sending s = false /\
    ((fun '(ty, text, _) => (ty, text)) <$> delivered w) = [(Warning, message first)]).
  { destruct Hf as [-> | ->]; eexists (mkStatus _ false _ _ _); split; try (vm_compute; reflexivity); split; vm_compute; reflexivity. }
  destruct Hw as (s & Hs & Hn & Hd). rewrite <- Hd. f_equal. f_equal. exact (idle_turns n w s Hs Hn).
Qed.

(** ** Instances *)

Definition example_queues : list (list Notification) := [[attack "Low"]; [attack "High"]; []; [attack "High"]] ++ replicate 200 [attack "Low"].

Definition example_worker : Worker := worker_run ticking (fun i => Nat.ltb 2 i) [Warning] [Warning] example_queues new_worker.
Example notifications_sent :
  length (times Warning (worker_run ticking (fun i => Nat.ltb 2 i) [Warning] [Warning] example_queues new_worker)) = 2%nat.
Proof. vm_compute. reflexivity. Qed.

Lemma notifications_genuine_witness :
  Warning ∈ [Warning] /\ exists n, n ∈ concat example_queues /\ notification_type n = Warning /\ message n = message (attack "Low").
Proof.
  apply (notifications_genuine ticking (fun _ => true) [Warning] [Warning] example_queues Warning (message (attack "Low")) 0).
  vm_compute. left.
Defined.

(** After nine failures, the network is back. *)
Definition example_waiting : Worker :=
  mkWorker {[Warning := mkStatus (message (attack "High")) true None (Some 0) 9]} 200 9 [].
Lemma waiting_message_sent_witness :
  exists now, (Warning, message (attack "High"), now) ∈ delivered (worker_turn ticking (fun _ => true) [Warning] [LowBattery; Warning] example_waiting []).
Proof.
  apply (waiting_message_sent ticking (fun _ => true) [Warning] [LowBattery; Warning] example_waiting [] Warning
    (mkStatus (message (attack "High")) true None (Some 0) 9)); try done.
  - right. left.
  - intros t i [= <-] Hi. cbn in Hi. unfold ticking, second. lia.
Defined.
