(* ===== verification/Battery.v ===== *)
(** * The battery ([daemon/src/battery])

    How a level and the state of the charger are read on each device, and the worker that warns once when the
    battery runs low.  A file's text is [None] when it cannot be read; a command is [None] when it cannot be
    run, else whether it succeeded and its output. *)

From S2P Require Import Prelude RustStr Notifications.

Local Open Scope Z_scope.

Inductive BatteryError :=
| TokioError
| BatteryPluggedInStatusParseError
| BatteryLevelParseError
| FunctionNotSupportedForDeviceError.

Record BatteryState := mkBatteryState { level : Z; is_plugged_in : bool }.

Definition LOW_BATTERY_LEVEL : Z := 10.

Definition is_plugged_in_from_file (file : option rstr) : result BatteryError bool :=
  match file with
  | None => Err TokioError
  | Some text => match head text with
                 | Some 48 => Ok false
                 | Some 49 => Ok true
                 | _ => Err BatteryPluggedInStatusParseError
                 end
  end.

Definition trim_end : rstr -> rstr := trim_end_by is_whitespace.

Definition get_level_from_percentage_file (file : option rstr) : result BatteryError Z :=
  match file with
  | None => Err TokioError
  | Some text => ok_or BatteryLevelParseError (parse_unsigned 8 (trim_end text))
  end.

(** [orbic::get_battery_state]: five bars. *)
Definition orbic_level (file : option rstr) : result BatteryError Z :=
  match file with
  | None => Err TokioError
  | Some text => match head text with
                 | Some 49 => Ok 10
                 | Some 50 => Ok 25
                 | Some 51 => Ok 50
                 | Some 52 => Ok 75
                 | Some 53 => Ok 100
                 | _ => Err BatteryLevelParseError
                 end
  end.

Definition orbic_battery_state (level_file plugged_file : option rstr) : result BatteryError BatteryState :=
  match orbic_level level_file with
  | Err e => Err e
  | Ok l => match is_plugged_in_from_file plugged_file with Err e => Err e | Ok p => Ok (mkBatteryState l p) end
  end.

(** [tmobile] and [wingtech], which differ in the names of the files. *)
Definition percentage_battery_state (level_file plugged_file : option rstr) : result BatteryError BatteryState :=
  match get_level_from_percentage_file level_file with
  | Err e => Err e
  | Ok l => match is_plugged_in_from_file plugged_file with Err e => Err e | Ok p => Ok (mkBatteryState l p) end
  end.

(** [tplink::get_battery_state]: two calls of [uci]. *)
Definition tplink_battery_state (uci_battery uci_plugged_in : option (bool * list Z)) : result BatteryError BatteryState :=
  match uci_battery, uci_plugged_in with
  | None, _ | _, None => Err TokioError
  | Some (false, _), _ => Err BatteryLevelParseError
  | _, Some (false, _) => Err BatteryPluggedInStatusParseError
  | Some (true, out_level), Some (true, out_plugged) =>
      match parse_unsigned 8 (trim_end (from_utf8_lossy out_level)) with
      | None => Err BatteryLevelParseError
      | Some l =>
          let plugged := trim_end (from_utf8_lossy out_plugged) in
          if bool_decide (plugged = lit "0") then Ok (mkBatteryState l false)
          else if bool_decide (plugged = lit "1") then Ok (mkBatteryState l true)
          else Err BatteryPluggedInStatusParseError
      end
  end.

(** ** The worker *)

(** Before the loop: [None] when the device has no battery to read. *)
Definition initially_triggered (first : result BatteryError BatteryState) : option bool :=
  match first with
  | Err FunctionNotSupportedForDeviceError => None
  | Err _ => Some true
  | Ok status => Some (level status <=? LOW_BATTERY_LEVEL)
  end.

Definition low_battery : Notification := mkNotification LowBattery (lit "Rayhunter's battery is low") None.

(** One turn of the loop: whether it goes on with [triggered], and what is sent. *)
Definition battery_turn (triggered : bool) (reading : result BatteryError BatteryState) : option bool * list Notification :=
  match reading with
  | Err FunctionNotSupportedForDeviceError => (None, [])
  | Err _ => (Some triggered, [])
  | Ok status =>
      if triggered && is_plugged_in status && (LOW_BATTERY_LEVEL <? level status) then (Some false, [])
      else if negb triggered && negb (is_plugged_in status) && (level status <=? LOW_BATTERY_LEVEL) then (Some true, [low_battery])
      else (Some triggered, [])
  end.

Fixpoint battery_loop (triggered : bool) (readings : list (result BatteryError BatteryState)) : list (list Notification) :=
  match readings with
  | [] => []
  | r :: readings =>
      let '(next, sent) := battery_turn triggered r in
      sent :: match next with Some t => battery_loop t readings | None => [] end
  end.

(** [run_battery_notification_worker]: what is sent after each reading of the loop. *)
Definition run_battery_notification_worker (first : result BatteryError BatteryState)
    (readings : list (result BatteryError BatteryState)) : list (list Notification) :=
  match initially_triggered first with
  | None => []
  | Some triggered => battery_loop triggered readings
  end.

(** ** When it warns *)

(** A reading that ends a low battery, and one that is one. *)
Definition recharged (r : result BatteryError BatteryState) : bool :=
  match r with Ok s => is_plugged_in s && (LOW_BATTERY_LEVEL <? level s) | Err _ => false end.
Definition running_low (r : result BatteryError BatteryState) : bool :=
  match r with Ok s => negb (is_plugged_in s) && (level s <=? LOW_BATTERY_LEVEL) | Err _ => false end.

(** Whether a warning may be given after these readings (the last one first): since a recharge, or since a start
    with enough in the battery, the battery has not been low off the charger. *)
Fixpoint armed (first : result BatteryError BatteryState) (past : list (result BatteryError BatteryState)) : bool :=
  match past with
  | [] => match first with Ok s => LOW_BATTERY_LEVEL <? level s | Err _ => false end
  | r :: past => recharged r || (negb (running_low r) && armed first past)
  end.

Definition supported (r : result BatteryError BatteryState) : bool :=
  match r with Err FunctionNotSupportedForDeviceError => false | _ => true end.

Lemma battery_turn_spec first past r :
  supported r = true ->
  battery_turn (negb (armed first past)) r =
    (Some (negb (armed first (r :: past))), if running_low r && armed first past then [low_battery] else []).
Proof.
  intros Hs. cbn [armed]. unfold recharged, running_low. destruct r as [s|[]]; cbn; try done.
  - destruct (is_plugged_in s), (Z.leb_spec (level s) LOW_BATTERY_LEVEL), (Z.ltb_spec LOW_BATTERY_LEVEL (level s)), (armed first past);
      cbn; first [done | exfalso; lia].
Qed.

Lemma battery_loop_spec first past readings :
  forallb supported readings = true ->
  battery_loop (negb (armed first past)) readings =
    imap (fun i r => if running_low r && armed first (rev (take i readings) ++ past) then [low_battery] else []) readings.
Proof.
  revert past. induction readings as [|r readings IH]; intros past; [done|]. cbn [forallb]. intros [Hr Hrs]%andb_true_iff.
  cbn [battery_loop]. rewrite battery_turn_spec by done. cbn [imap take rev app]. f_equal. rewrite IH by done.
  apply imap_ext. intros i x _. cbn [compose take rev]. by rewrite <- app_assoc.
Qed.

(** C0: after each reading the owner is warned exactly when the battery is at ten percent or less off the
    charger, and it was not so since the last time it was above ten percent on the charger (or since the start,
    if it was above ten percent then): one warning for each time the battery runs down. *)
Theorem battery_warnings first readings :
  supported first = true -> forallb supported readings = true ->
  run_battery_notification_worker first readings =
    imap (fun i r => if running_low r && armed first (rev (take i readings)) then [low_battery] else []) readings.
Proof.
  intros Hf Hr. unfold run_battery_notification_worker.
  assert (Hi : initially_triggered first = Some (negb (armed first []))).
  { cbn [armed]. destruct first as [s|[]]; cbn in *; try done. f_equal. by rewrite Z.ltb_antisym, negb_involutive. }
  rewrite Hi, battery_loop_spec by done. apply imap_ext. intros i x _. cbn. by rewrite app_nil_r.
Qed.

Definition reading (l : Z) (p : bool) : result BatteryError BatteryState := Ok (mkBatteryState l p).
Definition example_readings : list (result BatteryError BatteryState) :=
  [reading 12 false; reading 10 false; reading 9 false; Err TokioError; reading 9 true; reading 8 false; reading 11 true; reading 10 false].

Lemma battery_warnings_witness :
  run_battery_notification_worker (reading 50 false) example_readings = [[]; [low_battery]; []; []; []; []; []; [low_battery]].
Proof.
  refine (eq_trans (battery_warnings (reading 50 false) example_readings eq_refl eq_refl) _). vm_compute. reflexivity.
Defined.

(** ** Reading the level *)

(** C0: a level printed in decimal, as the kernel does with a line feed after it, is read back, and nothing above 255 is
    taken for a level. *)
Theorem level_reads_back l :
  0 <= l -> get_level_from_percentage_file (Some (dec l ++ [10])) =
    if l <? 256 then Ok l else Err BatteryLevelParseError.
Proof.
  intros Hl. destruct (dec_spec l Hl) as (Hne & Hds & Hp). cbn [get_level_from_percentage_file].
  assert (Ht : trim_end (dec l ++ [10]) = dec l).
  { unfold trim_end, trim_end_by. rewrite rev_app_distr. cbn [rev app trim_start_by]. change (is_whitespace 10) with true. cbn iota.
    rewrite trim_start_by_id; [by rewrite rev_involutive|]. intros c t Hc. apply Forall_rev in Hds. rewrite Hc in Hds.
    apply Forall_cons in Hds as [Hd _]. unfold is_ascii_digit, in_range in Hd. unfold is_whitespace, in_range. lia. }
  rewrite Ht. unfold parse_unsigned. destruct (dec l) as [|c s]; [done|]. apply Forall_cons in Hds as [Hc _].
  assert (c <> 43) as Hpl by (unfold is_ascii_digit, in_range in Hc; lia).
  rewrite (proj2 (Z.eqb_neq c 43) Hpl), Hp. change (2 ^ 8) with 256. by destruct (l <? 256).
Qed.
Lemma level_reads_back_witness : get_level_from_percentage_file (Some (dec 87 ++ [10])) = Ok 87.
Proof. refine (eq_trans (level_reads_back 87 _) _); [lia | vm_compute; reflexivity]. Defined.
