(* ===== verification/Update.v ===== *)
(** * Looking for new versions ([daemon/src/update.rs])

    The worker that asks for the latest release, compares it with the installed version, keeps the status the page
    shows and tells the owner once about each new version.  The request and its JSON are the outcome
    [Fetched tag url] or a failure with its text; the clock is a number. *)

From S2P Require Import Prelude RustStr Notifications.

Local Open Scope Z_scope.

Record UpdateStatus := mkUpdateStatus {
  current_version : rstr;
  latest_version : option rstr;
  latest_release_url : option rstr;
  update_available : bool;
  last_checked : option Z;
  last_error : option rstr }.

Record VersionParts := mkVersionParts { major : Z; minor : Z; patch : Z }.

(** The derived order: field by field. *)
Definition version_gt (a b : VersionParts) : bool :=
  (major b <? major a) ||
  ((major a =? major b) && ((minor b <? minor a) || ((minor a =? minor b) && (patch b <? patch a)))).

Definition version_text (v : VersionParts) : rstr := dec (major v) ++ [46] ++ dec (minor v) ++ [46] ++ dec (patch v).

Definition parse_release_tagname (version : rstr) : option (VersionParts * rstr) :=
  match split_on 46 (trim_start_by (fun c => c =? 118) (trim version)) with
  | [a; b; c] =>
      major ← parse_unsigned 64 a; minor ← parse_unsigned 64 b; patch ← parse_unsigned 64 c;
      let v := mkVersionParts major minor patch in Some (v, version_text v)
  | _ => None
  end.

Definition format_update_message (current latest url : rstr) : rstr :=
  lit "Rayhunter " ++ current ++ lit " is installed, but " ++ latest ++ lit " is available. Open " ++ url ++ lit " to download the update.".

(** What asking for the latest release gives: its tag and address, or why there is none. *)
Inductive Fetch := Fetched (tag_name html_url : rstr) | FetchFailed (err : rstr).

Section worker.
(** [CARGO_PKG_VERSION]. *)
Context (pkg_version : rstr) (enabled_notifications : list NotificationType).

Definition UpdateStatus_default : UpdateStatus := mkUpdateStatus pkg_version None None false None None.

Definition refresh_update_status (now : Z) (f : Fetch) (st : UpdateStatus) : result rstr (option (rstr * rstr)) * UpdateStatus :=
  match f with
  | FetchFailed err => (Err err, st)
  | Fetched tag url =>
      match parse_release_tagname pkg_version with
      | None => (Err (lit "failed to parse current version " ++ pkg_version), st)
      | Some (current_parts, current) =>
          match parse_release_tagname tag with
          | None => (Err (lit "failed to parse latest release version " ++ tag), st)
          | Some (latest_parts, latest) =>
              let available := version_gt latest_parts current_parts in
              (Ok (if available then Some (latest, url) else None),
               mkUpdateStatus current (Some latest) (Some url) available (Some now) None)
          end
      end
  end.

(** The worker: the status, the version it last told of, and what it has sent. *)
Record Checker := mkChecker {
  status : UpdateStatus;
  last_notified_version : option rstr;
  sent : list Notification }.

(** One turn of the loop; sending to a channel that is closed is only logged. *)
Definition check_turn (c : Checker) (check : Z * Fetch) : Checker :=
  let '(now, f) := check in
  match refresh_update_status now f (status c) with
  | (Ok (Some (latest, url)), st) =>
      if bool_decide (last_notified_version c = Some latest) then mkChecker st (last_notified_version c) (sent c)
      else
        let text := format_update_message (current_version st) latest url in
        mkChecker st (Some latest)
          (if bool_decide (Update ∈ enabled_notifications) then sent c ++ [mkNotification Update text None] else sent c)
  | (Ok None, st) => mkChecker st None (sent c)
  | (Err err, st) =>
      mkChecker (mkUpdateStatus (current_version st) (latest_version st) (latest_release_url st) (update_available st)
                   (Some now) (Some err)) (last_notified_version c) (sent c)
  end.

Definition run_update_check_worker (checks : list (Z * Fetch)) : Checker :=
  foldl check_turn (mkChecker UpdateStatus_default None []) checks.
End worker.

(** ** Versions *)

Lemma dec_no_char c z : 0 <= z -> is_ascii_digit c = false -> c ∉ dec z.
Proof.
  intros Hz Hc Hin. destruct (dec_spec z Hz) as (_ & Hds & _). rewrite Forall_forall in Hds. specialize (Hds c Hin). congruence.
Qed.

Lemma parse_unsigned_dec w z : 0 <= z < 2 ^ w -> parse_unsigned w (dec z) = Some z.
Proof.
  intros [H0 H1]. destruct (dec_spec z H0) as (Hne & Hds & Hp). unfold parse_unsigned.
  destruct (dec z) as [|c s]; [done|]. apply Forall_cons in Hds as [Hc _].
  assert (c <> 43) as Hpl by (unfold is_ascii_digit, in_range in Hc; lia).
  by rewrite (proj2 (Z.eqb_neq c 43) Hpl), Hp, (proj2 (Z.ltb_lt _ _)).
Qed.

Lemma trim_visible s : s <> [] -> Forall (fun c => is_whitespace c = false) s -> trim s = s.
Proof.
  intros Hne Hs. unfold trim, trim_by, trim_end_by. rewrite (trim_start_by_id _ s).
  - rewrite (trim_start_by_id _ (rev s)); [by rewrite rev_involutive|]. intros c t Hc. apply Forall_rev in Hs. rewrite Hc in Hs. by apply Forall_cons in Hs as [? _].
  - intros c t ->. by apply Forall_cons in Hs as [? _].
Qed.

Definition version_in_range (v : VersionParts) : Prop :=
  0 <= major v < 2 ^ 64 /\ 0 <= minor v < 2 ^ 64 /\ 0 <= patch v < 2 ^ 64.

Lemma dec_visible z : 0 <= z -> Forall (fun c => is_whitespace c = false) (dec z).
Proof.
  intros Hz. destruct (dec_spec z Hz) as (_ & Hds & _). eapply Forall_impl; [exact Hds|]. intros c Hc. cbn beta in Hc.
  unfold is_ascii_digit, in_range in Hc. unfold is_whitespace, in_range. lia.
Qed.

Lemma version_text_visible v : version_in_range v -> Forall (fun c => is_whitespace c = false) (version_text v).
Proof.
  intros (Ha & Hb & Hc). unfold version_text. repeat (apply Forall_app; split); try (by apply dec_visible; lia); by apply Forall_singleton.
Qed.

(** C0: a version printed as the releases are tagged, with any number of leading letters v, is read back. *)
Theorem parse_version_text v n :
  version_in_range v -> parse_release_tagname (replicate n 118 ++ version_text v) = Some (v, version_text v).
Proof.
  intros Hv. pose proof Hv as (Ha & Hb & Hc). unfold parse_release_tagname. rewrite trim_visible.
  - assert (Ht : trim_start_by (fun c => c =? 118) (replicate n 118 ++ version_text v) = version_text v).
    { induction n as [|n IH]; [|exact IH]. apply trim_start_by_id. intros c t Heq. cbn [replicate app] in Heq. unfold version_text in Heq.
      destruct (dec_spec (major v) ltac:(lia)) as (Hne & Hds & _). destruct (dec (major v)) as [|d s]; [done|].
      injection Heq as -> _. apply Forall_cons in Hds as [Hd _]. unfold is_ascii_digit, in_range in Hd. lia. }
    rewrite Ht. unfold version_text at 1. cbn [app]. rewrite !split_on_cons, split_on_none by (apply dec_no_char; [lia | done]).
    rewrite !parse_unsigned_dec by lia. cbn. by destruct v.
  - destruct (dec_spec (major v) ltac:(lia)) as (Hne & _). intros Heq. apply app_nil in Heq as [_ Heq]. unfold version_text in Heq.
    by apply app_nil in Heq as [? _].
  - apply Forall_app. split; [|by apply version_text_visible]. apply Forall_replicate. reflexivity.
Qed.
Lemma parse_version_text_witness :
  parse_release_tagname (lit "v0.4.12") = Some (mkVersionParts 0 4 12, lit "0.4.12").
Proof. refine (parse_version_text (mkVersionParts 0 4 12) 1 _). repeat split; cbn; lia. Defined.

(** The order of versions is total and strict. *)
Lemma version_gt_total a b : version_gt a b = true \/ a = b \/ version_gt b a = true.
Proof.
  unfold version_gt. destruct a as [a1 a2 a3], b as [b1 b2 b3]. cbn.
  destruct (Z.ltb_spec b1 a1), (Z.ltb_spec a1 b1), (Z.eqb_spec a1 b1), (Z.eqb_spec b1 a1); try lia; cbn; auto.
  destruct (Z.ltb_spec b2 a2), (Z.ltb_spec a2 b2), (Z.eqb_spec a2 b2), (Z.eqb_spec b2 a2); try lia; cbn; auto.
  destruct (Z.ltb_spec b3 a3), (Z.ltb_spec a3 b3); auto. right. left. f_equal; lia.
Qed.
Lemma version_gt_trans a b c : version_gt a b = true -> version_gt b c = true -> version_gt a c = true.
Proof. unfold version_gt. lia. Qed.

(** ** One message per version *)

Section proofs.
Context (pkg_version : rstr) (enabled : list NotificationType).

(** What a check finds: nothing is known of the releases, there is nothing new, or a new version. *)
Definition finding (f : Fetch) : option (option (rstr * rstr)) :=
  result_ok (refresh_update_status pkg_version 0 f (UpdateStatus_default pkg_version)).1.

Lemma refresh_finding now f st : result_ok (refresh_update_status pkg_version now f st).1 = finding f.
Proof.
  unfold finding, refresh_update_status. destruct f as [tag url|err]; [|done].
  destruct (parse_release_tagname pkg_version) as [[cp c]|]; [|done]. by destruct (parse_release_tagname tag) as [[lp l]|].
Qed.

(** The version that was newest when the releases were last seen; past checks, the last one first. *)
Fixpoint last_seen (past : list (Z * Fetch)) : option rstr :=
  match past with
  | [] => None
  | (_, f) :: past => match finding f with Some found => fst <$> found | None => last_seen past end
  end.

(** The message after a check: its version is new, and was not what the last look had found. *)
Definition due (past : list (Z * Fetch)) (f : Fetch) : list Notification :=
  match finding f, parse_release_tagname pkg_version with
  | Some (Some (latest, url)), Some (_, current) =>
      if bool_decide (last_seen past = Some latest) || negb (bool_decide (Update ∈ enabled)) then []
      else [mkNotification Update (format_update_message current latest url) None]
  | _, _ => []
  end.

Fixpoint due_all (past checks : list (Z * Fetch)) : list Notification :=
  match checks with
  | [] => []
  | c :: checks => due past c.2 ++ due_all (c :: past) checks
  end.

Lemma check_turn_spec c past now f :
  last_notified_version c = last_seen past ->
  let c' := check_turn pkg_version enabled c (now, f) in
  last_notified_version c' = last_seen ((now, f) :: past) /\ sent c' = sent c ++ due past f.
Proof.
  intros Hl. unfold check_turn, due. cbn [last_seen]. rewrite <- (refresh_finding now f (status c)).
  unfold refresh_update_status. destruct f as [tag url|err]; [|cbn; by rewrite app_nil_r].
  destruct (parse_release_tagname pkg_version) as [[cp cur]|]; [|cbn; by rewrite app_nil_r].
  destruct (parse_release_tagname tag) as [[lp lat]|]; [|cbn; by rewrite app_nil_r]. cbn.
  destruct (version_gt lp cp); cbn; [|by rewrite app_nil_r]. rewrite <- Hl.
  destruct (bool_decide_reflect (last_notified_version c = Some lat)) as [He|Hne]; cbn; [by rewrite He, app_nil_r|].
  split; [done|]. destruct (bool_decide (Update ∈ enabled)); cbn; [done | by rewrite app_nil_r].
Qed.

Lemma checks_spec checks past c :
  last_notified_version c = last_seen past ->
  sent (foldl (check_turn pkg_version enabled) c checks) = sent c ++ due_all past checks.
Proof.
  revert past c. induction checks as [|[now f] checks IH]; intros past c Hl; cbn [foldl due_all]; [by rewrite app_nil_r|].
  destruct (check_turn_spec c past now f Hl) as [Hl' Hs]. rewrite (IH ((now, f) :: past)) by exact Hl'. by rewrite Hs, <- app_assoc.
Qed.

(** C0: whatever the checks find and however many fail, the owner gets a message exactly after the checks
    that find a version newer than the installed one which the last check that came through had not found; the
    message names both versions and the address. *)
Theorem update_messages checks :
  sent (run_update_check_worker pkg_version enabled checks) = due_all [] checks.
Proof. unfold run_update_check_worker. by rewrite (checks_spec checks []). Qed.

(** What the page shows is consistent: the offer of an update is the comparison of the latest version shown with the installed
    one, also after checks that failed. *)
Definition consistent (st : UpdateStatus) : Prop :=
  match latest_version st with
  | None => update_available st = false
  | Some v => exists latest installed text, v = version_text latest /\
      parse_release_tagname pkg_version = Some (installed, text) /\ update_available st = version_gt latest installed
  end.

Lemma parse_text s v t : parse_release_tagname s = Some (v, t) -> t = version_text v.
Proof.
  unfold parse_release_tagname. destruct (split_on _ _) as [|a [|b [|c [|]]]]; try done.
  destruct (parse_unsigned 64 a); [|done]. destruct (parse_unsigned 64 b); [|done]. destruct (parse_unsigned 64 c); [|done].
  cbn. by intros [= <- <-].
Qed.

Lemma check_turn_consistent c check : consistent (status c) -> consistent (status (check_turn pkg_version enabled c check)).
Proof.
  destruct check as [now f]. intros Hc. unfold check_turn, refresh_update_status. destruct f as [tag url|err]; [|exact Hc].
  destruct (parse_release_tagname pkg_version) as [[cp cur]|] eqn:Hp; [|exact Hc].
  destruct (parse_release_tagname tag) as [[lp lat]|] eqn:Ht; [|exact Hc]. apply parse_text in Ht as ->.
  assert (H : forall b, b = version_gt lp cp -> consistent (mkUpdateStatus cur (Some (version_text lp)) (Some url) b (Some now) None)).
  { intros b ->. unfold consistent. cbn. rewrite Hp. by eexists _, _, _. }
  destruct (version_gt lp cp) eqn:Hgt; cbn; [destruct (bool_decide _); cbn|]; by apply H.
Qed.

Theorem update_offer_consistent checks : consistent (status (run_update_check_worker pkg_version enabled checks)).
Proof.
  unfold run_update_check_worker. set (c0 := mkChecker _ _ _). assert (H : consistent (status c0)) by done.
  revert H. generalize c0. induction checks as [|c checks IH]; intros c1 H; cbn [foldl]; [exact H|].
  by apply IH, check_turn_consistent.
Qed.
End proofs.

(** A version found, found again after a failure, taken back, and found once more: two messages. *)
Example update_messages_example :
  length (sent (run_update_check_worker (lit "0.3.1") [Update]
    [(0, Fetched (lit "v0.4.0") (lit "u")); (1, FetchFailed (lit "no route")); (2, Fetched (lit "v0.4.0") (lit "u"));
     (3, Fetched (lit "0.3.1") (lit "u")); (4, Fetched (lit "v0.4.0") (lit "u")); (5, Fetched (lit "v0.4.0-rc1") (lit "u"))])) = 2%nat.
Proof. vm_compute. reflexivity. Qed.
