(* ===== verification/Mdns.v ===== *)
(** * The name on the local network ([daemon/src/mdns.rs])

    The multicast DNS responder: the reading of questions, the answer, the choice of the address, and the
    loop, one turn of which joins the group on new addresses and handles at most one packet. *)

From S2P Require Import Prelude RustStr.

Local Open Scope Z_scope.

Definition NAME : rstr := lit "rayhunter.local".
Definition PORT : Z := 5353.
Definition TTL : Z := 120.
Definition TYPE_A : Z := 1.
Definition TYPE_ANY : Z := 255.
Definition CLASS_IN : Z := 1.
Definition CACHE_FLUSH : Z := 0x8000.

(** The four octets of an [Ipv4Addr]. *)
Abbreviation Ipv4Addr := (list Z).

Record Question := mkQuestion { q_name : rstr; qtype : Z; unicast : bool }.

(** [packet.get(a..b)]. *)
Definition packet_range (packet : list Z) (a b : nat) : option (list Z) :=
  if (a <=? b)%nat && (b <=? length packet)%nat then Some (take (b - a) (drop a packet)) else None.

(** The labels of a name, from [pos] on, and where it ends; a pointer ends it.  [None] is the end of
    the packet. *)
Fixpoint read_labels (fuel : nat) (packet : list Z) (pos : nat) (labels : list rstr) : option (list rstr * nat) :=
  match fuel with
  | O => None
  | S fuel =>
      match packet !! pos with
      | None => None
      | Some len =>
          let pos := S pos in
          if len =? 0 then Some (labels, pos)
          else if Z.land len 0xC0 =? 0xC0 then Some (labels, S pos)
          else
            let fin := (pos + Z.to_nat len)%nat in
            match packet_range packet pos fin with
            | None => None
            | Some label => read_labels fuel packet fin (labels ++ [map to_ascii_lowercase (from_utf8_lossy label)])
            end
      end
  end.

(** Each label is at least one byte further on, so the bytes of the packet are fuel enough. *)
Definition read_name (packet : list Z) (pos : nat) : option (list rstr * nat) :=
  read_labels (S (length packet)) packet pos [].

Fixpoint read_questions (n : nat) (packet : list Z) (pos : nat) (out : list Question) : list Question :=
  match n with
  | O => out
  | S n =>
      match read_name packet pos with
      | None => out
      | Some (labels, pos) =>
          match packet_range packet pos (pos + 4) with
          | Some [t0; t1; c0; c1] =>
              let q := mkQuestion (join (lit ".") labels) (be_value [t0; t1]) (negb (Z.land (be_value [c0; c1]) CACHE_FLUSH =? 0)) in
              read_questions n packet (pos + 4) (out ++ [q])
          | _ => out
          end
      end
  end.

Definition parse_questions (packet : list Z) : list Question :=
  match packet with
  | _ :: _ :: f0 :: f1 :: n0 :: n1 :: _ :: _ :: _ :: _ :: _ :: _ :: _ =>
      if negb (Z.land (be_value [f0; f1]) 0x8000 =? 0) then []
      else read_questions (Nat.min (Z.to_nat (be_value [n0; n1])) 16) packet 12 []
  | _ => []
  end.

Definition is_for_us (q : Question) : bool :=
  bool_decide (q_name q = NAME) && ((qtype q =? TYPE_A) || (qtype q =? TYPE_ANY)).

Definition encode_label (label : rstr) : list Z := Z.of_nat (length label) :: label.

Definition build_response (address : Ipv4Addr) : list Z :=
  [0; 0] ++ be_bytes 2 0x8400 ++ [0; 0; 0; 1; 0; 0; 0; 0]
  ++ flat_map encode_label (split_on 46 NAME) ++ [0]
  ++ be_bytes 2 TYPE_A ++ be_bytes 2 (Z.lor CLASS_IN CACHE_FLUSH) ++ be_bytes 4 TTL ++ be_bytes 2 4 ++ address.

Definition address_for (addresses : list Ipv4Addr) (peer : Ipv4Addr) : option Ipv4Addr :=
  match find (fun a => bool_decide (take 3 a = take 3 peer)) addresses with
  | Some a => Some a
  | None => head addresses
  end.

(** ** The loop *)

(** Where a packet goes: to the group, or to one socket address. *)
Inductive Destination := Group | Peer (ip : Ipv4Addr) (port : Z).

(** What wakes a turn: five seconds have gone by, a packet from an IPv4 peer, or anything else (an error, a
    peer of another kind). *)
Inductive Wake := Timeout | Received (ip : Ipv4Addr) (port : Z) (packet : list Z) | Ignored.

Section responder.
(** Whether the group can be joined on an address. *)
Context (join_multicast : Ipv4Addr -> bool).

Fixpoint join_new (current joined : list Ipv4Addr) : list Ipv4Addr * list (list Z) :=
  match current with
  | [] => (joined, [])
  | addr :: current =>
      if bool_decide (addr ∈ joined) then join_new current joined
      else if join_multicast addr
           then let '(joined, said) := join_new current (joined ++ [addr]) in (joined, build_response addr :: said)
           else join_new current joined
  end.

Definition answer (current : list Ipv4Addr) (e : Wake) : option (Destination * list Z) :=
  match e with
  | Received ip port packet =>
      q ← find is_for_us (parse_questions packet);
      ours ← address_for current ip;
      Some (if unicast q || negb (port =? PORT) then Peer ip port else Group, build_response ours)
  | Timeout | Ignored => None
  end.

(** One turn: the addresses joined, and the packets sent. *)
Definition turn (current : list Ipv4Addr) (e : Wake) (joined : list Ipv4Addr) : list Ipv4Addr * list (Destination * list Z) :=
  let '(joined, said) := join_new current joined in
  (filter (fun a => a ∈ current) joined, map (fun p => (Group, p)) said ++ option_list (answer current e)).

Fixpoint run (turns : list (list Ipv4Addr * Wake)) (joined : list Ipv4Addr) : list (list (Destination * list Z)) :=
  match turns with
  | [] => []
  | (current, e) :: turns => let '(joined, sent) := turn current e joined in sent :: run turns joined
  end.
End responder.

(** ** Names *)

Lemma packet_range_at packet pos l r : drop pos packet = l ++ r -> (pos <= length packet)%nat -> packet_range packet pos (pos + length l) = Some l.
Proof.
  intros Hd Hle. unfold packet_range. assert (Hlen : (length packet - pos = length l + length r)%nat) by (rewrite <- length_drop, Hd; apply length_app).
  rewrite (proj2 (Nat.leb_le _ _)), (proj2 (Nat.leb_le (pos + length l) _)) by lia. cbn [andb]. rewrite Hd.
  replace (pos + length l - pos)%nat with (length l) by lia. by rewrite take_app_length.
Qed.

Definition label_ok (l : rstr) : Prop := (0 < length l < 64)%nat /\ Forall (fun b => 0 <= b < 128) l.

Lemma lossy_ascii l : Forall (fun b => 0 <= b < 128) l -> from_utf8_lossy l = l.
Proof.
  unfold from_utf8_lossy. induction 1 as [|b l Hb Hl IH]; [done|]. cbn [length utf8_lossy_fuel]. unfold utf8_decode_step.
  rewrite (proj2 (Z.ltb_lt b 0x80)) by lia. by rewrite IH.
Qed.

Lemma label_length_bits n : (0 < n < 64)%nat -> (Z.of_nat n =? 0) = false /\ (Z.land (Z.of_nat n) 0xC0 =? 0xC0) = false.
Proof.
  intros Hn. split; [lia|]. apply Z.eqb_neq. intros H.
  assert (Hz : Z.testbit (Z.land (Z.of_nat n) 0xC0) 7 = true) by (by rewrite H). rewrite Z.land_spec in Hz.
  apply andb_true_iff in Hz as [Hz _]. rewrite Z.testbit_true in Hz by lia. rewrite Z.div_small in Hz by lia. done.
Qed.

Lemma read_labels_spec labels fuel packet pos acc r :
  Forall label_ok labels -> drop pos packet = flat_map encode_label labels ++ 0 :: r -> (length labels < fuel)%nat ->
  read_labels fuel packet pos acc =
    Some (acc ++ map (map to_ascii_lowercase) labels, (pos + length (flat_map encode_label labels) + 1)%nat).
Proof.
  intros Hok. revert fuel pos acc. induction Hok as [|l labels Hl Hok IH]; intros fuel pos acc Hd Hf; (destruct fuel as [|fuel]; [lia|]); cbn [read_labels].
  - assert (Hp : packet !! pos = Some 0) by (replace pos with (pos + 0)%nat by lia; by rewrite <- lookup_drop, Hd). rewrite Hp. cbn.
    f_equal. f_equal; [by rewrite app_nil_r | lia].
  - cbn [flat_map encode_label app] in Hd. destruct Hl as [Hlen Hascii].
    assert (Hp : packet !! pos = Some (Z.of_nat (length l))) by (replace pos with (pos + 0)%nat by lia; by rewrite <- lookup_drop, Hd). rewrite Hp.
    apply lookup_lt_Some in Hp as Hlt. destruct (label_length_bits _ Hlen) as [-> ->]. rewrite Nat2Z.id.
    assert (Hd1 : drop (S pos) packet = l ++ flat_map encode_label labels ++ 0 :: r).
    { replace (S pos) with (pos + 1)%nat by lia. rewrite <- drop_drop, Hd. cbn. by rewrite <- app_assoc. }
    rewrite (packet_range_at packet (S pos) l _ Hd1 ltac:(lia)). rewrite lossy_ascii by done.
    rewrite IH; [|by rewrite <- drop_drop, Hd1, drop_app_length | cbn [length] in Hf; lia].
    f_equal. f_equal; [by rewrite <- app_assoc | cbn [flat_map]; rewrite length_app; change (length (encode_label l)) with (S (length l)); lia].
Qed.

Lemma encode_labels_length labels : (length labels <= length (flat_map encode_label labels))%nat.
Proof. induction labels as [|l labels IH]; [done|]. cbn [flat_map]. rewrite length_app. change (length (encode_label l)) with (S (length l)). cbn [length]. lia. Qed.

Lemma read_name_spec labels packet pos r :
  Forall label_ok labels -> drop pos packet = flat_map encode_label labels ++ 0 :: r ->
  read_name packet pos = Some (map (map to_ascii_lowercase) labels, (pos + length (flat_map encode_label labels) + 1)%nat).
Proof.
  intros Hok Hd. unfold read_name. rewrite (read_labels_spec labels _ _ _ [] r Hok Hd); [done|].
  pose proof (encode_labels_length labels). apply (f_equal length) in Hd. rewrite length_drop, length_app in Hd. lia.
Qed.

(** ** Questions *)

(** A question on the wire, and the whole query, as RFC 1035 lays them out. *)
Record Asked := mkAsked { a_labels : list (list Z); a_type : Z; a_class : Z }.
Definition encode_question (q : Asked) : list Z :=
  flat_map encode_label (a_labels q) ++ 0 :: be_bytes 2 (a_type q) ++ be_bytes 2 (a_class q).
Definition encode_query (id flags : Z) (counts : list Z) (qs : list Asked) (rest : list Z) : list Z :=
  be_bytes 2 id ++ be_bytes 2 flags ++ be_bytes 2 (Z.of_nat (length qs)) ++ counts ++ flat_map encode_question qs ++ rest.
Definition asked_ok (q : Asked) : Prop :=
  Forall label_ok (a_labels q) /\ 0 <= a_type q < 2 ^ 16 /\ 0 <= a_class q < 2 ^ 16.
Definition question_of (q : Asked) : Question :=
  mkQuestion (join (lit ".") (map (map to_ascii_lowercase) (a_labels q))) (a_type q) (Z.testbit (a_class q) 15).

Lemma be_2 v : be_bytes 2 v = [v / 256 mod 256; v mod 256].
Proof. reflexivity. Qed.
Lemma be_2_value v : 0 <= v < 2 ^ 16 -> be_value [v / 256 mod 256; v mod 256] = v.
Proof. intros Hv. rewrite <- be_2, be_value_bytes. by rewrite Z.mod_small by (cbn; lia). Qed.

Lemma flush_bit v : 0 <= v -> negb (Z.land v 0x8000 =? 0) = Z.testbit v 15.
Proof.
  intros Hv. change 0x8000 with (2 ^ 15). destruct (Z.testbit v 15) eqn:Hb.
  - apply negb_true_iff, Z.eqb_neq. intros H. apply (f_equal (fun x => Z.testbit x 15)) in H.
    rewrite Z.land_spec, Hb, Z.pow2_bits_true, Z.bits_0 in H by lia. done.
  - apply negb_false_iff, Z.eqb_eq. apply Z.bits_inj'. intros n Hn. rewrite Z.land_spec, Z.bits_0.
    destruct (decide (n = 15)) as [->|Hne]; [by rewrite Hb | rewrite Z.pow2_bits_false by lia; apply andb_false_r].
Qed.

Lemma read_questions_spec qs n packet pos out r :
  Forall asked_ok qs -> drop pos packet = flat_map encode_question qs ++ r -> (n <= length qs)%nat ->
  read_questions n packet pos out = out ++ map question_of (take n qs).
Proof.
  intros Hok. revert n pos out. induction Hok as [|q qs (Hl & Ht & Hc) Hok IH]; intros n pos out Hd Hn;
    (destruct n as [|n]; [by rewrite app_nil_r | cbn [length] in Hn]); [lia|]. cbn [read_questions].
  cbn [flat_map] in Hd. unfold encode_question at 1 in Hd. rewrite <- !app_assoc in Hd. cbn [app] in Hd.
  rewrite (read_name_spec (a_labels q) packet pos _ Hl Hd).
  set (pos1 := (pos + length (flat_map encode_label (a_labels q)) + 1)%nat).
  assert (Hd1 : drop pos1 packet = [a_type q / 256 mod 256; a_type q mod 256; a_class q / 256 mod 256; a_class q mod 256] ++ flat_map encode_question qs ++ r).
  { unfold pos1. rewrite <- !drop_drop, Hd, drop_app_length. cbn [drop]. by rewrite !be_2, <- !app_assoc. }
  assert (Hle : (pos1 <= length packet)%nat).
  { apply (f_equal length) in Hd1. rewrite length_drop, length_app in Hd1. cbn [length] in Hd1. lia. }
  rewrite (packet_range_at packet pos1 _ _ Hd1 Hle : packet_range packet pos1 (pos1 + 4) = _).
  rewrite !be_2_value, flush_bit by lia. rewrite IH; [|by rewrite <- drop_drop, Hd1 | lia].
  cbn [take map]. by rewrite <- app_assoc.
Qed.

(** The questions of a query are read as they were asked, names in lower case, up to the sixteenth; what follows
    them is not looked at.  A response has no questions. *)
Theorem parse_questions_spec id flags counts qs rest :
  Forall asked_ok qs -> 0 <= flags < 2 ^ 16 -> Z.of_nat (length qs) < 2 ^ 16 -> length counts = 6%nat -> qs <> [] ->
  parse_questions (encode_query id flags counts qs rest) =
    if Z.testbit flags 15 then [] else map question_of (take 16 qs).
Proof.
  intros Hok Hf Hn Hc Hne. unfold encode_query. set (body := flat_map encode_question qs ++ rest).
  assert (Hb : exists x body', body = x :: body').
  { unfold body. destruct qs as [|[[|l ls] t c] qs]; [done| |]; cbn; eauto. }
  do 6 (destruct counts as [|? counts]; [done|]). destruct counts; [|done]. destruct Hb as (x & body' & Hx).
  unfold parse_questions. rewrite !be_2, Hx. cbn [app].
  rewrite !be_2_value, flush_bit by lia. destruct (Z.testbit flags 15); [done|].
  rewrite Nat2Z.id, (read_questions_spec qs _ _ 12 [] rest Hok); [|by cbn [drop]; rewrite <- Hx | lia]. cbn [app].
  f_equal. destruct (decide (length qs <= 16)%nat) as [Hle|Hgt].
  - by rewrite Nat.min_l, !take_ge by lia.
  - by rewrite Nat.min_r by lia.
Qed.

Definition example_question : Asked := mkAsked [lit "RayHunter"; lit "local"] 1 0x8001.
Lemma parse_questions_spec_witness :
  parse_questions (encode_query 7 0x0100 [0; 0; 0; 0; 0; 0] [mkAsked [lit "printer"; lit "local"] 12 1; example_question] [1; 2]) =
    [mkQuestion (lit "printer.local") 12 false; mkQuestion NAME 1 true].
Proof.
  refine (eq_trans (parse_questions_spec 7 0x0100 [0; 0; 0; 0; 0; 0] [mkAsked [lit "printer"; lit "local"] 12 1; example_question] [1; 2] _ _ _ _ _) _);
    [|cbn; lia|cbn; lia|done|done|vm_compute; reflexivity].
  unfold asked_ok, label_ok. repeat constructor; cbn; lia.
Defined.

(** ** Answers *)

(** C0: the answer says what it should: it is a response (so that no responder takes it for a query), its one record
    is for the name, of type A, replaces what was known, and holds the address. *)
Theorem build_response_reads_back a b c d :
  let r := build_response [a; b; c; d] in
  parse_questions r = [] /\ be_value (take 2 (drop 6 r)) = 1 /\
  exists fin, read_name r 12 = Some (split_on 46 NAME, fin) /\
    be_value (take 2 (drop fin r)) = TYPE_A /\ be_value (take 2 (drop (fin + 2) r)) = CACHE_FLUSH + CLASS_IN /\
    be_value (take 4 (drop (fin + 4) r)) = TTL /\ be_value (take 2 (drop (fin + 8) r)) = 4 /\ drop (fin + 10) r = [a; b; c; d].
Proof.
  cbv zeta. split; [reflexivity|]. split; [reflexivity|]. exists 29%nat. repeat split; reflexivity.
Qed.

(** C0: who is answered, and with what: a packet is answered exactly when one of its questions is for this
    unit and it has an address; the answer gives the first address of the asker's network, or
    else the first one; it goes to the asker alone when the first such question wants that or comes from a port of its
    own, and to the group otherwise. *)
Theorem answer_spec current ip port packet :
  match answer current (Received ip port packet) with
  | None => current = [] \/ forall q, q ∈ parse_questions packet -> is_for_us q = false
  | Some (dest, bytes) =>
      exists q ours, find is_for_us (parse_questions packet) = Some q /\ ours ∈ current /\ bytes = build_response ours /\
        (take 3 ours = take 3 ip \/ head current = Some ours /\ forall a, a ∈ current -> take 3 a <> take 3 ip) /\
        dest = if unicast q || negb (port =? PORT) then Peer ip port else Group
  end.
Proof.
  unfold answer. destruct (find is_for_us (parse_questions packet)) as [q|] eqn:Hq; cbn [mbind option_bind].
  2:{ right. intros q Hin. apply list_elem_of_In in Hin. by apply (find_none _ _ Hq). }
  unfold address_for. destruct (find _ current) as [ours|] eqn:Ho; cbn [mbind option_bind].
  - apply find_some in Ho as [Hin Heq]. apply bool_decide_eq_true in Heq. apply list_elem_of_In in Hin.
    exists q, ours. split; [done|]. split; [done|]. split; [done|]. split; [by left | done].
  - destruct current as [|ours rest]; cbn [head mbind option_bind]; [by left|].
    exists q, ours. split; [done|]. split; [by left|]. split; [done|]. split; [right|done].
    split; [done|]. intros a Ha Heq. apply list_elem_of_In in Ha. pose proof (find_none _ _ Ho a Ha) as H.
    cbn beta in H. by apply bool_decide_eq_false in H.
Qed.

(** ** Announcements *)

Section announcements.
Context (join_multicast : Ipv4Addr -> bool).

Lemma join_new_spec current joined :
  NoDup current ->
  let fresh := filter (fun a => a ∉ joined /\ join_multicast a = true) current in
  join_new join_multicast current joined = (joined ++ fresh, map build_response fresh).
Proof.
  cbv zeta. intros Hnd. revert joined. induction Hnd as [|a current Ha Hnd IH]; intros joined; cbn [join_new]; [by rewrite app_nil_r|].
  rewrite filter_cons. destruct (bool_decide_reflect (a ∈ joined)) as [Hin|Hni]; [rewrite decide_False by naive_solver; apply IH|].
  destruct (join_multicast a) eqn:Hj; [|rewrite decide_False by naive_solver; apply IH].
  rewrite decide_True by done. rewrite IH.
  assert (Hf : filter (fun x => x ∉ joined ++ [a] /\ join_multicast x = true) current = filter (fun x => x ∉ joined /\ join_multicast x = true) current).
  { clear IH Hnd. induction current as [|x current IHc]; [done|]. apply not_elem_of_cons in Ha as [Hne Ha]. rewrite !filter_cons, IHc by done.
    destruct (decide (x ∉ joined ++ [a] /\ join_multicast x = true)), (decide (x ∉ joined /\ join_multicast x = true)); try done; exfalso; set_solver. }
  rewrite Hf. by rewrite <- app_assoc.
Qed.

(** C0: an address is announced when it appears and not again while it stays: after a turn the unit has joined
    exactly those of its addresses that it had joined before or could join now, and it has announced just the latter. *)
Theorem turn_announces current e joined :
  NoDup current ->
  let '(joined', sent) := turn join_multicast current e joined in
  (forall a, a ∈ joined' <-> a ∈ current /\ (a ∈ joined \/ join_multicast a = true)) /\
  sent = map (fun a => (Group, build_response a)) (filter (fun a => a ∉ joined /\ join_multicast a = true) current)
         ++ option_list (answer current e).
Proof.
  intros Hnd. unfold turn. rewrite (join_new_spec current joined Hnd). split; [|by rewrite map_map].
  intros a. rewrite list_elem_of_filter, elem_of_app, list_elem_of_filter. destruct (decide (a ∈ joined)); naive_solver.
Qed.
End announcements.

Lemma turn_announces_witness :
  let '(joined', sent) := turn (fun _ => true) [[192; 168; 1; 1]; [10; 0; 0; 9]] (Received [10; 0; 0; 5] 40000
      (encode_query 0 0 [0; 0; 0; 0; 0; 0] [example_question] [])) [[192; 168; 1; 1]] in
  (forall a, a ∈ joined' <-> a ∈ [[192; 168; 1; 1]; [10; 0; 0; 9]] /\ (a ∈ [[192; 168; 1; 1]] \/ true = true)) /\
  sent = [(Group, build_response [10; 0; 0; 9]); (Peer [10; 0; 0; 5] 40000, build_response [10; 0; 0; 9])].
Proof.
  apply (turn_announces (fun _ => true) [[192; 168; 1; 1]; [10; 0; 0; 9]] (Received [10; 0; 0; 5] 40000
      (encode_query 0 0 [0; 0; 0; 0; 0; 0] [example_question] [])) [[192; 168; 1; 1]]).
  apply NoDup_ListNoDup. repeat constructor; cbn; intros H; naive_solver.
Defined.
