(* ===== verification/Survey.v ===== *)
(** * The survey of access points ([daemon/src/wifi_survey.rs])

    One scan at a time and not too often; the text of [iw] turned into entries with their alerts, strongest
    first; the owner's rules, which are validated before they replace the stored ones, and never leave half a file.
    The JSON of the rules is an encoder and a decoder; the pack that is compiled in is what its parse gave. *)

From Stdlib Require Import Sorting.Sorted.
From S2P Require Import Prelude RustStr Filesystem Mac Glob Observation Signature UserRules Scan.

Local Open Scope Z_scope.

Definition second : Z := 10 ^ 9.
Definition MIN_SCAN_INTERVAL : Z := 5 * second.
Definition MAX_RULES_BYTES : Z := 256 * 1024.

Record SurveyEntry := mkSurveyEntry {
  entry_bssid : option rstr;
  entry_ssid : option rstr;
  hidden : bool;
  entry_frequency_mhz : option Z;
  entry_channel : option Z;
  band : option rstr;
  signal_dbm : option Z;
  elements : list Z;
  entry_security : option rstr;
  unprotected : bool;
  entry_wps : bool;
  entry_last_seen_ms : option Z;
  alerts : list Detection;
  randomised_address : bool }.

Record SurveyResponse := mkSurveyResponse {
  interface : rstr;
  networks : list SurveyEntry;
  alerting : nat;
  builtin_rules_enabled : nat;
  user_rules_enabled : nat }.

Record BuiltinSummary := mkBuiltinSummary {
  sum_id : rstr;
  sum_vendor : rstr;
  sum_description : rstr;
  sum_enabled : bool;
  overridden : bool;
  sum_confidence : Confidence;
  sum_severity : Severity;
  reachable : bool;
  unverified : bool;
  sum_notes : option rstr }.

(** ** Entries *)

Definition band_of (freq : Z) : option rstr :=
  if in_range 2400 2500 freq then Some (lit "2.4 GHz")
  else if in_range 4900 5900 freq then Some (lit "5 GHz")
  else if in_range 5925 7125 freq then Some (lit "6 GHz")
  else None.

Definition severity_rank (s : Severity) : nat :=
  match s with S_Informational => 0 | S_Low => 1 | S_Medium => 2 | S_High => 3 end%nat.

(** [a] is listed before [b]: greater confidence, then greater severity. *)
Definition stronger (a b : Detection) : bool :=
  (confidence_rank (det_confidence b) <? confidence_rank (det_confidence a))%nat ||
  ((confidence_rank (det_confidence a) =? confidence_rank (det_confidence b))%nat &&
   (severity_rank (det_severity b) <? severity_rank (det_severity a))%nat).

(** [sort_by], which keeps the order of equals. *)
Fixpoint insert_alert (x : Detection) (l : list Detection) : list Detection :=
  match l with
  | [] => [x]
  | y :: l => if stronger y x then y :: insert_alert x l else x :: y :: l
  end.
Definition sort_alerts (l : list Detection) : list Detection := foldr insert_alert [] l.

Section survey.
Context (str_debug : rstr -> rstr).

Definition to_entry (db : SignatureDb) (obs : WifiObservation) : SurveyEntry :=
  mkSurveyEntry
    (MacAddr_display <$> bssid obs)
    (s ← ssid obs; if bool_decide (Ssid_display s = []) then None else Some (Ssid_display s))
    (default false (is_wildcard <$> ssid obs))
    (frequency_mhz obs)
    (channel obs)
    (frequency_mhz obs ≫= band_of)
    (wifi_rssi_dbm obs)
    (map ie_id (information_elements obs))
    (security_label <$> security obs)
    (default false (is_unprotected <$> security obs))
    (wps obs)
    (last_seen_ms obs)
    (sort_alerts (match_observation str_debug db (PWifi obs)))
    (default false (is_locally_administered <$> bssid obs)).

(** ** Rules *)

Definition override (overrides : list (rstr * bool)) (id : rstr) : option bool :=
  snd <$> find (fun o => bool_decide (o.1 = id)) overrides.
Definition set_enabled (b : bool) (s : Signature) : Signature :=
  mkSignature (sig_id s) (sig_vendor s) (sig_product s) (sig_technology s) (conditions s) (sig_confidence s)
    (sig_severity s) (description s) (evidence s) (last_verified s) (sig_notes s) b.

Definition apply_overrides (user : UserRuleSet) (sigs : list Signature) : list Signature :=
  map (fun s => match override (builtin_overrides user) (sig_id s) with Some want => set_enabled want s | None => s end) sigs.

(** [builtin_db]: an unreadable pack is an empty one. *)
Definition builtin_db {E : Type} (parsed : result E SignatureDb) : SignatureDb :=
  match parsed with Ok db => db | Err _ => SignatureDb_empty end.

Definition summarise_builtin (builtin : SignatureDb) (user : UserRuleSet) : list BuiltinSummary :=
  zip_with (fun s was =>
      mkBuiltinSummary (sig_id s) (sig_vendor s) (description s) (enabled s) (negb (Bool.eqb (enabled s) was))
        (sig_confidence s) (sig_severity s) (reachable_via_bss_scan s) (bool_decide (last_verified s = None)) (sig_notes s))
    (apply_overrides user (signatures builtin)) (map enabled (signatures builtin)).

(** What [wifi_survey] makes of the text of a scan. *)
Definition survey_response (builtin : SignatureDb) (user : UserRuleSet) (iface : rstr) (text : rstr) : SurveyResponse :=
  let shipped := apply_overrides user (signatures builtin) in
  let '(sigs, user_enabled) :=
    match to_signatures user with
    | Ok sigs => (shipped ++ sigs, length sigs)
    | Err _ => (shipped, 0%nat)
    end in
  let db := mkDb (schema_version builtin) (pack_version builtin) sigs in
  let shown := List.filter (fun o => match bssid o with Some b => negb (is_allowlisted user b) | None => true end) (parse_iw_scan text) in
  let nets := map (to_entry db) shown in
  mkSurveyResponse iface nets (length (List.filter (fun n => negb (bool_decide (alerts n = []))) nets))
    (length (List.filter enabled shipped)) user_enabled.
End survey.

(** ** The stored rules *)

Definition rules_file : rstr := lit "wifi-alert-rules.json".
Definition rules_tmp : rstr := lit "wifi-alert-rules.json.new".

Inductive RulesError := BadRequest | InternalServerError.

Section rules.
Context (to_text : UserRuleSet -> result rstr rstr) (from_str : rstr -> result rstr UserRuleSet).

Definition no_rules : UserRuleSet := mkRules [] [] [].

(** [load_user_rules]: whatever is wrong with the file, there are no rules then. *)
Definition load_user_rules : M World RulesError UserRuleSet :=
  r ← attempt (read_file rules_file);
  mret (match r with
        | Ok bytes => match from_utf8 bytes with
                      | Some text => match rules_from_json from_str text with Ok set => set | Err _ => no_rules end
                      | None => no_rules
                      end
        | Err _ => no_rules
        end).

Definition get_wifi_rules (builtin : SignatureDb) : M World RulesError (UserRuleSet * list BuiltinSummary) :=
  rules ← load_user_rules; mret (rules, summarise_builtin builtin rules).

Definition refused (e : RulesError) {E A : Type} (m : result E A) : M World RulesError A :=
  match m with Ok a => mret a | Err _ => fail e end.
Definition storing {A : Type} (m : IO A) : M World RulesError A := map_err_m (fun _ => InternalServerError) m.

(** [set_wifi_rules]: [fs::write] is a creation and a write. *)
Definition set_wifi_rules (builtin : SignatureDb) (rules : UserRuleSet) : M World RulesError (UserRuleSet * list BuiltinSummary) :=
  refused BadRequest (validate_set rules) ;;
  text ← refused InternalServerError (to_text rules);
  (if MAX_RULES_BYTES <? str_len text then fail BadRequest else mret tt) ;;
  storing (file_create rules_tmp) ;;
  storing (append rules_tmp (as_bytes text)) ;;
  storing (rename rules_tmp rules_file) ;;
  get_wifi_rules builtin.
End rules.

(** ** One scan at a time *)

(** The permit, and when the last scan ended. *)
Record Scanner := mkScanner { scanning : bool; last_scan : option Z }.

Inductive ScanRefusal := AlreadyRunning | TryAgainIn (secs : Z) | NoInterface.

Definition begin_scan (now : Z) (iface : option rstr) (s : Scanner) : result ScanRefusal rstr * Scanner :=
  if scanning s then (Err AlreadyRunning, s)
  else
    match last_scan s with
    | Some t =>
        let since := Z.max 0 (now - t) in
        if since <? MIN_SCAN_INTERVAL then (Err (TryAgainIn ((MIN_SCAN_INTERVAL - since) / second + 1)), s)
        else match iface with None => (Err NoInterface, s) | Some i => (Ok i, mkScanner true (last_scan s)) end
    | None => match iface with None => (Err NoInterface, s) | Some i => (Ok i, mkScanner true (last_scan s)) end
    end.
(** However [iw] ended. *)
Definition end_scan (now : Z) (s : Scanner) : Scanner := mkScanner false (Some now).
(** The browser hung up: the request is dropped, and the permit with it. *)
Definition drop_scan (s : Scanner) : Scanner := mkScanner false (last_scan s).

(** [find_wireless_interface]: the first by name of those with a PHY. *)
Fixpoint str_ltb (a b : rstr) : bool :=
  match a, b with
  | _, [] => false
  | [], _ :: _ => true
  | x :: a, y :: b => (x <? y) || ((x =? y) && str_ltb a b)
  end.
Definition first_interface (found : list rstr) : option rstr :=
  foldr (fun n best => match best with Some b => if str_ltb b n then Some b else Some n | None => Some n end) None found.

(** ** Sorting *)

Lemma insert_alert_perm x l : insert_alert x l ≡ₚ x :: l.
Proof. induction l as [|y l IH]; cbn [insert_alert]; [done|]. destruct (stronger y x); [|done]. rewrite IH. apply Permutation_swap. Qed.
Lemma sort_alerts_perm l : sort_alerts l ≡ₚ l.
Proof. induction l as [|x l IH]; cbn; [done|]. rewrite insert_alert_perm. by f_equiv. Qed.

(** No alert is listed before a stronger one. *)
Definition not_weaker (a b : Detection) : Prop := stronger b a = false.

Lemma not_weaker_trans a b c : not_weaker a b -> not_weaker b c -> not_weaker a c.
Proof.
  unfold not_weaker, stronger. rewrite !orb_false_iff, !andb_false_iff, !Nat.ltb_ge, !Nat.eqb_neq. lia.
Qed.

Lemma insert_alert_sorted x l : StronglySorted not_weaker l -> StronglySorted not_weaker (insert_alert x l).
Proof.
  induction 1 as [|y l Hs IH Hy]; cbn [insert_alert]; [repeat constructor|]. destruct (stronger y x) eqn:Hyx.
  - constructor; [done|]. rewrite Forall_forall in Hy |- *. intros z Hz. rewrite insert_alert_perm in Hz.
    apply elem_of_cons in Hz as [->|Hz]; [|by apply Hy].
    unfold not_weaker, stronger in *. apply orb_true_iff in Hyx. rewrite orb_false_iff, andb_false_iff, !Nat.ltb_ge, Nat.eqb_neq.
    rewrite andb_true_iff, !Nat.ltb_lt, Nat.eqb_eq in Hyx. lia.
  - constructor; [by constructor|]. constructor; [exact Hyx|]. eapply Forall_impl; [exact Hy|]. intros z Hz. cbn beta in Hz.
    by eapply not_weaker_trans.
Qed.
Lemma sort_alerts_sorted l : StronglySorted not_weaker (sort_alerts l).
Proof. induction l as [|x l IH]; cbn; [constructor | by apply insert_alert_sorted]. Qed.

(** ** Alerts *)

Section alerts.
Context (str_debug : rstr -> rstr).
Abbreviation survey := (survey_response str_debug).

(** The signatures a scan is matched against. *)
Definition in_force (builtin : SignatureDb) (user : UserRuleSet) : list Signature :=
  apply_overrides user (signatures builtin) ++ match to_signatures user with Ok sigs => sigs | Err _ => [] end.
Definition ignored (user : UserRuleSet) (w : WifiObservation) : Prop := exists b, bssid w = Some b /\ is_allowlisted user b = true.

Lemma survey_networks builtin user iface text n :
  n ∈ networks (survey builtin user iface text) <->
  exists w, w ∈ parse_iw_scan text /\ ~ ignored user w /\
    n = to_entry str_debug (mkDb (schema_version builtin) (pack_version builtin) (in_force builtin user)) w.
Proof.
  unfold survey_response, in_force, ignored. destruct (to_signatures user) as [sigs|e]; cbn [networks]; rewrite ?app_nil_r.
  all: rewrite list_elem_of_fmap; split.
  all: intros (w & H1 & H2).
  1,3: exists w; apply list_elem_of_In, filter_In in H2 as [Hin Hf]; split; [by apply list_elem_of_In|]; split; [|done];
       intros (b & Hb & Ha); by rewrite Hb, Ha in Hf.
  all: destruct H2 as [Hn ->]; exists w; split; [done|]; apply list_elem_of_In, filter_In; split; [by apply list_elem_of_In|];
       destruct (bssid w) as [b|]; [|done]; destruct (is_allowlisted user b) eqn:Ha; [|done]; exfalso; eauto.
Qed.

Lemma alerts_elem db w d :
  d ∈ alerts (to_entry str_debug db w) <-> d ∈ match_signatures str_debug (signatures db) (PWifi w).
Proof. cbn [to_entry alerts]. by rewrite sort_alerts_perm. Qed.

Lemma fires_alert sigs p sig : sig ∈ sigs -> fires sig p ->
  exists d, d ∈ match_signatures str_debug sigs p /\ signature_id d = sig_id sig /\ det_severity d = sig_severity sig /\ det_confidence d = sig_confidence sig.
Proof.
  intros Hin Hf. destruct (proj2 (match_all_iff str_debug (conditions sig) p)) as [rs Hrs]; [apply Hf|].
  exists (detection_of sig rs). split; [|done]. apply match_signatures_elem. exists sig. split; [done|]. split; [done|].
  split; [done|]. by apply match_all_reasons.
Qed.

(** A rule that holds is an alarm.  For the text of a scan, an enabled rule of a set that was accepted, and an
    access point in the scan which is not on the ignore list: when every criterion of the rule holds for it, it is among the networks
    shown, and the rule, with its severity, is among its alerts. *)
Theorem rule_alerts builtin user iface text r w :
  validate_set user = Ok tt -> r ∈ rules user -> rule_enabled r = true -> technology r = Tech_Wifi ->
  w ∈ parse_iw_scan text -> ~ ignored user w ->
  (forall c cond, c ∈ criteria r -> convert_criterion c = Ok cond -> holds_wifi cond w) ->
  exists n d, n ∈ networks (survey builtin user iface text) /\ entry_bssid n = MacAddr_display <$> bssid w /\
    d ∈ alerts n /\ signature_id d = lit "user." ++ rule_id r /\ det_severity d = severity r.
Proof.
  intros Hv Hr He Ht Hw Hi Hc. destruct (user_rules_convert unit user Hv) as (sigs & Hsigs & Hconv & _).
  assert (Hin : r ∈ List.filter rule_enabled (rules user)) by (apply list_elem_of_In, filter_In; split; [by apply list_elem_of_In | done]).
  apply list_elem_of_lookup in Hin as (i & Hi'). destruct (Forall2_lookup_l _ _ _ _ _ Hconv Hi') as (sig & Hsig & (Hid & Htech & Hsev & _ & Hen & Hcond & _)).
  assert (Hf : fires sig (PWifi w)).
  { split; [done|]. split; [by rewrite Htech, Ht|]. apply Forall_forall. intros cond Hcd.
    apply list_elem_of_lookup in Hcd as (j & Hj). destruct (Forall2_lookup_r _ _ _ _ _ Hcond Hj) as (c & Hcj & Hcc).
    apply (Hc c cond); [by eapply list_elem_of_lookup_2 | done]. }
  assert (Hforce : sig ∈ in_force builtin user).
  { unfold in_force. rewrite Hsigs. apply elem_of_app. right. by eapply list_elem_of_lookup_2. }
  destruct (fires_alert _ _ _ Hforce Hf) as (d & Hd & Hdid & Hdsev & _).
  eexists _, d. split; [apply survey_networks; exists w; split; [done|]; split; [done | reflexivity]|].
  split; [done|]. split; [by apply alerts_elem|]. by rewrite Hdid, Hdsev.
Qed.

(** C0: an alarm has its reason: every alert shown belongs to an access point of the scan that is not on the ignore list, and to a
    signature all of whose conditions hold for it: one of the pack that is on as the owner has it, or an
    enabled rule; and alerts are listed strongest first. *)
Theorem alerts_sound builtin user iface text n :
  n ∈ networks (survey builtin user iface text) ->
  StronglySorted not_weaker (alerts n) /\
  exists w, w ∈ parse_iw_scan text /\ entry_bssid n = MacAddr_display <$> bssid w /\ ~ ignored user w /\
    forall d, d ∈ alerts n -> exists sig, fires sig (PWifi w) /\ signature_id d = sig_id sig /\ det_severity d = sig_severity sig /\
      ((exists s, s ∈ signatures builtin /\ sig_id s = sig_id sig /\
          default (enabled s) (override (builtin_overrides user) (sig_id s)) = true) \/
       (exists r, r ∈ rules user /\ rule_enabled r = true /\ to_signature r = Ok sig)).
Proof.
  intros (w & Hw & Hi & ->)%survey_networks. split; [apply sort_alerts_sorted|]. exists w. split; [done|]. split; [done|]. split; [done|].
  intros d (sig & Hin & Hf & Hd & _)%alerts_elem%match_signatures_elem. exists sig. split; [done|].
  rewrite Hd. split; [done|]. split; [done|]. cbn [signatures] in Hin. unfold in_force in Hin. apply elem_of_app in Hin as [Hin|Hin].
  - left. apply list_elem_of_fmap in Hin as (s & Hs & Hin). exists s. split; [done|]. destruct Hf as [Hen _]. subst sig.
    destruct (override (builtin_overrides user) (sig_id s)) as [[]|] eqn:Ho; cbn in *; done.
  - right. unfold to_signatures in Hin. destruct (collect_result _ _) as [sigs|] eqn:Hc; [|by apply elem_of_nil in Hin].
    apply collect_result_ok in Hc. apply list_elem_of_lookup in Hin as (i & Hi'). destruct (Forall2_lookup_r _ _ _ _ _ Hc Hi') as (r & Hr & Hto).
    apply list_elem_of_lookup_2, list_elem_of_In, filter_In in Hr as [Hr He]. exists r. split; [by apply list_elem_of_In | done].
Qed.
End alerts.

(** ** The rules in force *)

#[local] Opaque rules_file rules_tmp.

Section stored.
Context (to_text : UserRuleSet -> result rstr rstr) (from_str : rstr -> result rstr UserRuleSet).
Abbreviation post := (set_wifi_rules to_text from_str).

(** What a later start reads, if the storage answers. *)
Definition rules_in_force (fs : files_t) : UserRuleSet :=
  match fs !! rules_file ≫= from_utf8 with
  | Some text => match rules_from_json from_str text with Ok set => set | Err _ => no_rules end
  | None => no_rules
  end.

Lemma load_user_rules_spec w :
  files (load_user_rules from_str w).2 = files w /\
  (schedule w = [] -> (load_user_rules from_str w).1 = Ok (rules_in_force (files w))).
Proof.
  unfold load_user_rules, attempt, mbind, M_bind, read_file, faulty, rules_in_force.
  destruct (schedule w) as [|[f|] sch]; cbn; (destruct (files w !! rules_file) as [c|]; cbn; (split; [done|]); intros Hsch; first [discriminate Hsch | reflexivity]).
Qed.

Lemma get_wifi_rules_spec builtin w :
  exists a w', get_wifi_rules from_str builtin w = (Ok a, w') /\ files w' = files w.
Proof.
  unfold get_wifi_rules, load_user_rules, attempt, mbind, M_bind. pose proof (read_file_files rules_file w) as Hf.
  destruct (read_file rules_file w) as [r w1]. cbn in *. eauto.
Qed.

Lemma post_spec builtin rules w :
  (forall r t, to_text r = Ok t -> from_str t = Ok r /\ Forall is_scalar t) ->
  let '(res, w') := post builtin rules w in
  (forall p, p <> rules_file -> p <> rules_tmp -> files w' !! p = files w !! p) /\
  match res with
  | Ok _ => validate_set rules = Ok tt /\ rules_in_force (files w') = rules
  | Err _ => files w' !! rules_file = files w !! rules_file
  end.
Proof.
  intros Hserde. unfold set_wifi_rules. destruct (validate_set rules) as [[]|e] eqn:Hv; [|done].
  unfold mbind, M_bind, storing, map_err_m, refused. cbn. destruct (to_text rules) as [text|e] eqn:Ht; [|done]. cbn.
  destruct (MAX_RULES_BYTES <? str_len text); [done|]. cbn.
  assert (Hne : rules_file <> rules_tmp) by (intros H; vm_compute in H; discriminate H).
  pose proof (fun p H => file_create_touches rules_tmp w p H) as T1.
  destruct (file_create rules_tmp w) as [[[]|e1] w1] eqn:E1; cbn [snd] in T1; [|split; [|]; intros; apply T1; set_solver].
  pose proof (fun p H => append_touches rules_tmp (as_bytes text) w1 p H) as T2. cbn.
  destruct (append rules_tmp (as_bytes text) w1) as [[[]|e2] w2] eqn:E2; cbn [snd] in T2;
    [|split; [|]; intros; cbn; rewrite T2, T1 by set_solver; done].
  pose proof (fun p H => rename_touches rules_tmp rules_file w2 p H) as T3. cbn.
  destruct (rename rules_tmp rules_file w2) as [[[]|e3] w3] eqn:E3; cbn [snd] in T3.
  2:{ apply rename_err in E3. split; [|]; intros; cbn; rewrite E3, T2, T1 by set_solver; done. }
  apply file_create_ok in E1. apply append_ok in E2. apply rename_ok in E3 as (c & Hc & Hf3).
  rewrite E2, E1, lookup_insert_eq in Hc. rewrite lookup_insert_eq in Hc. injection Hc as <-. cbn in Hf3.
  cbn. destruct (get_wifi_rules_spec builtin w3) as (r & w4 & -> & ->).
  split; [intros p H1 H2; rewrite T3, T2, T1 by set_solver; done|]. split; [done|].
  unfold rules_in_force. rewrite Hf3, lookup_insert_eq. destruct (Hserde rules text Ht) as [Hfs Hsc].
  cbn. rewrite from_utf8_as_bytes by done. unfold rules_from_json. rewrite Hfs. cbn. by rewrite Hv.
Qed.

(** The owner's edits, one after the other: what each request was answered. *)
Fixpoint post_all (builtin : SignatureDb) (edits : list UserRuleSet) (w : World) : list bool * World :=
  match edits with
  | [] => ([], w)
  | rules :: edits =>
      let '(res, w) := post builtin rules w in
      let '(oks, w) := post_all builtin edits w in
      (is_ok res :: oks, w)
  end.

(** The last edit that was accepted. *)
Fixpoint last_accepted (edits : list UserRuleSet) (oks : list bool) (before : UserRuleSet) : UserRuleSet :=
  match edits, oks with
  | rules :: edits, ok :: oks => last_accepted edits oks (if ok then rules else before)
  | _, _ => before
  end.

(** The rules in force are the last that were accepted.  Whatever rules are sent and wherever the storage fails, a
    start after them reads the last rule set that was answered with success, exactly as it was sent, or what
    it would have read before; and no other file changes. *)
Theorem rules_survive builtin edits w :
  (forall r t, to_text r = Ok t -> from_str t = Ok r /\ Forall is_scalar t) ->
  let '(oks, w') := post_all builtin edits w in
  rules_in_force (files w') = last_accepted edits oks (rules_in_force (files w)) /\
  Forall2 (fun rules ok => ok = true -> validate_set rules = Ok tt) edits oks /\
  forall p, p <> rules_file -> p <> rules_tmp -> files w' !! p = files w !! p.
Proof.
  intros Hserde. revert w. induction edits as [|rules edits IH]; intros w; cbn [post_all last_accepted]; [done|].
  pose proof (post_spec builtin rules w Hserde) as H. destruct (post builtin rules w) as [res w1]. destruct H as [Hp Hres].
  specialize (IH w1). destruct (post_all builtin edits w1) as [oks w2]. destruct IH as (Hf & Hall & Hp2).
  split; [|split; [|intros p H1 H2; by rewrite Hp2, Hp]].
  - rewrite Hf. f_equal. destruct res as [a|e]; cbn; [by destruct Hres|]. unfold rules_in_force. by rewrite Hres.
  - constructor; [|done]. destruct res as [a|e]; cbn; [by destruct Hres | done].
Qed.
End stored.

(** ** Instances *)

Definition example_text : rstr := lit "BSS 70:b3:d5:7c:b1:22(on wlan0)
	freq: 2412
	signal: -40.00 dBm
	SSID: Cam-1
BSS 00:11:22:33:44:55(on wlan0)
	freq: 2437
	SSID: home
".
Definition example_rules : UserRuleSet := mkRules [demo_rule] [mkEntry (lit "00:11:22") (lit "mine")] [].
Definition example_pack : SignatureDb := mkDb SCHEMA_VERSION None [demo_signature].
Definition example_response : SurveyResponse := survey_response id example_pack example_rules (lit "wlan0") example_text.
Definition example_camera : WifiObservation := default WifiObservation_empty (head (parse_iw_scan example_text)).

Example survey_example :
  map (fun n => (entry_bssid n, entry_ssid n, entry_channel n, band n, map signature_id (alerts n))) (networks example_response) =
    [(Some (lit "70:b3:d5:7c:b1:22"), Some (lit "Cam-1"), Some 1, Some (lit "2.4 GHz"), [lit "user.1"])] /\
  (alerting example_response, builtin_rules_enabled example_response, user_rules_enabled example_response) = (1, 1, 1)%nat.
Proof. split; vm_compute; reflexivity. Qed.

Lemma rule_alerts_witness :
  exists n d, n ∈ networks (survey_response id example_pack example_rules (lit "wlan0") example_text) /\
    entry_bssid n = MacAddr_display <$> bssid example_camera /\
    d ∈ alerts n /\ signature_id d = lit "user." ++ rule_id demo_rule /\ det_severity d = severity demo_rule.
Proof.
  apply (rule_alerts id example_pack example_rules (lit "wlan0") example_text demo_rule example_camera).
  - vm_compute. reflexivity.
  - left.
  - reflexivity.
  - reflexivity.
  - apply (list_elem_of_lookup_2 _ 0). vm_compute. reflexivity.
  - intros (b & Hb & Ha). vm_compute in Hb. injection Hb as <-. vm_compute in Ha. discriminate Ha.
  - intros c cond Hc Hcond. apply elem_of_cons in Hc as [->|[->|Hc]%elem_of_cons]; [| |by apply elem_of_nil in Hc].
    + injection Hcond as <-. exists (Named (lit "Cam-1")). split; vm_compute; reflexivity.
    + vm_compute in Hcond. injection Hcond as <-. exists (mkMacAddr [0x70; 0xb3; 0xd5; 0x7c; 0xb1; 0x22]). split; [|split].
      * apply addr_bssid; [vm_compute; reflexivity | by right].
      * split; [vm_compute; reflexivity | by left].
      * vm_compute. reflexivity.
Defined.

Lemma alerts_sound_witness :
  length (networks example_response) = 1%nat /\ Forall (fun n => StronglySorted not_weaker (alerts n)) (networks example_response).
Proof.
  split; [vm_compute; reflexivity|]. apply Forall_forall. intros n Hn.
  exact (proj1 (alerts_sound id example_pack example_rules (lit "wlan0") example_text n Hn)).
Defined.

#[local] Instance RadioTech_eq_dec : EqDecision RadioTech.
Proof. solve_decision. Defined.
#[local] Instance Severity_eq_dec : EqDecision Severity.
Proof. solve_decision. Defined.
#[local] Instance UserCriterion_eq_dec : EqDecision UserCriterion.
Proof. solve_decision. Defined.
#[local] Instance UserRule_eq_dec : EqDecision UserRule.
Proof. solve_decision. Defined.
#[local] Instance AllowlistEntry_eq_dec : EqDecision AllowlistEntry.
Proof. solve_decision. Defined.
#[local] Instance UserRuleSet_eq_dec : EqDecision UserRuleSet.
Proof. solve_decision. Defined.

(** An encoding of two rule sets. *)
Definition example_to_text (r : UserRuleSet) : result rstr rstr :=
  if bool_decide (r = example_rules) then Ok (lit "a") else if bool_decide (r = no_rules) then Ok (lit "b") else Err [].
Definition example_from_str (t : rstr) : result rstr UserRuleSet :=
  if bool_decide (t = lit "a") then Ok example_rules else if bool_decide (t = lit "b") then Ok no_rules else Err [].
(** The storage fills up while the second set is written, and half of it is left beside the first. *)
Definition example_world : World :=
  mkWorld {[rules_file := as_bytes (lit "b")]} [None; None; None; None; None; Some (mkFault StorageFull 0)] (fun _ => 0) 0 0 0.

Lemma rules_survive_witness :
  rules_in_force example_from_str (files (post_all example_to_text example_from_str example_pack [example_rules; no_rules] example_world).2) =
    example_rules.
Proof.
  assert (Hserde : forall r t, example_to_text r = Ok t -> example_from_str t = Ok r /\ Forall is_scalar t).
  { assert (Ha : Forall is_scalar (lit "a")) by (apply Forall_singleton; unfold is_scalar; cbn; lia).
    assert (Hb : Forall is_scalar (lit "b")) by (apply Forall_singleton; unfold is_scalar; cbn; lia).
    intros r t. unfold example_to_text. destruct (bool_decide_reflect (r = example_rules)) as [->|_]; [intros [= <-]; by split|].
    destruct (bool_decide_reflect (r = no_rules)) as [->|_]; [intros [= <-]; by split | done]. }
  pose proof (rules_survive example_to_text example_from_str example_pack [example_rules; no_rules] example_world Hserde) as H.
  rewrite (surjective_pairing (post_all _ _ _ _ _)) in H. destruct H as [H _]. rewrite H. vm_compute. reflexivity.
Defined.
