(* ===== verification/DiagTask.v ===== *)
(** * The recording task ([DiagTask] of [daemon/src/diag.rs])

    The thread that owns the diag device: it starts, stops, rotates and deletes recordings, writes
    what the modem says to the current one, runs the harness over it, and tells the display, the
    notification worker and the analysis worker.  Its state is the task, the store with its files,
    and what it has sent; messages it handles are [DiagDeviceCtrlMessage] and the containers of the
    device.  It is made of [Store], [Cleanup], [Qmdl]'s writer, [Analyzer]'s harness and [CellInfo].

    Arguments: the [gzip] encoder ([Gzip]), the encodings ([to_toml] and the like), the operating
    system ([statvfs], the monotonic clock [instant]), and what is read off the device when a
    recording starts ([home_plmn], [collect]). *)

From S2P Require Import Prelude RustStr Floats Deku Hdlc DiagLog Diag Gsmtap GsmtapParser InformationElement Analyzer Config Qmdl.
From S2P Require Import CellInfo Gps.
From S2P Require Import Filesystem Sidecar Store StoreSafety Cleanup.

Local Open Scope Z_scope.

Definition DISK_CHECK_BYTES_INTERVAL : Z := 256 * 1024.
Definition DEMO_PREFIX : rstr := lit "[DEMO, NOT REAL] ".

(** [GzipEncoder]: bytes handed to it come out later, compressed. *)
Class Gzip (G : Type) := {
  gz_new : G;
  gz_plain : G -> list Z;
  gz_write : list Z -> G -> G * list Z;
  gz_flush : G -> G * list Z;
  gz_finish : G -> G * list Z;
  gz_plain_new : gz_plain gz_new = [];
  gz_plain_write d g : gz_plain (gz_write d g).1 = gz_plain g ++ d;
  gz_plain_flush g : gz_plain (gz_flush g).1 = gz_plain g }.

(** [GzipEncoder<File>], with the world its file is in. *)
Record GzFile (G : Type) := mkGzFile { encoder : G; gz_path : rstr; gz_world : World }.
Arguments mkGzFile {G} encoder gz_path gz_world.
Arguments encoder {G} g.
Arguments gz_path {G} g.
Arguments gz_world {G} g.

Section gz_file.
Context {G : Type} `{!Gzip G}.

(** What the encoder emits goes to the end of the file. *)
Definition emit (r : G * list Z) (f : GzFile G) : result Qmdl.ErrorKind unit * GzFile G :=
  let '(g, out) := r in
  let '(res, w) := append (gz_path f) out (gz_world f) in
  (map_err (fun _ => OtherError) res, mkGzFile g (gz_path f) w).
Definition file_position (f : GzFile G) : result Qmdl.ErrorKind Z * GzFile G :=
  let '(res, w) := file_size (gz_path f) (gz_world f) in
  (map_err (fun _ => OtherError) res, mkGzFile (encoder f) (gz_path f) w).

#[export] Program Instance GzFile_encoder : GzipEncoder (GzFile G) := {|
  plain f := gz_plain (encoder f);
  write_all data f := emit (gz_write data (encoder f)) f;
  flush f := emit (gz_flush (encoder f)) f;
  shutdown f := emit (gz_finish (encoder f)) f;
  stream_position := file_position |}.
Next Obligation.
  intros data [g p wd] w' H. unfold emit in H. cbn in *. pose proof (gz_plain_write data g) as Hp.
  destruct (gz_write data g) as [g' out]. destruct (append p out wd) as [r w1]. by injection H as _ <-.
Qed.
Next Obligation.
  intros [g p wd]. unfold emit. cbn. pose proof (gz_plain_flush g) as Hp.
  destruct (gz_flush g) as [g' out]. by destruct (append p out wd) as [r w1].
Qed.
End gz_file.

(** ** Data *)

Inductive DisplayState := Display_Recording | Display_Paused | Display_WarningDetected (t : EventType).
#[export] Instance DisplayState_eq_dec : EqDecision DisplayState.
Proof. solve_decision. Defined.

Definition event_type_text (t : EventType) : rstr :=
  match t with Informational => lit "Informational" | Low => lit "Low" | Medium => lit "Medium" | High => lit "High" end.

Record AnalysisWriter {D : Decoders} := mkAnalysisWriter { aw_path : rstr; harness : Harness }.
Arguments mkAnalysisWriter {D} aw_path harness.
Arguments aw_path {D} a.
Arguments harness {D} a.

(** The writers of the recording in progress; the QMDL writer without the world. *)
Inductive DiagState {D : Decoders} (G : Type) :=
| Recording (encoder : G) (qmdl_path : rstr) (analysis_writer : AnalysisWriter)
| Stopped.
Arguments Recording {D G} encoder qmdl_path analysis_writer.
Arguments Stopped {D G}.

Record DiagConfig := mkDiagConfig {
  analyzer_config : AnalyzerConfig;
  min_space_to_start_mb : Z;
  min_space_to_continue_mb : Z;
  auto_delete_clean : bool;
  uploads_configured : bool;
  max_recording_bytes : option Z;
  max_recording_duration : option Z;
  cfg_gps_mode : GpsMode;
  gps_fixed_coords : option (f64 * f64);
  wifi_enabled : bool }.

Definition rotation_bytes (mb : option Z) : option Z :=
  m ← mb; if 0 <? m then Some (Z.min (m * (1024 * 1024)) (2 ^ 64 - 1)) else None.
(** In seconds. *)
Definition rotation_duration (minutes : option Z) : option Z :=
  m ← minutes; if 0 <? m then Some (Z.min (m * 60) (2 ^ 64 - 1)) else None.

Record DiagTask {D : Decoders} (G : Type) := mkDiagTask {
  state : DiagState G;
  recording_started_at : option Z;
  max_type_seen : EventType;
  bytes_since_space_check : Z;
  low_space_warned : bool;
  stopped_by_user : bool;
  latest_packet_timestamp : option Z;
  cell_tracker : CellTracker }.
Arguments mkDiagTask {D G}.
Arguments state {D G} d.
Arguments recording_started_at {D G} d.
Arguments max_type_seen {D G} d.
Arguments bytes_since_space_check {D G} d.
Arguments low_space_warned {D G} d.
Arguments stopped_by_user {D G} d.
Arguments latest_packet_timestamp {D G} d.
Arguments cell_tracker {D G} d.

(** The task, the store with the files of its directory [here], the files of other directories, and what
    was sent: to the display, as notifications (the text and for how many seconds it is not
    repeated) and to the analysis worker. *)
Record DS {D : Decoders} (G : Type) := mkDS {
  task : DiagTask G;
  sys : Sys;
  here : rstr;
  elsewhere : gmap rstr files_t;
  ui : list DisplayState;
  notifications : list (rstr * option Z);
  analysis_messages : list rstr }.
Arguments mkDS {D G}.
Arguments task {D G} d.
Arguments sys {D G} d.
Arguments here {D G} d.
Arguments elsewhere {D G} d.
Arguments ui {D G} d.
Arguments notifications {D G} d.
Arguments analysis_messages {D G} d.

Inductive DiskSpaceCheck := Space_Ok (mb : Z) | Space_Warning (mb : Z) | Space_Critical (mb : Z) | Space_Failed.

(** The texts of the errors; [io_text] is the operating system's. *)
Definition error_text (io_text : ErrorKind -> rstr) (e : RecordingStoreError) : rstr :=
  match e with
  | NoCurrentEntry => lit "Can't close an entry when there's no current entry"
  | NoSuchEntryError => lit "An entry with that name doesn't exist"
  | CreateFileError k => lit "Couldn't create file: " ++ io_text k
  | ReadFileError k => lit "Couldn't read file: " ++ io_text k
  | WriteFileError k => lit "Couldn't write file: " ++ io_text k
  | DeleteFileError k => lit "Couldn't delete file: " ++ io_text k
  | OpenDirError k => lit "Couldn't open directory at path: " ++ io_text k
  | ReadManifestError k => lit "Couldn't read manifest file: " ++ io_text k
  | WriteManifestError k => lit "Couldn't write manifest file: " ++ io_text k
  | ParseManifestError => lit "Couldn't parse QMDL store manifest file: "
  | InsufficientDiskSpace a r => lit "Insufficient disk space: " ++ dec a ++ lit "MB available, " ++ dec r ++ lit "MB required"
  | GpsStorageNotFound => lit "GPS storage directory not found"
  | SerializationError => lit "Serialization error: "
  end.

(** ** Operations *)

Section operations.
Context {C : Crc16} {K : Deku} {R : DiagReader} {D : Decoders} {T : DebugText} {G : Type} `{!Gzip G}.
Context (cfg : DiagConfig) (to_toml : Manifest -> list Z) (from_toml : list Z -> option Manifest)
  (to_vec : RecordingSidecar -> result ErrorKind (list Z)) (from_slice : list Z -> option RecordingSidecar)
  (from_str : rstr -> option Value) (row_text : AnalysisRow -> list Z) (metadata_text : ReportMetadata -> list Z)
  (gps_text : GpsRecord -> result unit (list Z)) (io_text : ErrorKind -> rstr) (writer_error_text : Qmdl.ErrorKind -> rstr)
  (uptime : option rstr) (runtime : rstr * rstr * rstr) (statvfs : World -> option Z) (instant : World -> Z)
  (home_plmn : World -> list rstr) (collect : World -> rstr -> list rstr -> RecordingSidecar)
  (modified : rstr -> option Z) (listing : files_t -> list rstr).

Abbreviation Task := (M (DS G) RecordingStoreError).

Definition on_sys {A : Type} (m : Op A) : Task A := fun d =>
  let '(r, s) := m (sys d) in (r, mkDS (task d) s (here d) (elsewhere d) (ui d) (notifications d) (analysis_messages d)).
Definition get_task : Task (DiagTask G) := fun d => (Ok (task d), d).
Definition get_sys : Task Sys := fun d => (Ok (sys d), d).
Definition put_task (t : DiagTask G) : Task unit := fun d =>
  (Ok tt, mkDS t (sys d) (here d) (elsewhere d) (ui d) (notifications d) (analysis_messages d)).
Definition send_ui (s : DisplayState) : Task unit := fun d =>
  (Ok tt, mkDS (task d) (sys d) (here d) (elsewhere d) (ui d ++ [s]) (notifications d) (analysis_messages d)).
Definition notify (text : rstr) (debounce : option Z) : Task unit := fun d =>
  (Ok tt, mkDS (task d) (sys d) (here d) (elsewhere d) (ui d) (notifications d ++ [(text, debounce)]) (analysis_messages d)).
Definition send_analysis (n : rstr) : Task unit := fun d =>
  (Ok tt, mkDS (task d) (sys d) (here d) (elsewhere d) (ui d) (notifications d) (analysis_messages d ++ [n])).
(** An error that is only logged. *)
Definition logged {A : Type} (m : Task A) : Task unit := fun d => (Ok tt, (m d).2).

Definition set_state (t : DiagTask G) (s : DiagState G) : DiagTask G :=
  mkDiagTask s (recording_started_at t) (max_type_seen t) (bytes_since_space_check t) (low_space_warned t)
    (stopped_by_user t) (latest_packet_timestamp t) (cell_tracker t).
Definition set_started (t : DiagTask G) (o : option Z) : DiagTask G :=
  mkDiagTask (state t) o (max_type_seen t) (bytes_since_space_check t) (low_space_warned t)
    (stopped_by_user t) (latest_packet_timestamp t) (cell_tracker t).
Definition set_max (t : DiagTask G) (m : EventType) : DiagTask G :=
  mkDiagTask (state t) (recording_started_at t) m (bytes_since_space_check t) (low_space_warned t)
    (stopped_by_user t) (latest_packet_timestamp t) (cell_tracker t).
Definition set_bytes (t : DiagTask G) (n : Z) : DiagTask G :=
  mkDiagTask (state t) (recording_started_at t) (max_type_seen t) n (low_space_warned t)
    (stopped_by_user t) (latest_packet_timestamp t) (cell_tracker t).
Definition set_warned (t : DiagTask G) (b : bool) : DiagTask G :=
  mkDiagTask (state t) (recording_started_at t) (max_type_seen t) (bytes_since_space_check t) b
    (stopped_by_user t) (latest_packet_timestamp t) (cell_tracker t).
Definition set_by_user (t : DiagTask G) (b : bool) : DiagTask G :=
  mkDiagTask (state t) (recording_started_at t) (max_type_seen t) (bytes_since_space_check t) (low_space_warned t)
    b (latest_packet_timestamp t) (cell_tracker t).
Definition set_observed (t : DiagTask G) (ts : option Z) (c : CellTracker) : DiagTask G :=
  mkDiagTask (state t) (recording_started_at t) (max_type_seen t) (bytes_since_space_check t) (low_space_warned t)
    (stopped_by_user t) ts c.
Definition update_task (f : DiagTask G -> DiagTask G) : Task unit := t ← get_task; put_task (f t).

Definition is_recording (s : DiagState G) : bool := match s with Recording _ _ _ => true | Stopped => false end.

Definition check_disk_space : Task DiskSpaceCheck :=
  s ← get_sys;
  mret match statvfs (world s) with
       | None => Space_Failed
       | Some bytes =>
           let mb := bytes / 1024 / 1024 in
           if mb <? min_space_to_continue_mb cfg then Space_Critical mb
           else if mb <? min_space_to_start_mb cfg then Space_Warning mb else Space_Ok mb
       end.

(** A step of the QMDL writer, in the world of the task. *)
Definition run_writer {A : Type} (f : QmdlWriter (GzFile G) -> result Qmdl.ErrorKind A * QmdlWriter (GzFile G))
    (enc : G) (p : rstr) : Task (result Qmdl.ErrorKind A * G) := fun d =>
  let '(r, q) := f (Build_QmdlWriter (mkGzFile enc p (world (sys d)))) in
  (Ok (r, encoder (writer q)),
   mkDS (task d) (mkSys (store (sys d)) (gz_world (writer q))) (here d) (elsewhere d) (ui d) (notifications d) (analysis_messages d)).

Definition prune : Task Z := on_sys (prune_clean_recordings from_str to_toml to_vec from_slice uptime statvfs
  (min_space_to_start_mb cfg) (uploads_configured cfg)).

Definition stop_current_recording : Task unit :=
  t ← get_task;
  put_task (set_state t Stopped) ;;
  match state t with
  | Stopped => mret tt
  | Recording enc p _ =>
      r ← run_writer QmdlWriter_close enc p;
      on_sys (io_attempt dir_op) ;;
      match r.1 with
      | Ok size => logged (on_sys (update_current_entry_qmdl_size to_toml size))
      | Err _ => mret tt
      end
  end.

Definition finish_current_entry (reason : option rstr) : Task unit :=
  stop_current_recording ;;
  update_task (fun t => set_started t None) ;;
  (match reason with Some r => logged (on_sys (set_current_stop_reason to_toml r)) | None => mret tt end) ;;
  s ← get_sys;
  (match get_current_entry (store s) with Some (_, e) => send_analysis (name e) | None => mret tt end) ;;
  logged (on_sys (close_current_entry to_vec from_slice uptime)).

(** For fixed coordinates: the record written when a recording starts. *)
Definition write_fixed_gps : Task unit :=
  s ← get_sys;
  match cfg_gps_mode cfg, gps_fixed_coords cfg, get_current_entry (store s) with
  | Gps_Fixed, Some (lat, lon), Some (idx, _) =>
      f ← on_sys (look (fun st => open_entry_gps_for_append st idx));
      match f with
      | None => fail GpsStorageNotFound
      | Some p =>
          now ← on_sys adjusted_now;
          match gps_text (mkGpsRecord None (now / 10 ^ 9) lat lon) with
          | Err _ => fail SerializationError
          | Ok json => on_sys (io WriteFileError (append p (json ++ [10])))
          end
      end
  | _, _, _ => mret tt
  end.

(** [RuntimeMetadata::new]. *)
Definition runtime_metadata : RuntimeMetadata := let '(v, os, a) := runtime in Analyzer.Build_RuntimeMetadata v os a.

(** What [start_inner] does once the entry exists.  [new_entry] leaves a current entry; the files it
    returns are that entry's. *)
Definition open_writers : Task unit :=
  s ← get_sys;
  let plmn := home_plmn (world s) in
  match get_current_entry (store s) with
  | None => mret tt
  | Some (_, e) =>
      on_sys (io_attempt (sidecar_write to_vec (file_of e Kind_Meta) (collect (world s) (name e) plmn))) ;;
      let h := new_with_config (analyzer_config cfg) {| metadata_home_plmn := plmn |} in
      on_sys (io WriteFileError (append (file_of e Kind_Analysis) (metadata_text (get_metadata h runtime_metadata)))) ;;
      s ← get_sys;
      update_task (fun t => set_started (set_state t
        (Recording gz_new (file_of e Kind_Qmdl) (mkAnalysisWriter (file_of e Kind_Analysis) h))) (Some (instant (world s)))) ;;
      send_ui Display_Recording
  end.

Definition start_inner : Task unit :=
  update_task (fun t => set_warned (set_bytes (set_max t Informational) 0) false) ;;
  (if auto_delete_clean cfg
   then c ← check_disk_space;
        match c with Space_Critical _ | Space_Warning _ => _ ← prune; mret tt | _ => mret tt end
   else mret tt) ;;
  c ← check_disk_space;
  match c with
  | Space_Critical mb => fail (InsufficientDiskSpace mb (min_space_to_continue_mb cfg))
  | Space_Warning mb => fail (InsufficientDiskSpace mb (min_space_to_start_mb cfg))
  | _ =>
      t ← get_task;
      (if is_recording (state t) then finish_current_entry None else mret tt) ;;
      on_sys (new_entry to_toml to_vec from_slice uptime runtime (cfg_gps_mode cfg)) ;;
      write_fixed_gps ;;
      open_writers
  end.

Definition start : Task unit := fun d =>
  match start_inner d with
  | (Ok _, d) => (Ok tt, d)
  | (Err e, d) => let '(_, d) := send_ui Display_Paused d in (Err e, d)
  end.

Definition stop (reason : option rstr) : Task unit := finish_current_entry reason ;; send_ui Display_Paused.

Definition severe (a b : EventType) : bool := EventType_rank b <? EventType_rank a.

Definition rotate (reason : rstr) : Task unit :=
  t ← get_task;
  let carried := max_type_seen t in
  finish_current_entry (Some reason) ;;
  r ← attempt start;
  match r with
  | Err e =>
      let reason := lit "couldn't start the next recording after rotating: " ++ error_text io_text e in
      notify reason None ;;
      stop (Some reason)
  | Ok _ =>
      update_task (fun t => set_max t carried) ;;
      if severe carried Informational then send_ui (Display_WarningDetected carried) else mret tt
  end.

Definition delete_recording (n : rstr) : Task unit :=
  s ← get_sys;
  (if is_current_entry (store s) n then stop None else mret tt) ;;
  on_sys (delete_entry to_toml to_vec from_slice uptime n).

Definition delete_all_recordings : Task unit :=
  stop None ;; on_sys (delete_all_entries to_toml to_vec from_slice uptime).

Definition handle_gps_update (lat lon : f64) : Task unit :=
  s ← get_sys;
  match get_current_entry (store s) with
  | None => mret tt
  | Some (idx, _) =>
      logged (f ← on_sys (look (fun st => open_entry_gps_for_append st idx));
              match f with
              | None => mret tt
              | Some p =>
                  t ← get_task;
                  now ← on_sys adjusted_now;
                  match gps_text (mkGpsRecord (latest_packet_timestamp t) (now / 10 ^ 9) lat lon) with
                  | Err _ => mret tt
                  | Ok json => on_sys (io WriteFileError (append p (json ++ [10])))
                  end
              end)
  end.

(** *** Containers *)

Definition label_event (prefix : rstr) (o : option Event) : option Event :=
  match o with Some e => Some {| event_type := event_type e; message := prefix ++ message e |} | None => None end.
Definition label_row (prefix : option rstr) (row : AnalysisRow) : AnalysisRow :=
  match prefix with
  | Some p => {| row_packet_num := row_packet_num row; packet_timestamp := packet_timestamp row;
                 skipped_message_reason := skipped_message_reason row; events := map (label_event p) (events row) |}
  | None => row
  end.

(** The loop over the rows; the maximum is lost when a row cannot be written. *)
Fixpoint write_rows (p : rstr) (rows : list AnalysisRow) (max_type : EventType) : IO EventType :=
  match rows with
  | [] => mret max_type
  | row :: rows =>
      (if row_is_empty row then mret tt else append p (row_text row)) ;;
      write_rows p rows (EventType_max max_type (get_max_event_type row))
  end.

(** [analyze_container_inner]; the harness never panics ([Analyzer.analyze_all_total]). *)
Definition analyze_container (aw : AnalysisWriter) (container : MessagesContainer) (prefix : option rstr)
    : AnalysisWriter * IO EventType :=
  match analyze_qmdl_messages (harness aw) container with
  | None => (aw, fail (Failed OtherIo))
  | Some (h, rows) => (mkAnalysisWriter (aw_path aw) h, write_rows (aw_path aw) (map (label_row prefix) rows) Informational)
  end.

(** Seconds since the epoch of the latest packet. *)
Definition latest_timestamp (container : MessagesContainer) : option Z :=
  fold_left (fun acc r => match r with
    | Ok (Log _ _ _ _ timestamp _) => let t := to_datetime timestamp / 10 ^ 9 in Some (match acc with Some a => Z.max a t | None => t end)
    | _ => acc end) (container_messages container) None.

(** What is done about the free space, every 256 KiB of messages; [true] when recording was stopped. *)
Definition check_space_while_recording : Task bool :=
  c ← check_disk_space;
  match c with
  | Space_Critical mb =>
      let reason := lit "Disk space critically low (" ++ dec mb ++ lit "MB free), recording stopped automatically" in
      notify reason None ;; stop (Some reason) ;; mret true
  | Space_Warning mb =>
      freed ← (if auto_delete_clean cfg then prune else mret 0);
      t ← get_task;
      (if 0 <? freed then put_task (set_warned t false)
       else if negb (low_space_warned t) then
         put_task (set_warned t true) ;; notify (lit "Disk space low: " ++ dec mb ++ lit "MB free") (Some 30)
       else mret tt) ;;
      mret false
  | _ => mret false
  end.

Definition size_reason (file_size : Z) : option rstr :=
  match max_recording_bytes cfg with
  | Some max => if max <=? file_size
                then Some (lit "Started a new recording automatically: reached the " ++ dec (max / 1024 / 1024) ++ lit " MB limit")
                else None
  | None => None
  end.
Definition time_reason (t : DiagTask G) (now : Z) : option rstr :=
  match max_recording_duration cfg, recording_started_at t with
  | Some limit, Some started =>
      if limit * 10 ^ 9 <=? now - started
      then Some (lit "Started a new recording automatically: reached the " ++ dec (limit / 60) ++ lit " minute limit")
      else None
  | _, _ => None
  end.

(** Writing the container, and noting the size; the error that stops the recording, or the reason to
    rotate that the size gives. *)
Definition record_container (container : MessagesContainer) (enc : G) (p : rstr) (aw : AnalysisWriter) : Task (result rstr (option rstr)) :=
  r ← run_writer (write_container container) enc p;
  let '(res, enc) := r in
  update_task (fun t => set_state t (Recording enc p aw)) ;;
  match res with
  | Err e => mret (Err (lit "failed to write to QMDL (disk full?): " ++ writer_error_text e))
  | Ok _ =>
      r ← run_writer QmdlWriter_size enc p;
      match r.1 with
      | Err _ => mret (Ok None)
      | Ok file_size =>
          u ← attempt (on_sys (update_current_entry_qmdl_size to_toml file_size));
          mret match u with
               | Err e => Err (lit "failed to update manifest (disk full?): " ++ error_text io_text e)
               | Ok _ => Ok (size_reason file_size)
               end
      end
  end.

(** From the packet's time to the warnings. *)
Definition observe_container (container : MessagesContainer) (demo : bool) (enc : G) (p : rstr) (aw : AnalysisWriter) : Task unit :=
  now ← on_sys (io CreateFileError local_now);
  update_task (fun t => set_observed t
    (match latest_timestamp container with Some ts => Some ts | None => latest_packet_timestamp t end)
    (update_cell_info (cell_tracker t) container now)) ;;
  update_task (fun t => set_bytes t (bytes_since_space_check t + Z.of_nat (sum_list_with (fun m => length (data m)) (messages container)))) ;;
  let '(aw, write) := analyze_container aw container (if demo then Some DEMO_PREFIX else None) in
  update_task (fun t => set_state t (Recording enc p aw)) ;;
  r ← on_sys (io_attempt write);
  let max_type := match r with Ok t => t | Err _ => Informational end in
  (if severe max_type Informational
   then notify (lit "Rayhunter has detected a " ++ event_type_text max_type ++ lit " severity event") (Some (60 * 5))
   else mret tt) ;;
  t ← get_task;
  if severe max_type (max_type_seen t) then
    put_task (set_max t max_type) ;;
    (if severe max_type Informational then send_ui (Display_WarningDetected max_type) else mret tt)
  else mret tt.

Definition process_container_inner (container : MessagesContainer) (demo : bool) : Task unit :=
  if match data_type container with UserSpace => false | DataTypeOther _ => true end then mret tt
  else
    t ← get_task;
    match state t with
    | Stopped => mret tt
    | Recording _ _ _ =>
        stopped ← (if DISK_CHECK_BYTES_INTERVAL <=? bytes_since_space_check t
                   then put_task (set_bytes t 0) ;; check_space_while_recording else mret false);
        if (stopped : bool) then mret tt
        else
          t ← get_task;
          match state t with
          | Stopped => mret tt
          | Recording enc p aw =>
              r ← record_container container enc p aw;
              match r with
              | Err reason => stop (Some reason)
              | Ok by_size =>
                  s ← get_sys;
                  t ← get_task;
                  match state t with
                  | Stopped => mret tt
                  | Recording enc p aw =>
                      let rotate_reason := match by_size with Some r => Some r | None => time_reason t (instant (world s)) end in
                      observe_container container demo enc p aw ;;
                      match rotate_reason with Some reason => rotate reason | None => mret tt end
                  end
              end
          end
    end.

(** *** Messages *)

(** Opening the store of another directory, in the world as it is. *)
Definition open_elsewhere (path : rstr) : Task (result RecordingStoreError unit) := fun d =>
  let old := files (world (sys d)) in
  let new := default ∅ (elsewhere d !! path) in
  let w := set_files (world (sys d)) new in
  match open_or_recover to_toml from_toml (bool_decide (is_Some (elsewhere d !! path))) modified (listing new) w with
  | (Ok st, w) =>
      (Ok (Ok tt), mkDS (task d) (mkSys st w) path (<[here d := old]> (elsewhere d)) (ui d) (notifications d) (analysis_messages d))
  | (Err e, w) =>
      (Ok (Err e), mkDS (task d) (mkSys (store (sys d)) (set_files w old)) (here d) (<[path := files w]> (elsewhere d))
                     (ui d) (notifications d) (analysis_messages d))
  end.

Definition get_here : Task rstr := fun d => (Ok (here d), d).

Definition switch_store (path reason : rstr) : Task unit :=
  t ← get_task;
  let was_recording := is_recording (state t) in
  let why := lit "storage changed: " ++ reason in
  current ← get_here;
  if bool_decide (current = path) then
    if was_recording then finish_current_entry (Some why) ;; start
    else if negb (stopped_by_user t) then start else mret tt
  else
    (if was_recording then finish_current_entry (Some why) else mret tt) ;;
    r ← open_elsewhere path;
    match r with
    | Err err =>
        (if was_recording then logged start else mret tt) ;;
        fail err
    | Ok _ => if was_recording || negb (stopped_by_user t) then start else mret tt
    end.

(** [Exit] is [shutdown], after which the thread is gone. *)
Inductive DiagDeviceCtrlMessage :=
| InjectDemo (container : option MessagesContainer)
| StopRecording
| SwitchStore (path reason : rstr)
| StartRecording
| DeleteEntry (n : rstr)
| DeleteAllEntries
| GpsUpdate (lat lon : f64).

(** What the loop of [run_diag_read_thread] does with a message, and with a container of the device; the
    answer is what is sent back to whoever asked. *)
Inductive DiagEvent := Ctrl (m : DiagDeviceCtrlMessage) | Device (container : MessagesContainer).
Definition handle (ev : DiagEvent) : Task unit :=
  match ev with
  | Ctrl StartRecording => update_task (fun t => set_by_user t false) ;; start
  | Ctrl StopRecording => update_task (fun t => set_by_user t true) ;; stop None
  | Ctrl (SwitchStore path reason) => switch_store path reason
  | Ctrl (InjectDemo (Some container)) => process_container_inner container true
  | Ctrl (InjectDemo None) => mret tt
  | Ctrl (DeleteEntry n) => delete_recording n
  | Ctrl DeleteAllEntries => delete_all_recordings
  | Ctrl (GpsUpdate lat lon) => handle_gps_update lat lon
  | Device container => process_container_inner container false
  end.
Definition shutdown : Task unit := stop_current_recording.
Definition run_events (evs : list DiagEvent) (d : DS G) : DS G := fold_left (fun d ev => (handle ev d).2) evs d.

(** ** What the display shows *)

(** What the statements below speak of: the recording that runs and what was written to it, the severity
    seen in it, and what the display was sent. *)
Definition writing (s : DiagState G) : option (rstr * list Z) :=
  match s with Recording enc p _ => Some (p, gz_plain enc) | Stopped => None end.
Definition View : Type := option (rstr * list Z) * EventType * list DisplayState.
Definition view (d : DS G) : View := (writing (state (task d)), max_type_seen (task d), ui d).
Lemma is_recording_writing s : is_recording s = bool_decide (is_Some (writing s)).
Proof. by destruct s. Qed.

(** [m], begun in a state that looks like [v], ends with a result and a look that satisfy [Q]. *)
Definition wp {A : Type} (m : Task A) (Q : result RecordingStoreError A -> View -> Prop) (v : View) : Prop :=
  forall d, view d = v -> Q (m d).1 (view (m d).2).
Definition quiet {A : Type} (m : Task A) : Prop := forall d, view (m d).2 = view d.

Lemma wp_bind {A B : Type} (m : Task A) (k : A -> Task B) Q v :
  wp m (fun r v' => match r with Ok a => wp (k a) Q v' | Err e => Q (Err e) v' end) v -> wp (m ≫= k) Q v.
Proof.
  intros H d Hd. specialize (H d Hd). unfold mbind, M_bind. destruct (m d) as [[a|e] d1]; cbn [fst snd] in *; [|done].
  by apply H.
Qed.
Lemma wp_mono {A : Type} (m : Task A) (P Q : result RecordingStoreError A -> View -> Prop) v :
  wp m P v -> (forall r v', P r v' -> Q r v') -> wp m Q v.
Proof. intros H HPQ d Hd. by apply HPQ, H. Qed.
Lemma wp_ret {A : Type} (a : A) (Q : _ -> View -> Prop) v : Q (Ok a) v -> wp (mret a) Q v.
Proof. by intros H d <-. Qed.
Lemma wp_quiet {A : Type} (m : Task A) (Q : _ -> View -> Prop) v : quiet m -> (forall r, Q r v) -> wp m Q v.
Proof. intros Hm H d <-. by rewrite Hm. Qed.
Lemma wp_quiet_bind {A B : Type} (m : Task A) (k : A -> Task B) (Q : _ -> View -> Prop) v :
  quiet m -> (forall a, wp (k a) Q v) -> (forall e, Q (Err e) v) -> wp (m ≫= k) Q v.
Proof. intros Hm Hk He. apply wp_bind, wp_quiet; [done|]. by intros [a|e]. Qed.
Lemma wp_get {B : Type} (k : DiagTask G -> Task B) Q (r : option (rstr * list Z)) (mx : EventType) (u : list DisplayState) :
  (forall t, writing (state t) = r -> max_type_seen t = mx -> wp (k t) Q (r, mx, u)) -> wp (get_task ≫= k) Q (r, mx, u).
Proof. intros H d Hd. pose proof Hd as [= H1 H2 _]. by apply H. Qed.
Lemma wp_send s (Q : _ -> View -> Prop) r mx u : Q (Ok tt) (r, mx, u ++ [s]) -> wp (send_ui s) Q (r, mx, u).
Proof. intros H d [= <- <- <-]. exact H. Qed.
Lemma wp_put t (Q : _ -> View -> Prop) r mx u : Q (Ok tt) (writing (state t), max_type_seen t, u) -> wp (put_task t) Q (r, mx, u).
Proof. intros H d [= <- <- <-]. exact H. Qed.
Lemma wp_update f (Q : _ -> View -> Prop) r mx u :
  (forall t, writing (state t) = r -> max_type_seen t = mx -> Q (Ok tt) (writing (state (f t)), max_type_seen (f t), u)) ->
  wp (update_task f) Q (r, mx, u).
Proof. intros H. apply wp_get. intros t H1 H2. by apply wp_put, H. Qed.
Lemma wp_attempt {A : Type} (m : Task A) (Q : _ -> View -> Prop) v :
  wp m (fun r v' => Q (Ok r) v') v -> wp (attempt (F := RecordingStoreError) m) Q v.
Proof. intros H d Hd. specialize (H d Hd). unfold attempt. by destruct (m d). Qed.
Definition sure {A : Type} (m : Task A) : Prop := forall d, exists a, (m d).1 = Ok a.
Lemma wp_sure_bind {A B : Type} (m : Task A) (k : A -> Task B) (Q : _ -> View -> Prop) v :
  quiet m -> sure m -> (forall a, wp (k a) Q v) -> wp (m ≫= k) Q v.
Proof.
  intros Hm Hs Hk. apply wp_bind. intros d <-. rewrite Hm. destruct (Hs d) as [a ->]. apply Hk.
Qed.
Lemma sure_run_writer {A : Type} (f : QmdlWriter (GzFile G) -> result Qmdl.ErrorKind A * QmdlWriter (GzFile G)) enc p :
  sure (run_writer f enc p).
Proof. intros d. unfold run_writer. destruct (f _). by eexists. Qed.
Lemma sure_io_attempt {A : Type} (m : IO A) : sure (on_sys (io_attempt m)).
Proof. intros d. unfold on_sys, io_attempt. destruct (m _). by eexists. Qed.
Lemma wp_logged {A : Type} (m : Task A) (Q : _ -> View -> Prop) v :
  wp m (fun _ v' => Q (Ok tt) v') v -> wp (logged m) Q v.
Proof. intros H d Hd. exact (H d Hd). Qed.

Lemma quiet_ret {A : Type} (a : A) : quiet (mret a).
Proof. done. Qed.
Lemma quiet_fail {A : Type} e : quiet (A := A) (fail e).
Proof. done. Qed.
Lemma quiet_bind {A B : Type} (m : Task A) (k : A -> Task B) : quiet m -> (forall a, quiet (k a)) -> quiet (m ≫= k).
Proof.
  intros Hm Hk d. specialize (Hm d). unfold mbind, M_bind. destruct (m d) as [[a|e] d1]; cbn [snd] in *; [|done]. by rewrite Hk.
Qed.
Lemma quiet_attempt {A : Type} (m : Task A) : quiet m -> quiet (attempt (F := RecordingStoreError) m).
Proof. intros H d. specialize (H d). unfold attempt. by destruct (m d). Qed.
Lemma quiet_logged {A : Type} (m : Task A) : quiet m -> quiet (logged m).
Proof. intros H d. exact (H d). Qed.
Lemma quiet_on_sys {A : Type} (m : Op A) : quiet (on_sys m).
Proof. intros d. unfold on_sys. by destruct (m (sys d)). Qed.
Lemma quiet_run_writer {A : Type} (f : QmdlWriter (GzFile G) -> result Qmdl.ErrorKind A * QmdlWriter (GzFile G)) enc p :
  quiet (run_writer f enc p).
Proof. intros d. unfold run_writer. by destruct (f _). Qed.
Lemma quiet_update f :
  (forall t, writing (state (f t)) = writing (state t) /\ max_type_seen (f t) = max_type_seen t) -> quiet (update_task f).
Proof. intros H d. unfold view. destruct (H (task d)) as [H1 H2]. change (task (update_task f d).2) with (f (task d)). by rewrite H1, H2. Qed.
Lemma quiet_check : quiet check_disk_space.
Proof. done. Qed.
Lemma quiet_get : quiet get_task.
Proof. done. Qed.
Lemma quiet_get_sys : quiet get_sys.
Proof. done. Qed.
Lemma quiet_here : quiet get_here.
Proof. done. Qed.
Lemma quiet_notify text b : quiet (notify text b).
Proof. done. Qed.
Lemma quiet_analysis n : quiet (send_analysis n).
Proof. done. Qed.
Lemma quiet_open p : quiet (open_elsewhere p).
Proof. intros d. unfold open_elsewhere. by destruct (open_or_recover _ _ _ _ _ _) as [[st|e] w]. Qed.

Create HintDb quiet.
#[local] Hint Resolve quiet_ret quiet_fail quiet_on_sys quiet_run_writer quiet_check quiet_get quiet_get_sys quiet_here
  quiet_notify quiet_analysis quiet_open : quiet.

(** Computations made of quiet ones. *)
Ltac quiet_tac := repeat first
  [ solve [auto with quiet]
  | match goal with |- quiet (match ?x with _ => _ end) => destruct x end
  | match goal with |- quiet (logged _) => apply quiet_logged | |- quiet (attempt _) => apply quiet_attempt end
  | apply quiet_bind; [|intros ?]
  | apply quiet_update; done ].

Lemma quiet_fixed_gps : quiet write_fixed_gps.
Proof. unfold write_fixed_gps. quiet_tac. Qed.
Lemma quiet_gps lat lon : quiet (handle_gps_update lat lon).
Proof. unfold handle_gps_update. quiet_tac. Qed.
#[local] Hint Resolve quiet_fixed_gps quiet_gps : quiet.

Lemma wp_stop_current (Q : _ -> View -> Prop) r mx u : Q (Ok tt) (None, mx, u) -> wp stop_current_recording Q (r, mx, u).
Proof.
  intros H. apply wp_get. intros t Hr Hm. apply wp_bind, wp_put. cbn. rewrite Hm.
  destruct (state t) as [enc p aw|]; [|by apply wp_ret].
  apply wp_sure_bind; [auto with quiet|apply sure_run_writer|]. intros [[size|e] g]; (apply wp_sure_bind; [auto with quiet|apply sure_io_attempt|]); intros x.
  - by apply wp_logged, wp_quiet; [auto with quiet|].
  - by apply wp_ret.
Qed.
Lemma wp_finish reason (Q : _ -> View -> Prop) r mx u : Q (Ok tt) (None, mx, u) -> wp (finish_current_entry reason) Q (r, mx, u).
Proof.
  intros H. apply wp_bind, wp_stop_current. apply wp_bind, wp_update. intros t H1 H2. cbn. rewrite H1, H2.
  apply wp_bind. apply wp_mono with (P := fun r v => r = Ok tt /\ v = (None, mx, u)).
  { destruct reason; [apply wp_logged, wp_quiet; [auto with quiet|done]|by apply wp_ret]. }
  intros ? ? [-> ->]. apply wp_sure_bind; [auto with quiet|by eexists|]. intros sy.
  apply wp_bind. apply wp_mono with (P := fun r v => r = Ok tt /\ v = (None, mx, u)).
  { destruct (get_current_entry _) as [[i e]|]; [|by apply wp_ret]. intros d Hd. split; [done|]. exact Hd. }
  intros ? ? [-> ->]. by apply wp_logged, wp_quiet; [auto with quiet|].
Qed.
Lemma wp_stop reason (Q : _ -> View -> Prop) r mx u : Q (Ok tt) (None, mx, u ++ [Display_Paused]) -> wp (stop reason) Q (r, mx, u).
Proof. intros H. by apply wp_bind, wp_finish, wp_send. Qed.

(** [open_writers] leaves a running recording, or fails; it is run on a store with a current entry. *)
Lemma open_writers_view d : is_Some (get_current_entry (store (sys d))) ->
  match open_writers d with
  | (Ok _, d') => exists p, view d' = (Some (p, []), max_type_seen (task d), ui d ++ [Display_Recording])
  | (Err _, d') => view d' = view d
  end.
Proof.
  intros [[i e] He].
  unfold open_writers. unfold mbind, M_bind, get_sys. rewrite He. cbv zeta.
  set (k := on_sys (io_attempt _)). pose proof (quiet_on_sys (io_attempt (sidecar_write to_vec (file_of e Kind_Meta)
    (collect (world (sys d)) (name e) (home_plmn (world (sys d)))))) d) as H1. fold k in H1.
  destruct (k d) as [[a|err] d1]; [|done].
  set (k2 := on_sys (io WriteFileError _)). pose proof (quiet_on_sys (io WriteFileError (append (file_of e Kind_Analysis)
    (metadata_text (get_metadata (new_with_config (analyzer_config cfg)
       {| metadata_home_plmn := home_plmn (world (sys d)) |}) runtime_metadata)))) d1) as H2. fold k2 in H2.
  destruct (k2 d1) as [[b|err] d2]; cbn [snd] in *; [|congruence].
  rewrite H1 in H2. injection H2 as H3 H4 H5. 
  unfold update_task, get_task, put_task, send_ui, mbind, M_bind, view. cbn -[file_of]. exists (file_of e Kind_Qmdl). by rewrite H4, H5, gz_plain_new.
Qed.

Definition keeps_store {A : Type} (m : Task A) : Prop := forall d, store (sys (m d).2) = store (sys d).
Lemma keeps_store_bind {A B : Type} (m : Task A) (k : A -> Task B) : keeps_store m -> (forall a, keeps_store (k a)) -> keeps_store (m ≫= k).
Proof.
  intros Hm Hk d. specialize (Hm d). unfold mbind, M_bind. destruct (m d) as [[a|e] d1]; cbn [snd] in *; [|done]. by rewrite Hk.
Qed.
Lemma keeps_on_sys {A : Type} (m : Op A) : (forall s, store (m s).2 = store s) -> keeps_store (on_sys m).
Proof. intros H d. specialize (H (sys d)). unfold on_sys. by destruct (m (sys d)). Qed.
Lemma keeps_look {A : Type} (m : RecordingStore -> M World RecordingStoreError A) : keeps_store (on_sys (look m)).
Proof. apply keeps_on_sys. intros s. unfold look. by destruct (m _ _). Qed.
Lemma keeps_io {A : Type} f (m : IO A) : keeps_store (on_sys (io f m)).
Proof. apply keeps_on_sys. intros s. apply io_store. Qed.
Lemma gps_store : keeps_store write_fixed_gps.
Proof.
  unfold write_fixed_gps. apply keeps_store_bind; [done|]. intros s.
  destruct (cfg_gps_mode cfg); try done. destruct (gps_fixed_coords cfg) as [[lat lon]|]; [|done].
  destruct (get_current_entry _) as [[i e]|]; [|done].
  apply keeps_store_bind; [apply keeps_look|]. intros [p|]; [|done].
  apply keeps_store_bind; [apply keeps_io|]. intros now. destruct (gps_text _); [apply keeps_io|done].
Qed.

Lemma new_entry_current mode s s' : new_entry to_toml to_vec from_slice uptime runtime mode s = (Ok tt, s') ->
  is_Some (get_current_entry (store s')).
Proof.
  intros (st & s1 & _ & H)%bind_Ok_inv. apply bind_Ok_inv in H as (x & s2 & _ & H).
  apply new_entry_loop_ok in H as (e & -> & _). unfold get_current_entry. cbn. rewrite list_lookup_middle; [by eexists|done].
Qed.

(** What a start leaves: a running recording and a fresh severity, or a refusal. *)
Definition started (r : option (rstr * list Z)) (u : list DisplayState) (res : result RecordingStoreError unit) (v : View) : Prop :=
  match res with
  | Ok _ => exists p, v = (Some (p, []), Informational, u ++ [Display_Recording])
  | Err _ => exists r', v = (r', Informational, u) /\ (r' = None \/ r' = r)
  end.

Lemma wp_start_inner r mx u : wp start_inner (started r u) (r, mx, u).
Proof.
  apply wp_bind, wp_update. intros t H1 H2. cbn. rewrite H1. clear t H1 H2.
  assert (Herr : started r u (Err NoCurrentEntry) (r, Informational, u)) by (exists r; by split; [|right]).
  apply wp_quiet_bind; [destruct (auto_delete_clean cfg); [|auto with quiet]; apply quiet_bind; [auto with quiet|];
    intros []; unfold prune; quiet_tac| |by intros; exists r; split; [|right]].
  intros _. apply wp_quiet_bind; [auto with quiet| |by intros; exists r; split; [|right]].
  intros c. assert (Hgo : wp (t ← get_task; (if is_recording (state t) then finish_current_entry None else mret tt) ;;
      on_sys (new_entry to_toml to_vec from_slice uptime runtime (cfg_gps_mode cfg)) ;; write_fixed_gps ;; open_writers)
      (started r u) (r, Informational, u)).
  { apply wp_get. intros t Ht Hm. apply wp_bind. apply wp_mono with (P := fun res v => res = Ok tt /\ v = (None, Informational, u)).
    { rewrite is_recording_writing, Ht. destruct r; [by apply wp_finish|by apply wp_ret]. }
    intros ? ? [-> ->] d Hd. unfold mbind, M_bind.
    pose proof (quiet_on_sys (new_entry to_toml to_vec from_slice uptime runtime (cfg_gps_mode cfg)) d) as Hq.
    pose proof (fun s' => new_entry_current (cfg_gps_mode cfg) (sys d) s') as Hc. unfold on_sys in Hq |- *.
    destruct (new_entry _ _ _ _ _ _ (sys d)) as [[[]|e] s1]; cbn [fst snd] in *; [|unfold started; exists None; split; [exact (eq_trans Hq Hd)|by left]].
    specialize (Hc s1 eq_refl). set (d1 := mkDS _ s1 _ _ _ _ _) in *.
    pose proof (gps_store d1) as Hs. pose proof (quiet_fixed_gps d1) as Hg.
    destruct (write_fixed_gps d1) as [[[]|e] d2]; cbn [fst snd] in *; [|unfold started; exists None; split; [exact (eq_trans Hg (eq_trans Hq Hd))|by left]].
    pose proof (open_writers_view d2) as Ho. rewrite Hs in Ho. specialize (Ho Hc).
    assert (Hv : view d2 = (None, Informational, u)) by exact (eq_trans Hg (eq_trans Hq Hd)).
    destruct (open_writers d2) as [[[]|e] d3]; cbn [fst snd started]; [|exists None; split; [exact (eq_trans Ho Hv)|by left]].
    destruct Ho as [p Ho]. exists p. rewrite Ho. by injection Hv as _ -> ->. }
  destruct c; first [exact Hgo | intros d Hd; cbn [fail fst snd started]; exists r; split; [exact Hd|by right]].
Qed.

(** What [start] leaves; [shown] is what the display has to show while recording. *)
Definition shown (m : EventType) : DisplayState := if severe m Informational then Display_WarningDetected m else Display_Recording.
Definition after_start (r : option (rstr * list Z)) (u : list DisplayState) (res : result RecordingStoreError unit) (v : View) : Prop :=
  match res with
  | Ok _ => exists p, v = (Some (p, []), Informational, u ++ [Display_Recording])
  | Err _ => exists r', v = (r', Informational, u ++ [Display_Paused]) /\ (r' = None \/ r' = r)
  end.

Lemma wp_start r mx u : wp start (after_start r u) (r, mx, u).
Proof.
  intros d Hd. pose proof (wp_start_inner r mx u d Hd) as H. unfold start.
  destruct (start_inner d) as [[[]|e] d1]; cbn [fst snd] in *; [exact H|].
  destruct H as (r' & [= <- H2 H3] & Hr). cbn [fst snd send_ui after_start]. exists (writing (state (task d1))).
  split; [|done]. unfold view. cbn. by rewrite H2, H3.
Qed.

(** The display agrees with the task: after a stop it shows [Paused]; while recording it shows the
    severity, or [Paused] once a start was refused. *)
Definition honest (v : View) : Prop :=
  let '(r, mx, u) := v in
  if r is Some _ then last u = Some (shown mx) \/ (last u = Some Display_Paused /\ mx = Informational)
  else last u = Some Display_Paused.

Lemma last_is {A : Type} (u : list A) x : last (u ++ [x]) = Some x.
Proof. by rewrite last_snoc. Qed.

Lemma started_honest r u res v : after_start r u res v -> honest v.
Proof.
  destruct res as [[]|e]; cbn [after_start]; [intros [p ->]; left; by rewrite last_is|].
  intros ([?|] & -> & _); [right|]; by cbn; rewrite last_is.
Qed.
Lemma wp_start_honest r mx u : wp start (fun _ => honest) (r, mx, u).
Proof. eapply wp_mono; [apply wp_start|]. intros ? ?. apply started_honest. Qed.
Lemma wp_stop_honest reason r mx u : wp (stop reason) (fun _ => honest) (r, mx, u).
Proof. apply wp_stop. cbn. by rewrite last_is. Qed.

Lemma wp_rotate reason r mx u : wp (rotate reason)
  (fun _ v => if v.1.1 is Some _ then v.1.2 = mx /\ last v.2 = Some (shown mx) else last v.2 = Some Display_Paused) (r, mx, u).
Proof.
  apply wp_get. intros t _ Hm. rewrite Hm. apply wp_bind, wp_finish. apply wp_bind, wp_attempt.
  eapply wp_mono; [apply wp_start|]. intros [[]|e] v'; cbn [after_start].
  - intros [p ->]. apply wp_bind, wp_update. intros t' H1 _. cbn. rewrite H1. unfold shown.
    destruct (severe mx Informational); [apply wp_send|apply wp_ret]; cbn [fst snd]; by rewrite last_is.
  - intros (r' & -> & _). apply wp_sure_bind; [auto with quiet|by eexists|]. intros _. apply wp_stop. cbn [fst snd]. by rewrite last_is.
Qed.
Lemma wp_rotate_honest reason r mx u : wp (rotate reason) (fun _ => honest) (r, mx, u).
Proof. eapply wp_mono; [apply wp_rotate|]. intros _ [[[?|] m'] u']; cbn [fst snd honest]; [intros [-> ->]; by left|done]. Qed.

Lemma wp_honest_quiet {A : Type} (m : Task A) v : quiet m -> honest v -> wp m (fun _ => honest) v.
Proof. intros Hm Hv. by apply wp_quiet. Qed.

Lemma sure_prune : sure prune.
Proof.
  intros d. unfold prune, on_sys.
  destruct (prune_ok from_str to_toml to_vec from_slice uptime statvfs (min_space_to_start_mb cfg) (uploads_configured cfg) (sys d)) as [n Hn].
  destruct (prune_clean_recordings _ _ _ _ _ _ _ _ _) as [res s']. cbn in Hn. subst. by exists n.
Qed.

Lemma wp_check_space r mx u : wp check_space_while_recording
  (fun res v => match res with Ok false => v = (r, mx, u) | Ok true => v.1.1 = None /\ honest v | Err _ => False end) (r, mx, u).
Proof.
  apply wp_sure_bind; [auto with quiet|by eexists|]. intros c. destruct c; try by apply wp_ret.
  - apply wp_sure_bind; [destruct (auto_delete_clean cfg); unfold prune; auto with quiet|
      destruct (auto_delete_clean cfg); [apply sure_prune|by eexists]|]. intros freed.
    apply wp_get. intros t H1 H2. apply wp_bind. apply wp_mono with (P := fun res v => res = Ok tt /\ v = (r, mx, u)).
    + destruct (0 <? freed); [apply wp_put; cbn; by rewrite H1, H2|].
      destruct (negb _); [|by apply wp_ret]. apply wp_bind, wp_put. cbn. rewrite H1, H2. by intros d Hd.
    + intros ? ? [-> ->]. by apply wp_ret.
  - apply wp_sure_bind; [auto with quiet|by eexists|]. intros _. apply wp_bind, wp_stop. apply wp_ret.
    split; [done|]. cbn. by rewrite last_is.
Qed.

Lemma severe_any a b : severe a b = true -> severe a Informational = true.
Proof. by destruct a, b. Qed.

Lemma wp_observe container demo enc p aw r mx u : honest (Some r, mx, u) ->
  wp (observe_container container demo enc p aw) (fun res v => res = Ok tt /\ honest v /\ v.1.1 = Some (p, gz_plain enc)) (Some r, mx, u).
Proof.
  intros Hv. apply wp_sure_bind; [auto with quiet|by eexists|]. intros now.
  apply wp_bind, wp_update. intros t1 H1 H2. cbn. rewrite H1, H2.
  apply wp_bind, wp_update. intros t2 H3 H4. cbn. rewrite H3, H4.
  destruct (analyze_container _ _ _) as [aw' write].
  apply wp_bind, wp_update. intros t3 _ H6. cbn. rewrite H6.
  apply wp_sure_bind; [auto with quiet|apply sure_io_attempt|]. intros res.
  apply wp_sure_bind; [destruct (severe _ _); auto with quiet|destruct (severe _ _); by eexists|]. intros _.
  apply wp_get. intros t4 H7 H8. rewrite H8. destruct (severe _ mx) eqn:Hs; [|by apply wp_ret].
  apply wp_bind, wp_put. cbn. rewrite H7. pose proof (severe_any _ _ Hs) as Hi. rewrite Hi.
  apply wp_send. split_and!; [done| |done]. left. rewrite last_is. unfold shown. by rewrite Hi.
Qed.

(** What [write_container] adds to the capture. *)
Definition recorded (container : MessagesContainer) : list Z := flat_map data (messages container).
Lemma write_container_plain container (q q' : QmdlWriter (GzFile G)) :
  write_container container q = (Ok tt, q') -> gz_plain (encoder (writer q')) = gz_plain (encoder (writer q)) ++ recorded container.
Proof.
  intros H. pose proof (write_containers_plain [container] q q') as Hp. cbn [write_containers flat_map] in Hp.
  rewrite H, app_nil_r in Hp. by apply Hp.
Qed.

Lemma wp_run_writer {A B : Type} (f : QmdlWriter (GzFile G) -> result Qmdl.ErrorKind A * QmdlWriter (GzFile G)) enc p
    (k : result Qmdl.ErrorKind A * G -> Task B) Q v :
  (forall w r q, f (Build_QmdlWriter (mkGzFile enc p w)) = (r, q) -> wp (k (r, encoder (writer q))) Q v) -> wp (run_writer f enc p ≫= k) Q v.
Proof.
  intros H d Hd. specialize (H (world (sys d))). unfold mbind, M_bind, run_writer.
  destruct (f _) as [r q]. by apply (H r q eq_refl).
Qed.

Lemma wp_record container enc p aw r mx u :
  wp (record_container container enc p aw) (fun res v =>
    match res with
    | Ok (Ok o) => v = (Some (p, gz_plain enc ++ recorded container), mx, u) /\ (max_recording_bytes cfg = None -> o = None)
    | Ok (Err _) => True
    | Err _ => False
    end) (r, mx, u).
Proof.
  apply wp_run_writer. intros w res q Hw.
  apply wp_bind, wp_update. intros t _ Hm. cbn. rewrite Hm.
  destruct res as [[]|e]; [|by apply wp_ret].
  apply write_container_plain in Hw. cbn [encoder writer] in Hw. rewrite Hw.
  apply wp_sure_bind; [auto with quiet|apply sure_run_writer|]. intros [[size|e] g]; cbn [fst]; [|by apply wp_ret].
  apply wp_bind, wp_attempt, wp_quiet; [auto with quiet|]. intros [a|e]; apply wp_ret; [|done].
  split; [done|]. unfold size_reason. by intros ->.
Qed.

(** What a container does to the recording: all of its bytes are added, unless the recording is stopped
    or rotated. *)
Definition recorded_step (container : MessagesContainer) (before after : option (rstr * list Z)) : Prop :=
  match before, after with
  | Some (p, x), Some (p', x') =>
      max_recording_bytes cfg = None -> max_recording_duration cfg = None ->
      p' = p /\ x' = x ++ (match data_type container with UserSpace => recorded container | DataTypeOther _ => [] end)
  | None, after => after = None
  | _, None => True
  end.
Lemma recorded_none c r : recorded_step c r None.
Proof. by destruct r as [[]|]. Qed.

Lemma wp_process container demo v : honest v ->
  wp (process_container_inner container demo) (fun _ v' => honest v' /\ recorded_step container v.1.1 v'.1.1) v.
Proof.
  destruct v as [[r mx] u]. intros Hv. unfold process_container_inner, recorded_step. destruct (data_type container) eqn:Hd.
  2:{ apply wp_ret. split; [done|]. cbn. destruct r as [[p x]|]; [|done]. by rewrite app_nil_r. }
  apply wp_get. intros t Hr Hm. destruct (state t) as [enc p aw|] eqn:Hs; cbn in Hr; subst r; [|by apply wp_ret]. cbn [fst].
  apply wp_bind. apply wp_mono with (P := fun res v =>
    match res with Ok false => v = (Some (p, gz_plain enc), mx, u) | Ok true => v.1.1 = None /\ honest v | Err _ => False end).
  { destruct (_ <=? _); [|by apply wp_ret]. apply wp_bind, wp_put. cbn. rewrite Hs, Hm. apply wp_check_space. }
  intros [[]|e] v; [intros [Hn Hv']; apply wp_ret; by rewrite Hn|intros ->|done].
  apply wp_get. intros t' Hr _. destruct (state t') as [enc' p' aw'|]; [|done]. injection Hr as -> Hplain.
  apply wp_bind. eapply wp_mono; [apply wp_record|]. intros [[by_size|why]|e] [[r' mx'] u']; [|intros _|done].
  2:{ apply wp_stop. split; [cbn; by rewrite last_is|done]. }
  intros [[= -> -> ->] Hno]. apply wp_sure_bind; [auto with quiet|by eexists|]. intros s.
  apply wp_get. intros t2 Hr2 _. destruct (state t2) as [enc2 p2 aw2|]; [|done]. injection Hr2 as -> Hplain2.
  apply wp_bind. eapply wp_mono; [by apply wp_observe|]. intros ? [[r' mx'] u'] (-> & Hv' & Hw).
  cbv zeta. cbn [fst] in Hw. subst r'. case_match eqn:Hreason.
  - eapply wp_mono; [apply wp_rotate_honest|]. intros _ [[r' mx2] u2] Hh. split; [done|]. cbn.
    destruct r' as [[p3 x3]|]; [|done]. intros Hb Ht. rewrite Hno in Hreason by done. unfold time_reason in Hreason. by rewrite Ht in Hreason.
  - apply wp_ret. split; [done|]. intros _ _. split; [done|]. by rewrite Hplain2, Hplain.
Qed.

Lemma wp_finish_then {B : Type} reason (was : option (rstr * list Z)) (m : Task B) (Q : _ -> View -> Prop) mx u :
  wp m Q (None, mx, u) ->
  wp ((if bool_decide (is_Some was) then finish_current_entry reason else mret tt) ;; m) Q (was, mx, u).
Proof. intros H. apply wp_bind. destruct was; [by apply wp_finish|by apply wp_ret]. Qed.

Lemma wp_switch path reason v : honest v -> wp (switch_store path reason) (fun _ => honest) v.
Proof.
  destruct v as [[r mx] u]. intros Hv. apply wp_get. intros t Hr _. rewrite is_recording_writing, Hr. cbv zeta.
  apply wp_sure_bind; [auto with quiet|by eexists|]. intros current. destruct (bool_decide _).
  - destruct r; [apply wp_bind, wp_finish, wp_start_honest|]. destruct (negb _); [apply wp_start_honest|by apply wp_ret].
  - apply wp_finish_then. apply wp_sure_bind; [auto with quiet| |].
    { intros d. unfold open_elsewhere. destruct (open_or_recover _ _ _ _ _ _) as [[st|e] w]; by eexists. }
    assert (Hs : r = None -> honest (None, mx, u)) by (by intros ->).
    intros [[]|e].
    + destruct r; [apply wp_start_honest|]. destruct (negb _); cbn [orb]; [apply wp_start_honest|apply wp_ret, Hs; done].
    + apply wp_bind. apply wp_mono with (P := fun _ => honest); [|by intros [[]|?] ? ?; [apply wp_quiet; [apply quiet_fail|]|]].
      destruct r; [apply wp_logged, wp_start_honest|apply wp_ret, Hs; done].
Qed.

Lemma wp_handle ev v : honest v -> wp (handle ev) (fun _ => honest) v.
Proof.
  destruct v as [[r mx] u]. intros Hv. destruct ev as [[ [container|] | | path reason | | n | | lat lon]|container]; cbn [handle].
  - eapply wp_mono; [by apply wp_process|]. by intros ? ? [? _].
  - by apply wp_ret.
  - apply wp_bind, wp_update. intros t H1 H2. cbn. rewrite H1, H2. apply wp_stop_honest.
  - by apply wp_switch.
  - apply wp_bind, wp_update. intros t H1 H2. cbn. rewrite H1, H2. apply wp_start_honest.
  - apply wp_sure_bind; [auto with quiet|by eexists|]. intros s. apply wp_bind. apply wp_mono with (P := fun _ => honest).
    { destruct (is_current_entry _ _); [apply wp_stop_honest|by apply wp_ret]. }
    intros [[]|e] v' Hv'; [|done]. apply wp_quiet; [auto with quiet|done].
  - apply wp_bind. eapply wp_mono; [apply wp_stop_honest|]. intros [[]|e] v' Hv'; [|done]. apply wp_quiet; [auto with quiet|done].
  - apply wp_quiet; [auto with quiet|done].
  - eapply wp_mono; [by apply wp_process|]. by intros ? ? [? _].
Qed.

Lemma run_honest evs d : honest (view d) -> honest (view (run_events evs d)).
Proof. revert d. induction evs as [|ev evs IH]; intros d Hd; [done|]. apply IH. exact (wp_handle ev _ Hd d eq_refl). Qed.

(** [DiagTask::new]. *)
Definition booted (s : Sys) (dir : rstr) (others : gmap rstr files_t) (tracker : CellTracker) : DS G :=
  mkDS (mkDiagTask Stopped None Informational 0 false false None tracker) s dir others [] [] [].

(** Once the start that the thread asks for at boot has been handled, the display agrees, whatever came
    before and comes after. *)
Lemma honest_after_boot before evs d : honest (view (run_events (before ++ Ctrl StartRecording :: evs) d)).
Proof.
  unfold run_events. rewrite fold_left_app. cbn [fold_left]. set (d1 := fold_left _ before d).
  assert (H : honest (view (handle (Ctrl StartRecording) d1).2)).
  { destruct (view d1) as [[r mx] u] eqn:Hv.
    refine (wp_bind (update_task (fun t => set_by_user t false)) (fun _ => start) (fun _ => honest) (r, mx, u) _ d1 Hv).
    apply wp_update. intros t H1 H2. cbn. rewrite H1, H2. apply wp_start_honest. }
  by apply (run_honest evs).
Qed.



(** Rotation keeps the warning: when a recording is rotated, the next one either runs with the
    severity seen so far, still shown, or could not be started, and the display shows [Paused]. *)
Theorem rotation_keeps_severity reason d :
  let d' := (rotate reason d).2 in
  match state (task d') with
  | Recording enc _ _ =>
      max_type_seen (task d') = max_type_seen (task d) /\
      last (ui d') = Some (if severe (max_type_seen (task d)) Informational
                           then Display_WarningDetected (max_type_seen (task d)) else Display_Recording)
  | Stopped => last (ui d') = Some Display_Paused
  end.
Proof.
  cbv zeta. pose proof (wp_rotate reason _ _ _ d eq_refl) as H. unfold view in H. cbn [fst snd] in H.
  by destruct (state (task (rotate reason d).2)).
Qed.

(** Free space below the limits. *)
Definition low_space (w : World) : bool :=
  match statvfs w with
  | None => false
  | Some bytes => (bytes / 1024 / 1024 <? min_space_to_continue_mb cfg) || (bytes / 1024 / 1024 <? min_space_to_start_mb cfg)
  end.

(** A start that is refused for want of space shows [Paused] although a recording that was running
    goes on, and forgets the severity seen in it: state, store and files are as before, the display
    and [max_type_seen] are not. *)
Theorem refused_start_keeps_recording d :
  if negb (auto_delete_clean cfg) && low_space (world (sys d)) then
    let '(r, d') := start d in
    (exists mb required, r = Err (InsufficientDiskSpace mb required)) /\
    state (task d') = state (task d) /\ sys d' = sys d /\
    max_type_seen (task d') = Informational /\ ui d' = ui d ++ [Display_Paused]
  else True.
Proof.
  destruct (auto_delete_clean cfg) eqn:Ha; [done|]. cbn [negb andb]. destruct (low_space _) eqn:Hl; [|done].
  unfold low_space in Hl. destruct (statvfs _) as [bytes|] eqn:Hv; [|done].
  assert (Hc : exists mb required, start_inner d = (Err (InsufficientDiskSpace mb required),
     (update_task (fun t => set_warned (set_bytes (set_max t Informational) 0) false) d).2)).
  { unfold start_inner. rewrite Ha. unfold check_disk_space, get_sys, update_task, get_task, put_task, mbind, M_bind, mret, M_ret.
    cbn [sys world fst snd]. rewrite Hv. cbv zeta.
    destruct (_ <? min_space_to_continue_mb cfg); [by eauto|]. cbn [orb] in Hl. rewrite Hl. by eauto. }
  destruct Hc as (mb & req & Hc). unfold start. rewrite Hc. cbn. split_and!; try done. by eauto.
Qed.
End operations.
