(* ===== verification/WebAuth.v ===== *)
(** * Passwords and the browser's requests ([daemon/src/web_auth.rs])

    Key derivation (PBKDF2 over an HMAC), stored password hashes, web accounts, the paths open to
    browsers that are not paired, the redirect to TLS, and the refusal of requests that another
    site made.  HMAC-SHA-256 and base64 are crates: [Hmac] and [Base64] with what is documented of
    them.  Texts are lists of characters ([RustStr]); an address is what [parse_ip] makes of a text.
    The middleware that puts this together is in [Access]. *)

From S2P Require Import Prelude RustStr.

Local Open Scope Z_scope.

Definition ITERATIONS : Z := 20000.
Definition MAX_ITERATIONS : Z := 1000000.
Definition MAX_USERNAME_LEN : Z := 64.
Definition MAX_PASSWORD_LEN : Z := 256.
Definition SALT_LEN : nat := 16.
Definition HASH_LEN : nat := 32.

(** [HmacSha256]: a key and a message give 32 octets. *)
Class Hmac := {
  hmac : list Z -> list Z -> list Z;
  hmac_length k m : length (hmac k m) = 32%nat;
  hmac_bytes k m : bytes_ok (hmac k m) }.

(** [B64]: what is encoded decodes, and the alphabet has no dollar sign. *)
Class Base64 := {
  b64_encode : list Z -> rstr;
  b64_decode : rstr -> option (list Z);
  b64_decode_encode bs : bytes_ok bs -> b64_decode (b64_encode bs) = Some bs;
  b64_alphabet bs : 36 ∉ b64_encode bs }.

Definition xor_bytes (a b : list Z) : list Z := zip_with Z.lxor a b.

(** ** Comparison in constant time ([pairing.rs], and the end of [verify_password]) *)

Definition difference (a b : list Z) : Z := fold_left (fun d '(x, y) => Z.lor d (Z.lxor x y)) (zip a b) 0.
Definition ct_eq (a b : list Z) : bool :=
  if negb (length a =? length b)%nat then false else difference a b =? 0.

(** ** PBKDF2 *)

Section pbkdf2.
Context {H : Hmac}.

(** [for _ in 1..iterations], [n] rounds of it. *)
Fixpoint pbkdf2_rounds (n : nat) (password current accumulator : list Z) : list Z :=
  match n with
  | O => accumulator
  | S n =>
      let current := hmac password current in
      pbkdf2_rounds n password current (xor_bytes accumulator current)
  end.
Definition pbkdf2_block (password salt : list Z) (iterations block_index : Z) : list Z :=
  let current := hmac password (salt ++ be_bytes 4 block_index) in
  pbkdf2_rounds (Z.to_nat (iterations - 1)) password current current.

(** [while written < out.len()]; [out] is what was written so far. *)
Fixpoint pbkdf2_loop (fuel : nat) (password salt : list Z) (iterations block_index : Z) (out_len : nat) (out : list Z) : list Z :=
  match fuel with
  | O => out
  | S fuel =>
      if (length out <? out_len)%nat then
        let accumulator := pbkdf2_block password salt iterations block_index in
        let n := Nat.min (out_len - length out) (length accumulator) in
        pbkdf2_loop fuel password salt iterations (block_index + 1) out_len (out ++ take n accumulator)
      else out
  end.
Definition pbkdf2 (password salt : list Z) (iterations : Z) (out_len : nat) : list Z :=
  pbkdf2_loop out_len password salt iterations 1 out_len [].
End pbkdf2.

(** ** Password hashes *)

Section passwords.
Context {H : Hmac} {B : Base64}.

Definition hash_password (salt : list Z) (password : rstr) : rstr :=
  lit "pbkdf2-sha256$" ++ dec ITERATIONS ++ lit "$" ++ b64_encode salt ++ lit "$" ++
  b64_encode (pbkdf2 (as_bytes password) salt ITERATIONS HASH_LEN).

Definition verify_password (password stored : rstr) : bool :=
  match split_on 36 stored with
  | scheme :: rest =>
      if negb (bool_decide (scheme = lit "pbkdf2-sha256")) then false
      else match rest with
           | [] => false
           | its :: rest =>
               match parse_unsigned 32 its with
               | None => false
               | Some iterations =>
                   match rest with
                   | [] => false
                   | s :: rest =>
                       match b64_decode s with
                       | None => false
                       | Some salt =>
                           match rest with
                           | [] => false
                           | e :: rest =>
                               match b64_decode e with
                               | None => false
                               | Some expected =>
                                   if negb (bool_decide (rest = [])) || negb (length expected =? HASH_LEN)%nat ||
                                      (iterations =? 0) || (MAX_ITERATIONS <? iterations)
                                   then false
                                   else difference (pbkdf2 (as_bytes password) salt iterations HASH_LEN) expected =? 0
                               end
                           end
                       end
                   end
               end
           end
  | [] => false
  end.

Record WebUser := mkWebUser { username : rstr; password_hash : rstr }.

Definition DUMMY_HASH : rstr :=
  lit "pbkdf2-sha256$20000$AAAAAAAAAAAAAAAAAAAAAA==$AAAAAAAAAAAAAAAAAAAAAAAAAAAAAAAAAAAAAAAAAAA=".

Definition find_user (users : list WebUser) (name : rstr) : option WebUser :=
  snd <$> list_find (fun u => username u = name) users.
Definition credentials_are_valid (users : list WebUser) (name password : rstr) : bool :=
  if (MAX_USERNAME_LEN <? str_len name) || (MAX_PASSWORD_LEN <? str_len password) then false
  else
    let matched := find_user users name in
    let hash := match matched with Some u => password_hash u | None => DUMMY_HASH end in
    let password_ok := verify_password password hash in
    bool_decide (is_Some matched) && password_ok.

(** [from_utf8] is [String::from_utf8]. *)
Definition parse_basic_auth (from_utf8 : list Z -> option rstr) (header : rstr) : option (rstr * rstr) :=
  encoded ← strip_prefix (lit "Basic ") header;
  decoded ← b64_decode (trim encoded);
  text ← from_utf8 decoded;
  split_once (lit ":") text.
End passwords.

(** ** Which requests are open *)

(** [one_segment_under]. *)
Definition one_segment_under (path prefix : rstr) : bool :=
  match strip_prefix prefix path with
  | Some rest => negb (bool_decide (rest = [])) && negb (contains rest (lit "/"))
  | None => false
  end.
Definition OPEN_PATHS : list rstr := map lit
  ["/pair"; "/api/setup/status"; "/api/setup/complete"; "/api/pair/passphrase"; "/api/pair/account";
   "/api/pair/code"; "/api/setup/press-request"; "/api/setup/complete-press"; "/api/tls-info"; "/api/ca.pem";
   "/api/ca.crt"; "/api/ca.mobileconfig"; "/favicon.png"; "/rayhunter_orca_only.png"; "/rayhunter_text.png"]%string.
Definition is_exempt_from_pairing (path : rstr) : bool :=
  bool_decide (path ∈ OPEN_PATHS) || one_segment_under path (lit "/s/") || one_segment_under path (lit "/S/") ||
  one_segment_under path (lit "/p/") || one_segment_under path (lit "/P/") || one_segment_under path (lit "/api/setup/press-status/").

Inductive ListenerKind := Loopback | Plain | Tls.
#[export] Instance ListenerKind_eq_dec : EqDecision ListenerKind.
Proof. solve_decision. Defined.
Inductive Method := GET | HEAD | OPTIONS | POST | PUT | PATCH | DELETE | Method_other (name : rstr).
#[export] Instance Method_eq_dec : EqDecision Method.
Proof. solve_decision. Defined.

(** [config.gps_api_open], whether [config.gps_mode] is [Api]. *)
Definition is_open_gps_post (gps_api_open gps_mode_api : bool) (method : Method) (path : rstr) : bool :=
  gps_api_open && gps_mode_api && bool_decide (method = POST) && bool_decide (path = lit "/api/gps").

(** ** Requests another site made *)

Definition mutating (m : Method) : bool := match m with POST | PUT | PATCH | DELETE => true | _ => false end.
Definition is_cross_site_state_change (method : Method) (sec_fetch_site origin host : option rstr) : bool :=
  if negb (mutating method) then false
  else match origin with
       | Some origin =>
           let origin_authority := match split_once (lit "://") origin with Some (_, rest) => Some rest | None => None end in
           match origin_authority, host with
           | Some o, Some h => negb (bool_decide (o = h))
           | _, _ => true
           end
       | None =>
           match sec_fetch_site with
           | None => false
           | Some s => negb (bool_decide (s ∈ [lit "same-origin"; lit "same-site"; lit "none"]))
           end
       end.

(** ** The redirect to TLS *)

Definition host_had_port (host : rstr) : bool :=
  match strip_prefix (lit "[") host with
  | Some rest => match split_once (lit "]") rest with Some (_, after) => starts_with after (lit ":") | None => false end
  | None => contains host (lit ":")
  end.
Definition host_without_port (host : rstr) : rstr :=
  match strip_prefix (lit "[") host with
  | Some rest => match split_once (lit "]") rest with Some (h, _) => h | None => rest end
  | None => match split_once (lit ":") host with Some (h, _) => h | None => host end
  end.

Definition LOCAL_NAME : rstr := lit "rayhunter.local".

Section redirect.
(** Addresses: what [str::parse::<IpAddr>] makes of a text, how they print, and which are loopback. *)
Context {Ip : Type} `{!EqDecision Ip} (parse_ip : rstr -> option Ip) (ip_text : Ip -> rstr) (is_loopback : Ip -> bool).
(** [own_addresses], the address as a WiFi client ([wifi_status.ip]), [front_door_alias], [tls_port]. *)
Context (own_addresses : list Ip) (sta_ip : option rstr) (front_door_alias : option Ip) (tls_port : Z).

Definition fallback_host : rstr :=
  match list_find (fun ip => is_loopback ip = false) own_addresses with
  | Some (_, ip) => ip_text ip
  | None => LOCAL_NAME
  end.
Definition canonical_host (raw_host : option rstr) : rstr :=
  match raw_host with
  | None => fallback_host
  | Some raw =>
      let host := host_without_port raw in
      if eq_ignore_ascii_case host LOCAL_NAME then LOCAL_NAME
      else match parse_ip host with
           | Some ip =>
               if bool_decide (ip ∈ own_addresses) then host
               else if bool_decide (sta_ip ≫= parse_ip = Some ip) then host else fallback_host
           | None => fallback_host
           end
  end.
Definition is_front_door_host (host : rstr) : bool :=
  eq_ignore_ascii_case host LOCAL_NAME || match front_door_alias with Some a => bool_decide (ip_text a = host) | None => false end.

(** [redirect_to_tls]: [None] when the request is served where it arrived; [host_header] is [Host] as text. *)
Definition redirect_to_tls (kind : ListenerKind) (tls_up open_gps : bool) (host_header : option rstr) (rest : rstr) : option rstr :=
  if negb (bool_decide (kind = Plain)) || negb tls_up then None
  else if open_gps then None
  else
    let raw_host := match host_header with Some h => if bool_decide (h = []) then [] else h | None => [] end in
    let checked := canonical_host (Some raw_host) in
    let reflected := eq_ignore_ascii_case (host_without_port raw_host) checked in
    let had_port := negb reflected || host_had_port raw_host || negb (is_front_door_host checked) in
    let host := if contains checked (lit ":") then lit "[" ++ checked ++ lit "]" else checked in
    Some (if had_port then lit "https://" ++ host ++ lit ":" ++ dec tls_port ++ rest else lit "https://" ++ host ++ rest).
End redirect.

(** ** Comparison *)

Lemma difference_acc a b d : length a = length b ->
  fold_left (fun d '(x, y) => Z.lor d (Z.lxor x y)) (zip a b) d = 0 <-> d = 0 /\ a = b.
Proof.
  revert b d. induction a as [|x a IH]; intros [|y b] d Hl; try done; cbn [zip zip_with fold_left]; [tauto|].
  rewrite IH by (by injection Hl). rewrite Z.lor_eq_0_iff, Z.lxor_eq_0_iff. split; [intros ((? & ->) & ->); done|].
  intros (? & [= -> ->]). done.
Qed.
Lemma difference_zero a b : length a = length b -> (difference a b =? 0) = bool_decide (a = b).
Proof.
  intros Hl. apply eq_true_iff_eq. rewrite Z.eqb_eq, bool_decide_eq_true. unfold difference. rewrite difference_acc by done. tauto.
Qed.
Lemma ct_eq_spec a b : ct_eq a b = bool_decide (a = b).
Proof.
  unfold ct_eq. destruct (Nat.eqb_spec (length a) (length b)) as [Hl|Hl]; cbn [negb]; [by apply difference_zero|].
  symmetry. apply bool_decide_eq_false. by intros ->.
Qed.

(** ** PBKDF2 as RFC 8018 has it *)

Section rfc.
Context {H : Hmac}.

(** U_(j+1) of block [i], and the block itself: U_1 xor ... xor U_c. *)
Definition rfc_u (password salt : list Z) (i : Z) (j : nat) : list Z :=
  Nat.iter j (hmac password) (hmac password (salt ++ be_bytes 4 i)).
Definition rfc_t (password salt : list Z) (c : Z) (i : Z) : list Z :=
  fold_left xor_bytes (map (rfc_u password salt i) (seq 1 (Z.to_nat (c - 1)))) (rfc_u password salt i 0).

Lemma rounds_u password salt i n j acc :
  pbkdf2_rounds n password (rfc_u password salt i j) acc = fold_left xor_bytes (map (rfc_u password salt i) (seq (S j) n)) acc.
Proof. revert j acc. induction n as [|n IH]; intros j acc; [done|]. cbn [pbkdf2_rounds seq map fold_left]. exact (IH (S j) _). Qed.
Lemma block_t password salt c i : pbkdf2_block password salt c i = rfc_t password salt c i.
Proof. exact (rounds_u password salt i _ 0 _). Qed.

Lemma u_length password salt i j : length (rfc_u password salt i j) = 32%nat.
Proof. destruct j; apply hmac_length. Qed.
Lemma t_length password salt c i : length (rfc_t password salt c i) = 32%nat.
Proof.
  unfold rfc_t. assert (Hg : forall l acc, length acc = 32%nat -> length (fold_left xor_bytes (map (rfc_u password salt i) l) acc) = 32%nat).
  { induction l as [|j l IH]; intros acc Ha; cbn [map fold_left]; [done|]. apply IH. unfold xor_bytes.
    rewrite length_zip_with, u_length, Ha. lia. }
  apply Hg, u_length.
Qed.

(** The loop appends blocks until there is enough. *)
Lemma loop_blocks password salt c len fuel m i out :
  (len <= length out + 32 * fuel)%nat -> (len <= length out + 32 * m)%nat ->
  pbkdf2_loop fuel password salt c i len out =
  out ++ take (len - length out) (concat (map (rfc_t password salt c) (seqZ i (Z.of_nat m)))).
Proof.
  revert m i out. induction fuel as [|fuel IH]; intros m i out Hf Hm; cbn [pbkdf2_loop].
  { replace (len - length out)%nat with O by lia. by rewrite take_0, app_nil_r. }
  destruct (Nat.ltb_spec (length out) len) as [Hlt|Hge].
  2:{ replace (len - length out)%nat with O by lia. by rewrite take_0, app_nil_r. }
  destruct m as [|m]; [lia|]. rewrite block_t. set (t := rfc_t password salt c i).
  assert (Ht : length t = 32%nat) by apply t_length.
  assert (Htake : take (Nat.min (len - length out) (length t)) t = take (len - length out) t) by (rewrite <- take_take, (take_ge t); [done|lia]).
  rewrite Htake, (IH m) by (rewrite length_app, length_take; lia).
  rewrite (seqZ_cons i) by lia. rewrite Nat2Z.inj_succ, Z.pred_succ. cbn [map concat]. fold t.
  rewrite take_app, <- app_assoc, length_app, length_take, Ht. unfold Z.succ.
  replace (len - (length out + Nat.min (len - length out) 32))%nat with (len - length out - 32)%nat by lia. done.
Qed.

Lemma pbkdf2_length password salt c len : length (pbkdf2 password salt c len) = len.
Proof.
  assert (Hc : forall l, length (concat (map (rfc_t password salt c) l)) = (32 * length l)%nat).
  { induction l as [|i l IH]; cbn [map concat length]; [done|]. rewrite length_app, t_length, IH. lia. }
  unfold pbkdf2. rewrite (loop_blocks _ _ _ _ _ len) by (cbn; lia). cbn [app length].
  rewrite length_take, Hc, length_seqZ. lia.
Qed.

Lemma xor_bytes_ok a b : bytes_ok a -> bytes_ok b -> bytes_ok (xor_bytes a b).
Proof.
  intros Ha Hb. unfold xor_bytes, bytes_ok. revert b Hb. induction Ha as [|x a Hx _ IH]; intros [|y b] Hb; cbn [zip_with]; constructor.
  - apply Forall_cons in Hb as [Hy _]. unfold in_u in *. split; [apply Z.lxor_nonneg; lia|].
    destruct (Z.eq_dec (Z.lxor x y) 0) as [->|]; [lia|]. apply Z.log2_lt_pow2; [|].
    + assert (0 <= Z.lxor x y) by (apply Z.lxor_nonneg; lia). lia.
    + eapply Z.le_lt_trans; [apply Z.log2_lxor; lia|]. apply Z.max_lub_lt.
      * destruct (Z.eq_dec x 0) as [->|]; [done|]. apply Z.log2_lt_pow2; lia.
      * destruct (Z.eq_dec y 0) as [->|]; [done|]. apply Z.log2_lt_pow2; lia.
  - apply IH. by apply Forall_cons in Hb as [_ ?].
Qed.
Lemma t_bytes password salt c i : bytes_ok (rfc_t password salt c i).
Proof.
  unfold rfc_t. assert (Hu : forall j, bytes_ok (rfc_u password salt i j)) by (intros [|j]; apply hmac_bytes).
  assert (Hg : forall l acc, bytes_ok acc -> bytes_ok (fold_left xor_bytes (map (rfc_u password salt i) l) acc)).
  { induction l as [|j l IH]; intros acc Ha; cbn [map fold_left]; [done|]. by apply IH, xor_bytes_ok. }
  apply Hg, Hu.
Qed.
Lemma pbkdf2_bytes password salt c len : bytes_ok (pbkdf2 password salt c len).
Proof.
  unfold pbkdf2. rewrite (loop_blocks _ _ _ _ _ len) by (cbn; lia). cbn [app]. unfold bytes_ok.
  apply Forall_take, Forall_concat, Forall_map, Forall_forall. intros i _. apply t_bytes.
Qed.

(** C31: the key derivation is PBKDF2.  For every password, salt, iteration count and length, the loop gives
    the first octets of T_1 || T_2 || ..., where T_i is the exclusive or of U_1 to U_c, U_1 is the
    HMAC of the salt and the block's number in four octets and every other U the HMAC of the one
    before, as RFC 8018 says; and it gives as many octets as asked. *)
Theorem pbkdf2_rfc8018 password salt c len :
  pbkdf2 password salt c len =
    take len (concat (map (rfc_t password salt c) (seqZ 1 (Z.of_nat ((len + 31) / 32))))) /\
  length (pbkdf2 password salt c len) = len.
Proof.
  assert (Hl : forall m, (len <= 32 * m)%nat -> (pbkdf2 password salt c len =
    take len (concat (map (rfc_t password salt c) (seqZ 1 (Z.of_nat m)))))).
  { intros m Hm. unfold pbkdf2. rewrite (loop_blocks _ _ _ _ _ m) by (cbn; lia). cbn. by rewrite Nat.sub_0_r. }
  assert (Hm : (len <= 32 * ((len + 31) / 32))%nat) by (pose proof (Nat.div_mod_eq (len + 31) 32); pose proof (Nat.mod_upper_bound (len + 31) 32); lia).
  split; [by apply Hl|apply pbkdf2_length].
Qed.
End rfc.

(** ** Properties of passwords and requests *)

Lemma iterations_in_range : ITERATIONS <> 0 /\ ITERATIONS <= MAX_ITERATIONS.
Proof. by vm_compute. Qed.

Section properties.
Context {H : Hmac} {B : Base64}.
#[local] Opaque pbkdf2.

(** What a stored hash says: the count, the salt and the expected octets. *)
Definition stored_as (stored : rstr) (iterations : Z) (salt expected : list Z) : Prop :=
  exists its s e, stored = join [36] [lit "pbkdf2-sha256"; its; s; e] /\ 36 ∉ its /\ 36 ∉ s /\ 36 ∉ e /\
    parse_unsigned 32 its = Some iterations /\ b64_decode s = Some salt /\ b64_decode e = Some expected.

Lemma scheme_plain : 36 ∉ lit "pbkdf2-sha256".
Proof. apply (bool_decide_unpack _). vm_compute. exact I. Qed.
Lemma verify_accepts password stored : verify_password password stored = true <->
  exists iterations salt, stored_as stored iterations salt (pbkdf2 (as_bytes password) salt iterations HASH_LEN) /\
    iterations <> 0 /\ iterations <= MAX_ITERATIONS.
Proof.
  assert (Hlen : forall salt c, length (pbkdf2 (as_bytes password) salt c HASH_LEN) = HASH_LEN) by (intros; apply pbkdf2_length).
  pose proof scheme_plain as Hscheme.
  split.
  - unfold verify_password. destruct (split_on 36 stored) as [|scheme rest] eqn:Hs; [done|].
    case_bool_decide as Hsch; cbn [negb]; [|done].
    destruct rest as [|its rest]; [done|]. destruct (parse_unsigned 32 its) as [c|] eqn:Hc; [|done].
    destruct rest as [|s rest]; [done|]. destruct (b64_decode s) as [salt|] eqn:Hsalt; [|done].
    destruct rest as [|e rest]; [done|]. destruct (b64_decode e) as [expected|] eqn:He; [|done].
    case_bool_decide as Hr; cbn [negb orb]; [|done]. subst scheme rest.
    destruct (Nat.eqb_spec (length expected) HASH_LEN) as [Hl|]; cbn [negb orb]; [|done].
    destruct (Z.eqb_spec c 0); cbn [orb]; [done|]. destruct (Z.ltb_spec MAX_ITERATIONS c); [done|].
    rewrite difference_zero by (by rewrite Hlen). intros <-%bool_decide_eq_true.
    exists c, salt. split; [|done]. exists its, s, e. apply split_on_4 in Hs. tauto.
  - intros (c & salt & (its & s & e & Hst & H1 & H2 & H3 & Hc & Hsalt & He) & Hc0 & Hcm).
    unfold verify_password. rewrite (proj2 (split_on_4 _ _ _ _ _ _) (conj Hst (conj Hscheme (conj H1 (conj H2 H3))))).
    rewrite !bool_decide_eq_true_2, Hc, Hsalt, He, Hlen, Nat.eqb_refl by done. cbn [negb orb].
    rewrite (proj2 (Z.eqb_neq _ _) Hc0), (proj2 (Z.ltb_ge _ _) Hcm), difference_zero by done. by apply bool_decide_eq_true.
Qed.

Lemma count_plain : 36 ∉ dec ITERATIONS.
Proof. apply (bool_decide_unpack _). vm_compute. exact I. Qed.
Lemma count_parses : parse_unsigned 32 (dec ITERATIONS) = Some ITERATIONS.
Proof. by vm_compute. Qed.
Lemma hash_password_fields salt password : split_on 36 (hash_password salt password) =
  [lit "pbkdf2-sha256"; dec ITERATIONS; b64_encode salt; b64_encode (pbkdf2 (as_bytes password) salt ITERATIONS HASH_LEN)].
Proof.
  apply split_on_4. pose proof scheme_plain. pose proof count_plain.
  split; [|split_and!; [assumption|assumption|apply b64_alphabet|apply b64_alphabet]].
  unfold hash_password. cbn [join]. change (lit "pbkdf2-sha256$") with (lit "pbkdf2-sha256" ++ [36]). change (lit "$") with [36].
  by rewrite <- app_assoc.
Qed.

(** A password is accepted exactly for its hash.  A stored text is accepted for a password exactly when
    it has four fields, the scheme's name, a count between 1 and 1,000,000, a salt and 32 octets, and
    these octets are what the key derivation gives for the password, that salt and that count; in
    particular a hash made by [hash_password] is accepted for its password, and for another only if
    the key derivation maps both to the same. *)
Theorem verify_password_spec :
  (forall password stored, verify_password password stored = true <->
     exists iterations salt, stored_as stored iterations salt (pbkdf2 (as_bytes password) salt iterations HASH_LEN) /\
       iterations <> 0 /\ iterations <= MAX_ITERATIONS) /\
  (forall salt password password', bytes_ok salt ->
     verify_password password' (hash_password salt password) = true <->
     pbkdf2 (as_bytes password') salt ITERATIONS HASH_LEN = pbkdf2 (as_bytes password) salt ITERATIONS HASH_LEN).
Proof.
  split; [apply verify_accepts|]. intros salt password password' Hsalt. rewrite verify_accepts.
  assert (Hb : forall pw, b64_decode (b64_encode (pbkdf2 pw salt ITERATIONS HASH_LEN)) = Some (pbkdf2 pw salt ITERATIONS HASH_LEN))
    by (intros; apply b64_decode_encode, pbkdf2_bytes).
  split.
  - intros (c & salt' & (its & s & e & Hst & H1 & H2 & H3 & Hc & Hs & He) & _).
    pose proof (proj2 (split_on_4 36 _ _ its s e) (conj Hst (conj scheme_plain (conj H1 (conj H2 H3))))) as Hf.
    rewrite hash_password_fields in Hf. injection Hf as <- <- <-. rewrite b64_decode_encode in Hs by done. injection Hs as <-.
    assert (Hci : c = ITERATIONS) by (rewrite count_parses in Hc; congruence). subst c.
    rewrite b64_decode_encode in He by apply pbkdf2_bytes. congruence.
  - intros Heq. exists ITERATIONS, salt. split; [|exact iterations_in_range]. rewrite Heq.
    pose proof (proj1 (split_on_4 _ _ _ _ _ _) (hash_password_fields salt password)) as (Hj & _ & H1 & H2 & H3).
    exists (dec ITERATIONS), (b64_encode salt), (b64_encode (pbkdf2 (as_bytes password) salt ITERATIONS HASH_LEN)).
    pose proof count_parses. pose proof (b64_decode_encode salt Hsalt). pose proof (Hb (as_bytes password)). tauto.
Qed.
End properties.

(** A state-changing request is let through only from the unit's own pages, or from what is no browser. *)
Lemma same_site_requests method sec origin host :
  is_cross_site_state_change method sec origin host = false <->
  mutating method = false \/
  (exists o scheme h, origin = Some o /\ host = Some h /\ split_once (lit "://") o = Some (scheme, h)) \/
  (origin = None /\ forall s, sec = Some s -> s ∈ [lit "same-origin"; lit "same-site"; lit "none"]).
Proof.
  unfold is_cross_site_state_change. destruct (mutating method); cbn [negb]; [|tauto].
  destruct origin as [o|].
  - destruct (split_once _ o) as [[scheme h']|] eqn:Ho; [destruct host as [h|]|]; try (split; [done|intros [?|[(?&?&?&[= <-]&?&?)|[? ?]]]; congruence]).
    rewrite negb_false_iff, bool_decide_eq_true. split.
    + intros ->. right; left. by exists o, scheme, h.
    + intros [?|[(o' & sc & h'' & [= <-] & [= <-] & Hs)|[? ?]]]; congruence.
  - destruct sec as [s|].
    + rewrite negb_false_iff, bool_decide_eq_true. split; [intros Hs; right; right; split; [done|by intros ? [= <-]]|].
      intros [?|[(?&?&?&?&?)|[_ Hs]]]; [done|done|by apply Hs].
    + split; [|done]. intros _. right; right. by split.
Qed.

Section redirect_properties.
Context {Ip : Type} `{!EqDecision Ip} (parse_ip : rstr -> option Ip) (ip_text : Ip -> rstr) (is_loopback : Ip -> bool).
Context (own_addresses : list Ip) (sta_ip : option rstr) (front_door_alias : option Ip) (tls_port : Z).
Abbreviation canonical_host := (canonical_host parse_ip ip_text is_loopback own_addresses sta_ip).
Abbreviation redirect_to_tls := (redirect_to_tls parse_ip ip_text is_loopback own_addresses sta_ip front_door_alias tls_port).

(** The unit's own names: its local name, the text of an address that is not loopback, or a text that reads as an
    address of the unit. *)
Definition own_name (h : rstr) : Prop :=
  h = LOCAL_NAME \/ (exists ip, ip ∈ own_addresses /\ is_loopback ip = false /\ h = ip_text ip) \/
  (exists ip, parse_ip h = Some ip /\ (ip ∈ own_addresses \/ sta_ip ≫= parse_ip = Some ip)).

Lemma fallback_own : own_name (fallback_host ip_text is_loopback own_addresses).
Proof.
  unfold fallback_host. destruct (list_find _ _) as [[i ip]|] eqn:Hf; [|by left].
  apply list_find_Some in Hf as (Hi & Hl & _). right; left. exists ip. split; [by apply list_elem_of_lookup_2 in Hi|done].
Qed.
Lemma canonical_own raw : own_name (canonical_host raw).
Proof.
  destruct raw as [raw|]; cbn [WebAuth.canonical_host]; [|apply fallback_own].
  destruct (eq_ignore_ascii_case _ _); [by left|]. destruct (parse_ip _) as [ip|] eqn:Hip; [|apply fallback_own].
  case_bool_decide as H1; [right; right; exists ip; by auto|]. case_bool_decide as H2; [right; right; exists ip; by auto|apply fallback_own].
Qed.

(** A redirect never leads to a stranger.  Only plain requests are redirected, while TLS is up; the
    address they are sent to begins with [https://] and one of the unit's own names, whatever the
    [Host] header said, in brackets where it has colons, and goes on with the port, or without one only for the
    names that reach the unit without, and then the path as it was. *)
Theorem redirect_stays_on_unit kind tls_up open_gps host rest :
  match redirect_to_tls kind tls_up open_gps host rest with
  | None => kind <> Plain \/ tls_up = false \/ open_gps = true
  | Some target => kind = Plain /\ tls_up = true /\ open_gps = false /\
      exists name port, own_name name /\
        target = lit "https://" ++ (if contains name (lit ":") then lit "[" ++ name ++ lit "]" else name) ++ port ++ rest /\
        (port = lit ":" ++ dec tls_port \/ (port = [] /\ is_front_door_host ip_text front_door_alias name = true))
  end.
Proof.
  unfold WebAuth.redirect_to_tls. case_bool_decide as Hk; cbn [negb orb]; [|by left].
  destruct tls_up; cbn [negb]; [|by auto]. destruct open_gps; [by auto|]. cbv zeta.
  set (raw := match host with Some h => _ | None => _ end). set (name := canonical_host (Some raw)).
  assert (Hn : own_name name) by apply canonical_own. fold name.
  set (shown := if contains name (lit ":") then _ else name).
  destruct (negb (eq_ignore_ascii_case (host_without_port raw) name) || host_had_port raw) eqn:Hp; cbn [orb].
  { split_and!; [done..|]. exists name, (lit ":" ++ dec tls_port). split_and!; [done| |by left]. fold shown. by rewrite <- app_assoc. }
  destruct (is_front_door_host _ _ name) eqn:Hf; cbn [negb].
  - split_and!; [done..|]. exists name, []. split_and!; [done|done|by right].
  - split_and!; [done..|]. exists name, (lit ":" ++ dec tls_port). split_and!; [done| |by left]. fold shown. by rewrite <- app_assoc.
Qed.
End redirect_properties.
