(* ===== verification/Pairing.v ===== *)
(** * Which browsers the unit trusts ([daemon/src/pairing.rs])

    The setup window with its token, pairing by a press of the button, by the passphrase, by a code
    minted in a trusted browser or by an old account; the delay after wrong passphrases; cookies.
    An operation is a computation on the [Pairing] that may fail, in what surrounds one call: the
    monotonic clock (nanoseconds), the wall clock's text, the system's randomness ([None] when it
    fails), the salt a new hash gets, whether key derivations are interrupted and whether the save
    reaches the disk.  [verify_passphrase] awaits between its two halves, [verify_begin] and
    [verify_end], so that other calls come between them.

    Arguments: SHA-256, the cookie's base64, the encoding of [auth.toml].  What is drawn is the log
    [drawn] of requests to the display; the pictures themselves are not modelled. *)

From S2P Require Import Prelude RustStr Filesystem WebAuth.

Local Open Scope Z_scope.

Definition secs (n : Z) : Z := n * 10 ^ 9.
Definition SETUP_WINDOW : Z := secs (10 * 60).
Definition SETUP_TOKEN_LEN : nat := 8.
Definition MAX_SETUP_ATTEMPTS : Z := 10.
Definition MIN_PASSPHRASE_LEN : nat := 8.
Definition COOKIE_NAME : rstr := lit "rh_device".
Definition COOKIE_MAX_AGE_SECS : Z := 365 * 24 * 3600.
Definition LAST_SEEN_INTERVAL : Z := secs 3600.
Definition CROCKFORD : rstr := lit "0123456789ABCDEFGHJKMNPQRSTVWXYZ".
Definition MAX_BACKOFF : Z := secs 60.
Definition BACKOFF_MEMORY : Z := secs (10 * 60).
Definition PAIR_CODE_TTL : Z := secs (5 * 60).
Definition MAX_CODE_ATTEMPTS : Z := 5.
Definition PRESS_WINDOW : Z := secs 30.
Definition MAX_DEVICES : nat := 32.
Definition FINGERPRINT_VIEW : Z := secs 15.

(** ** Data *)

Record TrustedDevice := mkDevice {
  id : rstr; dev_name : rstr; token_sha256 : rstr; created : rstr; last_seen : rstr; user_agent : rstr }.
Record AuthState := mkAuth { setup_complete : bool; owner_passphrase_hash : option rstr; devices : list TrustedDevice }.
Definition AuthState_default : AuthState := mkAuth false None [].
Record DeviceInfo := mkDeviceInfo {
  info_id : rstr; info_name : rstr; info_created : rstr; info_last_seen : rstr; info_user_agent : rstr; info_current : bool }.
Record IssuedDevice := mkIssued { issued_id : rstr; issued_name : rstr; cookie : rstr }.

Inductive PairError :=
| AlreadyComplete | WindowClosed | WrongToken (attempts_left : Z) | PassphraseTooShort | WrongPassphrase
| Backoff_wait (seconds : Z) | NoPassphrase | NoSuchDevice | NoCode | NotPressed | PressPending (seconds : Z)
| TooManyDevices | Storage.

Record SetupWindow := mkWindow { token : rstr; opened : Z; wrong : Z }.
Record Backoff := mkBackoff { failures : Z; last_failure : option Z }.
Definition Backoff_default : Backoff := mkBackoff 0 None.
Record PairCode := mkPairCode { code : rstr; code_created : Z; code_wrong : Z }.
Record PressRequest := mkPress { press_id : rstr; press_created : Z; approved : option Z }.

(** What is asked of the display. *)
Inductive Drawing := Draw_code (token : rstr) | Draw_fingerprint | Draw_press | Draw_continue | Draw_clear.

(** [path] with the file there: [None] for a store that is never written, [Some None] for no file. *)
Record Pairing := mkPairing {
  file : option (option (list Z));
  state : AuthState;
  setup : option SetupWindow;
  backoff : Backoff;
  last_seen_written : gmap rstr Z;
  has_display : bool;
  drawn : list Drawing;
  pair_code : option PairCode;
  press : option PressRequest;
  fingerprint : bool;
  showing_fingerprint : bool }.

(** What surrounds a call. *)
Record Ctx := mkCtx { now : Z; wall : rstr; random : nat -> option (list Z); salt : list Z; kdf_runs : bool; saved : bool }.

(** ** Functions of texts *)

Definition hex (bytes : list Z) : rstr := flat_map fmt_02x bytes.
Definition to_ascii_uppercase (c : rchar) : rchar := if in_range 97 122 c then c - 32 else c.

Definition crockford_char (b : Z) : rchar := nth (Z.to_nat (Z.land b 31)) CROCKFORD 0.
Definition normalize_char (c : rchar) : rchar :=
  let u := to_ascii_uppercase c in
  if u =? 79 then 48 else if (u =? 73) || (u =? 76) then 49 else u.
Definition normalize_token (input : rstr) : rstr :=
  map normalize_char (filter (fun c => is_whitespace c = false /\ c <> 45) input).

Definition default_device_name (ua : rstr) : rstr :=
  let has s := contains ua (lit s) in
  let platform :=
    if has "iPhone" then lit "iPhone" else if has "iPad" then lit "iPad" else if has "Android" then lit "Android"
    else if has "Windows" then lit "Windows" else if has "Mac OS" || has "Macintosh" then lit "Mac"
    else if has "CrOS" then lit "Chromebook" else if has "Linux" then lit "Linux" else lit "Browser" in
  let browser :=
    if has "Firefox/" then Some (lit "Firefox") else if has "Edg/" then Some (lit "Edge") else if has "OPR/" then Some (lit "Opera")
    else if has "Chrome/" || has "CriOS/" then Some (lit "Chrome") else if has "Safari/" then Some (lit "Safari") else None in
  match browser with Some b => platform ++ lit " (" ++ b ++ lit ")" | None => platform end.

Fixpoint find_cookie (parts : list rstr) (name : rstr) : option rstr :=
  match parts with
  | [] => None
  | part :: parts =>
      match split_once (lit "=") (trim part) with
      | Some (k, v) => if bool_decide (trim k = name) then Some (trim v) else find_cookie parts name
      | None => find_cookie parts name
      end
  end.
Definition cookie_value (header name : rstr) : option rstr := find_cookie (split_on 59 header) name.

Definition set_cookie_header (i : IssuedDevice) : rstr :=
  COOKIE_NAME ++ lit "=" ++ cookie i ++ lit "; Secure; HttpOnly; SameSite=Strict; Path=/; Max-Age=" ++ dec COOKIE_MAX_AGE_SECS.
Definition clear_cookie_header : rstr := COOKIE_NAME ++ lit "=; Secure; HttpOnly; SameSite=Strict; Path=/; Max-Age=0".

(** ** The delay after wrong guesses *)

Definition wait_remaining (b : Backoff) (now : Z) : option Z :=
  match last_failure b with
  | None => None
  | Some last =>
      if BACKOFF_MEMORY <=? Z.max 0 (now - last) then None
      else
        let delay := Z.min (secs (2 ^ Z.min (failures b) 6)) MAX_BACKOFF in
        if now <=? last + delay then Some (last + delay - now) else None
  end.
Definition failed (b : Backoff) (now : Z) : Backoff :=
  let failures := match last_failure b with
                  | Some last => if BACKOFF_MEMORY <=? Z.max 0 (now - last) then 0 else failures b
                  | None => failures b
                  end in
  mkBackoff (Z.min (failures + 1) (2 ^ 32 - 1)) (Some now).
Definition succeeded (b : Backoff) : Backoff := Backoff_default.

(** ** Operations *)

(** SHA-256 and the cookie's base64 ([URL_SAFE_NO_PAD]). *)
Class Sha256 := { sha256 : list Z -> list Z; sha256_length m : length (sha256 m) = 32%nat; sha256_bytes m : bytes_ok (sha256 m) }.

Definition set_state (p : Pairing) (s : AuthState) : Pairing :=
  mkPairing (file p) s (setup p) (backoff p) (last_seen_written p) (has_display p) (drawn p) (pair_code p) (press p)
    (fingerprint p) (showing_fingerprint p).
Definition set_setup (p : Pairing) (o : option SetupWindow) : Pairing :=
  mkPairing (file p) (state p) o (backoff p) (last_seen_written p) (has_display p) (drawn p) (pair_code p) (press p)
    (fingerprint p) (showing_fingerprint p).
Definition set_backoff (p : Pairing) (b : Backoff) : Pairing :=
  mkPairing (file p) (state p) (setup p) b (last_seen_written p) (has_display p) (drawn p) (pair_code p) (press p)
    (fingerprint p) (showing_fingerprint p).
Definition set_seen (p : Pairing) (m : gmap rstr Z) : Pairing :=
  mkPairing (file p) (state p) (setup p) (backoff p) m (has_display p) (drawn p) (pair_code p) (press p)
    (fingerprint p) (showing_fingerprint p).
Definition set_code (p : Pairing) (c : option PairCode) : Pairing :=
  mkPairing (file p) (state p) (setup p) (backoff p) (last_seen_written p) (has_display p) (drawn p) c (press p)
    (fingerprint p) (showing_fingerprint p).
Definition set_press (p : Pairing) (r : option PressRequest) : Pairing :=
  mkPairing (file p) (state p) (setup p) (backoff p) (last_seen_written p) (has_display p) (drawn p) (pair_code p) r
    (fingerprint p) (showing_fingerprint p).
Definition set_fingerprint (p : Pairing) (source showing : bool) : Pairing :=
  mkPairing (file p) (state p) (setup p) (backoff p) (last_seen_written p) (has_display p) (drawn p) (pair_code p) (press p)
    source showing.
(** A request to the display, when there is one. *)
Definition draw (d : Drawing) (p : Pairing) : Pairing :=
  mkPairing (file p) (state p) (setup p) (backoff p) (last_seen_written p) (has_display p)
    (if has_display p then drawn p ++ [d] else drawn p) (pair_code p) (press p) (fingerprint p) (showing_fingerprint p).

Definition with_devices (s : AuthState) (ds : list TrustedDevice) : AuthState :=
  mkAuth (setup_complete s) (owner_passphrase_hash s) ds.
Definition with_hash (s : AuthState) (h : option rstr) : AuthState := mkAuth (setup_complete s) h (devices s).
Definition completed (s : AuthState) : AuthState := mkAuth true (owner_passphrase_hash s) (devices s).

Section operations.
Context {H : Hmac} {B : Base64} {HS : Sha256} (url_encode : list Z -> rstr)
  (to_toml : AuthState -> option (list Z)) (from_toml : list Z -> option AuthState).

Abbreviation Op := (M Pairing PairError).

Definition get : Op Pairing := fun p => (Ok p, p).
Definition modify (f : Pairing -> Pairing) : Op unit := fun p => (Ok tt, f p).

(** [self.save(&state)] of the state in memory. *)
Definition save (c : Ctx) : Op unit := fun p =>
  match file p with
  | None => (Ok tt, p)
  | Some _ =>
      match to_toml (state p) with
      | None => (Err Storage, p)
      | Some text =>
          if saved c then
            (Ok tt, mkPairing (Some (Some text)) (state p) (setup p) (backoff p) (last_seen_written p) (has_display p) (drawn p)
                      (pair_code p) (press p) (fingerprint p) (showing_fingerprint p))
          else (Err Storage, p)
      end
  end.

(** [Pairing::load], of what the file holds or [None] when it is not there. *)
Definition fresh_pairing (file : option (option (list Z))) (s : AuthState) (display : bool) : Pairing :=
  mkPairing file s None Backoff_default ∅ display [] None None false false.
Definition load (text : option (list Z)) (display : bool) : result PairError Pairing :=
  match text with
  | None => Ok (fresh_pairing (Some None) AuthState_default display)
  | Some t => match from_toml t with
              | Some s => Ok (fresh_pairing (Some (Some t)) s display)
              | None => Err Storage
              end
  end.
Definition ephemeral (s : AuthState) (display : bool) : Pairing := fresh_pairing None s display.

Definition ask_random (c : Ctx) (n : nat) : Op (list Z) := match random c n with Some raw => mret raw | None => fail Storage end.

Definition new_setup_token (c : Ctx) : Op rstr := raw ← ask_random c SETUP_TOKEN_LEN; mret (map crockford_char raw).

Definition expired (w : SetupWindow) (now : Z) : bool := SETUP_WINDOW <=? Z.max 0 (now - opened w).

(** The open window's token and the time it has left; an expired one is dropped. *)
Definition setup_window (c : Ctx) : Op (option (rstr * Z)) := fun p =>
  match setup p with
  | None => (Ok None, p)
  | Some w => if expired w (now c) then (Ok None, set_setup p None)
              else (Ok (Some (token w, Z.max 0 (SETUP_WINDOW - Z.max 0 (now c - opened w)))), p)
  end.

Definition device_count (p : Pairing) : nat := length (devices (state p)).
Definition owned (p : Pairing) : bool := setup_complete (state p) || (0 <? device_count p)%nat.

Definition open_setup_window (c : Ctx) : Op rstr :=
  p ← get;
  if owned p then fail AlreadyComplete
  else
    tok ← (match setup p with
           | Some w =>
               if expired w (now c) then
                 tok ← new_setup_token c; modify (fun p => set_setup p (Some (mkWindow tok (now c) 0))) ;; mret tok
               else modify (fun p => set_setup p (Some (mkWindow (token w) (now c) (wrong w)))) ;; mret (token w)
           | None => tok ← new_setup_token c; modify (fun p => set_setup p (Some (mkWindow tok (now c) 0))) ;; mret tok
           end);
    modify (draw (Draw_code tok)) ;;
    mret tok.

Definition close_setup_window : Op unit := modify (fun p => draw Draw_clear (set_setup p None)).

Definition check_setup_token (c : Ctx) (tok : rstr) : Op unit :=
  p ← get;
  match setup p with
  | None => fail WindowClosed
  | Some w =>
      if expired w (now c) then modify (fun p => set_setup p None) ;; fail WindowClosed
      else if ct_eq (as_bytes (normalize_token tok)) (as_bytes (token w)) then mret tt
      else
        let n := wrong w + 1 in
        if MAX_SETUP_ATTEMPTS <=? n then modify (fun p => draw Draw_clear (set_setup p None)) ;; fail WindowClosed
        else modify (fun p => set_setup p (Some (mkWindow (token w) (opened w) n))) ;; fail (WrongToken (MAX_SETUP_ATTEMPTS - n))
  end.

(** A token of 32 random octets: its text, the hash of that, and the start of the hash. *)
Definition issue_token (c : Ctx) : Op (rstr * rstr * rstr) :=
  raw ← ask_random c 32;
  let value := url_encode raw in
  let digest := sha256 (as_bytes value) in
  mret (value, hex digest, hex (take 8 digest)).

Definition add_device (c : Ctx) (name : option rstr) (ua : rstr) : Op IssuedDevice :=
  p ← get;
  if (MAX_DEVICES <=? device_count p)%nat then fail TooManyDevices
  else
    '(value, token_hash, i) ← issue_token c;
    let n := match name with
             | Some s => if bool_decide (trim s = []) then default_device_name ua else take 64 (trim s)
             | None => default_device_name ua
             end in
    modify (fun p => set_state p (with_devices (state p)
      (devices (state p) ++ [mkDevice i n token_hash (wall c) (wall c) (take 256 ua)]))) ;;
    mret (mkIssued i n value).

Definition hash_off_thread (c : Ctx) (passphrase : rstr) : Op rstr :=
  if kdf_runs c then mret (hash_password (salt c) passphrase) else fail Storage.
Definition verify_off_thread (c : Ctx) (passphrase h : rstr) : bool := if kdf_runs c then verify_password passphrase h else false.

Definition finish_setup (c : Ctx) (passphrase : rstr) (name : option rstr) (ua : rstr) : Op IssuedDevice :=
  if (length passphrase <? MIN_PASSPHRASE_LEN)%nat then fail PassphraseTooShort
  else if MAX_PASSWORD_LEN <? str_len passphrase then fail PassphraseTooShort
  else
    h ← hash_off_thread c passphrase;
    p ← get;
    if setup_complete (state p) || negb (bool_decide (devices (state p) = [])) then fail AlreadyComplete
    else
      issued ← add_device c name ua;
      modify (fun p => set_state p (completed (with_hash (state p) (Some h)))) ;;
      save c ;;
      close_setup_window ;;
      mret issued.

Definition complete_setup (c : Ctx) (tok passphrase : rstr) (name : option rstr) (ua : rstr) : Op IssuedDevice :=
  p ← get;
  if setup_complete (state p) then fail AlreadyComplete
  else check_setup_token c tok ;; finish_setup c passphrase name ua.

(** *** The button *)

Definition show_fingerprint : Op bool :=
  p ← get;
  if negb (has_display p) then mret false
  else if negb (fingerprint p) then mret false
  else modify (fun p => set_fingerprint (draw Draw_fingerprint p) (fingerprint p) true) ;; mret true.
(** What the spawned task does [FINGERPRINT_VIEW] later. *)
Definition fingerprint_done (c : Ctx) : Op unit :=
  modify (fun p => set_fingerprint p (fingerprint p) false) ;;
  w ← setup_window c;
  match w with Some (tok, _) => modify (draw (Draw_code tok)) | None => mret tt end.

Definition request_press (c : Ctx) : Op rstr :=
  p ← get;
  if owned p then fail AlreadyComplete
  else
    raw ← ask_random c 8;
    let i := hex raw in
    let ask := modify (fun p => set_press p (Some (mkPress i (now c) None))) ;; modify (draw Draw_press) ;; mret i in
    match press p with
    | Some r =>
        let age := Z.max 0 (now c - press_created r) in
        if age <? PRESS_WINDOW then fail (PressPending (Z.max ((PRESS_WINDOW - age) / 10 ^ 9) 1)) else ask
    | None => ask
    end.

Definition press_status (p : Pairing) (c : Ctx) (i : rstr) : option bool :=
  match press p with
  | None => None
  | Some r =>
      if negb (bool_decide (press_id r = i)) then None
      else
        let since := Z.max 0 (now c - default (press_created r) (approved r)) in
        if since <? PRESS_WINDOW then Some (bool_decide (is_Some (approved r))) else None
  end.

Definition open_setup_window_silently (c : Ctx) : Op unit :=
  p ← get;
  match setup p with
  | Some w => if expired w (now c) then fail WindowClosed
              else modify (fun p => set_setup p (Some (mkWindow (token w) (now c) (wrong w))))
  | None => fail WindowClosed
  end.

(** A press that no request waits for: the fingerprint while the window is open, else the window again. *)
Definition button_unasked (c : Ctx) : Op unit :=
  w ← setup_window c;
  p ← get;
  shown ← (if bool_decide (is_Some w) && negb (showing_fingerprint p) then show_fingerprint else mret false);
  if (shown : bool) then _ ← attempt (open_setup_window_silently c); mret tt
  else _ ← attempt (open_setup_window c); mret tt.
Definition button_pressed (c : Ctx) : Op unit :=
  p ← get;
  match press p with
  | Some (mkPress i t None) =>
      if Z.max 0 (now c - t) <? PRESS_WINDOW then
        modify (fun p => set_press p (Some (mkPress i t (Some (now c))))) ;; modify (draw Draw_continue)
      else button_unasked c
  | _ => button_unasked c
  end.

Definition complete_setup_by_press (c : Ctx) (i passphrase : rstr) (name : option rstr) (ua : rstr) : Op IssuedDevice :=
  p ← get;
  if setup_complete (state p) then fail AlreadyComplete
  else
    match press_status p c i with
    | Some true =>
        issued ← finish_setup c passphrase name ua;
        modify (fun p => set_press p None) ;;
        mret issued
    | _ => fail NotPressed
    end.

(** *** The passphrase *)

Definition check_backoff (c : Ctx) : Op unit :=
  p ← get;
  match wait_remaining (backoff p) (now c) with
  | Some rest => fail (Backoff_wait (Z.max (rest / 10 ^ 9) 1))
  | None => mret tt
  end.
Definition note_failure (c : Ctx) : Op unit := modify (fun p => set_backoff p (failed (backoff p) (now c))).
Definition note_success : Op unit := modify (fun p => set_backoff p (succeeded (backoff p))).

(** [verify_passphrase] up to where it waits for its turn to hash, and from there on. *)
Definition verify_begin (c : Ctx) : Op rstr :=
  check_backoff c ;;
  p ← get;
  match owner_passphrase_hash (state p) with Some h => mret h | None => fail NoPassphrase end.
Definition verify_end (c : Ctx) (passphrase h : rstr) : Op unit :=
  if (MAX_PASSWORD_LEN <? str_len passphrase) || negb (verify_off_thread c passphrase h) then note_failure c ;; fail WrongPassphrase
  else note_success.
Definition verify_passphrase (c : Ctx) (passphrase : rstr) : Op unit := h ← verify_begin c; verify_end c passphrase h.

Definition change_passphrase (c : Ctx) (current new : rstr) : Op unit :=
  verify_passphrase c current ;;
  if (length new <? MIN_PASSPHRASE_LEN)%nat || (MAX_PASSWORD_LEN <? str_len new) then fail PassphraseTooShort
  else
    h ← hash_off_thread c new;
    modify (fun p => set_state p (with_hash (state p) (Some h))) ;;
    save c.

Definition pair_with_passphrase (c : Ctx) (passphrase : rstr) (name : option rstr) (ua : rstr) : Op IssuedDevice :=
  verify_passphrase c passphrase ;;
  issued ← add_device c name ua;
  modify (fun p => set_state p (completed (state p))) ;;
  save c ;;
  close_setup_window ;;
  mret issued.

Definition pair_with_account (c : Ctx) (users : list WebUser) (user password : rstr) (name : option rstr) (ua : rstr) : Op IssuedDevice :=
  check_backoff c ;;
  if negb (kdf_runs c && credentials_are_valid users user password) then note_failure c ;; fail WrongPassphrase
  else
    note_success ;;
    issued ← add_device c name ua;
    modify (fun p => set_state p (completed
      (match owner_passphrase_hash (state p) with
       | None => with_hash (state p) (password_hash <$> find_user users user)
       | Some _ => state p
       end))) ;;
    save c ;;
    close_setup_window ;;
    mret issued.

(** *** Codes from a trusted browser *)

(** [format!("{:06}", n)]. *)
Definition dec_padded (width : nat) (n : Z) : rstr := replicate (width - length (dec n)) 48 ++ dec n.

Definition mint_code (c : Ctx) : Op rstr :=
  raw ← ask_random c 4;
  let code := dec_padded 6 (le_value raw mod 1000000) in
  modify (fun p => set_code p (Some (mkPairCode code (now c) 0))) ;;
  mret code.

Definition check_code (c : Ctx) (given : rstr) : Op unit :=
  p ← get;
  match pair_code p with
  | None => fail NoCode
  | Some pc =>
      if PAIR_CODE_TTL <=? Z.max 0 (now c - code_created pc) then modify (fun p => set_code p None) ;; fail NoCode
      else if negb (ct_eq (as_bytes (code pc)) (as_bytes given)) then
        let n := code_wrong pc + 1 in
        if MAX_CODE_ATTEMPTS <=? n then modify (fun p => set_code p None) ;; fail NoCode
        else modify (fun p => set_code p (Some (mkPairCode (code pc) (code_created pc) n))) ;; fail (WrongToken (MAX_CODE_ATTEMPTS - n))
      else modify (fun p => set_code p None)
  end.
Definition pair_with_code (c : Ctx) (typed : rstr) (name : option rstr) (ua : rstr) : Op IssuedDevice :=
  check_code c (filter (fun ch => is_ascii_digit ch = true) typed) ;;
  issued ← add_device c name ua;
  save c ;;
  mret issued.

(** *** Trusted devices *)

Definition alter_device (f : TrustedDevice -> TrustedDevice) (i : rstr) (ds : list TrustedDevice) : list TrustedDevice :=
  match list_find (fun d => id d = i) ds with Some (k, _) => alter f k ds | None => ds end.

Definition touch (c : Ctx) (i : rstr) : Op unit :=
  p ← get;
  let due := match last_seen_written p !! i with
             | Some at_ => negb (Z.max 0 (now c - at_) <? LAST_SEEN_INTERVAL)
             | None => true
             end in
  if due then
    modify (fun p => set_seen p (<[i := now c]> (last_seen_written p))) ;;
    modify (fun p => set_state p (with_devices (state p)
      (alter_device (fun d => mkDevice (id d) (dev_name d) (token_sha256 d) (created d) (wall c) (user_agent d)) i (devices (state p))))) ;;
    _ ← attempt (save c); mret tt
  else mret tt.

Definition find_device (ds : list TrustedDevice) (i : rstr) : option TrustedDevice := snd <$> list_find (fun d => id d = i) ds.

Definition authenticate (c : Ctx) (cookie_token : rstr) : Op (option TrustedDevice) :=
  if bool_decide (cookie_token = []) || (128 <? str_len cookie_token) then mret None
  else
    p ← get;
    let digest := sha256 (as_bytes cookie_token) in
    match find_device (devices (state p)) (hex (take 8 digest)) with
    | None => mret None
    | Some found =>
        if ct_eq (as_bytes (token_sha256 found)) (as_bytes (hex digest)) then touch c (id found) ;; mret (Some found) else mret None
    end.

Definition device_infos (p : Pairing) (current : option rstr) : list DeviceInfo :=
  map (fun d => mkDeviceInfo (id d) (dev_name d) (created d) (last_seen d) (user_agent d) (bool_decide (current = Some (id d))))
    (devices (state p)).

Definition rename_device (c : Ctx) (i name : rstr) : Op unit :=
  let name := trim name in
  if bool_decide (name = []) || (64 <? length name)%nat then fail NoSuchDevice
  else
    p ← get;
    match find_device (devices (state p)) i with
    | None => fail NoSuchDevice
    | Some _ =>
        modify (fun p => set_state p (with_devices (state p)
          (alter_device (fun d => mkDevice (id d) name (token_sha256 d) (created d) (last_seen d) (user_agent d)) i (devices (state p))))) ;;
        save c
    end.

Definition revoke_device (c : Ctx) (i : rstr) : Op unit :=
  p ← get;
  let kept := filter (fun d => id d <> i) (devices (state p)) in
  modify (fun p => set_state p (with_devices (state p) kept)) ;;
  if (length kept =? device_count p)%nat then fail NoSuchDevice
  else save c.
End operations.

(** ** Calls *)

(** What the handlers of [server.rs], the button and the spawned task call. *)
Inductive call :=
| Call_status | Call_open | Call_button | Call_fingerprint_done | Call_request_press
| Call_setup (tok passphrase : rstr) (name : option rstr) (ua : rstr)
| Call_press_setup (i passphrase : rstr) (name : option rstr) (ua : rstr)
| Call_passphrase (passphrase : rstr) (name : option rstr) (ua : rstr)
| Call_account (users : list WebUser) (user password : rstr) (name : option rstr) (ua : rstr)
| Call_code (typed : rstr) (name : option rstr) (ua : rstr)
| Call_verify_begin | Call_verify_end (passphrase h : rstr)
| Call_change (current new : rstr) | Call_mint
| Call_authenticate (tok : rstr) | Call_rename (i name : rstr) | Call_revoke (i : rstr).

Section calls.
Context {H : Hmac} {B : Base64} {HS : Sha256} (url_encode : list Z -> rstr)
  (to_toml : AuthState -> option (list Z)).

Definition ignore {A : Type} (m : M Pairing PairError A) : M Pairing PairError unit := _ ← m; mret tt.
Definition perform (c : Ctx) (a : call) : M Pairing PairError unit :=
  match a with
  | Call_status => ignore (setup_window c)
  | Call_open => ignore (open_setup_window c)
  | Call_button => button_pressed c
  | Call_fingerprint_done => fingerprint_done c
  | Call_request_press => ignore (request_press c)
  | Call_setup tok pw name ua => ignore (complete_setup url_encode to_toml c tok pw name ua)
  | Call_press_setup i pw name ua => ignore (complete_setup_by_press url_encode to_toml c i pw name ua)
  | Call_passphrase pw name ua => ignore (pair_with_passphrase url_encode to_toml c pw name ua)
  | Call_account users u pw name ua => ignore (pair_with_account url_encode to_toml c users u pw name ua)
  | Call_code typed name ua => ignore (pair_with_code url_encode to_toml c typed name ua)
  | Call_verify_begin => ignore (verify_begin c)
  | Call_verify_end pw h => verify_end c pw h
  | Call_change current new => change_passphrase to_toml c current new
  | Call_mint => ignore (mint_code c)
  | Call_authenticate tok => ignore (authenticate to_toml c tok)
  | Call_rename i name => rename_device to_toml c i name
  | Call_revoke i => revoke_device to_toml c i
  end.
Definition run (calls : list (Ctx * call)) (p : Pairing) : Pairing := fold_left (fun p '(c, a) => (perform c a p).2) calls p.

(** What a caller has to show for a browser to be trusted, in the state the call meets. *)
Definition proved (c : Ctx) (a : call) (p : Pairing) : Prop :=
  match a with
  | Call_setup tok _ _ _ => setup_complete (state p) = false /\ exists w, setup p = Some w /\
      now c - opened w < SETUP_WINDOW /\ as_bytes (normalize_token tok) = as_bytes (token w)
  | Call_press_setup i _ _ _ => setup_complete (state p) = false /\ exists r pressed, press p = Some r /\
      press_id r = i /\ approved r = Some pressed /\ now c - pressed < PRESS_WINDOW
  | Call_passphrase pw _ _ => exists h, owner_passphrase_hash (state p) = Some h /\ verify_password pw h = true /\
      wait_remaining (backoff p) (now c) = None
  | Call_account users u pw _ _ => credentials_are_valid users u pw = true /\ wait_remaining (backoff p) (now c) = None
  | Call_code typed _ _ => exists pc, pair_code p = Some pc /\ now c - code_created pc < PAIR_CODE_TTL /\
      as_bytes (code pc) = as_bytes (filter (fun ch => is_ascii_digit ch = true) typed)
  | _ => False
  end.

(** ** Who is trusted *)

Definition hashes (p : Pairing) : list rstr := map token_sha256 (devices (state p)).
Definition trusts {A : Type} (E : Pairing -> Prop) (m : M Pairing PairError A) : Prop :=
  forall p, (forall x, x ∈ hashes (m p).2 -> x ∈ hashes p) \/ E p.
Definition keeps_trust {A : Type} (m : M Pairing PairError A) : Prop := forall p x, x ∈ hashes (m p).2 -> x ∈ hashes p.

Lemma keep_trusts {A : Type} E (m : M Pairing PairError A) : keeps_trust m -> trusts E m.
Proof. intros Hm p. left. apply Hm. Qed.
Lemma keep_ret {A : Type} (a : A) : keeps_trust (mret a).
Proof. by intros p x. Qed.
Lemma keep_fail {A : Type} e : keeps_trust (A := A) (fail e).
Proof. by intros p x. Qed.
Lemma keep_get : keeps_trust get.
Proof. by intros p x. Qed.
Lemma keep_modify f : (forall p x, x ∈ hashes (f p) -> x ∈ hashes p) -> keeps_trust (modify f).
Proof. intros Hf p x. apply Hf. Qed.
Lemma keep_bind {A C : Type} (m : M Pairing PairError A) (k : A -> M Pairing PairError C) :
  keeps_trust m -> (forall a, keeps_trust (k a)) -> keeps_trust (m ≫= k).
Proof.
  intros Hm Hk p x. specialize (Hm p). unfold mbind, M_bind. destruct (m p) as [[a|e] p1]; cbn [snd] in *; [|by apply Hm].
  intros Hx. by apply Hm, (Hk a).
Qed.
Lemma keep_attempt {A : Type} (m : M Pairing PairError A) : keeps_trust m -> keeps_trust (attempt (F := PairError) m).
Proof. intros Hm p x. specialize (Hm p x). unfold attempt. by destruct (m p). Qed.
Lemma keep_save c : keeps_trust (save to_toml c).
Proof. intros p x. unfold save. destruct (file p); [|done]. destruct (to_toml _); [|done]. by destruct (saved c). Qed.
Lemma keep_setup_window c : keeps_trust (setup_window c).
Proof. intros p x. unfold setup_window. destruct (setup p) as [w|]; [|done]. by destruct (expired w (now c)). Qed.

(** A computation that checks first: if the check passes, its state is evidence. *)
Lemma trusts_check {A C : Type} (E : Pairing -> Prop) (m : M Pairing PairError A) (k : A -> M Pairing PairError C) :
  keeps_trust m -> (forall p a p', m p = (Ok a, p') -> E p) -> trusts E (m ≫= k).
Proof.
  intros Hm He p. unfold mbind, M_bind. specialize (Hm p). destruct (m p) as [[a|e] p1] eqn:Hp; [right; by eapply He|by left].
Qed.
(** A look at the state changes nothing. *)
Lemma trusts_get {C : Type} (E : Pairing -> Prop) (k : Pairing -> M Pairing PairError C) :
  (forall q, trusts (fun p => p = q -> E p) (k q)) -> trusts E (get ≫= k).
Proof. intros Hk p. destruct (Hk p p) as [Hl|Hr]; [by left|right; by apply Hr]. Qed.
Lemma trusts_ignore {A : Type} E (m : M Pairing PairError A) : trusts E m -> trusts E (ignore m).
Proof. intros Hm p. specialize (Hm p). unfold ignore, mbind, M_bind. by destruct (m p) as [[a|e] p1]. Qed.

Lemma alter_hashes f i ds : (forall d, token_sha256 (f d) = token_sha256 d) -> map token_sha256 (alter_device f i ds) = map token_sha256 ds.
Proof.
  intros Hf. unfold alter_device. destruct (list_find _ ds) as [[k d]|]; [|done].
  change (token_sha256 <$> alter f k ds = token_sha256 <$> ds). apply list_eq. intros j. rewrite !list_lookup_fmap. destruct (decide (j = k)) as [->|Hj].
  - rewrite list_lookup_alter_eq. destruct (ds !! k); [|done]. by apply (f_equal Some), Hf.
  - by rewrite list_lookup_alter_ne.
Qed.
Lemma filter_hashes (P : TrustedDevice -> Prop) `{!forall d, Decision (P d)} ds x :
  x ∈ map token_sha256 (filter P ds) -> x ∈ map token_sha256 ds.
Proof.
  change (x ∈ token_sha256 <$> filter P ds -> x ∈ token_sha256 <$> ds). rewrite !list_elem_of_fmap. intros (d & -> & [_ Hd]%list_elem_of_filter). by exists d.
Qed.

Lemma keep_random c n : keeps_trust (ask_random c n).
Proof. unfold ask_random. destruct (random c n); [apply keep_ret|apply keep_fail]. Qed.

Ltac keep_tac := repeat first
  [ apply keep_random | apply keep_ret | apply keep_fail | apply keep_get | apply keep_save | apply keep_setup_window
  | match goal with |- keeps_trust (match ?x with _ => _ end) => destruct x end
  | match goal with |- keeps_trust (attempt _) => apply keep_attempt end
  | apply keep_bind; [|intros ?]
  | apply keep_modify; intros ? ?; done ].

Lemma keep_open c : keeps_trust (open_setup_window c).
Proof. unfold open_setup_window, new_setup_token. keep_tac. Qed.
Lemma keep_check_token c tok : keeps_trust (check_setup_token c tok).
Proof. unfold check_setup_token. keep_tac. Qed.
Lemma keep_button c : keeps_trust (button_pressed c).
Proof.
  assert (Hu : keeps_trust (button_unasked c)).
  { unfold button_unasked, show_fingerprint, open_setup_window_silently. keep_tac; apply keep_open. }
  unfold button_pressed. keep_tac; exact Hu.
Qed.
Lemma keep_done c : keeps_trust (fingerprint_done c).
Proof. unfold fingerprint_done. keep_tac. Qed.
Lemma keep_request c : keeps_trust (request_press c).
Proof. unfold request_press. keep_tac. Qed.
Lemma keep_begin c : keeps_trust (verify_begin c).
Proof. unfold verify_begin, check_backoff. keep_tac. Qed.
Lemma keep_end c pw h : keeps_trust (verify_end c pw h).
Proof. unfold verify_end, note_failure, note_success. keep_tac. Qed.
Lemma keep_verify c pw : keeps_trust (verify_passphrase c pw).
Proof. apply keep_bind; [apply keep_begin|intros h; apply keep_end]. Qed.
Lemma keep_change c a b : keeps_trust (change_passphrase to_toml c a b).
Proof. unfold change_passphrase, hash_off_thread. apply keep_bind; [apply keep_verify|intros _]. keep_tac. Qed.
Lemma keep_mint c : keeps_trust (mint_code c).
Proof. unfold mint_code. keep_tac. Qed.
Lemma keep_code c given : keeps_trust (check_code c given).
Proof. unfold check_code. keep_tac. Qed.
Lemma keep_touch c i : keeps_trust (touch to_toml c i).
Proof.
  unfold touch. apply keep_bind; [apply keep_get|intros p]. destruct (match last_seen_written p !! i with _ => _ end); [|keep_tac].
  apply keep_bind; [keep_tac|intros _]. apply keep_bind; [|intros _; keep_tac]. apply keep_modify. intros q x.
  unfold hashes. cbn [state set_state with_devices devices]. by rewrite alter_hashes.
Qed.
Lemma keep_authenticate c tok : keeps_trust (authenticate to_toml c tok).
Proof.
  unfold authenticate. destruct (_ || _); [keep_tac|]. apply keep_bind; [keep_tac|intros p]. cbv zeta.
  destruct (find_device _ _) as [d|]; [|keep_tac]. destruct (ct_eq _ _); [|keep_tac]. apply keep_bind; [apply keep_touch|keep_tac].
Qed.
Lemma keep_rename c i n : keeps_trust (rename_device to_toml c i n).
Proof.
  unfold rename_device. destruct (_ || _); [keep_tac|]. apply keep_bind; [keep_tac|intros p]. destruct (find_device _ _); [|keep_tac].
  apply keep_bind; [|intros _; keep_tac]. apply keep_modify. intros q x. unfold hashes. cbn [state set_state with_devices devices].
  by rewrite alter_hashes.
Qed.
Lemma keep_revoke c i : keeps_trust (revoke_device to_toml c i).
Proof.
  intros p x. unfold revoke_device, get, modify, mbind, M_bind. destruct (_ =? _)%nat.
  - cbn [snd fail]. apply filter_hashes.
  - intros Hx%keep_save. revert Hx. apply filter_hashes.
Qed.

(** What the checks establish. *)
Lemma as_bytes_ct a b : ct_eq (as_bytes a) (as_bytes b) = true -> as_bytes a = as_bytes b.
Proof. rewrite ct_eq_spec. apply bool_decide_eq_true. Qed.

Lemma check_token_ok c tok p u p' : check_setup_token c tok p = (Ok u, p') ->
  p' = p /\ exists w, setup p = Some w /\ now c - opened w < SETUP_WINDOW /\ as_bytes (normalize_token tok) = as_bytes (token w).
Proof.
  unfold check_setup_token, get, mbind, M_bind. destruct (setup p) as [w|]; [|done].
  destruct (expired w (now c)) eqn:He; [done|]. destruct (ct_eq _ _) eqn:Hc.
  - intros [= _ <-]. split; [done|]. exists w. split_and!; [done| |by apply as_bytes_ct].
    unfold expired in He. apply Z.leb_gt in He. lia.
  - destruct (_ <=? _); done.
Qed.
Lemma verify_ok c pw p u p' : verify_passphrase c pw p = (Ok u, p') ->
  exists h, owner_passphrase_hash (state p) = Some h /\ verify_password pw h = true /\ wait_remaining (backoff p) (now c) = None.
Proof.
  unfold verify_passphrase, verify_begin, check_backoff, get, mbind, M_bind. destruct (wait_remaining _ _); [done|].
  cbn. destruct (owner_passphrase_hash (state p)) as [h|]; [|done]. unfold verify_end, verify_off_thread, mbind, M_bind.
  destruct (_ <? _); [done|]. cbn [orb]. destruct (kdf_runs c); cbn; [|done]. destruct (verify_password pw h) eqn:Hv; cbn; [|done].
  intros _. by exists h.
Qed.
Lemma code_ok c given p u p' : check_code c given p = (Ok u, p') ->
  exists pc, pair_code p = Some pc /\ now c - code_created pc < PAIR_CODE_TTL /\ as_bytes (code pc) = as_bytes given.
Proof.
  unfold check_code, get, mbind, M_bind. destruct (pair_code p) as [pc|]; [|done].
  destruct (Z.leb_spec PAIR_CODE_TTL (Z.max 0 (now c - code_created pc))); [done|].
  destruct (ct_eq _ _) eqn:Hc; cbn [negb]; [|by destruct (_ <=? _)].
  intros _. exists pc. split_and!; [done|lia|by apply as_bytes_ct].
Qed.
Lemma press_ok p c i : press_status p c i = Some true ->
  exists r pressed, press p = Some r /\ press_id r = i /\ approved r = Some pressed /\ now c - pressed < PRESS_WINDOW.
Proof.
  unfold press_status. destruct (press p) as [r|]; [|done]. case_bool_decide as Hi; cbn [negb]; [|done].
  destruct (Z.ltb_spec (Z.max 0 (now c - default (press_created r) (approved r))) PRESS_WINDOW); [|done].
  intros [= Ha%bool_decide_eq_true]. destruct Ha as [pressed Hp]. exists r, pressed. rewrite Hp in *. cbn in *. split_and!; [done|done|done|lia].
Qed.

Lemma trusts_perform c a : trusts (proved c a) (perform c a).
Proof.
  destruct a; cbn [perform];
    try (apply keep_trusts; unfold ignore; first
      [ exact (keep_button c) | exact (keep_done c) | apply keep_end | apply keep_change | apply keep_rename | apply keep_revoke
      | apply keep_bind; [|intros _; apply keep_ret]; first
        [apply keep_setup_window | apply keep_open | apply keep_request | apply keep_begin | apply keep_mint | apply keep_authenticate] ]);
    apply trusts_ignore.
  - apply trusts_get. intros q. destruct (setup_complete (state q)) eqn:Hc; [apply keep_trusts, keep_fail|].
    apply trusts_check; [apply keep_check_token|]. intros p u p' [_ Hw]%check_token_ok ->. by split.
  - apply trusts_get. intros q. destruct (setup_complete (state q)) eqn:Hc; [apply keep_trusts, keep_fail|].
    destruct (press_status q c i) as [[]|] eqn:Hp; try (apply keep_trusts, keep_fail).
    intros p. right. intros ->. split; [done|]. by apply press_ok.
  - apply trusts_check; [apply keep_verify|]. intros p u p'. apply verify_ok.
  - intros p. unfold pair_with_account, check_backoff, get, mbind, M_bind. destruct (wait_remaining _ _) eqn:Hw; [by left|]. cbn.
    destruct (kdf_runs c); cbn [andb negb]; [|by left]. destruct (credentials_are_valid _ _ _) eqn:Hv; cbn [negb]; [|by left]. by right.
  - apply trusts_check; [apply keep_code|]. intros p u p'. apply code_ok.
Qed.

End calls.

(** ** How fast the passphrase can be guessed *)

Section guessing.
Context {H : Hmac} {B : Base64}.

(** Attempts one after the other: when each that was compared and wrong was made, and whether one was right. *)
Fixpoint attempts (l : list (Ctx * rstr)) (p : Pairing) : list Z * bool :=
  match l with
  | [] => ([], false)
  | (c, pw) :: l =>
      match verify_passphrase c pw p with
      | (Ok _, p) => ((attempts l p).1, true)
      | (Err WrongPassphrase, p) => (now c :: (attempts l p).1, (attempts l p).2)
      | (Err _, p) => attempts l p
      end
  end.
Fixpoint in_order (t : Z) (l : list (Ctx * rstr)) : bool :=
  match l with [] => true | (c, _) :: l => (t <=? now c) && in_order (now c) l end.

Lemma verify_cases c pw p :
  match verify_passphrase c pw p with
  | (Ok _, p') => True
  | (Err WrongPassphrase, p') => wait_remaining (backoff p) (now c) = None /\ backoff p' = failed (backoff p) (now c)
  | (Err _, p') => backoff p' = backoff p
  end.
Proof.
  unfold verify_passphrase, verify_begin, check_backoff, get, mbind, M_bind. destruct (wait_remaining _ _) eqn:Hw; [done|].
  cbn. destruct (owner_passphrase_hash (state p)) as [h|]; [|done]. unfold verify_end, mret, M_ret, mbind, M_bind.
  by destruct ((MAX_PASSWORD_LEN <? str_len pw) || negb (verify_off_thread c pw h))%bool.
Qed.

Definition loss (f : Z) : Z := if f <=? 1 then 0 else if f =? 2 then 58 else if f =? 3 then 114 else if f =? 4 then 166
  else if f =? 5 then 210 else 238.

(** After [n + 1] wrong guesses, the first at [t0]: a minute for each further one, but for what the first
    ones of a run gain. *)
Definition paced (t0 : Z) (n : Z) (b : Backoff) : Prop :=
  exists last, last_failure b = Some last /\ 1 <= failures b < 2 ^ 32 /\ secs (60 * n - loss (failures b)) <= last - t0.

Lemma paced_step t0 n b t last : paced t0 n b -> last_failure b = Some last -> last <= t -> wait_remaining b t = None ->
  paced t0 (n + 1) (failed b t).
Proof.
  intros (last' & Hl' & Hf & Hp) Hl Hle Hw. rewrite Hl in Hl'. injection Hl' as <-.
  unfold wait_remaining in Hw. rewrite Hl in Hw. unfold failed. rewrite Hl.
  destruct (Z.leb_spec BACKOFF_MEMORY (Z.max 0 (t - last))) as [Hm|Hm]; exists t; cbn [last_failure failures]; (split; [done|]).
  - change (Z.min (0 + 1) (2 ^ 32 - 1)) with 1. split; [lia|]. change (loss 1) with 0. unfold BACKOFF_MEMORY, secs in *.
    assert (loss (failures b) <= 238) by (unfold loss; repeat case_match; lia). lia.
  - destruct (Z.leb_spec t (last + Z.min (secs (2 ^ Z.min (failures b) 6)) MAX_BACKOFF)) as [|Hgt]; [done|].
    split; [lia|]. unfold secs, MAX_BACKOFF, BACKOFF_MEMORY, secs in *.
    assert (Hs : failures b = 1 \/ failures b = 2 \/ failures b = 3 \/ failures b = 4 \/ failures b = 5 \/ 6 <= failures b) by lia.
    destruct Hs as [E|[E|[E|[E|[E|E]]]]].
    1-5: rewrite E in *.
    1: change (loss (Z.min (1 + 1) (2 ^ 32 - 1))) with 58; change (loss 1) with 0 in Hp; change (2 ^ Z.min 1 6) with 2 in Hgt; lia.
    1: change (loss (Z.min (2 + 1) (2 ^ 32 - 1))) with 114; change (loss 2) with 58 in Hp; change (2 ^ Z.min 2 6) with 4 in Hgt; lia.
    1: change (loss (Z.min (3 + 1) (2 ^ 32 - 1))) with 166; change (loss 3) with 114 in Hp; change (2 ^ Z.min 3 6) with 8 in Hgt; lia.
    1: change (loss (Z.min (4 + 1) (2 ^ 32 - 1))) with 210; change (loss 4) with 166 in Hp; change (2 ^ Z.min 4 6) with 16 in Hgt; lia.
    1: change (loss (Z.min (5 + 1) (2 ^ 32 - 1))) with 238; change (loss 5) with 210 in Hp; change (2 ^ Z.min 5 6) with 32 in Hgt; lia.
    assert (loss (Z.min (failures b + 1) (2 ^ 32 - 1)) = 238) as ->.
    { unfold loss. repeat case_match; rewrite ?Z.leb_le, ?Z.eqb_eq in *; lia. }
    assert (loss (failures b) = 238) by (unfold loss; repeat case_match; rewrite ?Z.leb_le, ?Z.eqb_eq in *; lia).
    replace (Z.min (failures b) 6) with 6 in Hgt by lia. change (2 ^ 6) with 64 in Hgt. lia.
Qed.

Lemma attempts_paced l p t0 n last : paced t0 n (backoff p) -> last_failure (backoff p) = Some last -> in_order last l = true ->
  (attempts l p).2 = false ->
  secs (60 * (n + Z.of_nat (length (attempts l p).1)) - 238) <= List.last (attempts l p).1 last - t0.
Proof.
  revert p n last. induction l as [|[c pw] l IH]; intros p n last Hp Hl Ho Hs; cbn [attempts] in *.
  { destruct Hp as (last' & Hl' & Hf & Hp). rewrite Hl in Hl'. injection Hl' as <-. cbn.
    assert (loss (failures (backoff p)) <= 238) by (unfold loss; repeat case_match; lia). unfold secs in *. lia. }
  apply andb_true_iff in Ho as [Hle%Z.leb_le Ho].
  assert (Hmono : forall t t' l, t <= t' -> in_order t' l = true -> in_order t l = true).
  { intros t t' [|[c' ?] l']; [done|]. cbn. rewrite !andb_true_iff, !Z.leb_le. intros ? [? ?]. split; [lia|done]. }
  pose proof (verify_cases c pw p) as Hc. destruct (verify_passphrase c pw p) as [[u|e] p']; [done|].
  assert (Hsame : backoff p' = backoff p -> (attempts l p').2 = false ->
    secs (60 * (n + Z.of_nat (length (attempts l p').1)) - 238) <= List.last (attempts l p').1 last - t0).
  { intros Hb Hs'. apply IH; rewrite ?Hb; try done. by eapply Hmono. }
  destruct e; try (by apply Hsame).
  destruct Hc as [Hw Hb]. cbn [fst snd length] in *. pose proof (paced_step _ _ _ _ _ Hp Hl Hle Hw) as Hp'.
  rewrite <- Hb in Hp'. assert (Hl' : last_failure (backoff p') = Some (now c)) by (rewrite Hb; done).
  specialize (IH p' (n + 1) (now c) Hp' Hl' Ho Hs). rewrite Nat2Z.inj_succ.
  replace (n + Z.succ (Z.of_nat (length (attempts l p').1))) with (n + 1 + Z.of_nat (length (attempts l p').1)) by lia.
  etrans; [exact IH|]. destruct (attempts l p').1 as [|x xs] eqn:E; cbn [List.last]; [lia|].
  destruct xs; [cbn; lia|]. rewrite (last_default _ (now c) last) by done. lia.
Qed.

(** Guessing the passphrase takes a minute a guess.  Of attempts made one after the other, none of them
    right, from when no wrong one is remembered: after the first that is compared and wrong, [n]
    further ones take at least 60 n - 238 seconds, however they are timed, quiet times that make
    the unit forget included. *)
Theorem guess_rate l p start :
  let ts := attempts l (set_backoff p Backoff_default) in
  if in_order start l && negb ts.2 then
    match ts.1 with
    | [] => True
    | first :: further => secs (60 * Z.of_nat (length further) - 238) <= List.last further first - first
    end
  else True.
Proof.
  cbv zeta. destruct (in_order start l && negb _) eqn:Hc; [|done]. apply andb_true_iff in Hc as [Ho Hs%negb_true_iff].
  assert (Hb : backoff (set_backoff p Backoff_default) = Backoff_default) by done. revert Hb Hs Ho.
  generalize (set_backoff p Backoff_default). clear p. revert start.
  induction l as [|[c pw] l IH]; intros start p Hb Hs Ho; cbn [attempts in_order] in *; [done|].
  apply andb_true_iff in Ho as [_ Ho]. pose proof (verify_cases c pw p) as Hc.
  destruct (verify_passphrase c pw p) as [[u|e] p']; [done|].
  destruct e; try (eapply IH; [by rewrite Hc|done|exact Ho]). destruct Hc as [_ Hb']. rewrite Hb in Hb'. cbn [fst snd] in *.
  pose proof (attempts_paced l p' (now c) 0 (now c)) as H1. rewrite Hb' in H1. apply H1; [|done|done|done].
  exists (now c). split; [done|]. split; [by vm_compute|]. change (failures (failed Backoff_default (now c))) with 1. change (loss 1) with 0. unfold secs. lia.
Qed.

(** Guesses in flight together: all begun before any is compared. *)
Fixpoint begin_all (c : Ctx) (guesses : list rstr) : M Pairing PairError (list (rstr * rstr)) :=
  match guesses with
  | [] => mret []
  | g :: guesses => h ← verify_begin c; rest ← begin_all c guesses; mret ((g, h) :: rest)
  end.
Fixpoint end_all (c : Ctx) (begun : list (rstr * rstr)) : M Pairing PairError (list (result PairError unit)) :=
  match begun with
  | [] => mret []
  | (g, h) :: begun => r ← attempt (verify_end c g h); rest ← end_all c begun; mret (r :: rest)
  end.

(** The delay does not slow guesses that are in flight together: when a passphrase is set and no delay runs, any
    number of them begun at once are all compared with the hash, none is refused for coming too soon. *)
Theorem guesses_together c guesses p :
  match owner_passphrase_hash (state p), wait_remaining (backoff p) (now c) with
  | Some h, None => exists p',
      (begun ← begin_all c guesses; end_all c begun) p =
      (Ok (map (fun g => if (MAX_PASSWORD_LEN <? str_len g) || negb (verify_off_thread c g h) then Err WrongPassphrase else Ok tt) guesses), p')
  | _, _ => True
  end.
Proof.
  destruct (owner_passphrase_hash (state p)) as [h|] eqn:Hh; [|done]. destruct (wait_remaining _ _) eqn:Hw; [done|].
  assert (Hb : verify_begin c p = (Ok h, p)).
  { unfold verify_begin, check_backoff, get, mbind, M_bind. rewrite Hw. cbn. by rewrite Hh. }
  assert (Hall : begin_all c guesses p = (Ok (map (fun g => (g, h)) guesses), p)).
  { induction guesses as [|g gs IH]; [done|]. cbn [begin_all map]. unfold mbind, M_bind. by rewrite Hb, IH. }
  unfold mbind at 1, M_bind at 1. rewrite Hall. clear. revert p. induction guesses as [|g gs IH]; intros p; [by exists p|].
  cbn [map end_all]. unfold mbind at 1, M_bind at 1, attempt.
  assert (He : verify_end c g h p = (if (MAX_PASSWORD_LEN <? str_len g) || negb (verify_off_thread c g h) then Err WrongPassphrase else Ok tt,
    (verify_end c g h p).2)) by (unfold verify_end; by destruct (_ || _)).
  rewrite He. destruct (IH (verify_end c g h p).2) as [p' Hp']. exists p'. unfold mbind at 1, M_bind at 1. by rewrite Hp'.
Qed.
End guessing.

(** ** Cookies *)

Section cookies.
Context {H : Hmac} {B : Base64} {HS : Sha256} (url_encode : list Z -> rstr) (to_toml : AuthState -> option (list Z)).
Abbreviation authenticate := (authenticate to_toml).

(** Where the cookie's record is looked for, and what it has to hold. *)
Definition cookie_id (tok : rstr) : rstr := hex (take 8 (sha256 (as_bytes tok))).
Definition cookie_hash (tok : rstr) : rstr := hex (sha256 (as_bytes tok)).

Lemma touch_ok c i p : (touch to_toml c i p).1 = Ok tt.
Proof.
  unfold touch, get, modify, mbind, M_bind. cbn [fst snd].
  destruct (match last_seen_written p !! i with Some at_ => negb (Z.max 0 (now c - at_) <? LAST_SEEN_INTERVAL) | None => true end); [|done].
  unfold attempt. by destruct (save to_toml c _) as [r q].
Qed.
Lemma authenticate_result c tok p : (authenticate c tok p).1 =
  Ok (if bool_decide (tok = []) || (128 <? str_len tok) then None
      else d ← find_device (devices (state p)) (cookie_id tok);
           if bool_decide (as_bytes (token_sha256 d) = as_bytes (cookie_hash tok)) then Some d else None).
Proof.
  unfold Pairing.authenticate. destruct (bool_decide (tok = []) || (128 <? str_len tok)); [done|].
  unfold get, mbind at 1, M_bind at 1. cbv zeta. unfold cookie_id, cookie_hash.
  destruct (find_device _ _) as [d|]; [|done]. rewrite ct_eq_spec. cbn [mbind option_bind].
  destruct (bool_decide (as_bytes (token_sha256 d) = _)); [|done].
  pose proof (touch_ok c (id d) p) as Ht. unfold mbind, M_bind. destruct (touch to_toml c (id d) p) as [r q]. cbn [fst] in Ht. by subst r.
Qed.

Lemma find_device_spec ds i :
  match find_device ds i with
  | Some d => d ∈ ds /\ id d = i
  | None => forall d, d ∈ ds -> id d <> i
  end.
Proof.
  unfold find_device. destruct (list_find _ ds) as [[k d]|] eqn:Hf; cbn.
  - apply list_find_Some in Hf as (Hk & Hi & _). split; [by apply list_elem_of_lookup_2 in Hk|done].
  - apply list_find_None in Hf. intros d Hd. by eapply Forall_forall in Hf.
Qed.
Lemma find_device_snoc ds d : (forall d', d' ∈ ds -> id d' <> id d) -> find_device (ds ++ [d]) (id d) = Some d.
Proof.
  intros Hn. unfold find_device. rewrite list_find_app_r; [|by apply list_find_None, Forall_forall].
  cbn. by rewrite decide_True.
Qed.

(** A cookie is worth its record, no more and no longer.  A browser is let in as a device exactly when
    its token is neither empty nor longer than 128 bytes and hashes to what the record found under
    the hash's first 16 digits holds; once a device was revoked, no cookie at all is let in as it,
    even when saving that failed; and the cookie that a pairing hands out is let in as the device it made, if no older record
    has the same short name. *)
Theorem cookie_spec c p :
  (forall tok d, (authenticate c tok p).1 = Ok (Some d) <->
     tok <> [] /\ str_len tok <= 128 /\ find_device (devices (state p)) (cookie_id tok) = Some d /\
     as_bytes (token_sha256 d) = as_bytes (cookie_hash tok)) /\
  (forall i c' tok d, (authenticate c' tok (revoke_device to_toml c i p).2).1 = Ok (Some d) -> id d <> i) /\
  (forall name ua, match add_device url_encode c name ua p with
     | (Ok issued, p') => forall c', cookie issued <> [] -> str_len (cookie issued) <= 128 ->
         (forall d, d ∈ devices (state p) -> id d <> issued_id issued) ->
         exists d, (authenticate c' (cookie issued) p').1 = Ok (Some d) /\ id d = issued_id issued /\ dev_name d = issued_name issued
     | (Err _, p') => p' = p
     end).
Proof.
  split_and!.
  - intros tok d. rewrite authenticate_result. destruct (bool_decide (tok = []) || (128 <? str_len tok)) eqn:Hl.
    + split; [done|]. apply orb_true_iff in Hl as [->%bool_decide_eq_true|Hl%Z.ltb_lt]; intros (? & ? & _); [done|lia].
    + apply orb_false_iff in Hl as [Hne%bool_decide_eq_false Hl%Z.ltb_ge].
      destruct (find_device _ _) as [d'|]; cbn [mbind option_bind]; [case_bool_decide|];
        (split; [intros [= ->]; by split_and!|intros (_ & _ & [= ->] & ?)]; done).
  - intros i c' tok d Ha. rewrite authenticate_result in Ha. destruct (_ || _); [done|].
    pose proof (find_device_spec (devices (state (revoke_device to_toml c i p).2)) (cookie_id tok)) as Hf.
    destruct (find_device _ _) as [d'|]; [|done]. cbn in Ha. case_bool_decide; [|done]. injection Ha as ->. destruct Hf as [Hd _].
    revert Hd. unfold revoke_device, get, modify, mbind, M_bind. cbn [fst snd].
    assert (Hs : forall q, devices (state (save to_toml c q).2) = devices (state q)).
    { intros q. unfold save. destruct (file q); [|done]. destruct (to_toml _); [|done]. by destruct (saved c). }
    destruct (_ =? _)%nat; cbn [fst snd fail]; rewrite ?Hs; cbn [state set_state with_devices devices]; by intros [? _]%list_elem_of_filter.
  - intros name ua. unfold add_device, get, mbind, M_bind. destruct (_ <=? _)%nat; [done|].
    unfold issue_token, ask_random, mbind, M_bind. destruct (random c 32) as [raw|]; [|done]. cbn.
    intros c' Hne Hl Hfresh. rewrite authenticate_result. rewrite bool_decide_eq_false_2 by done.
    rewrite (proj2 (Z.ltb_ge _ _) Hl). cbn [orb state set_state with_devices devices].
    set (d := mkDevice _ _ _ _ _ _). exists d. change (cookie_id (url_encode raw)) with (id d).
    rewrite find_device_snoc by done. cbn [mbind option_bind]. by rewrite bool_decide_eq_true_2.
Qed.
End cookies.

(** ** A first contact that cannot be saved *)

Section unsaved.
Context {H : Hmac} {B : Base64} {HS : Sha256} (url_encode : list Z -> rstr) (to_toml : AuthState -> option (list Z)).

Definition with_saved (b : bool) (c : Ctx) : Ctx := mkCtx (now c) (wall c) (random c) (salt c) (kdf_runs c) b.

(** When the setup fails only because the file cannot be written, the unit in memory is owned all the same, by a browser
    that never got its cookie: the error is returned, and from then on the setup answers that it is complete. *)
Theorem unsaved_setup_locks_out c tok pw name ua p :
  match file p, complete_setup url_encode to_toml (with_saved true c) tok pw name ua p with
  | Some f, (Ok _, _) =>
      let '(r, p') := complete_setup url_encode to_toml (with_saved false c) tok pw name ua p in
      r = Err Storage /\ file p' = Some f /\ setup_complete (state p') = true /\ device_count p' = S (device_count p) /\
      forall c' tok' pw' name' ua', complete_setup url_encode to_toml c' tok' pw' name' ua' p' = (Err AlreadyComplete, p')
  | _, _ => True
  end.
Proof.
  destruct (file p) as [f|] eqn:Hf; [|done].
  unfold complete_setup, get, mbind, M_bind. destruct (setup_complete (state p)) eqn:Hc; [done|].
  assert (Hck : check_setup_token (with_saved false c) tok p = check_setup_token (with_saved true c) tok p) by done.
  rewrite Hck. destruct (check_setup_token _ tok p) as [[u|e] p1] eqn:Ht; [|done]. apply check_token_ok in Ht as [-> _].
  unfold finish_setup. destruct (_ <? _)%nat; [done|]. destruct (_ <? _); [done|].
  unfold hash_off_thread. cbn [kdf_runs with_saved]. destruct (kdf_runs c); [|done].
  unfold get, mbind, M_bind, mret, M_ret. destruct (_ || _); [done|].
  assert (Ha : add_device url_encode (with_saved false c) name ua p = add_device url_encode (with_saved true c) name ua p) by done.
  rewrite Ha. destruct (add_device _ _ name ua p) as [[issued|e] p2] eqn:He; [|done].
  assert (H2 : file p2 = Some f /\ device_count p2 = S (device_count p)).
  { revert He. unfold add_device, get, issue_token, ask_random, modify, mbind, M_bind, mret, M_ret. destruct (_ <=? _)%nat; [done|].
    destruct (random _ 32); [|done]. intros [= _ <-]. split; [done|]. unfold device_count. cbn. rewrite length_app. cbn. lia. }
  destruct H2 as [Hf2 Hd2]. cbn [modify]. unfold modify. cbn beta iota. set (p3 := set_state p2 _).
  assert (Hf3 : file p3 = Some f) by done. unfold save. rewrite Hf3. destruct (to_toml (state p3)) as [text|]; [|done].
  cbn [saved with_saved]. cbn. split_and!; try done.
Qed.
End unsaved.
