(* ===== verification/StepUp.v ===== *)
(** * The second gate in front of the terminal ([daemon/src/stepup.rs], and its callers in [server.rs])

    A step-up begins with the owner's passphrase, puts a code on the unit's screen and is confirmed by
    that code or by a press of the button; it opens a window for one browser.  Times are nanoseconds
    of the monotonic clock; an operation reads it once.  [code] is what [new_code] drew, empty
    without randomness.  The screen is the banner and the log of what was put on it or taken off. *)

From S2P Require Import Prelude RustStr WebAuth Pairing.

Local Open Scope Z_scope.

Definition CODE_TTL : Z := secs 60.
Definition WINDOW : Z := secs (5 * 60).
Definition HARD_CAP : Z := secs (30 * 60).
Definition MAX_WRONG : Z := 3.
Definition BANNER : rstr := lit "TERMINAL ACTIVE".

Inductive StepUpError := NoPending | Expired | WrongCode (attempts_left : Z) | TooManyWrong | NotYours.

Record Pending := mkPending { device_id : rstr; p_code : rstr; started : Z; p_wrong : Z }.
Record Window := mkTermWindow { w_opened : Z; last_used : Z }.
Definition expires_at (w : Window) : Z := Z.min (last_used w + WINDOW) (w_opened w + HARD_CAP).

Inductive Screen := Screen_code (code : rstr) (until : Z) | Screen_clear.

(** [display] is whether there is one; [banner] until when the banner is up. *)
Record StepUp := mkStepUp {
  pending : gmap rstr Pending; windows : gmap rstr Window; display : bool; banner : option Z; screen : list Screen }.
Definition StepUp_new (display : bool) : StepUp := mkStepUp ∅ ∅ display None [].

(** [format!("{:04}", u32 % 10_000)], or the empty text. *)
Definition new_code (raw : option (list Z)) : rstr :=
  match raw with Some raw => dec_padded 4 (le_value raw mod 10000) | None => [] end.

Definition live_pending (now : Z) (m : gmap rstr Pending) : gmap rstr Pending :=
  filter (fun kp => Z.max 0 (now - started kp.2) < CODE_TTL) m.

(** [refresh_banner]. *)
Definition refresh_banner (now : Z) (s : StepUp) : StepUp :=
  if display s then
    let ws := filter (fun kw => now < expires_at kw.2) (windows s) in
    let longest := match map (fun kw => expires_at kw.2) (map_to_list ws) with
                   | [] => None
                   | t :: ts => Some (fold_left Z.max ts t)
                   end in
    mkStepUp (pending s) ws (display s) longest (screen s)
  else s.

Definition start (now : Z) (dev code : rstr) (s : StepUp) : result StepUpError Z * StepUp :=
  if bool_decide (code = []) then (Err Expired, s)
  else
    (Ok CODE_TTL,
     mkStepUp (<[dev := mkPending dev code now 0]> (live_pending now (pending s))) (windows s) (display s) (banner s)
       (if display s then screen s ++ [Screen_code code (now + CODE_TTL)] else screen s)).

(** [values().max_by_key(|p| p.started)]: the last of the newest, in the map's order. *)
Definition newest (m : gmap rstr Pending) : option rstr :=
  fst <$> fold_left (fun acc kp => match acc with
      | Some (_, t) => if t <=? started kp.2 then Some (device_id kp.2, started kp.2) else acc
      | None => Some (device_id kp.2, started kp.2)
      end) (map_to_list m) None.

(** [check] gives the error, and the pending request as it leaves it. *)
Definition take_pending_if (now : Z) (dev : option rstr) (check : Pending -> option StepUpError * Pending) (s : StepUp)
    : result StepUpError rstr * StepUp :=
  let m := live_pending now (pending s) in
  let with_pending m := mkStepUp m (windows s) (display s) (banner s) (screen s) in
  match (match dev with Some d => Some d | None => newest m end) with
  | None => (Err NoPending, with_pending m)
  | Some key =>
      match m !! key with
      | None => (Err NoPending, with_pending m)
      | Some p =>
          match check p with
          | (None, _) => (Ok key, with_pending (delete key m))
          | (Some TooManyWrong, _) => (Err TooManyWrong, with_pending (delete key m))
          | (Some e, p) => (Err e, with_pending (<[key := p]> m))
          end
      end
  end.

Definition open_window (now : Z) (dev : rstr) (s : StepUp) : StepUp :=
  refresh_banner now (mkStepUp (pending s) (<[dev := mkTermWindow now now]> (windows s)) (display s) (banner s)
    (if display s then screen s ++ [Screen_clear] else screen s)).

Definition check_code (typed : rstr) (p : Pending) : option StepUpError * Pending :=
  if ct_eq (as_bytes (p_code p)) (as_bytes typed) then (None, p)
  else
    let p := mkPending (device_id p) (p_code p) (started p) (p_wrong p + 1) in
    (Some (if MAX_WRONG <=? p_wrong p then TooManyWrong else WrongCode (MAX_WRONG - p_wrong p)), p).
Definition confirm (now : Z) (dev typed : rstr) (s : StepUp) : result StepUpError Z * StepUp :=
  match take_pending_if now (Some dev) (check_code (filter (fun ch => is_ascii_digit ch = true) typed)) s with
  | (Ok owner, s) => (Ok WINDOW, open_window now owner s)
  | (Err e, s) => (Err e, s)
  end.
Definition button_pressed (now : Z) (s : StepUp) : bool * StepUp :=
  match take_pending_if now None (fun p => (None, p)) s with
  | (Ok owner, s) => (true, open_window now owner s)
  | (Err _, s) => (false, s)
  end.

Definition with_windows (s : StepUp) (ws : gmap rstr Window) : StepUp := mkStepUp (pending s) ws (display s) (banner s) (screen s).

Definition active (now : Z) (dev : rstr) (s : StepUp) : bool * StepUp :=
  let live := match windows s !! dev with Some w => now <? expires_at w | None => false end in
  if negb live && bool_decide (is_Some (windows s !! dev))
  then (live, refresh_banner now (with_windows s (delete dev (windows s))))
  else (live, s).
Definition extend (now : Z) (dev : rstr) (s : StepUp) : StepUp :=
  refresh_banner now (match windows s !! dev with
                      | Some w => with_windows s (<[dev := mkTermWindow (w_opened w) now]> (windows s))
                      | None => s
                      end).
Definition remaining (now : Z) (dev : rstr) (s : StepUp) : option Z :=
  w ← windows s !! dev; if now <=? expires_at w then Some (expires_at w - now) else None.
Definition end_ (now : Z) (dev : rstr) (s : StepUp) : StepUp := refresh_banner now (with_windows s (delete dev (windows s))).

(** ** The handlers *)

Definition TERMINAL_MAX_COMMAND_LEN : Z := 8 * 1024.
(** The gates of [run_terminal_command]: whether the command is run. *)
Definition terminal (terminal_enabled : bool) (now : Z) (dev command : rstr) (s : StepUp) : bool * StepUp :=
  if negb terminal_enabled then (false, s)
  else
    match active now dev s with
    | (false, s) => (false, s)
    | (true, s) =>
        let s := extend now dev s in
        let command := trim command in
        (negb (bool_decide (command = [])) && (str_len command <=? TERMINAL_MAX_COMMAND_LEN), s)
    end.
(** The gate of [set_config] on switching ADB on. *)
Definition config_gate (turning_adb_on : bool) (now : Z) (dev : rstr) (s : StepUp) : bool * StepUp :=
  if turning_adb_on then active now dev s else (true, s).

(** ** Histories *)

Inductive event :=
| Ev_start (dev : rstr) (raw : option (list Z)) | Ev_confirm (dev typed : rstr) | Ev_button
| Ev_terminal (dev command : rstr) | Ev_config (dev : rstr) | Ev_status (dev : rstr) | Ev_end (dev : rstr).
Definition apply (s : StepUp) (te : Z * event) : StepUp :=
  let '(t, e) := te in
  match e with
  | Ev_start dev raw => (start t dev (new_code raw) s).2
  | Ev_confirm dev typed => (confirm t dev typed s).2
  | Ev_button => (button_pressed t s).2
  | Ev_terminal dev command => (terminal true t dev command s).2
  | Ev_config dev => (config_gate true t dev s).2
  | Ev_status dev => (active t dev s).2
  | Ev_end dev => end_ t dev s
  end.
Definition run (tr : list (Z * event)) (display : bool) : StepUp := fold_left apply tr (StepUp_new display).

(** What is known of a waiting code: its browser started it. *)
Definition waiting (tr : list (Z * event)) (dev : rstr) (p : Pending) : Prop :=
  device_id p = dev /\ 0 <= p_wrong p < MAX_WRONG /\ exists raw, (started p, Ev_start dev raw) ∈ tr /\ p_code p = new_code raw /\ p_code p <> [].
(** An event that proves that whoever uses [dev] sees the unit, or holds it. *)
Definition proof_at (pre : list (Z * event)) (t : Z) (e : event) (dev : rstr) : Prop :=
  exists ts raw, (ts, Ev_start dev raw) ∈ pre /\ t - ts < CODE_TTL /\ new_code raw <> [] /\
    (e = Ev_button \/ exists typed, e = Ev_confirm dev typed /\
       as_bytes (new_code raw) = as_bytes (filter (fun ch => is_ascii_digit ch = true) typed)).
(** A window of [dev]: opened by a proof, used since by its commands, not ended. *)
Definition opened_by (tr : list (Z * event)) (dev : rstr) (w : Window) : Prop :=
  exists pre e post, tr = pre ++ (w_opened w, e) :: post /\ proof_at pre (w_opened w) e dev /\
    (last_used w = w_opened w \/ exists command, (last_used w, Ev_terminal dev command) ∈ post) /\
    Forall (fun te => te.2 <> Ev_end dev) post.

Definition history_ok (tr : list (Z * event)) (s : StepUp) : Prop :=
  (forall dev p, pending s !! dev = Some p -> waiting tr dev p) /\
  (forall dev w, windows s !! dev = Some w -> opened_by tr dev w).

Lemma waiting_snoc tr te dev p : waiting tr dev p -> waiting (tr ++ [te]) dev p.
Proof. intros (H1 & H2 & raw & H3 & H4). split; [done|]. split; [done|]. exists raw. split; [|done]. apply elem_of_app. by left. Qed.
Lemma opened_snoc tr t e dev w : opened_by tr dev w -> e <> Ev_end dev -> opened_by (tr ++ [(t, e)]) dev w.
Proof.
  intros (pre & e' & post & -> & Hp & Hl & Hf) He. exists pre, e', (post ++ [(t, e)]). rewrite <- app_assoc. split_and!; [done|done| |].
  - destruct Hl as [Hl|[c Hc]]; [by left|]. right. exists c. apply elem_of_app. by left.
  - apply Forall_app. split; [done|]. by constructor.
Qed.

Lemma live_lookup now m dev p : live_pending now m !! dev = Some p -> m !! dev = Some p /\ now - started p < CODE_TTL.
Proof. intros [H1 H2]%map_lookup_filter_Some. cbn in H2. split; [done|]. lia. Qed.
Lemma refresh_windows now s dev w : windows (refresh_banner now s) !! dev = Some w -> windows s !! dev = Some w.
Proof. unfold refresh_banner. destruct (display s); [|done]. by intros [? _]%map_lookup_filter_Some. Qed.
Lemma refresh_pending now s : pending (refresh_banner now s) = pending s.
Proof. unfold refresh_banner. by destruct (display s). Qed.

(** The newest request is one of them. *)
Lemma newest_in m dev : newest m = Some dev -> exists k p, m !! k = Some p /\ device_id p = dev.
Proof.
  unfold newest. set (f := fun acc kp => _).
  assert (Hg : forall l acc, (forall d t, acc = Some (d, t) -> exists k p, m !! k = Some p /\ device_id p = d) ->
    (forall k p, (k, p) ∈ l -> m !! k = Some p) ->
    forall d t, fold_left f l acc = Some (d, t) -> exists k p, m !! k = Some p /\ device_id p = d).
  { induction l as [|[k p] l IH]; intros acc Ha Hl d t; cbn [fold_left]; [by apply Ha|]. apply IH.
    - intros d' t'. subst f. cbn. assert (Hk : m !! k = Some p) by (apply Hl; constructor).
      destruct acc as [[d0 t0]|]; [destruct (t0 <=? started p)|]; first [intros [= <- _]; by exists k, p | by apply Ha].
    - intros k' p' Hin. apply Hl. by constructor. }
  destruct (fold_left f _ None) as [[d t]|] eqn:Hf; [|done]. intros [= <-]. eapply Hg; [| |exact Hf]; [done|].
  intros k p Hin. by apply elem_of_map_to_list.
Qed.

(** Taking a request: what is left was there, and a success is one that passed the check in time. *)
Lemma take_spec now dev check s tr : (forall k p, pending s !! k = Some p -> waiting tr k p) ->
  (forall p e p', check p = (Some e, p') -> p' = mkPending (device_id p) (p_code p) (started p) (p_wrong p') /\
     (e <> TooManyWrong -> 0 <= p_wrong p < MAX_WRONG -> 0 <= p_wrong p' < MAX_WRONG)) ->
  let '(r, s') := take_pending_if now dev check s in
  windows s' = windows s /\ display s' = display s /\ banner s' = banner s /\
  (forall k p, pending s' !! k = Some p -> waiting tr k p) /\
  (forall k, r = Ok k -> exists p p', pending s !! k = Some p /\ now - started p < CODE_TTL /\ check p = (None, p') /\ (forall d, dev = Some d -> k = d)).
Proof.
  intros Hw Hc. unfold take_pending_if. set (m := live_pending now (pending s)).
  assert (Hm : forall k p, m !! k = Some p -> waiting tr k p) by (intros k p [? _]%live_lookup; by apply Hw).
  assert (Hkey : match dev with Some d => Some d | None => newest m end = match dev with Some d => Some d | None => newest m end) by done.
  destruct (match dev with Some d => Some d | None => newest m end) as [key|] eqn:Hk; [|by split_and!].
  destruct (m !! key) as [p|] eqn:Hp; [|by split_and!].
  destruct (check p) as [[e|] p'] eqn:Hcp.
  - destruct (Hc _ _ _ Hcp) as [Hp' Hn].
    assert (Hins : e <> TooManyWrong -> forall k q, <[key:=p']> m !! k = Some q -> waiting tr k q).
    { intros He k q Hq. destruct (decide (key = k)) as [<-|]; [|rewrite lookup_insert_ne in Hq by done; by apply Hm].
      rewrite lookup_insert_eq in Hq. injection Hq as <-. destruct (Hm _ _ Hp) as (H1 & H2 & raw & H3 & H4 & H5).
      specialize (Hn He H2). rewrite Hp'. split_and!; [done|apply Hn|apply Hn|]. exists raw. by cbn. }
    destruct e; split_and!; try done; try (by apply Hins); intros k q Hq; cbn in Hq; apply lookup_delete_Some in Hq as [_ Hq]; by apply Hm.
  - split_and!; [done|done|done| |].
    + intros k q Hq. cbn in Hq. apply lookup_delete_Some in Hq as [_ Hq]. by apply Hm.
    + intros k [= <-]. apply live_lookup in Hp as [Hp Ht]. exists p, p'. split_and!; [done|done|done|]. intros d ->. by injection Hk as ->.
Qed.

Lemma check_code_step typed p e p' : check_code typed p = (Some e, p') ->
  p' = mkPending (device_id p) (p_code p) (started p) (p_wrong p') /\
  (e <> TooManyWrong -> 0 <= p_wrong p < MAX_WRONG -> 0 <= p_wrong p' < MAX_WRONG).
Proof.
  unfold check_code. destruct (ct_eq _ _); [done|]. intros [= <- <-]. cbn. split; [done|].
  destruct (Z.leb_spec MAX_WRONG (p_wrong p + 1)); [done|]. lia.
Qed.

Lemma opened_window tr t e now' dev s s' : history_ok tr s -> (forall d, e <> Ev_end d) -> 
  windows s' = windows s -> (forall k p, pending s' !! k = Some p -> waiting tr k p) ->
  now' = t -> proof_at tr t e dev -> history_ok (tr ++ [(t, e)]) (open_window now' dev s').
Proof.
  intros [_ Hw] He Hws Hp -> Hproof. split.
  - intros k p. unfold open_window. rewrite refresh_pending. intros Hk%Hp. by apply waiting_snoc.
  - intros k w Hk%refresh_windows. cbn in Hk. destruct (decide (dev = k)) as [<-|Hne].
    + rewrite lookup_insert_eq in Hk. injection Hk as <-. exists tr, e, []. split_and!; [done|done|by left|constructor].
    + rewrite lookup_insert_ne, Hws in Hk by done. apply opened_snoc; [by apply Hw|done].
Qed.

(** Windows that were there, or fewer of them. *)
Lemma fewer_windows tr t e s s' : history_ok tr s -> (forall d, e <> Ev_end d) -> 
  (forall k w, windows s' !! k = Some w -> windows s !! k = Some w) ->
  (forall k p, pending s' !! k = Some p -> waiting (tr ++ [(t, e)]) k p) -> history_ok (tr ++ [(t, e)]) s'.
Proof. intros [_ Hw] He Hws Hp. split; [done|]. intros k w Hk%Hws. apply opened_snoc; [by apply Hw|done]. Qed.

Lemma active_windows now dev s k w : windows (active now dev s).2 !! k = Some w -> windows s !! k = Some w.
Proof.
  unfold active. destruct (_ && _); [|done]. cbn [snd]. intros H. apply (refresh_windows now (with_windows s (delete dev (windows s)))) in H. cbn in H. by apply lookup_delete_Some in H as [_ H].
Qed.
Lemma active_pending now dev s : pending (active now dev s).2 = pending s.
Proof. unfold active. destruct (_ && _); [|done]. cbn [snd]. by rewrite refresh_pending. Qed.
Lemma active_true now dev s : (active now dev s).1 = true <-> exists w, windows s !! dev = Some w /\ now < expires_at w.
Proof.
  assert (He : (active now dev s).1 = match windows s !! dev with Some w => now <? expires_at w | None => false end).
  { unfold active. by destruct (negb _ && _). }
  rewrite He. destruct (windows s !! dev) as [w|]; [|split; [done|by intros (? & ? & _)]].
  rewrite Z.ltb_lt. split; [by exists w|]. by intros (? & [= <-] & ?).
Qed.
Lemma active_true_same now dev s s' : active now dev s = (true, s') -> s' = s.
Proof. unfold active. destruct (match windows s !! dev with Some w => now <? expires_at w | None => false end); cbn [negb andb]; [by intros [= <-]|]. by case_match. Qed.

Lemma history_step tr te s : history_ok tr s -> history_ok (tr ++ [te]) (apply s te).
Proof.
  destruct te as [t e]. intros Hh. pose proof Hh as [Hp Hw].
  assert (Hps : forall k p, pending s !! k = Some p -> waiting (tr ++ [(t, e)]) k p) by (intros k p Hk; by apply waiting_snoc, Hp).
  destruct e as [dev raw|dev typed| |dev command|dev|dev|dev]; cbn [apply].
  - unfold start. case_bool_decide as Hcode; [by apply (fewer_windows tr t _ s)|]. apply (fewer_windows tr t _ s); [done..|]. cbn.
    intros k p. destruct (decide (dev = k)) as [<-|Hne].
    + rewrite lookup_insert_eq. intros [= <-]. split; [done|]. cbn. split; [unfold MAX_WRONG; lia|]. exists raw.
      split; [apply elem_of_app; right; constructor|done].
    + rewrite lookup_insert_ne by done. intros [? _]%live_lookup. by apply Hps.
  - unfold confirm. set (given := filter _ typed).
    pose proof (take_spec t (Some dev) (check_code given) s tr Hp (check_code_step given)) as Ht.
    destruct (take_pending_if _ _ _ s) as [[owner|err] s1]; destruct Ht as (Hws & _ & _ & Hp1 & Hok); cbn [snd].
    + destruct (Hok _ eq_refl) as (p & p' & Hk & Htime & Hcheck & Hd). specialize (Hd dev eq_refl). subst owner.
      apply (opened_window tr t _ t dev s s1); try done. destruct (Hp _ _ Hk) as (_ & _ & raw & Hraw & Hcode & Hne).
      exists (started p), raw. split_and!; [done|done|by rewrite <- Hcode|]. right. exists typed. split; [done|]. rewrite <- Hcode.
      unfold check_code in Hcheck. rewrite ct_eq_spec in Hcheck. by case_bool_decide.
    + apply (fewer_windows tr t _ s); [done|done|by rewrite Hws|]. intros k p Hk. by apply waiting_snoc, Hp1.
  - unfold button_pressed.
    pose proof (take_spec t None (fun p => (None, p)) s tr Hp) as Ht. specialize (Ht ltac:(done)).
    destruct (take_pending_if _ _ _ s) as [[owner|err] s1]; destruct Ht as (Hws & _ & _ & Hp1 & Hok); cbn [snd].
    + destruct (Hok _ eq_refl) as (p & p' & Hk & Htime & Hcheck & _).
      apply (opened_window tr t _ t owner s s1); try done. destruct (Hp _ _ Hk) as (Hd & _ & raw & Hraw & Hcode & Hne).
      exists (started p), raw. split_and!; [done|done|by rewrite <- Hcode|by left].
    + apply (fewer_windows tr t _ s); [done|done|by rewrite Hws|]. intros k p Hk. by apply waiting_snoc, Hp1.
  - unfold terminal. cbn [negb]. destruct (active t dev s) as [[] s1] eqn:Ha; cbn [snd].
    + apply active_true_same in Ha. subst s1. unfold extend.
      assert (Hw' : forall k w, windows (refresh_banner t (match windows s !! dev with
          Some w => with_windows s (<[dev:=mkTermWindow (w_opened w) t]> (windows s)) | None => s end)) !! k = Some w ->
        opened_by (tr ++ [(t, Ev_terminal dev command)]) k w).
      { intros k w Hk%refresh_windows. destruct (windows s !! dev) as [w0|] eqn:H0; [|by apply opened_snoc; [apply Hw|]].
        cbn in Hk. destruct (decide (dev = k)) as [<-|Hne]; [|rewrite lookup_insert_ne in Hk by done; by apply opened_snoc; [apply Hw|]].
        rewrite lookup_insert_eq in Hk. injection Hk as <-. destruct (Hw _ _ H0) as (pre & e' & post & -> & H1 & _ & H3).
        exists pre, e', (post ++ [(t, Ev_terminal dev command)]). cbn [w_opened last_used]. split_and!; [by rewrite <- app_assoc|done| |].
        - right. exists command. apply elem_of_app. right. constructor.
        - apply Forall_app. split; [done|]. by constructor. }
      split; [|exact Hw']. intros k p. rewrite refresh_pending. destruct (windows s !! dev); apply Hps.
    + replace s1 with (active t dev s).2 by (by rewrite Ha). apply (fewer_windows tr t _ s); [done|done|apply active_windows|]. by rewrite active_pending.
  - apply (fewer_windows tr t _ s); [done|done|apply active_windows|]. by rewrite active_pending.
  - apply (fewer_windows tr t _ s); [done|done|apply active_windows|]. by rewrite active_pending.
  - unfold end_. split.
    + intros k p. rewrite refresh_pending. apply Hps.
    + intros k w Hk%refresh_windows. cbn in Hk. apply lookup_delete_Some in Hk as [Hne Hk]. apply opened_snoc; [by apply Hw|congruence].
Qed.

Lemma history_run tr b : history_ok tr (run tr b).
Proof.
  induction tr as [|te tr IH] using rev_ind; [by split; intros k x; cbn; rewrite lookup_empty|].
  unfold run in *. rewrite fold_left_app. by apply history_step.
Qed.

(** Three wrong codes end an attempt: a waiting code has always fewer than three against it. *)
Lemma wrong_bounded tr b k p : pending (run tr b) !! k = Some p -> 0 <= p_wrong p < MAX_WRONG.
Proof. intros Hp. by apply (history_run tr b) in Hp as (_ & ? & _). Qed.

(** C34: a root command is only run for somebody at the unit.  After any events, a command is run, or ADB is
    switched on, for a browser only if less than thirty minutes ago that browser's step-up, begun by
    itself within the minute before, was confirmed by its code or by the button; the browser did not
    end it since; and less than five minutes ago it was confirmed or a command was run in it. *)
Theorem terminal_needs_stepup tr display enabled now dev command :
  let s := run tr display in
  if (terminal enabled now dev command s).1 || (config_gate true now dev s).1 then
    exists pre t e post last, tr = pre ++ (t, e) :: post /\ proof_at pre t e dev /\ now - t < HARD_CAP /\
      now - last < WINDOW /\ (last = t \/ exists command, (last, Ev_terminal dev command) ∈ post) /\
      Forall (fun te => te.2 <> Ev_end dev) post
  else True.
Proof.
  cbv zeta. destruct ((terminal _ _ _ _ _).1 || (config_gate _ _ _ _).1) eqn:Hor; [|done].
  assert (Ha : (active now dev (run tr display)).1 = true).
  { apply orb_true_iff in Hor as [Ht|Hg]; [|exact Hg]. unfold terminal in Ht. destruct (negb enabled); [done|].
    by destruct (active now dev (run tr display)) as [[] s1]. }
  apply active_true in Ha as (w & Hw & Hlt). apply (history_run tr display) in Hw as (pre & e & post & -> & Hp & Hl & Hf).
  exists pre, (w_opened w), e, post, (last_used w). unfold expires_at in Hlt. split_and!; [done|done|lia|lia|done|done].
Qed.

(** ** The banner *)

Definition banner_ok (s : StepUp) : Prop :=
  display s = true -> forall dev w, windows s !! dev = Some w -> exists u, banner s = Some u /\ expires_at w <= u.

Lemma fold_max_le l t x : x ∈ t :: l -> x <= fold_left Z.max l t.
Proof.
  assert (Hge : forall l t, t <= fold_left Z.max l t).
  { clear. induction l as [|y l IH]; intros t; cbn [fold_left]; [lia|]. specialize (IH (Z.max t y)). lia. }
  revert t. induction l as [|y l IH]; intros t; cbn [fold_left].
  - intros ->%list_elem_of_singleton. lia.
  - intros [->|[->|Hx]%elem_of_cons]%elem_of_cons.
    + pose proof (Hge l (Z.max t y)). lia.
    + pose proof (Hge l (Z.max t y)). lia.
    + apply IH. by constructor.
Qed.
Lemma refresh_banner_ok now s : banner_ok (refresh_banner now s).
Proof.
  intros Hd dev w. unfold refresh_banner in *. destruct (display s) eqn:Hs; [|by rewrite Hs in Hd]. cbn [windows banner].
  intros Hw. set (ws := filter _ (windows s)) in *.
  assert (Hin : expires_at w ∈ map (fun kw : rstr * Window => expires_at kw.2) (map_to_list ws)).
  { change (expires_at w ∈ (fun kw : rstr * Window => expires_at kw.2) <$> map_to_list ws). apply list_elem_of_fmap. exists (dev, w). split; [done|]. by apply elem_of_map_to_list. }
  destruct (map _ _) as [|t ts]; [by apply not_elem_of_nil in Hin|]. eexists. split; [done|]. by apply fold_max_le.
Qed.
Lemma banner_same s s' : windows s' = windows s -> display s' = display s -> banner s' = banner s -> banner_ok s -> banner_ok s'.
Proof. unfold banner_ok. by intros -> -> ->. Qed.
Lemma banner_step te s : banner_ok s -> banner_ok (apply s te).
Proof.
  intros Hb. assert (Hact : forall now dev, banner_ok (active now dev s).2).
  { intros now dev. unfold active. destruct (_ && _); [apply refresh_banner_ok|done]. }
  assert (Htake : forall now dev check, let s' := (take_pending_if now dev check s).2 in
    windows s' = windows s /\ display s' = display s /\ banner s' = banner s).
  { intros now dev check. unfold take_pending_if. cbv zeta. repeat case_match; done. }
  destruct te as [t [dev raw|dev typed| |dev command|dev|dev|dev]]; cbn [apply].
  - unfold start. case_bool_decide; [done|]. exact Hb.
  - unfold confirm. pose proof (Htake t (Some dev) (check_code (filter (fun ch => is_ascii_digit ch = true) typed))) as Ht.
    destruct (take_pending_if _ _ _ _) as [[owner|err] s1]; [apply refresh_banner_ok|]. destruct Ht as (H1 & H2 & H3). by apply (banner_same s).
  - unfold button_pressed. pose proof (Htake t None (fun p => (None, p))) as Ht.
    destruct (take_pending_if _ _ _ _) as [[owner|err] s1]; [apply refresh_banner_ok|]. destruct Ht as (H1 & H2 & H3). by apply (banner_same s).
  - unfold terminal. cbn [negb]. specialize (Hact t dev). destruct (active t dev s) as [[] s1]; [apply refresh_banner_ok|exact Hact].
  - apply Hact.
  - apply Hact.
  - apply refresh_banner_ok.
Qed.

Lemma refresh_display now s : display (refresh_banner now s) = display s.
Proof. unfold refresh_banner. by destruct (display s) eqn:Hd. Qed.
Lemma display_step te s : display (apply s te) = display s.
Proof.
  assert (Hact : forall now dev, display (active now dev s).2 = display s).
  { intros now dev. unfold active. destruct (_ && _); [|done]. cbn [snd]. by rewrite refresh_display. }
  assert (Htake : forall now dev check, display (take_pending_if now dev check s).2 = display s).
  { intros now dev check. unfold take_pending_if. cbv zeta. repeat case_match; done. }
  destruct te as [t [dev raw|dev typed| |dev command|dev|dev|dev]]; cbn [apply].
  - unfold start. by case_bool_decide.
  - unfold confirm. pose proof (Htake t (Some dev) (check_code (filter (fun ch => is_ascii_digit ch = true) typed))) as Ht.
    destruct (take_pending_if _ _ _ _) as [[owner|err] s1]; [|exact Ht]. cbn [snd]. unfold open_window. by rewrite refresh_display.
  - unfold button_pressed. pose proof (Htake t None (fun p => (None, p))) as Ht.
    destruct (take_pending_if _ _ _ _) as [[owner|err] s1]; [|exact Ht]. cbn [snd]. unfold open_window. by rewrite refresh_display.
  - unfold terminal. cbn [negb]. specialize (Hact t dev). destruct (active t dev s) as [[] s1]; [|exact Hact]. cbn [snd] in *.
    unfold extend. rewrite refresh_display. by destruct (windows s1 !! dev).
  - apply Hact.
  - apply Hact.
  - unfold end_. by rewrite refresh_display.
Qed.

(** An open terminal is shown.  On a unit with a screen, after any events, as long as a browser's window
    is open the banner is up, and stays up until the window closes. *)
Theorem open_terminal_is_shown tr now dev :
  let s := run tr true in
  match windows s !! dev with
  | Some w => exists until, banner s = Some until /\ expires_at w <= until /\ ((active now dev s).1 = true -> now < until)
  | None => (active now dev s).1 = false
  end.
Proof.
  cbv zeta. set (s := run tr true).
  assert (Hs : banner_ok s /\ display s = true).
  { subst s. unfold run. assert (Hg : forall l s0, banner_ok s0 -> display s0 = true -> banner_ok (fold_left apply l s0) /\ display (fold_left apply l s0) = true).
    { induction l as [|te l IH]; intros s0 Hb Hd; [done|]. cbn [fold_left]. apply IH; [by apply banner_step|by rewrite display_step]. }
    apply Hg; [|done]. intros _ k w. cbn. by rewrite lookup_empty. }
  destruct Hs as [Hb Hd]. destruct (windows s !! dev) as [w|] eqn:Hw.
  - destruct (Hb Hd dev w Hw) as (u & Hu & Hle). exists u. split_and!; [done|done|]. intros (w' & Hw' & Hlt)%active_true.
    rewrite Hw in Hw'. injection Hw' as <-. lia.
  - destruct (active now dev s).1 eqn:Ha; [|done]. apply active_true in Ha as (w & Hw' & _). congruence.
Qed.
