(* ===== verification/Access.v ===== *)
(** * Requests from the listener to the handler ([web_auth.rs], [main.rs], [server.rs])

    What wraps every route: the redirect to TLS, the refusal of cross-site requests and
    [require_auth], in the order [run_server] puts them; the routes that touch pairing, the terminal's
    step-up and the accounts, and their handlers.  The state is the [Pairing], the [StepUp] and the live
    accounts together; a request is handled as one step (the interleavings within one are in [Pairing]).

    A JSON body is its text members by name, and for the configuration what it says of ADB: an
    extractor that fails leaves everything as it was. *)

From S2P Require Import Prelude RustStr Filesystem WebAuth Pairing StepUp.

Local Open Scope Z_scope.

(** ** Data *)

Record Body := mkBody { text_field : rstr -> option rstr; config_adb : option (option bool) }.
Record Request := mkRequest {
  method : Method; path : rstr; path_and_query : rstr; listener : option ListenerKind;
  cookie_header : option rstr; authorization : option rstr; sec_fetch_site : option rstr; origin : option rstr;
  host : option rstr; rq_user_agent : option rstr; body : Body }.

(** The configuration the daemon started with, and whether TLS is up. *)
Record Settings := mkSettings {
  tls_up : bool; gps_api_open : bool; gps_mode_api : bool; terminal_enabled : bool; adb_enabled : option bool }.

Record World := mkWorld { w_pairing : Pairing; w_stepup : StepUp; w_users : list WebUser }.
Definition set_pairing (p : Pairing) (w : World) : World := mkWorld p (w_stepup w) (w_users w).
Definition set_stepup (s : StepUp) (w : World) : World := mkWorld (w_pairing w) s (w_users w).
Definition set_users (us : list WebUser) (w : World) : World := mkWorld (w_pairing w) (w_stepup w) us.

(** How a request ends: let through, as which trusted device if as one; or what it is told. *)
Inductive Passage :=
| Passed (device : option rstr) | Redirected (target : rstr) | Cross_site | Challenged | Not_paired | Sent_to_pair.

(** A handler that was let through: the calls on pairing, the step-up, the terminal, the
    configuration and the accounts. *)
Inductive Handler :=
| H_pairing (a : call) | H_stepup_start (passphrase : rstr) | H_stepup_confirm (typed : rstr) | H_stepup_status | H_stepup_end
| H_terminal (command : rstr) | H_set_config (adb : option bool) | H_set_user (name password : rstr) | H_delete_user (name : rstr)
| H_other.

(** What the handlers rely on: the cookie's base64, [auth.toml]'s encoding, the text of octets, a decoded
    path segment; addresses, and the unit's own; the configuration. *)
Class Env := {
  url_encode : list Z -> rstr; to_toml : AuthState -> option (list Z); from_utf8 : list Z -> option rstr;
  path_param : rstr -> option rstr; Ip : Type; Ip_eq_dec :: EqDecision Ip; parse_ip : rstr -> option Ip; ip_text : Ip -> rstr;
  is_loopback : Ip -> bool; own_addresses : list Ip; sta_ip : option rstr; front_door_alias : option Ip; tls_port : Z;
  settings : Settings }.

Section access.
Context {H : Hmac} {B : Base64} {HS : Sha256} {E : Env}.

(** ** The middleware *)

Definition kind_of (r : Request) : ListenerKind := default Plain (listener r).
Definition open_gps (r : Request) : bool := is_open_gps_post (gps_api_open settings) (gps_mode_api settings) (method r) (path r).

(** [require_auth], up to where the request is let through or answered. *)
Definition require_auth (c : Ctx) (r : Request) (w : World) : Passage * World :=
  if is_exempt_from_pairing (path r) then (Passed None, w)
  else if open_gps r then (Passed None, w)
  else if bool_decide (kind_of r = Loopback) then (Passed None, w)
  else
    let '(device, w) :=
      match h ← cookie_header r; cookie_value h COOKIE_NAME with
      | Some tok => let '(found, p) := authenticate to_toml c tok (w_pairing w) in
                    (match found with Ok o => o | Err _ => None end, set_pairing p w)
      | None => (None, w)
      end in
    match device with
    | Some d => (Passed (Some (id d)), w)
    | None =>
        if negb (tls_up settings) then
          if bool_decide (w_users w = []) then (Passed None, w)
          else match a ← authorization r; parse_basic_auth from_utf8 a with
               | Some (user, password) =>
                   if kdf_runs c && credentials_are_valid (w_users w) user password then (Passed None, w) else (Challenged, w)
               | None => (Challenged, w)
               end
        else if starts_with (path r) (lit "/api/") then (Not_paired, w) else (Sent_to_pair, w)
    end.

(** The layers of [run_server], outermost first. *)
Definition admit_request (c : Ctx) (r : Request) (w : World) : Passage * World :=
  match redirect_to_tls parse_ip ip_text is_loopback own_addresses sta_ip front_door_alias tls_port
          (kind_of r) (tls_up settings) (open_gps r) (host r) (path_and_query r) with
  | Some target => (Redirected target, w)
  | None =>
      if is_cross_site_state_change (method r) (sec_fetch_site r) (origin r) (host r) then (Cross_site, w)
      else require_auth c r w
  end.

(** ** Routes *)

(** One segment of a path between [pre] and [suf], decoded. *)
Definition segment (pre suf p : rstr) : option rstr :=
  rest ← strip_prefix pre p; seg ← strip_suffix suf rest;
  if bool_decide (seg = []) || contains seg (lit "/") then None else path_param seg.

Definition route_get (p : rstr) : Handler :=
  if bool_decide (p = lit "/api/setup/status") then H_pairing Call_status
  else if bool_decide (p = lit "/api/stepup/status") then H_stepup_status
  else H_other.

(** The members a body must have; an extractor that fails is [H_other]. *)
Definition need1 (b : Body) (a : rstr) (h : rstr -> Handler) : Handler :=
  match text_field b a with Some x => h x | None => H_other end.
Definition need2 (b : Body) (a1 a2 : rstr) (h : rstr -> rstr -> Handler) : Handler :=
  match text_field b a1, text_field b a2 with Some x, Some y => h x y | _, _ => H_other end.

Definition ua_of (r : Request) : rstr := default [] (rq_user_agent r).
Definition route_post (users : list WebUser) (r : Request) : Handler :=
  let p := path r in
  let b := body r in
  let name := text_field b (lit "device_name") in
  let at_path s := bool_decide (p = lit s) in
  if at_path "/api/setup/complete"%string then
    need2 b (lit "token") (lit "passphrase") (fun tok pw => H_pairing (Call_setup tok pw name (ua_of r)))
  else if at_path "/api/pair/passphrase"%string then need1 b (lit "passphrase") (fun pw => H_pairing (Call_passphrase pw name (ua_of r)))
  else if at_path "/api/pair/account"%string then
    need2 b (lit "username") (lit "password") (fun u pw => H_pairing (Call_account users u pw name (ua_of r)))
  else if at_path "/api/devices/code"%string then H_pairing Call_mint
  else if at_path "/api/pair/code"%string then need1 b (lit "code") (fun typed => H_pairing (Call_code typed name (ua_of r)))
  else if at_path "/api/passphrase"%string then
    need2 b (lit "current_passphrase") (lit "new_passphrase") (fun old new => H_pairing (Call_change old new))
  else if at_path "/api/setup/press-request"%string then H_pairing Call_request_press
  else if at_path "/api/setup/complete-press"%string then
    need2 b (lit "id") (lit "passphrase") (fun i pw => H_pairing (Call_press_setup i pw name (ua_of r)))
  else if at_path "/api/stepup/start"%string then need1 b (lit "passphrase") H_stepup_start
  else if at_path "/api/stepup/confirm"%string then need1 b (lit "code") H_stepup_confirm
  else if at_path "/api/stepup/end"%string then H_stepup_end
  else if at_path "/api/terminal"%string then need1 b (lit "command") H_terminal
  else if at_path "/api/config"%string then match config_adb b with Some adb => H_set_config adb | None => H_other end
  else if at_path "/api/web-users"%string then need2 b (lit "username") (lit "password") H_set_user
  else match segment (lit "/api/web-users/") (lit "/delete") p with
       | Some u => H_delete_user u
       | None =>
           match segment (lit "/api/devices/") (lit "/rename") p with
           | Some i => need1 b (lit "name") (fun n => H_pairing (Call_rename i n))
           | None => match segment (lit "/api/devices/") (lit "/revoke") p with
                     | Some i => H_pairing (Call_revoke i)
                     | None => H_other
                     end
           end
       end.
Definition route (users : list WebUser) (r : Request) : Handler :=
  match method r with
  | GET | HEAD => route_get (path r)
  | POST => route_post users r
  | _ => H_other
  end.

(** ** Handlers *)

Definition device_id_of (current : option rstr) : rstr := default (lit "loopback") current.

(** [stepup_start]: the passphrase, then a code. *)
Definition stepup_start (c : Ctx) (dev passphrase : rstr) (w : World) : World :=
  match verify_passphrase c passphrase (w_pairing w) with
  | (Ok _, p) => set_stepup (start (now c) dev (new_code (random c 4)) (w_stepup w)).2 (set_pairing p w)
  | (Err _, p) => set_pairing p w
  end.

Definition turning_adb_on (adb : option bool) : bool :=
  bool_decide (adb = Some true) && negb (bool_decide (adb_enabled settings = Some true)).

(** [set_web_user] and [delete_web_user]; the account list changes once the file is written. *)
Definition set_web_user (c : Ctx) (name password : rstr) (w : World) : World :=
  let name := trim name in
  if bool_decide (name = []) || (MAX_USERNAME_LEN <? str_len name) || (length password <? 8)%nat || (MAX_PASSWORD_LEN <? str_len password)
  then w
  else if negb (kdf_runs c) then w
  else
    let h := hash_password (salt c) password in
    let users := match list_find (fun u => username u = name) (w_users w) with
                 | Some (i, _) => alter (fun u => mkWebUser (username u) h) i (w_users w)
                 | None => w_users w ++ [mkWebUser name h]
                 end in
    if saved c then set_users users w else w.
Definition delete_web_user (c : Ctx) (name : rstr) (w : World) : World :=
  let users := filter (fun u => username u <> name) (w_users w) in
  if (length users =? length (w_users w))%nat then w else if saved c then set_users users w else w.

(** What is done as root: a command of the terminal, or ADB switched on. *)
Definition handle (c : Ctx) (current : option rstr) (h : Handler) (w : World) : bool * World :=
  let dev := device_id_of current in
  match h with
  | H_pairing a => (false, set_pairing (perform url_encode to_toml c a (w_pairing w)).2 w)
  | H_stepup_start passphrase => (false, stepup_start c dev passphrase w)
  | H_stepup_confirm typed => (false, set_stepup (confirm (now c) dev typed (w_stepup w)).2 w)
  | H_stepup_status => (false, set_stepup (active (now c) dev (w_stepup w)).2 w)
  | H_stepup_end => (false, set_stepup (end_ (now c) dev (w_stepup w)) w)
  | H_terminal command =>
      let '(ran, s) := terminal (terminal_enabled settings) (now c) dev command (w_stepup w) in (ran, set_stepup s w)
  | H_set_config adb =>
      let '(pass, s) := config_gate (turning_adb_on adb) (now c) dev (w_stepup w) in (turning_adb_on adb && pass, set_stepup s w)
  | H_set_user name password => (false, set_web_user c name password w)
  | H_delete_user name => (false, delete_web_user c name w)
  | H_other => (false, w)
  end.

(** One request, from its listener on: how it passed, and whether something was done as root. *)
Definition serve (c : Ctx) (r : Request) (w : World) : Passage * bool * World :=
  match admit_request c r w with
  | (Passed dev, w) => let '(root, w) := handle c dev (route (w_users w) r) w in (Passed dev, root, w)
  | (other, w) => (other, false, w)
  end.

(** ** Histories *)

(** A request; a key released on the unit; the fingerprint's time on the screen over; the set-up
    window that [main] opens at the start. *)
Inductive event := W_request (r : Request) | W_button | W_fingerprint_done | W_open_window.
Definition step (w : World) (ce : Ctx * event) : World :=
  let '(c, e) := ce in
  match e with
  | W_request r => (serve c r w).2
  | W_button => set_pairing (Pairing.button_pressed c (w_pairing w)).2 (set_stepup (button_pressed (now c) (w_stepup w)).2 w)
  | W_fingerprint_done => set_pairing (fingerprint_done c (w_pairing w)).2 w
  | W_open_window => set_pairing (open_setup_window c (w_pairing w)).2 w
  end.
Definition run (tr : list (Ctx * event)) (w : World) : World := fold_left step tr w.
End access.

Section properties.
Context {H : Hmac} {B : Base64} {HS : Sha256} {E : Env}.

(** ** Who is let in *)

Definition cookie_of (r : Request) : option rstr := h ← cookie_header r; cookie_value h COOKIE_NAME.
(** The request has the cookie of the trusted device [i]. *)
Definition has_cookie_of (c : Ctx) (r : Request) (i : rstr) (w : World) : Prop :=
  exists tok d, cookie_of r = Some tok /\ (authenticate to_toml c tok (w_pairing w)).1 = Ok (Some d) /\ id d = i.
(** The request has a user and a password of an account. *)
Definition has_account (r : Request) (w : World) : Prop :=
  exists a user password, authorization r = Some a /\ parse_basic_auth from_utf8 a = Some (user, password) /\
    credentials_are_valid (w_users w) user password = true.

Lemma require_auth_cases c r w :
  let '(passage, w') := require_auth c r w in
  w_stepup w' = w_stepup w /\ w_users w' = w_users w /\
  (w_pairing w' = w_pairing w \/
     (is_exempt_from_pairing (path r) = false /\ exists tok, w_pairing w' = (authenticate to_toml c tok (w_pairing w)).2)) /\
  match passage with
  | Passed (Some i) => has_cookie_of c r i w
  | Passed None => is_exempt_from_pairing (path r) = true \/ open_gps r = true \/ kind_of r = Loopback \/
      (tls_up settings = false /\ (w_users w = [] \/ has_account r w))
  | Challenged => tls_up settings = false
  | Not_paired => tls_up settings = true /\ starts_with (path r) (lit "/api/") = true
  | Sent_to_pair => tls_up settings = true /\ starts_with (path r) (lit "/api/") = false
  | _ => False
  end.
Proof.
  unfold Access.require_auth. destruct (is_exempt_from_pairing (path r)) eqn:He; [by auto 7|].
  destruct (open_gps r) eqn:Hg; [by auto 7|]. case_bool_decide as Hk; [by auto 7|].
  change (h ← cookie_header r; cookie_value h COOKIE_NAME) with (cookie_of r).
  set (looked := match cookie_of r with Some tok => _ | None => (None, w) end).
  assert (Hl : w_stepup looked.2 = w_stepup w /\ w_users looked.2 = w_users w /\
    (w_pairing looked.2 = w_pairing w \/ (false = false /\ exists tok, w_pairing looked.2 = (authenticate to_toml c tok (w_pairing w)).2)) /\
    (forall d, looked.1 = Some d -> has_cookie_of c r (id d) w)).
  { subst looked. destruct (cookie_of r) as [tok|] eqn:Hc; [|by split_and!; auto].
    destruct (authenticate to_toml c tok (w_pairing w)) as [found p] eqn:Ha. cbn [fst snd]. split_and!; [done|done| |].
    - right. split; [done|]. exists tok. by rewrite Ha.
    - intros d Hd. exists tok, d. rewrite Ha. split_and!; [done| |done]. cbn. destruct found as [o|]; [by rewrite Hd|done]. }
  destruct looked as [device w1]. cbn [fst snd] in Hl. destruct Hl as (Hs & Hu & Hp & Hd).
  destruct device as [d|]; [by split_and!; auto|].
  destruct (tls_up settings) eqn:Ht; cbn [negb].
  - by destruct (starts_with _ _) eqn:Hst; split_and!.
  - rewrite <- Hu. case_bool_decide as Hnil; [by split_and!; auto 6|].
    destruct (a ← authorization r; parse_basic_auth from_utf8 a) as [[user password]|] eqn:Hb; [|by split_and!].
    destruct (kdf_runs c && _) eqn:Hv; [|by split_and!]. split_and!; try done. right; right; right. split; [done|]. right.
    apply andb_true_iff in Hv as [_ Hv]. apply bind_Some in Hb as (a & Ha & Hb). exists a, user, password. split_and!; [done..|by rewrite <- Hu].
Qed.

Lemma admit_cases c r w :
  let '(passage, w') := admit_request c r w in
  w_stepup w' = w_stepup w /\ w_users w' = w_users w /\
  (w_pairing w' = w_pairing w \/
     (is_exempt_from_pairing (path r) = false /\ exists tok, w_pairing w' = (authenticate to_toml c tok (w_pairing w)).2)) /\
  match passage with
  | Passed dev =>
      (kind_of r = Plain -> tls_up settings = false \/ open_gps r = true) /\
      is_cross_site_state_change (method r) (sec_fetch_site r) (origin r) (host r) = false /\ (require_auth c r w).1 = Passed dev
  | Redirected _ => kind_of r = Plain /\ tls_up settings = true
  | Cross_site => mutating (method r) = true
  | other => (require_auth c r w).1 = other
  end.
Proof.
  unfold Access.admit_request. destruct (redirect_to_tls _ _ _ _ _ _ _ _ _ _ _ _) as [target|] eqn:Hr.
  { unfold redirect_to_tls in Hr. case_bool_decide as Hk; [|done]. destruct (tls_up settings); [|done]. by split_and!; auto. }
  assert (Hplain : kind_of r = Plain -> tls_up settings = false \/ open_gps r = true).
  { intros Hk. unfold redirect_to_tls in Hr. rewrite Hk in Hr. rewrite bool_decide_eq_true_2 in Hr by done.
    destruct (tls_up settings); [|by left]. destruct (open_gps r); [by right|done]. }
  destruct (is_cross_site_state_change _ _ _ _) eqn:Hx.
  { split_and!; auto. unfold is_cross_site_state_change in Hx. by destruct (mutating (method r)). }
  pose proof (require_auth_cases c r w) as Hc. destruct (require_auth c r w) as [passage w'].
  destruct Hc as (H1 & H2 & H3 & H4). split_and!; [done..|]. by destruct passage.
Qed.

(** C4: who gets past the door.  A request that reaches a handler was not made by another site to change
    something; while TLS is up it did not come over the plain port, unless it is the one position report
    the owner opened; and either it has the cookie of a trusted device, as which it passes, or it
    asks for the pairing page and what that needs, or came over USB, or TLS is down and there is
    no account or it has one's password.  What does not pass changes neither step-up nor accounts, nor
    who is trusted. *)
Theorem who_is_let_in c r w :
  let '(passage, w') := admit_request c r w in
  w_stepup w' = w_stepup w /\ w_users w' = w_users w /\
  (forall x, x ∈ hashes (w_pairing w') -> x ∈ hashes (w_pairing w)) /\
  match passage with
  | Passed dev =>
      is_cross_site_state_change (method r) (sec_fetch_site r) (origin r) (host r) = false /\
      (kind_of r = Plain -> tls_up settings = true -> open_gps r = true) /\
      match dev with
      | Some i => has_cookie_of c r i w
      | None => is_exempt_from_pairing (path r) = true \/ open_gps r = true \/ kind_of r = Loopback \/
                (tls_up settings = false /\ (w_users w = [] \/ has_account r w))
      end
  | Challenged => tls_up settings = false
  | _ => True
  end.
Proof.
  pose proof (admit_cases c r w) as Ha. pose proof (require_auth_cases c r w) as Hr.
  destruct (admit_request c r w) as [passage w'], (require_auth c r w) as [passage2 w2].
  destruct Ha as (H1 & H2 & H3 & H4), Hr as (_ & _ & _ & Hr). split_and!; [done|done| |].
  - destruct H3 as [->|[_ [tok ->]]]; [done|]. intros x. apply (keep_authenticate to_toml c tok).
  - destruct passage as [dev| | | | |]; try done.
    + destruct H4 as (H4 & H5 & H6). cbn in H6. subst passage2. split_and!; [done| |done]. intros Hk Ht. destruct (H4 Hk) as [Hf|]; [|done].
      by rewrite Ht in Hf.
    + cbn in H4. by subst passage2.
Qed.

(** ** The step-up's own history *)

(** What a request or a press is to the step-up. *)
Definition stepup_event (c : Ctx) (w : World) (e : event) : option StepUp.event :=
  match e with
  | W_button => Some Ev_button
  | W_request r =>
      match admit_request c r w with
      | (Passed current, w) =>
          let dev := device_id_of current in
          match route (w_users w) r with
          | H_stepup_start pw => match (verify_passphrase c pw (w_pairing w)).1 with Ok _ => Some (Ev_start dev (random c 4)) | Err _ => None end
          | H_stepup_confirm typed => Some (Ev_confirm dev typed)
          | H_stepup_status => Some (Ev_status dev)
          | H_stepup_end => Some (Ev_end dev)
          | H_terminal command => if terminal_enabled settings then Some (Ev_terminal dev command) else None
          | H_set_config adb => if turning_adb_on adb then Some (Ev_config dev) else None
          | _ => None
          end
      | _ => None
      end
  | _ => None
  end.
Definition logged (t : Z) (o : option StepUp.event) : list (Z * StepUp.event) := match o with Some e => [(t, e)] | None => [] end.
Fixpoint stepup_log (tr : list (Ctx * event)) (w : World) : list (Z * StepUp.event) :=
  match tr with
  | [] => []
  | (c, e) :: tr => logged (now c) (stepup_event c w e) ++ stepup_log tr (step w (c, e))
  end.

Lemma stepup_step c e w : w_stepup (step w (c, e)) = fold_left StepUp.apply (logged (now c) (stepup_event c w e)) (w_stepup w).
Proof.
  destruct e as [r| | |]; [|done..]. cbn [Access.step stepup_event]. unfold Access.serve.
  pose proof (admit_cases c r w) as Ha. destruct (admit_request c r w) as [[current| | | | |] w1]; destruct Ha as (<- & _ & _ & _); try done.
  set (dev := device_id_of current). destruct (route (w_users w1) r) as [a|pw|typed| | |command|adb|n pw|n|]; cbn [Access.handle].
  - done.
  - fold dev. unfold stepup_start. destruct (verify_passphrase c pw (w_pairing w1)) as [[u|er] p]; done.
  - done.
  - done.
  - done.
  - fold dev. destruct (terminal_enabled settings); [|done]. cbn [logged fold_left StepUp.apply].
    by destruct (terminal true (now c) dev command (w_stepup w1)).
  - fold dev. destruct (turning_adb_on adb); [|done]. cbn. by destruct (active (now c) dev (w_stepup w1)) as [pass s].
  - cbn. unfold set_web_user. cbv zeta. by repeat (case_match; try done).
  - cbn. unfold delete_web_user. cbv zeta. by repeat (case_match; try done).
  - done.
Qed.
Lemma stepup_run tr w : w_stepup (run tr w) = fold_left StepUp.apply (stepup_log tr w) (w_stepup w).
Proof.
  revert w. induction tr as [|[c e] tr IH]; intros w; [done|]. cbn [stepup_log]. rewrite fold_left_app, <- stepup_step. apply IH.
Qed.

(** An entry of the log comes from an event of the history. *)
Lemma log_split tr w l1 t ev l2 : stepup_log tr w = l1 ++ (t, ev) :: l2 ->
  exists pre c e post, tr = pre ++ (c, e) :: post /\ stepup_log pre w = l1 /\ t = now c /\ stepup_event c (run pre w) e = Some ev.
Proof.
  revert w l1. induction tr as [|[c e] tr IH]; intros w l1 Hl; cbn [stepup_log] in Hl.
  { by destruct l1. }
  assert (Hrest : forall l1', stepup_log tr (step w (c, e)) = l1' ++ (t, ev) :: l2 -> l1 = logged (now c) (stepup_event c w e) ++ l1' ->
    exists pre c0 e0 post, (c, e) :: tr = pre ++ (c0, e0) :: post /\ stepup_log pre w = l1 /\ t = now c0 /\ stepup_event c0 (run pre w) e0 = Some ev).
  { intros l1' (pre & c' & e' & post & -> & Hpre & -> & He)%IH Hl1. exists ((c, e) :: pre), c', e', post. split_and!; [done| |done|done].
    cbn [stepup_log]. by rewrite Hpre, Hl1. }
  destruct (stepup_event c w e) as [ev0|] eqn:He; cbn [logged app] in Hl; [|by apply (Hrest l1)].
  destruct l1 as [|x l1]; cbn [app] in Hl.
  - injection Hl as <- <- Hl. exists [], c, e, tr. by split_and!.
  - injection Hl as <- Hl. by apply (Hrest l1).
Qed.
Lemma log_member tr w t ev : (t, ev) ∈ stepup_log tr w ->
  exists pre c e post, tr = pre ++ (c, e) :: post /\ t = now c /\ stepup_event c (run pre w) e = Some ev.
Proof.
  intros (l1 & l2 & Hl)%list_elem_of_split. apply log_split in Hl as (pre & c & e & post & -> & _ & -> & He). by exists pre, c, e, post.
Qed.

(** ** Root *)

(** A step-up begun by [dev]: a request let through as [dev], with the owner's passphrase. *)
Definition begins_stepup (c : Ctx) (r : Request) (dev : rstr) (w : World) : Prop :=
  exists current w' pw h, admit_request c r w = (Passed current, w') /\ device_id_of current = dev /\
    route (w_users w') r = H_stepup_start pw /\ owner_passphrase_hash (state (w_pairing w')) = Some h /\ verify_password pw h = true.
(** The code typed by [dev]. *)
Definition confirms_stepup (c : Ctx) (r : Request) (dev typed : rstr) (w : World) : Prop :=
  exists current w', admit_request c r w = (Passed current, w') /\ device_id_of current = dev /\ route (w_users w') r = H_stepup_confirm typed.

Lemma start_event c w e dev raw : stepup_event c w e = Some (Ev_start dev raw) ->
  raw = random c 4 /\ exists r, e = W_request r /\ begins_stepup c r dev w.
Proof.
  destruct e as [r| | |]; [|done..]. cbn [stepup_event]. destruct (admit_request c r w) as [[current| | | | |] w1] eqn:Ha; try done.
  destruct (route (w_users w1) r) as [a|pw|typed| | |command|adb|n pw|n|] eqn:Hr; try done; [|by repeat case_match..].
  destruct (verify_passphrase c pw (w_pairing w1)) as [[u|er] p] eqn:Hv; [|done]. cbn [fst]. intros [= <- <-]. split; [done|]. exists r.
  split; [done|]. apply verify_ok in Hv as (h & Ho & Hp & _). by exists current, w1, pw, h.
Qed.
Lemma confirm_event c w e dev typed : stepup_event c w e = Some (Ev_confirm dev typed) ->
  exists r, e = W_request r /\ confirms_stepup c r dev typed w.
Proof.
  destruct e as [r| | |]; [|done..]. cbn [stepup_event]. destruct (admit_request c r w) as [[current| | | | |] w1] eqn:Ha; try done.
  destruct (route (w_users w1) r) as [a|pw|typed'| | |command|adb|n pw|n|] eqn:Hr; try done; try (by repeat case_match).
  intros [= <- <-]. exists r. split; [done|]. by exists current, w1.
Qed.
Lemma button_event c w e : stepup_event c w e = Some Ev_button -> e = W_button.
Proof.
  destruct e as [r| | |]; [|done..]. cbn [stepup_event]. destruct (admit_request c r w) as [[current| | | | |] w1]; try done.
  destruct (route (w_users w1) r); try done; by repeat case_match.
Qed.

Lemma run_app pre post w : run (pre ++ post) w = run post (run pre w).
Proof. apply fold_left_app. Qed.

(** What the terminal asks of the step-up, and nothing else is done as root. *)
Lemma root_window c r w : match serve c r w with (passage, root, _) =>
  root = true -> exists current, passage = Passed current /\ exists win, windows (w_stepup w) !! device_id_of current = Some win /\ now c < expires_at win end.
Proof.
  unfold Access.serve. pose proof (admit_cases c r w) as Ha.
  destruct (admit_request c r w) as [[current| | | | |] w1]; try done. destruct Ha as (Hs & _ & _ & _).
  destruct (handle c current (route (w_users w1) r) w1) as [root w2] eqn:Hh. intros ->. exists current. split; [done|]. rewrite <- Hs.
  apply active_true. destruct (route (w_users w1) r) as [a|pw|typed| | |command|adb|n pw|n|]; cbn [Access.handle] in Hh; try done.
  - unfold terminal in Hh. destruct (terminal_enabled settings); [|done]. cbn [negb] in Hh.
    by destruct (active _ _ _) as [[] s].
  - unfold config_gate in Hh. destruct (turning_adb_on adb); [|done]. cbn [andb] in Hh.
    destruct (active _ _ _) as [[] s]; [done|]. by injection Hh.
Qed.

(** C2: root is for the owner at the unit.  After any requests and presses since the daemon started, whoever
    made them, a command is run or ADB switched on only for a request that passes as some [dev], a
    trusted device or one of those let in without one; before it, [dev] began a step-up with the owner's
    passphrase; after that and within a minute, the button was pressed, or [dev] typed the code
    that had been put on the screen; and that was less than thirty minutes ago. *)
Theorem root_at_the_unit p users display tr c r :
  let w0 := mkWorld p (StepUp_new display) users in
  match serve c r (run tr w0) with
  | (passage, root, _) =>
      if root then
        exists current pre c1 r1 mid c2 e2 post,
          passage = Passed current /\ tr = pre ++ (c1, W_request r1) :: mid ++ (c2, e2) :: post /\
          begins_stepup c1 r1 (device_id_of current) (run pre w0) /\ now c2 - now c1 < CODE_TTL /\ now c - now c2 < HARD_CAP /\
          (e2 = W_button \/
           exists r2 typed, e2 = W_request r2 /\
             confirms_stepup c2 r2 (device_id_of current) typed (run (pre ++ (c1, W_request r1) :: mid) w0) /\
             as_bytes (new_code (random c1 4)) = as_bytes (filter (fun ch => is_ascii_digit ch = true) typed))
      else True
  end.
Proof.
  cbv zeta. set (w0 := mkWorld p (StepUp_new display) users). pose proof (root_window c r (run tr w0)) as Hw.
  destruct (serve c r (run tr w0)) as [[passage root] w']. destruct root; [|done]. destruct (Hw eq_refl) as (current & -> & win & Hwin & Hlt).
  rewrite stepup_run in Hwin. apply (history_run (stepup_log tr w0) display) in Hwin as (l1 & ev & l2 & Hlog & Hproof & _ & _).
  apply log_split in Hlog as (pre' & c2 & e2 & post & -> & <- & Ht & He).
  destruct Hproof as (ts & raw & Hstart & Htime & _ & Hev). rewrite Ht in Htime.
  apply log_member in Hstart as (pre & c1 & e1 & mid & -> & -> & (-> & r1 & -> & Hb)%start_event).
  exists current, pre, c1, r1, mid, c2, e2, post. unfold expires_at in Hlt. rewrite <- Ht in *.
  split_and!; [done|by rewrite <- app_assoc|done|lia|lia|].
  destruct Hev as [->|(typed & -> & Hcode)]; [left; by eapply button_event|right].
  apply confirm_event in He as (r2 & -> & Hc). by exists r2, typed.
Qed.

(** ** Trust *)

(** The five ways to be trusted are routes that need no pairing. *)
Lemma proved_route c r a p users : route users r = H_pairing a -> proved c a p -> is_exempt_from_pairing (path r) = true.
Proof.
  intros Hr Hp. assert (Ho : path r ∈ OPEN_PATHS -> is_exempt_from_pairing (path r) = true).
  { intros Hin. unfold is_exempt_from_pairing. by rewrite bool_decide_eq_true_2. }
  unfold Access.route, route_post, route_get, need1, need2 in Hr. cbv zeta in Hr.
  repeat match type of Hr with
  | context [match method r with _ => _ end] => destruct (method r)
  | context [if bool_decide (path r = ?s) then _ else _] =>
      destruct (decide (path r = s)) as [Heq|];
      [rewrite (bool_decide_eq_true_2 (path r = s)) in Hr by done; repeat case_match; try done;
       first [ injection Hr as <-; done | apply Ho; rewrite Heq; vm_compute; by repeat constructor ]
      | rewrite (bool_decide_eq_false_2 (path r = s)) in Hr by done]
  end; try done; repeat case_match; try done; by injection Hr as <-.
Qed.

Lemma trust_step c e w x : x ∈ hashes (w_pairing (step w (c, e))) ->
  x ∈ hashes (w_pairing w) \/
  exists r a, e = W_request r /\ is_exempt_from_pairing (path r) = true /\ route (w_users w) r = H_pairing a /\ proved c a (w_pairing w).
Proof.
  destruct e as [r| | |]; cbn [Access.step set_pairing set_stepup w_pairing w_stepup].
  - unfold Access.serve. pose proof (admit_cases c r w) as Ha. destruct (admit_request c r w) as [passage w1].
    destruct Ha as (_ & Hu & Hp & _).
    assert (Hkeep : x ∈ hashes (w_pairing w1) -> x ∈ hashes (w_pairing w)).
    { destruct Hp as [->|[_ [tok ->]]]; [done|]. apply (keep_authenticate to_toml c tok). }
    destruct passage as [current| | | | |]; try (intros Hx; left; by apply Hkeep).
    destruct (route (w_users w1) r) as [a|pw|typed| | |command|adb|n pw|n|] eqn:Hr; cbn [Access.handle snd].
    + intros Hx. destruct (trusts_perform url_encode to_toml c a (w_pairing w1)) as [Hk|Hproof]; [left; by apply Hkeep, Hk|right].
      pose proof (proved_route c r a _ _ Hr Hproof) as He. destruct Hp as [Hp|[Hn _]]; [|by rewrite He in Hn].
      exists r, a. rewrite <- Hu, <- Hp. by split_and!.
    + intros Hx. left. apply Hkeep. unfold stepup_start in Hx.
      pose proof (keep_verify c pw (w_pairing w1) x) as Hv. destruct (verify_passphrase c pw (w_pairing w1)) as [[u|er] p]; by apply Hv.
    + intros Hx. left. by apply Hkeep.
    + intros Hx. left. by apply Hkeep.
    + intros Hx. left. by apply Hkeep.
    + intros Hx. left. apply Hkeep. by destruct (terminal _ _ _ _ _).
    + intros Hx. left. apply Hkeep. by destruct (config_gate _ _ _ _).
    + intros Hx. left. apply Hkeep. revert Hx. unfold set_web_user. cbv zeta. by repeat case_match.
    + intros Hx. left. apply Hkeep. revert Hx. unfold delete_web_user. cbv zeta. by repeat case_match.
    + intros Hx. left. by apply Hkeep.
  - intros Hx. left. by apply (keep_button c).
  - intros Hx. left. by apply (keep_done c).
  - intros Hx. left. by apply (keep_open c).
Qed.

(** Requests make nobody trusted but by proof.  After any requests and presses, every trusted browser was
    trusted at the start, or some request to a page open to all made the call that pairs with the
    proof that call asks for, in the state the request met. *)
Theorem requests_need_proof tr w :
  Forall (fun x => x ∈ hashes (w_pairing w) \/
    exists pre c r post a, tr = pre ++ (c, W_request r) :: post /\ is_exempt_from_pairing (path r) = true /\
      route (w_users (run pre w)) r = H_pairing a /\ proved c a (w_pairing (run pre w))) (hashes (w_pairing (run tr w))).
Proof.
  apply Forall_forall. intros x. revert w. induction tr as [|[c e] tr IH]; intros w Hx; [by left|].
  destruct (IH (step w (c, e)) Hx) as [Hs|(pre & c' & r & post & a & -> & H1 & H2 & H3)].
  - apply trust_step in Hs as [Hs|(r & a & -> & H1 & H2 & H3)]; [by left|]. right. by exists [], c, r, tr, a.
  - right. by exists ((c, e) :: pre), c', r, post, a.
Qed.

End properties.
