(* ===== verification/Qr.v ===== *)
(** * What the unit's screen shows: codes and text ([daemon/src/display/qr.rs])

    The layout of a QR code with its caption, the picture of it, screens of text, the banner and the
    font.  Pixels are row by row; a [u32] is a [Z], sizes being those of a screen.  The code itself comes from
    the [qrcodegen] library: here it is its side and which of its modules are dark. *)

From S2P Require Import Prelude RustStr.

Local Open Scope Z_scope.

(** ** Geometry *)

Record ScreenGeometry := mkGeo { width : Z; height : Z; top_inset : Z }.
Definition square (side : Z) : ScreenGeometry := mkGeo side side 0.

Definition MIN_MODULE_PX : Z := 2.
Definition QUIET_MODULES : Z := 2.
Definition CAPTION_GAP : Z := 2.

Abbreviation rgb := (Z * Z * Z)%type.
Definition WHITE : rgb := (255, 255, 255).
Definition BLACK : rgb := (0, 0, 0).

(** A code: its side, and [get_module x y]. *)
Record QrCode := mkQr { size : Z; get_module : Z -> Z -> bool }.

(** ** The font *)

Definition GLYPH_W : Z := 5.
Definition GLYPH_H : Z := 7.
Definition SPACING : Z := 1.

Definition UNKNOWN : list string := [" ### "; "#   #"; "    #"; "   # "; "  #  "; "     "; "  #  "].
Definition glyph (ch : rchar) : list string :=
  let c := if in_range 97 122 ch then ch - 32 else ch in
  if c =? 32 then ["     "; "     "; "     "; "     "; "     "; "     "; "     "] else
  if c =? 48 then [" ### "; "#   #"; "#  ##"; "# # #"; "##  #"; "#   #"; " ### "] else
  if c =? 49 then ["  #  "; " ##  "; "  #  "; "  #  "; "  #  "; "  #  "; " ### "] else
  if c =? 50 then [" ### "; "#   #"; "    #"; "   # "; "  #  "; " #   "; "#####"] else
  if c =? 51 then ["#####"; "   # "; "  #  "; "   # "; "    #"; "#   #"; " ### "] else
  if c =? 52 then ["   # "; "  ## "; " # # "; "#  # "; "#####"; "   # "; "   # "] else
  if c =? 53 then ["#####"; "#    "; "#### "; "    #"; "    #"; "#   #"; " ### "] else
  if c =? 54 then ["  ## "; " #   "; "#    "; "#### "; "#   #"; "#   #"; " ### "] else
  if c =? 55 then ["#####"; "    #"; "   # "; "  #  "; " #   "; " #   "; " #   "] else
  if c =? 56 then [" ### "; "#   #"; "#   #"; " ### "; "#   #"; "#   #"; " ### "] else
  if c =? 57 then [" ### "; "#   #"; "#   #"; " ####"; "    #"; "   # "; " ##  "] else
  if c =? 65 then [" ### "; "#   #"; "#   #"; "#####"; "#   #"; "#   #"; "#   #"] else
  if c =? 66 then ["#### "; "#   #"; "#   #"; "#### "; "#   #"; "#   #"; "#### "] else
  if c =? 67 then [" ### "; "#   #"; "#    "; "#    "; "#    "; "#   #"; " ### "] else
  if c =? 68 then ["###  "; "#  # "; "#   #"; "#   #"; "#   #"; "#  # "; "###  "] else
  if c =? 69 then ["#####"; "#    "; "#    "; "#### "; "#    "; "#    "; "#####"] else
  if c =? 70 then ["#####"; "#    "; "#    "; "#### "; "#    "; "#    "; "#    "] else
  if c =? 71 then [" ### "; "#   #"; "#    "; "# ###"; "#   #"; "#   #"; " ####"] else
  if c =? 72 then ["#   #"; "#   #"; "#   #"; "#####"; "#   #"; "#   #"; "#   #"] else
  if c =? 73 then [" ### "; "  #  "; "  #  "; "  #  "; "  #  "; "  #  "; " ### "] else
  if c =? 74 then ["  ###"; "   # "; "   # "; "   # "; "   # "; "#  # "; " ##  "] else
  if c =? 75 then ["#   #"; "#  # "; "# #  "; "##   "; "# #  "; "#  # "; "#   #"] else
  if c =? 76 then ["#    "; "#    "; "#    "; "#    "; "#    "; "#    "; "#####"] else
  if c =? 77 then ["#   #"; "## ##"; "# # #"; "# # #"; "#   #"; "#   #"; "#   #"] else
  if c =? 78 then ["#   #"; "#   #"; "##  #"; "# # #"; "#  ##"; "#   #"; "#   #"] else
  if c =? 79 then [" ### "; "#   #"; "#   #"; "#   #"; "#   #"; "#   #"; " ### "] else
  if c =? 80 then ["#### "; "#   #"; "#   #"; "#### "; "#    "; "#    "; "#    "] else
  if c =? 81 then [" ### "; "#   #"; "#   #"; "#   #"; "# # #"; "#  # "; " ## #"] else
  if c =? 82 then ["#### "; "#   #"; "#   #"; "#### "; "# #  "; "#  # "; "#   #"] else
  if c =? 83 then [" ####"; "#    "; "#    "; " ### "; "    #"; "    #"; "#### "] else
  if c =? 84 then ["#####"; "  #  "; "  #  "; "  #  "; "  #  "; "  #  "; "  #  "] else
  if c =? 85 then ["#   #"; "#   #"; "#   #"; "#   #"; "#   #"; "#   #"; " ### "] else
  if c =? 86 then ["#   #"; "#   #"; "#   #"; "#   #"; "#   #"; " # # "; "  #  "] else
  if c =? 87 then ["#   #"; "#   #"; "#   #"; "# # #"; "# # #"; "# # #"; " # # "] else
  if c =? 88 then ["#   #"; "#   #"; " # # "; "  #  "; " # # "; "#   #"; "#   #"] else
  if c =? 89 then ["#   #"; "#   #"; "#   #"; " # # "; "  #  "; "  #  "; "  #  "] else
  if c =? 90 then ["#####"; "    #"; "   # "; "  #  "; " #   "; "#    "; "#####"] else
  if c =? 46 then ["     "; "     "; "     "; "     "; "     "; " ##  "; " ##  "] else
  if c =? 58 then ["     "; " ##  "; " ##  "; "     "; " ##  "; " ##  "; "     "] else
  if c =? 47 then ["     "; "    #"; "   # "; "  #  "; " #   "; "#    "; "     "] else
  if c =? 45 then ["     "; "     "; "     "; "#####"; "     "; "     "; "     "] else
  UNKNOWN.

Definition text_width (text : rstr) (scale : Z) : Z :=
  let n := Z.of_nat (length text) in
  if n =? 0 then 0 else (n * GLYPH_W + (n - 1) * SPACING) * scale.

(** ** Painting *)

(** [a..b]. *)
Definition range (a b : Z) : list Z := seqZ a (b - a).

(** [buf[(y * geo.width + x) as usize] = color]; the loops keep it inside. *)
Definition put (geo : ScreenGeometry) (color : rgb) (buf : list rgb) (x y : Z) : list rgb := <[Z.to_nat (y * width geo + x) := color]> buf.
Definition fill_rect (buf : list rgb) (geo : ScreenGeometry) (x0 y0 w h : Z) (color : rgb) : list rgb :=
  fold_left (fun buf y => fold_left (fun buf x => put geo color buf x y) (range x0 (Z.min (x0 + w) (width geo))) buf)
    (range y0 (Z.min (y0 + h) (height geo))) buf.

(** One row of a glyph, from column [col] on; the rows; the characters, at the pen's place. *)
Fixpoint draw_line (buf : list rgb) (geo : ScreenGeometry) (line : rstr) (pen_x y col row scale : Z) (color : rgb) : list rgb :=
  match line with
  | [] => buf
  | cell :: line =>
      let buf := if negb (cell =? 35) then buf
                 else fill_rect buf geo (pen_x + col * scale) (y + row * scale) scale scale color in
      draw_line buf geo line pen_x y (col + 1) row scale color
  end.
Fixpoint draw_glyph (buf : list rgb) (geo : ScreenGeometry) (g : list string) (pen_x y row scale : Z) (color : rgb) : list rgb :=
  match g with
  | [] => buf
  | line :: g => draw_glyph (draw_line buf geo (lit line) pen_x y 0 row scale color) geo g pen_x y (row + 1) scale color
  end.
Fixpoint draw_chars (buf : list rgb) (geo : ScreenGeometry) (text : rstr) (pen_x y scale : Z) (color : rgb) : list rgb :=
  match text with
  | [] => buf
  | c :: text => draw_chars (draw_glyph buf geo (glyph c) pen_x y 0 scale color) geo text (pen_x + (GLYPH_W + SPACING) * scale) y scale color
  end.
Definition draw_text (buf : list rgb) (geo : ScreenGeometry) (text : rstr) (x y scale : Z) (color : rgb) : list rgb :=
  draw_chars buf geo text x y (Z.max scale 1) color.

(** ** The layout of a code *)

Record Layout := mkLayout {
  module_px : Z; quiet_px : Z; code_x : Z; code_y : Z; caption_y : option Z; caption_scale : Z }.

Definition div_ceil (a b : Z) : Z := (a + b - 1) / b.
Definition try_layout (size : Z) (caption : bool) (scale caption_h avail_h : Z) (geo : ScreenGeometry) (px quiet : Z) : option Layout :=
  let code := size * px in
  let needed_w := code + 2 * quiet in
  let needed_h := quiet + code + quiet + caption_h in
  if (width geo <? needed_w) || (avail_h <? needed_h) then None
  else
    let block_y := top_inset geo + (avail_h - needed_h) / 2 in
    let code_y := block_y + quiet in
    Some (mkLayout px quiet ((width geo - code) / 2) code_y
      (if caption then Some (code_y + code + quiet + CAPTION_GAP) else None) scale).
(** The module sizes from the wanted one down; at each the full margin, then the reduced one. *)
Fixpoint layout_loop (sizes : list Z) (size : Z) (caption : bool) (scale caption_h avail_h : Z) (geo : ScreenGeometry) : option Layout :=
  match sizes with
  | [] => None
  | px :: sizes =>
      match try_layout size caption scale caption_h avail_h geo px (QUIET_MODULES * px) with
      | Some l => Some l
      | None =>
          match try_layout size caption scale caption_h avail_h geo px (div_ceil (QUIET_MODULES * px * 3) 4) with
          | Some l => Some l
          | None => layout_loop sizes size caption scale caption_h avail_h geo
          end
      end
  end.
Definition layout (size wanted_px : Z) (caption : bool) (caption_scale : Z) (geo : ScreenGeometry) : option Layout :=
  let caption_scale := Z.max caption_scale 1 in
  let avail_h := Z.max 0 (height geo - top_inset geo) in
  let caption_h := if caption then CAPTION_GAP + GLYPH_H * caption_scale else 0 in
  layout_loop (rev (range MIN_MODULE_PX (Z.max wanted_px MIN_MODULE_PX + 1))) size caption caption_scale caption_h avail_h geo.

(** ** Screens *)

Definition blank (geo : ScreenGeometry) (color : rgb) : list rgb := replicate (Z.to_nat (width geo * height geo)) color.

Definition draw_code (buf : list rgb) (geo : ScreenGeometry) (code : QrCode) (l : Layout) : list rgb :=
  fold_left (fun buf my => fold_left (fun buf mx =>
      if negb (get_module code mx my) then buf
      else fill_rect buf geo (code_x l + mx * module_px l) (code_y l + my * module_px l) (module_px l) (module_px l) BLACK)
    (range 0 (size code)) buf) (range 0 (size code)) buf.
Definition render (code : QrCode) (l : Layout) (caption : option rstr) (geo : ScreenGeometry) : list rgb :=
  let buf := draw_code (blank geo WHITE) geo code l in
  match caption, caption_y l with
  | Some text, Some y =>
      let text_w := text_width text (caption_scale l) in
      draw_text buf geo text (Z.max 0 (width geo - text_w) / 2) y (caption_scale l) BLACK
  | _, _ => buf
  end.

Definition svg_path (code : QrCode) (border : Z) : rstr :=
  flat_map (fun y => flat_map (fun x =>
      if get_module code x y then lit "M" ++ dec (x + border) ++ lit " " ++ dec (y + border) ++ lit "h1v1h-1z" else [])
    (range 0 (size code))) (range 0 (size code)).

(** The lines from [y] on. *)
Fixpoint draw_lines (buf : list rgb) (geo : ScreenGeometry) (lines : list (rstr * Z)) (y gap : Z) : list rgb :=
  match lines with
  | [] => buf
  | (text, scale) :: lines =>
      let scale := Z.max scale 1 in
      let x := Z.max 0 (width geo - text_width text scale) / 2 in
      draw_lines (draw_text buf geo text x y scale BLACK) geo lines (y + (GLYPH_H * scale + gap)) gap
  end.
Definition text_screen (lines : list (rstr * Z)) (geo : ScreenGeometry) : list rgb :=
  let gap := 3 in
  let total := Z.max 0 (fold_left Z.add (map (fun l => GLYPH_H * Z.max l.2 1 + gap) lines) 0 - gap) in
  let avail := Z.max 0 (height geo - top_inset geo) in
  draw_lines (blank geo WHITE) geo lines (top_inset geo + Z.max 0 (avail - total) / 2) gap.

Definition BANNER_HEIGHT : Z := GLYPH_H + 2.
Definition banner_strip (w : Z) (text : rstr) : list rgb :=
  let geo := mkGeo w BANNER_HEIGHT 0 in
  draw_text (blank geo BLACK) geo text (Z.max 0 (w - text_width text 1) / 2) 1 1 WHITE.

(** The devices a screen of which can be painted. *)
Inductive Device := Orbic | Tplink | Tmobile | Wingtech | Pinephone | Uz801 | Moxee.
Definition screen_geometry (d : Device) : option ScreenGeometry :=
  match d with
  | Orbic | Tplink => Some (square 128)
  | Moxee => Some (mkGeo 128 128 6)
  | Wingtech => Some (mkGeo 160 128 0)
  | Tmobile | Pinephone | Uz801 => None
  end.

(** ** Pictures as functions *)

(** The buffer is the picture [f] of the whole screen. *)
Definition geo_ok (geo : ScreenGeometry) : Prop := 0 <= width geo /\ 0 <= height geo /\ 0 <= top_inset geo.
Definition pixel (geo : ScreenGeometry) (buf : list rgb) (x y : Z) : option rgb := buf !! Z.to_nat (y * width geo + x).
Definition paints (geo : ScreenGeometry) (buf : list rgb) (f : Z -> Z -> rgb) : Prop :=
  length buf = Z.to_nat (width geo * height geo) /\
  forall x y, 0 <= x < width geo -> 0 <= y < height geo -> pixel geo buf x y = Some (f x y).
Definition in_rect (x0 y0 w h x y : Z) : bool := (x0 <=? x) && (x <? x0 + w) && (y0 <=? y) && (y <? y0 + h).

Lemma in_rect_true x0 y0 w h x y : in_rect x0 y0 w h x y = true <-> x0 <= x < x0 + w /\ y0 <= y < y0 + h.
Proof. unfold in_rect. rewrite !andb_true_iff, !Z.leb_le, !Z.ltb_lt. lia. Qed.

Lemma paints_ext geo buf f g : (forall x y, 0 <= x < width geo -> 0 <= y < height geo -> f x y = g x y) -> paints geo buf f -> paints geo buf g.
Proof. intros Hfg [Hl Hf]. split; [done|]. intros x y Hx Hy. by rewrite <- Hfg, Hf. Qed.

Lemma index_inj w x y x' y' : 0 <= x < w -> 0 <= x' < w -> y * w + x = y' * w + x' -> x = x' /\ y = y'.
Proof. intros Hx Hx' He. assert (y = y') by nia. subst. lia. Qed.
Lemma index_range w h x y : 0 <= x < w -> 0 <= y < h -> 0 <= y * w + x < w * h.
Proof. nia. Qed.

Lemma paints_blank geo color : geo_ok geo -> paints geo (blank geo color) (fun _ _ => color).
Proof.
  intros (Hw & Hh & _). split; [apply length_replicate|]. intros x y Hx Hy. unfold pixel, blank. apply lookup_replicate. split; [done|].
  pose proof (index_range _ _ _ _ Hx Hy). lia.
Qed.

Lemma paints_put geo color buf f x0 y0 : 0 <= x0 < width geo -> 0 <= y0 < height geo -> paints geo buf f ->
  paints geo (put geo color buf x0 y0) (fun x y => if bool_decide ((x, y) = (x0, y0)) then color else f x y).
Proof.
  intros Hx0 Hy0 [Hl Hf]. unfold put. split; [by rewrite length_insert|]. intros x y Hx Hy. unfold pixel.
  pose proof (index_range _ _ _ _ Hx Hy). pose proof (index_range _ _ _ _ Hx0 Hy0).
  case_bool_decide as He.
  - injection He as -> ->. rewrite list_lookup_insert_eq; [done|]. rewrite Hl. lia.
  - rewrite list_lookup_insert_ne; [by apply Hf|]. intros Hi. apply He. apply Z2Nat.inj in Hi; [|lia..].
    apply index_inj in Hi as [-> ->]; done.
Qed.

(** Painting many points of one colour, in whatever order. *)
Lemma paints_points geo color pts : forall buf f, Forall (fun p => 0 <= p.1 < width geo /\ 0 <= p.2 < height geo) pts -> paints geo buf f ->
  paints geo (fold_left (fun buf p => put geo color buf p.1 p.2) pts buf) (fun x y => if bool_decide ((x, y) ∈ pts) then color else f x y).
Proof.
  induction pts as [|[x0 y0] pts IH]; intros buf f Hin Hp; cbn [fold_left].
  - eapply paints_ext; [|exact Hp]. intros x y _ _. by rewrite bool_decide_eq_false_2 by apply not_elem_of_nil.
  - apply Forall_cons in Hin as [[Hx Hy] Hin]. eapply paints_ext; [|apply IH; [done|by apply paints_put]]. intros x y _ _. cbn [fst snd].
    assert (Hb : bool_decide ((x, y) ∈ (x0, y0) :: pts) = bool_decide ((x, y) = (x0, y0)) || bool_decide ((x, y) ∈ pts)).
    { apply eq_true_iff_eq. by rewrite orb_true_iff, !bool_decide_eq_true, elem_of_cons. }
    rewrite Hb. by destruct (bool_decide ((x, y) ∈ pts)), (bool_decide ((x, y) = (x0, y0))).
Qed.

(** Nested loops are one loop over the pairs. *)
Definition pairs (xs ys : list Z) : list (Z * Z) := y ← ys; x ← xs; [(x, y)].
Lemma nested_fold {A : Type} (g : A -> Z -> Z -> A) xs ys a :
  fold_left (fun a y => fold_left (fun a x => g a x y) xs a) ys a = fold_left (fun a p => g a p.1 p.2) (pairs xs ys) a.
Proof.
  revert a. unfold pairs. induction ys as [|y ys IH]; intros a; [done|]. cbn [fold_left mbind list_bind]. rewrite fold_left_app, <- IH.
  f_equal. generalize a at 1 2. clear. intros a. revert a. induction xs as [|x xs IH]; intros a; [done|]. cbn [fold_left mbind list_bind app fst snd]. apply IH.
Qed.
Lemma elem_of_pairs xs ys x y : (x, y) ∈ pairs xs ys <-> x ∈ xs /\ y ∈ ys.
Proof.
  unfold pairs. rewrite list_elem_of_bind. split.
  - intros (y' & (x' & Hxy & Hx)%list_elem_of_bind & Hy). apply list_elem_of_singleton in Hxy. by injection Hxy as -> ->.
  - intros [Hx Hy]. exists y. split; [|done]. apply list_elem_of_bind. exists x. split; [by apply list_elem_of_singleton|done].
Qed.
Lemma elem_of_range a b x : x ∈ range a b <-> a <= x < b.
Proof. unfold range. rewrite elem_of_seqZ. lia. Qed.

Lemma paints_rect geo color buf f x0 y0 w h : 0 <= x0 -> 0 <= y0 -> paints geo buf f ->
  paints geo (fill_rect buf geo x0 y0 w h color) (fun x y => if in_rect x0 y0 w h x y then color else f x y).
Proof.
  intros Hx0 Hy0 Hp. unfold fill_rect. rewrite (nested_fold (fun buf x y => put geo color buf x y)).
  eapply paints_ext; [|apply paints_points; [|exact Hp]].
  - intros x y Hx Hy. cbn beta.
    assert (Hb : bool_decide ((x, y) ∈ pairs (range x0 (Z.min (x0 + w) (width geo))) (range y0 (Z.min (y0 + h) (height geo)))) = in_rect x0 y0 w h x y).
    { apply eq_true_iff_eq. rewrite bool_decide_eq_true, elem_of_pairs, !elem_of_range, in_rect_true. lia. }
    by rewrite Hb.
  - apply Forall_forall. intros [x y] [Hx Hy]%elem_of_pairs. rewrite elem_of_range in Hx, Hy. cbn [fst snd]. lia.
Qed.

(** ** Pictures of codes and texts *)

Section dark.
Variables (code : QrCode) (l : Layout).
Definition module_dark (x y : Z) (m : Z * Z) : bool :=
  get_module code m.1 m.2 && in_rect (code_x l + m.1 * module_px l) (code_y l + m.2 * module_px l) (module_px l) (module_px l) x y.
Definition code_dark (x y : Z) : bool := existsb (module_dark x y) (pairs (range 0 (size code)) (range 0 (size code))).
End dark.

Lemma paints_code geo buf f code l : 0 <= code_x l -> 0 <= code_y l -> 0 <= module_px l -> paints geo buf f ->
  paints geo (draw_code buf geo code l) (fun x y => if code_dark code l x y then BLACK else f x y).
Proof.
  intros Hx Hy Hpx. unfold draw_code, code_dark.
  rewrite (nested_fold (fun buf mx my => if negb (get_module code mx my) then buf else fill_rect buf geo (code_x l + mx * module_px l)
     (code_y l + my * module_px l) (module_px l) (module_px l) BLACK)).
  assert (Hall : Forall (fun m => 0 <= m.1 /\ 0 <= m.2) (pairs (range 0 (size code)) (range 0 (size code)))).
  { apply Forall_forall. intros [mx my] [H1 H2]%elem_of_pairs. rewrite elem_of_range in H1, H2. cbn. lia. }
  revert Hall buf f. generalize (pairs (range 0 (size code)) (range 0 (size code))) as ms.
  induction ms as [|m ms IH]; intros Hall buf f Hp; cbn [fold_left existsb]; [done|]. apply Forall_cons in Hall as [[H1 H2] Hall].
  assert (Hm : paints geo (if negb (get_module code m.1 m.2) then buf else fill_rect buf geo (code_x l + m.1 * module_px l)
     (code_y l + m.2 * module_px l) (module_px l) (module_px l) BLACK) (fun x y => if module_dark code l x y m then BLACK else f x y)).
  { unfold module_dark. destruct (get_module code m.1 m.2); cbn [negb andb]; [|exact Hp]. apply paints_rect; [nia|nia|exact Hp]. }
  eapply paints_ext; [|apply (IH Hall _ _ Hm)]. intros x y _ _. cbn beta.
  by destruct (module_dark code l x y m), (existsb (module_dark code l x y) ms).
Qed.

(** The dark pixels of a text. *)
Fixpoint line_dark (line : rstr) (pen_x y col row scale : Z) (px py : Z) : bool :=
  match line with
  | [] => false
  | cell :: line => ((cell =? 35) && in_rect (pen_x + col * scale) (y + row * scale) scale scale px py) || line_dark line pen_x y (col + 1) row scale px py
  end.
Fixpoint glyph_dark (g : list string) (pen_x y row scale : Z) (px py : Z) : bool :=
  match g with
  | [] => false
  | line :: g => line_dark (lit line) pen_x y 0 row scale px py || glyph_dark g pen_x y (row + 1) scale px py
  end.
Fixpoint text_dark (text : rstr) (pen_x y scale : Z) (px py : Z) : bool :=
  match text with
  | [] => false
  | c :: text => glyph_dark (glyph c) pen_x y 0 scale px py || text_dark text (pen_x + (GLYPH_W + SPACING) * scale) y scale px py
  end.

Definition over (color : rgb) (dark : Z -> Z -> bool) (f : Z -> Z -> rgb) : Z -> Z -> rgb := fun x y => if dark x y then color else f x y.
Lemma over_or geo buf color d1 d2 f : paints geo buf (over color d2 (over color d1 f)) -> paints geo buf (over color (fun x y => d1 x y || d2 x y) f).
Proof. apply paints_ext. intros x y _ _. unfold over. by destruct (d1 x y), (d2 x y). Qed.

Lemma paints_line geo color pen_x y row scale : 0 <= pen_x -> 0 <= y -> 0 <= row -> 0 <= scale ->
  forall line col buf f, 0 <= col -> paints geo buf f ->
  paints geo (draw_line buf geo line pen_x y col row scale color) (over color (line_dark line pen_x y col row scale) f).
Proof.
  intros Hx Hy Hr Hs. induction line as [|cell line IH]; intros col buf f Hc Hp; cbn [draw_line line_dark]; [exact Hp|].
  apply (over_or _ _ _ (fun px py => (cell =? 35) && in_rect (pen_x + col * scale) (y + row * scale) scale scale px py)).
  apply IH; [lia|]. destruct (cell =? 35); cbn [negb andb]; [|exact Hp]. apply paints_rect; [nia|nia|exact Hp].
Qed.
Lemma paints_glyph geo color pen_x y scale : 0 <= pen_x -> 0 <= y -> 0 <= scale ->
  forall g row buf f, 0 <= row -> paints geo buf f ->
  paints geo (draw_glyph buf geo g pen_x y row scale color) (over color (glyph_dark g pen_x y row scale) f).
Proof.
  intros Hx Hy Hs. induction g as [|line g IH]; intros row buf f Hr Hp; cbn [draw_glyph glyph_dark]; [exact Hp|].
  apply (over_or _ _ _ (line_dark (lit line) pen_x y 0 row scale)). apply IH; [lia|]. by apply paints_line.
Qed.
Lemma paints_text geo color y scale : 0 <= y ->
  forall text pen_x buf f, 0 <= pen_x -> paints geo buf f ->
  paints geo (draw_text buf geo text pen_x y scale color) (over color (text_dark text pen_x y (Z.max scale 1)) f).
Proof.
  intros Hy. unfold draw_text. set (s := Z.max scale 1). induction text as [|c text IH]; intros pen_x buf f Hx Hp; cbn [draw_chars text_dark]; [exact Hp|].
  apply (over_or _ _ _ (glyph_dark (glyph c) pen_x y 0 s)). apply IH; [unfold GLYPH_W, SPACING; lia|]. apply paints_glyph; [done|done|lia|done|done].
Qed.

(** Where a text can be dark. *)
Lemma line_dark_inv line pen_x y col row scale px py : 0 <= scale -> line_dark line pen_x y col row scale px py = true ->
  pen_x + col * scale <= px < pen_x + (col + Z.of_nat (length line)) * scale /\ y + row * scale <= py < y + (row + 1) * scale.
Proof.
  intros Hs. revert col. induction line as [|cell line IH]; intros col; cbn [line_dark length]; [done|].
  intros [[_ Hr%in_rect_true]%andb_true_iff|Hd%IH]%orb_true_iff; nia.
Qed.
Lemma glyph_dark_inv g pen_x y row scale px py : 0 <= scale -> Forall (fun line => (length (lit line) <= 5)%nat) g ->
  glyph_dark g pen_x y row scale px py = true ->
  pen_x <= px < pen_x + GLYPH_W * scale /\ y + row * scale <= py < y + (row + Z.of_nat (length g)) * scale.
Proof.
  intros Hs. revert row. induction g as [|line g IH]; intros row; cbn [glyph_dark length]; [done|]. intros [Hl Hg]%Forall_cons.
  unfold GLYPH_W. intros [Hd%line_dark_inv|Hd%IH]%orb_true_iff; [nia|done| |done]. unfold GLYPH_W in Hd. nia.
Qed.

(** Every glyph is seven rows of five. *)
Lemma glyph_shape c : length (glyph c) = 7%nat /\ Forall (fun line => length (lit line) = 5%nat) (glyph c).
Proof.
  unfold glyph. cbv zeta. generalize (if in_range 97 122 c then c - 32 else c). intros d.
  repeat (destruct (d =? _); [split; [done|repeat constructor]|]). split; [done|repeat constructor].
Qed.

(** Text is dark from its left edge and its top on, and as high as a glyph. *)
Lemma text_dark_inv text pen_x y scale px py : 0 <= scale -> text_dark text pen_x y scale px py = true ->
  pen_x <= px /\ y <= py < y + GLYPH_H * scale.
Proof.
  intros Hs. revert pen_x. induction text as [|c text IH]; intros pen_x; cbn [text_dark]; [done|].
  destruct (glyph_shape c) as [Hl Hf]. intros [Hd%glyph_dark_inv|Hd%IH]%orb_true_iff.
  - rewrite Hl in Hd. unfold GLYPH_W, GLYPH_H in *. lia.
  - done.
  - eapply Forall_impl; [exact Hf|]. intros line ->. done.
  - unfold GLYPH_W, SPACING in Hd. nia.
Qed.

(** A cell of a glyph, and the dark pixels of it. *)
Definition glyph_bit (g : list string) (col row : Z) : bool :=
  match g !! Z.to_nat row with Some line => bool_decide (lit line !! Z.to_nat col = Some 35) | None => false end.

Lemma cell_unique scale a b d : 0 < scale -> 0 <= d < scale -> (a * scale <= b * scale + d < a * scale + scale <-> a = b).
Proof. intros Hs Hd. split; [|intros ->; lia]. intros [H1 H2]. assert (a < b + 1) by nia. assert (b < a + 1) by nia. lia. Qed.
Lemma line_dark_at line pen_x y col row0 scale c r dx dy : 0 < scale -> 0 <= dx < scale -> 0 <= dy < scale -> 0 <= col ->
  line_dark line pen_x y col row0 scale (pen_x + c * scale + dx) (y + r * scale + dy) =
  bool_decide (r = row0) && bool_decide (col <= c /\ line !! Z.to_nat (c - col) = Some 35).
Proof.
  intros Hs Hdx Hdy. revert col. induction line as [|cell line IH]; intros col Hc; cbn [line_dark].
  - rewrite (bool_decide_eq_false_2 (col <= c /\ _)); [by rewrite andb_false_r|]. by intros [_ ?].
  - rewrite IH by lia. apply eq_true_iff_eq. rewrite orb_true_iff, !andb_true_iff, !bool_decide_eq_true, in_rect_true, Z.eqb_eq.
    assert (Hx : pen_x + col * scale <= pen_x + c * scale + dx < pen_x + col * scale + scale <-> col = c)
      by (rewrite <- (cell_unique scale col c dx Hs Hdx); lia).
    assert (Hy : y + row0 * scale <= y + r * scale + dy < y + row0 * scale + scale <-> row0 = r)
      by (rewrite <- (cell_unique scale row0 r dy Hs Hdy); lia).
    rewrite Hx, Hy. destruct (decide (col = c)) as [->|Hne].
    + rewrite Z.sub_diag. cbn. split; [intros [(-> & _ & ->)|(_ & ? & _)]; [done|lia]|]. intros [-> [_ [= ->]]]. left. done.
    + split.
      * intros [(_ & -> & _)|(-> & Hle & Hl)]; [done|]. split_and!; [done|lia|].
        replace (Z.to_nat (c - col)) with (S (Z.to_nat (c - (col + 1)))) by lia. exact Hl.
      * intros (-> & Hle & Hl). right. split_and!; [done|lia|].
        replace (Z.to_nat (c - col)) with (S (Z.to_nat (c - (col + 1)))) in Hl by lia. exact Hl.
Qed.
Lemma glyph_dark_at g pen_x y row0 scale c r dx dy : 0 < scale -> 0 <= dx < scale -> 0 <= dy < scale -> 0 <= c -> row0 <= r ->
  glyph_dark g pen_x y row0 scale (pen_x + c * scale + dx) (y + r * scale + dy) = glyph_bit g c (r - row0).
Proof.
  intros Hs Hdx Hdy Hc. revert row0. induction g as [|line g IH]; intros row0 Hr; cbn [glyph_dark]; [done|].
  rewrite line_dark_at by (done || lia). rewrite Z.sub_0_r. destruct (decide (r = row0)) as [->|Hne].
  - rewrite Z.sub_diag, bool_decide_eq_true_2 by done. unfold glyph_bit. cbn [lookup list_lookup Z.to_nat andb].
    assert (Hf : glyph_dark g pen_x y (row0 + 1) scale (pen_x + c * scale + dx) (y + row0 * scale + dy) = false).
    { clear IH Hr. assert (Hg : forall g r1, row0 < r1 -> glyph_dark g pen_x y r1 scale (pen_x + c * scale + dx) (y + row0 * scale + dy) = false).
      { clear g. induction g as [|line' g IH]; intros r1 Hr1; cbn [glyph_dark]; [done|]. rewrite line_dark_at by (done || lia).
        rewrite bool_decide_eq_false_2 by lia. apply IH. lia. }
      apply Hg. lia. }
    rewrite Hf, orb_false_r. apply bool_decide_ext. split; [by intros [_ ?]|done].
  - rewrite (bool_decide_eq_false_2 (r = row0)) by done. cbn [andb orb]. rewrite IH by lia. unfold glyph_bit.
    by replace (Z.to_nat (r - row0)) with (S (Z.to_nat (r - (row0 + 1)))) by lia.
Qed.

(** A text's pixels are its characters' cells, six cells apart. *)
Lemma text_dark_at text pen_x y scale i ch c r dx dy : 0 < scale -> 0 <= dx < scale -> 0 <= dy < scale -> 0 <= c < GLYPH_W -> 0 <= r ->
  text !! i = Some ch ->
  text_dark text pen_x y scale (pen_x + (Z.of_nat i * (GLYPH_W + SPACING) + c) * scale + dx) (y + r * scale + dy) = glyph_bit (glyph ch) c r.
Proof.
  intros Hs Hdx Hdy Hc Hr. unfold GLYPH_W, SPACING in *. revert pen_x i. induction text as [|c0 text IH]; intros pen_x i; [done|].
  destruct i as [|i]; cbn [text_dark lookup list_lookup].
  - intros [= ->]. replace (pen_x + (Z.of_nat 0 * (5 + 1) + c) * scale + dx) with (pen_x + c * scale + dx) by lia.
    rewrite glyph_dark_at by (done || lia). rewrite Z.sub_0_r.
    destruct (text_dark text _ _ _ _ _) eqn:Ht; [|by rewrite orb_false_r]. apply text_dark_inv in Ht; [|lia]. unfold GLYPH_W, SPACING in Ht. nia.
  - intros Hi. destruct (glyph_dark _ _ _ _ _ _ _) eqn:Hg.
    { apply glyph_dark_inv in Hg; [|lia|]. - unfold GLYPH_W in Hg. nia.
      - eapply Forall_impl; [apply glyph_shape|]. intros line ->. done. }
    cbn [orb]. replace (pen_x + (Z.of_nat (S i) * (5 + 1) + c) * scale + dx) with
      (pen_x + (GLYPH_W + SPACING) * scale + (Z.of_nat i * (5 + 1) + c) * scale + dx) by (unfold GLYPH_W, SPACING; lia).
    by apply IH.
Qed.

(** ** The layout *)

Definition reduced_quiet (px : Z) : Z := div_ceil (QUIET_MODULES * px * 3) 4.
Definition caption_height (caption : bool) (scale : Z) : Z := if caption then CAPTION_GAP + GLYPH_H * Z.max scale 1 else 0.
(** A code with modules of [px] and a margin of [quiet], and the caption, fit. *)
Definition fits (size : Z) (caption : bool) (scale : Z) (geo : ScreenGeometry) (px quiet : Z) : Prop :=
  size * px + 2 * quiet <= width geo /\ size * px + 2 * quiet + caption_height caption scale <= height geo - top_inset geo.
Definition placed (size : Z) (caption : bool) (scale : Z) (geo : ScreenGeometry) (l : Layout) : Prop :=
  caption_scale l = Z.max scale 1 /\ code_x l = (width geo - size * module_px l) / 2 /\
  code_y l = top_inset geo + (Z.max 0 (height geo - top_inset geo) - (quiet_px l + size * module_px l + quiet_px l + caption_height caption scale)) / 2 + quiet_px l /\
  caption_y l = if caption then Some (code_y l + size * module_px l + quiet_px l + CAPTION_GAP) else None.

Lemma reduced_quiet_bounds px : 3 * px <= 2 * reduced_quiet px <= 3 * px + 1.
Proof.
  unfold reduced_quiet, div_ceil, QUIET_MODULES. pose proof (Z.div_mod (2 * px * 3 + 4 - 1) 4 ltac:(done)) as Hd.
  pose proof (Z.mod_pos_bound (2 * px * 3 + 4 - 1) 4 ltac:(done)). lia.
Qed.

Lemma try_layout_spec size caption scale geo px quiet : 0 <= size -> 0 <= px -> 0 <= quiet ->
  match try_layout size caption (Z.max scale 1) (caption_height caption scale) (Z.max 0 (height geo - top_inset geo)) geo px quiet with
  | Some l => module_px l = px /\ quiet_px l = quiet /\ placed size caption scale geo l /\
      (0 < quiet -> fits size caption scale geo px quiet)
  | None => ~ fits size caption scale geo px quiet
  end.
Proof.
  intros Hs Hpx Hq. unfold try_layout, fits. set (ch := caption_height caption scale).
  assert (Hch : 0 <= ch) by (subst ch; unfold caption_height, CAPTION_GAP, GLYPH_H; destruct caption; lia).
  destruct (Z.ltb_spec (width geo) (size * px + 2 * quiet)); cbn [orb]; [lia|].
  destruct (Z.ltb_spec (Z.max 0 (height geo - top_inset geo)) (quiet + size * px + quiet + ch)); [lia|].
  cbn. unfold placed. cbn. fold ch. split_and!; try done. intros. split; [done|]. nia.
Qed.

Lemma layout_loop_spec size caption scale geo sizes : 0 <= size -> Forall (fun px => 0 < px) sizes ->
  match layout_loop sizes size caption (Z.max scale 1) (caption_height caption scale) (Z.max 0 (height geo - top_inset geo)) geo with
  | None => Forall (fun px => ~ fits size caption scale geo px (reduced_quiet px)) sizes
  | Some l => exists before after, sizes = before ++ module_px l :: after /\
      Forall (fun px => ~ fits size caption scale geo px (reduced_quiet px)) before /\
      (quiet_px l = QUIET_MODULES * module_px l \/
       quiet_px l = reduced_quiet (module_px l) /\ ~ fits size caption scale geo (module_px l) (QUIET_MODULES * module_px l)) /\
      fits size caption scale geo (module_px l) (quiet_px l) /\ placed size caption scale geo l
  end.
Proof.
  intros Hs. induction 1 as [|px sizes Hpx Hsizes IH]; [constructor|]. cbn [layout_loop].
  pose proof (reduced_quiet_bounds px) as Hr.
  pose proof (try_layout_spec size caption scale geo px (QUIET_MODULES * px) Hs ltac:(lia) ltac:(unfold QUIET_MODULES; lia)) as H1.
  destruct (try_layout _ _ _ _ _ _ px (QUIET_MODULES * px)) as [l|].
  { destruct H1 as (H1 & H2 & H3 & H4). exists [], sizes. rewrite H1, H2. split_and!; try done; [by left|]. apply H4. unfold QUIET_MODULES. lia. }
  pose proof (try_layout_spec size caption scale geo px (reduced_quiet px) Hs ltac:(lia) ltac:(lia)) as H2.
  change (div_ceil (QUIET_MODULES * px * 3) 4) with (reduced_quiet px).
  destruct (try_layout _ _ _ _ _ _ px (reduced_quiet px)) as [l|].
  { destruct H2 as (H2 & H3 & H4 & H5). exists [], sizes. rewrite H2, H3. split_and!; try done; [by right|]. apply H5. lia. }
  destruct (layout_loop sizes _ _ _ _ _ _) as [l|]; [|by constructor].
  destruct IH as (before & after & -> & Hb & Hrest). exists (px :: before), after. split; [done|]. split; [by constructor|done].
Qed.

Lemma fits_full_reduced size caption scale geo px : 0 < px -> fits size caption scale geo px (QUIET_MODULES * px) -> fits size caption scale geo px (reduced_quiet px).
Proof. intros Hpx. pose proof (reduced_quiet_bounds px). unfold fits, QUIET_MODULES. lia. Qed.

Lemma layout_cases size wanted caption scale geo : 0 <= size ->
  match layout size wanted caption scale geo with
  | None => forall px, MIN_MODULE_PX <= px <= Z.max wanted MIN_MODULE_PX -> ~ fits size caption scale geo px (reduced_quiet px)
  | Some l =>
      MIN_MODULE_PX <= module_px l <= Z.max wanted MIN_MODULE_PX /\
      (quiet_px l = QUIET_MODULES * module_px l \/
       quiet_px l = reduced_quiet (module_px l) /\ ~ fits size caption scale geo (module_px l) (QUIET_MODULES * module_px l)) /\
      fits size caption scale geo (module_px l) (quiet_px l) /\ placed size caption scale geo l /\
      (forall px, module_px l < px <= Z.max wanted MIN_MODULE_PX -> ~ fits size caption scale geo px (reduced_quiet px))
  end.
Proof.
  intros Hs. unfold layout. fold (caption_height caption scale). set (m := Z.max wanted MIN_MODULE_PX).
  assert (Hin : forall px, px ∈ rev (range MIN_MODULE_PX (m + 1)) <-> MIN_MODULE_PX <= px <= m).
  { intros px. rewrite list_elem_of_In, <- in_rev, <- list_elem_of_In, elem_of_range. lia. }
  pose proof (layout_loop_spec size caption scale geo (rev (range MIN_MODULE_PX (m + 1))) Hs) as Hl.
  assert (Hpos : Forall (fun px => 0 < px) (rev (range MIN_MODULE_PX (m + 1)))).
  { apply Forall_forall. intros px Hpx%Hin. unfold MIN_MODULE_PX in *. lia. }
  specialize (Hl Hpos). destruct (layout_loop _ _ _ _ _ _ _) as [l|].
  - destruct Hl as (before & after & He & Hb & Hq & Hf & Hp). assert (Hm : module_px l ∈ rev (range MIN_MODULE_PX (m + 1))).
    { rewrite He. apply elem_of_app. right. constructor. }
    split_and!; try done; try by apply Hin. intros px Hpx. rewrite Forall_forall in Hb. apply Hb.
    assert (Hrev : range MIN_MODULE_PX (m + 1) = rev after ++ module_px l :: rev before).
    { rewrite <- (rev_involutive (range _ _)), He, rev_app_distr. cbn [rev]. by rewrite <- app_assoc. }
    assert (Hx : px ∈ rev after ++ module_px l :: rev before) by (rewrite <- Hrev; apply elem_of_range; apply Hin in Hm; lia).
    assert (Hsort : forall a b n, range a n = b ++ module_px l :: rev before -> px ∈ b -> px < module_px l).
    { intros a b n Hr Hpb. apply list_elem_of_lookup in Hpb as [i Hi].
      assert (H1 : range a n !! i = Some px) by (rewrite Hr; by apply lookup_app_l_Some).
      assert (H2 : range a n !! length b = Some (module_px l)) by (rewrite Hr; by apply list_lookup_middle).
      unfold range in H1, H2. apply lookup_seqZ in H1, H2. apply lookup_lt_Some in Hi. lia. }
    apply elem_of_app in Hx as [Hx|Hx]; [apply (Hsort _ _ _ Hrev) in Hx; lia|].
    apply elem_of_cons in Hx as [Hx|Hx]; [lia|]. by rewrite list_elem_of_In, <- in_rev, <- list_elem_of_In in Hx.
  - intros px Hpx%Hin. rewrite Forall_forall in Hl. by apply Hl.
Qed.

(** ** What a camera and a person see *)

Lemma code_dark_at code l mx my dx dy : 0 <= mx < size code -> 0 <= my < size code ->
  0 <= dx < module_px l -> 0 <= dy < module_px l ->
  code_dark code l (code_x l + mx * module_px l + dx) (code_y l + my * module_px l + dy) = get_module code mx my.
Proof.
  intros Hmx Hmy Hdx Hdy. apply eq_true_iff_eq. unfold code_dark. rewrite existsb_exists. split.
  - intros ([mx' my'] & _ & [Hg Hr%in_rect_true]%andb_true_iff). cbn [fst snd] in *.
    assert (mx' = mx) by (apply (cell_unique (module_px l) mx' mx dx); lia).
    assert (my' = my) by (apply (cell_unique (module_px l) my' my dy); lia). by subst.
  - intros Hg. exists (mx, my). split; [|unfold module_dark; rewrite andb_true_iff, in_rect_true; cbn [fst snd]; split; [done|lia]].
    apply list_elem_of_In, elem_of_pairs. rewrite !elem_of_range. lia.
Qed.
Lemma code_dark_inv code l x y : 0 <= module_px l -> code_dark code l x y = true ->
  code_x l <= x < code_x l + size code * module_px l /\ code_y l <= y < code_y l + size code * module_px l.
Proof.
  intros Hpx. unfold code_dark. rewrite existsb_exists. intros ([mx my] & Hin & [_ Hr%in_rect_true]%andb_true_iff). cbn [fst snd] in Hr.
  apply list_elem_of_In, elem_of_pairs in Hin as [H1 H2]. rewrite elem_of_range in H1, H2. nia.
Qed.

(** The whole picture, once the layout has found a place. *)
Definition caption_dark (caption : option rstr) (l : Layout) (geo : ScreenGeometry) (x y : Z) : bool :=
  match caption, caption_y l with
  | Some text, Some y0 => text_dark text (Z.max 0 (width geo - text_width text (caption_scale l)) / 2) y0 (caption_scale l) x y
  | _, _ => false
  end.
Lemma paints_render code l caption geo : geo_ok geo -> 0 <= code_x l -> 0 <= code_y l -> 0 <= module_px l -> 1 <= caption_scale l ->
  (forall y, caption_y l = Some y -> 0 <= y) ->
  paints geo (render code l caption geo) (over BLACK (caption_dark caption l geo) (over BLACK (code_dark code l) (fun _ _ => WHITE))).
Proof.
  intros Hgeo Hx Hy Hpx Hs Hc. unfold render, caption_dark. pose proof (paints_code geo _ _ code l Hx Hy Hpx (paints_blank geo WHITE Hgeo)) as Hp.
  destruct caption as [text|]; [|exact Hp]. destruct (caption_y l) as [y0|]; [|exact Hp].
  apply (paints_text geo BLACK y0 (caption_scale l) (Hc y0 eq_refl)) with (text := text) (pen_x := Z.max 0 (width geo - text_width text (caption_scale l)) / 2) in Hp.
  - by replace (Z.max (caption_scale l) 1) with (caption_scale l) in Hp by lia.
  - apply Z.div_pos; lia.
Qed.

Lemma placed_bounds size caption scale geo l : geo_ok geo -> 0 <= size -> 0 <= module_px l -> 3 * module_px l <= 2 * quiet_px l ->
  fits size caption scale geo (module_px l) (quiet_px l) -> placed size caption scale geo l ->
  quiet_px l <= code_x l /\ code_x l + size * module_px l + quiet_px l <= width geo /\
  top_inset geo + quiet_px l <= code_y l /\ code_y l + size * module_px l + quiet_px l + caption_height caption scale <= height geo /\
  (caption = true -> caption_y l = Some (code_y l + size * module_px l + quiet_px l + CAPTION_GAP)) /\ (caption = false -> caption_y l = None).
Proof.
  intros (Hw & Hh & Hi) Hs Hpx Hq (Hf1 & Hf2) (_ & Hx & Hy & Hc).
  assert (Hcode : 0 <= size * module_px l) by nia.
  assert (Hch : 0 <= caption_height caption scale) by (unfold caption_height, CAPTION_GAP, GLYPH_H; destruct caption; lia).
  pose proof (Z.div_mod (width geo - size * module_px l) 2 ltac:(done)). pose proof (Z.mod_pos_bound (width geo - size * module_px l) 2 ltac:(done)).
  set (rest := Z.max 0 (height geo - top_inset geo) - (quiet_px l + size * module_px l + quiet_px l + caption_height caption scale)) in *.
  pose proof (Z.div_mod rest 2 ltac:(done)). pose proof (Z.mod_pos_bound rest 2 ltac:(done)).
  split_and!; [lia|lia|lia|lia| |]; intros ->; done.
Qed.

(** C36: a code on the screen can be scanned.  Wherever [layout] places a code of any size on any screen, with
    or without a caption of any length, the code and its margin lie within the part of the screen that
    shows; modules are at least two pixels and the margin one and a half modules; every pixel of
    every module has the module's colour, and every pixel of the margin is white: the caption touches
    neither. *)
Theorem screen_scans code wanted has_caption caption scale geo : geo_ok geo -> 0 <= size code ->
  match layout (size code) wanted has_caption scale geo with
  | None => True
  | Some l =>
      let buf := render code l caption geo in
      let side := size code * module_px l in
      MIN_MODULE_PX <= module_px l /\ 3 * module_px l <= 2 * quiet_px l /\
      quiet_px l <= code_x l /\ code_x l + side + quiet_px l <= width geo /\
      top_inset geo + quiet_px l <= code_y l /\ code_y l + side + quiet_px l <= height geo /\
      (forall mx my dx dy, 0 <= mx < size code -> 0 <= my < size code -> 0 <= dx < module_px l -> 0 <= dy < module_px l ->
         pixel geo buf (code_x l + mx * module_px l + dx) (code_y l + my * module_px l + dy) =
           Some (if get_module code mx my then BLACK else WHITE)) /\
      (forall x y, in_rect (code_x l - quiet_px l) (code_y l - quiet_px l) (side + 2 * quiet_px l) (side + 2 * quiet_px l) x y = true ->
         in_rect (code_x l) (code_y l) side side x y = false -> pixel geo buf x y = Some WHITE)
  end.
Proof.
  intros Hgeo Hs. pose proof (layout_cases (size code) wanted has_caption scale geo Hs) as Hl.
  destruct (layout _ _ _ _ _) as [l|]; [|done]. destruct Hl as (Hpx & Hq & Hf & Hp & _). cbv zeta. unfold MIN_MODULE_PX, QUIET_MODULES in *.
  pose proof (reduced_quiet_bounds (module_px l)) as Hr.
  assert (Hq2 : 3 * module_px l <= 2 * quiet_px l) by (destruct Hq as [->|[-> _]]; lia).
  pose proof (placed_bounds _ _ _ _ l Hgeo Hs ltac:(lia) Hq2 Hf Hp) as (H1 & H2 & H3 & H4 & H5 & H6).
  assert (Hch : 0 <= caption_height has_caption scale) by (unfold caption_height, CAPTION_GAP, GLYPH_H; destruct has_caption; lia).
  assert (Hcy : forall y0, caption_y l = Some y0 -> code_y l + size code * module_px l + quiet_px l <= y0).
  { intros y0 Hy0. destruct has_caption; [|by rewrite H6 in Hy0]. rewrite H5 in Hy0 by done. injection Hy0 as <-. unfold CAPTION_GAP. lia. }
  destruct Hgeo as (Hw & Hh & Hi). assert (Hside : 0 <= size code * module_px l) by nia.
  destruct (paints_render code l caption geo) as [_ Hpix]; [done|lia|lia|lia|destruct Hp as [-> _]; lia|intros y0 Hy0%Hcy; lia|].
  assert (Hcap : forall x y, y < code_y l + size code * module_px l + quiet_px l -> caption_dark caption l geo x y = false).
  { intros x y Hy. unfold caption_dark. destruct caption as [text|]; [|done]. destruct (caption_y l) as [y0|] eqn:Hy0; [|done].
    destruct (text_dark _ _ _ _ _ _) eqn:Ht; [|done]. apply text_dark_inv in Ht; [|destruct Hp as [-> _]; lia]. specialize (Hcy _ eq_refl). lia. }
  split_and!; try lia.
  - intros mx my dx dy Hmx Hmy Hdx Hdy. rewrite Hpix by nia. unfold over. rewrite Hcap by nia. by rewrite code_dark_at.
  - intros x y Hin%in_rect_true Hout. rewrite Hpix by lia. unfold over. rewrite Hcap by lia.
    destruct (code_dark code l x y) eqn:Hd; [|done]. apply code_dark_inv in Hd; [|lia]. by rewrite (proj2 (in_rect_true _ _ _ _ _ _)) in Hout.
Qed.

(** A code of nine modules on the screen that hides its top rows. *)
Definition checkered : QrCode := mkQr 9 (fun x y => Z.even (x + y)).
Lemma screen_scans_witness :
  geo_ok (mkGeo 128 128 6) /\ 0 <= size checkered /\ is_Some (layout 9 4 true 1 (mkGeo 128 128 6)) /\
  match layout (size checkered) 4 true 1 (mkGeo 128 128 6) with
  | None => True
  | Some l => forall mx my dx dy, 0 <= mx < size checkered -> 0 <= my < size checkered -> 0 <= dx < module_px l -> 0 <= dy < module_px l ->
      pixel (mkGeo 128 128 6) (render checkered l (Some (lit "AB")) (mkGeo 128 128 6))
        (code_x l + mx * module_px l + dx) (code_y l + my * module_px l + dy) = Some (if get_module checkered mx my then BLACK else WHITE)
  end.
Proof.
  assert (Hg : geo_ok (mkGeo 128 128 6)) by (split_and!; cbn; lia).
  split; [exact Hg|]. split; [cbn; lia|]. split; [vm_compute; by eexists|].
  pose proof (screen_scans checkered 4 true (Some (lit "AB")) 1 (mkGeo 128 128 6) Hg ltac:(cbn; lia)) as H.
  destruct (layout (size checkered) 4 true 1 (mkGeo 128 128 6)) as [l|]; [|exact I].
  destruct H as (_ & _ & _ & _ & _ & _ & H & _). exact H.
Defined.

(** The layout is the largest there is.  The module size found is at most the one wanted; no larger one
    would fit, even with the reduced margin; the margin is two modules, or when that does not fit three
    quarters of it, rounded up; and nothing is found only when nothing fits. *)
Theorem layout_largest size wanted caption scale geo : 0 <= size ->
  let good px := fits size caption scale geo px (reduced_quiet px) in
  match layout size wanted caption scale geo with
  | Some l =>
      MIN_MODULE_PX <= module_px l <= Z.max wanted MIN_MODULE_PX /\ good (module_px l) /\
      (forall px, module_px l < px <= Z.max wanted MIN_MODULE_PX -> ~ good px) /\
      ((fits size caption scale geo (module_px l) (QUIET_MODULES * module_px l) /\ quiet_px l = QUIET_MODULES * module_px l) \/
       (~ fits size caption scale geo (module_px l) (QUIET_MODULES * module_px l) /\ quiet_px l = reduced_quiet (module_px l)))
  | None => forall px, MIN_MODULE_PX <= px <= Z.max wanted MIN_MODULE_PX -> ~ good px
  end.
Proof.
  intros Hs. cbv zeta. pose proof (layout_cases size wanted caption scale geo Hs) as Hl. destruct (layout _ _ _ _ _) as [l|]; [|exact Hl].
  destruct Hl as (Hpx & Hq & Hf & _ & Hlarge). split; [done|]. split; [|split; [done|]].
  - destruct Hq as [He|[<- _]]; [|done]. rewrite He in Hf. apply fits_full_reduced; [unfold MIN_MODULE_PX in *; lia|done].
  - destruct Hq as [He|[He Hn]]; [left|by right]. by rewrite <- He at 1.
Qed.
Lemma layout_largest_witness :
  0 <= 25 /\ match layout 25 4 true 1 (mkGeo 128 128 6) with
             | Some l => module_px l = 4 /\ quiet_px l = 6 /\ ~ fits 25 true 1 (mkGeo 128 128 6) 4 (QUIET_MODULES * 4)
             | None => False
             end.
Proof.
  split; [lia|]. pose proof (layout_largest 25 4 true 1 (mkGeo 128 128 6) ltac:(lia)) as H. vm_compute layout in *.
  split; [reflexivity|]. split; [reflexivity|]. destruct H as (_ & _ & _ & [[_ H]|[H _]]); [discriminate H|exact H].
Defined.

(** The setup link is a code of 25 modules; it fits every screen that can be painted, at four pixels a module. *)
Lemma setup_code_fits d geo : screen_geometry d = Some geo ->
  match layout 25 4 true 1 geo with Some l => module_px l = 4 | None => False end.
Proof. destruct d; intros [= <-]; vm_compute; reflexivity. Qed.

(** ** Reading the text *)

(** What the font has pictures of, and reading one off a picture. *)
Definition FONT : rstr := lit "0123456789ABCDEFGHIJKLMNOPQRSTUVWXYZ .:/-".
Definition looks_like (cell : Z -> Z -> bool) (c : rchar) : bool :=
  forallb (fun row => forallb (fun col => eqb (cell col row) (glyph_bit (glyph c) col row)) (range 0 GLYPH_W)) (range 0 GLYPH_H).
Definition read_char (cell : Z -> Z -> bool) : option rchar := find (looks_like cell) FONT.
Definition is_black (geo : ScreenGeometry) (buf : list rgb) (x y : Z) : bool := bool_decide (pixel geo buf x y = Some BLACK).
(** The [n] characters of a text at [x], [y], by one pixel of each cell. *)
Definition read_text (geo : ScreenGeometry) (buf : list rgb) (x y scale : Z) (n : nat) : list (option rchar) :=
  map (fun i => read_char (fun col row => is_black geo buf (x + (Z.of_nat i * (GLYPH_W + SPACING) + col) * scale) (y + row * scale))) (seq 0 n).

(** No two pictures of the font are alike. *)
Lemma read_glyph c : c ∈ FONT -> read_char (glyph_bit (glyph c)) = Some c.
Proof.
  intros Hc. assert (Hall : forallb (fun c => bool_decide (read_char (glyph_bit (glyph c)) = Some c)) FONT = true) by (vm_compute; reflexivity).
  rewrite forallb_forall in Hall. apply list_elem_of_In, Hall, bool_decide_eq_true in Hc. exact Hc.
Qed.
Lemma read_char_ext cell cell' : (forall col row, 0 <= col < GLYPH_W -> 0 <= row < GLYPH_H -> cell col row = cell' col row) -> read_char cell = read_char cell'.
Proof.
  intros He. unfold read_char. assert (Hl : forall c, looks_like cell c = looks_like cell' c).
  { intros c. apply eq_true_iff_eq. unfold looks_like. rewrite !forallb_forall.
    split; intros H row Hrow; specialize (H row Hrow); apply list_elem_of_In, elem_of_range in Hrow; rewrite forallb_forall in H |- *;
      intros col Hcol; specialize (H col Hcol); apply list_elem_of_In, elem_of_range in Hcol; by rewrite He in * by done. }
  generalize FONT as chars. induction chars as [|c chars IH]; [done|]. cbn [find]. by rewrite Hl, IH.
Qed.

(** The code under the picture can be read.  The caption of any code on any screen, written in the font's
    characters and not wider than the screen, is read back exactly from the pixels at the place where
    the layout put it: no character is cut off, hidden by the code or drawn like another. *)
Theorem caption_reads_back code wanted text scale geo : geo_ok geo -> 0 <= size code -> Forall (fun c => c ∈ FONT) text ->
  text_width text (Z.max scale 1) <= width geo ->
  match layout (size code) wanted true scale geo with
  | None => True
  | Some l => exists y, caption_y l = Some y /\
      read_text geo (render code l (Some text) geo) ((width geo - text_width text (caption_scale l)) / 2) y (caption_scale l) (length text) =
        map Some text
  end.
Proof.
  intros Hgeo Hs Htext Hwidth. pose proof (layout_cases (size code) wanted true scale geo Hs) as Hl.
  destruct (layout _ _ _ _ _) as [l|]; [|done]. destruct Hl as (Hpx & Hq & Hf & Hp & _). unfold MIN_MODULE_PX, QUIET_MODULES in *.
  pose proof (reduced_quiet_bounds (module_px l)) as Hr.
  assert (Hq2 : 3 * module_px l <= 2 * quiet_px l) by (destruct Hq as [->|[-> _]]; lia).
  pose proof (placed_bounds _ _ _ _ l Hgeo Hs ltac:(lia) Hq2 Hf Hp) as (H1 & H2 & H3 & H4 & H5 & _).
  destruct Hp as (Hsc & _). specialize (H5 eq_refl). eexists. split; [exact H5|]. rewrite Hsc. set (s := Z.max scale 1) in *.
  unfold caption_height in H4. fold s in H4. set (y0 := code_y l + _ + _ + CAPTION_GAP) in *.
  assert (Hside : 0 <= size code * module_px l) by nia. pose proof Hgeo as (Hw & Hh & Hi).
  destruct (paints_render code l (Some text) geo) as [_ Hpix];
    [done|lia|lia|lia|lia|intros y; rewrite H5; intros [= <-]; unfold CAPTION_GAP in *; lia|].
  apply list_eq. intros i. unfold read_text. change (map ?f ?l) with (f <$> l). rewrite !list_lookup_fmap.
  destruct (text !! i) as [ch|] eqn:Hch.
  2: { rewrite lookup_seq_ge by (by apply lookup_ge_None in Hch). reflexivity. }
  pose proof (lookup_lt_Some _ _ _ Hch) as Hlt. rewrite lookup_seq_lt by done. cbn [fmap option_fmap option_map]. f_equal.
  assert (Hin : ch ∈ FONT) by exact (Forall_lookup_1 _ _ _ _ Htext Hch). rewrite <- (read_glyph ch Hin). apply read_char_ext. intros col row Hcol Hrow. cbn [Nat.add].
  set (tw := text_width text s) in *. unfold is_black.
  assert (Htw : 0 <= (Z.of_nat i * (GLYPH_W + SPACING) + col) * s < tw).
  { subst tw. unfold text_width, GLYPH_W, SPACING in *. destruct (Z.eqb_spec (Z.of_nat (length text)) 0); nia. }
  pose proof (Z.div_mod (width geo - tw) 2 ltac:(done)). pose proof (Z.mod_pos_bound (width geo - tw) 2 ltac:(done)).
  unfold GLYPH_H, CAPTION_GAP in *. assert (Hrs : 0 <= row * s < 7 * s) by nia.
  rewrite Hpix by lia. unfold over, caption_dark. rewrite H5, Hsc. fold s tw. rewrite Z.max_r by lia.
  pose proof (text_dark_at text ((width geo - tw) / 2) y0 s i ch col row 0 0) as Hd. rewrite !Z.add_0_r in Hd. rewrite Hd by (done || lia).
  destruct (glyph_bit (glyph ch) col row); [by rewrite bool_decide_eq_true_2|].
  destruct (code_dark code l _ _) eqn:Hcd; [apply code_dark_inv in Hcd; lia|]. by rewrite bool_decide_eq_false_2.
Qed.
Lemma caption_reads_back_witness :
  geo_ok (mkGeo 128 128 6) /\ Forall (fun c => c ∈ FONT) (lit "1A7Z 0OQ8") /\
  match layout (size checkered) 4 true 1 (mkGeo 128 128 6) with
  | None => False
  | Some l => exists y, caption_y l = Some y /\
      read_text (mkGeo 128 128 6) (render checkered l (Some (lit "1A7Z 0OQ8")) (mkGeo 128 128 6))
        ((128 - text_width (lit "1A7Z 0OQ8") (caption_scale l)) / 2) y (caption_scale l) 9 = map Some (lit "1A7Z 0OQ8")
  end.
Proof.
  assert (Hg : geo_ok (mkGeo 128 128 6)) by (split_and!; cbn; lia).
  assert (Hf : Forall (fun c => c ∈ FONT) (lit "1A7Z 0OQ8")) by (apply (bool_decide_unpack _); vm_compute; reflexivity).
  split; [exact Hg|]. split; [exact Hf|].
  pose proof (caption_reads_back checkered 4 (lit "1A7Z 0OQ8") 1 (mkGeo 128 128 6) Hg ltac:(cbn; lia) Hf ltac:(vm_compute; discriminate)) as H.
  assert (Hs : is_Some (layout (size checkered) 4 true 1 (mkGeo 128 128 6))) by (vm_compute; by eexists).
  destruct (layout (size checkered) 4 true 1 (mkGeo 128 128 6)) as [l|]; [exact H|by destruct Hs].
Defined.
