(* ===== verification/Framebuffer.v ===== *)
(** * Drawing on the unit's screen ([daemon/src/display/generic_framebuffer.rs] and its drivers)

    What is drawn for which state: colours and patterns, the status line with its banner, pictures, and the loop that
    decides between them, one turn at a time, with everything a turn reads as its input.  A driver writes a
    buffer over the first pixels of the screen, row by row.  The [image] crate is a picture and how it is made smaller. *)

From S2P Require Import Prelude RustStr Analyzer DiagTask Buttons Qr.

Local Open Scope Z_scope.

(** ** Colours *)

Inductive Color := Red | Green | Blue | White | Black | Cyan | Yellow | Pink | Orange | Rgb (r g b : Z).
Inductive LinePattern := Solid | Dashed | Dotted.

Definition color_rgb (c : Color) : rgb :=
  match c with
  | Red => (0xff, 0, 0)
  | Green => (0, 0xff, 0)
  | Blue => (0, 0, 0xff)
  | White => (0xff, 0xff, 0xff)
  | Black => (0, 0, 0)
  | Cyan => (0, 0xff, 0xff)
  | Yellow => (0xff, 0xff, 0)
  | Pink => (0xfe, 0x24, 0xff)
  | Orange => (0xff, 0xa5, 0)
  | Rgb r g b => (r, g, b)
  end.

(** [config::parse_hex_color]. *)
Definition parse_hex_color (hex : rstr) : option (Z * Z * Z) :=
  let hex := default hex (strip_prefix [35] hex) in
  match mapM to_digit16 hex with
  | Some [a; b; c; d; e; f] => Some (16 * a + b, 16 * c + d, 16 * e + f)
  | _ => None
  end.

(** [config::DisplayColors]. *)
Record DisplayColors := mkDisplayColors {
  c_paused : option rstr;
  c_recording : option rstr;
  c_warning_low : option rstr;
  c_warning_medium : option rstr;
  c_warning_high : option rstr }.

Definition override_or (override_hex : option rstr) (dflt : Color) : Color :=
  match override_hex with
  | Some hex => match parse_hex_color hex with Some (r, g, b) => Rgb r g b | None => dflt end
  | None => dflt
  end.

Definition state_key (s : DisplayState) : rstr :=
  match s with
  | Display_Paused => lit "paused"
  | Display_Recording => lit "recording"
  | Display_WarningDetected t =>
      match t with
      | Informational => lit "recording"
      | Low => lit "warning_low"
      | Medium => lit "warning_medium"
      | High => lit "warning_high"
      end
  end.

Definition display_style_from_state (s : DisplayState) (colorblind_mode : bool) (colors : DisplayColors) : Color * LinePattern :=
  let recording := override_or (c_recording colors) (if colorblind_mode then Blue else Green) in
  match s with
  | Display_Paused => (override_or (c_paused colors) White, Solid)
  | Display_Recording => (recording, Solid)
  | Display_WarningDetected t =>
      match t with
      | Informational => (recording, Solid)
      | Low => (override_or (c_warning_low colors) Yellow, Dotted)
      | Medium => (override_or (c_warning_medium colors) Orange, Dashed)
      | High => (override_or (c_warning_high colors) Red, Solid)
      end
  end.

(** ** Pictures *)

Record Dimensions := mkDimensions { dim_height : Z; dim_width : Z }.
Record Image := mkImage { im_width : Z; im_height : Z; im_pixel : Z -> Z -> rgb }.

Definition status_pixel (color : Color) (pattern : LinePattern) (col : Z) : rgb :=
  let on := match pattern with
            | Solid => true
            | Dashed => (col / 4) mod 2 =? 0
            | Dotted => col mod 4 =? 0
            end in
  if on then color_rgb color else BLACK.

(** Row after row of [f x y]. *)
Definition rows (w h : Z) (f : Z -> Z -> rgb) : list rgb :=
  flat_map (fun y => map (fun x => f x y) (range 0 w)) (range 0 h).

(** [draw_status]: the buffer it writes. *)
Definition draw_status (dim : Dimensions) (color : Color) (height : Z) (pattern : LinePattern) (banner : option rstr) : list rgb :=
  let height := match banner with Some _ => Z.min height (Z.max 0 (dim_height dim - BANNER_HEIGHT)) | None => height end in
  rows (dim_width dim) height (fun x _ => status_pixel color pattern x)
  ++ match banner with Some text => banner_strip (dim_width dim) text | None => [] end.

Inductive ImageKind := Animated | Still.

Definition starts_with_bytes (bytes p : list Z) : bool := bool_decide (take (length p) bytes = p).
Definition image_kind (bytes : list Z) : option ImageKind :=
  if starts_with_bytes bytes (lit "GIF87a") || starts_with_bytes bytes (lit "GIF89a") then Some Animated
  else if starts_with_bytes bytes [0x89; 80; 78; 71; 0x0d; 0x0a; 0x1a; 0x0a] then Some Still
  else None.

Definition gif_dimensions (bytes : list Z) : option (Z * Z) :=
  match drop 6 bytes with
  | a :: b :: c :: d :: _ => Some (le_value [a; b], le_value [c; d])
  | _ => None
  end.
Definition image_dimensions (bytes : list Z) : option (Z * Z) :=
  match image_kind bytes with
  | None => None
  | Some Animated => gif_dimensions bytes
  | Some Still =>
      match drop 16 bytes with
      | a :: b :: c :: d :: e :: f :: g :: h :: _ => Some (be_value [a; b; c; d], be_value [e; f; g; h])
      | _ => None
      end
  end.

Definition MAX_GIF_DIMENSION : Z := 512.
Definition too_large (d : Z * Z) : bool := (MAX_GIF_DIMENSION <? d.1) || (MAX_GIF_DIMENSION <? d.2).

Definition gif_path (gif_store_path state : rstr) : rstr := gif_store_path ++ lit "/" ++ state ++ lit ".gif".

(** ** Drivers *)

(** [orbic], [wingtech]: two bytes for a pixel; [tplink]: the other way round. *)
Definition rgb565 (p : rgb) : Z :=
  let '(r, g, b) := p in
  Z.lor (Z.lor (wrapu 16 (Z.shiftl (Z.land r 0xf8) 8)) (wrapu 16 (Z.shiftl (Z.land g 0xfc) 3))) (Z.shiftr b 3).
Definition raw_buffer_le (buffer : list rgb) : list Z := flat_map (fun p => le_bytes 2 (rgb565 p)) buffer.
Definition raw_buffer_be (buffer : list rgb) : list Z := flat_map (fun p => be_bytes 2 (rgb565 p)) buffer.

Definition orbic_dimensions : Dimensions := mkDimensions 128 128.
Definition wingtech_dimensions : Dimensions := mkDimensions 128 160.
Definition tplink_dimensions : Dimensions := mkDimensions 128 128.

(** ** The loop *)

Inductive UiLevel := Invisible | Subtle | Demo | EffLogo | HighVisibility | CustomGif | TransFlag.
#[export] Instance UiLevel_eq_dec : EqDecision UiLevel.
Proof. solve_decision. Defined.

Definition REFRESH_RATE : Z := 1000.
Definition FRAME_YIELD : Z := 50.
Definition OVERRIDE_REFRESH : Z := 250.
Definition DEFAULT_STATUS_BAR_HEIGHT : Z := 2.

(** The settings; [has_gif key] says whether a picture was uploaded for a state. *)
Record UiConfig := mkUiConfig {
  ui_level : UiLevel;
  colorblind : bool;
  display_colors : DisplayColors;
  configured_bar_height : option Z;
  has_gif : rstr -> bool;
  gif_store_path : rstr }.

(** What happens, in order: a buffer is written to the screen, time goes by (in milliseconds). *)
Inductive Action := Write (buffer : list rgb) | Sleep (millis : Z).

Record Ui := mkUi {
  ui_state : DisplayState;
  custom_gif : option (rstr * list Z);
  still_pixels : option (list rgb);
  override_was_showing : bool }.

(** What a turn finds: the updates waiting, the picture and the text to be shown, whether a button was just
    pressed, what the files of pictures hold, before which frame of an animation an update is waiting, and whether one is at the end. *)
Record Turn := mkTurn {
  updates : list DisplayState;
  override_frame : option (list rgb);
  banner : option rstr;
  suppression : bool;
  read_gif : rstr -> option (list Z);
  interrupted_before : nat -> bool;
  update_waiting : bool }.

Definition clamp (v lo hi : Z) : Z := Z.min (Z.max v lo) hi.

Section ui.
(** [image]: the frames of a GIF with their delays, [None] when it is not one; a picture; and [resize], which keeps
    the proportions. *)
Context (gif_frames : list Z -> option (list (Image * Z))) (load_image : list Z -> option Image)
  (resize : Image -> Z -> Z -> Image) (eff_png orca_gif : list Z).
Context (dim : Dimensions) (cfg : UiConfig).

Definition image_to_buffer (img : Image) : list rgb :=
  if (dim_height dim <? im_height img) || (dim_width dim <? im_width img)
  then let r := resize img (dim_width dim) (dim_height dim) in
       rows (Z.min (dim_width dim) (im_width r)) (Z.min (dim_height dim) (im_height r)) (im_pixel r)
  else rows (im_width img) (im_height img) (im_pixel img).

Fixpoint play_frames (interrupted : nat -> bool) (i : nat) (frames : list (Image * Z)) : list Action :=
  match frames with
  | [] => []
  | (img, delay) :: frames =>
      if interrupted i then []
      else Write (image_to_buffer img) :: Sleep delay :: play_frames interrupted (S i) frames
  end.
Definition draw_gif_interruptible (bytes : list Z) (interrupted : nat -> bool) : list Action :=
  match gif_dimensions bytes with
  | None => []
  | Some d => if too_large d then []
              else match gif_frames bytes with Some frames => play_frames interrupted 0 frames | None => [] end
  end.

Definition decode_still_image (bytes : list Z) : option (list rgb) :=
  match image_dimensions bytes with
  | None => None
  | Some d => if too_large d then None else image_to_buffer <$> load_image bytes
  end.

Definition black (height : Z) : list rgb := replicate (Z.to_nat (dim_width dim * height)) BLACK.

Definition covers_the_screen : bool :=
  match ui_level cfg with CustomGif | HighVisibility | EffLogo | Demo => true | _ => false end.
Definition bar_height : Z := clamp (default DEFAULT_STATUS_BAR_HEIGHT (configured_bar_height cfg)) 1 (dim_height dim).

(** The picture for the state, loaded when it is another one. *)
Definition load_custom (t : Turn) (u : Ui) : Ui :=
  if bool_decide (ui_level cfg = CustomGif) then
    let key := state_key (ui_state u) in
    if has_gif cfg key then
      let path := gif_path (gif_store_path cfg) key in
      if bool_decide (fst <$> custom_gif u = Some path) then u
      else mkUi (ui_state u) ((fun bytes => (path, bytes)) <$> read_gif t path) None (override_was_showing u)
    else mkUi (ui_state u) None None (override_was_showing u)
  else u.

Definition status (s : DisplayState) (height : Z) (banner : option rstr) : Action :=
  let '(color, pattern) := display_style_from_state s (colorblind cfg) (display_colors cfg) in
  Write (draw_status dim color height pattern banner).

Definition line (color : Color) (height : Z) : Action := Write (draw_status dim color height Solid None).

(** What the level draws: the actions, the height left for the status line, and the picture kept. *)
Definition draw_level (t : Turn) (u : Ui) : list Action * Z * option (list rgb) :=
  match ui_level cfg with
  | Demo => (draw_gif_interruptible orca_gif (interrupted_before t), bar_height, still_pixels u)
  | CustomGif =>
      match custom_gif u with
      | None => ([], bar_height, still_pixels u)
      | Some (_, bytes) =>
          match image_kind bytes with
          | Some Animated => (draw_gif_interruptible bytes (interrupted_before t), 0, None)
          | Some Still =>
              let px := match still_pixels u with Some px => Some px | None => decode_still_image bytes end in
              match px with
              | Some p => ([Write p], 0, px)
              | None => ([], bar_height, px)
              end
          | None => ([], bar_height, still_pixels u)
          end
      end
  | EffLogo => (match load_image eff_png with Some img => [Write (image_to_buffer img)] | None => [] end, bar_height, still_pixels u)
  | HighVisibility => ([], dim_height dim, still_pixels u)
  | TransFlag => ([line Cyan 128; line Pink 102; line White 76; line Pink 50; line Cyan 25], bar_height, still_pixels u)
  | Subtle | Invisible => ([], bar_height, still_pixels u)
  end.

(** One turn of the loop of [update_ui]. *)
Definition ui_turn (t : Turn) (u : Ui) : list Action * Ui :=
  let u := mkUi (List.last (updates t) (ui_state u)) (custom_gif u) (still_pixels u) (override_was_showing u) in
  let u := load_custom t u in
  if (covers_the_screen || bool_decide (is_Some (override_frame t))) && suppression t
  then ((if 0 <? bar_height then [status (ui_state u) bar_height (banner t)] else []) ++ [Sleep REFRESH_RATE], u)
  else match override_frame t with
  | Some px => ([Write px; Sleep OVERRIDE_REFRESH], mkUi (ui_state u) (custom_gif u) (still_pixels u) true)
  | None =>
      let cleared := if override_was_showing u then [Write (black (dim_height dim))] else [] in
      let '(drawn, height, still) := draw_level t u in
      let shown := if (0 <? height) || bool_decide (is_Some (banner t)) then [status (ui_state u) height (banner t)] else [] in
      let animating := bool_decide (ui_level cfg = Demo) || (bool_decide (ui_level cfg = CustomGif) && bool_decide (still = None)) in
      let pause := if negb animating then [Sleep REFRESH_RATE] else if update_waiting t then [] else [Sleep FRAME_YIELD] in
      (cleared ++ drawn ++ shown ++ pause, mkUi (ui_state u) (custom_gif u) still false)
  end.

(** The loop at its end: what the level painted is made black. *)
Definition ui_exit (u : Ui) : list Action :=
  [Write (black (if covers_the_screen || override_was_showing u then dim_height dim else bar_height))].

Definition ui_start : Ui := mkUi Display_Recording None None false.

(** [run_override_only]: Invisible, which shows nothing but codes. *)
Definition override_turn (frame : option (list rgb)) (was_showing : bool) : list Action * bool :=
  match frame with
  | Some px => ([Write px; Sleep OVERRIDE_REFRESH], true)
  | None => ((if was_showing then [Write (black (dim_height dim))] else []) ++ [Sleep REFRESH_RATE], false)
  end.

Fixpoint run_turns (turns : list Turn) (u : Ui) : list Action * Ui :=
  match turns with
  | [] => ([], u)
  | t :: turns => let '(a, u) := ui_turn t u in let '(b, u) := run_turns turns u in (a ++ b, u)
  end.
Fixpoint run_overrides (frames : list (option (list rgb))) (was_showing : bool) : list Action :=
  match frames with
  | [] => if was_showing then [Write (black (dim_height dim))] else []
  | f :: frames => let '(a, w) := override_turn f was_showing in a ++ run_overrides frames w
  end.

(** [update_ui], from its start to its end. *)
Definition update_ui (turns : list Turn) : list Action :=
  if bool_decide (ui_level cfg = Invisible) then run_overrides (map override_frame turns) false
  else let '(a, u) := run_turns turns ui_start in a ++ ui_exit u.
End ui.

(** ** What is on the screen *)

(** A driver writes to the start of the framebuffer. *)
Definition write_buffer (screen buffer : list rgb) : list rgb := buffer ++ drop (length buffer) screen.
Fixpoint screen_after (actions : list Action) (screen : list rgb) : list rgb :=
  match actions with
  | [] => screen
  | Write b :: actions => screen_after actions (write_buffer screen b)
  | Sleep _ :: actions => screen_after actions screen
  end.

Definition dims_ok (dim : Dimensions) : Prop := 1 <= dim_width dim /\ BANNER_HEIGHT < dim_height dim.
Definition area (dim : Dimensions) : nat := Z.to_nat (dim_width dim * dim_height dim).
Definition written (n : nat) (a : Action) : Prop := match a with Write b => (length b <= n)%nat | Sleep _ => True end.

Lemma length_rows w h f : length (rows w h f) = (Z.to_nat w * Z.to_nat h)%nat.
Proof.
  unfold rows. assert (Hl : forall a b, length (range a b) = Z.to_nat (b - a)) by (intros a b; apply length_seqZ).
  replace (Z.to_nat h) with (length (range 0 h)) by (rewrite Hl; f_equal; lia). generalize (range 0 h) as ys. intros ys.
  induction ys as [|y ys IH]; cbn [flat_map length]; [nia|]. rewrite length_app, length_map, IH, Hl, Z.sub_0_r. nia.
Qed.
Lemma lookup_rows w h f x y : 0 <= x < w -> 0 <= y < h -> rows w h f !! Z.to_nat (y * w + x) = Some (f x y).
Proof.
  intros Hx Hy. unfold rows, range.
  replace h with (0 + Z.of_nat (Z.to_nat h)) in Hy |- * by lia. revert y Hy.
  assert (Hg : forall (n : nat) (a y : Z), a <= y < a + Z.of_nat n ->
    flat_map (fun y => map (fun x => f x y) (seqZ 0 (w - 0))) (seqZ a (Z.of_nat n)) !! Z.to_nat ((y - a) * w + x) = Some (f x y)).
  { induction n as [|n IH]; intros a y Hy; [lia|].
    rewrite (seqZ_cons a (Z.of_nat (S n))) by lia. cbn [flat_map]. replace (Z.pred (Z.of_nat (S n))) with (Z.of_nat n) by lia.
    assert (Hl : length (map (fun x => f x a) (seqZ 0 (w - 0))) = Z.to_nat w) by (rewrite length_map, length_seqZ; lia).
    destruct (Z.eq_dec y a) as [->|Hne].
    - replace ((a - a) * w + x) with x by lia. rewrite lookup_app_l by (rewrite Hl; lia). rewrite (list_lookup_fmap (fun x => f x a)).
      rewrite (lookup_seqZ_lt 0 (w - 0)) by lia. cbn [fmap option_fmap option_map]. do 2 f_equal. lia.
    - rewrite lookup_app_r by (rewrite Hl; nia). rewrite Hl. rewrite <- (IH (Z.succ a) y) by lia. f_equal. nia. }
  intros y Hy. specialize (Hg (Z.to_nat h) 0 y). rewrite Z.sub_0_r in Hg. rewrite <- Hg by lia. do 3 f_equal. lia.
Qed.

Lemma length_banner w text : 0 <= w -> length (banner_strip w text) = Z.to_nat (w * BANNER_HEIGHT).
Proof.
  intros Hw. unfold banner_strip. pose proof (Z.div_pos (Z.max 0 (w - text_width text 1)) 2).
  edestruct (paints_text (mkGeo w BANNER_HEIGHT 0) WHITE 1 1) as [Hl _]; [..|exact Hl]; try lia.
  apply paints_blank. repeat split; cbn; unfold BANNER_HEIGHT, GLYPH_H; lia.
Qed.

Lemma banner_height_pos : 0 < BANNER_HEIGHT.
Proof. reflexivity. Qed.
#[local] Opaque BANNER_HEIGHT banner_strip.

Lemma screen_after_app a b screen : screen_after (a ++ b) screen = screen_after b (screen_after a screen).
Proof. revert screen. induction a as [|[buf|ms] a IH]; intros screen; cbn; auto. Qed.

Lemma draw_status_fits dim color height pattern banner : dims_ok dim -> 0 <= height <= dim_height dim ->
  (length (draw_status dim color height pattern banner) <= area dim)%nat.
Proof.
  intros [Hw Hh] Hb. pose proof banner_height_pos. unfold draw_status, area. rewrite length_app, length_rows.
  destruct banner as [text|]; [rewrite length_banner by lia|cbn [length]]; [|nia].
  rewrite Z.max_r by lia. assert (Z.min height (dim_height dim - BANNER_HEIGHT) <= dim_height dim - BANNER_HEIGHT) by lia.
  generalize dependent (Z.min height (dim_height dim - BANNER_HEIGHT)). intros m Hm.
  destruct (Z.le_gt_cases 0 m); [nia|]. rewrite (Z2Nat.nonpos m) by lia. nia.
Qed.
(** However the line is patterned its first pixel is on. *)
Lemma draw_status_first dim color height pattern banner : dims_ok dim -> 1 <= height ->
  draw_status dim color height pattern banner !! 0%nat = Some (color_rgb color).
Proof.
  intros [Hw Hh] Hb. pose proof banner_height_pos. unfold draw_status.
  set (hh := match banner with Some _ => _ | None => _ end).
  assert (1 <= hh) by (subst hh; destruct banner; lia). clearbody hh.
  rewrite lookup_app_l by (rewrite length_rows; nia).
  pose proof (lookup_rows (dim_width dim) hh (fun x _ => status_pixel color pattern x) 0 0) as Hl.
  rewrite Z.mul_0_l in Hl. change (Z.to_nat (0 + 0)) with 0%nat in Hl. rewrite Hl by lia. by destruct pattern.
Qed.

Lemma bar_height_bounds dim cfg : dims_ok dim -> 1 <= bar_height dim cfg <= dim_height dim.
Proof. intros [_ Hh]. pose proof banner_height_pos. unfold bar_height, clamp. lia. Qed.

Section loop.
Context (gif_frames : list Z -> option (list (Image * Z))) (load_image : list Z -> option Image)
  (resize : Image -> Z -> Z -> Image) (eff_png orca_gif : list Z) (dim : Dimensions) (cfg : UiConfig).
Context (Hdim : dims_ok dim).
#[local] Abbreviation turn := (ui_turn gif_frames load_image resize eff_png orca_gif dim cfg).
#[local] Abbreviation ui := (update_ui gif_frames load_image resize eff_png orca_gif dim cfg).
#[local] Abbreviation fits := (written (area dim)).

Lemma image_fits img : (length (image_to_buffer resize dim img) <= area dim)%nat.
Proof.
  destruct Hdim as [Hw Hh]. pose proof banner_height_pos. unfold image_to_buffer, area.
  destruct ((_ <? _) || (_ <? _)) eqn:He.
  - rewrite length_rows, Z2Nat.inj_mul by lia. apply Nat.mul_le_mono; lia.
  - apply orb_false_iff in He as [H1 H2]. apply Z.ltb_ge in H1, H2. rewrite length_rows, Z2Nat.inj_mul by lia. apply Nat.mul_le_mono; lia.
Qed.
Lemma black_fits h : 0 <= h <= dim_height dim -> (length (black dim h) <= area dim)%nat.
Proof. intros Hb. destruct Hdim. unfold black, area. rewrite length_replicate. nia. Qed.
Lemma frames_fit interrupted frames : forall i, Forall fits (play_frames resize dim interrupted i frames).
Proof.
  induction frames as [|[img delay] frames IH]; intros i; cbn [play_frames]; [done|].
  destruct (interrupted i); [done|]. repeat constructor; [apply image_fits|apply IH].
Qed.
Lemma gif_fits bytes interrupted : Forall fits (draw_gif_interruptible gif_frames resize dim bytes interrupted).
Proof.
  unfold draw_gif_interruptible. destruct (gif_dimensions bytes); [|done]. destruct (too_large _); [done|].
  destruct (gif_frames bytes); [|done]. apply frames_fit.
Qed.
Lemma status_fits s h b : 0 <= h <= dim_height dim -> fits (status dim cfg s h b).
Proof. intros Hh. unfold status. destruct (display_style_from_state _ _ _). by apply draw_status_fits. Qed.
Lemma line_fits c h : 0 <= h <= dim_height dim -> fits (line dim c h).
Proof. intros Hh. by apply draw_status_fits. Qed.

Definition still_fits (u : Ui) : Prop := match still_pixels u with Some p => (length p <= area dim)%nat | None => True end.
(** The flag is drawn with its own heights. *)
Definition level_fits : Prop := ui_level cfg = TransFlag -> 128 <= dim_height dim.
Definition frame_fits (t : Turn) : Prop := match override_frame t with Some px => (length px <= area dim)%nat | None => True end.

Lemma load_custom_fits t u : still_fits u -> still_fits (load_custom cfg t u).
Proof. intros Hu. unfold load_custom. repeat case_match; done. Qed.

Lemma decode_fits bytes px : decode_still_image load_image resize dim bytes = Some px -> (length px <= area dim)%nat.
Proof.
  unfold decode_still_image. destruct (image_dimensions bytes); [|done]. destruct (too_large _); [done|].
  destruct (load_image bytes); [|done]. intros [= <-]. apply image_fits.
Qed.

Lemma draw_level_fits t u : level_fits -> still_fits u ->
  let '(drawn, height, still) := draw_level gif_frames load_image resize eff_png orca_gif dim cfg t u in
  Forall fits drawn /\ 0 <= height <= dim_height dim /\ match still with Some p => (length p <= area dim)%nat | None => True end.
Proof.
  intros Hflag Hu. pose proof (bar_height_bounds dim cfg Hdim) as Hbar. pose proof banner_height_pos.
  assert (H0 : 0 <= bar_height dim cfg <= dim_height dim) by lia. assert (Hz : 0 <= 0 <= dim_height dim) by lia.
  unfold draw_level. destruct (ui_level cfg) eqn:Hl; try (split; [constructor|]; done).
  - split; [apply gif_fits|done].
  - destruct (load_image eff_png); (split; [repeat constructor; apply image_fits|done]).
  - split; [constructor|]. split; [lia|done].
  - destruct (custom_gif u) as [[path bytes]|]; [|split; [constructor|done]]. destruct (image_kind bytes) as [[]|].
    + split; [apply gif_fits|done].
    + unfold still_fits in Hu. destruct (still_pixels u) as [p|]; [split; [repeat constructor; done|done]|].
      destruct (decode_still_image _ _ _ bytes) as [p|] eqn:Hd; [apply decode_fits in Hd|split; [constructor|done]].
      split; [by repeat constructor|done].
    + split; [constructor|done].
  - specialize (Hflag Hl). split; [|done]. repeat constructor; apply line_fits; lia.
Qed.

Lemma turn_fits t u : level_fits -> frame_fits t -> still_fits u -> Forall fits (turn t u).1 /\ still_fits (turn t u).2.
Proof.
  intros Hflag Hframe Hu. pose proof (bar_height_bounds dim cfg Hdim). pose proof banner_height_pos. unfold ui_turn.
  set (u1 := load_custom cfg t _). assert (Hu1 : still_fits u1) by by apply load_custom_fits.
  clearbody u1. destruct (_ && suppression t).
  { split; [|done]. destruct (0 <? bar_height dim cfg); repeat constructor. apply status_fits. lia. }
  unfold frame_fits in Hframe. destruct (override_frame t) as [px|]; [by split; [repeat constructor|]|].
  pose proof (draw_level_fits t u1 Hflag Hu1) as Hd. destruct (draw_level _ _ _ _ _ _ _ t u1) as [[drawn h] still]. destruct Hd as (Hd & Hh & Hs).
  split; [|done]. cbn [fst]. repeat (apply Forall_app_2).
  - destruct (override_was_showing u1); repeat constructor. apply black_fits. destruct Hdim; lia.
  - done.
  - destruct ((0 <? h) || _); repeat constructor. by apply status_fits.
  - repeat case_match; by repeat constructor.
Qed.

Lemma turns_fit turns : forall u, level_fits -> Forall frame_fits turns -> still_fits u ->
  Forall fits (run_turns gif_frames load_image resize eff_png orca_gif dim cfg turns u).1.
Proof.
  induction turns as [|t turns IH]; intros u Hflag Hf Hu; cbn [run_turns]; [constructor|].
  apply Forall_cons in Hf as [Ht Hf]. pose proof (turn_fits t u Hflag Ht Hu) as [H1 H2]. destruct (turn t u) as [a u1]; cbn [fst snd] in *.
  specialize (IH u1 Hflag Hf H2). destruct (run_turns _ _ _ _ _ _ _ turns u1). by apply Forall_app_2.
Qed.
Lemma overrides_fit turns : forall w, Forall frame_fits turns -> Forall fits (run_overrides dim (map override_frame turns) w).
Proof.
  assert (Hb : fits (Write (black dim (dim_height dim)))) by (apply black_fits; destruct Hdim; pose proof banner_height_pos; lia).
  induction turns as [|t turns IH]; intros w Hf; cbn [map run_overrides]; [by destruct w; repeat constructor|].
  apply Forall_cons in Hf as [Ht Hf]. unfold frame_fits in Ht. destruct (override_frame t); cbn [override_turn].
  - apply Forall_app_2; [by repeat constructor|by apply IH].
  - apply Forall_app_2; [|by apply IH]. by destruct w; repeat constructor.
Qed.
End loop.

(** Nothing is ever written past the end of the screen, at any level, from start to exit, whatever pictures are
    uploaded, codes shown and banners put up, on a screen tall enough for the flag if that is the level. *)
Theorem writes_fit gif_frames load_image resize eff_png orca_gif dim cfg turns : dims_ok dim -> level_fits dim cfg ->
  Forall (frame_fits dim) turns ->
  Forall (written (area dim)) (update_ui gif_frames load_image resize eff_png orca_gif dim cfg turns).
Proof.
  intros Hdim Hflag Hf. unfold update_ui. case_bool_decide; [by apply overrides_fit|].
  pose proof (turns_fit gif_frames load_image resize eff_png orca_gif dim cfg Hdim turns ui_start Hflag Hf I) as Ht.
  destruct (run_turns _ _ _ _ _ _ _ turns ui_start) as [a u]. apply Forall_app_2; [done|]. repeat constructor.
  pose proof (bar_height_bounds dim cfg Hdim). destruct Hdim. apply black_fits; [done|]. destruct (_ || _); lia.
Qed.

(** ** The state is on the screen *)

(** No picture was drawn for the state. *)
Definition no_picture (cfg : UiConfig) (u : Ui) (t : Turn) : Prop :=
  ui_level cfg = CustomGif -> custom_gif (load_custom cfg t (mkUi (List.last (updates t) (ui_state u)) (custom_gif u) (still_pixels u) (override_was_showing u))) = None.

Lemma load_custom_state cfg t u : ui_state (load_custom cfg t u) = ui_state u.
Proof. unfold load_custom. repeat case_match; done. Qed.

(** With no picture the height left for the line is at least one row. *)
Lemma level_height gif_frames load_image resize eff_png orca_gif dim cfg t u : dims_ok dim ->
  (ui_level cfg = CustomGif -> custom_gif u = None) ->
  1 <= (draw_level gif_frames load_image resize eff_png orca_gif dim cfg t u).1.2.
Proof.
  intros Hdim Hpic. pose proof (bar_height_bounds dim cfg Hdim) as Hb. destruct Hdim as [_ Hh]. pose proof banner_height_pos.
  unfold draw_level. destruct (ui_level cfg); cbn [fst snd]; try lia. rewrite Hpic by done. cbn [fst snd]. lia.
Qed.

Lemma status_shown dim cfg s h b post screen : dims_ok dim -> 1 <= h -> Forall (fun a => exists ms, a = Sleep ms) post ->
  screen_after (status dim cfg s h b :: post) screen !! 0%nat =
  Some (color_rgb (display_style_from_state s (colorblind cfg) (display_colors cfg)).1).
Proof.
  intros Hdim Hh Hpost. unfold status. destruct (display_style_from_state _ _ _) as [color pattern]. cbn [screen_after fst].
  assert (Hs : forall screen, screen_after post screen = screen).
  { clear -Hpost. induction Hpost as [|a post [ms ->] _ IH]; intros screen; [done|apply IH]. }
  rewrite Hs. unfold write_buffer. pose proof (draw_status_first dim color h pattern b Hdim Hh) as Hf.
  rewrite lookup_app_l by (by eapply lookup_lt_Some). done.
Qed.

(** A button was just pressed while something covers the device's own screens. *)
Definition steps_aside (cfg : UiConfig) (t : Turn) : bool :=
  (covers_the_screen cfg || bool_decide (is_Some (override_frame t))) && suppression t.


(** What happens when a GIF is not one, or too large: no frame, and no line either. *)
Lemma broken_gif_blank gif_frames load_image resize eff_png orca_gif dim cfg t u path bytes :
  ui_level cfg = CustomGif -> steps_aside cfg t = false -> override_frame t = None -> banner t = None -> override_was_showing u = false ->
  custom_gif (load_custom cfg t (mkUi (List.last (updates t) (ui_state u)) (custom_gif u) (still_pixels u) (override_was_showing u))) = Some (path, bytes) ->
  image_kind bytes = Some Animated -> gif_frames bytes = None ->
  Forall (fun a => exists ms, a = Sleep ms) (ui_turn gif_frames load_image resize eff_png orca_gif dim cfg t u).1.
Proof.
  intros Hl Hs Ho Hb Hw Hc Hk Hg. unfold ui_turn. fold (steps_aside cfg t). set (u0 := mkUi _ _ _ _) in *. rewrite Hs, Ho, Hb.
  assert (Hwas : override_was_showing (load_custom cfg t u0) = false) by (unfold load_custom; repeat case_match; done).
  unfold draw_level. rewrite Hl, Hc, Hk, Hwas. cbn [fst]. unfold draw_gif_interruptible. rewrite Hg.
  rewrite (bool_decide_eq_false_2 (is_Some None)) by (by intros [? ?]).
  change ((0 <? 0) || false) with false. cbv iota.
  assert (Hsleep : forall ms, Forall (fun a => exists ms', a = Sleep ms') [Sleep ms]) by (intros ms; repeat constructor; by eexists).
  repeat apply Forall_app_2; repeat case_match; auto.
Qed.

(** ** Leaving the screen *)

(** Nothing of the drawing is left: a pixel is as it was before or black. *)
Definition clean (before after : list rgb) : Prop :=
  length after = length before /\ forall i p, after !! i = Some p -> p = BLACK \/ before !! i = Some p.
(** Only the first [n] pixels may have been drawn on. *)
Definition clean_from (n : nat) (before after : list rgb) : Prop :=
  length after = length before /\ forall i p, (n <= i)%nat -> after !! i = Some p -> p = BLACK \/ before !! i = Some p.

Lemma write_clean_from n before screen b : clean_from n before screen -> (length b <= n)%nat -> (length b <= length before)%nat -> clean_from n before (write_buffer screen b).
Proof.
  intros [Hl Hc] Hn Hb. unfold write_buffer. split; [rewrite length_app, length_drop; lia|]. intros i p Hi Hp.
  rewrite lookup_app_r in Hp by lia. rewrite lookup_drop in Hp. replace (length b + (i - length b))%nat with i in Hp by lia. by apply Hc.
Qed.
Lemma write_black before screen n m : clean_from n before screen -> (m <= length before)%nat -> (n <= m)%nat -> clean before (write_buffer screen (replicate m BLACK)).
Proof.
  intros [Hl Hc] Hm Hn. unfold write_buffer. rewrite length_replicate. split; [rewrite length_app, length_replicate, length_drop; lia|]. intros i p Hp.
  destruct (decide (i < m)%nat).
  - rewrite lookup_app_l in Hp by (by rewrite length_replicate). apply lookup_replicate in Hp as [-> _]. by left.
  - rewrite lookup_app_r in Hp by (rewrite length_replicate; lia). rewrite length_replicate, lookup_drop in Hp.
    replace (m + (i - m))%nat with i in Hp by lia. apply Hc in Hp; [done|lia].
Qed.
Lemma clean_weaken n before screen : clean before screen -> clean_from n before screen.
Proof. intros [Hl Hc]. split; [done|]. intros i p _. apply Hc. Qed.
Lemma writes_clean_from n before actions : forall screen, (n <= length before)%nat -> Forall (written n) actions -> clean_from n before screen -> clean_from n before (screen_after actions screen).
Proof.
  induction actions as [|[b|ms] actions IH]; intros screen Hn Ha Hc; cbn [screen_after]; [done|..]; apply Forall_cons in Ha as [Hw Ha]; [|by apply IH].
  cbn in Hw. apply IH; [done|done|]. apply write_clean_from; [done|done|lia].
Qed.

Section exit.
Context (gif_frames : list Z -> option (list (Image * Z))) (load_image : list Z -> option Image)
  (resize : Image -> Z -> Z -> Image) (eff_png orca_gif : list Z) (dim : Dimensions) (cfg : UiConfig).
Context (Hdim : dims_ok dim) (before : list rgb) (Hbefore : length before = area dim).
#[local] Abbreviation turn := (ui_turn gif_frames load_image resize eff_png orca_gif dim cfg).

(** The rows an exit would clear. *)
Definition rows_owned (u : Ui) : nat :=
  Z.to_nat (dim_width dim * (if covers_the_screen cfg || override_was_showing u then dim_height dim else bar_height dim cfg)).
Definition tidy (u : Ui) (screen : list rgb) : Prop := clean_from (rows_owned u) before screen.

Lemma rows_owned_le u : (rows_owned u <= area dim)%nat.
Proof. pose proof (bar_height_bounds dim cfg Hdim). destruct Hdim. unfold rows_owned, area. destruct (_ || _); nia. Qed.

Lemma draw_status_rows color h pattern : 0 <= h -> length (draw_status dim color h pattern None) = Z.to_nat (dim_width dim * h).
Proof. intros Hh. destruct Hdim. unfold draw_status. rewrite length_app, length_rows. cbn [length]. nia. Qed.
Lemma status_owned s u : written (rows_owned u) (status dim cfg s (bar_height dim cfg) None).
Proof.
  pose proof (bar_height_bounds dim cfg Hdim). unfold status. destruct (display_style_from_state _ _ _). cbn [written].
  rewrite draw_status_rows by lia. unfold rows_owned. destruct Hdim. destruct (_ || _); nia.
Qed.
Lemma load_custom_was t u : override_was_showing (load_custom cfg t u) = override_was_showing u.
Proof. unfold load_custom. repeat case_match; done. Qed.

Lemma tidy_monotone u u' screen : (rows_owned u <= rows_owned u')%nat -> tidy u screen -> tidy u' screen.
Proof. intros Ho [Hl Hc]. split; [done|]. intros i p Hi. apply Hc. lia. Qed.
Lemma rows_owned_eq u u' : override_was_showing u' = override_was_showing u -> rows_owned u' = rows_owned u.
Proof. unfold rows_owned. by intros ->. Qed.
Lemma tidy_was u u' screen : override_was_showing u' = override_was_showing u -> tidy u screen -> tidy u' screen.
Proof. intros He. unfold tidy. by rewrite (rows_owned_eq u u' He). Qed.
Lemma tidy_writes u screen actions : Forall (written (rows_owned u)) actions -> tidy u screen -> tidy u (screen_after actions screen).
Proof. intros Ha Ht. apply writes_clean_from; [rewrite Hbefore; apply rows_owned_le|done..]. Qed.
Lemma black_all : length (black dim (dim_height dim)) = area dim.
Proof. unfold black. by rewrite length_replicate. Qed.

Lemma level_tidy t u : ui_level cfg <> TransFlag ->
  covers_the_screen cfg = true \/ (draw_level gif_frames load_image resize eff_png orca_gif dim cfg t u).1 = ([], bar_height dim cfg).
Proof. unfold covers_the_screen, draw_level. destruct (ui_level cfg); auto; done. Qed.

Lemma turn_tidy t u screen : ui_level cfg <> TransFlag -> frame_fits dim t -> still_fits dim u -> banner t = None ->
  tidy u screen -> tidy (turn t u).2 (screen_after (turn t u).1 screen).
Proof.
  intros Hlevel Hframe Hstill Hb Ht.
  pose proof (turn_fits gif_frames load_image resize eff_png orca_gif dim cfg Hdim t u (fun H => False_ind _ (Hlevel H)) Hframe Hstill) as [Hfit _].
  destruct (covers_the_screen cfg) eqn:Hcov.
  { assert (Hall : forall u, rows_owned u = area dim) by (intros u'; unfold rows_owned, area; by rewrite Hcov).
    apply tidy_writes; [by rewrite Hall|]. eapply tidy_monotone; [|exact Ht]. by rewrite !Hall. }
  revert Hfit. unfold ui_turn. rewrite Hb. set (u1 := load_custom cfg t _).
  assert (Hw1 : override_was_showing u1 = override_was_showing u) by (subst u1; by rewrite load_custom_was).
  apply (tidy_was u u1 screen Hw1) in Ht. clear Hw1. clearbody u1. destruct (_ && suppression t); cbn [fst snd].
  { intros _. apply tidy_writes; [|done]. destruct (0 <? bar_height dim cfg); repeat constructor. apply status_owned. }
  destruct (override_frame t) as [px|]; cbn [fst snd].
  { intros Hfit. apply tidy_writes; [|].
    - unfold rows_owned. cbn [override_was_showing]. by rewrite orb_true_r.
    - eapply tidy_monotone; [|exact Ht]. unfold rows_owned at 2. cbn [override_was_showing]. rewrite orb_true_r. apply rows_owned_le. }
  intros _. destruct (level_tidy t u1 Hlevel) as [?|Hd]; [congruence|].
  destruct (draw_level _ _ _ _ _ _ _ t u1) as [[drawn h] still]. injection Hd as -> ->. cbn [fst snd app].
  rewrite screen_after_app. apply tidy_writes.
  - apply Forall_app_2; [|repeat case_match; by repeat constructor]. destruct (_ || _); repeat constructor. apply status_owned.
  - destruct (override_was_showing u1) eqn:Hw; cbn [screen_after]; [|by eapply tidy_was; [|exact Ht]].
    apply clean_weaken. eapply write_black; [exact Ht|by rewrite Hbefore|]. apply rows_owned_le.
Qed.

Lemma turns_tidy turns : forall u screen, ui_level cfg <> TransFlag -> Forall (frame_fits dim) turns -> Forall (fun t => banner t = None) turns ->
  still_fits dim u -> tidy u screen ->
  tidy (run_turns gif_frames load_image resize eff_png orca_gif dim cfg turns u).2 (screen_after (run_turns gif_frames load_image resize eff_png orca_gif dim cfg turns u).1 screen).
Proof.
  induction turns as [|t turns IH]; intros u screen Hlevel Hf Hb Hstill Ht; cbn [run_turns]; [done|].
  apply Forall_cons in Hf as [Hf1 Hf]. apply Forall_cons in Hb as [Hb1 Hb].
  pose proof (turn_tidy t u screen Hlevel Hf1 Hstill Hb1 Ht) as H1.
  pose proof (turn_fits gif_frames load_image resize eff_png orca_gif dim cfg Hdim t u (fun H => False_ind _ (Hlevel H)) Hf1 Hstill) as [_ H2].
  destruct (turn t u) as [a u1]. cbn [fst snd] in *. specialize (IH u1 _ Hlevel Hf Hb H2 H1).
  destruct (run_turns _ _ _ _ _ _ _ turns u1) as [b u2]. cbn [fst snd] in *. by rewrite screen_after_app.
Qed.

(** Invisible paints only codes. *)
Lemma overrides_clean turns : forall (was : bool) screen, Forall (frame_fits dim) turns ->
  (if was then clean_from (area dim) before screen else clean before screen) ->
  clean before (screen_after (run_overrides dim (map override_frame turns) was) screen).
Proof.
  assert (Hblack : forall screen, clean_from (area dim) before screen -> clean before (write_buffer screen (black dim (dim_height dim)))).
  { intros screen Hc. eapply write_black; [exact Hc|by rewrite Hbefore|done]. }
  induction turns as [|t turns IH]; intros was screen Hf Hc; cbn [map run_overrides].
  - destruct was; cbn [screen_after]; [by apply Hblack|done].
  - apply Forall_cons in Hf as [Hf1 Hf]. unfold frame_fits in Hf1. destruct (override_frame t) as [px|]; cbn [override_turn].
    + rewrite screen_after_app. apply IH; [done|]. cbn [screen_after]. apply write_clean_from; [|done|by rewrite Hbefore].
      destruct was; [done|by apply clean_weaken].
    + rewrite screen_after_app. apply IH; [done|]. destruct was; cbn [app screen_after]; [by apply Hblack|done].
Qed.
End exit.

(** Whatever was drawn on the way, codes and pictures included, when the display ends every pixel of the screen is black
    or what it was before the display started, at every level but the flag's, if no banner was up. *)
Theorem exit_clears gif_frames load_image resize eff_png orca_gif dim cfg turns before : dims_ok dim -> ui_level cfg <> TransFlag ->
  length before = area dim -> Forall (frame_fits dim) turns -> Forall (fun t => banner t = None) turns ->
  clean before (screen_after (update_ui gif_frames load_image resize eff_png orca_gif dim cfg turns) before).
Proof.
  intros Hdim Hlevel Hbefore Hf Hb. assert (Hself : clean before before) by (split; [done|by right]).
  unfold update_ui. case_bool_decide; [by apply overrides_clean|].
  pose proof (turns_tidy gif_frames load_image resize eff_png orca_gif dim cfg Hdim before Hbefore turns ui_start before Hlevel Hf Hb I (clean_weaken _ _ _ Hself)) as Ht.
  destruct (run_turns _ _ _ _ _ _ _ turns ui_start) as [a u]. cbn [fst snd] in Ht. rewrite screen_after_app. cbn [ui_exit screen_after].
  eapply write_black; [exact Ht| |by unfold rows_owned]. rewrite Hbefore. by eapply rows_owned_le.
Qed.

(** ** Pictures on the screen *)

(** A picture as wide as the screen, no higher: every pixel goes to its place. *)
Lemma image_upright resize dim img screen x y : dims_ok dim -> im_width img = dim_width dim -> im_height img <= dim_height dim ->
  0 <= x < im_width img -> 0 <= y < im_height img ->
  write_buffer screen (image_to_buffer resize dim img) !! Z.to_nat (y * dim_width dim + x) = Some (im_pixel img x y).
Proof.
  intros Hdim Hw Hh Hx Hy. unfold image_to_buffer. rewrite (proj2 (Z.ltb_ge _ _) Hh), Hw, Z.ltb_irrefl. cbn [orb].
  rewrite <- Hw. unfold write_buffer. rewrite lookup_app_l; [by apply lookup_rows|]. rewrite length_rows. nia.
Qed.
(** A narrower one: its rows follow one another and each starts where the one before ended. *)
Lemma narrow_image_sheared resize dim img screen x y : im_width img < dim_width dim -> im_height img <= dim_height dim ->
  0 <= x < im_width img -> 0 <= y < im_height img ->
  write_buffer screen (image_to_buffer resize dim img) !! Z.to_nat (y * dim_width dim + x - y * (dim_width dim - im_width img)) = Some (im_pixel img x y).
Proof.
  intros Hw Hh Hx Hy. unfold image_to_buffer. rewrite (proj2 (Z.ltb_ge _ _) Hh), (proj2 (Z.ltb_ge (dim_width dim) _)) by lia. cbn [orb].
  replace (y * dim_width dim + x - y * (dim_width dim - im_width img)) with (y * im_width img + x) by lia.
  unfold write_buffer. rewrite lookup_app_l; [by apply lookup_rows|]. rewrite length_rows. nia.
Qed.

(** ** Colours *)

(** Two levels of warning never look alike with the built-in colours, in either palette. *)
Definition no_colors : DisplayColors := mkDisplayColors None None None None None.
Definition all_states : list DisplayState :=
  [Display_Paused; Display_Recording; Display_WarningDetected Low; Display_WarningDetected Medium; Display_WarningDetected High].
Lemma styles_distinct colorblind_mode : NoDup (map (fun s => color_rgb (display_style_from_state s colorblind_mode no_colors).1) all_states).
Proof. destruct colorblind_mode; apply (bool_decide_unpack _); vm_compute; exact I. Qed.

(** A colour is read as it was written. *)
Definition show_hex (r g b : Z) : rstr := 35 :: fmt_02x r ++ fmt_02x g ++ fmt_02x b.

Lemma strip_prefix_cons_nil p s : strip_prefix [p] s = match s with c :: s => if p =? c then Some s else None | [] => None end.
Proof. destruct s as [|c s]; [done|]. cbn [strip_prefix]. by destruct (p =? c). Qed.
Lemma parse_hex_color_show r g b : 0 <= r < 256 -> 0 <= g < 256 -> 0 <= b < 256 -> parse_hex_color (show_hex r g b) = Some (r, g, b).
Proof.
  intros Hr Hg Hb. unfold parse_hex_color, show_hex. 
  assert (Hd : forall v, 0 <= v < 256 -> to_digit16 (hex_digit (v / 16)) = Some (v / 16) /\ to_digit16 (hex_digit (v mod 16)) = Some (v mod 16)).
  { intros v Hv. pose proof (Z.mod_pos_bound v 16). pose proof (Z.div_lt_upper_bound v 16 16). pose proof (Z.div_pos v 16).
    split; apply to_digit16_hex_digit; lia. }
  assert (Hall : forall a b c d e f a' b' c' d' e' f', to_digit16 a = Some a' -> to_digit16 b = Some b' -> to_digit16 c = Some c' ->
    to_digit16 d = Some d' -> to_digit16 e = Some e' -> to_digit16 f = Some f' -> mapM to_digit16 [a; b; c; d; e; f] = Some [a'; b'; c'; d'; e'; f']).
  { intros. apply mapM_Some. by repeat constructor. }
  unfold fmt_02x. cbn [app]. rewrite strip_prefix_cons_nil, Z.eqb_refl. cbn [default id].
  rewrite (Hall _ _ _ _ _ _ _ _ _ _ _ _ (proj1 (Hd r Hr)) (proj2 (Hd r Hr)) (proj1 (Hd g Hg)) (proj2 (Hd g Hg)) (proj1 (Hd b Hb)) (proj2 (Hd b Hb))).
  pose proof (Z.div_mod r 16). pose proof (Z.div_mod g 16). pose proof (Z.div_mod b 16). repeat f_equal; lia.
Qed.

(** What a driver sends for a pixel is the high bits of its colours side by side, two bytes in the order of the panel. *)
Lemma rgb565_value r g b : 0 <= r < 256 -> 0 <= g < 256 -> 0 <= b < 256 -> rgb565 (r, g, b) = r / 8 * 2048 + g / 4 * 32 + b / 8.
Proof.
  intros Hr Hg Hb. unfold rgb565.
  assert (Hbyte : forall P : Z -> Prop, Forall P (seqZ 0 256) -> forall v, 0 <= v < 256 -> P v).
  { intros P HP v Hv. rewrite Forall_forall in HP. apply HP, elem_of_seqZ. lia. }
  rewrite (Hbyte (fun r => wrapu 16 (Z.shiftl (Z.land r 0xf8) 8) = r / 8 * 2048)) by first [done | repeat constructor].
  rewrite (Hbyte (fun g => wrapu 16 (Z.shiftl (Z.land g 0xfc) 3) = g / 4 * 32)) by first [done | repeat constructor].
  rewrite (Hbyte (fun b => Z.shiftr b 3 = b / 8)) by first [done | repeat constructor].
  pose proof (Z.div_lt_upper_bound g 4 64). pose proof (Z.div_pos g 4). pose proof (Z.div_lt_upper_bound b 8 32). pose proof (Z.div_pos b 8).
  replace (r / 8 * 2048) with (Z.shiftl (r / 8) 11) at 1 by (rewrite Z.shiftl_mul_pow2 by lia; lia).
  rewrite lor_shiftl by lia.
  replace (r / 8 * 2 ^ 11 + g / 4 * 32) with (Z.shiftl (r / 8 * 64 + g / 4) 5) by (rewrite Z.shiftl_mul_pow2 by lia; lia).
  rewrite lor_shiftl by lia. lia.
Qed.

(** ** The theorems at concrete inputs, and where they do not hold *)

Definition demo_cfg (level : UiLevel) : UiConfig := mkUiConfig level false no_colors None (fun _ => true) (lit "/gifs").
Definition demo_turn (state : DisplayState) (frame : option (list rgb)) (text : option rstr) (pressed : bool) : Turn :=
  mkTurn [Display_Recording; state] frame text pressed (fun _ => Some (lit "GIF89a")) (fun _ => false) false.
Definition demo_ui (dim : Dimensions) (level : UiLevel) (turns : list Turn) : list Action :=
  update_ui (fun _ => None) (fun _ => None) (fun img _ _ => img) [] [] dim (demo_cfg level) turns.
Definition white_screen (dim : Dimensions) : list rgb := replicate (area dim) WHITE.

Lemma orbic_ok : dims_ok orbic_dimensions.
Proof. split; vm_compute; [discriminate|reflexivity]. Qed.

Lemma writes_fit_witness : exists actions, actions = demo_ui orbic_dimensions TransFlag [demo_turn Display_Paused None (Some (lit "TERMINAL ACTIVE")) false] /\
  Forall (written (area orbic_dimensions)) actions.
Proof.
  eexists. split; [reflexivity|]. apply writes_fit; [apply orbic_ok|discriminate|repeat constructor].
Defined.


Lemma exit_clears_witness : exists turns, turns = [demo_turn (Display_WarningDetected High) (Some (white_screen orbic_dimensions)) None false] /\
  clean (white_screen orbic_dimensions) (screen_after (demo_ui orbic_dimensions Subtle turns) (white_screen orbic_dimensions)).
Proof.
  eexists. split; [reflexivity|]. apply exit_clears; [apply orbic_ok|discriminate|reflexivity| |]; repeat constructor.
Defined.

(** The flag stays on the screen: its last row after the display ended. *)
Lemma flag_stays :
  screen_after (demo_ui orbic_dimensions TransFlag [demo_turn Display_Recording None None false]) (white_screen orbic_dimensions) !! 16383%nat = Some (color_rgb Cyan).
Proof. vm_compute. reflexivity. Qed.
(** A strip of text stays too, at the level that only draws a line: its background is Black, but its letters are not. *)
Lemma banner_stays : exists i, (i < 2000)%nat /\
  screen_after (demo_ui orbic_dimensions Subtle [demo_turn Display_Recording None (Some (lit "A")) false]) (replicate (area orbic_dimensions) (1, 2, 3)) !! i = Some WHITE.
Proof.
  exists 446%nat. split; [lia|vm_compute; reflexivity].
Qed.
(** The unit's own pictures on the wider screen: the second row of a picture 128 pixels wide starts on the first row of the screen. *)
Lemma wingtech_sheared load : write_buffer (white_screen wingtech_dimensions)
  (image_to_buffer (fun img _ _ => img) wingtech_dimensions (mkImage 128 128 load)) !! 128%nat = Some (load 0 1).
Proof. apply (narrow_image_sheared _ wingtech_dimensions (mkImage 128 128 load) _ 0 1); cbn; lia. Qed.
