(* ===== verification/Panels.v ===== *)
(** * The units' own indicators ([daemon/src/display/{orbic,tmobile,uz801,tplink,tplink_onebit,tplink_framebuffer,headless}.rs])

    How each unit shows a state: bytes for a colour panel or a one-bit panel, lights by files under [/sys].  A driver's
    loop is one turn at a time; what it does is the list of files it writes, in order, and a failed write is only logged.
    The Orbic's panel is also kept awake, and the suspension of the system with it. *)

From S2P Require Import Prelude RustStr Analyzer DiagTask Buttons Qr Framebuffer.

Local Open Scope string_scope.
Local Open Scope list_scope.
Local Open Scope Z_scope.

(** ** Files *)

Definition FileWrite : Type := rstr * rstr.
(** The content of a file after some writes, [None] when none was to it. *)
Definition file_step (path : rstr) (v : option rstr) (w : FileWrite) : option rstr := if bool_decide (w.1 = path) then Some w.2 else v.
Definition file_value (path : rstr) (writes : list FileWrite) : option rstr := foldl (file_step path) None writes.

(** ** The lights of two units *)

Definition tmobile_led (l : string) : rstr := lit "/sys/class/leds/led:" ++ lit l ++ lit "/blink".
Definition start_blinking (path : rstr) : FileWrite := (path, lit "1").
Definition stop_blinking (path : rstr) : FileWrite := (path, lit "0").
Definition tmobile_leds (s : DisplayState) : list FileWrite :=
  match s with
  | Display_Paused => [stop_blinking (tmobile_led "signal_blue"); stop_blinking (tmobile_led "signal_red"); start_blinking (tmobile_led "wlan_white")]
  | Display_Recording => [stop_blinking (tmobile_led "wlan_white"); stop_blinking (tmobile_led "signal_red"); start_blinking (tmobile_led "signal_blue")]
  | Display_WarningDetected _ => [stop_blinking (tmobile_led "wlan_white"); stop_blinking (tmobile_led "signal_blue"); start_blinking (tmobile_led "signal_red")]
  end.

Record LedUi := mkLedUi { led_state : DisplayState; last_state : DisplayState; last_update : Z }.
Definition led_start (now : Z) : LedUi := mkLedUi Display_Recording Display_Paused now.

(** One turn of [tmobile::update_ui]: at most one update is taken. *)
Definition tmobile_turn (invisible : bool) (update : option DisplayState) (u : LedUi) : list FileWrite * LedUi :=
  let state := default (led_state u) update in
  if invisible || bool_decide (state = last_state u) then ([], mkLedUi state (last_state u) (last_update u))
  else (tmobile_leds state, mkLedUi state state (last_update u)).
Fixpoint tmobile_run (invisible : bool) (turns : list (option DisplayState)) (u : LedUi) : list FileWrite * LedUi :=
  match turns with
  | [] => ([], u)
  | t :: turns => let '(a, u) := tmobile_turn invisible t u in let '(b, u) := tmobile_run invisible turns u in ((a ++ b), u)
  end.

Definition uz801_led (l : string) : rstr := lit "/sys/class/leds/" ++ lit l ++ lit "/brightness".
Definition led_on (path : rstr) : FileWrite := (path, lit "1").
Definition led_off (path : rstr) : FileWrite := (path, lit "0").
Definition uz801_leds (s : DisplayState) : list FileWrite :=
  match s with
  | Display_Paused => [led_off (uz801_led "red"); led_off (uz801_led "green"); led_on (uz801_led "wifi")]
  | Display_Recording => [led_off (uz801_led "red"); led_off (uz801_led "wifi"); led_on (uz801_led "green")]
  | Display_WarningDetected _ => [led_off (uz801_led "green"); led_off (uz801_led "wifi"); led_on (uz801_led "red")]
  end.
(** One turn of [uz801::update_ui], at [now] seconds. *)
Definition uz801_turn (invisible : bool) (now : Z) (update : option DisplayState) (u : LedUi) : list FileWrite * LedUi :=
  let state := default (led_state u) update in
  if negb invisible && (negb (bool_decide (state = last_state u)) || (5 <=? now - last_update u))
  then (uz801_leds state, mkLedUi state state now)
  else ([], mkLedUi state (last_state u) (last_update u)).

Fixpoint uz801_run (invisible : bool) (turns : list (Z * option DisplayState)) (u : LedUi) : list FileWrite * LedUi :=
  match turns with
  | [] => ([], u)
  | (now, t) :: turns => let '(a, u) := uz801_turn invisible now t u in let '(b, u) := uz801_run invisible turns u in (a ++ b, u)
  end.

(** ** The one-bit panel *)

Definition OLED_PATH : string := "/sys/class/display/oled/oled_buffer".
Definition STATUS_X : Z := 104.
Definition STATUS_Y : Z := 40.
Definition STATUS_W : Z := 16.
Definition STATUS_H : Z := 16.

(** A picture drawn with [x] for a dark point and [_] for a light one. *)
Definition art_pixels (row : string) : list Z :=
  omap (fun c => if c =? 120 then Some 0 else if c =? 95 then Some 1 else None) (lit row).
Fixpoint pack_pixels (bits : list Z) : list Z :=
  match bits with
  | a :: b :: c :: d :: e :: f :: g :: h :: bits =>
      Z.lor (Z.lor (Z.lor (Z.lor (Z.lor (Z.lor (Z.lor (Z.shiftl a 7) (Z.shiftl b 6)) (Z.shiftl c 5)) (Z.shiftl d 4)) (Z.shiftl e 3)) (Z.shiftl f 2)) (Z.shiftl g 1)) h
      :: pack_pixels bits
  | _ => []
  end.
Definition pixelart (x y width height : Z) (art : list string) : list Z := x :: y :: width :: height :: pack_pixels (flat_map art_pixels art).

Definition STATUS_PAUSED : list Z := pixelart STATUS_X STATUS_Y STATUS_W STATUS_H [
  "_ _ _ _ _ _ _ _ _ _ _ _ _ _ _ _";
  "_ _ _ x x x x x x x x x x _ _ _";
  "_ x x _ _ _ _ _ _ _ _ _ _ x x _";
  "_ x _ _ _ _ _ _ _ _ _ _ _ _ x _";
  "_ x _ _ _ _ _ _ _ _ _ _ _ _ x _";
  "_ x _ _ _ x _ _ _ _ x _ _ _ x _";
  "_ x _ _ _ _ _ _ _ _ _ _ _ _ x _";
  "_ x _ _ _ _ _ _ _ _ _ _ _ _ x _";
  "_ x _ _ _ _ _ _ _ _ _ _ _ _ x _";
  "_ x _ _ _ _ _ _ _ _ _ _ _ _ x _";
  "_ x _ _ _ _ _ _ _ _ _ _ _ _ x _";
  "_ x _ _ _ _ _ _ _ _ _ _ _ _ x _";
  "_ x _ _ _ _ _ _ _ _ _ _ _ _ x _";
  "_ x x _ _ _ _ _ _ _ _ _ _ x x _";
  "_ _ _ x x x x x x x x x x _ _ _";
  "_ _ _ _ _ _ _ _ _ _ _ _ _ _ _ _"].
Definition STATUS_SMILING : list Z := pixelart STATUS_X STATUS_Y STATUS_W STATUS_H [
  "_ _ _ _ _ _ _ _ _ _ _ _ _ _ _ _";
  "_ _ _ x x x x x x x x x x _ _ _";
  "_ x x _ _ _ _ _ _ _ _ _ _ x x _";
  "_ x _ _ _ _ _ _ _ _ _ _ _ _ x _";
  "_ x _ _ _ _ _ _ _ _ _ _ _ _ x _";
  "_ x _ _ _ x _ _ _ _ x _ _ _ x _";
  "_ x _ _ _ _ _ _ _ _ _ _ _ _ x _";
  "_ x _ _ _ _ _ _ _ _ _ _ _ _ x _";
  "_ x _ _ _ x _ _ _ _ x _ _ _ x _";
  "_ x _ _ _ x _ _ _ _ x _ _ _ x _";
  "_ x _ _ _ x x x x x x _ _ _ x _";
  "_ x _ _ _ _ _ _ _ _ _ _ _ _ x _";
  "_ x _ _ _ _ _ _ _ _ _ _ _ _ x _";
  "_ x x _ _ _ _ _ _ _ _ _ _ x x _";
  "_ _ _ x x x x x x x x x x _ _ _";
  "_ _ _ _ _ _ _ _ _ _ _ _ _ _ _ _"].
Definition STATUS_WARNING : list Z := pixelart STATUS_X STATUS_Y STATUS_W STATUS_H [
  "_ _ _ _ _ _ _ _ _ _ _ _ _ _ _ _";
  "_ _ _ x x x x x x x x x x _ _ _";
  "_ x x _ _ _ _ _ _ _ _ _ _ x x _";
  "_ x _ _ _ _ _ _ _ _ _ _ _ _ x _";
  "_ x _ _ _ _ _ x x _ _ _ _ _ x _";
  "_ x _ _ _ _ _ x x _ _ _ _ _ x _";
  "_ x _ _ _ _ _ x x _ _ _ _ _ x _";
  "_ x _ _ _ _ _ x x _ _ _ _ _ x _";
  "_ x _ _ _ _ _ x x _ _ _ _ _ x _";
  "_ x _ _ _ _ _ _ _ _ _ _ _ _ x _";
  "_ x _ _ _ _ _ x x _ _ _ _ _ x _";
  "_ x _ _ _ _ _ x x _ _ _ _ _ x _";
  "_ x _ _ _ _ _ _ _ _ _ _ _ _ x _";
  "_ x x _ _ _ _ _ _ _ _ _ _ x x _";
  "_ _ _ x x x x x x x x x x _ _ _";
  "_ _ _ _ _ _ _ _ _ _ _ _ _ _ _ _"].

(** One turn of [tplink_onebit::update_ui]: the picture of the last state is written, every time. *)
Definition oled_turn (invisible : bool) (update : option DisplayState) (pixels : list Z) : option (list Z) * list Z :=
  let pixels := match update with
                | Some Display_Paused => STATUS_PAUSED
                | Some Display_Recording => STATUS_SMILING
                | Some (Display_WarningDetected _) => STATUS_WARNING
                | None => pixels
                end in
  (if invisible then None else Some pixels, pixels).

(** ** The colour panel of the same unit *)

Record fb_fillrect := mkFbFillrect { fb_dx : Z; fb_dy : Z; fb_width : Z; fb_height : Z; fb_color : Z; fb_rop : Z }.
(** The part of the panel to show, and the bytes. *)
Definition tplink_write_buffer (buffer : list rgb) : fb_fillrect * list Z :=
  let width := dim_width tplink_dimensions in
  (mkFbFillrect 0 0 width (wrapu 32 (Z.of_nat (length buffer)) / width) 0xffff 0, raw_buffer_be buffer).

Inductive TplinkDisplay := OneBit | Colour.
Definition tplink_display (oled_exists : option bool) : TplinkDisplay := if default false oled_exists then OneBit else Colour.

(** ** Keeping the panel awake *)

Inductive KeepScreenOn := Never | Always | WhenPluggedIn.

Definition PANEL_SLEEP_MODE : string := "/sys/devices/78b6000.spi/spi_master/spi1/spi1.0/sleep_mode".
Definition PANEL_BACKLIGHT : string := "/sys/devices/78b6000.spi/spi_master/spi1/spi1.0/bl_gpio".
Definition AUTOSLEEP : string := "/sys/power/autosleep".
Definition POLL : Z := 500.

Definition read_flag (content : option rstr) : option bool :=
  match content with
  | Some s => if bool_decide (trim s = lit "0") then Some false else if bool_decide (trim s = lit "1") then Some true else None
  | None => None
  end.

(** What a poll finds. *)
Record PanelPoll := mkPanelPoll { override_active : bool; usb_online : option rstr; sleep_mode : option rstr; bl_gpio : option rstr }.

Definition holding (mode : KeepScreenOn) (p : PanelPoll) : bool :=
  override_active p || match mode with
                       | Never => false
                       | Always => true
                       | WhenPluggedIn => default false (read_flag (usb_online p))
                       end.

Definition write_sysfs (path value : string) : FileWrite := (lit path, lit value).
Definition poll_turn (mode : KeepScreenOn) (can_autosleep : bool) (p : PanelPoll) (suspended : bool) : list FileWrite * bool :=
  if holding mode p then
    let suspend := can_autosleep && negb suspended in
    let asleep := bool_decide (read_flag (sleep_mode p) = Some false) || bool_decide (read_flag (bl_gpio p) = Some false) in
    (((if suspend then [write_sysfs AUTOSLEEP "off"] else []) ++
      (if asleep then [write_sysfs PANEL_BACKLIGHT "1"; write_sysfs PANEL_SLEEP_MODE "1"] else [])), suspended || suspend)
  else if suspended then ([write_sysfs AUTOSLEEP "mem"], false)
  else ([], false).

Fixpoint poll_run (mode : KeepScreenOn) (can_autosleep : bool) (polls : list PanelPoll) (suspended : bool) : list FileWrite * bool :=
  match polls with
  | [] => ([], suspended)
  | p :: polls => let '(a, s) := poll_turn mode can_autosleep p suspended in let '(b, s) := poll_run mode can_autosleep polls s in ((a ++ b), s)
  end.

(** [spawn_keep_screen_on], from start to shutdown, which can come after any poll. *)
Definition keep_screen_on (mode : KeepScreenOn) (panel_exists can_autosleep : bool) (polls : list PanelPoll) : list FileWrite :=
  if negb panel_exists then []
  else let '(writes, suspended) := poll_run mode can_autosleep polls false in
       (writes ++ if suspended then [write_sysfs AUTOSLEEP "mem"] else []).

(** ** Lights *)

Lemma file_value_app path a b : file_value path (a ++ b) = match file_value path b with Some v => Some v | None => file_value path a end.
Proof.
  unfold file_value. rewrite foldl_app. generalize (foldl (file_step path) None a) as v.
  induction b as [|w b IH]; intros v; cbn [foldl]; [done|]. unfold file_step at 2 4. case_bool_decide; [|by apply IH].
  rewrite (IH (Some w.2)). by destruct (foldl (file_step path) None b).
Qed.

(** The light that stands for a state. *)
Definition tmobile_light (s : DisplayState) : string :=
  match s with Display_Paused => "wlan_white" | Display_Recording => "signal_blue" | Display_WarningDetected _ => "signal_red" end.
Definition uz801_light (s : DisplayState) : string :=
  match s with Display_Paused => "wifi" | Display_Recording => "green" | Display_WarningDetected _ => "red" end.

(** Exactly the light of the state is on. *)
Definition tmobile_shows (s : DisplayState) (writes : list FileWrite) : Prop :=
  Forall (fun l => file_value (tmobile_led l) writes = Some (lit (if String.eqb l (tmobile_light s) then "1" else "0"))) ["signal_blue"; "signal_red"; "wlan_white"].
Definition uz801_shows (s : DisplayState) (writes : list FileWrite) : Prop :=
  Forall (fun l => file_value (uz801_led l) writes = Some (lit (if String.eqb l (uz801_light s) then "1" else "0"))) ["red"; "green"; "wifi"].

Lemma tmobile_leds_shows s writes : tmobile_shows s (writes ++ tmobile_leds s).
Proof. unfold tmobile_shows. destruct s; repeat constructor; by rewrite file_value_app. Qed.
Lemma uz801_leds_shows s writes : uz801_shows s (writes ++ uz801_leds s).
Proof. unfold uz801_shows. destruct s; repeat constructor; by rewrite file_value_app. Qed.

(** Every light tells the state, or nothing has been written since the start. *)
Definition tmobile_told (writes : list FileWrite) (u : LedUi) : Prop :=
  tmobile_shows (last_state u) writes \/ writes = [] /\ last_state u = Display_Paused.
Lemma tmobile_turn_told t u writes : tmobile_told writes u ->
  tmobile_told (writes ++ (tmobile_turn false t u).1) (tmobile_turn false t u).2 /\
  last_state (tmobile_turn false t u).2 = led_state (tmobile_turn false t u).2.
Proof.
  intros Ht. unfold tmobile_turn. cbn [orb]. destruct (bool_decide_reflect (default (led_state u) t = last_state u)) as [He|Hne]; cbn [fst snd].
  - rewrite app_nil_r. by split.
  - split; [|done]. left. apply tmobile_leds_shows.
Qed.

(** After any turns, whatever updates come, exactly the light of the unit's current state is on and the other
    two are off, except that nothing at all is written while the state is Paused from the start. *)
Theorem tmobile_lights turns : turns <> [] -> let '(writes, u) := tmobile_run false turns (led_start 0) in
  tmobile_shows (led_state u) writes \/ writes = [] /\ led_state u = Display_Paused.
Proof.
  assert (Hg : forall turns writes u, tmobile_told writes u -> turns <> [] \/ last_state u = led_state u ->
    tmobile_told (writes ++ (tmobile_run false turns u).1) (tmobile_run false turns u).2 /\
    last_state (tmobile_run false turns u).2 = led_state (tmobile_run false turns u).2).
  { clear. induction turns as [|t turns IH]; intros writes u Ht Hl; cbn [tmobile_run fst snd].
    - rewrite app_nil_r. by destruct Hl.
    - pose proof (tmobile_turn_told t u writes Ht) as [H1 H2]. destruct (tmobile_turn false t u) as [a u1]. cbn [fst snd] in H1, H2.
      specialize (IH _ u1 H1 (or_intror H2)). destruct (tmobile_run false turns u1) as [b u2]. cbn [fst snd] in *. by rewrite app_assoc. }
  intros Hne. specialize (Hg turns [] (led_start 0)). rewrite (surjective_pairing (tmobile_run false turns (led_start 0))).
  destruct Hg as [Ht Hl]; [by right|by left|]. unfold tmobile_told in Ht. by rewrite Hl in Ht.
Qed.

(** Started in a state of Paused and told so at once, the unit lights nothing, for ever. *)
Lemma tmobile_paused_dark n : (tmobile_run false (Some Display_Paused :: replicate n None) (led_start 0)).1 = [].
Proof.
  assert (Hg : forall u, led_state u = Display_Paused -> last_state u = Display_Paused -> (tmobile_run false (replicate n None) u).1 = []).
  { induction n as [|n IH]; intros [s l t]; cbn [led_state last_state]; [done|]. intros -> ->. cbn [replicate tmobile_run].
    change (tmobile_turn false None (mkLedUi Display_Paused Display_Paused t)) with ((@nil FileWrite), mkLedUi Display_Paused Display_Paused t).
    cbv iota. specialize (IH (mkLedUi Display_Paused Display_Paused t) eq_refl eq_refl).
    destruct (tmobile_run false _ _) as [b u]. exact IH. }
  cbn [tmobile_run]. change (tmobile_turn false (Some Display_Paused) (led_start 0)) with ((@nil FileWrite), mkLedUi Display_Paused Display_Paused 0).
  cbv iota. specialize (Hg (mkLedUi Display_Paused Display_Paused 0) eq_refl eq_refl). destruct (tmobile_run false _ _) as [b u]. exact Hg.
Qed.

(** The other unit writes its lights again every five seconds, so they are right from then on. *)
Lemma uz801_lights now t u writes : 5 <= now - last_update u \/ default (led_state u) t <> last_state u ->
  uz801_shows (led_state (uz801_turn false now t u).2) (writes ++ (uz801_turn false now t u).1).
Proof.
  intros Hc. unfold uz801_turn. cbn [negb andb].
  assert (Hb : negb (bool_decide (default (led_state u) t = last_state u)) || (5 <=? now - last_update u) = true).
  { apply orb_true_iff. rewrite negb_true_iff, bool_decide_eq_false, Z.leb_le. tauto. }
  rewrite Hb. cbn [fst snd led_state]. apply uz801_leds_shows.
Qed.

(** Nothing is lit or drawn in invisible mode. *)
Lemma invisible_dark turns : forall u, (tmobile_run true turns u).1 = [].
Proof.
  induction turns as [|t turns IH]; intros u; cbn [tmobile_run]; [done|]. unfold tmobile_turn. cbn [orb].
  specialize (IH (mkLedUi (default (led_state u) t) (last_state u) (last_update u))). destruct (tmobile_run true turns _). exact IH.
Qed.

(** ** Panels *)

Lemma status_pictures : Forall (fun p => length p = 36%nat /\ take 4 p = [STATUS_X; STATUS_Y; STATUS_W; STATUS_H] /\ Forall (fun b => 0 <= b < 256) p)
  [STATUS_PAUSED; STATUS_SMILING; STATUS_WARNING] /\ NoDup [STATUS_PAUSED; STATUS_SMILING; STATUS_WARNING].
Proof. apply (bool_decide_unpack _). vm_compute. exact I. Qed.
(** The driver's own test. *)
Lemma status_warning_bytes : STATUS_WARNING =
  [104; 40; 16; 16; 255; 255; 224; 7; 159; 249; 191; 253; 190; 125; 190; 125; 190; 125;
   190; 125; 190; 125; 191; 253; 190; 125; 190; 125; 191; 253; 159; 249; 224; 7; 255; 255].
Proof. vm_compute. reflexivity. Qed.

(** The rectangle put on the colour panel is the rows written, and two bytes go out for each pixel. *)
Lemma tplink_rectangle color height pattern : 0 <= height <= dim_height tplink_dimensions ->
  let '(rect, raw) := tplink_write_buffer (draw_status tplink_dimensions color height pattern None) in
  fb_width rect = dim_width tplink_dimensions /\ fb_height rect = height /\ Z.of_nat (length raw) = 2 * (fb_width rect * fb_height rect).
Proof.
  intros Hh. unfold tplink_write_buffer. set (b := draw_status _ _ _ _ _).
  assert (Hl : Z.of_nat (length b) = 128 * height).
  { subst b. unfold draw_status. rewrite length_app, length_rows. cbn [length dim_width dim_height tplink_dimensions] in *. lia. }
  rewrite Hl. cbn [fb_width fb_height dim_width tplink_dimensions dim_height] in *. rewrite wrapu_id by (unfold in_u; lia).
  rewrite (Z.mul_comm 128), Z.div_mul by lia. split; [done|]. split; [done|]. 
  assert (Hr : Z.of_nat (length (raw_buffer_be b)) = 2 * Z.of_nat (length b)).
  { clear. unfold raw_buffer_be. induction b as [|p b IH]; [done|]. cbn [flat_map]. rewrite length_app, be_bytes_length. cbn [length]. lia. }
  rewrite Hr, Hl. lia.
Qed.

(** ** The panel is kept awake *)

Definition autosleep_told (writes : list FileWrite) (suspended : bool) : Prop :=
  if suspended then file_value (lit AUTOSLEEP) writes = Some (lit "off")
  else file_value (lit AUTOSLEEP) writes = None \/ file_value (lit AUTOSLEEP) writes = Some (lit "mem").

Lemma poll_turn_told mode can p writes suspended : autosleep_told writes suspended -> (suspended = true -> can = true) ->
  let '(a, s) := poll_turn mode can p suspended in autosleep_told (writes ++ a) s /\ s = holding mode p && can.
Proof.
  intros Ht Hcan. unfold poll_turn.
  assert (Hwake : file_value (lit AUTOSLEEP) [write_sysfs PANEL_BACKLIGHT "1"; write_sysfs PANEL_SLEEP_MODE "1"] = None) by reflexivity.
  destruct (holding mode p).
  - set (asleep := _ || _). destruct can, suspended; cbn [andb orb negb app]; try (by specialize (Hcan eq_refl)); (split; [|done]); unfold autosleep_told in *;
      rewrite !file_value_app; destruct asleep; cbn [app]; try rewrite Hwake; auto.
  - destruct suspended; cbn [andb]; (split; [|done]); unfold autosleep_told; rewrite file_value_app; [right; reflexivity|exact Ht].
Qed.
Lemma poll_run_told mode can polls : forall writes suspended, autosleep_told writes suspended -> (suspended = true -> can = true) ->
  let '(a, s) := poll_run mode can polls suspended in autosleep_told (writes ++ a) s.
Proof.
  induction polls as [|p polls IH]; intros writes suspended Ht Hcan; cbn [poll_run]; [by rewrite app_nil_r|].
  pose proof (poll_turn_told mode can p writes suspended Ht Hcan) as H1. destruct (poll_turn mode can p suspended) as [a s]. destruct H1 as [H1 Hs].
  assert (Hc : s = true -> can = true) by (rewrite Hs; by intros [_ ?]%andb_true_iff).
  specialize (IH _ s H1 Hc). destruct (poll_run mode can polls s). by rewrite app_assoc.
Qed.

(** When the display ends, after any polls whatever the setting, the unit suspends by itself again if it ever was
    stopped from doing so: the last word written to [autosleep], if any was, is [mem]. *)
Theorem suspend_restored mode panel can polls :
  file_value (lit AUTOSLEEP) (keep_screen_on mode panel can polls) <> Some (lit "off").
Proof.
  unfold keep_screen_on. destruct panel; cbn [negb]; [|by intros ?].
  pose proof (poll_run_told mode can polls [] false (or_introl eq_refl)) as H. cbn [app] in H.
  destruct (poll_run mode can polls false) as [w s]. rewrite file_value_app. specialize (H ltac:(done)). destruct s.
  - by vm_compute.
  - change (file_value (lit AUTOSLEEP) []) with (@None rstr). cbv iota. destruct H as [-> | ->]; by vm_compute.
Qed.

(** While the panel has to stay on and can be read as blanked it is lit and then woken, and the system kept from suspending. *)
Lemma poll_wakes mode p suspended : holding mode p = true ->
  read_flag (sleep_mode p) = Some false \/ read_flag (bl_gpio p) = Some false ->
  (poll_turn mode true p suspended).2 = true /\
  (exists pre, (poll_turn mode true p suspended).1 = pre ++ [write_sysfs PANEL_BACKLIGHT "1"; write_sysfs PANEL_SLEEP_MODE "1"]).
Proof.
  intros Hh Hf. unfold poll_turn. rewrite Hh. cbn [fst snd andb]. split; [by destruct suspended|].
  assert (Ha : bool_decide (read_flag (sleep_mode p) = Some false) || bool_decide (read_flag (bl_gpio p) = Some false) = true).
  { apply orb_true_iff. rewrite !bool_decide_eq_true. exact Hf. }
  rewrite Ha. by eexists.
Qed.

Lemma tmobile_lights_witness : exists turns, turns = [Some Display_Paused; None; Some (Display_WarningDetected High)] /\
  (let '(writes, u) := tmobile_run false turns (led_start 0) in tmobile_shows (led_state u) writes \/ writes = [] /\ led_state u = Display_Paused).
Proof. eexists. split; [reflexivity|]. apply tmobile_lights. discriminate. Defined.
