(* ===== verification/Frontdoor.v ===== *)
(** * An address of the unit's own ([daemon/src/frontdoor.rs] and its place in [main.rs])

    What the setting asks for, the address and the NAT rules, and how they are put in place and taken down.  The [ip] and
    [iptables] commands are a function on what they change: the addresses of the interfaces and the rules of the
    chain; what they are documented to do is [CommandLaws].  The parser of addresses is the standard library's. *)

From S2P Require Import Prelude RustStr Mdns.

Local Open Scope Z_scope.

(** ** Addresses as text *)

(** [Ipv4Addr::from_str]: four numbers of at most three digits, none with a zero in front, none over 255. *)
Definition parse_octet (s : rstr) : option Z :=
  if bool_decide (s = []) || bool_decide (3 < length s)%nat || (bool_decide (head s = Some 48) && bool_decide (1 < length s)%nat) then None
  else match parse_digits 0 s with Some n => if n <=? 255 then Some n else None | None => None end.
Definition parse_ipv4 (s : rstr) : option Ipv4Addr :=
  match mapM parse_octet (split_on 46 s) with
  | Some [a; b; c; d] => Some [a; b; c; d]
  | _ => None
  end.
(** [Ipv4Addr]'s [Display]. *)
Definition show_ipv4 (ip : Ipv4Addr) : rstr := join (lit ".") (map dec ip).

(** ** The setting *)

Definition ALIAS_HOST : Z := 254.

Inductive FrontDoorChoice := Automatic | Fixed (ip : Ipv4Addr) | Off.

Definition choice (setting : option rstr) : FrontDoorChoice :=
  match trim <$> setting with
  | None => Automatic
  | Some s =>
      if bool_decide (s = []) || bool_decide (s = lit "auto") then Automatic
      else if eq_ignore_ascii_case s (lit "off") || eq_ignore_ascii_case s (lit "none") then Off
      else match parse_ipv4 s with Some ip => Fixed ip | None => Automatic end
  end.

Definition alias_for (hotspot : Ipv4Addr) : Ipv4Addr :=
  match hotspot with
  | [a; b; c; d] => [a; b; c; if d =? ALIAS_HOST then ALIAS_HOST - 1 else ALIAS_HOST]
  | _ => hotspot
  end.

(** ** Commands *)

Definition Rule : Type := list rstr.
Definition rules (iface : rstr) (alias : Ipv4Addr) (port tls_port : Z) : list Rule :=
  map (fun '(from, to) =>
    [lit "-i"; iface; lit "-d"; show_ipv4 alias; lit "-p"; lit "tcp"; lit "--dport"; dec from;
     lit "-j"; lit "REDIRECT"; lit "--to-ports"; dec to]) [(443, tls_port); (80, port)].

(** What the commands change: addresses with their interfaces, and the chain of rules. *)
Record Net := mkNet { addresses : list (rstr * rstr); chain : list Rule }.
(** A command cannot be started, or ended with a status and what it wrote. *)
Inductive Output := NotStarted (e : rstr) | Ended (success : bool) (stdout stderr : list Z).

Section commands.
Context (command : rstr -> list rstr -> Net -> Output * Net).

Definition run (program : rstr) (args : list rstr) (net : Net) : result rstr rstr * Net :=
  match command program args net with
  | (NotStarted e, net) => (Err (program ++ lit ": " ++ e), net)
  | (Ended true stdout _, net) => (Ok (from_utf8_lossy stdout), net)
  | (Ended false _ stderr, net) => (Err (program ++ lit " " ++ join (lit " ") args ++ lit ": " ++ trim (from_utf8_lossy stderr)), net)
  end.

Definition iptables (op : rstr) (rule : Rule) : Net -> result rstr rstr * Net :=
  run (lit "iptables") ([lit "-t"; lit "nat"; op; lit "PREROUTING"] ++ rule).
Definition ip_addr (op cidr iface : rstr) : Net -> result rstr rstr * Net :=
  run (lit "ip") [lit "addr"; op; cidr; lit "dev"; iface].

Record FrontDoor := mkFrontDoor { door_iface : rstr; door_alias : Ipv4Addr; door_rules : list Rule }.

Definition cidr_of (alias : Ipv4Addr) : rstr := show_ipv4 alias ++ lit "/24".

(** [FrontDoor::close]. *)
Fixpoint delete_rules (rules : list Rule) (net : Net) : Net :=
  match rules with
  | [] => net
  | rule :: rules => delete_rules rules (iptables (lit "-D") rule net).2
  end.
Definition close (door : FrontDoor) (net : Net) : Net :=
  (ip_addr (lit "del") (cidr_of (door_alias door)) (door_iface door) (delete_rules (door_rules door) net)).2.

Definition door_address (hotspot : Ipv4Addr) (chosen : FrontDoorChoice) : option Ipv4Addr :=
  match chosen with
  | Off => None
  | Automatic => Some (alias_for hotspot)
  | Fixed ip => Some (if bool_decide (ip = hotspot) then alias_for hotspot else ip)
  end.

(** The rules not there yet are added, until one cannot be. *)
Fixpoint add_rules (rules : list Rule) (net : Net) : bool * Net :=
  match rules with
  | [] => (true, net)
  | rule :: rules =>
      match iptables (lit "-C") rule net with
      | (Ok _, net) => add_rules rules net
      | (Err _, net) =>
          match iptables (lit "-A") rule net with
          | (Ok _, net) => add_rules rules net
          | (Err _, net) => (false, net)
          end
      end
  end.

(** [FrontDoor::open]. *)
Definition front_door_open (iface : rstr) (hotspot : Ipv4Addr) (chosen : FrontDoorChoice) (port tls_port : Z) (net : Net) : option FrontDoor * Net :=
  match door_address hotspot chosen with
  | None => (None, net)
  | Some alias =>
      let '(added, net) := ip_addr (lit "add") (cidr_of alias) iface net in
      if match added with Ok _ => true | Err e => contains e (lit "File exists") end then
        let door := mkFrontDoor iface alias (rules iface alias port tls_port) in
        let '(steered, net) := add_rules (door_rules door) net in
        if steered then (Some door, net) else (None, close door net)
      else (None, net)
  end.
End commands.

(** ** What the commands are documented to do *)

(** The first of the elements equal to [x] is removed. *)
Fixpoint remove_first {A : Type} `{EqDecision A} (x : A) (l : list A) : list A :=
  match l with
  | [] => []
  | y :: l => if bool_decide (y = x) then l else y :: remove_first x l
  end.

Definition is_ok {E A : Type} (r : result E A) : bool := match r with Ok _ => true | Err _ => false end.

Class CommandLaws (command : rstr -> list rstr -> Net -> Output * Net) : Prop := {
  (** [-C] looks for a rule and changes nothing. *)
  law_check rule net : (iptables command (lit "-C") rule net).2 = net /\
    is_ok (iptables command (lit "-C") rule net).1 = bool_decide (rule ∈ chain net);
  (** [-A] puts a rule at the end of the chain, or fails and changes nothing. *)
  law_append rule net : (iptables command (lit "-A") rule net).2 =
    if is_ok (iptables command (lit "-A") rule net).1 then mkNet (addresses net) (chain net ++ [rule]) else net;
  (** [-D] takes the first such rule away. *)
  law_delete rule net : (iptables command (lit "-D") rule net).2 = mkNet (addresses net) (remove_first rule (chain net));
  (** An address that is there is refused with a message that says so; another is added or it fails. *)
  law_add cidr iface net : (ip_addr command (lit "add") cidr iface net).2 =
    if is_ok (ip_addr command (lit "add") cidr iface net).1 then mkNet (addresses net ++ [(cidr, iface)]) (chain net) else net;
  law_exists cidr iface net : match (ip_addr command (lit "add") cidr iface net).1 with
    | Ok _ => ((cidr, iface) ∉ addresses net)
    | Err e => contains e (lit "File exists") = bool_decide ((cidr, iface) ∈ addresses net)
    end;
  law_del cidr iface net : (ip_addr command (lit "del") cidr iface net).2 = mkNet (remove_first (cidr, iface) (addresses net)) (chain net) }.

Lemma remove_first_absent {A : Type} `{EqDecision A} (x : A) l : x ∉ l -> remove_first x l = l.
Proof.
  induction l as [|y l IH]; intros Hx; [done|]. apply not_elem_of_cons in Hx as [Hne Hx]. cbn [remove_first].
  rewrite bool_decide_eq_false_2 by congruence. by rewrite IH.
Qed.
Lemma remove_first_middle {A : Type} `{EqDecision A} (x : A) l r : x ∉ l -> remove_first x (l ++ x :: r) = l ++ r.
Proof.
  induction l as [|y l IH]; intros Hx; cbn [app remove_first]; [by rewrite bool_decide_eq_true_2|]. apply not_elem_of_cons in Hx as [Hne Hx].
  rewrite bool_decide_eq_false_2 by congruence. by rewrite IH.
Qed.

Section laws.
Context (command : rstr -> list rstr -> Net -> Output * Net) `{Hlaws : !CommandLaws command}.

Lemma net_eta net : mkNet (addresses net) (chain net) = net.
Proof. by destruct net. Qed.

(** [add_rules] by the laws: a rule there is left alone, another is added at the end or ends it all. *)
Lemma add_rules_cons rule rules net :
  (rule ∈ chain net /\ add_rules command (rule :: rules) net = add_rules command rules net) \/
  ((rule ∉ chain net) /\
   (add_rules command (rule :: rules) net = (false, net) \/
    add_rules command (rule :: rules) net = add_rules command rules (mkNet (addresses net) (chain net ++ [rule])))).
Proof.
  cbn [add_rules]. pose proof (law_check rule net) as [Hn Hok]. pose proof (law_append rule net) as Ha.
  destruct (iptables command (lit "-C") rule net) as [[c|e] net1]; cbn [fst snd is_ok] in Hn, Hok; subst net1; symmetry in Hok.
  - apply bool_decide_eq_true in Hok. by left.
  - apply bool_decide_eq_false in Hok. right. split; [done|].
    destruct (iptables command (lit "-A") rule net) as [[a|e'] net2]; cbn [fst snd is_ok] in Ha; subst net2; auto.
Qed.

(** In a chain with none of them what is added is some of the first rules. *)
Lemma add_rules_fresh rules : forall net, NoDup rules -> Forall (fun r => r ∉ chain net) rules ->
  exists n, (add_rules command rules net).2 = mkNet (addresses net) (chain net ++ take n rules).
Proof.
  induction rules as [|rule rules IH]; intros net Hnd Hf; [exists 0%nat; cbn; rewrite app_nil_r; by rewrite net_eta|].
  apply NoDup_cons in Hnd as [Hr Hnd]. apply Forall_cons in Hf as [H1 Hf].
  destruct (add_rules_cons rule rules net) as [[? _]|[_ [->| ->]]]; [done|exists 0%nat; cbn; by rewrite app_nil_r, net_eta|].
  destruct (IH (mkNet (addresses net) (chain net ++ [rule]))) as [n ->]; [done| |exists (S n); cbn; by rewrite <- app_assoc].
  apply Forall_forall. intros r Hin. rewrite Forall_forall in Hf. cbn [chain]. rewrite not_elem_of_app, list_elem_of_singleton.
  split; [by apply Hf|]. by intros ->.
Qed.

(** And all of it is taken away again. *)
Lemma delete_rules_fresh rules : forall net c n, NoDup rules -> Forall (fun r => r ∉ c) rules -> chain net = c ++ take n rules ->
  delete_rules command rules net = mkNet (addresses net) c.
Proof.
  induction rules as [|rule rules IH]; intros net c n Hnd Hf Hc; cbn [delete_rules].
  - rewrite take_nil, app_nil_r in Hc. by rewrite <- Hc, net_eta.
  - apply NoDup_cons in Hnd as [Hr Hnd]. apply Forall_cons in Hf as [H1 Hf]. rewrite law_delete, Hc.
    destruct n as [|n]; cbn [take].
    + rewrite app_nil_r, remove_first_absent by done. rewrite (IH (mkNet (addresses net) c) c 0%nat); [done..|]. cbn. by rewrite app_nil_r.
    + rewrite remove_first_middle by done. by rewrite (IH (mkNet (addresses net) (c ++ take n rules)) c n).
Qed.

Lemma add_rules_present rules : forall net, Forall (fun r => r ∈ chain net) rules -> add_rules command rules net = (true, net).
Proof.
  induction rules as [|rule rules IH]; intros net Hf; [done|]. apply Forall_cons in Hf as [H1 Hf].
  destruct (add_rules_cons rule rules net) as [[_ ->]|[? _]]; [by apply IH|done].
Qed.
Lemma add_rules_all rules : forall net, (add_rules command rules net).1 = true -> Forall (fun r => r ∈ chain (add_rules command rules net).2) rules /\
  addresses (add_rules command rules net).2 = addresses net /\ chain net ⊆ chain (add_rules command rules net).2.
Proof.
  induction rules as [|rule rules IH]; intros net Hok; [cbn; split; [constructor|done]|].
  destruct (add_rules_cons rule rules net) as [[Hin He]|[_ [He|He]]]; rewrite He in Hok |- *; [|done|];
    destruct (IH _ Hok) as (H1 & H2 & H3); (split; [constructor; [apply H3|done]|split; [done|]]); cbn [chain] in *; set_solver.
Qed.
End laws.

Lemma rules_nodup iface alias port tls_port : NoDup (rules iface alias port tls_port).
Proof.
  unfold rules. cbn [map]. apply NoDup_cons. split; [|apply NoDup_singleton]. rewrite list_elem_of_singleton. intros H.
  apply (f_equal (fun l => nth 7 l [])) in H. cbn [nth] in H. revert H. by vm_compute.
Qed.

(** None of the door's address and rules are there. *)
Definition no_door (iface : rstr) (hotspot : Ipv4Addr) (chosen : FrontDoorChoice) (port tls_port : Z) (net : Net) : Prop :=
  match door_address hotspot chosen with
  | None => True
  | Some alias => (cidr_of alias, iface) ∉ addresses net /\ Forall (fun r => r ∉ chain net) (rules iface alias port tls_port)
  end.


(** Opening it again, as a daemon does that was not able to take it down, changes nothing: no rule is there twice for it. *)
Theorem front_door_not_stacked command iface hotspot chosen port tls_port net door net' :
  CommandLaws command -> front_door_open command iface hotspot chosen port tls_port net = (Some door, net') ->
  front_door_open command iface hotspot chosen port tls_port net' = (Some door, net').
Proof.
  intros Hlaws. unfold front_door_open. destruct (door_address hotspot chosen) as [alias|]; [|done].
  pose proof (law_add (cidr_of alias) iface net) as Ha. pose proof (law_exists (cidr_of alias) iface net) as He.
  destruct (ip_addr command (lit "add") (cidr_of alias) iface net) as [added net1]; cbn [fst snd] in Ha, He.
  destruct (match added with Ok _ => true | Err e => contains e (lit "File exists") end) eqn:Hgo; [|done].
  assert (Hin : (cidr_of alias, iface) ∈ addresses net1).
  { destruct added; cbn [is_ok] in Ha; subst net1; cbn [addresses]; [set_solver|]. rewrite Hgo in He. symmetry in He. by apply bool_decide_eq_true in He. }
  cbn [door_rules]. pose proof (add_rules_all command (rules iface alias port tls_port) net1) as Hall.
  destruct (add_rules command _ net1) as [[] net2]; [|done]. cbn [fst snd] in Hall. intros [= <- <-].
  destruct (Hall eq_refl) as (Hr & Haddr & _). rewrite <- Haddr in Hin.
  pose proof (law_add (cidr_of alias) iface net2) as Ha2. pose proof (law_exists (cidr_of alias) iface net2) as He2.
  destruct (ip_addr command (lit "add") (cidr_of alias) iface net2) as [[ok|e] net3]; cbn [fst snd is_ok] in Ha2, He2; [done|]. subst net3.
  rewrite bool_decide_eq_true_2 in He2 by done. rewrite He2. by rewrite add_rules_present.
Qed.

(** ** Addresses *)

(** The address of its own is another one on the same network, and neither the network's nor the broadcast address. *)
Lemma alias_for_spec a b c d : exists d', alias_for [a; b; c; d] = [a; b; c; d'] /\ d' <> d /\ 0 < d' < 255.
Proof. unfold alias_for, ALIAS_HOST. eexists. split; [reflexivity|]. destruct (Z.eqb_spec d 254); lia. Qed.

Lemma parse_octet_dec n : 0 <= n < 256 -> parse_octet (dec n) = Some n.
Proof.
  intros Hn. assert (Hin : In n (map Z.of_nat (seq 0 256))) by (apply in_map_iff; exists (Z.to_nat n); rewrite in_seq; lia).
  clear Hn. revert n Hin. apply List.Forall_forall. apply (bool_decide_unpack _). vm_compute. exact I.
Qed.
Lemma dec_no_dot n : 0 <= n -> 46 ∉ dec n.
Proof.
  intros Hn Hin. destruct (dec_spec n Hn) as (_ & Hd & _). rewrite Forall_forall in Hd. specialize (Hd _ Hin). discriminate Hd.
Qed.

(** An address written out is read back, so one chosen by the owner is the one used. *)
Lemma parse_ipv4_show ip : length ip = 4%nat -> Forall (fun o => 0 <= o < 256) ip -> parse_ipv4 (show_ipv4 ip) = Some ip.
Proof.
  destruct ip as [|a [|b [|c [|d [|]]]]]; try done. intros _ [Ha [Hb [Hc [Hd _]%Forall_cons]%Forall_cons]%Forall_cons]%Forall_cons.
  unfold parse_ipv4, show_ipv4. cbn [map join]. change (lit ".") with [46]. cbn [app].
  rewrite !split_on_cons, split_on_none by (apply dec_no_dot; lia).
  assert (Hm : mapM parse_octet [dec a; dec b; dec c; dec d] = Some [a; b; c; d]).
  { apply mapM_Some. repeat constructor; by apply parse_octet_dec. }
  by rewrite Hm.
Qed.

(** ** A concrete system *)

(** [ip] and [iptables] as documented, with room for [room] rules. *)
Definition demo_command (room : nat) (program : rstr) (args : list rstr) (net : Net) : Output * Net :=
  if bool_decide (program = lit "iptables") then
    match args with
    | _ :: _ :: op :: _ :: rule =>
        if bool_decide (op = lit "-C") then (Ended (bool_decide (rule ∈ chain net)) [] [], net)
        else if bool_decide (op = lit "-D") then (Ended (bool_decide (rule ∈ chain net)) [] [], mkNet (addresses net) (remove_first rule (chain net)))
        else if (length (chain net) <? room)%nat then (Ended true [] [], mkNet (addresses net) (chain net ++ [rule]))
        else (Ended false [] (lit "iptables: Memory allocation problem."), net)
    | _ => (Ended false [] [], net)
    end
  else
    match args with
    | [_; op; cidr; _; iface] =>
        let present := bool_decide ((cidr, iface) ∈ addresses net) in
        if bool_decide (op = lit "del") then (Ended present [] [], mkNet (remove_first (cidr, iface) (addresses net)) (chain net))
        else if present then (Ended false [] (lit "RTNETLINK answers: File exists"), net)
        else (Ended true [] [], mkNet (addresses net ++ [(cidr, iface)]) (chain net))
    | _ => (Ended false [] [], net)
    end.

Lemma demo_laws room : CommandLaws (demo_command room).
Proof.
  assert (Hc : bool_decide (lit "iptables" = lit "iptables") = true) by (vm_compute; reflexivity).
  assert (Hi : bool_decide (lit "ip" = lit "iptables") = false) by (vm_compute; reflexivity).
  assert (HA1 : bool_decide (lit "-A" = lit "-C") = false) by (vm_compute; reflexivity).
  assert (HA2 : bool_decide (lit "-A" = lit "-D") = false) by (vm_compute; reflexivity).
  assert (HC : bool_decide (lit "-C" = lit "-C") = true) by (vm_compute; reflexivity).
  assert (HD1 : bool_decide (lit "-D" = lit "-C") = false) by (vm_compute; reflexivity).
  assert (HD2 : bool_decide (lit "-D" = lit "-D") = true) by (vm_compute; reflexivity).
  assert (Had : bool_decide (lit "add" = lit "del") = false) by (vm_compute; reflexivity).
  assert (Hdd : bool_decide (lit "del" = lit "del") = true) by (vm_compute; reflexivity).
  split; intros; unfold iptables, ip_addr, run, demo_command; cbn [app]; rewrite ?Hc, ?Hi, ?HA1, ?HA2, ?HC, ?HD1, ?HD2, ?Had, ?Hdd.
  - destruct (decide (rule ∈ chain net)); [rewrite !bool_decide_eq_true_2 by done|rewrite !bool_decide_eq_false_2 by done]; done.
  - by destruct (length (chain net) <? room)%nat.
  - destruct (decide (rule ∈ chain net)); [rewrite !bool_decide_eq_true_2 by done|rewrite !bool_decide_eq_false_2 by done]; done.
  - destruct (decide ((cidr, iface) ∈ addresses net)); [rewrite !bool_decide_eq_true_2 by done|rewrite !bool_decide_eq_false_2 by done]; done.
  - destruct (bool_decide_reflect ((cidr, iface) ∈ addresses net)); [|done]. cbn [fst]. apply contains_spec.
    exists (lit "ip " ++ join (lit " ") [lit "addr"; lit "add"; cidr; lit "dev"; iface] ++ lit ": RTNETLINK answers: "), [].
    rewrite app_nil_r, <- !app_assoc. repeat f_equal.
  - destruct (decide ((cidr, iface) ∈ addresses net)); [rewrite !bool_decide_eq_true_2 by done|rewrite !bool_decide_eq_false_2 by done]; done.
Qed.

Definition demo_net : Net := mkNet [(lit "192.168.1.1/24", lit "bridge0")] [].


Lemma front_door_not_stacked_witness : exists d net', front_door_open (demo_command 2) (lit "bridge0") [192; 168; 1; 1] Automatic 8080 8443 demo_net = (Some d, net') /\
  front_door_open (demo_command 2) (lit "bridge0") [192; 168; 1; 1] Automatic 8080 8443 net' = (Some d, net').
Proof.
  destruct (front_door_open (demo_command 2) (lit "bridge0") [192; 168; 1; 1] Automatic 8080 8443 demo_net) as [[d|] net'] eqn:Hd; [|vm_compute in Hd; discriminate].
  exists d, net'. split; [done|]. exact (front_door_not_stacked (demo_command 2) _ _ _ _ _ _ _ _ (demo_laws 2) Hd).
Defined.
