(* ===== verification/PacketExplorer.v ===== *)
(** * Browsing a recording ([daemon/src/packet_explorer.rs])

    The list of the packets of a recording and one packet in full, through the reader and the decoding the detectors
    use.  [Debug] texts, chrono's RFC 3339 text and Unicode's alphanumeric characters are arguments ([ExplorerText]). *)

From S2P Require Import Prelude RustStr Floats Deku Hdlc DiagLog Diag Gsmtap GsmtapMac GsmtapParser Qmdl.
From S2P Require Import InformationElement Analyzer Export.

Local Open Scope Z_scope.

Definition MAX_LIMIT : Z := 500.
Definition DEFAULT_LIMIT : Z := 100.
Definition MAX_HEX_BYTES : nat := 2048.
Definition MAX_DECODED_CHARS : Z := 200000.

Class ExplorerText {D : Decoders} := {
  to_rfc3339 : Z -> rstr;
  is_alphanumeric : rchar -> bool;
  debug_element : InformationElement -> rstr;
  debug_lte : LteInformationElement -> rstr;
  debug_nas : NASMessage -> rstr;
  debug_channel : UmSubtype -> rstr
}.

(** ** Queries *)

Record ListQuery := mkListQuery { q_offset : option Z; q_limit : option Z; q_around : option Z; q_context : option Z }.
(** [ListQuery::parse]; a [usize] has [w] bits on the unit. *)
Definition set_query (key : rstr) (number : Z) (out : ListQuery) : ListQuery :=
  if bool_decide (key = lit "offset") then mkListQuery (Some number) (q_limit out) (q_around out) (q_context out)
  else if bool_decide (key = lit "limit") then mkListQuery (q_offset out) (Some number) (q_around out) (q_context out)
  else if bool_decide (key = lit "around") then mkListQuery (q_offset out) (q_limit out) (Some number) (q_context out)
  else if bool_decide (key = lit "context") then mkListQuery (q_offset out) (q_limit out) (q_around out) (Some number)
  else out.
Definition parse_query (w : Z) (raw : option rstr) : ListQuery :=
  let out := mkListQuery None None None None in
  match raw with
  | None => out
  | Some raw =>
      fold_left (fun out pair =>
        match split_once [61] pair with
        | Some (key, value) => match parse_unsigned w value with Some number => set_query key number out | None => out end
        | None => out
        end) (split_on 38 raw) out
  end.

(** The first packet of the window and how many. *)
Definition window (query : ListQuery) : Z * Z :=
  let '(start, limit) :=
    match q_around query with
    | Some around =>
        let context := Z.min (default 10 (q_context query)) (MAX_LIMIT / 2) in
        (Z.max (Z.max 0 (around - context)) 1, context * 2 + 1)
    | None => (Z.max (default 1 (q_offset query)) 1, default DEFAULT_LIMIT (q_limit query))
    end in
  (start, Z.min (Z.max limit 1) MAX_LIMIT).

(** ** What a message is *)

Record Classified {D : Decoders} := mkClassified {
  c_timestamp : option rstr; c_framing_len : option Z; c_pci : option Z; c_earfcn : option Z; c_sfn : option Z; c_subfn : option Z;
  c_protocol : rstr; c_channel : option rstr; c_direction : option rstr; c_message_type : option rstr;
  c_payload : list Z; c_element : option InformationElement; c_error : option rstr }.

Arguments mkClassified {D}.

(** The name a [Debug] text starts with. *)
Definition variant_name {D : Decoders} {X : ExplorerText} (debug : rstr) : rstr :=
  (fix go s := match s with c :: s => if is_alphanumeric c || (c =? 95) then c :: go s else [] | [] => [] end) debug.
Definition non_empty (name : rstr) : option rstr := match name with [] => None | _ => Some name end.
Definition nested_name {D : Decoders} {X : ExplorerText} (debug : rstr) : option rstr :=
  '(_, inner) ← split_once (lit "(") debug; non_empty (variant_name inner).
(** [debug.split("C1(").nth(1)]. *)
Definition message_name {D : Decoders} {X : ExplorerText} (debug : rstr) : option rstr :=
  '(_, rest) ← split_once (lit "C1(") debug;
  let after := match split_once (lit "C1(") rest with Some (after, _) => after | None => rest end in
  non_empty (variant_name after).

(** [str::replace] by nothing. *)
Fixpoint remove_all (fuel : nat) (pat s : rstr) : rstr :=
  match fuel with
  | O => s
  | S fuel => match split_once pat s with Some (a, b) => a ++ remove_all fuel pat b | None => s end
  end.

Definition direction_of_channel (channel : rstr) : option rstr :=
  if starts_with channel (lit "Ul") then Some (lit "uplink")
  else if starts_with channel (lit "Dl") || starts_with channel (lit "Bcch") || starts_with channel (lit "Pcch")
       || bool_decide (channel = lit "PCCH") || bool_decide (channel = lit "MCCH") || starts_with channel (lit "ScMcch")
  then Some (lit "downlink")
  else None.

Definition phy_cell_id_of (packet : LteRrcOtaPacket) : Z :=
  match packet with
  | LteRrc_V0 _ _ _ phy_cell_id _ _ _ _ _ => phy_cell_id
  | LteRrc_V5 _ _ _ phy_cell_id _ _ _ _ _ _ => phy_cell_id
  | LteRrc_V8 _ _ _ phy_cell_id _ _ _ _ _ _ => phy_cell_id
  | LteRrc_V25 _ _ _ _ _ phy_cell_id _ _ _ _ _ _ => phy_cell_id
  end.
Definition framing_len_of (packet : LteRrcOtaPacket) : Z :=
  match packet with
  | LteRrc_V0 _ _ _ _ _ _ _ _ _ => 11
  | LteRrc_V5 _ _ _ _ _ _ _ _ _ _ => 13
  | LteRrc_V8 _ _ _ _ _ _ _ _ _ _ => 18
  | LteRrc_V25 _ _ _ _ _ _ _ _ _ _ _ _ => 20
  end.

(** ** The decoded text *)

(** As many whole characters as fit in [n] bytes. *)
Fixpoint take_chars (n : Z) (s : rstr) : rstr :=
  match s with
  | c :: s => let k := Z.of_nat (length (utf8_char c)) in if k <=? n then c :: take_chars (n - k) s else []
  | [] => []
  end.
Definition truncation_notice : rstr :=
  [10; 10] ++ lit "[truncated: the decoded message is larger than this view shows. Download the recording to see all of it.]".
Definition truncate_decoded (text : rstr) : rstr :=
  if str_len text <=? MAX_DECODED_CHARS then text else take_chars MAX_DECODED_CHARS text ++ truncation_notice.

(** What [prettify] has written, and where it is. *)
Record Pretty := mkPretty { p_out : rstr; p_depth : nat; p_in_string : bool; p_previous : rchar }.
Definition indent (depth : nat) : rstr := 10 :: concat (replicate depth [32; 32]).
Definition QUOTE : rchar := 34.
Definition BACKSLASH : rchar := 92.
Definition opens (c : rchar) : bool := (c =? 123) || (c =? 91) || (c =? 40).
Definition closes (c : rchar) : bool := (c =? 125) || (c =? 93) || (c =? 41).
Definition ends_blank (out : rstr) : bool := match last out with Some c => (c =? 10) || (c =? 32) | None => false end.

Definition prettify_step (p : Pretty) (c : rchar) : Pretty :=
  if p_in_string p then mkPretty (p_out p ++ [c]) (p_depth p) (negb ((c =? QUOTE) && negb (p_previous p =? BACKSLASH))) c
  else if c =? QUOTE then mkPretty (p_out p ++ [c]) (p_depth p) true c
  else if opens c then mkPretty (p_out p ++ [c] ++ indent (S (p_depth p))) (S (p_depth p)) false c
  else if closes c then mkPretty (p_out p ++ indent (pred (p_depth p)) ++ [c]) (pred (p_depth p)) false c
  else if c =? 44 then mkPretty (p_out p ++ [c] ++ indent (p_depth p)) (p_depth p) false c
  else if (c =? 32) && ends_blank (p_out p) then mkPretty (p_out p) (p_depth p) false c
  else mkPretty (p_out p ++ [c]) (p_depth p) false c.
Definition prettify (debug : rstr) : rstr := p_out (fold_left prettify_step debug (mkPretty [] 0 false 0)).

Section explorer.
Context {C : Crc16} {K : Deku} {R : DiagReader} {D : Decoders} {T : DebugText} {X : ExplorerText}.

Definition unknown (error : option rstr) : Classified :=
  mkClassified None None None None None None (lit "unknown") None None None [] None error.

(** [read_radio_context]. *)
Definition read_radio_context (message : Message) (out : Classified) : Classified :=
  match message with
  | Log _ _ _ _ timestamp body =>
      let ts := Some (to_rfc3339 (to_datetime timestamp)) in
      match body with
      | LteRrcOtaMessage _ packet =>
          mkClassified ts (Some (framing_len_of packet)) (Some (phy_cell_id_of packet)) (Some (LteRrc_get_earfcn packet))
            (Some (get_sfn packet)) (Some (get_subfn packet)) (c_protocol out) (c_channel out) (c_direction out) (c_message_type out)
            (c_payload out) (c_element out) (c_error out)
      | _ => mkClassified ts (c_framing_len out) (c_pci out) (c_earfcn out) (c_sfn out) (c_subfn out) (c_protocol out) (c_channel out)
               (c_direction out) (c_message_type out) (c_payload out) (c_element out) (c_error out)
      end
  | _ => out
  end.

Definition name_it (protocol : rstr) (channel direction message_type : option rstr) (out : Classified) : Classified :=
  mkClassified (c_timestamp out) (c_framing_len out) (c_pci out) (c_earfcn out) (c_sfn out) (c_subfn out) protocol channel direction message_type
    (c_payload out) (c_element out) (c_error out).

(** [describe]. *)
Definition describe (element : InformationElement) (out : Classified) : Classified :=
  match element with
  | IE_LTE (IE_NAS nas) =>
      let text := debug_nas nas in
      let name := variant_name text in
      name_it (lit "LTE NAS") (Some (remove_all (length name) (lit "Message") name)) (Some (default (lit "downlink") (c_direction out))) (nested_name text) out
  | IE_LTE other =>
      let text := debug_lte other in
      let channel := variant_name text in
      name_it (lit "LTE RRC") (Some channel) (direction_of_channel channel) (message_name text) out
  | IE_GSM gsm => name_it (lit "GSM") (Some (debug_channel (channel gsm))) (c_direction out) (c_message_type out) out
  | IE_UMTS => name_it (lit "UMTS") (c_channel out) (c_direction out) (c_message_type out) out
  | IE_FiveG => name_it (lit "5G") (c_channel out) (c_direction out) (c_message_type out) out
  end.

Definition set_error (error : rstr) (out : Classified) : Classified :=
  mkClassified (c_timestamp out) (c_framing_len out) (c_pci out) (c_earfcn out) (c_sfn out) (c_subfn out) (c_protocol out) (c_channel out)
    (c_direction out) (c_message_type out) (c_payload out) (c_element out) (Some error).
Definition set_payload (payload : list Z) (uplink : bool) (out : Classified) : Classified :=
  mkClassified (c_timestamp out) (c_framing_len out) (c_pci out) (c_earfcn out) (c_sfn out) (c_subfn out) (c_protocol out) (c_channel out)
    (if uplink then Some (lit "uplink") else c_direction out) (c_message_type out) payload (c_element out) (c_error out).
Definition set_element (element : InformationElement) (out : Classified) : Classified :=
  mkClassified (c_timestamp out) (c_framing_len out) (c_pci out) (c_earfcn out) (c_sfn out) (c_subfn out) (c_protocol out) (c_channel out)
    (c_direction out) (c_message_type out) (c_payload out) (Some element) (c_error out).

Definition NO_SIGNALLING : rstr := lit "not a signalling message".

Definition classify (message : result DiagParsingError Message) : Classified :=
  match message with
  | Err err => unknown (Some (debug_parsing_error err))
  | Ok message =>
      let out := read_radio_context message (unknown None) in
      match parse message with
      | Ok (Some (_, gsmtap)) =>
          let out := set_payload (payload gsmtap) (uplink (header gsmtap)) out in
          match ie_try_from gsmtap with
          | Ok element => set_element element (describe element out)
          | Err err => set_error (debug_ie_error err) out
          end
      | Ok None => set_error NO_SIGNALLING out
      | Err err => set_error (debug_parser_error err) out
      end
  end.

(** ** Rows and details *)

Record PacketSummary := mkPacketSummary {
  s_packet_num : Z; s_timestamp : option rstr; s_protocol : rstr; s_channel : option rstr; s_direction : option rstr;
  s_message_type : option rstr; s_payload_len : Z; s_parse_status : rstr; s_pci : option Z; s_earfcn : option Z; s_sfn : option Z; s_subfn : option Z }.

Definition summarize (packet_num : Z) (c : Classified) : PacketSummary :=
  let parse_status :=
    match c_error c with
    | None => lit "decoded"
    | Some e => if bool_decide (e = NO_SIGNALLING) then NO_SIGNALLING else lit "undecodable"
    end in
  mkPacketSummary packet_num (c_timestamp c) (c_protocol c) (c_channel c) (c_direction c) (c_message_type c)
    (Z.of_nat (length (c_payload c))) parse_status (c_pci c) (c_earfcn c) (c_sfn c) (c_subfn c).

Definition to_hex (bytes : list Z) : rstr := join (lit " ") (map fmt_02x bytes).

Record PacketDetail := mkPacketDetail {
  d_summary : PacketSummary; d_decoded : option rstr; d_decode_error : option rstr; d_raw_hex : option rstr;
  d_raw_truncated : bool; d_framing_len : option Z }.
Record PacketList := mkPacketList { packets : list PacketSummary; first_packet_num : Z; reached_end : bool }.

Definition detail (packet_num : Z) (c : Classified) : PacketDetail :=
  mkPacketDetail (summarize packet_num c) ((fun e => truncate_decoded (prettify (debug_element e))) <$> c_element c) (c_error c)
    (match c_payload c with [] => None | _ => Some (to_hex (take MAX_HEX_BYTES (c_payload c))) end)
    (MAX_HEX_BYTES <? length (c_payload c))%nat (c_framing_len c).

Context {B : Type} `{!BufRead B} (debug_error : ErrorKind -> rstr).
Definition Response (A : Type) : Type := result (Z * rstr) A.

(** The recording as it was found: its size, and the file when it could be opened. *)
Definition open_recording (name : rstr) (entry : option Z) (file : result rstr (option B)) : Response B :=
  match entry with
  | None => Err (404, lit "no recording named " ++ name)
  | Some size =>
      if size =? 0 then Err (503, lit "recording is empty, try again shortly")
      else match file with
           | Err e => Err (500, e)
           | Ok None => Err (404, lit "recording file missing")
           | Ok (Some reader) => Ok reader
           end
  end.

(** The loop of [list_packets]; [None] when the fuel is too small. *)
Fixpoint list_loop (fuel : nat) (start limit : Z) (reader : B) (packet_num : Z) (found : list PacketSummary) : option (Response (list PacketSummary * bool)) :=
  match fuel with
  | O => None
  | S fuel =>
      match get_next_message reader with
      | (Err e, _) => Some (Err (500, debug_error e))
      | (Ok None, _) => Some (Ok (found, true))
      | (Ok (Some message), reader) =>
          let packet_num := packet_num + 1 in
          if packet_num <? start then list_loop fuel start limit reader packet_num found
          else if limit <=? Z.of_nat (length found) then Some (Ok (found, false))
          else list_loop fuel start limit reader packet_num (found ++ [summarize packet_num (classify message)])
      end
  end.
Definition list_packets (fuel : nat) (w : Z) (raw : option rstr) (opened : Response B) : option (Response PacketList) :=
  let '(start, limit) := window (parse_query w raw) in
  match opened with
  | Err e => Some (Err e)
  | Ok reader =>
      r ← list_loop fuel start limit reader 0 [];
      Some (match r with Ok (found, fin) => Ok (mkPacketList found start fin) | Err e => Err e end)
  end.

Fixpoint get_loop (fuel : nat) (wanted : Z) (reader : B) (packet_num : Z) : option (Response PacketDetail) :=
  match fuel with
  | O => None
  | S fuel =>
      match get_next_message reader with
      | (Err e, _) => Some (Err (500, debug_error e))
      | (Ok None, _) => Some (Err (404, lit "recording has only " ++ dec packet_num ++ lit " packets"))
      | (Ok (Some message), reader) =>
          let packet_num := packet_num + 1 in
          if packet_num =? wanted then Some (Ok (detail packet_num (classify message)))
          else get_loop fuel wanted reader packet_num
      end
  end.
Definition get_packet (fuel : nat) (wanted : Z) (opened : Response B) : option (Response PacketDetail) :=
  if wanted =? 0 then Some (Err (400, lit "packet numbers start at 1"))
  else match opened with Err e => Some (Err e) | Ok reader => get_loop fuel wanted reader 0 end.

(** ** The numbers *)

(** Every message of a recording with its number, from [n + 1] on. *)
Fixpoint number_packets (n : Z) (items : list (result DiagParsingError Message)) : list PacketSummary :=
  match items with
  | [] => []
  | m :: items => summarize (n + 1) (classify m) :: number_packets (n + 1) items
  end.
Lemma lookup_number_packets items : forall n k, number_packets n items !! k = (fun m => summarize (n + 1 + Z.of_nat k) (classify m)) <$> items !! k.
Proof.
  induction items as [|m items IH]; intros n [|k]; cbn [number_packets]; try done; cbn.
  - do 2 f_equal. lia.
  - rewrite IH. destruct (items !! k); cbn; [|done]. do 2 f_equal. lia.
Qed.

Lemma list_loop_stream fuel start limit : forall reader n found items, 0 <= limit -> (length found <= Z.to_nat limit)%nat ->
  into_message_stream fuel reader = Some (items, Ok tt) ->
  let left := (Z.to_nat limit - length found)%nat in let skip := Z.to_nat (start - 1 - n) in
  list_loop fuel start limit reader n found =
  Some (Ok (found ++ take left (drop skip (number_packets n items)), (length items <=? skip + left)%nat)).
Proof.
  induction fuel as [|fuel IH]; intros reader n found items Hl Hf; [done|]. cbn [into_message_stream list_loop].
  destruct (get_next_message reader) as [[[m|]|e] reader']; [|intros [= <-]|done].
  - destruct (into_message_stream fuel reader') as [[items' e]|] eqn:Hr; cbn; [|done]. intros [= <- ->]. cbn [number_packets length].
    destruct (Z.ltb_spec (n + 1) start) as [Hlt|Hge].
    + rewrite (IH _ _ found items' Hl Hf Hr). cbn zeta.
      replace (Z.to_nat (start - 1 - n)) with (S (Z.to_nat (start - 1 - (n + 1)))) by lia. reflexivity.
    + replace (Z.to_nat (start - 1 - n)) with 0%nat by lia. cbn [drop].
      destruct (Z.leb_spec limit (Z.of_nat (length found))) as [Hfull|Hroom].
      * replace (Z.to_nat limit - length found)%nat with 0%nat by lia. cbn [take]. by rewrite app_nil_r.
      * rewrite (IH _ _ (found ++ [summarize (n + 1) (classify m)]) items' Hl); [|rewrite length_app; cbn; lia|exact Hr]. cbn zeta.
        replace (Z.to_nat (start - 1 - (n + 1))) with 0%nat by lia. rewrite length_app. cbn [length drop].
        replace (Z.to_nat limit - length found)%nat with (S (Z.to_nat limit - (length found + 1))) by lia. cbn [take].
        rewrite <- app_assoc. reflexivity.
  - cbn [number_packets]. rewrite drop_nil, take_nil, app_nil_r. reflexivity.
Qed.

Lemma get_loop_stream fuel wanted : forall reader n items, into_message_stream fuel reader = Some (items, Ok tt) -> n < wanted ->
  get_loop fuel wanted reader n = Some
    match items !! Z.to_nat (wanted - 1 - n) with
    | Some m => Ok (detail wanted (classify m))
    | None => Err (404, lit "recording has only " ++ dec (n + Z.of_nat (length items)) ++ lit " packets")
    end.
Proof.
  induction fuel as [|fuel IH]; intros reader n items; [done|]. cbn [into_message_stream get_loop].
  destruct (get_next_message reader) as [[[m|]|e] reader']; [|intros [= <-] Hn|done].
  - destruct (into_message_stream fuel reader') as [[items' e]|] eqn:Hr; cbn; [|done]. intros [= <- ->] Hn.
    destruct (Z.eqb_spec (n + 1) wanted) as [<-|Hne].
    + replace (Z.to_nat (n + 1 - 1 - n)) with 0%nat by lia. reflexivity.
    + rewrite (IH _ (n + 1) items' Hr) by lia. replace (Z.to_nat (wanted - 1 - n)) with (S (Z.to_nat (wanted - 1 - (n + 1)))) by lia.
      cbn [lookup list_lookup]. destruct (items' !! _); [done|].
      by replace (n + 1 + Z.of_nat (length items')) with (n + Z.of_nat (length (m :: items'))) by (cbn [length]; lia).
  - rewrite lookup_nil. cbn [length]. by rewrite Z.add_0_r.
Qed.
End explorer.

Lemma window_bounds query : 1 <= (window query).1 /\ 1 <= (window query).2 <= MAX_LIMIT.
Proof.
  unfold window. destruct (match q_around query with Some _ => _ | None => _ end) as [start limit] eqn:He. cbn [fst snd]. unfold MAX_LIMIT.
  split; [|lia]. destruct (q_around query); injection He as <- <-; lia.
Qed.
(** The window around a packet has the packet in it. *)
Lemma window_around query n : q_around query = Some n -> 1 <= n -> 0 <= default 10 (q_context query) ->
  let '(start, limit) := window query in start <= n < start + limit.
Proof. intros Ha Hn Hc. unfold window. rewrite Ha. revert Hc. generalize (default 10 (q_context query)). intros c Hc. change (MAX_LIMIT / 2) with 250. unfold MAX_LIMIT. cbv zeta. lia. Qed.

(** A listing is the window asked for out of all the messages of the recording, each under its number, at least one and at
    most 500 of them, and it says whether the recording ended in it. *)
Theorem listing_window {C : Crc16} {K : Deku} {R : DiagReader} {D : Decoders} {T : DebugText} {X : ExplorerText} {B} `{!BufRead B}
    debug_error fuel (reader : B) w raw : always_healthy (B := B) -> (length (contents reader) < fuel)%nat ->
  let '(start, limit) := window (parse_query w raw) in
  list_packets debug_error fuel w raw (Ok reader) = Some (Ok (mkPacketList
    (take (Z.to_nat limit) (drop (Z.to_nat (start - 1)) (number_packets 0 (recorded reader)))) start
    (length (recorded reader) <=? Z.to_nat (start - 1) + Z.to_nat limit)%nat)) /\
  1 <= start /\ 1 <= limit <= 500.
Proof.
  intros Hh Hf. pose proof (window_bounds (parse_query w raw)) as Hw. unfold list_packets. destruct (window (parse_query w raw)) as [start limit].
  cbn [fst snd] in Hw. split; [|exact Hw]. pose proof (into_message_stream_pieces fuel reader Hh Hf) as Hs. fold (recorded reader) in Hs.
  rewrite (list_loop_stream debug_error fuel start limit reader 0 [] _ ltac:(lia) ltac:(cbn; lia) Hs).
  cbn [mbind option_bind app length]. rewrite Nat.sub_0_r, Z.sub_0_r. reflexivity.
Qed.

(** ** The same message as the detectors saw *)

Section agreement.
Context {C : Crc16} {K : Deku} {R : DiagReader} {D : Decoders} {T : DebugText} {X : ExplorerText}.

(** Time and reason of a row are those of the packet. *)
Definition agrees (row : AnalysisRow) (c : Classified) : Prop :=
  c_timestamp c = to_rfc3339 <$> packet_timestamp row /\
  (forall reason, skipped_message_reason row = Some reason -> c_error c = Some reason) /\
  (c_error c = None -> skipped_message_reason row = None).

Lemma describe_keeps element out : c_timestamp (describe element out) = c_timestamp out /\ c_error (describe element out) = c_error out.
Proof. by destruct element as [| |[]|]. Qed.
Lemma context_timestamp message out : c_timestamp out = None ->
  c_timestamp (read_radio_context message out) = match message with Log _ _ _ _ t _ => Some (to_rfc3339 (to_datetime t)) | _ => None end.
Proof. intros Ho. destruct message; cbn; try done. by destruct body. Qed.
Lemma context_error message out : c_error (read_radio_context message out) = c_error out.
Proof. destruct message; cbn; try done. by destruct body. Qed.

Lemma row_agrees self m self' row : analyze_qmdl_message self m = Some (self', row) -> agrees row (classify m).
Proof.
  unfold analyze_qmdl_message, classify, agrees. destruct m as [message|err]; [|intros [= <- <-]; cbn; auto with congruence].
  set (out := read_radio_context message (unknown None)).
  assert (Ho : c_timestamp out = match message with Log _ _ _ _ t _ => Some (to_rfc3339 (to_datetime t)) | _ => None end) by by apply context_timestamp.
  assert (He : c_error out = None) by (subst out; by rewrite context_error).
  set (ts := match message with Log _ _ _ _ timestamp _ => Some (to_datetime timestamp) | _ => None end).
  assert (Hts : c_timestamp out = to_rfc3339 <$> ts) by (rewrite Ho; subst ts; by destruct message).
  assert (Hskip : forall reason es r, with_events {| row_packet_num := r; packet_timestamp := ts; skipped_message_reason := None; events := [] |} reason es = row ->
    packet_timestamp row = ts /\ skipped_message_reason row = reason) by (by intros ? ? ? <-).
  clearbody out ts. clear Ho. destruct (parse message) as [[[t gsmtap]|]|err].
  - destruct (ie_try_from gsmtap) as [element|err].
    + destruct (harness_analyze_ie _ _ _) as [[h es]|]; cbn; [|done]. intros [= _ Hrow]. apply Hskip in Hrow as [-> ->].
      destruct (describe_keeps element (set_payload (payload gsmtap) (uplink (header gsmtap)) out)) as [-> ->]. cbn. by rewrite Hts, He.
    + destruct (harness_report_skipped _ _) as [[h es]|]; cbn; [|done]. intros [= _ Hrow]. apply Hskip in Hrow as [-> ->].
      split; [done|]. split; [|done]. destruct (is_deliberately_unanalysed err); congruence.
  - destruct ts; [destruct (harness_report_skipped _ _) as [[h es]|]; cbn; [|done]|]; intros [= _ Hrow]; apply Hskip in Hrow as [-> ->]; by split.
  - destruct ts; [destruct (harness_report_skipped _ _) as [[h es]|]; cbn; [|done]|]; intros [= _ Hrow]; apply Hskip in Hrow as [-> ->]; (split; [done|]); (split; [intros reason Hreason; exact Hreason|done]).
Qed.

Lemma rows_agree items : forall self self' rows k row, analyze_all self items = Some (self', rows) -> rows !! k = Some row ->
  exists m, items !! k = Some m /\ agrees row (classify m) /\ row_packet_num row = Some (packet_num self + 1 + Z.of_nat k).
Proof.
  induction items as [|m items IH]; intros self self' rows k row; cbn [analyze_all]; [by intros [= <- <-]|].
  destruct (analyze_qmdl_message self m) as [[h r]|] eqn:Hm; cbn; [|done].
  destruct (analyze_all h items) as [[h' rs]|] eqn:Hall; cbn; [|done]. intros [= <- <-].
  destruct (analyze_qmdl_message_total self m) as (h0 & r0 & H0 & (Hn & Hr & _) & _). rewrite Hm in H0. injection H0 as <- <-.
  destruct k as [|k]; cbn [lookup list_lookup].
  - intros [= <-]. exists m. split; [done|]. split; [by eapply row_agrees|]. rewrite Hr, Hn. f_equal. lia.
  - intros Hk. destruct (IH _ _ _ _ _ Hall Hk) as (m' & Hm' & Ha & Hp). exists m'. split; [done|]. split; [done|]. rewrite Hp, Hn. f_equal. lia.
Qed.
End agreement.

(** The packet a warning names is the packet shown: when a recording is analysed by a new harness, the packet opened by the
    number of any row is the message of that row, under that number, with the row's time, and with its reason where it was
    skipped; and a packet shown without an error was not. *)
Theorem packet_of_warning {C : Crc16} {K : Deku} {R : DiagReader} {D : Decoders} {T : DebugText} {X : ExplorerText} {B} `{!BufRead B}
    debug_error fuel (reader : B) self self' rows k row :
  always_healthy (B := B) -> (length (contents reader) < fuel)%nat ->
  packet_num self = 0 -> analyze_all self (recorded reader) = Some (self', rows) -> rows !! k = Some row ->
  exists n shown, row_packet_num row = Some n /\ get_packet debug_error fuel n (Ok reader) = Some (Ok shown) /\
    s_packet_num (d_summary shown) = n /\
    s_timestamp (d_summary shown) = to_rfc3339 <$> packet_timestamp row /\
    (forall reason, skipped_message_reason row = Some reason -> d_decode_error shown = Some reason) /\
    (d_decode_error shown = None -> skipped_message_reason row = None).
Proof.
  intros Hh Hf Hself Hall Hk. destruct (rows_agree _ _ _ _ _ _ Hall Hk) as (m & Hm & (Ht & Hr & Hn) & Hnum). rewrite Hself in Hnum.
  exists (0 + 1 + Z.of_nat k), (detail (0 + 1 + Z.of_nat k) (classify m)). split; [done|]. split; [|by repeat split].
  unfold get_packet. rewrite (proj2 (Z.eqb_neq (0 + 1 + Z.of_nat k) 0)) by lia.
  pose proof (into_message_stream_pieces fuel reader Hh Hf) as Hs. fold (recorded reader) in Hs.
  rewrite (get_loop_stream debug_error fuel _ reader 0 _ Hs) by lia. replace (Z.to_nat (0 + 1 + Z.of_nat k - 1 - 0)) with k by lia. by rewrite Hm.
Qed.

(** ** The text *)

(** Line breaks and indentation are all that is added, and blanks all that is left out. *)
Definition blank_char (c : rchar) : bool := (c =? 10) || (c =? 32).
Lemma indent_blank d : filter (fun c => blank_char c = false) (indent d) = [].
Proof. unfold indent. rewrite filter_cons_False by done. induction d as [|d IH]; [done|]. cbn [replicate concat app]. by rewrite !filter_cons_False. Qed.

Lemma prettify_keeps debug : filter (fun c => blank_char c = false) (prettify debug) = filter (fun c => blank_char c = false) debug.
Proof.
  unfold prettify. assert (Hg : forall p, filter (fun c => blank_char c = false) (p_out (fold_left prettify_step debug p)) =
    filter (fun c => blank_char c = false) (p_out p) ++ filter (fun c => blank_char c = false) debug); [|by rewrite Hg].
  induction debug as [|c debug IH]; intros p; cbn [fold_left]; [by rewrite app_nil_r|]. rewrite IH. change (c :: debug) with ([c] ++ debug).
  rewrite (filter_app _ [c] debug), app_assoc. f_equal. unfold prettify_step.
  repeat match goal with |- context [if ?b then _ else _] => destruct b eqn:?; cbn [p_out] end;
    rewrite ?filter_app, ?indent_blank, ?app_nil_r, ?app_nil_l; try done.
  match goal with H : (c =? 32) && _ = true |- _ => apply andb_true_iff in H as [Hc _] end. apply Z.eqb_eq in Hc as ->. rewrite filter_cons_False by done. by rewrite filter_nil, app_nil_r.
Qed.

Lemma take_chars_spec s : forall n, 0 <= n -> take_chars n s `prefix_of` s /\ str_len (take_chars n s) <= n.
Proof.
  induction s as [|c s IH]; intros n Hn; cbn [take_chars]; [split; [done|]; done|].
  destruct (Z.leb_spec (Z.of_nat (length (utf8_char c))) n) as [Hk|Hk]; [|split; [apply prefix_nil|]; done].
  destruct (IH (n - Z.of_nat (length (utf8_char c))) ltac:(lia)) as [H1 H2]. split; [by apply prefix_cons|].
  unfold str_len, as_bytes in *. cbn [flat_map]. rewrite length_app. lia.
Qed.

(** However large a packet decodes, a bounded text is sent. *)
Lemma truncate_bounded text : str_len (truncate_decoded text) <= MAX_DECODED_CHARS + str_len truncation_notice.
Proof.
  unfold truncate_decoded. destruct (Z.leb_spec (str_len text) MAX_DECODED_CHARS) as [Hle|Hgt].
  - assert (0 <= str_len truncation_notice) by (unfold str_len; lia). lia.
  - destruct (take_chars_spec text MAX_DECODED_CHARS) as [_ Hl]; [by vm_compute|]. unfold str_len, as_bytes in *. rewrite flat_map_app, length_app. lia.
Qed.

(** A quotation that ends in a backslash is not seen to end: what follows is not indented. *)
Lemma escaped_backslash_unseen : p_in_string (fold_left prettify_step [QUOTE; BACKSLASH; BACKSLASH; QUOTE; 44; 40] (mkPretty [] 0 false 0)) = true.
Proof. reflexivity. Qed.

(** ** The theorems at concrete inputs *)

Definition sample_text {D : Decoders} : ExplorerText := {|
  to_rfc3339 := dec; is_alphanumeric := is_ascii_alphanumeric; debug_element := fun _ => lit "LTE(NAS(EMMMessage))";
  debug_lte := fun _ => lit "UlDcch(X { message: C1(ulInformationTransfer(..)) })"; debug_nas := fun _ => lit "EMMMessage(EMMAttachRequest(..))"; debug_channel := fun _ => [] |}.
Section samples.
Let D : Decoders := sample_decoders (fun _ => Ok NAS_Other) (fun _ => Err tt).
#[local] Existing Instance D.
#[local] Existing Instance crc_ccitt.
#[local] Existing Instance deku_fits.
#[local] Existing Instance sample_reader.
#[local] Existing Instance plain_debug.
#[local] Existing Instance sample_text.

(** A NAS message, a record of a version that is not known, and another NAS message. *)
Definition sample_bytes : list Z := sample_recording [[7; 0x56; 8]; [99]; [7; 0x56; 9]].

Lemma packet_of_warning_witness : exists self' rows row, analyze_all Harness_new (recorded sample_bytes) = Some (self', rows) /\ rows !! 1%nat = Some row /\
  exists n shown, row_packet_num row = Some n /\ get_packet (fun _ => []) 100 n (Ok sample_bytes) = Some (Ok shown) /\ n = 2 /\
    d_decode_error shown = Some [] /\ s_parse_status (d_summary shown) = lit "undecodable".
Proof.
  destruct (analyze_all_total Harness_new (recorded sample_bytes)) as (self' & rows & Hall & _).
  assert (Hrow : exists row, rows !! 1%nat = Some row) by (vm_compute in Hall; injection Hall as <- <-; eexists; reflexivity).
  destruct Hrow as [row Hrow]. exists self', rows, row. split; [done|]. split; [done|].
  destruct (packet_of_warning (fun _ => []) 100 sample_bytes Harness_new self' rows 1 row) as (n & shown & Hn & Hget & Hnum & _ & Hreason & _).
  - exact list_reader_healthy.
  - apply Nat.ltb_lt. vm_compute. reflexivity.
  - reflexivity.
  - exact Hall.
  - exact Hrow.
  - exists n, shown. split; [exact Hn|]. split; [exact Hget|].
    vm_compute in Hall. injection Hall as <- <-. injection Hrow as <-. injection Hn as <-. split; [reflexivity|].
    split; [by apply Hreason|]. vm_compute in Hget. injection Hget as <-. reflexivity.
Defined.

Lemma listing_window_witness : exists found, list_packets (fun _ => []) 100 32 (Some (lit "around=3&context=1")) (Ok sample_bytes) = Some (Ok found) /\
  length (packets found) = 2%nat /\ first_packet_num found = 2 /\ reached_end found = true.
Proof.
  pose proof (listing_window (fun _ => []) 100 sample_bytes 32 (Some (lit "around=3&context=1")) list_reader_healthy) as H.
  destruct H as [H _]; [apply Nat.ltb_lt; vm_compute; reflexivity|]. eexists. split; [exact H|]. split_and!; vm_compute; reflexivity.
Defined.
End samples.
