(* ===== verification/Hardware.v ===== *)
(** * What hardware this is, and ADB ([daemon/src/hardware.rs], [adb_control.rs], [single_instance.rs])

    The facts read for the recording's sidecar out of the texts of files, command lines and replies; switching ADB
    on or off at the next start; one daemon per device.  Files are read through functions on their contents,
    Unicode's upper case is an argument, JSON and the requests to the TP-Link's web interface are given by their results. *)

From S2P Require Import Prelude RustStr Mdns Sidecar Qr Frontdoor.

Local Open Scope Z_scope.

Definition rsplit_once_char (c : rchar) (s : rstr) : option (rstr * rstr) :=
  match split_once [c] (rev s) with Some (a, b) => Some (rev b, rev a) | None => None end.

(** ** Reading texts *)

(** [format!("{device:?}").to_lowercase()]. *)
Definition device_name (d : Device) : rstr :=
  match d with
  | Orbic => lit "orbic" | Tplink => lit "tplink" | Tmobile => lit "tmobile" | Wingtech => lit "wingtech"
  | Pinephone => lit "pinephone" | Uz801 => lit "uz801" | Moxee => lit "moxee"
  end.

Definition some_text (s : rstr) : option rstr := match s with [] => None | _ => Some s end.
Definition read_trimmed (contents : option (list Z)) : option rstr :=
  bytes ← contents; some_text (trim_by (fun c => (c =? 0) || is_whitespace c) (from_utf8_lossy bytes)).

Definition pick_soc (machine cpuinfo : option rstr) : option rstr :=
  match machine with
  | Some machine => if existsb is_ascii_digit machine then Some machine else match cpuinfo with Some c => Some c | None => Some machine end
  | None => cpuinfo
  end.

Fixpoint find_map {A B : Type} (f : A -> option B) (l : list A) : option B :=
  match l with [] => None | x :: l => match f x with Some y => Some y | None => find_map f l end end.

Definition cpuinfo_hardware (cpuinfo : rstr) : option rstr :=
  find_map (fun line =>
    '(key, value) ← split_once (lit ":") line;
    if bool_decide (trim key = lit "Hardware") then Some (trim value) else None) (lines cpuinfo).

(** ** The TP-Link *)

Definition is_loopback_v4 (ip : Ipv4Addr) : bool := match ip with a :: _ => a =? 127 | [] => false end.
Definition is_private (ip : Ipv4Addr) : bool :=
  match ip with
  | a :: b :: _ => (a =? 10) || ((a =? 172) && (16 <=? b) && (b <=? 31)) || ((a =? 192) && (b =? 168))
  | _ => false
  end.
(** An interface on the carrier's side. *)
Definition carrier (name : rstr) : bool := existsb (fun prefix => starts_with name (lit prefix)) ["rmnet"; "wwan"; "ppp"; "qmi"]%string.

(** The addresses are those of version 4 ([inl]); the others are skipped. *)
Definition status_call_addresses (own : list (rstr * (Ipv4Addr + unit))) : list rstr :=
  fold_left (fun list_ '(name, ip) =>
    match ip with
    | inl v4 =>
        if negb (carrier name) && negb (is_loopback_v4 v4) && is_private v4 then
          let text := show_ipv4 v4 in
          if bool_decide (text ∈ list_) then list_ else list_ ++ [text]
        else list_
    | inr tt => list_
    end) own [lit "127.0.0.1"].

Definition split_tplink_hardware_ver (text : rstr) : option rstr * option rstr :=
  let text := trim text in
  let '(model_part, version) :=
    match rsplit_once_char 32 text with
    | Some (model, version) => if starts_with version (lit "v") || starts_with version (lit "V") then (model, Some version) else (text, None)
    | None => (text, None)
    end in
  (some_text (trim (default [] (head (split_on 40 model_part)))), version).

(** The reply's [deviceInfo.hardwareVer], as JSON gave it. *)
Definition tplink_status_hardware_ver (value : option rstr) : option rstr := text ← value; some_text (trim text).
(** The first address that answers with one. *)
Definition tplink_web_identity (own : list (rstr * (Ipv4Addr + unit))) (status_call : rstr -> option rstr) : option (option rstr * option rstr) :=
  find_map (fun address => hardware ← tplink_status_hardware_ver (status_call address); Some (split_tplink_hardware_ver hardware))
    (status_call_addresses own).

Definition upnpd_identity (args : list rstr) : option (option rstr * option rstr) :=
  program ← head args;
  if bool_decide (List.last (split_on 47 program) [] = lit "upnpd") then
    let value_after flag :=
      i ← (fix position i l := match l with [] => None | a :: l => if bool_decide (a = flag) then Some i else position (S i) l end) 0%nat args;
      value ← args !! S i;
      if starts_with value (lit "-") then None else Some value in
    Some (value_after (lit "-mn"), value_after (lit "-mv"))
  else None.
(** The processes as [/proc] lists them: the name of an entry and its command line, when it can be read. *)
Definition tplink_upnpd_identity (entries : list (rstr * option (list Z))) : option (option rstr * option rstr) :=
  find_map (fun '(name, cmdline) =>
    if forallb is_ascii_digit name then
      bytes ← cmdline;
      upnpd_identity (map from_utf8_lossy (filter (fun part => part <> []) (split_on 0 bytes)))
    else None) entries.

(** ** The Wingtech *)

Section wingtech.
Context (to_uppercase : rstr -> rstr).

Definition wingtech_line (line : rstr) (found : option rstr * option rstr) : option rstr * option rstr :=
  match split_once (lit "=") line with
  | None => found
  | Some (key, value) =>
      let key := to_uppercase (trim key) in
      let value := trim_matches 34 (trim value) in
      match value with
      | [] => found
      | _ =>
          let '(hardware, software) := found in
          let has w := contains key (lit w) in
          if bool_decide (hardware = None) && (has "HW"%string || has "HARDWARE"%string) then (Some value, software)
          else if bool_decide (software = None) && (has "SW"%string || has "SOFTWARE"%string || has "INNER"%string) then (hardware, Some value)
          else found
      end
  end.
Definition wingtech_versions (contents : rstr) : option rstr * option rstr :=
  fold_left (fun found line => wingtech_line line found) (lines contents) (None, None).

(** ** All of it *)

(** The system as far as it is looked at. *)
Record System := mkSystem {
  file : rstr -> option (list Z);
  file_text : rstr -> option rstr;
  proc_entries : list (rstr * option (list Z));
  own_interfaces : list (rstr * (Ipv4Addr + unit));
  web_status : rstr -> option rstr }.

Definition or_else {A : Type} (a b : option A) : option A := match a with Some _ => a | None => b end.

Definition detect (device : Device) (s : System) : HardwareInfo :=
  let model := read_trimmed (file s (lit "/proc/device-tree/model")) in
  let soc := pick_soc (read_trimmed (file s (lit "/sys/devices/soc0/machine"))) (file_text s (lit "/proc/cpuinfo") ≫= cpuinfo_hardware) in
  let '(model, hardware, firmware) :=
    match device with
    | Tplink =>
        let '(model, hardware) :=
          match tplink_upnpd_identity (proc_entries s) with
          | Some (m, version) => (or_else m model, version)
          | None => (model, None)
          end in
        let '(model, hardware) :=
          match hardware with
          | Some _ => (model, hardware)
          | None => match tplink_web_identity (own_interfaces s) (web_status s) with
                    | Some (m, version) => (or_else m model, version)
                    | None => (model, None)
                    end
          end in
        (model, hardware, None)
    | Wingtech =>
        match read_trimmed (file s (lit "/etc/wt_version")) with
        | Some contents => let '(hardware, software) := wingtech_versions contents in (model, hardware, software)
        | None => (model, None, None)
        end
    | _ => (model, None, None)
    end in
  mkHardware (device_name device) model hardware soc (or_else firmware (read_trimmed (file s (lit "/etc/version")))).
End wingtech.

Definition incomplete (info : HardwareInfo) (device : Device) : bool :=
  match device with Tplink => bool_decide (hardware_version info = None) | _ => false end.

(** ** ADB *)

Definition MODE_WITH_ADB : rstr := lit "9".
Definition MODE_WITHOUT_ADB : rstr := lit "3".
Inductive AdbState := AdbEnabled | AdbDisabled | NotAdjustable.
#[export] Instance AdbState_eq_dec : EqDecision AdbState.
Proof. solve_decision. Defined.

Definition interpret (contents : option rstr) : AdbState :=
  match trim <$> contents with
  | Some s => if bool_decide (s = MODE_WITH_ADB) then AdbEnabled else if bool_decide (s = MODE_WITHOUT_ADB) then AdbDisabled else NotAdjustable
  | None => NotAdjustable
  end.
Definition value_for (current : AdbState) (enabled : bool) : option rstr :=
  match current with NotAdjustable => None | _ => Some (if enabled then MODE_WITH_ADB else MODE_WITHOUT_ADB) end.

(** The file as it can be read, and whether a write would succeed; what is left behind is the new content. *)
Inductive AdbError := Unknown_Value | Write_Failed.
Definition adb_apply (enabled : bool) (mode_file : option rstr) (writable : bool) : result AdbError bool * option rstr :=
  let current := interpret mode_file in
  match value_for current enabled with
  | None => (Err Unknown_Value, mode_file)
  | Some wanted =>
      let already := match current with AdbEnabled => enabled | AdbDisabled => negb enabled | NotAdjustable => false end in
      if already then (Ok false, mode_file)
      else if writable then (Ok true, Some (wanted ++ [10])) else (Err Write_Failed, mode_file)
  end.

(** ** One daemon *)

(** The lock file: its text, and whether somebody holds the lock. *)
Record LockFile := mkLockFile { lock_text : option rstr; lock_held : bool }.
Inductive LockError := Cannot_Open | Running (holder : option rstr).
(** [acquire] by process [pid]; the lock is released with the process ([release]). *)
Definition acquire (openable : bool) (pid : Z) (l : LockFile) : result LockError unit * LockFile :=
  if negb openable then (Err Cannot_Open, l)
  else if lock_held l then (Err (Running (some_text (trim (default [] (lock_text l))))), mkLockFile (Some (default [] (lock_text l))) true)
  else (Ok tt, mkLockFile (Some (dec pid ++ [10])) true).
Definition release (l : LockFile) : LockFile := mkLockFile (lock_text l) false.

(** ** Theorems *)

(** ADB is only ever changed on a device whose value is known, to the other known value, and the change is what was asked for. *)
Theorem adb_apply_spec enabled mode_file writable :
  let '(res, mode_file') := adb_apply enabled mode_file writable in
  match res with
  | Ok _ => interpret mode_file' = if enabled then AdbEnabled else AdbDisabled
  | Err _ => mode_file' = mode_file
  end /\ (interpret mode_file = NotAdjustable -> res = Err Unknown_Value) /\ (mode_file' <> mode_file -> res = Ok true).
Proof.
  unfold adb_apply. destruct (interpret mode_file) eqn:Hi, enabled; cbn [value_for negb]; try (by split_and!);
    destruct writable; split_and!; try done; vm_compute; reflexivity.
Qed.

Lemma digit_visible c : is_ascii_digit c = true -> is_whitespace c = false.
Proof. unfold is_ascii_digit, is_whitespace, in_range. rewrite andb_true_iff, !Z.leb_le. intros Hc. repeat (apply orb_false_iff; split); lia. Qed.

Lemma trim_line d : d <> [] -> Forall (fun c => is_whitespace c = false) d -> trim (d ++ [10]) = d.
Proof.
  intros Hne Hd. unfold trim, trim_by. rewrite (trim_start_by_id _ (d ++ [10])).
  - unfold trim_end_by. rewrite rev_app_distr. change (rev [10] ++ rev d) with (10 :: rev d). cbn [trim_start_by]. change (is_whitespace 10) with true. cbv iota.
    rewrite trim_start_by_id; [apply rev_involutive|]. intros c t Ht. rewrite Forall_forall in Hd. apply Hd. apply list_elem_of_In, in_rev. rewrite Ht. by left.
  - intros c t Ht. destruct d as [|x d]; [done|]. injection Ht as -> _. by apply Forall_cons in Hd as [? _].
Qed.

(** Once one daemon has the lock no other gets it until that one is gone, and is told by whom. *)
Lemma one_daemon openable pid openable' pid' l l' : 0 <= pid -> acquire openable pid l = (Ok tt, l') ->
  (acquire openable' pid' l').1 = Err Cannot_Open \/ (acquire openable' pid' l').1 = Err (Running (Some (dec pid))).
Proof.
  intros Hpid. unfold acquire at 1. destruct openable; [|done]. cbn [negb]. destruct (lock_held l); [done|]. intros [= <-].
  unfold acquire. destruct openable'; cbn [negb lock_held lock_text fst default]; [right|by left]. cbn [id].
  destruct (dec_spec pid Hpid) as (Hne & Hd & _). rewrite trim_line; [|done|].
  - by destruct (dec pid).
  - eapply Forall_impl; [exact Hd|]. intros c. apply digit_visible.
Qed.

(** The vendor's status call is tried on the loopback first, then on private addresses of the unit's own side, each once. *)
Lemma status_call_addresses_spec own :
  NoDup (status_call_addresses own) /\ head (status_call_addresses own) = Some (lit "127.0.0.1") /\
  forall a, a ∈ status_call_addresses own <-> a = lit "127.0.0.1" \/
    exists name v4, (name, inl v4) ∈ own /\ a = show_ipv4 v4 /\ carrier name = false /\ is_loopback_v4 v4 = false /\ is_private v4 = true.
Proof.
  unfold status_call_addresses. set (step := fun list_ '(name, ip) => _).
  assert (Hg : forall own l, NoDup l -> l <> [] -> NoDup (fold_left step own l) /\ head (fold_left step own l) = head l /\
    forall a, a ∈ fold_left step own l <-> a ∈ l \/ exists name v4, (name, inl v4) ∈ own /\ a = show_ipv4 v4 /\ carrier name = false /\ is_loopback_v4 v4 = false /\ is_private v4 = true).
  { clear own. induction own as [|[name ip] own IH]; intros l Hl Hne; cbn [fold_left].
    - split; [done|]. split; [done|]. intros a. split; [by left|]. intros [?|(? & ? & Hin & _)]; [done|by apply not_elem_of_nil in Hin].
    - assert (Hstep : NoDup (step l (name, ip)) /\ head (step l (name, ip)) = head l /\ step l (name, ip) <> [] /\
        forall a, a ∈ step l (name, ip) <-> a ∈ l \/ exists v4, ip = inl v4 /\ a = show_ipv4 v4 /\ carrier name = false /\ is_loopback_v4 v4 = false /\ is_private v4 = true).
      { subst step. cbn beta iota. destruct ip as [v4|[]]; [|split_and!; try done; intros a; split; [by left|]; intros [?|(? & ? & _)]; done].
        destruct (carrier name) eqn:Hc, (is_loopback_v4 v4) eqn:Hl4, (is_private v4) eqn:Hp; cbn [negb andb];
          try (split_and!; try done; intros a; split; [by left|]; intros [?|(v & [= <-] & _ & ? & ? & ?)]; congruence).
        case_bool_decide as Hin.
        - split_and!; try done. intros a. split; [by left|]. intros [?|(v & [= <-] & -> & _)]; done.
        - split_and!.
          + apply NoDup_app. split; [done|]. split; [|apply NoDup_singleton]. intros x Hx ->%list_elem_of_singleton. done.
          + by destruct l.
          + by destruct l.
          + intros a. rewrite elem_of_app, list_elem_of_singleton. split; [intros [?| ->]; [by left|right; by exists v4]|intros [?|(v & [= <-] & -> & _)]; auto]. }
      destruct Hstep as (H1 & H2 & H3 & H4). destruct (IH _ H1 H3) as (I1 & I2 & I3). split; [done|]. split; [congruence|]. intros a. rewrite I3, H4. split.
      + intros [[?|(v & -> & Hr)]|(n & v & Hin & Hr)]; [by left|right; exists name, v; split; [left|done]|right; exists n, v; split; [by right|done]].
      + intros [?|(n & v & [[= -> <-]|Hin]%elem_of_cons & Hr)]; [by left; left|left; right; by exists v|right; by exists n, v]. }
  destruct (Hg own [lit "127.0.0.1"]) as (H1 & H2 & H3); [apply NoDup_singleton|done|]. split; [exact H1|]. split; [exact H2|].
  intros a. by rewrite H3, list_elem_of_singleton.
Qed.
