(* ===== verification/Stats.v ===== *)
(** * The state of the unit on the page ([daemon/src/stats.rs])

    Load, temperatures, memory and storage out of the kernel's texts, how busy the processor is between two requests, and
    the list of recordings.  A reading is in binary32 or binary64 as the code computes it; [statvfs] and the
    files are given. *)

From S2P Require Import Prelude RustStr Floats Hardware.
From Stdlib Require Import Floats.SpecFloat.

Local Open Scope Z_scope.

(** ** The processor *)

Record CpuSample := mkCpuSample { cpu_total : Z; cpu_idle : Z; cpu_process : Z }.

(** The last pair of brackets and a blank: [rsplit_once] by two characters. *)
Fixpoint after_last_bracket (s : rstr) : option rstr :=
  match s with
  | 41 :: ((32 :: rest) as s') => match after_last_bracket s' with Some r => Some r | None => Some rest end
  | _ :: s => after_last_bracket s
  | [] => None
  end.
Definition process_ticks (self_stat : option rstr) : Z :=
  default 0 (s ← self_stat;
             rest ← after_last_bracket s;
             let f := split_whitespace rest in
             utime ← f !! 11%nat ≫= parse_unsigned 64;
             stime ← f !! 12%nat ≫= parse_unsigned 64;
             Some (wrapu 64 (utime + stime))).
Definition read_cpu_sample (stat self_stat : option rstr) : option CpuSample :=
  stat ← stat;
  line ← List.find (fun l => starts_with l (lit "cpu ")) (lines stat);
  let fields := omap (parse_unsigned 64) (drop 1 (split_whitespace line)) in
  if (length fields <? 5)%nat then None
  else idle ← fields !! 3%nat;
       Some (mkCpuSample (fold_left (fun a f => wrapu 64 (a + f)) fields 0) idle (process_ticks self_stat)).

Definition sat_sub (a b : Z) : Z := Z.max 0 (a - b).
Definition percent (part whole : Z) : f32 := f32_clamp (f32_mul (f32_div (f32_of_Z part) (f32_of_Z whole)) (f32_of_Z 100)) (f32_of_Z 0) (f32_of_Z 100).
(** [measure_cpu]: the two shares, and the sample that is kept. *)
Definition measure_cpu (now : option CpuSample) (last : option CpuSample) : (option f32 * option f32) * option CpuSample :=
  match now with
  | None => ((None, None), last)
  | Some now =>
      (match last with
       | None => (None, None)
       | Some previous =>
           let elapsed := sat_sub (cpu_total now) (cpu_total previous) in
           if elapsed =? 0 then (None, None)
           else let idle := sat_sub (cpu_idle now) (cpu_idle previous) in
                (Some (percent (sat_sub elapsed idle) elapsed), Some (percent (sat_sub (cpu_process now) (cpu_process previous)) elapsed))
       end, Some now)
  end.

(** ** Temperatures *)

Inductive Sensor := Processor | Radio.
Definition TSENS_UNPOPULATED_C : f32 := f32_of_Z 125.
Definition NOT_PROCESSOR : list rstr := [lit "battery"; lit "bms"; lit "chg"].

Definition classify_thermal_zone (name : rstr) (raw : f32) : option (Sensor * f32) :=
  let celsius := if SFltb (f32_of_Z 200) (SFabs raw) then f32_div raw (f32_of_Z 1000) else raw in
  if negb (SFleb (f32_of_Z (-40)) celsius && SFleb celsius (f32_of_Z 150)) then None
  else if contains name (lit "pa_therm") then if SFeqb celsius TSENS_UNPOPULATED_C then None else Some (Radio, celsius)
  else if existsb (fun n => contains name n) NOT_PROCESSOR then None
  else Some (Processor, celsius).

(** [f32::max] of numbers. *)
Definition f32_max (a b : f32) : f32 := if SFltb a b then b else a.
Definition warmest (slot : option f32) (celsius : f32) : option f32 := Some (match slot with Some c => f32_max c celsius | None => celsius end).

(** A zone is the text of its [temp] and of its [type]. *)
Definition add_zone (temps : option f32 * option f32) (zone : option rstr * option rstr) : option f32 * option f32 :=
  match raw ← zone.1; value ← parse_f32 (trim raw); classify_thermal_zone (trim (default [] zone.2)) value with
  | Some (Radio, celsius) => (temps.1, warmest temps.2 celsius)
  | Some (Processor, celsius) => (warmest temps.1 celsius, temps.2)
  | None => temps
  end.
Definition read_temperatures (zones : option (list (option rstr * option rstr))) : option f32 * option f32 :=
  match zones with Some zones => fold_left add_zone zones (None, None) | None => (None, None) end.

(** ** Health *)

Record HealthStats := mkHealthStats {
  uptime_secs : Z; load_avg : f32 * f32 * f32; cpu_count : Z; cpu_temp_c : option f32; radio_temp_c : option f32;
  cpu_busy_percent : option f32; rayhunter_cpu_percent : option f32 }.

(** [HealthStats::read]; the sample is taken only when the texts before it could be read. *)
Definition read_health (uptime loadavg cpuinfo : option rstr) (zones : option (list (option rstr * option rstr))) (now last : option CpuSample)
    : option HealthStats * option CpuSample :=
  match (text ← uptime; word ← head (split_whitespace text); parse_f64 word),
        (text ← loadavg; match split_whitespace text with
                         | a :: b :: c :: _ => x ← parse_f32 a; y ← parse_f32 b; z ← parse_f32 c; Some (x, y, z)
                         | _ => None
                         end) with
  | Some up, Some loads =>
      let '(cpu, radio) := read_temperatures zones in
      let '((busy, mine), last) := measure_cpu now last in
      let count := match cpuinfo with
                   | Some s => length (List.filter (fun l => starts_with l (lit "processor")) (lines s))
                   | None => 0%nat
                   end in
      (Some (mkHealthStats (sf_as_int 0 (2 ^ 64 - 1) up) loads (Z.max 1 (Z.of_nat count)) cpu radio busy mine), last)
  | _, _ => (None, last)
  end.

(** ** Storage and memory *)

Definition humanize_kb (kb : Z) : rstr :=
  if kb <? 1000 then dec kb ++ lit "K" else fmt_fixed1 (f64_div (f64_of_Z kb) (f64_of_Z 1024)) ++ lit "M".

(** The figures of [statvfs]. *)
Record StatVfs := mkStatVfs { f_frsize : Z; f_blocks : Z; f_bfree : Z; f_bavail : Z }.
Record DiskStats := mkDiskStats {
  partition : rstr; total_size : rstr; used_size : rstr; available_size : rstr; used_percent : rstr; mounted_on : rstr;
  available_bytes : Z; total_bytes : Z }.

(** [DiskStats::new]; a [usize] has [w] bits, a count of blocks 64. *)
Definition disk_stats (w : Z) (qmdl_path : rstr) (stat : StatVfs) : DiskStats :=
  let bytes blocks := wrapu 64 (blocks * f_frsize stat) in
  let kb blocks := wrapu w (bytes blocks / 1024) in
  let used_kb := sat_sub (kb (f_blocks stat)) (kb (f_bfree stat)) in
  let percent := if f_blocks stat =? 0 then 0 else wrapu 64 (wrapu 64 (f_blocks stat - f_bfree stat) * 100) / f_blocks stat in
  mkDiskStats qmdl_path (humanize_kb (kb (f_blocks stat))) (humanize_kb used_kb) (humanize_kb (kb (f_bavail stat)))
    (dec percent ++ lit "%") qmdl_path (bytes (f_bavail stat)) (bytes (f_blocks stat)).

(** The first three numbers that [free] wrote. *)
Definition memory_stats (w : Z) (stdout : rstr) : option (rstr * rstr * rstr) :=
  match omap (parse_unsigned w) (split_whitespace stdout) with
  | total :: used :: free :: _ => Some (humanize_kb total, humanize_kb used, humanize_kb free)
  | _ => None
  end.

(** ** The recordings *)

(** [get_qmdl_manifest]: the current recording is taken out of the list; [None] when the index is not one of it. *)
Definition qmdl_manifest {A : Type} (entries : list A) (current : option nat) : option (list A * option A) :=
  match current with
  | None => Some (entries, None)
  | Some i => e ← entries !! i; Some (take i entries ++ drop (S i) entries, Some e)
  end.

(** ** Theorems *)

Lemma f32_hundred : f32_of_Z 100 = S754_finite false 13107200 (-17).
Proof. reflexivity. Qed.
Definition between (lo : f32) (hi x : f32) : Prop := SFleb lo x = true /\ SFleb x hi = true.


(** A share of the processor is never less than nothing nor more than all of it. *)
Lemma percent_bounds part whole : 0 <= part -> (exists m e, f32_of_Z whole = S754_finite false m e) -> between (f32_of_Z 0) (f32_of_Z 100) (percent part whole).
Proof.
  intros Hp (m & e & Hw). unfold percent, between.
  assert (Hx : nonneg (f32_div (f32_of_Z part) (f32_of_Z whole))) by (eapply div_nonneg; [by apply normalize_nonneg|exact Hw]).
  assert (Hm : nonneg (f32_mul (f32_div (f32_of_Z part) (f32_of_Z whole)) (f32_of_Z 100))).
  { rewrite f32_hundred. revert Hx. generalize (f32_div (f32_of_Z part) (f32_of_Z whole)). intros x Hx.
    destruct x as [|[]| |[]]; try done; by apply mul_nonneg_finite. }
  rewrite f32_hundred in Hm |- *. exact (proj2 (clamp_nonneg _ _ _ Hm)).
Qed.
(** The first request has nothing to compare with, and every one leaves its sample for the next. *)
Lemma measure_cpu_first now : measure_cpu (Some now) None = ((None, None), Some now).
Proof. done. Qed.

(** A temperature shown is one a sensor can have, and no channel without a sensor is taken for a hot radio. *)
Lemma zone_in_range name raw sensor celsius : classify_thermal_zone name raw = Some (sensor, celsius) ->
  between (f32_of_Z (-40)) (f32_of_Z 150) celsius /\ (sensor = Radio -> SFeqb celsius TSENS_UNPOPULATED_C = false).
Proof.
  unfold classify_thermal_zone. set (c := if SFltb _ _ then _ else _). destruct (SFleb (f32_of_Z (-40)) c) eqn:H1; [|done].
  destruct (SFleb c (f32_of_Z 150)) eqn:H2; [|done]. cbn [andb negb]. destruct (contains name (lit "pa_therm")).
  - destruct (SFeqb c TSENS_UNPOPULATED_C) eqn:H3; [done|]. by intros [= <- <-].
  - destruct (existsb _ _); [done|]. by intros [= <- <-].
Qed.

(** No more of the storage is shown as used than there is. *)
Lemma disk_percent_bounds w path stat : 0 < f_blocks stat < 2 ^ 57 -> 0 <= f_bfree stat <= f_blocks stat ->
  exists p, used_percent (disk_stats w path stat) = dec p ++ lit "%" /\ 0 <= p <= 100 /\
    p = (f_blocks stat - f_bfree stat) * 100 / f_blocks stat.
Proof.
  intros Hb Hf. unfold disk_stats. cbn [used_percent]. rewrite (proj2 (Z.eqb_neq (f_blocks stat) 0)) by lia. eexists. split; [reflexivity|].
  rewrite (wrapu_id 64 (f_blocks stat - f_bfree stat)) by (unfold in_u; lia). rewrite wrapu_id by (unfold in_u; lia). split; [|done].
  split; [apply Z.div_pos; lia|]. apply Z.div_le_upper_bound; nia.
Qed.

(** The list and the current recording are all the recordings, each once. *)
Lemma qmdl_manifest_perm {A : Type} (entries : list A) i : (i < length entries)%nat ->
  exists rest e, qmdl_manifest entries (Some i) = Some (rest, Some e) /\ e :: rest ≡ₚ entries.
Proof.
  intros Hi. destruct (lookup_lt_is_Some_2 entries i Hi) as [e He]. unfold qmdl_manifest. rewrite He. cbn. eexists _, e. split; [done|].
  rewrite <- (take_drop_middle entries i e He) at 3. by rewrite Permutation_middle.
Qed.
