(* ===== verification/Handlers.v ===== *)
(** * Requests that change or hand out what is kept ([daemon/src/server.rs])

    The configuration shown and saved, the pictures for the screen, names and notes, the correction of the clock, and
    what goes into the archive of a recording.  Who is let in is [Access]'s.  TOML and JSON are arguments; so are the
    values of the settings that no handler looks at ([Rest]). *)

From S2P Require Import Prelude RustStr Filesystem Sidecar Store Cleanup Storage Webdav WebAuth Framebuffer Recovery.

Local Open Scope Z_scope.

(** ** The configuration *)

Record Config {Rest Coord : Type} := mkConfig {
  qmdl_store_path : rstr; removable_store_path : option rstr;
  c_gps_mode : GpsMode; gps_fixed_latitude : option Coord; gps_fixed_longitude : option Coord; gps_api_open : bool;
  webdav : WebdavConfig; web_users : list WebUser; terminal_enabled : bool; adb_enabled : option bool;
  wifi_ssid : option rstr; wifi_password : option rstr; wifi_security : option rstr; rest : Rest }.
Arguments Config : clear implicits.
Arguments mkConfig {Rest Coord}.

Inductive ConfigError := StepUp_Required | Bad_Webdav (e : WebdavInvalid) | Bad_Storage (e : rstr) | Not_Serialized (e : rstr) | Not_Written (e : ErrorKind).

Section config.
Context {Rest Coord : Type}.
Abbreviation Config := (Config Rest Coord).

Definition without_password (c : WebdavConfig) (p : option rstr) : WebdavConfig :=
  mkWebdavConfig (url c) (Webdav.username c) p (upload_timeout_secs c) (poll_interval_secs c) (min_age_secs c) (delete_on_upload c).

(** [get_config]: without what is secret, and with the accounts of this moment. *)
Definition get_config (live : list WebUser) (c : Config) : Config :=
  mkConfig (qmdl_store_path c) (removable_store_path c) (c_gps_mode c) (gps_fixed_latitude c) (gps_fixed_longitude c) (gps_api_open c)
    (without_password (webdav c) None) (map (fun u => mkWebUser (WebAuth.username u) []) live) (terminal_enabled c) (adb_enabled c)
    (wifi_ssid c) None (wifi_security c) (rest c).

(** The settings of a mode that is not chosen are left out. *)
Definition clear_gps (c : Config) : Config :=
  let fixed := bool_decide (c_gps_mode c = Gps_Fixed) in
  mkConfig (qmdl_store_path c) (removable_store_path c) (c_gps_mode c)
    (if fixed then gps_fixed_latitude c else None) (if fixed then gps_fixed_longitude c else None)
    (if bool_decide (c_gps_mode c = Gps_Api) then gps_api_open c else false)
    (webdav c) (web_users c) (terminal_enabled c) (adb_enabled c) (wifi_ssid c) (wifi_password c) (wifi_security c) (rest c).

(** What is kept of the settings in force, and what is not kept in the file. *)
Definition keep_secrets (settings : Config) (live : list WebUser) (c : Config) : Config :=
  mkConfig (qmdl_store_path c) (removable_store_path c) (c_gps_mode c) (gps_fixed_latitude c) (gps_fixed_longitude c) (gps_api_open c)
    (match Webdav.password (webdav c) with None => without_password (webdav c) (Webdav.password (webdav settings)) | Some _ => webdav c end)
    live (terminal_enabled settings) (adb_enabled c) None None None (rest c).

(** The configuration to write, from what was sent; [stepped_up] is [stepup.active]. *)
Definition config_to_write (settings : Config) (live : list WebUser) (stepped_up : bool) (config : Config) : result ConfigError Config :=
  let turning_adb_on := bool_decide (adb_enabled config = Some true) && negb (bool_decide (adb_enabled settings = Some true)) in
  if turning_adb_on && negb stepped_up then Err StepUp_Required
  else
    let config := clear_gps config in
    match validate_webdav (webdav config) with
    | Err e => Err (Bad_Webdav e)
    | Ok _ =>
        match validate_storage (qmdl_store_path config) (removable_store_path config) with
        | Err e => Err (Bad_Storage e)
        | Ok _ => Ok (keep_secrets settings live config)
        end
    end.

Context (to_toml : Config -> result rstr rstr) (from_toml : rstr -> option Config) (path : rstr).

Definition config_tmp : rstr := path ++ lit ".new".
Definition sync : IO unit := faulty no_effect (fun fs => Ok (tt, fs)).
(** [write_config_atomically]; that the directory could not be flushed does not matter. *)
Definition write_config_atomically (contents : list Z) : IO unit :=
  file_create config_tmp ;; append config_tmp contents ;; sync ;; rename config_tmp path ;; attempt sync ;; mret tt.

Definition lift_result {A : Type} {S E : Type} (r : result E A) : M S E A := match r with Ok a => mret a | Err e => fail e end.
(** [set_config]; on success the WiFi is set up and the daemon restarts, after the file is written. *)
Definition set_config (settings : Config) (live : list WebUser) (stepped_up : bool) (config : Config) : M World ConfigError unit :=
  to_write ← lift_result (config_to_write settings live stepped_up config);
  text ← lift_result (match to_toml to_write with Ok t => Ok t | Err e => Err (Not_Serialized e) end);
  map_err_m Not_Written (write_config_atomically (as_bytes text)).

(** What a start reads. *)
Definition config_on_disk (fs : files_t) : option Config := bytes ← fs !! path; text ← from_utf8 bytes; from_toml text.
End config.

(** ** Pictures *)

Definition DISPLAY_STATE_KEYS : list rstr := [lit "paused"; lit "recording"; lit "warning_low"; lit "warning_medium"; lit "warning_high"].
Definition MAX_GIF_BYTES : nat := Z.to_nat (2 * 1024 * 1024).

Inductive GifError := Unknown_State | Empty_Body | Too_Many_Bytes | Not_An_Image | No_Dimensions | Empty_Canvas | Too_Large | Storage_Error (e : ErrorKind).

Definition check_upload (display_state : rstr) (body : list Z) : result GifError unit :=
  if negb (bool_decide (display_state ∈ DISPLAY_STATE_KEYS)) then Err Unknown_State
  else match body with
  | [] => Err Empty_Body
  | _ =>
      if (MAX_GIF_BYTES <? length body)%nat then Err Too_Many_Bytes
      else match image_kind body with
      | None => Err Not_An_Image
      | Some _ =>
          match image_dimensions body with
          | None => Err No_Dimensions
          | Some (w, h) => if (w =? 0) || (h =? 0) then Err Empty_Canvas
                           else if (MAX_GIF_DIMENSION <? w) || (MAX_GIF_DIMENSION <? h) then Err Too_Large
                           else Ok tt
          end
      end
  end.

(** The directory is made, then the file written over. *)
Definition set_display_gif (dir display_state : rstr) (body : list Z) : M World GifError unit :=
  lift_result (check_upload display_state body) ;;
  map_err_m Storage_Error (sync ;; file_create (gif_path dir display_state) ;; append (gif_path dir display_state) body).

Inductive ContentType := Image_Png | Image_Gif.
Definition get_display_gif (dir display_state : rstr) : M World GifError (ContentType * list Z) :=
  if negb (bool_decide (display_state ∈ DISPLAY_STATE_KEYS)) then fail Unknown_State
  else bytes ← map_err_m Storage_Error (read_file (gif_path dir display_state));
       mret (match image_kind bytes with Some Still => Image_Png | _ => Image_Gif end, bytes).
Definition delete_display_gif (dir display_state : rstr) : M World GifError unit :=
  if negb (bool_decide (display_state ∈ DISPLAY_STATE_KEYS)) then fail Unknown_State
  else attempt (remove_file (gif_path dir display_state)) ;; mret tt.

(** ** Names and notes *)

Inductive AnnotationError := Name_Too_Long | Name_Empty | Notes_Too_Long.
Definition annotation_name (raw : option rstr) : result AnnotationError (option rstr) :=
  match trim <$> raw with
  | None | Some [] => Ok None
  | Some raw =>
      if (MAX_DISPLAY_NAME <? length raw)%nat then Err Name_Too_Long
      else match sanitize_display_name raw with [] => Err Name_Empty | cleaned => Ok (Some cleaned) end
  end.
Definition annotation_notes (raw : option rstr) : result AnnotationError (option rstr) :=
  match trim <$> raw with
  | None | Some [] => Ok None
  | Some raw => if (MAX_NOTES <? length raw)%nat then Err Notes_Too_Long else Ok (Some raw)
  end.

Inductive AnnotateError := Bad_Annotation (e : AnnotationError) | Not_Annotated (e : RecordingStoreError).
(** [annotate_recording]; the store gives the response for a recording that is not there. *)
Definition annotate_recording (to_toml : Manifest -> list Z) (recording : rstr) (display_name notes : option rstr) : M Sys AnnotateError unit :=
  display_name ← lift_result (map_err Bad_Annotation (annotation_name display_name));
  notes ← lift_result (map_err Bad_Annotation (annotation_notes notes));
  map_err_m Not_Annotated (set_entry_annotations to_toml recording display_name notes).

(** The name of a downloaded archive, and its header. *)
Definition download_name (display_name : option rstr) (entry_id : rstr) (redact : bool) : rstr :=
  let suffix := if redact then lit "-redacted" else [] in
  match display_name with
  | Some name => name ++ lit "-" ++ entry_id ++ suffix ++ lit ".zip"
  | None => entry_id ++ suffix ++ lit ".zip"
  end.

(** ** The clock *)

Definition MAX_CLOCK_OFFSET_SECS : Z := 20 * 365 * 24 * 3600.
(** [i64::abs], which wraps at the least value in a release build. *)
Definition abs_i64 (v : Z) : Z := if v =? - 2 ^ 63 then - 2 ^ 63 else Z.abs v.
(** The offset to set, in nanoseconds, or a refusal. *)
Definition set_time_offset (offset_seconds : Z) : option Z :=
  if MAX_CLOCK_OFFSET_SECS <? abs_i64 offset_seconds then None else try_seconds offset_seconds.

(** Milliseconds of the start of 2024 and of 2101. *)
Definition YEAR_2024 : Z := 1704067200000.
Definition YEAR_2101 : Z := 4133980800000.
(** At [now], in nanoseconds. *)
Definition offset_from_browser (browser_ms now : Z) : option Z :=
  if (browser_ms <? YEAR_2024) || (YEAR_2101 <=? browser_ms) then None
  else let off := browser_ms * 10 ^ 6 - now in
       if Z.abs (Z.quot off (10 ^ 9)) <=? MAX_CLOCK_OFFSET_SECS then Some off else None.

(** ** The description that goes with a recording ([daemon/src/export_metadata.rs]) *)

Definition METADATA_VERSION : Z := 1.
Record RayhunterInfo {Device : Type} := mkRayhunterInfo {
  version_at_capture : option rstr; version_at_export : rstr; info_system_os : option rstr; info_arch : option rstr; device : Device }.
Arguments mkRayhunterInfo {Device}.
(** Times are in nanoseconds; the GPS mode is written with [{:?}] and kept as it is. *)
Record RecordingInfo := mkRecordingInfo {
  info_id : rstr; info_display_name : option rstr; info_notes : option rstr; info_started : Z; info_last_message : option Z;
  info_qmdl_size_bytes : Z; info_stop_reason : option rstr; info_gps_mode : option GpsMode }.
Record AnalyzerInfo := mkAnalyzerInfo { analyzer_name : rstr; analyzer_version : Z }.
Record AnalysisInfo := mkAnalysisInfo { report_version : Z; info_analyzers : list AnalyzerInfo }.
Record RecordingMetadata {Device : Type} := mkRecordingMetadata {
  metadata_version : Z; generated_at : Z; rayhunter : RayhunterInfo (Device := Device); recording : RecordingInfo; analysis : option AnalysisInfo }.
Arguments mkRecordingMetadata {Device}.

(** [Value::as_u64]: of a number that is written as a whole one and fits. *)
Definition as_u64 (v : Value) : option Z := match v with Value_Number n => parse_unsigned 64 n | _ => None end.
Definition analyzer_info (a : Value) : option AnalyzerInfo :=
  n ← value_get (lit "name") a ≫= as_str; v ← value_get (lit "version") a ≫= as_u64; Some (mkAnalyzerInfo n (wrapu 32 v)).
Definition analysis_info_from_first_line (from_str : rstr -> option Value) (line : rstr) : option AnalysisInfo :=
  value ← from_str line;
  version ← value_get (lit "report_version") value ≫= as_u64;
  analyzers ← value_get (lit "analyzers") value ≫= as_array;
  Some (mkAnalysisInfo (wrapu 32 version) (omap analyzer_info analyzers)).

(** [build]; [version] is the crate's. *)
Definition build {Device : Type} (version : rstr) (entry : ManifestEntry) (device : Device) (analysis : option AnalysisInfo) (generated_at : Z) : RecordingMetadata :=
  mkRecordingMetadata METADATA_VERSION generated_at
    (mkRayhunterInfo (entry_version entry) version (entry_os entry) (entry_arch entry) device)
    (mkRecordingInfo (name entry) (display_name entry) (notes entry) (start_time entry) (last_message_time entry) (qmdl_size_bytes entry)
       (stop_reason entry) (gps_mode entry))
    analysis.

(** ** The archive of a recording *)

Definition wants_redaction (query : option rstr) : bool :=
  match query with
  | Some q => existsb (fun pair => bool_decide (pair = lit "redact=1") || bool_decide (pair = lit "redact=true")) (split_on 38 q)
  | None => false
  end.

Section archive.
(** The files of the recording by kind; a capture is the content of a QMDL file made plain ([plain], which can fail) or
    made a pcap, plain or redacted with what was removed; a sidecar is read and written as JSON.  An entry that could not be
    written to its end is left out here, as is whatever the writer of the ZIP format adds. *)
Context {Report : Type} (stored : FileKind -> result ErrorKind (option (list Z))) (plain : list Z -> option (list Z))
  (pcap : list Z -> list Z) (redacted_pcap : list Z -> option (list Z * Report))
  (from_slice : list Z -> option RecordingSidecar) (to_vec : RecordingSidecar -> option (list Z))
  (metadata : option (list Z)) (report_json : Report -> option (list Z)) (name : rstr).

(** An entry of the archive: its name and content. *)
Definition Entry : Type := rstr * list Z.
(** The stored files: the entries, and whether to go on. *)
Fixpoint add_stored (redact : bool) (kinds : list FileKind) : list Entry * bool :=
  match kinds with
  | [] => ([], true)
  | k :: kinds =>
      if redact && bool_decide (k = Kind_Qmdl) then add_stored redact kinds
      else match stored k with
      | Err _ => ([], false)
      | Ok None => add_stored redact kinds
      | Ok (Some bytes) =>
          let add content := let '(es, ok) := add_stored redact kinds in ((get_filename k name false, content) :: es, ok) in
          if redact && bool_decide (k = Kind_Meta) then
            match from_slice bytes with
            | None => add_stored redact kinds
            | Some sidecar => match to_vec (redacted sidecar) with Some json => add json | None => ([], false) end
            end
          else if bool_decide (k = Kind_Qmdl) then match plain bytes with Some content => add content | None => ([], false) end
          else add bytes
      end
  end.

(** What [get_zip] writes; it stops where something fails. *)
Definition archive (redact : bool) : list Entry :=
  let '(es, ok) := add_stored redact ALL in
  if negb ok then es
  else match stored Kind_Qmdl with
  | Ok (Some bytes) =>
      let pcap_name := name ++ lit ".pcapng" in
      let described es := es ++ match metadata with Some json => [(lit "metadata.json", json)] | None => [] end in
      if redact then
        match redacted_pcap bytes with
        | None => es
        | Some (content, report) =>
            described (es ++ [(pcap_name, content)]) ++ match report_json report with Some json => [(lit "redaction-report.json", json)] | None => [] end
        end
      else described (es ++ [(pcap_name, pcap bytes)])
  | _ => es
  end.
End archive.

Section zip.
Context {Report Device : Type} (open_stored : nat -> FileKind -> result ErrorKind (option (list Z))) (plain : list Z -> option (list Z))
  (pcap : list Z -> list Z) (redacted_pcap : list Z -> option (list Z * Report))
  (from_slice : list Z -> option RecordingSidecar) (to_vec : RecordingSidecar -> option (list Z)) (from_str : rstr -> option Value)
  (metadata_json : RecordingMetadata (Device := Device) -> option (list Z)) (report_json : Report -> option (list Z)) (version : rstr) (unit_device : Device).

(** [read_analysis_header]: the first line of the stored analysis. *)
Definition read_analysis_header (entry_index : nat) : option AnalysisInfo :=
  match open_stored entry_index Kind_Analysis with
  | Ok (Some bytes) => first ← head (split_inclusive 10 bytes); text ← from_utf8 (line_of_piece first); analysis_info_from_first_line from_str text
  | _ => None
  end.

Inductive ZipError := Zip_Not_Found | Zip_Qmdl_Empty.
(** [get_zip]: the name of the download and what is in it. *)
Definition get_zip (st : RecordingStore) (entry_name : rstr) (raw_query : option rstr) (now : Z) : result ZipError (rstr * list Entry) :=
  let redact := wants_redaction raw_query in
  let qmdl_idx := trim_end_matches (lit ".zip") entry_name in
  match entry_for_name st qmdl_idx with
  | None => Err Zip_Not_Found
  | Some (entry_index, entry) =>
      if qmdl_size_bytes entry =? 0 then Err Zip_Qmdl_Empty
      else
        let metadata := metadata_json (build version entry unit_device (read_analysis_header entry_index) now) in
        Ok (download_name (display_name entry) qmdl_idx redact,
            archive (open_stored entry_index) plain pcap redacted_pcap from_slice to_vec metadata report_json qmdl_idx redact)
  end.
End zip.

(** ** The configuration stays what the owner made it *)

Section config_theorems.
Context {Rest Coord : Type}.
Abbreviation Config := (Config Rest Coord).

(** What a request can never change, and what it can only change to something that is valid. *)
Definition kept (settings : Config) (live : list WebUser) (stepped_up : bool) (c : Config) : Prop :=
  web_users c = live /\ terminal_enabled c = terminal_enabled settings /\
  (adb_enabled c = Some true -> adb_enabled settings = Some true \/ stepped_up = true) /\
  (Webdav.password (webdav settings) <> None -> Webdav.password (webdav c) <> None) /\
  wifi_password c = None /\ (c_gps_mode c <> Gps_Api -> gps_api_open c = false) /\
  validate_webdav (webdav c) = Ok tt /\ validate_storage (qmdl_store_path c) (removable_store_path c) = Ok tt.

Lemma config_to_write_kept settings live stepped_up config c :
  config_to_write settings live stepped_up config = Ok c -> kept settings live stepped_up c.
Proof.
  unfold config_to_write. destruct (bool_decide (adb_enabled config = Some true) && negb (bool_decide (adb_enabled settings = Some true)) && negb stepped_up) eqn:Hadb; [done|].
  destruct (validate_webdav (webdav (clear_gps config))) as [[]|] eqn:Hw; [|done].
  destruct (validate_storage _ _) as [[]|] eqn:Hs; [|done]. intros [= <-]. unfold kept, keep_secrets.
  cbn [web_users terminal_enabled adb_enabled webdav wifi_password c_gps_mode gps_api_open qmdl_store_path removable_store_path clear_gps].
  split_and!; try done.
  - intros Ha. rewrite Ha, bool_decide_eq_true_2 in Hadb by done. destruct (bool_decide_reflect (adb_enabled settings = Some true)); [by left|].
    right. by destruct stepped_up.
  - intros Hp. by destruct (Webdav.password (webdav config)) eqn:E; cbn; rewrite ?E.
  - intros Hg. by rewrite bool_decide_eq_false_2.
  - cbn in Hw. by destruct (Webdav.password (webdav config)).
Qed.

(** The settings page is safe to save.  Saving exactly what it was shown, though passwords and hashes are left out of that,
    writes the configuration that is in force, with the accounts of this moment and without the WiFi, which has its own file. *)
Theorem save_as_shown (settings : Config) live stepped_up :
  clear_gps settings = settings -> validate_webdav (webdav settings) = Ok tt ->
  validate_storage (qmdl_store_path settings) (removable_store_path settings) = Ok tt ->
  config_to_write settings live stepped_up (get_config live settings) =
  Ok (mkConfig (qmdl_store_path settings) (removable_store_path settings) (c_gps_mode settings) (gps_fixed_latitude settings)
        (gps_fixed_longitude settings) (gps_api_open settings) (webdav settings) live (terminal_enabled settings) (adb_enabled settings)
        None None None (rest settings)).
Proof.
  destruct settings as [qp rp gm lat lon api wd users term adb ssid pass sec r]. cbn [webdav qmdl_store_path removable_store_path].
  intros Hg Hw Hs. unfold clear_gps in Hg. cbn in Hg. injection Hg as Hlat Hlon Hapi.
  unfold config_to_write, get_config, clear_gps, keep_secrets.
  cbn [adb_enabled webdav c_gps_mode qmdl_store_path removable_store_path gps_fixed_latitude gps_fixed_longitude gps_api_open terminal_enabled rest Webdav.password without_password].
  rewrite andb_negb_r. cbn [andb]. assert (Hw' : validate_webdav (without_password wd None) = Ok tt) by exact Hw. rewrite Hw', Hs, Hlat, Hlon, Hapi.
  do 2 f_equal. by destruct wd.
Qed.

Context (to_toml : Config -> result rstr rstr) (from_toml : rstr -> option Config) (path : rstr).
#[local] Abbreviation on_disk := (config_on_disk from_toml path).
#[local] Abbreviation saving := (set_config to_toml path).

Lemma sync_files w : files (sync w).2 = files w.
Proof. unfold sync, faulty, no_effect. by destruct (head (schedule w)) as [[f|]|]. Qed.

Lemma tmp_other : config_tmp path <> path.
Proof. unfold config_tmp. intros H. apply (f_equal (@length _)) in H. rewrite length_app in H. change (length (lit ".new")) with 4%nat in H. lia. Qed.

(** Whatever fails, the file is the old one or the new one, and no other is touched. *)
Lemma write_config_spec contents w :
  let '(r, w') := write_config_atomically path contents w in
  files w' !! path = match r with Ok _ => Some contents | Err _ => files w !! path end /\
  forall p, p <> path -> p <> config_tmp path -> files w' !! p = files w !! p.
Proof.
  pose proof tmp_other as Hne. unfold write_config_atomically, mbind, M_bind.
  pose proof (fun p H => file_create_touches (config_tmp path) w p H) as T1.
  destruct (file_create (config_tmp path) w) as [[[]|e1] w1] eqn:E1; cbn [snd] in T1; [|split; intros; apply T1; set_solver].
  pose proof (fun p H => append_touches (config_tmp path) contents w1 p H) as T2.
  destruct (append (config_tmp path) contents w1) as [[[]|e2] w2] eqn:E2; cbn [snd] in T2; [|split; intros; rewrite T2, T1 by set_solver; done].
  pose proof (sync_files w2) as T3. destruct (sync w2) as [[[]|e3] w3] eqn:E3; cbn [snd] in T3; [|split; intros; rewrite T3, T2, T1 by set_solver; done].
  pose proof (fun p H => rename_touches (config_tmp path) path w3 p H) as T4.
  destruct (rename (config_tmp path) path w3) as [[[]|e4] w4] eqn:E4; cbn [snd] in T4.
  2:{ apply rename_err in E4. split; intros; rewrite E4, T3, T2, T1 by set_solver; done. }
  apply file_create_ok in E1. apply append_ok in E2. apply rename_ok in E4 as (c & Hc & Hf4).
  rewrite T3, E2, E1, lookup_insert_eq in Hc. rewrite lookup_insert_eq in Hc. injection Hc as <-.
  unfold attempt. pose proof (sync_files w4) as T5. destruct (sync w4) as [r5 w5]. cbn [snd] in T5. cbn.
  split; [by rewrite T5, Hf4, lookup_insert_eq|]. intros p H1 H2. rewrite T5, T4, T3, T2, T1 by set_solver. done.
Qed.

Lemma set_config_spec settings live stepped_up config w :
  (forall c t, to_toml c = Ok t -> from_toml t = Some c /\ Forall is_scalar t) ->
  let '(r, w') := saving settings live stepped_up config w in
  match r with
  | Ok _ => exists c, config_to_write settings live stepped_up config = Ok c /\ on_disk (files w') = Some c
  | Err _ => on_disk (files w') = on_disk (files w)
  end /\ forall p, p <> path -> p <> config_tmp path -> files w' !! p = files w !! p.
Proof.
  intros Htoml. unfold set_config, lift_result, mbind, M_bind, map_err_m.
  destruct (config_to_write settings live stepped_up config) as [c|e]; [|done].
  cbv [mret M_ret]. destruct (to_toml c) as [text|e] eqn:Ht; [|done]. destruct (Htoml c text Ht) as [Hfrom Hsc].
  pose proof (write_config_spec (as_bytes text) w) as Hw. destruct (write_config_atomically path (as_bytes text) w) as [[[]|e] w']; destruct Hw as [Hp Ho]; cbn [map_err].
  - split; [|done]. exists c. split; [done|]. unfold config_on_disk. rewrite Hp. cbn. rewrite from_utf8_as_bytes by done. exact Hfrom.
  - split; [|done]. unfold config_on_disk. by rewrite Hp.
Qed.

(** A daemon that saves and starts again: the requests, each with the accounts of its moment and whether it was stepped up. *)
Record Save := mkSave { save_live : list WebUser; save_stepped : bool; save_request : Config }.
Fixpoint run_saves (saves : list Save) (settings : Config) (w : World) : World :=
  match saves with
  | [] => w
  | s :: saves =>
      match saving settings (save_live s) (save_stepped s) (save_request s) w with
      | (Ok _, w) => match on_disk (files w) with Some settings => run_saves saves settings w | None => w end
      | (Err _, w) => run_saves saves settings w
      end
  end.

(** C15: no saving of settings, of whatever and wherever the storage fails or the power goes, loses the configuration or switches the
    terminal on: after any of them a start finds one that loads, in which the terminal is as it was
    flashed and ADB is on only if it was before or a request that stepped up asked for it. *)
Theorem config_never_lost settings saves w :
  (forall c t, to_toml c = Ok t -> from_toml t = Some c /\ Forall is_scalar t) ->
  on_disk (files w) = Some settings ->
  exists c, on_disk (files (run_saves saves settings w)) = Some c /\
    terminal_enabled c = terminal_enabled settings /\
    (adb_enabled c = Some true -> adb_enabled settings = Some true \/ Exists (fun s => save_stepped s = true) saves) /\
    (Webdav.password (webdav settings) <> None -> Webdav.password (webdav c) <> None) /\
    forall p, p <> path -> p <> config_tmp path -> files (run_saves saves settings w) !! p = files w !! p.
Proof.
  intros Htoml. revert settings w. induction saves as [|s saves IH]; intros settings w Hd; cbn [run_saves]; [exists settings; split_and!; auto|].
  pose proof (set_config_spec settings (save_live s) (save_stepped s) (save_request s) w Htoml) as Hs.
  destruct (saving settings (save_live s) (save_stepped s) (save_request s) w) as [[[]|e] w1]; destruct Hs as [Hs Ho].
  - destruct Hs as (c1 & Hc1 & Hd1). rewrite Hd1. apply config_to_write_kept in Hc1 as (_ & Ht & Ha & Hp & _).
    destruct (IH c1 w1 Hd1) as (c & Hc & Hterm & Hadb & Hpw & Hother). exists c. split_and!; [done|congruence| |by auto|].
    + intros H. destruct (Hadb H) as [H1|H1]; [|right; by apply Exists_cons_tl]. destruct (Ha H1) as [H2|H2]; [by left|right; by apply Exists_cons_hd].
    + intros p H1 H2. rewrite Hother, Ho by done. done.
  - rewrite <- Hs in Hd. destruct (IH settings w1 Hd) as (c & Hc & Hterm & Hadb & Hpw & Hother). exists c. split_and!; [done|done| |done|].
    + intros H. destruct (Hadb H) as [?|H1]; [by left|right; by apply Exists_cons_tl].
    + intros p H1 H2. rewrite Hother, Ho by done. done.
Qed.
End config_theorems.

(** ** Pictures *)

Lemma check_upload_ok st body : check_upload st body = Ok tt ->
  st ∈ DISPLAY_STATE_KEYS /\ (length body <= MAX_GIF_BYTES)%nat /\ is_Some (image_kind body) /\
  exists d, image_dimensions body = Some d /\ too_large d = false /\ 0 <> d.1 /\ 0 <> d.2.
Proof.
  unfold check_upload. destruct (bool_decide_reflect (st ∈ DISPLAY_STATE_KEYS)); [|done]. cbn [negb].
  destruct body as [|b body]; [done|]. destruct (Nat.ltb_spec MAX_GIF_BYTES (length (b :: body))); [done|].
  destruct (image_kind (b :: body)); [|done]. destruct (image_dimensions (b :: body)) as [[w h]|]; [|done].
  destruct (Z.eqb_spec w 0); [done|]. destruct (Z.eqb_spec h 0); [done|]. cbn [orb].
  destruct ((MAX_GIF_DIMENSION <? w) || (MAX_GIF_DIMENSION <? h)) eqn:Hd; [done|]. intros _. split; [done|]. split; [done|]. split; [by eexists|].
  exists (w, h). split_and!; try done; cbn; lia.
Qed.

(** An upload changes no file but the one of a display state, whatever it is named and whatever fails, and an image
    that was accepted is one the display plays or decodes: it is an image of a kind it knows, and its canvas within its limit. *)
Theorem upload_playable dir st body w :
  let '(r, w') := set_display_gif dir st body w in
  (forall p, p ∉ map (gif_path dir) DISPLAY_STATE_KEYS -> files w' !! p = files w !! p) /\
  (r = Ok tt -> files w' !! gif_path dir st = Some body /\
     exists k d, image_kind body = Some k /\ image_dimensions body = Some d /\ too_large d = false /\
       (k = Animated -> gif_dimensions body = Some d)).
Proof.
  unfold set_display_gif, lift_result, mbind, M_bind, map_err_m. destruct (check_upload st body) as [[]|e] eqn:Hc; [|by split].
  apply check_upload_ok in Hc as (Hst & _ & [k Hk] & d & Hd & Hl & _). cbv [mret M_ret].
  assert (Hp : forall p, p ∉ map (gif_path dir) DISPLAY_STATE_KEYS -> p ∉ ({[gif_path dir st]} : gset rstr)).
  { intros p Hp ->%elem_of_singleton. apply Hp. apply list_elem_of_fmap. by exists st. }
  pose proof (sync_files w) as T1. destruct (sync w) as [[[]|e1] w1]; cbn [snd] in T1; [|cbn; split; [intros; by rewrite T1|done]].
  pose proof (fun p H => file_create_touches (gif_path dir st) w1 p H) as T2.
  destruct (file_create (gif_path dir st) w1) as [[[]|e2] w2] eqn:E2; cbn [snd] in T2; [|cbn; split; [intros; rewrite T2, T1 by auto; done|done]].
  pose proof (fun p H => append_touches (gif_path dir st) body w2 p H) as T3.
  destruct (append (gif_path dir st) body w2) as [[[]|e3] w3] eqn:E3; cbn [snd map_err] in T3 |- *; (split; [intros p H; rewrite T3, T2, T1 by auto; done|]); [|done].
  intros _. apply file_create_ok in E2. apply append_ok in E3. rewrite E3, E2, !lookup_insert_eq. split; [done|].
  exists k, d. split_and!; try done. intros ->. unfold image_dimensions in Hd. by rewrite Hk in Hd.
Qed.

(** A stored image is declared as what it is, whatever its name says. *)
Lemma get_display_gif_spec dir st w ct bytes w' : get_display_gif dir st w = (Ok (ct, bytes), w') ->
  st ∈ DISPLAY_STATE_KEYS /\ (ct = Image_Png <-> image_kind bytes = Some Still).
Proof.
  unfold get_display_gif. destruct (bool_decide_reflect (st ∈ DISPLAY_STATE_KEYS)); [|done]. cbn [negb]. unfold mbind, M_bind, map_err_m.
  destruct (read_file (gif_path dir st) w) as [[b|err] w1]; [|done]. cbn [map_err]. cbv [mret M_ret]. intros [= <- <- <-]. split; [done|].
  by destruct (image_kind b) as [[]|].
Qed.

(** ** Names in headers *)

(** A name that was accepted fits in a header and in a path. *)
Lemma annotation_name_safe raw name : annotation_name raw = Ok (Some name) ->
  name <> [] /\ (length name <= MAX_DISPLAY_NAME)%nat /\ Forall (fun c => display_char c = true) name.
Proof.
  unfold annotation_name. destruct (trim <$> raw) as [[|c s]|]; [done| |done]. destruct (_ <? _)%nat; [done|].
  destruct (sanitize_display_name (c :: s)) as [|x r] eqn:Hs; [done|]. intros [= <-].
  pose proof Hs as Hs'. rewrite sanitize_trims in Hs'. unfold trim_matches in Hs'.
  destruct (trim_by_spec (fun x => x =? 95) (take MAX_DISPLAY_NAME (map clean_char (c :: s)))) as (a & b & Hab & _). rewrite Hs' in Hab.
  split; [done|]. split.
  - apply (f_equal (@length _)) in Hab. rewrite length_take, !length_app in Hab. lia.
  - pose proof (Forall_take _ MAX_DISPLAY_NAME _ (clean_chars (c :: s))) as H. rewrite Hab in H. by apply Forall_app in H as [_ [H _]%Forall_app].
Qed.

Definition header_char (c : rchar) : bool := display_char c || (c =? 46).
Lemma download_name_safe display_name entry_id redact :
  match display_name with Some n => Forall (fun c => display_char c = true) n | None => True end ->
  Forall (fun c => display_char c = true) entry_id -> Forall (fun c => header_char c = true) (download_name display_name entry_id redact).
Proof.
  intros Hn He. assert (Hw : forall s, Forall (fun c => display_char c = true) s -> Forall (fun c => header_char c = true) s).
  { intros s Hs. eapply Forall_impl; [exact Hs|]. intros c Hc. unfold header_char. by rewrite Hc. }
  assert (Hlit : Forall (fun c => header_char c = true) (lit ".zip") /\ Forall (fun c => header_char c = true) (lit "-redacted") /\ Forall (fun c => header_char c = true) (lit "-"))
    by (split_and!; repeat constructor).
  unfold download_name. destruct display_name, redact; repeat apply Forall_app_2; try apply Hlit; try by apply Hw. all: constructor.
Qed.

(** ** The clock *)

(** An offset is taken exactly when it is within twenty years either way, for any value a request can hold. *)
Lemma set_time_offset_spec v : - 2 ^ 63 <= v < 2 ^ 63 ->
  set_time_offset v = if bool_decide (- MAX_CLOCK_OFFSET_SECS <= v <= MAX_CLOCK_OFFSET_SECS) then Some (v * 10 ^ 9) else None.
Proof.
  intros Hv. unfold set_time_offset, abs_i64, try_seconds. change ((2 ^ 63 - 1) / 1000) with 9223372036854775. unfold MAX_CLOCK_OFFSET_SECS.
  destruct (Z.eqb_spec v (- 2 ^ 63)) as [->|Hne]; [vm_compute; reflexivity|].
  destruct (Z.ltb_spec (20 * 365 * 24 * 3600) (Z.abs v)) as [Hgt|Hle]; [by rewrite bool_decide_eq_false_2 by lia|].
  rewrite bool_decide_eq_true_2 by lia. unfold Webdav.between. by rewrite !(proj2 (Z.leb_le _ _)) by lia.
Qed.
(** A browser's time is believed only when it is of this century's years, and the clock then reads it. *)
Lemma offset_from_browser_spec browser_ms now off : offset_from_browser browser_ms now = Some off ->
  now + off = browser_ms * 10 ^ 6 /\ YEAR_2024 <= browser_ms < YEAR_2101 /\ Z.abs (Z.quot off (10 ^ 9)) <= MAX_CLOCK_OFFSET_SECS.
Proof.
  unfold offset_from_browser. destruct ((browser_ms <? YEAR_2024) || (YEAR_2101 <=? browser_ms)) eqn:Hy; [done|].
  destruct (Z.leb_spec (Z.abs (Z.quot (browser_ms * 10 ^ 6 - now) (10 ^ 9))) MAX_CLOCK_OFFSET_SECS); [|done]. intros [= <-]. lia.
Qed.

(** ** Archives *)

Section archives.
Context {Report : Type} (plain : list Z -> option (list Z)) (pcap : list Z -> list Z) (redacted_pcap : list Z -> option (list Z * Report))
  (from_slice : list Z -> option RecordingSidecar) (to_vec : RecordingSidecar -> option (list Z))
  (metadata : option (list Z)) (report_json : Report -> option (list Z)) (name : rstr).
#[local] Abbreviation bundle stored := (archive stored plain pcap redacted_pcap from_slice to_vec metadata report_json name true).

(** Two recordings that tell subscribers apart only where redaction looks: captures that come out of it alike, and
    sidecars that do. *)
Definition alike_when_redacted (stored stored' : FileKind -> result ErrorKind (option (list Z))) : Prop :=
  (exists q q', stored Kind_Qmdl = Ok (Some q) /\ stored' Kind_Qmdl = Ok (Some q') /\ redacted_pcap q = redacted_pcap q') /\
  (exists m m', stored Kind_Meta = Ok (Some m) /\ stored' Kind_Meta = Ok (Some m') /\ redacted <$> from_slice m = redacted <$> from_slice m') /\
  stored Kind_Analysis = stored' Kind_Analysis /\ stored Kind_Gps = stored' Kind_Gps.
End archives.

Lemma archive_alike {Report : Type} plain pcap (redacted_pcap : list Z -> option (list Z * Report)) from_slice to_vec metadata report_json name stored stored' :
  alike_when_redacted redacted_pcap from_slice stored stored' ->
  archive stored plain pcap redacted_pcap from_slice to_vec metadata report_json name true =
  archive stored' plain pcap redacted_pcap from_slice to_vec metadata report_json name true.
Proof.
  intros ((q & q' & Hq & Hq' & Hr) & (m & m' & Hm & Hm' & Hs) & Ha & Hg).
  assert (Hadd : add_stored stored plain from_slice to_vec name true ALL = add_stored stored' plain from_slice to_vec name true ALL).
  { unfold ALL. cbn [add_stored andb]. rewrite !bool_decide_eq_true_2 by done. rewrite !(bool_decide_eq_false_2 (Kind_Analysis = _)), !(bool_decide_eq_false_2 (Kind_Gps = _)) by done.
    rewrite <- Ha, <- Hg, Hm, Hm'. destruct (from_slice m) as [s|], (from_slice m') as [s'|]; cbn [fmap option_fmap option_map] in Hs; try done. apply (inj Some) in Hs. by rewrite Hs. }
  unfold archive. rewrite Hadd, Hq, Hq', Hr. done.
Qed.

(** C16: a download asked for with [redact=1] holds nothing of the raw capture nor of what redaction takes out of the device
    details: recordings that redaction makes alike give byte for byte the same archive, under the same name. *)
Theorem shared_bundle_redacted {Report Device : Type} plain pcap (redacted_pcap : list Z -> option (list Z * Report)) from_slice to_vec from_str
    metadata_json report_json version (unit_device : Device) open_stored open_stored' st entry_name query now :
  wants_redaction query = true ->
  (forall i, alike_when_redacted redacted_pcap from_slice (open_stored i) (open_stored' i)) ->
  get_zip open_stored plain pcap redacted_pcap from_slice to_vec from_str metadata_json report_json version unit_device st entry_name query now =
  get_zip open_stored' plain pcap redacted_pcap from_slice to_vec from_str metadata_json report_json version unit_device st entry_name query now.
Proof.
  intros Hq Hall. unfold get_zip. rewrite Hq. destruct (entry_for_name st _) as [[i entry]|]; [|done]. destruct (_ =? _); [done|].
  rewrite (archive_alike _ _ _ _ _ _ _ _ _ _ (Hall i)). unfold read_analysis_header. by rewrite (proj1 (proj2 (proj2 (Hall i)))).
Qed.
(** And an archive that is not for sharing holds the capture. *)
Lemma full_bundle_holds_capture {Report : Type} plain pcap (redacted_pcap : list Z -> option (list Z * Report)) from_slice to_vec metadata report_json name stored q c :
  stored Kind_Qmdl = Ok (Some q) -> plain q = Some c ->
  (get_filename Kind_Qmdl name false, c) ∈ archive stored plain pcap redacted_pcap from_slice to_vec metadata report_json name false.
Proof.
  intros Hq Hc. unfold archive, ALL. cbn [add_stored andb]. rewrite Hq, bool_decide_eq_true_2, Hc by done.
  set (tail := match stored Kind_Analysis with Ok _ => _ | Err _ => _ end). destruct tail as [es ok].
  destruct ok; cbn [negb]; [|by left]. by left.
Qed.

(** ** The theorems at concrete inputs *)

Definition demo_webdav : WebdavConfig := mkWebdavConfig (lit "https://example.org") (Some (lit "me")) (Some (lit "secret")) 300 3600 86400 false.
Definition demo_settings : Config unit Z :=
  mkConfig (lit "/data/rayhunter/qmdl") None Gps_Fixed (Some 1) (Some 2) false demo_webdav [] true None None None None tt.
(** The same, with the secrets left out as the page has them, ADB asked for and the terminal too. *)
Definition demo_request : Config unit Z :=
  mkConfig (lit "/data/rayhunter/qmdl") None Gps_Fixed (Some 1) (Some 2) true (without_password demo_webdav None) [] false (Some true) None None None tt.

Lemma save_as_shown_witness : exists live, live = [mkWebUser (lit "owner") (lit "hash")] /\
  config_to_write demo_settings live false (get_config live demo_settings) =
  Ok (mkConfig (lit "/data/rayhunter/qmdl") None Gps_Fixed (Some 1) (Some 2) false demo_webdav live true None None None None tt).
Proof. eexists. split; [reflexivity|]. apply (save_as_shown demo_settings); vm_compute; reflexivity. Defined.

#[export] Instance demo_config_eq_dec : EqDecision (Config unit Z).
Proof. assert (EqDecision WebdavConfig) by solve_decision. assert (EqDecision WebUser) by solve_decision. solve_decision. Defined.

(** A file format that holds the demonstration's two configurations. *)
Definition demo_written : Config unit Z :=
  mkConfig (lit "/data/rayhunter/qmdl") None Gps_Fixed (Some 1) (Some 2) false demo_webdav [] true (Some true) None None None tt.
Definition demo_to_toml (c : Config unit Z) : result rstr rstr :=
  if bool_decide (c = demo_written) then Ok (lit "adb") else if bool_decide (c = demo_settings) then Ok (lit "none") else Err [].
Definition demo_from_toml (t : rstr) : option (Config unit Z) :=
  if bool_decide (t = lit "adb") then Some demo_written else if bool_decide (t = lit "none") then Some demo_settings else None.

Lemma demo_toml_back c t : demo_to_toml c = Ok t -> demo_from_toml t = Some c /\ Forall is_scalar t.
Proof.
  assert (Ha : Forall is_scalar (lit "adb")) by (repeat constructor; unfold is_scalar; cbn; lia).
  assert (Hn : Forall is_scalar (lit "none")) by (repeat constructor; unfold is_scalar; cbn; lia).
  unfold demo_to_toml. destruct (bool_decide_reflect (c = demo_written)) as [->|_]; [by intros [= <-]|].
  destruct (bool_decide_reflect (c = demo_settings)) as [->|_]; [by intros [= <-]|done].
Qed.

(** The first save is without a step-up, in the second the storage fails, the third goes through. *)
Definition demo_world : World :=
  mkWorld {[lit "config.toml" := as_bytes (lit "none")]} [None; Some (mkFault StorageFull 1)] (fun _ => 0) 0 0 0.
Definition demo_saves : list (@Save unit Z) := [mkSave [] false demo_request; mkSave [] true demo_request; mkSave [] true demo_request].

Lemma config_never_lost_witness : exists c,
  config_on_disk demo_from_toml (lit "config.toml") (files (run_saves demo_to_toml demo_from_toml (lit "config.toml") demo_saves demo_settings demo_world)) = Some c /\
  terminal_enabled c = true /\ adb_enabled c = Some true.
Proof.
  pose proof (config_never_lost demo_to_toml demo_from_toml (lit "config.toml") demo_settings demo_saves demo_world demo_toml_back) as H.
  destruct H as (c & Hc & Ht & _); [vm_compute; reflexivity|]. exists c. split; [exact Hc|]. split; [exact Ht|].
  vm_compute in Hc. injection Hc as <-. reflexivity.
Defined.

(** Two captures that differ in a digit of an identity which redaction clears. *)
Definition demo_stored (digit : Z) (k : FileKind) : result ErrorKind (option (list Z)) :=
  Ok (match k with Kind_Qmdl => Some [1; digit; 3] | Kind_Meta => Some [digit] | Kind_Analysis => Some [7] | Kind_Gps => None end).
Definition demo_redact (q : list Z) : option (list Z * unit) := Some (<[1%nat := 0]> q, tt).

Definition demo_recordings : RecordingStore :=
  mkStore [mkManifestEntry (lit "1700000000-0") 1700000000 None 3 None None None None None None true (Some (lit "walk")) None] None.

Lemma shared_bundle_redacted_witness : exists es,
  get_zip (fun _ => demo_stored 5) Some id demo_redact (fun _ => None) (fun _ => None) (fun _ => None) (fun _ => Some [8]) (fun _ => Some [9]) (lit "1") tt
    demo_recordings (lit "1700000000-0.zip") (Some (lit "a=b&redact=1")) 0 = Ok (lit "walk-1700000000-0-redacted.zip", es) /\
  get_zip (fun _ => demo_stored 6) Some id demo_redact (fun _ => None) (fun _ => None) (fun _ => None) (fun _ => Some [8]) (fun _ => Some [9]) (lit "1") tt
    demo_recordings (lit "1700000000-0.zip") (Some (lit "a=b&redact=1")) 0 = Ok (lit "walk-1700000000-0-redacted.zip", es) /\
  map snd es = [[7]; [1; 0; 3]; [8]; [9]].
Proof.
  eexists. split; [vm_compute; reflexivity|]. split; [|vm_compute; reflexivity].
  etransitivity; [apply (shared_bundle_redacted Some id demo_redact (fun _ => None) _ _ _ _ _ _ (fun _ => demo_stored 6) (fun _ => demo_stored 5));
    [vm_compute; reflexivity|]|vm_compute; reflexivity].
  intros _. split; [by exists [1; 6; 3], [1; 5; 3]|]. split; [by exists [6], [5]|]. done.
Defined.
