(* ===== verification/DiagRead.v ===== *)
(** * Reading diag messages ([lib/src/diag/mod.rs], [lib/src/diag/diaglog])

    [deku] derives the readers from the declarations: the fields in order, little-endian, [count] and [cond] from what was read
    before, the variant of an [enum] by its [id].  The declarations of whole bytes are translated here and
    give [Diag]'s interface.  The records that are bit fields ([bit_order = "lsb"]: [ml1.rs], [ll1.rs]) are read by
    the crate, which is an argument; so are its errors. *)

From S2P Require Import Prelude RustStr Deku Hdlc DiagLog Diag.

Local Open Scope Z_scope.

(** ** Readers *)

Definition Reader {D : Deku} (A : Type) : Type := list Z -> result DekuError (list Z * A).

(** A reader goes forward: it uses up a front of the input, and what follows does not matter. *)
Definition forward {D : Deku} {A : Type} (r : Reader A) : Prop :=
  forall input rest a, r input = Ok (rest, a) -> exists used, input = used ++ rest /\ forall more, r (used ++ more) = Ok (more, a).

(** What is the crate's: two errors, and the records of bit fields. *)
Class DekuRead {D : Deku} := {
  deku_incomplete : DekuError;
  deku_no_variant : DekuError;
  read_measurement_and_evaluation : Reader MeasurementAndEvaluation;
  read_measurements : Reader Measurements;
  read_serving_cell_timing : Reader ServingCellTiming;
  read_measurement_and_evaluation_forward : forward read_measurement_and_evaluation;
  read_measurements_forward : forward read_measurements;
  read_serving_cell_timing_forward : forward read_serving_cell_timing
}.

Section readers.
Context {D : Deku} {X : DekuRead}.

#[export] Instance Reader_ret : MRet Reader := fun A a input => Ok (input, a).
#[export] Instance Reader_bind : MBind Reader :=
  fun A B f r input => match r input with Ok (rest, a) => f a rest | Err e => Err e end.
Definition refuse {A : Type} (e : DekuError) : Reader A := fun _ => Err e.

Fixpoint bytes (n : nat) : Reader (list Z) :=
  match n with
  | O => mret []
  | S n => fun input => match input with
                        | [] => Err deku_incomplete
                        | b :: rest => match bytes n rest with Ok (rest, l) => Ok (rest, b :: l) | Err e => Err e end
                        end
  end.
Definition unsigned (n : nat) : Reader Z := l ← bytes n; mret (le_value l).
Definition u8 : Reader Z := unsigned 1.
Definition u16 : Reader Z := unsigned 2.
Definition u32 : Reader Z := unsigned 4.
Definition u64 : Reader Z := unsigned 8.
Definition u32_big : Reader Z := l ← bytes 4; mret (be_value l).
(** Two's complement. *)
Definition to_signed (w v : Z) : Z := if v <? 2 ^ (w - 1) then v else v - 2 ^ w.
Definition i8 : Reader Z := v ← u8; mret (to_signed 8 v).
Definition i16 : Reader Z := v ← u16; mret (to_signed 16 v).
(** [count = "n"]: of bytes, and of anything. *)
Definition counted (n : Z) : Reader (list Z) := bytes (Z.to_nat n).
Fixpoint many {A : Type} (n : nat) (r : Reader A) : Reader (list A) :=
  match n with O => mret [] | S n => a ← r; l ← many n r; mret (a :: l) end.
(** [assert_eq = "n"]. *)
Definition expect (n : Z) : Reader Z := v ← u8; if v =? n then mret v else refuse deku_assertion.

(** ** [diaglog/rrc.rs] *)

Definition read_rrc_packet (ext_header_version : Z) : Reader LteRrcOtaPacket :=
  if ext_header_version <=? 4 then
    rrc_rel_maj ← u8; rrc_rel_min ← u8; bearer_id ← u8; phy_cell_id ← u16; earfcn ← u16; sfn_subfn ← u16; pdu_num ← u8;
    len ← u16; packet ← counted len;
    mret (LteRrc_V0 rrc_rel_maj rrc_rel_min bearer_id phy_cell_id earfcn sfn_subfn pdu_num len packet)
  else if ext_header_version <=? 7 then
    rrc_rel_maj ← u8; rrc_rel_min ← u8; bearer_id ← u8; phy_cell_id ← u16; earfcn ← u16; sfn_subfn ← u16; pdu_num ← u8;
    sib_mask ← u32; len ← u16; packet ← counted len;
    mret (LteRrc_V5 rrc_rel_maj rrc_rel_min bearer_id phy_cell_id earfcn sfn_subfn pdu_num sib_mask len packet)
  else if ext_header_version <=? 24 then
    rrc_rel_maj ← u8; rrc_rel_min ← u8; bearer_id ← u8; phy_cell_id ← u16; earfcn ← u32; sfn_subfn ← u16; pdu_num ← u8;
    sib_mask ← u32; len ← u16; packet ← counted len;
    mret (LteRrc_V8 rrc_rel_maj rrc_rel_min bearer_id phy_cell_id earfcn sfn_subfn pdu_num sib_mask len packet)
  else
    rrc_rel_maj ← u8; rrc_rel_min ← u8; nr_rrc_rel_maj ← u8; nr_rrc_rel_min ← u8; bearer_id ← u8; phy_cell_id ← u16;
    earfcn ← u32; sfn_subfn ← u16; pdu_num ← u8; sib_mask ← u32; len ← u16; packet ← counted len;
    mret (LteRrc_V25 rrc_rel_maj rrc_rel_min nr_rrc_rel_maj nr_rrc_rel_min bearer_id phy_cell_id earfcn sfn_subfn pdu_num sib_mask len packet).

(** ** [diaglog/mac.rs] *)

Definition read_attempt_header (version : Z) : Reader AttemptHeader :=
  if version =? 0x02 then
    num_attempt ← u8; rach_result ← u8; contention ← u8; msg_bitmask ← u8;
    mret (AttemptHeader_V2 num_attempt rach_result contention msg_bitmask)
  else if bool_decide (version ∈ [0x03; 0x31; 0x32]) then
    sub_id ← u8; cell_id ← u8; num_attempt ← u8; rach_result ← u8; contention ← u8; msg_bitmask ← u8;
    mret (AttemptHeader_V3 sub_id cell_id num_attempt rach_result contention msg_bitmask)
  else refuse deku_no_variant.

Definition read_msg1 (version : Z) : Reader Msg1 :=
  if version =? 0x02 then
    preamble_index ← u8; preamble_index_mask ← u8; preamble_power_offset ← i16;
    mret (Msg1_V2 preamble_index preamble_index_mask preamble_power_offset)
  else if bool_decide (version ∈ [0x03; 0x31]) then
    preamble_index ← u8; preamble_index_mask ← u8; preamble_power_offset ← i16;
    mret (Msg1_V3Or31 preamble_index preamble_index_mask preamble_power_offset)
  else if version =? 0x32 then
    preamble_index ← u8; preamble_index_mask ← u8; preamble_power_offset ← i16; unk1 ← u16; group ← i8;
    mret (Msg1_V32 preamble_index preamble_index_mask preamble_power_offset unk1 group)
  else refuse deku_no_variant.

Definition read_msg2 : Reader Msg2 := backoff ← u16; result ← u8; tc_rnti ← u16; ta ← u16; mret (Build_Msg2 backoff result tc_rnti ta).

Definition read_msg3_grant (version : Z) : Reader Msg3Grant :=
  if version <? 0x32 then grant ← u32; mret (Msg3Grant_V1 (map_grant grant))
  else grant ← u32_big; mret (Msg3Grant_V32 (map_grant grant)).

Definition read_msg3 (version : Z) : Reader Msg3 :=
  grant ← read_msg3_grant version; unk_grant ← u16; harq_id ← u8; mac_pdu ← bytes 10; mret (Build_Msg3 grant unk_grant harq_id mac_pdu).

Definition read_additional_info : Reader AdditionalInfo :=
  ul_earfcn ← u32; p_max ← u8; scell_id ← u8; unk1 ← u32; unk2 ← u32; mret (Build_AdditionalInfo ul_earfcn p_max scell_id unk1 unk2).

Definition read_attempt (version : Z) : Reader Attempt :=
  header ← read_attempt_header version; msg1 ← read_msg1 version; msg2 ← read_msg2; msg3 ← read_msg3 version;
  additional_info ← (if bool_decide (version ∈ [0x31; 0x32]) then i ← read_additional_info; mret (Some i) else mret None);
  mret (Build_Attempt header msg1 msg2 msg3 additional_info).

Definition read_dl_block (version : Z) : Reader DlBlock :=
  if version =? 0x02 then
    sfn_subfn ← u16; rnti_type ← u8; harq_id ← u8; pmch_id ← u16; dl_tbs ← u16; rlc_pdus ← u8; padding ← u16;
    header_len ← u8; mac_header ← counted header_len;
    mret (DlBlock_V2 sfn_subfn rnti_type harq_id pmch_id dl_tbs rlc_pdus padding header_len mac_header)
  else if version =? 0x04 then
    sub_id ← u8; cell_id ← u8; sfn_subfn ← u16; rnti_type ← u8; harq_id ← u8; pmch_id ← u16; dl_tbs ← u16; rlc_pdus ← u8;
    padding ← u16; header_len ← u8; mac_header ← counted header_len;
    mret (DlBlock_V4 sub_id cell_id sfn_subfn rnti_type harq_id pmch_id dl_tbs rlc_pdus padding header_len mac_header)
  else refuse deku_no_variant.
Definition read_dl_blocks (version : Z) : Reader DlBlocks :=
  num_samples ← u8; samples ← many (Z.to_nat num_samples) (read_dl_block version); mret (Build_DlBlocks num_samples samples).

Definition read_ul_block (version : Z) : Reader UlBlock :=
  if version =? 0x01 then
    harq_id ← u8; rnti_type ← u8; sfn_subfn ← u16; grant ← u16; rlc_pdus ← u8; padding ← u16; bsr_event ← u8; bsr_trig ← u8;
    header_len ← u8; mac_header ← counted header_len;
    mret (UlBlock_V1 harq_id rnti_type sfn_subfn grant rlc_pdus padding bsr_event bsr_trig header_len mac_header)
  else if bool_decide (version ∈ [0x02; 0x03; 0x05; 0x08]) then
    sub_id ← u8; cell_id ← u8; harq_id ← u8; rnti_type ← u8; sfn_subfn ← u16; grant ← u16; rlc_pdus ← u8; padding ← u16;
    bsr_event ← u8; bsr_trig ← u8; header_len ← u8; mac_header ← counted header_len;
    mret (UlBlock_V2 sub_id cell_id harq_id rnti_type sfn_subfn grant rlc_pdus padding bsr_event bsr_trig header_len mac_header)
  else refuse deku_no_variant.
Definition read_ul_blocks (version : Z) : Reader UlBlocks :=
  num_samples ← u8; samples ← many (Z.to_nat num_samples) (read_ul_block version); mret (Build_UlBlocks num_samples samples).

Definition read_subpacket_body (id version size : Z) : Reader SubpacketBody :=
  if id =? 0x06 then a ← read_attempt version; mret (RachAttempt a)
  else if id =? 0x07 then b ← read_dl_blocks version; mret (DlTransportBlock b)
  else if id =? 0x08 then b ← read_ul_blocks version; mret (UlTransportBlock b)
  else data ← counted size; mret (SubpacketOther data).
(** [*size - 4] wraps in a release build. *)
Definition read_subpacket : Reader Subpacket :=
  id ← u8; version ← u8; size ← u16; body ← read_subpacket_body id version (wrapu 16 (size - 4)); mret (Build_Subpacket id version size body).
Definition read_mac_packet : Reader MacPacket :=
  version ← expect 1; num_subpackets ← u8; _ ← bytes 2; subpackets ← many (Z.to_nat num_subpackets) read_subpacket;
  mret (Build_MacPacket version num_subpackets subpackets).

(** ** [diaglog/mod.rs] *)

Definition read_direction (log_type : Z) : Reader Nas4GMessageDirection :=
  if bool_decide (log_type ∈ [0xb0e2; 0xb0ec]) then mret Downlink
  else if bool_decide (log_type ∈ [0xb0e3; 0xb0ed]) then mret Uplink
  else refuse deku_no_variant.

Definition read_timestamp : Reader Timestamp := ts ← u64; mret (Build_Timestamp ts).

Definition read_log_body (log_type hdr_len : Z) : Reader LogBody :=
  if log_type =? 0x412f then
    channel_type ← u8; radio_bearer ← u8; length ← u16; msg ← counted length; mret (WcdmaSignallingMessage channel_type radio_bearer length msg)
  else if log_type =? 0x512f then
    channel_type ← u8; message_type ← u8; length ← u8; msg ← counted length; mret (GsmRrSignallingMessage channel_type message_type length msg)
  else if log_type =? 0x5226 then
    channel_type ← u8; message_type ← u8; length ← u8; msg ← counted length; mret (GprsMacSignallingMessage channel_type message_type length msg)
  else if log_type =? 0xb0c0 then
    ext_header_version ← u8; packet ← read_rrc_packet ext_header_version; mret (LteRrcOtaMessage ext_header_version packet)
  else if bool_decide (log_type ∈ [0xb0e2; 0xb0e3; 0xb0ec; 0xb0ed]) then
    direction ← read_direction log_type; ext_header_version ← u8; rrc_rel ← u8; rrc_version_minor ← u8; rrc_version_major ← u8;
    msg ← counted (sat_subu hdr_len 4);
    mret (Nas4GMessage log_type direction ext_header_version rrc_rel rrc_version_minor rrc_version_major msg)
  else if log_type =? 0x11eb then msg ← counted (sat_subu hdr_len 8); mret (IpTraffic msg)
  else if log_type =? 0x713a then is_uplink ← u8; length ← u32; msg ← counted length; mret (UmtsNasOtaMessage is_uplink length msg)
  else if log_type =? 0xb821 then msg ← counted hdr_len; mret (NrRrcOtaMessage msg)
  else if log_type =? 0xb17f then data ← read_measurement_and_evaluation; mret (LteMl1ServingCellMeasurementAndEvaluation data)
  else if log_type =? 0xb180 then data ← read_measurements; mret (LteMl1NeighborCellsMeasurements data)
  else if log_type =? 0xb062 then packet ← read_mac_packet; mret (LteMacRachResponse packet)
  else if log_type =? 0xb063 then packet ← read_mac_packet; mret (LteMacDl packet)
  else if log_type =? 0xb064 then packet ← read_mac_packet; mret (LteMacUl packet)
  else if log_type =? 0xb114 then data ← read_serving_cell_timing; mret (LteLl1ServingCellTiming data)
  else refuse deku_no_variant.

(** ** [diag/mod.rs] *)

Definition read_log_config_response (subopcode : Z) : Reader LogConfigResponse :=
  if subopcode =? 1 then log_mask_sizes ← many 16 u32; mret (RetrieveIdRangesResponse log_mask_sizes)
  else if subopcode =? 3 then mret SetMaskResponse
  else refuse deku_no_variant.
Definition read_response_payload (opcode subopcode : Z) : Reader ResponsePayload :=
  if opcode =? 115 then r ← read_log_config_response subopcode; mret (LogConfigPayload r) else refuse deku_no_variant.

Definition read_message : Reader Message :=
  id ← u8;
  if id =? 16 then
    pending_msgs ← u8; outer_length ← u16; inner_length ← u16; log_type ← u16; timestamp ← read_timestamp;
    body ← read_log_body log_type (sat_subu inner_length 12);
    mret (Log pending_msgs outer_length inner_length log_type timestamp body)
  else
    opcode2 ← u8; opcode3 ← u8; opcode4 ← u8; subopcode ← u32; status ← u32;
    payload ← read_response_payload (le_value [id; opcode2; opcode3; opcode4]) subopcode;
    mret (Response id opcode2 opcode3 opcode4 subopcode status payload).

Definition derived_reader : DiagReader := {| message_from_bytes := read_message |}.
End readers.

(** ** What is read has the declared types

    Every field is within its width, and a list has as many elements as its count says. *)

Definition all_u (w : Z) (l : list Z) : Prop := Forall (in_u w) l.
Definition is_i (w z : Z) : Prop := - 2 ^ (w - 1) <= z < 2 ^ (w - 1).
(** [n] bytes. *)
Definition sized (n : Z) (l : list Z) : Prop := Z.of_nat (length l) = n /\ bytes_ok l.

Definition rrc_typed (version : Z) (p : LteRrcOtaPacket) : Prop :=
  match p with
  | LteRrc_V0 maj min bearer pci earfcn sfn pdu len packet =>
      version <= 4 /\ all_u 8 [maj; min; bearer; pdu] /\ all_u 16 [pci; earfcn; sfn; len] /\ sized len packet
  | LteRrc_V5 maj min bearer pci earfcn sfn pdu mask len packet =>
      5 <= version <= 7 /\ all_u 8 [maj; min; bearer; pdu] /\ all_u 16 [pci; earfcn; sfn; len] /\ is_u32 mask /\ sized len packet
  | LteRrc_V8 maj min bearer pci earfcn sfn pdu mask len packet =>
      8 <= version <= 24 /\ all_u 8 [maj; min; bearer; pdu] /\ all_u 16 [pci; sfn; len] /\ all_u 32 [earfcn; mask] /\ sized len packet
  | LteRrc_V25 maj min nr_maj nr_min bearer pci earfcn sfn pdu mask len packet =>
      25 <= version /\ all_u 8 [maj; min; nr_maj; nr_min; bearer; pdu] /\ all_u 16 [pci; sfn; len] /\ all_u 32 [earfcn; mask] /\ sized len packet
  end.

Definition attempt_header_typed (version : Z) (h : AttemptHeader) : Prop :=
  match h with
  | AttemptHeader_V2 a b c d => version = 2 /\ all_u 8 [a; b; c; d]
  | AttemptHeader_V3 a b c d e f => version ∈ [0x03; 0x31; 0x32] /\ all_u 8 [a; b; c; d; e; f]
  end.
Definition msg1_typed (version : Z) (m : Msg1) : Prop :=
  match m with
  | Msg1_V2 index mask offset => version = 2 /\ all_u 8 [index; mask] /\ is_i 16 offset
  | Msg1_V3Or31 index mask offset => version ∈ [0x03; 0x31] /\ all_u 8 [index; mask] /\ is_i 16 offset
  | Msg1_V32 index mask offset unk1 group => version = 0x32 /\ all_u 8 [index; mask] /\ is_i 16 offset /\ is_u16 unk1 /\ is_i 8 group
  end.
Definition msg2_typed (m : Msg2) : Prop := all_u 16 [backoff m; tc_rnti m; ta m] /\ is_u8 (msg2_result m).
(** The grant keeps twenty bits. *)
Definition grant_typed (version : Z) (g : Msg3Grant) : Prop :=
  match g with Msg3Grant_V1 v => version < 0x32 /\ in_u 20 v | Msg3Grant_V32 v => 0x32 <= version /\ in_u 20 v end.
Definition msg3_typed (version : Z) (m : Msg3) : Prop :=
  grant_typed version (grant m) /\ is_u16 (unk_grant m) /\ is_u8 (msg3_harq_id m) /\ sized 10 (mac_pdu m).
Definition additional_typed (i : AdditionalInfo) : Prop := all_u 32 [ul_earfcn i; unk1 i; unk2 i] /\ all_u 8 [p_max i; scell_id i].
Definition attempt_typed (version : Z) (a : Attempt) : Prop :=
  attempt_header_typed version (attempt_header a) /\ msg1_typed version (msg1 a) /\ msg2_typed (msg2 a) /\ msg3_typed version (msg3 a) /\
  match additional_info a with Some i => version ∈ [0x31; 0x32] /\ additional_typed i | None => (version ∉ [0x31; 0x32]) end.

Definition dl_typed (version : Z) (b : DlBlock) : Prop :=
  match b with
  | DlBlock_V2 sfn rnti harq pmch tbs pdus padding len header =>
      version = 2 /\ all_u 16 [sfn; pmch; tbs; padding] /\ all_u 8 [rnti; harq; pdus; len] /\ sized len header
  | DlBlock_V4 sub cell sfn rnti harq pmch tbs pdus padding len header =>
      version = 4 /\ all_u 16 [sfn; pmch; tbs; padding] /\ all_u 8 [sub; cell; rnti; harq; pdus; len] /\ sized len header
  end.
Definition ul_typed (version : Z) (b : UlBlock) : Prop :=
  match b with
  | UlBlock_V1 harq rnti sfn grant pdus padding event trig len header =>
      version = 1 /\ all_u 16 [sfn; grant; padding] /\ all_u 8 [harq; rnti; pdus; event; trig; len] /\ sized len header
  | UlBlock_V2 sub cell harq rnti sfn grant pdus padding event trig len header =>
      version ∈ [2; 3; 5; 8] /\ all_u 16 [sfn; grant; padding] /\ all_u 8 [sub; cell; harq; rnti; pdus; event; trig; len] /\ sized len header
  end.
(** A count, and as many elements. *)
Definition listed {A : Type} (P : A -> Prop) (n : Z) (l : list A) : Prop := is_u8 n /\ Z.of_nat (length l) = n /\ Forall P l.

Definition subpacket_body_typed (id version size : Z) (b : SubpacketBody) : Prop :=
  match b with
  | RachAttempt a => id = 6 /\ attempt_typed version a
  | DlTransportBlock b => id = 7 /\ listed (dl_typed version) (dl_num_samples b) (dl_samples b)
  | UlTransportBlock b => id = 8 /\ listed (ul_typed version) (ul_num_samples b) (ul_samples b)
  | SubpacketOther data => (id ∉ [6; 7; 8]) /\ sized size data
  end.
Definition subpacket_typed (s : Subpacket) : Prop :=
  all_u 8 [sub_id s; sub_version s] /\ is_u16 (sub_size s) /\ subpacket_body_typed (sub_id s) (sub_version s) (wrapu 16 (sub_size s - 4)) (sub_body s).
Definition mac_typed (p : MacPacket) : Prop := mac_version p = 1 /\ listed subpacket_typed (num_subpackets p) (subpackets p).

Definition body_typed (log_type hdr_len : Z) (b : LogBody) : Prop :=
  match b with
  | WcdmaSignallingMessage channel bearer len msg => log_type = 0x412f /\ all_u 8 [channel; bearer] /\ is_u16 len /\ sized len msg
  | GsmRrSignallingMessage channel ty len msg => log_type = 0x512f /\ all_u 8 [channel; ty; len] /\ sized len msg
  | GprsMacSignallingMessage channel ty len msg => log_type = 0x5226 /\ all_u 8 [channel; ty; len] /\ sized len msg
  | LteRrcOtaMessage version packet => log_type = 0xb0c0 /\ is_u8 version /\ rrc_typed version packet
  | Nas4GMessage ty direction version rel minor major msg =>
      ty = log_type /\ (direction = Downlink /\ log_type ∈ [0xb0e2; 0xb0ec] \/ direction = Uplink /\ log_type ∈ [0xb0e3; 0xb0ed]) /\
      all_u 8 [version; rel; minor; major] /\ sized (sat_subu hdr_len 4) msg
  | IpTraffic msg => log_type = 0x11eb /\ sized (sat_subu hdr_len 8) msg
  | UmtsNasOtaMessage is_uplink len msg => log_type = 0x713a /\ is_u8 is_uplink /\ is_u32 len /\ sized len msg
  | NrRrcOtaMessage msg => log_type = 0xb821 /\ sized hdr_len msg
  | LteMl1ServingCellMeasurementAndEvaluation _ => log_type = 0xb17f
  | LteMl1NeighborCellsMeasurements _ => log_type = 0xb180
  | LteMacRachResponse packet => log_type = 0xb062 /\ mac_typed packet
  | LteMacDl packet => log_type = 0xb063 /\ mac_typed packet
  | LteMacUl packet => log_type = 0xb064 /\ mac_typed packet
  | LteLl1ServingCellTiming _ => log_type = 0xb114
  end.

Definition message_typed (m : Message) : Prop :=
  match m with
  | Log pending outer inner log_type timestamp body =>
      is_u8 pending /\ all_u 16 [outer; inner; log_type] /\ is_u64 (ts timestamp) /\ body_typed log_type (sat_subu inner 12) body
  | Response o1 o2 o3 o4 subopcode status payload =>
      all_u 8 [o1; o2; o3; o4] /\ o1 = 115 /\ o2 = 0 /\ o3 = 0 /\ o4 = 0 /\ all_u 32 [subopcode; status] /\
      match payload with
      | LogConfigPayload (RetrieveIdRangesResponse sizes) => subopcode = 1 /\ length sizes = 16%nat /\ all_u 32 sizes
      | LogConfigPayload SetMaskResponse => subopcode = 3
      end
  end.

(** ** The rules of readers *)

Section rules.
Context {D : Deku} {X : DekuRead}.

Lemma forward_ret {A} (a : A) : forward (mret a : Reader A).
Proof. intros input rest b [= <- <-]. by exists []. Qed.
Lemma forward_refuse {A} e : forward (refuse e : Reader A).
Proof. by intros input rest a. Qed.
Lemma forward_bind {A B} (r : Reader A) (f : A -> Reader B) : forward r -> (forall a, forward (f a)) -> forward (r ≫= f).
Proof.
  intros Hr Hf input rest b. unfold mbind, Reader_bind. destruct (r input) as [[mid a]|] eqn:E; [|done]. intros Hb.
  destruct (Hr _ _ _ E) as (u & -> & Hu). destruct (Hf _ _ _ _ Hb) as (v & -> & Hv). exists (u ++ v). split; [by rewrite app_assoc|].
  intros more. by rewrite <- app_assoc, Hu, Hv.
Qed.
Lemma forward_if {A} (b : bool) (r s : Reader A) : forward r -> forward s -> forward (if b then r else s).
Proof. by destruct b. Qed.
Lemma bytes_spec n input rest l : bytes n input = Ok (rest, l) <-> input = l ++ rest /\ length l = n.
Proof.
  revert input rest l. induction n as [|n IH]; intros input rest l; cbn [bytes].
  - split; [by intros [= <- <-]|]. intros [-> Hl]. by destruct l.
  - destruct input as [|b input]; [split; [done|intros [H Hl]; by destruct l]|].
    destruct (bytes n input) as [[r' l']|] eqn:E.
    + apply IH in E as [-> Hl]. split; [intros [= <- <-]; cbn; by split; [|lia]|]. intros [H Hn]. destruct l as [|c l]; [done|].
      injection H as <- H. cbn in Hn. apply app_inj_1 in H as [-> ->]; [done|lia].
    + split; [done|]. intros [H Hn]. destruct l as [|c l]; [done|]. injection H as <- ->. cbn in Hn.
      assert (Ha : bytes n (l ++ rest) = Ok (rest, l)) by (apply IH; split; [done|lia]). by rewrite Ha in E.
Qed.
Lemma forward_bytes n : forward (bytes n).
Proof. intros input rest l [-> Hn]%bytes_spec. exists l. split; [done|]. intros more. by apply bytes_spec. Qed.
Lemma forward_many {A} n (r : Reader A) : forward r -> forward (many n r).
Proof. intros Hr. induction n as [|n IH]; [apply forward_ret|]. apply forward_bind; [done|]. intros a. apply forward_bind; [done|]. intros l. apply forward_ret. Qed.

(** [gives P r]: from bytes, what [r] reads satisfies [P]. *)
Definition gives {A : Type} (P : A -> Prop) (r : Reader A) : Prop :=
  forall input rest a, bytes_ok input -> r input = Ok (rest, a) -> P a /\ bytes_ok rest.

Lemma gives_ret {A} (P : A -> Prop) a : P a -> gives P (mret a : Reader A).
Proof. by intros HP input rest b Hok [= <- <-]. Qed.
Lemma gives_refuse {A} (P : A -> Prop) e : gives P (refuse e : Reader A).
Proof. by intros input rest a. Qed.
(** The rule by which every record is read. *)
Lemma gives_bind {A B} (Q : A -> Prop) (P : B -> Prop) (r : Reader A) (f : A -> Reader B) :
  gives Q r -> (forall a, Q a -> gives P (f a)) -> gives P (r ≫= f).
Proof.
  intros Hr Hf input rest b Hok. unfold mbind, Reader_bind. destruct (r input) as [[mid a]|] eqn:E; [|done].
  destruct (Hr _ _ _ Hok E) as [Ha Hmid]. by apply (Hf a Ha).
Qed.
Lemma gives_weaken {A} (P Q : A -> Prop) r : gives P r -> (forall a, P a -> Q a) -> gives Q r.
Proof. intros HP HPQ input rest a Hok H. destruct (HP _ _ _ Hok H). auto. Qed.
(** What a reader of the crate's leaves is a rest of the input. *)
Lemma gives_forward {A} (r : Reader A) : forward r -> gives (fun _ => True) r.
Proof. intros Hf input rest a Hok H. destruct (Hf _ _ _ H) as (u & -> & _). split; [done|]. by apply Forall_app in Hok as [_ ?]. Qed.

Lemma gives_bytes n : gives (sized (Z.of_nat n)) (bytes n).
Proof. intros input rest l Hok H. apply bytes_spec in H as [-> Hl]. apply Forall_app in Hok as [? ?]. by rewrite <- Hl. Qed.
Lemma gives_counted n : 0 <= n -> gives (sized n) (counted n).
Proof. intros Hn. rewrite <- (Z2Nat.id n Hn) at 1. apply gives_bytes. Qed.
Lemma le_value_range l : bytes_ok l -> in_u (8 * Z.of_nat (length l)) (le_value l).
Proof.
  induction 1 as [|b l Hb _ IH]; [unfold in_u; cbn; lia|]. cbn [le_value length]. unfold in_u in *.
  replace (8 * Z.of_nat (S (length l))) with (8 + 8 * Z.of_nat (length l)) by lia. rewrite Z.pow_add_r by lia. lia.
Qed.
Lemma gives_unsigned n : gives (in_u (8 * Z.of_nat n)) (unsigned n).
Proof. eapply gives_bind; [apply gives_bytes|]. intros l [<- Hl]. apply gives_ret. by apply le_value_range. Qed.
Lemma gives_u8 : gives is_u8 u8. Proof. apply (gives_unsigned 1). Qed.
Lemma gives_u16 : gives is_u16 u16. Proof. apply (gives_unsigned 2). Qed.
Lemma gives_u32 : gives is_u32 u32. Proof. apply (gives_unsigned 4). Qed.
Lemma gives_u64 : gives is_u64 u64. Proof. apply (gives_unsigned 8). Qed.
Lemma gives_u32_big : gives is_u32 u32_big.
Proof.
  eapply gives_bind; [apply gives_bytes|]. intros l [Hn Hl]. apply gives_ret. unfold be_value.
  assert (Hr : bytes_ok (rev l)) by (by apply Forall_rev). pose proof (le_value_range (rev l) Hr) as H. rewrite length_rev, Hn in H. exact H.
Qed.
Lemma to_signed_range w v : 0 < w -> in_u w v -> is_i w (to_signed w v).
Proof.
  intros Hw Hv. unfold is_i, to_signed, in_u in *. assert (2 ^ w = 2 * 2 ^ (w - 1)) by (rewrite <- Z.pow_succ_r by lia; f_equal; lia).
  destruct (Z.ltb_spec v (2 ^ (w - 1))); lia.
Qed.
Lemma gives_i8 : gives (is_i 8) i8.
Proof. eapply gives_bind; [apply gives_u8|]. intros v Hv. by apply gives_ret, to_signed_range. Qed.
Lemma gives_i16 : gives (is_i 16) i16.
Proof. eapply gives_bind; [apply gives_u16|]. intros v Hv. by apply gives_ret, to_signed_range. Qed.
Lemma gives_expect n : gives (fun v => v = n) (expect n).
Proof. eapply gives_bind; [apply gives_u8|]. intros v _. destruct (Z.eqb_spec v n); [by apply gives_ret|apply gives_refuse]. Qed.
Lemma gives_many {A} (P : A -> Prop) n (r : Reader A) : gives P r -> gives (fun l => length l = n /\ Forall P l) (many n r).
Proof.
  intros Hr. induction n as [|n IH]; [by apply gives_ret|]. cbn [many]. eapply gives_bind; [exact Hr|]. intros a Ha.
  eapply gives_bind; [exact IH|]. intros l [Hl HP]. apply gives_ret. cbn. by split; [lia|constructor].
Qed.
(** A count and its elements. *)
Lemma gives_listed {A B} (P : A -> Prop) (Q : B -> Prop) (r : Reader A) (f : Z -> list A -> B) :
  gives P r -> (forall n l, listed P n l -> Q (f n l)) -> gives Q (n ← u8; l ← many (Z.to_nat n) r; mret (f n l)).
Proof.
  intros Hr HQ. eapply gives_bind; [apply gives_u8|]. intros n Hn. eapply gives_bind; [by apply gives_many|]. intros l [Hl HP].
  apply gives_ret, HQ. split; [done|]. split; [unfold in_u in Hn; lia|done].
Qed.
End rules.

Create HintDb readers.
#[export] Hint Resolve forward_ret forward_refuse forward_bytes forward_many
  read_measurement_and_evaluation_forward read_measurements_forward read_serving_cell_timing_forward : readers.
#[export] Hint Resolve gives_refuse gives_u8 gives_u16 gives_u32 gives_u64 gives_u32_big gives_i8 gives_i16 gives_expect : readers.

(** Walk over a reader: that it goes forward, and what it gives. *)
Ltac forwards := repeat first [apply forward_bind; [|intros ?] | apply forward_if | solve [eauto with readers]].
Ltac fields := unfold all_u, listed in *; try split_and!; repeat first [done | solve [unfold in_u in *; lia] | apply Forall_cons_2 | apply Forall_nil_2].
Ltac reads := repeat first [solve [eauto with readers] | eapply gives_bind; [first [solve [eauto with readers] | apply gives_counted; unfold in_u, sat_subu in *; lia]|intros ??] | apply gives_ret; cbn; solve [fields]].

Section typed.
Context {D : Deku} {X : DekuRead}.

Lemma rrc_packet_typed version : is_u8 version -> gives (rrc_typed version) (read_rrc_packet version).
Proof.
  intros Hv. unfold read_rrc_packet. destruct (Z.leb_spec version 4); [reads|]. destruct (Z.leb_spec version 7); [reads|]. destruct (Z.leb_spec version 24); reads.
Qed.
Lemma attempt_header_gives version : gives (attempt_header_typed version) (read_attempt_header version).
Proof. unfold read_attempt_header. destruct (Z.eqb_spec version 2); [reads|]. case_bool_decide; reads. Qed.
Lemma msg1_gives version : gives (msg1_typed version) (read_msg1 version).
Proof.
  unfold read_msg1. destruct (Z.eqb_spec version 2); [reads|]. case_bool_decide; [reads|]. destruct (Z.eqb_spec version 0x32); reads.
Qed.
Lemma msg2_gives : gives msg2_typed read_msg2.
Proof. unfold read_msg2. reads. Qed.
Lemma map_grant_range v : 0 <= v -> in_u 20 (map_grant v).
Proof. intros Hv. unfold map_grant, in_u. change 0xfffff with (Z.ones 20). rewrite Z.land_ones by lia. apply Z.mod_pos_bound. lia. Qed.
Lemma msg3_grant_gives version : gives (grant_typed version) (read_msg3_grant version).
Proof.
  unfold read_msg3_grant. destruct (Z.ltb_spec version 0x32); (eapply gives_bind; [solve [eauto with readers]|]; intros v [Hv _]);
    apply gives_ret; (split; [done|by apply map_grant_range]).
Qed.
Lemma msg3_gives version : gives (msg3_typed version) (read_msg3 version).
Proof.
  unfold read_msg3. eapply gives_bind; [apply msg3_grant_gives|]. intros g Hg. do 2 (eapply gives_bind; [solve [eauto with readers]|intros ??]).
  eapply gives_bind; [apply (gives_bytes 10)|]. intros pdu Hpdu. by apply gives_ret.
Qed.
Lemma additional_info_gives : gives additional_typed read_additional_info.
Proof. unfold read_additional_info. reads. Qed.
Lemma attempt_gives version : gives (attempt_typed version) (read_attempt version).
Proof.
  unfold read_attempt. eapply gives_bind; [apply attempt_header_gives|]. intros h Hh. eapply gives_bind; [apply msg1_gives|]. intros m1 H1.
  eapply gives_bind; [apply msg2_gives|]. intros m2 H2. eapply gives_bind; [apply msg3_gives|]. intros m3 H3.
  eapply (gives_bind (fun i : option AdditionalInfo => match i with Some i => version ∈ [0x31; 0x32] /\ additional_typed i | None => (version ∉ [0x31; 0x32]) end)).
  - case_bool_decide; [|by apply gives_ret]. eapply gives_bind; [apply additional_info_gives|]. intros i Hi. by apply gives_ret.
  - intros i Hi. by apply gives_ret.
Qed.
Lemma dl_block_gives version : gives (dl_typed version) (read_dl_block version).
Proof. unfold read_dl_block. destruct (Z.eqb_spec version 2); [reads|]. destruct (Z.eqb_spec version 4); reads. Qed.
Lemma ul_block_gives version : gives (ul_typed version) (read_ul_block version).
Proof. unfold read_ul_block. destruct (Z.eqb_spec version 1); [reads|]. case_bool_decide; reads. Qed.
Lemma subpacket_body_gives id version size : 0 <= size -> gives (subpacket_body_typed id version size) (read_subpacket_body id version size).
Proof.
  intros Hs. unfold read_subpacket_body. destruct (Z.eqb_spec id 6) as [->|H6].
  { eapply gives_bind; [apply attempt_gives|]. intros a Ha. by apply gives_ret. }
  destruct (Z.eqb_spec id 7) as [->|H7].
  { eapply gives_bind; [apply (gives_listed (dl_typed version) (fun b => listed (dl_typed version) (dl_num_samples b) (dl_samples b))); [apply dl_block_gives|done]|].
    intros b Hb. by apply gives_ret. }
  destruct (Z.eqb_spec id 8) as [->|H8].
  { eapply gives_bind; [apply (gives_listed (ul_typed version) (fun b => listed (ul_typed version) (ul_num_samples b) (ul_samples b))); [apply ul_block_gives|done]|].
    intros b Hb. by apply gives_ret. }
  eapply gives_bind; [by apply gives_counted|]. intros data Hd. apply gives_ret. split; [set_solver|done].
Qed.
Lemma subpacket_gives : gives subpacket_typed read_subpacket.
Proof.
  unfold read_subpacket. do 3 (eapply gives_bind; [solve [eauto with readers]|intros ??]).
  eapply gives_bind; [apply subpacket_body_gives; apply wrapu_in_u; lia|]. intros b Hb. apply gives_ret. unfold subpacket_typed. cbn. fields.
Qed.
Lemma mac_packet_gives : gives mac_typed read_mac_packet.
Proof.
  unfold read_mac_packet. eapply gives_bind; [apply gives_expect|]. intros v ->. eapply gives_bind; [apply gives_u8|]. intros n Hn.
  eapply gives_bind; [apply gives_bytes|]. intros pad _. eapply gives_bind; [apply gives_many, subpacket_gives|]. intros l [Hl HP].
  apply gives_ret. split; [done|]. split; [done|]. split; [|done]. cbn. unfold in_u in Hn. lia.
Qed.
Lemma timestamp_gives : gives (fun t => is_u64 (ts t)) read_timestamp.
Proof. unfold read_timestamp. reads. Qed.
Lemma direction_gives log_type :
  gives (fun d => d = Downlink /\ log_type ∈ [0xb0e2; 0xb0ec] \/ d = Uplink /\ log_type ∈ [0xb0e3; 0xb0ed]) (read_direction log_type).
Proof. unfold read_direction. case_bool_decide; [apply gives_ret; by left|]. case_bool_decide; [apply gives_ret; by right|apply gives_refuse]. Qed.
#[local] Hint Resolve rrc_packet_typed mac_packet_gives direction_gives : readers.
(** The records of bit fields. *)
Lemma bit_fields_give :
  gives (fun _ => True) read_measurement_and_evaluation /\ gives (fun _ => True) read_measurements /\ gives (fun _ => True) read_serving_cell_timing.
Proof. split_and!; apply gives_forward; auto with readers. Qed.
#[local] Hint Extern 1 (gives _ read_measurement_and_evaluation) => apply bit_fields_give : readers.
#[local] Hint Extern 1 (gives _ read_measurements) => apply bit_fields_give : readers.
#[local] Hint Extern 1 (gives _ read_serving_cell_timing) => apply bit_fields_give : readers.

Lemma log_body_gives log_type hdr_len : 0 <= hdr_len -> gives (body_typed log_type hdr_len) (read_log_body log_type hdr_len).
Proof.
  intros Hh. unfold read_log_body.
  repeat match goal with
  | |- gives _ (if log_type =? ?n then _ else _) => destruct (Z.eqb_spec log_type n) as [->|_]; [reads|]
  | |- gives _ (if bool_decide _ then _ else _) => case_bool_decide; [reads|]
  end. apply gives_refuse.
Qed.
Lemma log_config_response_gives subopcode : gives (fun r => match r with
    | RetrieveIdRangesResponse sizes => subopcode = 1 /\ length sizes = 16%nat /\ all_u 32 sizes
    | SetMaskResponse => subopcode = 3 end) (read_log_config_response subopcode).
Proof.
  unfold read_log_config_response. destruct (Z.eqb_spec subopcode 1).
  - eapply gives_bind; [apply gives_many, gives_u32|]. intros l Hl. by apply gives_ret.
  - destruct (Z.eqb_spec subopcode 3); [by apply gives_ret|apply gives_refuse].
Qed.
#[local] Hint Resolve timestamp_gives : readers.

Lemma response_payload_gives o1 o2 o3 o4 subopcode : all_u 8 [o1; o2; o3; o4] ->
  gives (fun p => (o1 = 115 /\ o2 = 0 /\ o3 = 0 /\ o4 = 0) /\ match p with
    | LogConfigPayload (RetrieveIdRangesResponse sizes) => subopcode = 1 /\ length sizes = 16%nat /\ all_u 32 sizes
    | LogConfigPayload SetMaskResponse => subopcode = 3 end) (read_response_payload (le_value [o1; o2; o3; o4]) subopcode).
Proof.
  unfold all_u, in_u. rewrite !Forall_cons. intros (H1 & H2 & H3 & H4 & _). unfold read_response_payload. cbn [le_value].
  destruct (Z.eqb_spec (o1 + 256 * (o2 + 256 * (o3 + 256 * (o4 + 256 * 0)))) 115) as [Ho|]; [|apply gives_refuse].
  eapply gives_bind; [apply log_config_response_gives|]. intros r Hr. apply gives_ret. split; [lia|]. by destruct r.
Qed.

Lemma message_gives : gives message_typed read_message.
Proof.
  unfold read_message. eapply gives_bind; [apply gives_u8|]. intros id Hid. destruct (id =? 16).
  - do 5 (eapply gives_bind; [solve [eauto with readers]|intros ? ?]).
    eapply gives_bind; [apply log_body_gives; unfold sat_subu; lia|]. intros body Hbody. apply gives_ret. unfold message_typed. fields.
  - do 5 (eapply gives_bind; [solve [eauto with readers]|intros ? ?]).
    eapply gives_bind; [apply response_payload_gives; fields|]. intros p [(-> & -> & -> & ->) Hp]. apply gives_ret. unfold message_typed.
    destruct p as [[sizes|]]; fields; apply Hp.
Qed.

(** ** Readers go forward *)

Lemma unsigned_forward n : forward (unsigned n). Proof. unfold unsigned. forwards. Qed.
#[local] Hint Resolve unsigned_forward : readers.
Lemma u8_forward : forward u8. Proof. apply unsigned_forward. Qed.
Lemma u16_forward : forward u16. Proof. apply unsigned_forward. Qed.
Lemma u32_forward : forward u32. Proof. apply unsigned_forward. Qed.
Lemma u64_forward : forward u64. Proof. apply unsigned_forward. Qed.
Lemma u32_big_forward : forward u32_big. Proof. unfold u32_big. forwards. Qed.
Lemma counted_forward n : forward (counted n). Proof. apply forward_bytes. Qed.
#[local] Hint Resolve u8_forward u16_forward u32_forward u64_forward u32_big_forward counted_forward : readers.
Lemma i8_forward : forward i8. Proof. unfold i8. forwards. Qed.
Lemma i16_forward : forward i16. Proof. unfold i16. forwards. Qed.
Lemma expect_forward n : forward (expect n). Proof. unfold expect. forwards. Qed.
#[local] Hint Resolve i8_forward i16_forward expect_forward : readers.
Lemma read_rrc_packet_forward v : forward (read_rrc_packet v). Proof. unfold read_rrc_packet. forwards. Qed.
Lemma read_attempt_forward v : forward (read_attempt v).
Proof. unfold read_attempt, read_attempt_header, read_msg1, read_msg2, read_msg3, read_msg3_grant, read_additional_info. forwards. Qed.
Lemma read_dl_block_forward v : forward (read_dl_block v). Proof. unfold read_dl_block. forwards. Qed.
Lemma read_ul_block_forward v : forward (read_ul_block v). Proof. unfold read_ul_block. forwards. Qed.
#[local] Hint Resolve read_rrc_packet_forward read_attempt_forward read_dl_block_forward read_ul_block_forward : readers.
Lemma read_subpacket_forward : forward read_subpacket.
Proof. unfold read_subpacket, read_subpacket_body, read_dl_blocks, read_ul_blocks. forwards. Qed.
#[local] Hint Resolve read_subpacket_forward : readers.
Lemma read_mac_packet_forward : forward read_mac_packet. Proof. unfold read_mac_packet. forwards. Qed.
#[local] Hint Resolve read_mac_packet_forward : readers.
Lemma read_message_forward : forward read_message.
Proof. unfold read_message, read_timestamp, read_log_body, read_direction, read_response_payload, read_log_config_response. forwards. Qed.
End typed.

(** ** What comes out of a container *)

Section containers.
Context {C : Crc16} {D : Deku} {X : DekuRead}.

Lemma in_split_inclusive t l x : x ∈ concat (split_inclusive t l) -> x ∈ l.
Proof. by rewrite split_inclusive_concat. Qed.

End containers.

(** ** The theorem at a concrete input *)

(** A crate that refuses the records of bit fields. *)
#[program] Definition no_bit_fields : @DekuRead deku_fits := {|
  deku_incomplete := false; deku_no_variant := false;
  read_measurement_and_evaluation := fun _ => Err false; read_measurements := fun _ => Err false; read_serving_cell_timing := fun _ => Err false |}.
Solve All Obligations with by intros ??.

(** An EMM message of two bytes, and the same cut short after one. *)
Definition sample_log (msg : list Z) : list Z :=
  [16; 0] ++ le_bytes 2 18 ++ le_bytes 2 18 ++ le_bytes 2 0xb0ec ++ le_bytes 8 77 ++ [1; 14; 0; 14] ++ msg.
Definition sample_container : MessagesContainer :=
  {| data_type := UserSpace; num_messages := 1;
     messages := [{| len := 0; data := @hdlc_encapsulate crc_ccitt (sample_log [7; 0x5d]) ++ @hdlc_encapsulate crc_ccitt (sample_log [7]) |}] |}.

