(* ===== verification/Demo.v ===== *)
(** * The demonstration ([daemon/src/demo.rs])

    The messages a demonstration injects, chosen by a shuffle, framed as a modem frames them, and read back by
    [DiagRead].  The clock is an argument: its second for the stamp, and its second and nanoseconds for the shuffle. *)

From S2P Require Import Prelude RustStr Lpp LppGrammar Rrlp TimingAdvance Deku Hdlc DiagLog Diag DiagRead.

Local Open Scope Z_scope.

Definition LOG_TYPE_EMM_NAS_DOWNLINK : Z := 0xb0ec.
Definition LOG_TYPE_LTE_RRC_OTA : Z := 0xb0c0.
Definition LOG_TYPE_GSM_RR_SIGNALLING : Z := 0x512f.
Definition GSM_CHANNEL_SDCCH : Z := 0x05.
Definition LOG_TYPE_LTE_MAC_RACH_RESPONSE : Z := 0xb062.

Inductive DemoMessage :=
| Demo_Nas (bytes : list Z)
| Demo_Rrc (payload : list Z) (pdu_num : Z)
| Demo_Gsm (bytes : list Z)
| Demo_MacRach (timing_advance : Z).

Record Scenario := mkScenario { scenario_name : rstr; scenario_messages : list DemoMessage; raises_high : bool }.

(** The two messages more than one scenario starts with. *)
Definition authentication_response : list Z := [0x07; 0x53; 0x08; 0x11; 0x22; 0x33; 0x44; 0x55; 0x66; 0x77; 0x88].
Definition demo_sib1 : list Z := [0x40; 0x40; 0x04; 0x02; 0x00; 0x00; 0x00; 0x00; 0x00; 0x00; 0x00; 0x00; 0x00; 0x00; 0x00].

Definition flashcatch_messages : list DemoMessage :=
  let tau_request := [0x07; 0x48; 0x00; 0x0b; 0xf6; 0x00; 0xf1; 0x10; 0x00; 0x01; 0x01; 0xc0; 0x00; 0x00; 0x01] in
  let identity_request := [0x07; 0x55; 0x01] in
  let auth_request := [0x07; 0x52; 0x00] ++ replicate 16 0x11 ++ [0x10] ++ replicate 16 0x22 in
  let auth_failure := [0x07; 0x5c; 0x14] in
  [Demo_Nas tau_request; Demo_Nas identity_request] ++ concat (replicate 3 [Demo_Nas auth_request; Demo_Nas auth_failure]).

Definition scenarios : list Scenario := [
  mkScenario (lit "tower switched encryption off (NAS null cipher)")
    [Demo_Nas [0x07; 0x5d; 0x00; 0x00; 0x02; 0x80; 0x00; 0x00]] true;
  mkScenario (lit "tower took the identity, then failed authentication (FlashCatch)") flashcatch_messages true;
  mkScenario (lit "tower switched encryption off (RRC null cipher)") [Demo_Rrc [0x30; 0x00; 0x10] 7] true;
  mkScenario (lit "pushed down onto a 2G network (connection release redirect)") [Demo_Rrc [0x28; 0x22; 0x20; 0x00; 0x00] 7] true;
  mkScenario (lit "2G advertised as a better choice than nearby 4G (SIB downgrade)")
    [Demo_Rrc [0x00; 0x04; 0x00; 0x08; 0x00; 0x00] 2; Demo_Rrc [0x00; 0x14; 0x80; 0x00; 0x00; 0x17; 0x00; 0x00; 0x00] 2; Demo_Rrc demo_sib1 2] true;
  mkScenario (lit "identity demanded after authentication (IMSI catcher pattern)")
    [Demo_Nas authentication_response; Demo_Nas [0x07; 0x55; 0x01]] true;
  mkScenario (lit "identity demanded with no attach request") [Demo_Nas [0x07; 0x45; 0x01; 0x07]; Demo_Nas [0x07; 0x55; 0x01]] true;
  mkScenario (lit "network set up continuous location tracking (LPP)")
    [Demo_Nas [0x07; 0x68; 0x01; 0x00; 0x07; 0x90; 0x0b; 0x20; 0x48; 0x80; 0x18; 0x70]] false;
  mkScenario (lit "2G network asked the device for its location (RRLP)")
    [Demo_Gsm [0x06; 0x38; 0x00; 0x04; 0x60; 0x00; 0xbc; 0x68]] false;
  mkScenario (lit "a cell answered from a different distance (timing advance)")
    [Demo_Rrc demo_sib1 2; Demo_MacRach 10; Demo_MacRach 10; Demo_MacRach 90] false;
  mkScenario (lit "permanent equipment identity demanded (IMEI)")
    [Demo_Nas authentication_response; Demo_Nas [0x07; 0x55; 0x02]] true].

(** ** Framing *)

(** [current_diag_timestamp] at [now] seconds since the Unix epoch. *)
Definition current_diag_timestamp (now : Z) : Z :=
  let since_gps_epoch := Z.max (now - 315964800) 0 in wrapu 64 (Z.shiftl (wrapu 64 (since_gps_epoch * 800)) 16).

(** [u16::try_from] and [u8::try_from]. *)
Definition try_from (w n : Z) : option Z := if in_ub w n then Some n else None.

(** What every record starts with. *)
Definition log_header (inner_length log_type timestamp : Z) : list Z :=
  [16; 0] ++ le_bytes 2 inner_length ++ le_bytes 2 inner_length ++ le_bytes 2 log_type ++ le_bytes 8 timestamp.

Definition nas_frame (timestamp : Z) (msg : list Z) : option (list Z) :=
  let body_len := 4 + Z.of_nat (length msg) in
  inner_length ← try_from 16 (body_len + 12);
  Some (log_header inner_length LOG_TYPE_EMM_NAS_DOWNLINK timestamp ++ [1; 14; 0; 14] ++ msg).

Definition rrc_frame (timestamp : Z) (payload : list Z) (pdu_num : Z) : option (list Z) :=
  len ← try_from 16 (Z.of_nat (length payload));
  inner_length ← try_from 16 (31 + Z.of_nat (length payload));
  Some (log_header inner_length LOG_TYPE_LTE_RRC_OTA timestamp ++ [20; 14; 48; 0] ++ le_bytes 2 160 ++ le_bytes 4 2050 ++ le_bytes 2 4057 ++
        [pdu_num] ++ le_bytes 4 0 ++ le_bytes 2 len ++ payload).

Definition mac_rach_packet : list Z :=
  [0x01; 0x01; 0xa0; 0x69; 0x06; 0x02; 0x24; 0x00; 0x01; 0x00; 0x01; 0x07; 0x1b; 0xff; 0x98;
   0xff; 0x00; 0x00; 0x01; 0x23; 0x1a; 0x04; 0x00; 0x18; 0x1c; 0x01; 0x00; 0x07; 0x00; 0x06;
   0x00; 0x46; 0x5c; 0x80; 0xbd; 0x06; 0x48; 0x00; 0x00; 0x00].
Definition TA_OFFSET : nat := 21.
Definition mac_rach_packet_with_ta (timing_advance : Z) : list Z :=
  take TA_OFFSET mac_rach_packet ++ le_bytes 2 timing_advance ++ drop (TA_OFFSET + 2) mac_rach_packet.
Definition mac_rach_frame (timestamp timing_advance : Z) : option (list Z) :=
  let body := mac_rach_packet_with_ta timing_advance in
  inner_length ← try_from 16 (Z.of_nat (length body) + 12);
  Some (log_header inner_length LOG_TYPE_LTE_MAC_RACH_RESPONSE timestamp ++ body).

Definition gsm_frame (timestamp : Z) (msg : list Z) : option (list Z) :=
  len ← try_from 8 (Z.of_nat (length msg));
  let body_len := 3 + Z.of_nat (length msg) in
  inner_length ← try_from 16 (body_len + 12);
  Some (log_header inner_length LOG_TYPE_GSM_RR_SIGNALLING timestamp ++ [GSM_CHANNEL_SDCCH; 0; len] ++ msg).

Definition demo_frame (timestamp : Z) (m : DemoMessage) : option (list Z) :=
  match m with
  | Demo_Nas bytes => nas_frame timestamp bytes
  | Demo_Rrc payload pdu_num => rrc_frame timestamp payload pdu_num
  | Demo_Gsm bytes => gsm_frame timestamp bytes
  | Demo_MacRach timing_advance => mac_rach_frame timestamp timing_advance
  end.

Section demo.
Context {C : Crc16}.

(** What each of the four functions ends with. *)
Definition encapsulate (frame : list Z) : HdlcEncapsulatedMessage :=
  let data := hdlc_encapsulate frame in {| len := wrapu 32 (Z.of_nat (length data)); data := data |}.

(** [demo_container_from] at [now]. *)
Definition demo_container_from (now : Z) (chosen : list Scenario) : option MessagesContainer :=
  let messages := omap (fun m => encapsulate <$> demo_frame (current_diag_timestamp now) m) (flat_map scenario_messages chosen) in
  match messages with
  | [] => None
  | _ => Some {| data_type := UserSpace; num_messages := wrapu 32 (Z.of_nat (length messages)); messages := messages |}
  end.
End demo.

(** ** Choosing *)

Definition SCENARIOS_PER_RUN : nat := 2.

(** [u64] xorshift. *)
Definition xorshift (seed : Z) : Z :=
  let seed := Z.lxor seed (wrapu 64 (Z.shiftl seed 13)) in
  let seed := Z.lxor seed (Z.shiftr seed 7) in
  Z.lxor seed (wrapu 64 (Z.shiftl seed 17)).

(** [Vec::swap], of indices that are in range. *)
Definition swap {A : Type} (i j : nat) (l : list A) : list A :=
  match l !! i, l !! j with Some a, Some b => <[i := b]> (<[j := a]> l) | _, _ => l end.

(** The loop from [i] down to 1. *)
Fixpoint shuffle {A : Type} (i : nat) (seed : Z) (pool : list A) : list A :=
  match i with
  | O => pool
  | S i' => let seed := xorshift seed in shuffle i' seed (swap i (Z.to_nat (seed mod (Z.of_nat i + 1))) pool)
  end.

(** The seed from the clock's seconds and nanoseconds since 1970; there are none before it. *)
Definition first_seed (clock : option (Z * Z)) : Z :=
  Z.lor (match clock with Some (secs, nanos) => Z.lxor nanos secs | None => 0x9e3779b9 end) 1.

Definition choose_from (all : list Scenario) (seed : Z) (count : nat) : list Scenario :=
  let pool := shuffle (length all - 1) seed all in
  let pool := match list_find (fun s => raises_high s = true) pool with Some (high, _) => swap 0 high pool | None => pool end in
  take (Nat.max (Nat.min count (length pool)) 1) pool.
Definition choose_scenarios (clock : option (Z * Z)) (count : nat) : list Scenario := choose_from scenarios (first_seed clock) count.

Definition demo_container {C : Crc16} (clock : option (Z * Z)) (now : Z) : option MessagesContainer :=
  demo_container_from now (choose_scenarios clock SCENARIOS_PER_RUN).

(** ** A run always shows red *)

Lemma swap_Permutation {A} i j (l : list A) : swap i j l ≡ₚ l.
Proof.
  unfold swap. destruct (l !! i) as [a|] eqn:Ha; [|done]. destruct (l !! j) as [b|] eqn:Hb; [|done].
  apply Permutation_inj. split; [by rewrite !length_insert|].
  exists (fun k => if decide (k = i) then j else if decide (k = j) then i else k). split.
  - intros x y. repeat case_decide; congruence.
  - intros k. pose proof (lookup_lt_Some _ _ _ Ha). pose proof (lookup_lt_Some _ _ _ Hb). repeat case_decide; subst.
    + rewrite list_lookup_insert_eq by (by rewrite length_insert). done.
    + rewrite list_lookup_insert_ne, list_lookup_insert_eq by done. done.
    + by rewrite !list_lookup_insert_ne.
Qed.
Lemma shuffle_Permutation {A} i seed (pool : list A) : shuffle i seed pool ≡ₚ pool.
Proof. revert seed pool. induction i as [|i IH]; intros seed pool; [done|]. cbn [shuffle]. by rewrite IH, swap_Permutation. Qed.
Lemma swap_head {A} j (l : list A) x : l !! j = Some x -> head (swap 0 j l) = Some x.
Proof.
  intros Hx. unfold swap. rewrite Hx. destruct l as [|y l]; [done|]. cbn [lookup list_lookup]. destruct j; cbn in Hx |- *; [|done]. by injection Hx as ->.
Qed.

Lemma choose_from_spec all seed count :
  Exists (fun s => raises_high s = true) all ->
  let chosen := choose_from all seed count in
  chosen ⊆+ all /\ length chosen = Nat.max (Nat.min count (length all)) 1 /\ (raises_high <$> head chosen) = Some true.
Proof.
  cbn zeta. unfold choose_from. intros Hall. set (pool := shuffle _ _ all). assert (Hp : pool ≡ₚ all) by apply shuffle_Permutation.
  destruct (list_find (fun s => raises_high s = true) pool) as [[high s]|] eqn:Hf.
  2:{ exfalso. apply list_find_None in Hf. rewrite Hp, Forall_forall in Hf. apply Exists_exists in Hall as (x & Hx & Hr). by apply (Hf x). }
  apply list_find_Some in Hf as (Hs & Hhigh & _). pose proof (swap_Permutation 0 high pool) as Hsw. pose proof (swap_head high pool s Hs) as Hhd.
  set (pool' := swap 0 high pool) in *. pose proof (Permutation_length Hsw) as L1. pose proof (Permutation_length Hp) as L2. rewrite L1, L2. split_and!.
  - etransitivity; [apply submseteq_take|]. by rewrite Hsw, Hp.
  - rewrite length_take, L1, L2. apply Nat.min_l. apply Exists_exists in Hall as (x & Hx & _). destruct all; [by apply elem_of_nil in Hx|]. cbn [length]. lia.
  - destruct pool' as [|x l]; [done|]. destruct (Nat.max _ 1) eqn:E; [lia|]. cbn in *. injection Hhd as ->. by rewrite Hhigh.
Qed.

Lemma choose_scenarios_spec clock count :
  let chosen := choose_scenarios clock count in
  chosen ⊆+ scenarios /\ length chosen = Nat.max (Nat.min count (length scenarios)) 1 /\ (raises_high <$> head chosen) = Some true.
Proof. apply choose_from_spec. by apply Exists_cons_hd. Qed.

(** Whatever the clock says, a press of the demonstration's button shows different scenarios of the list, as many as it is asked for if
    there are, and the first of them turns the unit red. *)
Theorem demo_turns_red clock count :
  let chosen := choose_scenarios clock count in
  chosen ⊆+ scenarios /\ length chosen = Nat.max (Nat.min count (length scenarios)) 1 /\ (raises_high <$> head chosen) = Some true.
Proof. apply choose_scenarios_spec. Qed.

(** ** What is injected is read back *)

(** A random access response is the captured one with another distance. *)
Definition rach_packet (timing_advance : Z) : MacPacket :=
  Build_MacPacket 1 1 [Build_Subpacket 6 2 36 (RachAttempt (Build_Attempt (AttemptHeader_V2 1 0 1 7) (Msg1_V2 27 255 (-104))
    (Build_Msg2 0 1 6691 timing_advance)
    (Build_Msg3 (Msg3Grant_V1 72728) 7 6 [0x00; 0x46; 0x5c; 0x80; 0xbd; 0x06; 0x48; 0x00; 0x00; 0x00]) None))].

Definition demo_log (t : Z) (m : DemoMessage) : Message :=
  let log inner log_type body := Log 0 inner inner log_type {| ts := t |} body in
  match m with
  | Demo_Nas msg => log (16 + Z.of_nat (length msg)) LOG_TYPE_EMM_NAS_DOWNLINK (Nas4GMessage LOG_TYPE_EMM_NAS_DOWNLINK Downlink 1 14 0 14 msg)
  | Demo_Rrc payload pdu_num => log (31 + Z.of_nat (length payload)) LOG_TYPE_LTE_RRC_OTA
      (LteRrcOtaMessage 20 (LteRrc_V8 14 48 0 160 2050 4057 pdu_num 0 (Z.of_nat (length payload)) payload))
  | Demo_Gsm msg => log (15 + Z.of_nat (length msg)) LOG_TYPE_GSM_RR_SIGNALLING
      (GsmRrSignallingMessage GSM_CHANNEL_SDCCH 0 (Z.of_nat (length msg)) msg)
  | Demo_MacRach timing_advance => log 52 LOG_TYPE_LTE_MAC_RACH_RESPONSE (LteMacRachResponse (rach_packet timing_advance))
  end.

(** What a record has room for. *)
Definition fits (m : DemoMessage) : bool :=
  match m with
  | Demo_Nas msg => Z.of_nat (length msg) <? 2 ^ 16 - 16
  | Demo_Rrc payload _ => Z.of_nat (length payload) <? 2 ^ 16 - 31
  | Demo_Gsm msg => Z.of_nat (length msg) <? 2 ^ 8
  | Demo_MacRach timing_advance => in_ub 16 timing_advance
  end.

Section read_back.
Context {C : Crc16} {D : Deku} {X : DekuRead}.

Lemma bytes_app l rest : bytes (length l) (l ++ rest) = Ok (rest, l).
Proof. by apply bytes_spec. Qed.
Lemma counted_app l rest n : n = Z.of_nat (length l) -> counted n (l ++ rest) = Ok (rest, l).
Proof. intros ->. unfold counted. rewrite Nat2Z.id. apply bytes_app. Qed.
Lemma unsigned_app n v rest : in_u (8 * Z.of_nat n) v -> unsigned n (le_bytes n v ++ rest) = Ok (rest, v).
Proof.
  intros Hv. unfold unsigned, mbind, Reader_bind. pose proof (bytes_app (le_bytes n v) rest) as H. rewrite le_bytes_length in H. rewrite H.
  cbv [mret Reader_ret]. rewrite le_value_bytes, Z.mod_small; [done|]. unfold in_u in Hv. change 256 with (2 ^ 8). by rewrite <- Z.pow_mul_r by lia.
Qed.
Lemma bind_reads {A B} (r : Reader A) (f : A -> Reader B) input rest a : r input = Ok (rest, a) -> (r ≫= f) input = f a rest.
Proof. intros H. unfold mbind, Reader_bind. by rewrite H. Qed.
Lemma bind_u8 {B} (f : Z -> Reader B) b rest : (u8 ≫= f) (b :: rest) = f b rest.
Proof. apply bind_reads. unfold u8, unsigned, mbind, Reader_bind. cbn. cbv [mret Reader_ret]. cbn [le_value]. by rewrite Z.mul_0_r, Z.add_0_r. Qed.
Lemma bind_u16 {B} (f : Z -> Reader B) v rest : is_u16 v -> (u16 ≫= f) (le_bytes 2 v ++ rest) = f v rest.
Proof. intros. apply bind_reads. by apply unsigned_app. Qed.
Lemma bind_u32 {B} (f : Z -> Reader B) v rest : is_u32 v -> (u32 ≫= f) (le_bytes 4 v ++ rest) = f v rest.
Proof. intros. apply bind_reads. by apply unsigned_app. Qed.
Lemma bind_counted {B} (f : list Z -> Reader B) n l : n = Z.of_nat (length l) -> (counted n ≫= f) l = f l [].
Proof. intros Hn. rewrite <- (app_nil_r l) at 1. apply bind_reads. by apply counted_app. Qed.

Lemma read_log_header inner log_type t body rest b :
  is_u16 inner -> is_u16 log_type -> is_u64 t -> read_log_body log_type (sat_subu inner 12) body = Ok (rest, b) ->
  read_message (log_header inner log_type t ++ body) = Ok (rest, Log 0 inner inner log_type {| ts := t |} b).
Proof.
  intros Hi Hl Ht Hb. unfold read_message, log_header. rewrite <- !app_assoc. cbn [app]. rewrite bind_u8. cbn [Z.eqb Pos.eqb].
  rewrite bind_u8, !bind_u16 by done. unfold read_timestamp. unfold mbind, Reader_bind.
  unfold u64. rewrite (unsigned_app 8) by done. cbv [mret Reader_ret]. by rewrite Hb.
Qed.
Lemma try_from_ok w n : in_ub w n = true -> try_from w n = Some n.
Proof. unfold try_from. by intros ->. Qed.
Lemma in_ub_lt w n : 0 <= n < 2 ^ w -> in_ub w n = true.
Proof. intros. by apply in_ub_spec. Qed.

Lemma nas_frame_read t msg : is_u64 t -> fits (Demo_Nas msg) = true ->
  exists frame, nas_frame t msg = Some frame /\ read_message frame = Ok ([], demo_log t (Demo_Nas msg)).
Proof.
  intros Ht Hf. cbn in Hf. unfold nas_frame. rewrite try_from_ok by (apply in_ub_lt; lia). eexists. split; [reflexivity|].
  replace (4 + Z.of_nat (length msg) + 12) with (16 + Z.of_nat (length msg)) by lia.
  apply read_log_header; [unfold in_u; lia|done|done|]. unfold read_log_body, LOG_TYPE_EMM_NAS_DOWNLINK. cbn [Z.eqb Pos.eqb]. rewrite bool_decide_eq_true_2 by set_solver.
  unfold read_direction. rewrite bool_decide_eq_true_2 by set_solver. cbn iota.
  erewrite bind_reads by reflexivity. cbn [app]. rewrite !bind_u8. rewrite bind_counted by (unfold sat_subu; lia). reflexivity.
Qed.
Lemma rrc_frame_read t payload pdu_num : is_u64 t -> fits (Demo_Rrc payload pdu_num) = true ->
  exists frame, rrc_frame t payload pdu_num = Some frame /\ read_message frame = Ok ([], demo_log t (Demo_Rrc payload pdu_num)).
Proof.
  intros Ht Hf. cbn in Hf. unfold rrc_frame. rewrite try_from_ok by (apply in_ub_lt; lia). cbn [mbind option_bind].
  rewrite try_from_ok by (apply in_ub_lt; lia). eexists. split; [reflexivity|].
  apply read_log_header; [unfold in_u; lia|done|done|]. unfold read_log_body, LOG_TYPE_LTE_RRC_OTA. cbn [Z.eqb Pos.eqb app]. rewrite bind_u8.
  unfold read_rrc_packet. cbn [Z.leb Z.compare Pos.compare Pos.compare_cont].
  unfold mbind at 1, Reader_bind at 1.
  rewrite !bind_u8, bind_u16, bind_u32, bind_u16, bind_u8, bind_u32, bind_u16 by (unfold in_u; lia). by rewrite bind_counted.
Qed.
Lemma gsm_frame_read t msg : is_u64 t -> fits (Demo_Gsm msg) = true ->
  exists frame, gsm_frame t msg = Some frame /\ read_message frame = Ok ([], demo_log t (Demo_Gsm msg)).
Proof.
  intros Ht Hf. cbn in Hf. unfold gsm_frame. rewrite try_from_ok by (apply in_ub_lt; lia). cbn [mbind option_bind].
  rewrite try_from_ok by (apply in_ub_lt; lia). eexists. split; [reflexivity|].
  replace (3 + Z.of_nat (length msg) + 12) with (15 + Z.of_nat (length msg)) by lia.
  apply read_log_header; [unfold in_u; lia|done|done|]. unfold read_log_body, LOG_TYPE_GSM_RR_SIGNALLING. cbn [Z.eqb Pos.eqb app]. rewrite !bind_u8. by rewrite bind_counted.
Qed.
Lemma rach_packet_read timing_advance : is_u16 timing_advance ->
  read_mac_packet (mac_rach_packet_with_ta timing_advance) = Ok ([], rach_packet timing_advance).
Proof.
  intros Ht. unfold mac_rach_packet_with_ta. pose proof (le_value_two _ Ht) as Hta. cbn [le_bytes] in *.
  set (a := timing_advance mod 256) in *. set (b := (timing_advance / 256) mod 256) in *. clearbody a b. rewrite <- Hta. vm_compute. reflexivity.
Qed.
Lemma mac_rach_frame_read t timing_advance : is_u64 t -> fits (Demo_MacRach timing_advance) = true ->
  exists frame, mac_rach_frame t timing_advance = Some frame /\ read_message frame = Ok ([], demo_log t (Demo_MacRach timing_advance)).
Proof.
  intros Ht Hf. apply in_ub_spec in Hf. eexists. split; [reflexivity|].
  apply read_log_header; [by vm_compute|done|done|]. unfold read_log_body, LOG_TYPE_LTE_MAC_RACH_RESPONSE. cbn [Z.eqb Pos.eqb].
  rewrite bool_decide_eq_false_2 by set_solver. cbn iota. erewrite bind_reads by (by apply rach_packet_read). reflexivity.
Qed.
Lemma demo_frame_read t m : is_u64 t -> fits m = true -> exists frame, demo_frame t m = Some frame /\ read_message frame = Ok ([], demo_log t m).
Proof. intros Ht Hm. destruct m; [by apply nas_frame_read|by apply rrc_frame_read|by apply gsm_frame_read|by apply mac_rach_frame_read]. Qed.

Lemma timestamp_u64 now : is_u64 (current_diag_timestamp now).
Proof. apply wrapu_in_u. lia. Qed.

(** Frames that were made are what is in the container, one by one. *)
Lemma demo_messages_read t ms : is_u64 t -> Forall (fun m => fits m = true) ms ->
  let frames := omap (fun m => encapsulate <$> demo_frame t m) ms in
  length frames = length ms /\
  flat_map (fun f => map (from_hdlc (R := derived_reader)) (split_inclusive MESSAGE_TERMINATOR (data f))) frames = map (fun m => Ok (demo_log t m)) ms.
Proof.
  intros Ht. induction 1 as [|m ms Hm _ IH]; [done|]. cbn zeta in *. destruct (demo_frame_read t m Ht Hm) as (frame & Hf & Hr).
  cbn [omap list_omap]. rewrite Hf. cbn [fmap option_fmap option_map]. destruct IH as [IHl IH]. cbn [length flat_map map].
  split; [by f_equal|]. rewrite IH. cbn [encapsulate data].
  pose proof (split_encapsulated frame []) as Hs. rewrite app_nil_r in Hs. cbn [split_inclusive] in Hs. rewrite Hs. cbn [map app]. f_equal.
  unfold from_hdlc. rewrite decapsulate_frame. cbn [message_from_bytes derived_reader]. by rewrite Hr.
Qed.
End read_back.

Lemma scenarios_fit : Forall (fun s => scenario_messages s <> [] /\ Forall (fun m => fits m = true) (scenario_messages s)) scenarios.
Proof. repeat (apply Forall_cons_2; [split; [done|repeat (apply Forall_cons_2; [done|]); apply Forall_nil_2]|]). apply Forall_nil_2. Qed.

(** What a demonstration injects goes through the framing and the parser like anything off the air: for every clock the container is
    read back as exactly the messages of the scenarios that were chosen, in order, each with its payload whole and the stamp it was given. *)
Theorem demo_read_back {C : Crc16} {D : Deku} {X : DekuRead} clock now :
  exists container, demo_container clock now = Some container /\
    container_messages (R := derived_reader) container =
    map (fun m => Ok (demo_log (current_diag_timestamp now) m)) (flat_map scenario_messages (choose_scenarios clock SCENARIOS_PER_RUN)).
Proof.
  unfold demo_container. destruct (choose_scenarios_spec clock SCENARIOS_PER_RUN) as (Hsub & _ & Hhd).
  generalize dependent (choose_scenarios clock SCENARIOS_PER_RUN). intros chosen Hsub Hhd.
  assert (Hall : Forall (fun s => scenario_messages s <> [] /\ Forall (fun m => fits m = true) (scenario_messages s)) chosen).
  { apply Forall_forall. intros s Hs. pose proof scenarios_fit as Hf. rewrite Forall_forall in Hf. apply Hf. by eapply elem_of_submseteq. }
  assert (Hfit : Forall (fun m => fits m = true) (flat_map scenario_messages chosen)).
  { clear -Hall. induction Hall as [|s l [_ Hs] _ IH]; [constructor|]. cbn. by apply Forall_app_2. }
  assert (Hne : flat_map scenario_messages chosen <> []).
  { destruct Hall as [|s l [Hs _] _]; [done|]. cbn. by destruct (scenario_messages s). }
  pose proof (demo_messages_read (current_diag_timestamp now) _ (timestamp_u64 now) Hfit) as [Hl Hm].
  unfold demo_container_from. set (frames := omap _ _) in *. destruct frames as [|f fs] eqn:E.
  { destruct (flat_map scenario_messages chosen); [done|]. cbn in Hl. discriminate. }
  eexists. split; [reflexivity|]. exact Hm.
Qed.

(** ** What detectors make of it *)

(** The request for location tracking is one the decoder reads as periodic, and the 2G one asks for a position. *)
Example demo_asks_for_location :
  (exists d, decode_lpp_detail [0x90; 0x0b; 0x20; 0x48; 0x80; 0x18; 0x70] = Some d /\ exists methods info, kind d = Lpp.Request methods true info) /\
  (rrlp_apdu_from_application_information [0x06; 0x38; 0x00; 0x04; 0x60; 0x00; 0xbc; 0x68] ≫= fun apdu => decode_rrlp_apdu apdu) <> None.
Proof. split; [eexists; split; [vm_compute; reflexivity|]; do 2 eexists; reflexivity|]. vm_compute. done. Qed.

(** The label is put on the events of the demonstration's own container, but the detectors keep what they learnt from it: after the
    scenario of distances, a response off the air that is nearer than that cell was shown to be gives a warning of its own. *)
Lemma observe_known cell cells0 e ta : cells0 !! cell = Some e -> ta <> 0 ->
  observe {| current_cell := Some cell; cells := cells0; any_non_zero := true |} ta =
  let known e := {| current_cell := Some cell; cells := <[cell := e]> cells0; any_non_zero := true |} in
  match baseline e with
  | None => (known {| baseline := if SAMPLES_FOR_BASELINE <=? seen e + 1 then Some ta else None; seen := seen e + 1 |}, None)
  | Some b => if JUMP_THRESHOLD_STEPS <=? Z.abs (ta - b) then (known {| baseline := Some ta; seen := seen e + 1 |}, Some (b, ta))
              else (known {| baseline := Some b; seen := seen e + 1 |}, None)
  end.
Proof.
  intros He Ht. unfold observe. cbn [any_non_zero cells current_cell orb negb]. rewrite He, (bool_decide_eq_true_2 (is_Some _)) by done.
  cbn [negb]. rewrite andb_false_r, He. cbn [default from_option id]. destruct (baseline e); [by destruct (_ <=? _)|done].
Qed.
Lemma demo_outlives_itself cell off_air : 0 < off_air <= 74 ->
  let '(s, shown) := observe (observe (observe {| current_cell := Some cell; cells := ∅; any_non_zero := false |} 10).1 10).1 90 in
  shown = Some (10, 90) /\ (observe s off_air).2 = Some (90, off_air).
Proof.
  intros Ho.
  assert (H1 : (observe {| current_cell := Some cell; cells := ∅; any_non_zero := false |} 10).1 =
    {| current_cell := Some cell; cells := <[cell := {| baseline := None; seen := 1 |}]> ∅; any_non_zero := true |}).
  { unfold observe. cbn [any_non_zero cells current_cell]. by rewrite lookup_empty, map_size_empty. }
  rewrite H1. erewrite observe_known by (done || apply lookup_insert_eq). cbn [baseline seen fst]. change (SAMPLES_FOR_BASELINE <=? 1 + 1) with true. cbn iota.
  erewrite observe_known by (done || apply lookup_insert_eq). cbn [baseline seen fst]. change (JUMP_THRESHOLD_STEPS <=? Z.abs (90 - 10)) with true. cbn iota.
  split; [done|]. erewrite observe_known by (lia || apply lookup_insert_eq). cbn [baseline seen fst]. unfold JUMP_THRESHOLD_STEPS.
  by rewrite (proj2 (Z.leb_le _ _)) by lia.
Qed.
