(* ===== verification/Listeners.v ===== *)
(** * Where the interface is served ([daemon/src/main.rs])

    The addresses the web server listens on at the start, and the one it follows: the address the unit has as a client of
    another network.  The interfaces and what binding a socket comes to are arguments, a poll at a time; a listener that was
    bound serves until it is cancelled.  What a start makes of the addresses is here too. *)

From S2P Require Import Prelude RustStr Mdns Frontdoor Hardware WebAuth.

Local Open Scope Z_scope.

(** An address; those of version 6 are kept as their segments. *)
Inductive IpAddr := V4 (ip : Ipv4Addr) | V6 (segments : list Z).
#[export] Instance IpAddr_eq_dec : EqDecision IpAddr.
Proof. solve_decision. Defined.
Definition LOCALHOST : Ipv4Addr := [127; 0; 0; 1].
Definition UNSPECIFIED : Ipv4Addr := [0; 0; 0; 0].
Definition ip_is_loopback (ip : IpAddr) : bool :=
  match ip with V4 v4 => is_loopback_v4 v4 | V6 s => bool_decide (s = [0; 0; 0; 0; 0; 0; 0; 1]) end.
Definition is_unspecified (ip : IpAddr) : bool := match ip with V4 v4 => bool_decide (v4 = UNSPECIFIED) | V6 s => bool_decide (s = replicate 8 0) end.

(** ** At the start *)

Definition WEB_BIND_INTERFACE_ATTEMPTS : nat := 10.

Definition select_listen_addrs (interface_ips : list IpAddr) : list IpAddr :=
  let addrs := fold_left (fun addrs ip =>
    match ip with
    | V4 v4 => if is_private v4 && negb (bool_decide (ip ∈ addrs)) then addrs ++ [ip] else addrs
    | V6 _ => addrs
    end) interface_ips [V4 LOCALHOST] in
  if (length addrs =? 1)%nat then [V4 UNSPECIFIED] else addrs.

(** [get_if_addrs] at each attempt; a failure is no interfaces. *)
Fixpoint listen_attempts (attempts : nat) (get_if_addrs : nat -> option (list IpAddr)) : list IpAddr :=
  match attempts with
  | O => [V4 UNSPECIFIED]
  | S attempts =>
      let addrs := select_listen_addrs (default [] (get_if_addrs (WEB_BIND_INTERFACE_ATTEMPTS - S attempts)%nat)) in
      if (1 <? length addrs)%nat then addrs else listen_attempts attempts get_if_addrs
  end.
Definition web_listen_addrs (get_if_addrs : nat -> option (list IpAddr)) : list IpAddr := listen_attempts WEB_BIND_INTERFACE_ATTEMPTS get_if_addrs.

(** ** Listeners *)

Record Listener := mkListener { addr : IpAddr; port : Z; kind : ListenerKind }.

Section server.
Context (web_port tls_port : Z) (tls_up : bool).

(** [Listeners::serve]: what is now served, and whether the plain listener bound; [bind] is what binding comes to. *)
Definition serve_on (bind : IpAddr -> Z -> bool) (ip : IpAddr) : list Listener * bool :=
  let loopback := ip_is_loopback ip in
  let bound := bind ip web_port in
  ((if bound then [mkListener ip web_port (if loopback then Loopback else Plain)] else []) ++
   (if tls_up && bind ip tls_port then [mkListener ip tls_port (if loopback then Loopback else Tls)] else []), bound).

(** The loop over the addresses, and the fallback, whose binding must not fail: [None] is the panic. *)
Definition serve_at_start (bind : IpAddr -> Z -> bool) (addrs : list IpAddr) : option (list Listener) :=
  let results := map (serve_on bind) addrs in
  let listeners := flat_map fst results in
  if existsb snd results then Some listeners
  else if bind (V4 UNSPECIFIED) web_port then Some (listeners ++ [mkListener (V4 UNSPECIFIED) web_port Plain]) else None.

(** What the watcher keeps: the address it serves with its listeners, and the addresses of the mDNS responder. *)
Record Watch := mkWatch { served : option (Ipv4Addr * list Listener); mdns_addrs : list Ipv4Addr }.

Definition without (old : Ipv4Addr) (l : list Ipv4Addr) : list Ipv4Addr := filter (fun a => a <> old) l.

(** One turn of the loop; [status] is the client's address as the WiFi status has it. *)
Definition watch_turn (addrs : list IpAddr) (status : option rstr) (bind : IpAddr -> Z -> bool) (w : Watch) : Watch :=
  let sta := status ≫= parse_ipv4 in
  match sta, served w with
  | Some ip, Some (current, ls) =>
      if bool_decide (current = ip) then w
      else let mdns := without current (mdns_addrs w) in
           if bool_decide (V4 ip ∈ addrs) then mkWatch None mdns
           else mkWatch (Some (ip, (serve_on bind (V4 ip)).1)) (mdns ++ [ip])
  | Some ip, None =>
      if bool_decide (V4 ip ∈ addrs) then w
      else mkWatch (Some (ip, (serve_on bind (V4 ip)).1)) (mdns_addrs w ++ [ip])
  | None, Some (old, _) => mkWatch None (without old (mdns_addrs w))
  | None, None => w
  end.

(** A run: the polls, each with the status and what binding comes to then; none when the setting is off. *)
Record StaPoll := mkPoll { poll_status : option rstr; poll_bind : IpAddr -> Z -> bool }.
Definition run_watch (serve_wifi_client_address : bool) (addrs : list IpAddr) (polls : list StaPoll) (w : Watch) : Watch :=
  if serve_wifi_client_address then fold_left (fun w p => watch_turn addrs (poll_status p) (poll_bind p) w) polls w else w.

(** What is served: what was from the start, and what the watcher serves. *)
Definition serving (at_start : list Listener) (w : Watch) : list Listener := at_start ++ match served w with Some (_, ls) => ls | None => [] end.
End server.

(** ** What a start makes of the addresses ([run_with_config]) *)

Definition hotspot_addrs (listen_addrs : list IpAddr) : list IpAddr := filter (fun ip => ip_is_loopback ip = false /\ is_unspecified ip = false) listen_addrs.
Definition v4_of (ip : IpAddr) : option Ipv4Addr := match ip with V4 v4 => Some v4 | V6 _ => None end.
Definition hotspot_v4 (listen_addrs : list IpAddr) : option Ipv4Addr := head (omap v4_of (hotspot_addrs listen_addrs)).
(** Of the front door, where it is open, only its address matters. *)
Definition cert_addrs (listen_addrs : list IpAddr) (alias : option Ipv4Addr) : list IpAddr :=
  hotspot_addrs listen_addrs ++ match alias with Some a => [V4 a] | None => [] end.
Definition initial_mdns (listen_addrs : list IpAddr) (alias : option Ipv4Addr) : list Ipv4Addr :=
  map (fun v4 => match alias with Some a => if bool_decide (Some v4 = hotspot_v4 listen_addrs) then a else v4 | None => v4 end)
    (omap v4_of (hotspot_addrs listen_addrs)).
Definition own_addresses (listen_addrs : list IpAddr) (alias : option Ipv4Addr) : list IpAddr :=
  listen_addrs ++ match alias with Some a => [V4 a] | None => [] end.

(** Whether TLS is tried, and what is said and opened by what came of it and of the pairing store. *)
Definition try_tls (tls_port : Z) (listen_addrs : list IpAddr) (certificate_on_file : bool) : bool :=
  negb (tls_port =? 0) && (negb (bool_decide (hotspot_addrs listen_addrs = [])) || certificate_on_file).
Inductive Banner := Pairing_Store_Damaged | Web_Open_No_Tls.
Definition start_banner (store_damaged tls_up : bool) (tls_port : Z) : option Banner :=
  if store_damaged then Some Pairing_Store_Damaged else if negb tls_up && negb (tls_port =? 0) then Some Web_Open_No_Tls else None.
Definition opens_setup (store_damaged tls_up setup_complete : bool) (device_count : nat) : bool :=
  negb store_damaged && tls_up && negb setup_complete && (device_count =? 0)%nat.

(** ** The addresses of the start *)

Lemma localhost_not_private : is_private LOCALHOST = false. Proof. done. Qed.

Definition private (a : IpAddr) : Prop := exists v4, a = V4 v4 /\ is_private v4 = true.
Definition add_private (addrs : list IpAddr) (ip : IpAddr) : list IpAddr :=
  match ip with
  | V4 v4 => if is_private v4 && negb (bool_decide (ip ∈ addrs)) then addrs ++ [ip] else addrs
  | V6 _ => addrs
  end.
Lemma add_private_spec addrs ip : NoDup addrs -> NoDup (add_private addrs ip) /\ forall a, a ∈ add_private addrs ip <-> a ∈ addrs \/ a = ip /\ private ip.
Proof.
  intros Hn. unfold add_private, private. destruct ip as [v4|s]; [|split; [done|]; intros a; split; [by left|intros [?|[_ (v4 & [=] & _)]]; done]].
  destruct (is_private v4) eqn:Hp; cbn [andb]; [|split; [done|]; intros a; split; [by left|intros [?|[_ (v & [= <-] & H)]]; congruence]].
  destruct (bool_decide_reflect (V4 v4 ∈ addrs)) as [Hin|Hin]; cbn [negb].
  - split; [done|]. intros a. split; [by left|]. intros [?|[-> _]]; done.
  - split.
    + apply NoDup_app. split_and!; [done| |apply NoDup_singleton]. by intros x Hx ->%list_elem_of_singleton.
    + intros a. rewrite elem_of_app, list_elem_of_singleton. split; [intros [? | ->]; [by left|right; split; [done|by exists v4]]|intros [?|[? _]]; auto].
Qed.
Lemma select_fold ips acc : NoDup acc ->
  NoDup (fold_left add_private ips acc) /\ forall a, a ∈ fold_left add_private ips acc <-> a ∈ acc \/ a ∈ ips /\ private a.
Proof.
  revert acc. induction ips as [|ip ips IH]; intros acc Hn; cbn [fold_left].
  - split; [done|]. intros a. rewrite elem_of_nil. split; [by left|intros [?|[H _]]; [done|by destruct H]].
  - destruct (add_private_spec acc ip Hn) as [Hn' Ha]. destruct (IH _ Hn') as [H1 H2]. split; [done|]. intros a. rewrite H2, Ha, elem_of_cons. split.
    + intros [[?|[-> ?]]|[? ?]]; auto.
    + intros [?|[[->|?] ?]]; auto.
Qed.

(** Loopback and every private address of an interface, or all interfaces when there is none. *)
Lemma select_spec ips :
  select_listen_addrs ips = [V4 UNSPECIFIED] /\ (forall a, a ∈ ips -> ~ private a) \/
  (1 < length (select_listen_addrs ips))%nat /\ (exists a, a ∈ ips /\ private a) /\ forall a, a ∈ select_listen_addrs ips <-> a = V4 LOCALHOST \/ a ∈ ips /\ private a.
Proof.
  unfold select_listen_addrs. destruct (select_fold ips [V4 LOCALHOST] (NoDup_singleton _)) as [Hn Hin].
  change (fold_left _ ips [V4 LOCALHOST]) with (fold_left add_private ips [V4 LOCALHOST]). set (addrs := fold_left _ _ _) in *. destruct (Nat.eqb_spec (length addrs) 1) as [Hl|Hl].
  - left. split; [done|]. intros a Ha Hpr. destruct addrs as [|x [|]]; [done| |done].
    assert (Hx : V4 LOCALHOST ∈ [x]) by (apply Hin; left; by left). apply list_elem_of_singleton in Hx as <-.
    assert (Hax : a ∈ [V4 LOCALHOST]) by (apply Hin; by right). apply list_elem_of_singleton in Hax as ->.
    destruct Hpr as (v4 & [= <-] & Hp). done.
  - right. assert (Hloc : V4 LOCALHOST ∈ addrs) by (apply Hin; left; by left). split; [|split].
    + destruct addrs as [|x [|y l]]; [by apply elem_of_nil in Hloc|done|cbn; lia].
    + destruct addrs as [|x [|y l]]; [by apply elem_of_nil in Hloc|done|]. apply NoDup_cons in Hn as [Hx _].
      assert (Hxy : x <> y) by (intros ->; apply Hx; by left).
      assert (H1 : x ∈ x :: y :: l) by (by left). assert (H2 : y ∈ x :: y :: l) by (right; by left). apply Hin in H1, H2. rewrite !list_elem_of_singleton in H1, H2.
      destruct H1 as [->|?]; [|by eexists]. destruct H2 as [->|?]; [done|by eexists].
    + intros a. by rewrite Hin, list_elem_of_singleton.
Qed.

Lemma listen_attempts_spec attempts ifs : listen_attempts attempts ifs = [V4 UNSPECIFIED] \/
  forall a, a ∈ listen_attempts attempts ifs -> a = V4 LOCALHOST \/ exists n ips v4, ifs n = Some ips /\ a ∈ ips /\ a = V4 v4 /\ is_private v4 = true.
Proof.
  induction attempts as [|attempts IH]; [by left|]. cbn [listen_attempts]. set (n := (_ - _)%nat).
  destruct (select_spec (default [] (ifs n))) as [[-> _]|(Hl & _ & Hin)]; [exact IH|]. rewrite (proj2 (Nat.ltb_lt _ _) Hl). right. intros a Ha.
  apply Hin in Ha as [->|(Ha & v4 & -> & Hp)]; [by left|]. right. destruct (ifs n) as [ips|] eqn:E; [|by apply elem_of_nil in Ha]. by exists n, ips, v4.
Qed.

(** A client's private address that is there when the daemon starts, or a carrier's, is served like any other. *)
Lemma private_always_served ips v4 : V4 v4 ∈ ips -> is_private v4 = true -> V4 v4 ∈ select_listen_addrs ips.
Proof. intros Hi Hp. destruct (select_spec ips) as [[_ H]|(_ & _ & H)]; [exfalso; apply (H (V4 v4) Hi); by exists v4|]. apply H. right. split; [done|by exists v4]. Qed.

(** ** The watcher *)

Section watcher.
Context (web_port tls_port : Z) (tls_up : bool) (addrs : list IpAddr).

(** What holds after the polls so far, [last] the client's address at the last. *)
Definition watch_ok (mdns0 : list Ipv4Addr) (polls : list StaPoll) (last : option Ipv4Addr) (w : Watch) : Prop :=
  match served w with
  | Some (ip, ls) => last = Some ip /\ (V4 ip ∉ addrs) /\ (exists p, p ∈ polls /\ ls = (serve_on web_port tls_port tls_up (poll_bind p) (V4 ip)).1) /\ ip ∈ mdns_addrs w
  | None => match last with Some ip => V4 ip ∈ addrs | None => True end
  end /\ forall a, a ∈ mdns_addrs w -> a ∈ mdns0 \/ fst <$> served w = Some a.

Lemma watch_turn_ok mdns0 polls last w p : watch_ok mdns0 polls last w ->
  watch_ok mdns0 (polls ++ [p]) (poll_status p ≫= parse_ipv4) (watch_turn web_port tls_port tls_up addrs (poll_status p) (poll_bind p) w).
Proof.
  assert (Hnew : forall ip mdns, (forall a, a ∈ mdns -> a ∈ mdns0) -> V4 ip ∉ addrs ->
    watch_ok mdns0 (polls ++ [p]) (Some ip) (mkWatch (Some (ip, (serve_on web_port tls_port tls_up (poll_bind p) (V4 ip)).1)) (mdns ++ [ip]))).
  { intros ip mdns Hm Hin. split; cbn [served mdns_addrs fst fmap option_fmap option_map].
    - split_and!; [done|done| |apply elem_of_app; right; by left]. exists p. split; [|done]. apply elem_of_app. right. by left.
    - intros a [Ha|Ha%list_elem_of_singleton]%elem_of_app; [left; auto|right; by subst]. }
  unfold watch_turn. intros [Hs Hm]. destruct (poll_status p ≫= parse_ipv4) as [ip|] eqn:Hp; destruct (served w) as [[cur ls]|] eqn:Hw; cbn [fst fmap option_fmap option_map] in Hm.
  - destruct Hs as (_ & Hin & (q & Hq & Hls) & Hmd).
    destruct (bool_decide_reflect (cur = ip)) as [->|Hne].
    + split; rewrite Hw; [|done]. split_and!; [done|done| |done]. exists q. split; [|done]. apply elem_of_app. by left.
    + assert (Hwo : forall a, a ∈ without cur (mdns_addrs w) -> a ∈ mdns0).
      { intros a Ha. apply list_elem_of_filter in Ha as [Hac Ha]. destruct (Hm a Ha) as [?|[=]]; [done|congruence]. }
      destruct (bool_decide_reflect (V4 ip ∈ addrs)) as [Hi|Hi]; [|by apply Hnew]. split; cbn; [done|]. intros a Ha. left. auto.
  - assert (Hwo : forall a, a ∈ mdns_addrs w -> a ∈ mdns0) by (intros a Ha; destruct (Hm a Ha) as [?|?]; done).
    destruct (bool_decide_reflect (V4 ip ∈ addrs)) as [Hi|Hi]; [|by apply Hnew]. split; rewrite Hw; [done|]. intros a Ha. left. auto.
  - split; cbn; [done|]. intros a Ha. left. apply list_elem_of_filter in Ha as [Hac Ha]. destruct (Hm a Ha) as [?|[=]]; [done|congruence].
  - split; rewrite Hw; [done|]. exact Hm.
Qed.

Definition last_address (polls : list StaPoll) : option Ipv4Addr := p ← last polls; poll_status p ≫= parse_ipv4.

Lemma run_watch_ok mdns0 polls : watch_ok mdns0 polls (last_address polls) (run_watch web_port tls_port tls_up true addrs polls (mkWatch None mdns0)).
Proof.
  unfold run_watch. induction polls as [|p polls IH] using rev_ind; [split; cbn; [done|by left]|].
  rewrite fold_left_app. cbn [fold_left]. unfold last_address. rewrite last_snoc. cbn [mbind option_bind]. by apply watch_turn_ok with (last := last_address polls).
Qed.
End watcher.

(** ** What is served *)

Lemma serve_on_spec web_port tls_port tls_up bind ip l : l ∈ (serve_on web_port tls_port tls_up bind ip).1 ->
  addr l = ip /\ (kind l = Loopback <-> ip_is_loopback ip = true) /\
  (port l = web_port /\ (kind l = Loopback \/ kind l = Plain) \/ port l = tls_port /\ tls_up = true /\ (kind l = Loopback \/ kind l = Tls)).
Proof.
  unfold serve_on. cbn [fst]. rewrite elem_of_app. intros [H|H].
  - destruct (bind ip web_port); [|by apply elem_of_nil in H]. apply list_elem_of_singleton in H as ->. cbn. destruct (ip_is_loopback ip); split_and!; auto; done.
  - destruct tls_up, (bind ip tls_port); cbn [andb] in H; try by apply elem_of_nil in H. apply list_elem_of_singleton in H as ->. cbn.
    destruct (ip_is_loopback ip); split_and!; auto; done.
Qed.
Lemma at_start_spec web_port tls_port tls_up bind addrs ls l : serve_at_start web_port tls_port tls_up bind addrs = Some ls -> l ∈ ls ->
  addr l ∈ addrs /\ l ∈ (serve_on web_port tls_port tls_up bind (addr l)).1 \/
  l = mkListener (V4 UNSPECIFIED) web_port Plain /\ forall ip, ip ∈ addrs -> bind ip web_port = false.
Proof.
  unfold serve_at_start. assert (Hmap : forall l, l ∈ flat_map fst (map (serve_on web_port tls_port tls_up bind) addrs) ->
    addr l ∈ addrs /\ l ∈ (serve_on web_port tls_port tls_up bind (addr l)).1).
  { intros l' H. rewrite list_elem_of_In, in_flat_map in H. destruct H as (r & Hr & Hl). apply in_map_iff in Hr as (ip & <- & Hip).
    apply list_elem_of_In in Hl, Hip. destruct (serve_on_spec _ _ _ _ _ _ Hl) as [-> _]. done. }
  destruct (existsb snd _) eqn:Hany; [intros [= <-] Hl; left; by apply Hmap|].
  destruct (bind (V4 UNSPECIFIED) web_port); [|done]. intros [= <-] [Hl| ->%list_elem_of_singleton]%elem_of_app; [left; by apply Hmap|]. right. split; [done|].
  intros ip Hip. apply not_true_iff_false. intros Hb. apply not_true_iff_false in Hany. apply Hany. apply existsb_exists.
  exists (serve_on web_port tls_port tls_up bind ip). split; [apply in_map; by apply list_elem_of_In|exact Hb].
Qed.

(** C9: whatever the interfaces are, whatever binds and whatever addresses the unit has as a client, a listener is on loopback, on a private
    address an interface had at the start, on the client's address of the moment where the setting allows it, or on all interfaces where
    no private address was found or none could be bound; it is exempt from the redirect to TLS as a loopback one only on loopback; and where the
    setting allows it the address of the moment is served and answered for by the mDNS responder, and an address that is gone is not. *)
Theorem served_where web_port tls_port tls_up ifs bind at_start setting mdns0 polls :
  let addrs := web_listen_addrs ifs in
  serve_at_start web_port tls_port tls_up bind addrs = Some at_start ->
  let w := run_watch web_port tls_port tls_up setting addrs polls (mkWatch None mdns0) in
  (forall l, l ∈ serving at_start w ->
    (addr l = V4 LOCALHOST \/ (exists n ips, ifs n = Some ips /\ addr l ∈ ips /\ private (addr l)) \/
     (setting = true /\ (V4 <$> last_address polls) = Some (addr l)) \/
     addr l = V4 UNSPECIFIED /\ (addrs = [V4 UNSPECIFIED] \/ forall ip, ip ∈ addrs -> bind ip web_port = false)) /\
    (kind l = Loopback -> ip_is_loopback (addr l) = true)) /\
  (setting = true -> match last_address polls with
    | Some ip => V4 ip ∈ addrs \/ ip ∈ mdns_addrs w /\ exists p, p ∈ polls /\ served w = Some (ip, (serve_on web_port tls_port tls_up (poll_bind p) (V4 ip)).1)
    | None => served w = None /\ forall a, a ∈ mdns_addrs w -> a ∈ mdns0 end).
Proof.
  cbn zeta. intros Hstart. pose proof (run_watch_ok web_port tls_port tls_up (web_listen_addrs ifs) mdns0 polls) as Hw.
  set (w := run_watch _ _ _ true _ _ _) in Hw. split.
  - intros l [Hl|Hl]%elem_of_app.
    + destruct (at_start_spec _ _ _ _ _ _ _ Hstart Hl) as [[Ha Hs]|[-> Hb]]; [|split; [|done]; do 3 right; split; [done|by right]].
      split; [|apply serve_on_spec in Hs as (_ & [Hk _] & _); exact Hk].
      destruct (listen_attempts_spec WEB_BIND_INTERFACE_ATTEMPTS ifs) as [Hu|Hin]; fold (web_listen_addrs ifs) in *.
      * do 3 right. split; [|by left]. rewrite Hu in Ha. by apply list_elem_of_singleton in Ha.
      * destruct (Hin _ Ha) as [?|(n & ips & v4 & Hn & Hi & He & Hp)]; [by left|]. right. left. exists n, ips. split_and!; [done|done|by exists v4].
    + destruct setting; [|by apply elem_of_nil in Hl]. fold w in Hl. destruct Hw as [Hw _]. destruct (served w) as [[ip ls]|]; [|by apply elem_of_nil in Hl].
      destruct Hw as (Hlast & _ & (p & _ & ->) & _). apply serve_on_spec in Hl as (-> & [Hk _] & _). split; [|exact Hk].
      right. right. left. split; [done|]. by rewrite Hlast.
  - intros ->. fold w. destruct Hw as [Hs Hm]. destruct (served w) as [[ip ls]|] eqn:E.
    + destruct Hs as (-> & _ & (p & Hp & ->) & Hin). right. split; [done|]. by exists p.
    + destruct (last_address polls) as [ip|]; [by left|]. split; [done|]. intros a Ha. by destruct (Hm a Ha) as [?|?].
Qed.

(** A bind that failed is not tried again while the address stays: its outcome is not looked at. *)
Lemma failed_bind_stays web_port tls_port tls_up addrs mdns status ip bind : parse_ipv4 status = Some ip -> V4 ip ∉ addrs ->
  let w := watch_turn web_port tls_port tls_up addrs (Some status) (fun _ _ => false) (mkWatch None mdns) in
  serving [] w = [] /\ watch_turn web_port tls_port tls_up addrs (Some status) bind w = w.
Proof.
  intros Hp Hin. unfold watch_turn. cbn [mbind option_bind served]. rewrite Hp, bool_decide_eq_false_2 by done. cbn [served].
  unfold serving, serve_on. cbn [served fst app]. rewrite andb_false_r, bool_decide_eq_true_2 by done. done.
Qed.

(** ** The theorem at a concrete input *)

(** A hotspot and a carrier's address; the client's address comes, changes and goes. *)
Definition demo_ifs (n : nat) : option (list IpAddr) := if (n =? 0)%nat then None else Some [V4 LOCALHOST; V4 [192; 168; 1; 1]; V4 [100; 64; 0; 9]].
Definition demo_polls : list StaPoll :=
  let ok (_ : IpAddr) (_ : Z) := true in [mkPoll None ok; mkPoll (Some (lit "10.0.0.7")) ok; mkPoll (Some (lit "10.0.0.8")) ok].

Lemma served_where_witness : exists at_start, serve_at_start 8080 8443 true (fun _ _ => true) (web_listen_addrs demo_ifs) = Some at_start /\
  let w := run_watch 8080 8443 true true (web_listen_addrs demo_ifs) demo_polls (mkWatch None [[192; 168; 1; 1]]) in
  map addr (serving at_start w) = [V4 LOCALHOST; V4 LOCALHOST; V4 [192; 168; 1; 1]; V4 [192; 168; 1; 1]; V4 [10; 0; 0; 8]; V4 [10; 0; 0; 8]] /\
  mdns_addrs w = [[192; 168; 1; 1]; [10; 0; 0; 8]] /\
  forall l, l ∈ serving at_start w -> kind l = Loopback -> ip_is_loopback (addr l) = true.
Proof.
  eexists. split; [vm_compute; reflexivity|]. split; [vm_compute; reflexivity|]. split; [vm_compute; reflexivity|].
  intros l Hl. eapply (proj1 (served_where 8080 8443 true demo_ifs (fun _ _ => true) _ true [[192; 168; 1; 1]] demo_polls ltac:(vm_compute; reflexivity))). exact Hl.
Defined.
