(* ===== verification/Sim.v ===== *)
(** * The home network from the SIM ([lib/src/sim])

    The AT command that reads the card's own networks, the answer as it comes in over the serial port, and what is made of it.
    The modem is an argument: what a read gives, after what was written, until the time is up. *)

From S2P Require Import Prelude RustStr Filesystem Plmn Qr.

Local Open Scope Z_scope.

Inductive AtReason := Not_Opened | Timed_Out | No_Crsm_Line | No_Sw1 | No_Sw2 | Bad_Payload | Bad_Status (sw1 sw2 : Z) | No_Usable_Plmn.
Inductive SimError := UnsupportedDevice | AtCommandError (reason : AtReason) | SimIoError (e : ErrorKind).

Definition READ_EF_HPLMNWACT : rstr := lit "AT+CRSM=176,28514,0,0,10".
Definition RECORD_LEN : nat := 5.

Definition is_normal_ending (sw1 sw2 : Z) : bool := (sw1 =? 0x90) && (sw2 =? 0x00) || (sw1 =? 0x91) || (sw1 =? 0x92).

(** A line that ends an answer. *)
Definition final_line (line : rstr) : bool :=
  bool_decide (line = lit "OK") || bool_decide (line = lit "ERROR") || starts_with line (lit "+CME ERROR:") || starts_with line (lit "+CMS ERROR:").
Definition is_terminated (response : rstr) : bool := existsb final_line (map trim (lines response)).

(** The port: whether it opens, whether a command can be written, and what the reads after it give; a port that gives nothing more is
    silent until the time is up. *)
Record Port := mkPort { opens : bool; write_all : rstr -> result ErrorKind unit; port_reads : rstr -> list (result ErrorKind (list Z)) }.

Fixpoint read_answer (reads : list (result ErrorKind (list Z))) (response : rstr) : result SimError rstr :=
  if is_terminated response then Ok response
  else match reads with
  | [] => Err (AtCommandError Timed_Out)
  | Err e :: _ => Err (SimIoError e)
  | Ok [] :: _ => Ok response
  | Ok chunk :: reads => read_answer reads (response ++ from_utf8_lossy chunk)
  end.
Definition send_at_command (port : Port) (command : rstr) : result SimError rstr :=
  if negb (opens port) then Err (AtCommandError Not_Opened)
  else let line := command ++ [13] in
       match write_all port line with Err e => Err (SimIoError e) | Ok _ => read_answer (port_reads port line) [] end.

(** [digits.chunks(2)], of an even number. *)
Fixpoint hex_pairs (digits : list Z) : list Z :=
  match digits with a :: b :: digits => Z.lor (wrapu 8 (Z.shiftl a 4)) b :: hex_pairs digits | _ => [] end.
Definition decode_hex (s : rstr) : option (list Z) :=
  digits ← mapM to_digit16 (filter (fun c => is_ascii_whitespace c = false) s);
  if Nat.odd (length digits) then None else Some (hex_pairs digits).

(** [trim_start_matches("+CRSM:")]: as often as it is there. *)
Fixpoint trim_start_matches_fuel (fuel : nat) (pat s : rstr) : rstr :=
  match fuel with O => s | S fuel => match strip_prefix pat s with Some s' => trim_start_matches_fuel fuel pat s' | None => s end end.
Definition trim_start_matches (pat s : rstr) : rstr := trim_start_matches_fuel (length s) pat s.

Definition CRSM : rstr := lit "+CRSM:".
(** The fields of a line are at least one, since [split] gives one. *)
Definition parse_crsm_line (line : rstr) : result SimError (Z * Z * list Z) :=
  let fields := split_on 44 (trim (trim_start_matches CRSM line)) in
  let u8 (n : nat) := fields !! n ≫= fun f => parse_unsigned 8 (trim f) in
  match u8 0%nat with
  | None => Err (AtCommandError No_Sw1)
  | Some sw1 =>
      match u8 1%nat with
      | None => Err (AtCommandError No_Sw2)
      | Some sw2 =>
          match fields !! 2%nat with
          | None => Ok (sw1, sw2, [])
          | Some field => match decode_hex (trim_matches 34 (trim field)) with
                          | Some payload => Ok (sw1, sw2, payload)
                          | None => Err (AtCommandError Bad_Payload)
                          end
          end
      end
  end.
Definition parse_crsm_response (response : rstr) : result SimError (Z * Z * list Z) :=
  match List.find (fun line => starts_with line CRSM) (map trim (lines response)) with
  | None => Err (AtCommandError No_Crsm_Line)
  | Some line => parse_crsm_line line
  end.

(** [payload.chunks(RECORD_LEN)]: the last may be shorter. *)
Fixpoint chunks_fuel (fuel n : nat) (l : list Z) : list (list Z) :=
  match fuel, l with S fuel, _ :: _ => take n l :: chunks_fuel fuel n (drop n l) | _, _ => [] end.
Definition chunks (n : nat) (l : list Z) : list (list Z) := chunks_fuel (length l) n l.
(** [record.get(..PACKED_BCD_LEN)]. *)
Definition record_plmn (record : list Z) : option rstr :=
  if (PACKED_BCD_LEN <=? length record)%nat then decode_packed_bcd (take PACKED_BCD_LEN record) else None.
Definition parse_hplmnwact (payload : list Z) : gset rstr := list_to_set (omap record_plmn (chunks RECORD_LEN payload)).

Definition get_home_plmn (port : Port) : result SimError (gset rstr) :=
  match send_at_command port READ_EF_HPLMNWACT with
  | Err e => Err e
  | Ok response =>
      match parse_crsm_response response with
      | Err e => Err e
      | Ok (sw1, sw2, payload) =>
          if negb (is_normal_ending sw1 sw2) then Err (AtCommandError (Bad_Status sw1 sw2))
          else let plmns := parse_hplmnwact payload in
               if bool_decide (plmns = ∅) then Err (AtCommandError No_Usable_Plmn) else Ok plmns
      end
  end.

(** [home_plmn]; [ports] are the unit's devices. *)
Definition home_plmn (ports : rstr -> Port) (device : Device) : gset rstr :=
  match (match device with
         | Tplink | Orbic | Moxee => get_home_plmn (ports (lit "/dev/smd7"))
         | _ => Err UnsupportedDevice
         end) with
  | Ok plmns => plmns
  | Err _ => ∅
  end.

(** The answers of the unit tests. *)
Example crsm_test : parse_crsm_response (lit "AT+CRSM" ++ [13; 13; 10] ++ lit "+CRSM: 144,0," ++ [34] ++ lit "62F2208000FFFFFF0000" ++ [34; 13; 10; 13; 10] ++ lit "OK" ++ [13; 10]) =
  Ok (144, 0, [0x62; 0xf2; 0x20; 0x80; 0; 0xff; 0xff; 0xff; 0; 0]).
Proof. vm_compute. reflexivity. Qed.
Example hplmnwact_test : parse_hplmnwact [0x62; 0xf2; 0x20; 0x80; 0; 0x62; 0xf2; 0x20; 0x40; 0; 0x62] = {[lit "262-02"]}.
Proof. vm_compute. reflexivity. Qed.

(** ** Hexadecimal *)

Lemma hex_digit_range d : 0 <= d < 16 -> 48 <= hex_digit d <= 57 \/ 97 <= hex_digit d <= 102.
Proof. intros Hd. unfold hex_digit. destruct (Z.ltb_spec d 10); lia. Qed.
Definition hex_text (payload : list Z) : rstr := flat_map fmt_02x payload.
Lemma hex_text_chars payload : bytes_ok payload -> Forall (fun c => 48 <= c <= 57 \/ 97 <= c <= 102) (hex_text payload).
Proof.
  induction 1 as [|b l Hb _ IH]; [constructor|]. unfold in_u in Hb. cbn.
  repeat apply Forall_cons_2; [apply hex_digit_range; dlia..|done].
Qed.
Lemma filter_keeps (P : rchar -> Prop) `{forall c, Decision (P c)} l : Forall P l -> filter P l = l.
Proof. induction 1 as [|c l Hc _ IH]; [done|]. rewrite filter_cons_True by done. by rewrite IH. Qed.
Lemma decode_hex_text payload : bytes_ok payload -> decode_hex (hex_text payload) = Some payload.
Proof.
  intros Hp. unfold decode_hex.
  assert (Hf : filter (fun c => is_ascii_whitespace c = false) (hex_text payload) = hex_text payload).
  { apply filter_keeps. eapply Forall_impl; [by apply hex_text_chars|]. intros c Hc. cbn beta in Hc. unfold is_ascii_whitespace. repeat (ztest; [lia|]). done. }
  rewrite Hf. assert (Hd : mapM to_digit16 (hex_text payload) = Some (flat_map (fun b => [b / 16; b mod 16]) payload)).
  { clear Hf. induction Hp as [|b l Hb _ IH]; [done|]. unfold in_u in Hb. cbn [hex_text flat_map fmt_02x app mapM].
    rewrite !to_digit16_hex_digit by dlia. cbn. unfold hex_text in IH. by rewrite IH. }
  rewrite Hd. cbn [mbind option_bind].
  assert (Hl : length (flat_map (fun b => [b / 16; b mod 16]) payload) = (2 * length payload)%nat) by (clear; induction payload; cbn in *; lia).
  rewrite Hl, <- Nat.negb_even, Nat.even_mul. cbn. f_equal. clear Hf Hd Hl.
  induction Hp as [|b l Hb _ IH]; [done|]. unfold in_u in Hb. cbn [flat_map app hex_pairs]. rewrite IH. f_equal.
  rewrite Z.shiftl_mul_pow2 by lia. rewrite wrapu_id by (unfold in_u; dlia).
  rewrite <- Z.shiftl_mul_pow2 by lia. rewrite lor_shiftl by dlia. dlia.
Qed.

(** ** Answers in pieces *)

(** A line no part of which, from its start, ends an answer. *)
Definition harmless (l : rstr) : bool := forallb (fun n => negb (final_line (trim (take n l)))) (seq 0 (S (length l))).
Lemma harmless_prefix l q : harmless l = true -> q `prefix_of` l -> final_line (trim q) = false.
Proof.
  unfold harmless. rewrite forallb_forall. intros H [r ->]. specialize (H (length q)). rewrite take_app_length in H.
  apply negb_true_iff, H. apply in_seq. rewrite length_app. lia.
Qed.

Lemma line_of_piece_frame l : line_of_piece (l ++ [10]) `prefix_of` l.
Proof.
  unfold line_of_piece. rewrite strip_suffix_snoc. unfold strip_suffix. cbn [rev app]. destruct (rev l) as [|x r] eqn:E; [done|].
  cbn [strip_prefix]. destruct (Z.eqb_spec 13 x) as [<-|]; [|done]. exists [13].
  apply (f_equal (@rev _)) in E. rewrite rev_involutive in E. cbn in E. by rewrite E.
Qed.
Lemma lines_frame l s : 10 ∉ l -> lines (l ++ 10 :: s) = line_of_piece (l ++ [10]) :: lines s.
Proof. intros Hl. unfold lines. by rewrite split_inclusive_frame. Qed.
Lemma lines_open q : 10 ∉ q -> lines q = match q with [] => [] | _ => [q] end.
Proof.
  intros Hq. unfold lines. destruct q as [|c q]; [done|]. rewrite split_inclusive_tail by done. cbn [map]. unfold line_of_piece. by rewrite strip_suffix_none.
Qed.

(** The lines, each ended. *)
Definition ended (ls : list rstr) : rstr := flat_map (fun l => l ++ [10]) ls.

Lemma lines_prefix ls p : Forall (fun l => 10 ∉ l) ls -> p `prefix_of` ended ls -> Forall (fun line => exists l, l ∈ ls /\ line `prefix_of` l) (lines p).
Proof.
  intros Hls. revert p. induction Hls as [|l ls Hl _ IH]; intros p Hp; cbn in Hp; [apply prefix_nil_inv in Hp as ->; constructor|].
  destruct Hp as [r Hr]. rewrite <- app_assoc in Hr. cbn in Hr.
  apply app_eq_inv in Hr as [(k & -> & Hk)|(k & -> & Hk)].
  - assert (Hp : 10 ∉ p) by (intros H; apply Hl, elem_of_app; by left).
    rewrite lines_open by done. destruct p as [|c p]; [constructor|]. constructor; [|constructor]. eexists. split; [by left|]. by eexists.
  - destruct k as [|c k].
    + rewrite app_nil_r, lines_open by done. destruct l as [|c l]; [constructor|]. constructor; [|constructor]. eexists. split; [by left|done].
    + cbn in Hk. injection Hk as <- Hk. rewrite lines_frame by done. constructor; [exists l; split; [by left|apply line_of_piece_frame]|].
      eapply Forall_impl; [apply IH; exists r; exact Hk|]. intros line (l' & Hl' & Hpre). exists l'. split; [by right|done].
Qed.
Lemma not_terminated ls p : Forall (fun l => 10 ∉ l) ls -> Forall (fun l => harmless l = true) ls -> p `prefix_of` ended ls -> is_terminated p = false.
Proof.
  intros Hls Hh Hp. apply not_true_iff_false. unfold is_terminated. rewrite existsb_exists. intros (t & Ht & Hf). apply in_map_iff in Ht as (line & <- & Hin).
  pose proof (lines_prefix ls p Hls Hp) as H. rewrite Forall_forall in H, Hh. apply list_elem_of_In in Hin. destruct (H line Hin) as (l & Hl & Hpre).
  by rewrite (harmless_prefix l line (Hh l Hl) Hpre) in Hf.
Qed.

Lemma lines_ended ls s : Forall (fun l => 10 ∉ l) ls -> lines (ended ls ++ s) = map (fun l => line_of_piece (l ++ [10])) ls ++ lines s.
Proof. unfold ended. induction 1 as [|l ls Hl _ IH]; [done|]. cbn [flat_map map]. rewrite <- !app_assoc. cbn [app]. rewrite lines_frame by done. by rewrite IH. Qed.

(** What a sequence of reads gives: some of the answer from its start, at which it ends. *)
Lemma read_answer_prefix (pieces : list rstr) more response :
  Forall (fun c => c <> [] /\ Forall (fun x => 0 <= x < 128) c) pieces ->
  is_terminated (response ++ concat pieces) = true ->
  exists p, read_answer (map Ok pieces ++ more) response = Ok p /\ response `prefix_of` p /\ p `prefix_of` (response ++ concat pieces) /\ is_terminated p = true.
Proof.
  intros Hp. revert response. induction Hp as [|c pieces [Hne Hascii] _ IH]; intros response Ht.
  - cbn in Ht. rewrite app_nil_r in Ht. exists response. split_and!; [|done|by exists []; rewrite ?app_nil_r|done]. destruct more; cbn; by rewrite Ht.
  - cbn [map app read_answer]. destruct (is_terminated response) eqn:E.
    + exists response. split_and!; [done|done|by eexists|done].
    + destruct c as [|x c]; [done|].
      assert (Hl : from_utf8_lossy (x :: c) = x :: c).
      { rewrite <- (utf8_roundtrip (x :: c)) at 2.
        - f_equal. clear -Hascii. induction Hascii as [|y l Hy _ IH]; [done|]. unfold as_bytes in *. cbn [flat_map]. rewrite <- IH. unfold utf8_char.
          by rewrite (proj2 (Z.ltb_lt y 0x80)) by lia.
        - eapply Forall_impl; [exact Hascii|]. unfold is_scalar. intros. lia. }
      rewrite Hl. cbn [concat] in Ht. rewrite app_assoc in Ht. destruct (IH _ Ht) as (p & Hr & H1 & H2 & H3).
      exists p. split_and!; [done|by etransitivity; [|exact H1]; eexists|by rewrite <- app_assoc in H2|done].
Qed.

(** ** The line with the card's answer *)

Definition crsm_line (payload : list Z) : rstr := lit "+CRSM: 144,0," ++ [34] ++ hex_text payload ++ [34].

Lemma trim_visible_head c q : is_whitespace c = false -> exists t, trim (c :: q) = c :: t /\ t `prefix_of` q.
Proof.
  intros Hc. unfold trim. destruct (trim_by_spec is_whitespace (c :: q)) as (a & b & Hs & Hw & _).
  destruct a as [|x a]; [|injection Hs as -> _; apply Forall_cons in Hw as [H _]; congruence]. cbn [app] in Hs.
  destruct (trim_by is_whitespace (c :: q)) as [|x t] eqn:E.
  - cbn [app] in Hs. subst b. apply Forall_cons in Hw as [H _]. congruence.
  - cbn [app] in Hs. injection Hs as <- Hs. exists t. split; [done|]. exists b. exact Hs.
Qed.
Lemma crsm_line_harmless payload : harmless (crsm_line payload ++ [13]) = true.
Proof.
  unfold harmless. apply forallb_forall. intros n _. apply negb_true_iff. unfold crsm_line. destruct n as [|n]; [done|].
  change (lit "+CRSM: 144,0,") with (43 :: 67 :: 82 :: lit "SM: 144,0,"). cbn [app take].
  match goal with |- context [take n (67 :: 82 :: ?x)] => generalize x end. intros tail.
  destruct (trim_visible_head 43 (take n (67 :: 82 :: tail)) eq_refl) as (t & -> & Ht).
  unfold final_line. rewrite !bool_decide_eq_false_2 by done. cbn [orb]. apply orb_false_iff.
  assert (Hno : forall x, starts_with (43 :: t) (43 :: 67 :: 77 :: x) = false).
  { intros x. apply not_true_iff_false. rewrite starts_with_spec. intros [r Hr]. injection Hr as ->. destruct Ht as [k Hk].
    destruct n as [|[|n]]; cbn in Hk; discriminate. }
  split; apply Hno.
Qed.

Lemma crsm_line_no_feed payload : bytes_ok payload -> 10 ∉ crsm_line payload ++ [13].
Proof.
  intros Hp. unfold crsm_line. rewrite !elem_of_app, !list_elem_of_singleton. pose proof (hex_text_chars _ Hp) as H. rewrite Forall_forall in H.
  intros [[Hi|[Hi|[Hi|Hi]]]|Hi]; try done.
  - apply (bool_decide_unpack _) in Hi || (revert Hi; apply (bool_decide_unpack _); vm_compute; done).
  - apply H in Hi. lia.
Qed.
Lemma line_of_crsm payload : line_of_piece ((crsm_line payload ++ [13]) ++ [10]) = crsm_line payload.
Proof. unfold line_of_piece. by rewrite !strip_suffix_snoc. Qed.
Lemma trim_crsm payload : trim (crsm_line payload) = crsm_line payload.
Proof.
  apply trim_by_id.
  - intros c t H. unfold crsm_line in H. change (lit "+CRSM: 144,0,") with (43 :: lit "CRSM: 144,0,") in H. cbn in H. by injection H as <- _.
  - intros c t H. unfold crsm_line in H. rewrite !app_assoc in H. apply app_inj_tail in H as [_ <-]. done.
Qed.

Lemma parse_crsm payload : bytes_ok payload -> parse_crsm_line (crsm_line payload) = Ok (144, 0, payload).
Proof.
  intros Hp. pose proof (hex_text_chars _ Hp) as Hx. rewrite Forall_forall in Hx. unfold parse_crsm_line.
  assert (Ht : trim (trim_start_matches CRSM (crsm_line payload)) = lit "144,0," ++ [34] ++ hex_text payload ++ [34]).
  { unfold trim_start_matches. unfold crsm_line at 2. change (lit "+CRSM: 144,0," ++ [34] ++ hex_text payload ++ [34]) with (CRSM ++ 32 :: lit "144,0," ++ [34] ++ hex_text payload ++ [34]).
    destruct (length (crsm_line payload)) as [|n] eqn:E; [discriminate|]. cbn [trim_start_matches_fuel].
    assert (Hs : forall r, strip_prefix CRSM (CRSM ++ r) = Some r) by (intros r; vm_compute; done). rewrite Hs. clear Hs E.
    assert (Hn : forall k r, trim_start_matches_fuel k CRSM (32 :: r) = 32 :: r) by (by intros [|k] r). rewrite Hn.
    change (32 :: lit "144,0," ++ [34] ++ hex_text payload ++ [34]) with ([32] ++ (lit "144,0," ++ [34] ++ hex_text payload ++ [34])).
    unfold trim, trim_by. change (trim_start_by is_whitespace ([32] ++ ?x)) with (trim_start_by is_whitespace x).
    apply trim_by_id.
    - intros c t H. change (lit "144,0,") with (49 :: lit "44,0,") in H. cbn in H. by injection H as <- _.
    - intros c t H. rewrite !app_assoc in H. apply app_inj_tail in H as [_ <-]. done. }
  rewrite Ht. change (lit "144,0,") with (lit "144" ++ 44 :: lit "0" ++ [44]). rewrite <- !app_assoc. cbn [app]. rewrite <- app_assoc. cbn [app].
  rewrite !split_on_cons by (by apply (bool_decide_unpack _)).
  rewrite split_on_none. 2:{ rewrite elem_of_cons, elem_of_app, list_elem_of_singleton. intros [?|[H|?]]; [done| |done]. apply Hx in H. lia. }
  cbn [lookup list_lookup mbind option_bind]. change (parse_unsigned 8 (trim (lit "144"))) with (Some 144). change (parse_unsigned 8 (trim (lit "0"))) with (Some 0).
  cbn iota beta.
  assert (Hf : trim (34 :: hex_text payload ++ [34]) = [34] ++ hex_text payload ++ [34]).
  { apply trim_by_id; [intros c t [= <- _]; done|]. intros c t H. change (34 :: hex_text payload ++ [34]) with ((34 :: hex_text payload) ++ [34]) in H. rewrite ?app_assoc in H. apply app_inj_tail in H as [_ <-]. done. }
  rewrite Hf.
  assert (Hq : trim_matches 34 ([34] ++ hex_text payload ++ [34]) = hex_text payload).
  { unfold trim_matches, trim_by. assert (H34 : forall l, trim_start_by (fun x => x =? 34) ([34] ++ l) = trim_start_by (fun x => x =? 34) l) by done. rewrite H34. clear H34.
    destruct (hex_text payload) as [|h hs] eqn:E; [vm_compute; done|]. assert (Hall : forall c, c ∈ h :: hs -> (c =? 34) = false) by (intros c H; apply Hx in H; lia).
    rewrite trim_start_by_id by (intros c t [= <- _]; apply Hall; by left). unfold trim_end_by. rewrite rev_app_distr. cbn [rev app trim_start_by].
    change (34 =? 34) with true. cbn iota. rewrite trim_start_by_id; [cbn [rev]; by rewrite rev_app_distr, rev_involutive|].
    intros c t H. apply Hall. rewrite list_elem_of_In. apply in_rev. cbn [rev]. rewrite H. by left. }
  rewrite Hq. by rewrite decode_hex_text.
Qed.

(** What is parsed is the first line that starts with [+CRSM:], whatever comes around it. *)
Lemma parse_answer before payload s :
  Forall (fun l => 10 ∉ l) before -> Forall (fun l => starts_with (trim (line_of_piece (l ++ [10]))) CRSM = false) before -> bytes_ok payload ->
  parse_crsm_response (ended (before ++ [crsm_line payload ++ [13]]) ++ s) = Ok (144, 0, payload).
Proof.
  intros Hb Hs Hp. unfold parse_crsm_response. rewrite lines_ended.
  2:{ apply Forall_app_2; [done|]. constructor; [by apply crsm_line_no_feed|constructor]. }
  rewrite !map_app, <- app_assoc. cbn [map app]. rewrite line_of_crsm. clear Hb.
  induction Hs as [|l before Hl _ IH]; cbn [map app List.find].
  - rewrite trim_crsm. assert (Hc : starts_with (crsm_line payload) CRSM = true) by (apply starts_with_spec; by eexists). rewrite Hc. by apply parse_crsm.
  - rewrite Hl. exact IH.
Qed.


(** ** The theorem at a concrete input *)

(** An answer with its echo, in pieces that split its lines. *)
Definition demo_answer : rstr := ended [READ_EF_HPLMNWACT ++ [13; 13]; crsm_line [0x62; 0xf2; 0x20; 0x80; 0; 0x00; 0xf1; 0x10; 0x40; 0] ++ [13]; [13]] ++ lit "OK" ++ [13; 10].
Definition demo_port : Port :=
  mkPort true (fun _ => Ok tt) (fun _ => map Ok [take 30 demo_answer; take 30 (drop 30 demo_answer); drop 60 demo_answer]).

