(* ===== verification/Check.v ===== *)
(** * The checker for captures ([check/src])

    What [rayhunter-check] makes of a directory of captures: the details read beside each, its report, the capture it converts to, and the
    JSON file written as it goes along.  The walk over the directory, the files and the texts [serde_json] gives are arguments; an
    [expect] that is not met ends the program ([Panics]). *)

From S2P Require Import Prelude RustStr Floats Deku Hdlc DiagLog Diag Gsmtap GsmtapParser InformationElement Analyzer.
From S2P Require Import Pcap Qmdl Config Sidecar Gps Export.
From stdpp Require Import sorting.

Local Open Scope Z_scope.

(** ** Reports *)

Record EventWithTimestamp := mkTimed { timed_at : Z; timed_event : Event }.
Record Report := mkReport {
  skipped_reasons : gmap rstr Z; report_events : list EventWithTimestamp; total_messages : Z; warnings : Z; skipped : Z; file_path : rstr }.
Definition Report_new (path : rstr) : Report := mkReport ∅ [] 0 0 0 path.

Definition count_skip (self : Report) (reason : option rstr) : Report :=
  match reason with
  | None => self
  | Some reason =>
      mkReport (<[reason := wrapu 32 (default 0 (skipped_reasons self !! reason) + 1)]> (skipped_reasons self)) (report_events self)
        (total_messages self) (warnings self) (wrapu 32 (skipped self + 1)) (file_path self)
  end.
Definition process_event (timestamp : option Z) (self : Report) (maybe_event : option Event) : Report :=
  match maybe_event, timestamp with
  | Some event, Some timestamp =>
      let warnings := match event_type event with
                      | Informational => warnings self
                      | Low | Medium | High => wrapu 32 (warnings self + 1) end in
      mkReport (skipped_reasons self) (report_events self ++ [mkTimed timestamp event]) (total_messages self) warnings (skipped self) (file_path self)
  | _, _ => self
  end.
Definition process_row (self : Report) (row : AnalysisRow) : Report :=
  let self := mkReport (skipped_reasons self) (report_events self) (wrapu 32 (total_messages self + 1)) (warnings self) (skipped self) (file_path self) in
  fold_left (process_event (packet_timestamp row)) (events row) (count_skip self (skipped_message_reason row)).

(** ** The details beside a capture *)

(** The order of [String]s. *)
Fixpoint str_leb (a b : rstr) : bool :=
  match a, b with
  | [], _ => true
  | _ :: _, [] => false
  | x :: a, y :: b => (x <? y) || ((x =? y) && str_leb a b)
  end.
Definition str_le (a b : rstr) : Prop := str_leb a b = true.
#[export] Instance str_le_dec : forall a b, Decision (str_le a b) := fun a b => bool_eq_dec (str_leb a b) true.
Definition sorted_set (s : gset rstr) : list rstr := merge_sort str_le (elements s).

Definition device_metadata (s : RecordingSidecar) : DeviceMetadata := {| metadata_home_plmn := sorted_set (home_plmn s) |}.
Definition DeviceMetadata_default : DeviceMetadata := {| metadata_home_plmn := [] |}.

(** [read] is a file of this name in the capture's directory. *)
Definition recorded_device_metadata (from_slice : list Z -> option RecordingSidecar) (read : rstr -> result ErrorKind (list Z)) (file_name : rstr) : DeviceMetadata :=
  match sidecar_name_beside file_name with
  | None => DeviceMetadata_default
  | Some sidecar_path =>
      match read sidecar_path with
      | Err _ => DeviceMetadata_default
      | Ok bytes => match from_slice bytes with Some sidecar => device_metadata sidecar | None => DeviceMetadata_default end
      end
  end.

(** ** The JSON file *)

(** [serde_json::to_string] of what is put into it. *)
Class JsonText := { path_json : rstr -> rstr; metadata_json : ReportMetadata -> rstr; report_json : Report -> rstr }.

(** [BufWriter<File>]: what has been handed to it, and what the file holds once it is flushed. *)
Class BufWriter (W : Type) := {
  handed : W -> list Z;
  on_disk : W -> list Z;
  write_all : list Z -> W -> io unit W;
  flush : W -> io unit W;
  write_all_ok data w w' : write_all data w = (Ok tt, w') -> handed w' = handed w ++ data;
  flush_ok w w' : flush w = (Ok tt, w') -> on_disk w' = handed w
}.

Inductive Failure := Panics | OutOfFuel.

Definition quoted (s : rstr) : rstr := [34] ++ s ++ [34].
Definition document_start (J : JsonText) (check_path : rstr) (metadata : ReportMetadata) : rstr :=
  lit "{ " ++ quoted (lit "path") ++ lit ": " ++ path_json check_path ++ lit ", " ++ quoted (lit "metadata") ++ lit ": " ++ metadata_json metadata
  ++ lit ", " ++ quoted (lit "reports") ++ lit ": [".

Section writer.
Context {J : JsonText} {W : Type} `{!BufWriter W}.
Record IncrementalJsonWriter := mkJson { json_writer : W; reports_written : Z }.

Definition IncrementalJsonWriter_new (file : W) (check_path : rstr) (metadata : ReportMetadata) : result ErrorKind IncrementalJsonWriter :=
  match write_all (as_bytes (document_start J check_path metadata)) file with
  | (Ok _, w) => Ok (mkJson w 0)
  | (Err e, _) => Err e
  end.
Definition write_report (self : IncrementalJsonWriter) (report : Report) : result ErrorKind IncrementalJsonWriter :=
  match (if 0 <? reports_written self then write_all [44] (json_writer self) else (Ok tt, json_writer self)) with
  | (Err e, _) => Err e
  | (Ok _, w) =>
      match write_all (as_bytes (report_json report)) w with
      | (Err e, _) => Err e
      | (Ok _, w) => Ok (mkJson w (wrapu 64 (reports_written self + 1)))
      end
  end.
(** [finish]: the file that is left. *)
Definition json_finish (self : IncrementalJsonWriter) : result ErrorKind W :=
  match write_all (as_bytes (lit "]}")) (json_writer self) with
  | (Err e, _) => Err e
  | (Ok _, w) => match flush w with (Err e, _) => Err e | (Ok _, w) => Ok w end
  end.
Definition or_panic {E A} (r : result E A) : result Failure A := map_err (fun _ => Panics) r.
Definition write_to (writer : option IncrementalJsonWriter) (report : Report) : result Failure (option IncrementalJsonWriter) :=
  match writer with
  | None => Ok None
  | Some writer => match or_panic (write_report writer report) with Ok writer => Ok (Some writer) | Err e => Err e end
  end.
End writer.
Arguments IncrementalJsonWriter W : clear implicits.

(** ** Analysis *)

(** A capture the walk came by. *)
Record Capture := mkCapture { file_name : rstr; path : rstr }.

(** The files: one beside a capture, a recording's reader, and the items of a capture in pcapng ([None] is a block that is no packet). *)
Record Files (B : Type) := mkFiles {
  read_beside : Capture -> rstr -> result ErrorKind (list Z);
  open_qmdl : rstr -> result ErrorKind B;
  pcap_items : rstr -> result ErrorKind (list (result ErrorKind (option EnhancedPacketBlock))) }.
Arguments read_beside {B} _.
Arguments open_qmdl {B} _.
Arguments pcap_items {B} _.

Section analysis.
Context {C : Crc16} {K : Deku} {R : DiagReader} {D : Decoders} {T : DebugText} {B : Type} `{!BufRead B}.
Context (from_slice : list Z -> option RecordingSidecar) (files : Files B).

Definition harness_for (capture : Capture) : Harness :=
  new_with_config AnalyzerConfig_default (recorded_device_metadata from_slice (read_beside files capture) (file_name capture)).

Fixpoint analyze_pcap_loop (harness : Harness) (report : Report) (blocks : list (result ErrorKind (option EnhancedPacketBlock))) : result Failure Report :=
  match blocks with
  | [] | Err _ :: _ => Ok report
  | Ok None :: blocks => analyze_pcap_loop harness report blocks
  | Ok (Some packet) :: blocks =>
      match analyze_pcap_packet harness packet with
      | None => Err Panics
      | Some (harness, row) => analyze_pcap_loop harness (process_row report row) blocks
      end
  end.
Definition analyze_pcap (capture : Capture) : result Failure Report :=
  match pcap_items files (path capture) with
  | Err _ => Err Panics
  | Ok blocks => analyze_pcap_loop (harness_for capture) (Report_new (path capture)) blocks
  end.

Fixpoint analyze_qmdl_loop (fuel : nat) (harness : Harness) (report : Report) (qmdl_reader : B) : result Failure Report :=
  match fuel with
  | O => Err OutOfFuel
  | S fuel =>
      match get_next_message qmdl_reader with
      | (Err _, _) => Err Panics
      | (Ok None, _) => Ok report
      | (Ok (Some maybe_message), qmdl_reader) =>
          match analyze_qmdl_message harness maybe_message with
          | None => Err Panics
          | Some (harness, row) => analyze_qmdl_loop fuel harness (process_row report row) qmdl_reader
          end
      end
  end.
Definition analyze_qmdl (fuel : nat) (capture : Capture) : result Failure Report :=
  match open_qmdl files (path capture) with
  | Err _ => Err Panics
  | Ok qmdl_reader => analyze_qmdl_loop fuel (harness_for capture) (Report_new (path capture)) qmdl_reader
  end.

(** ** Conversion *)

Section pcapify.
Context {V : Type} {P : PcapNgWriter V} {S0 : PcapNgStart V}.
Fixpoint pcapify_loop (fuel : nat) (qmdl_reader : B) (pcap_writer : GsmtapPcapWriter V) : result Failure (GsmtapPcapWriter V) :=
  match fuel with
  | O => Err OutOfFuel
  | S fuel =>
      match get_next_message qmdl_reader with
      | (Err _, _) => Err Panics
      | (Ok None, _) => Ok pcap_writer
      | (Ok (Some maybe_message), qmdl_reader) =>
          match (match maybe_message with Ok msg => result_ok (parse msg) | Err _ => None end) with
          | Some (Some (timestamp, parsed)) =>
              match write_gsmtap_message pcap_writer parsed timestamp None with
              | Err _ => Err Panics
              | Ok pcap_writer => pcapify_loop fuel qmdl_reader pcap_writer
              end
          | _ => pcapify_loop fuel qmdl_reader pcap_writer
          end
      end
  end.
(** [pcap_file] is the file created beside the recording; what is returned is what it then holds. *)
Definition pcapify (fuel : nat) (capture : Capture) (pcap_file : V) : result Failure V :=
  match open_qmdl files (path capture) with
  | Err _ => Err Panics
  | Ok qmdl_reader =>
      match (w ← GsmtapPcapWriter_new pcap_file; write_iface_header w) with
      | Err _ => Err Panics
      | Ok w => match pcapify_loop fuel qmdl_reader w with Ok w => Ok (Pcap.writer w) | Err e => Err e end
      end
  end.
End pcapify.

(** ** The program *)

Inductive Job := AnalyzeQmdl | AnalyzePcap.
Definition job_of (name : rstr) : option Job :=
  if ends_with name (lit ".qmdl") || ends_with name (lit ".qmdl.gz") then Some AnalyzeQmdl
  else if ends_with name (lit ".pcap") || ends_with name (lit ".pcapng") then Some AnalyzePcap
  else None.
Definition analyze (fuel : nat) (capture : Capture) (job : Job) : result Failure Report :=
  match job with AnalyzeQmdl => analyze_qmdl fuel capture | AnalyzePcap => analyze_pcap capture end.

Context {J : JsonText} {W : Type} `{!BufWriter W}.
(** [--pcapify] after the analysis of a recording: [pcapify], or nothing. *)
Context (convert : Capture -> result Failure unit).
Definition after_analysis (capture : Capture) (job : Job) : result Failure unit :=
  match job with AnalyzeQmdl => convert capture | AnalyzePcap => Ok tt end.

(** [None] is an entry the walk could not open. *)
Fixpoint check_entries (fuel : nat) (entries : list (option Capture)) (json_writer : option (IncrementalJsonWriter W)) : result Failure (option (IncrementalJsonWriter W)) :=
  match entries with
  | [] => Ok json_writer
  | None :: entries => check_entries fuel entries json_writer
  | Some capture :: entries =>
      match job_of (file_name capture) with
      | None => check_entries fuel entries json_writer
      | Some job =>
          match (report ← analyze fuel capture job; w ← write_to json_writer report; _ ← after_analysis capture job; Ok w) with
          | Ok json_writer => check_entries fuel entries json_writer
          | Err e => Err e
          end
      end
  end.

(** [main]; [json] is the file opened for [--json], if it is given. *)
Definition main (fuel : nat) (check_path : rstr) (runtime : RuntimeMetadata) (entries : list (option Capture)) (json : option W) : result Failure (option W) :=
  let metadata := get_metadata (new_with_config AnalyzerConfig_default DeviceMetadata_default) runtime in
  match (match json with None => Ok None | Some file => Some <$> or_panic (IncrementalJsonWriter_new file check_path metadata) end) with
  | Err e => Err e
  | Ok json_writer =>
      match check_entries fuel entries json_writer with
      | Err e => Err e
      | Ok None => Ok None
      | Ok (Some writer) => Some <$> or_panic (json_finish writer)
      end
  end.
End analysis.

(** ** What a report holds *)

Definition row_events (row : AnalysisRow) : list EventWithTimestamp :=
  match packet_timestamp row with Some t => map (mkTimed t) (omap id (events row)) | None => [] end.
Definition is_warning (e : EventWithTimestamp) : bool :=
  match event_type (timed_event e) with Informational => false | _ => true end.
Definition has_reason (row : AnalysisRow) : bool := bool_decide (is_Some (skipped_message_reason row)).
Definition count {A} (p : A -> bool) (l : list A) : Z := Z.of_nat (length (List.filter p l)).
Definition reason_is (reason : rstr) (row : AnalysisRow) : bool := bool_decide (skipped_message_reason row = Some reason).

Lemma count_app {A} (p : A -> bool) l l' : count p (l ++ l') = count p l + count p l'.
Proof. unfold count. rewrite List.filter_app, length_app. lia. Qed.
Lemma count_nonneg {A} (p : A -> bool) l : 0 <= count p l.
Proof. unfold count. lia. Qed.

(** A report of these rows. *)
Record report_of (path : rstr) (rows : list AnalysisRow) (r : Report) : Prop := mkReportOf {
  of_path : file_path r = path;
  of_total : total_messages r = wrapu 32 (Z.of_nat (length rows));
  of_events : report_events r = flat_map row_events rows;
  of_warnings : warnings r = wrapu 32 (count is_warning (report_events r));
  of_skipped : skipped r = wrapu 32 (count has_reason rows);
  of_reasons reason : default 0 (skipped_reasons r !! reason) = wrapu 32 (count (reason_is reason) rows) }.

Lemma wrapu_succ w z : 0 <= w -> wrapu w (wrapu w z + 1) = wrapu w (z + 1).
Proof. intros Hw. unfold wrapu. by rewrite Zplus_mod_idemp_l. Qed.
Lemma count_one {A} (p : A -> bool) x : count p [x] = if p x then 1 else 0.
Proof. unfold count. cbn. by destruct (p x). Qed.

Lemma process_events_spec t es r : warnings r = wrapu 32 (count is_warning (report_events r)) ->
  let r' := fold_left (process_event t) es r in
  let new := match t with Some t => map (mkTimed t) (omap id es) | None => [] end in
  report_events r' = report_events r ++ new /\ warnings r' = wrapu 32 (count is_warning (report_events r')) /\
  (total_messages r', skipped r', skipped_reasons r', file_path r') = (total_messages r, skipped r, skipped_reasons r, file_path r).
Proof.
  revert r. induction es as [|e es IH]; intros r Hw; cbn [fold_left omap list_omap id].
  { destruct t; cbn; by rewrite app_nil_r. }
  destruct e as [e|], t as [t|]; cbn [process_event]; try (by apply IH).
  match goal with |- context [fold_left _ es ?r0] => destruct (IH r0) as (H1 & H2 & H3) end.
  2: { cbn [report_events] in H1. rewrite <- app_assoc in H1. by split. }
  cbn [warnings report_events]. rewrite count_app, count_one, Hw. unfold is_warning. cbn [timed_event].
  destruct (event_type e); rewrite ?wrapu_succ by lia; f_equal; lia.
Qed.

Lemma process_row_spec path rows r row : report_of path rows r -> report_of path (rows ++ [row]) (process_row r row).
Proof.
  intros [Hp Ht He Hw Hs Hr]. unfold process_row.
  set (r0 := mkReport (skipped_reasons r) (report_events r) (wrapu 32 (total_messages r + 1)) (warnings r) (skipped r) (file_path r)).
  set (r1 := count_skip r0 (skipped_message_reason row)).
  assert (H0 : (report_events r1, warnings r1, total_messages r1, file_path r1) = (report_events r, warnings r, wrapu 32 (total_messages r + 1), file_path r)).
  { subst r1. by destruct (skipped_message_reason row). }
  injection H0 as E1 E2 E3 E4.
  destruct (process_events_spec (packet_timestamp row) (events row) r1) as (H1 & H2 & H3); [by rewrite E1, E2|].
  injection H3 as F1 F2 F3 F4. split.
  - by rewrite F4, E4.
  - rewrite F1, E3, Ht, wrapu_succ, length_app by lia. f_equal. cbn. lia.
  - rewrite H1, E1, He, flat_map_app. cbn. by rewrite app_nil_r.
  - done.
  - rewrite F2, count_app, count_one. unfold has_reason. subst r1. destruct (skipped_message_reason row) as [reason|]; cbn.
    + by rewrite Hs, wrapu_succ by lia.
    + rewrite Hs. by rewrite Z.add_0_r.
  - intros reason. rewrite F3, count_app, count_one. unfold reason_is. subst r1. destruct (skipped_message_reason row) as [reason'|]; cbn.
    + destruct (decide (reason' = reason)) as [->|Hne].
      * rewrite lookup_insert_eq. cbn. rewrite Hr, wrapu_succ by lia. by rewrite bool_decide_eq_true_2 by done.
      * rewrite lookup_insert_ne by done. rewrite Hr, bool_decide_eq_false_2 by congruence. by rewrite Z.add_0_r.
    + by rewrite Hr, Z.add_0_r.
Qed.
Lemma process_rows_spec path old rows r : report_of path old r -> report_of path (old ++ rows) (fold_left process_row rows r).
Proof.
  revert old r. induction rows as [|row rows IH]; intros old r Hr; cbn; [by rewrite app_nil_r|].
  rewrite (cons_middle row old rows). rewrite app_assoc. by apply IH, process_row_spec.
Qed.
Lemma report_new_spec path : report_of path [] (Report_new path).
Proof. by split. Qed.

(** ** The loops *)

Section loops.
Context {C : Crc16} {K : Deku} {R : DiagReader} {D : Decoders} {T : DebugText} {B : Type} `{!BufRead B}.

(** The messages of a recording. *)
Definition messages_in (r : B) : list (result DiagParsingError Message) := map from_hdlc (split_inclusive MESSAGE_TERMINATOR (contents r)).

(** A turn of a loop over a reader that does not fail: the end, or the first message and a reader of the rest. *)
Lemma next_message (r : B) : always_healthy ->
  (exists r', get_next_message r = (Ok None, r') /\ messages_in r = []) \/
  (exists m r', get_next_message r = (Ok (Some m), r') /\ messages_in r = m :: messages_in r' /\ (length (contents r') < length (contents r))%nat).
Proof.
  intros Hh. unfold get_next_message, messages_in. destruct (Hh r MESSAGE_TERMINATOR) as (buf & r' & E). rewrite E.
  destruct (read_until_ok _ _ _ _ E) as [Hc Hbuf]. destruct (decide (contents r = [])) as [He|Hne].
  { rewrite He in Hbuf |- *. cbn in Hbuf. subst buf. left. by exists r'. }
  destruct (piece_nonempty MESSAGE_TERMINATOR _ Hne) as (w & ws & Hs & Hw). rewrite Hs in Hbuf. cbn in Hbuf. subst buf.
  destruct (split_inclusive_tail_pieces _ _ _ _ Hs) as (s' & Hs' & Hws).
  assert (contents r' = s') as Hr' by (rewrite Hs' in Hc; by apply app_inv_head in Hc).
  right. destruct w as [|x w]; [done|]. exists (from_hdlc (x :: w)), r'. split; [done|].
  split; [by rewrite Hs, Hr', Hws|]. rewrite Hc, length_app. cbn. lia.
Qed.

Lemma analyze_qmdl_loop_rows fuel h rep (r : B) : always_healthy -> (length (contents r) < fuel)%nat ->
  exists h' rows, analyze_all h (messages_in r) = Some (h', rows) /\ analyze_qmdl_loop fuel h rep r = Ok (fold_left process_row rows rep).
Proof.
  intros Hh. revert h rep r. induction fuel as [|fuel IH]; intros h rep r Hf; [lia|]. cbn [analyze_qmdl_loop].
  destruct (next_message r Hh) as [(r' & -> & ->)|(m & r' & -> & -> & Hl)]; [by exists h, []|].
  destruct (analyze_qmdl_message_total h m) as (h1 & row & Hm & _). destruct (IH h1 (process_row rep row) r') as (h2 & rows & H1 & H2); [lia|].
  exists h2, (row :: rows). cbn [analyze_all]. rewrite Hm. cbn [mbind option_bind]. by rewrite H1.
Qed.

(** A row with events has a time stamp. *)
Definition stamped (row : AnalysisRow) : Prop := packet_timestamp row <> None \/ events row = [].
Lemma stamped_events row : stamped row -> map timed_event (row_events row) = omap id (events row).
Proof.
  unfold stamped, row_events. intros [H | ->]; [|by destruct (packet_timestamp row)]. destruct (packet_timestamp row); [|done].
  induction (omap id (events row)) as [|e l IH]; cbn; [done|]. by rewrite IH.
Qed.
Lemma analyze_all_stamped h l h' rows : analyze_all h l = Some (h', rows) -> Forall stamped rows.
Proof.
  revert h rows. induction l as [|m l IH]; intros h rows; cbn [analyze_all]; [by intros [= _ <-]|].
  destruct (analyze_qmdl_message_total h m) as (h1 & row & -> & (_ & _ & _ & He & _) & Ht). cbn [mbind option_bind].
  destruct (analyze_all h1 l) as [[h2 rows']|] eqn:E; cbn [mbind option_bind]; [|done]. intros [= -> <-]. apply Forall_cons_2; [|by apply (IH h1)].
  unfold stamped. destruct m as [[]|]; cbn [is_log] in He; [left; by rewrite Ht|by right..].
Qed.
Lemma rows_events rows : Forall stamped rows -> map timed_event (flat_map row_events rows) = flat_map (fun row => omap id (events row)) rows.
Proof. induction 1 as [|row rows Hr _ IH]; [done|]. cbn [flat_map]. by rewrite map_app, IH, stamped_events. Qed.
End loops.

(** ** The JSON file *)

Definition document (J : JsonText) (check_path : rstr) (metadata : ReportMetadata) (reports : list Report) : rstr :=
  document_start J check_path metadata ++ RustStr.join [44] (map report_json reports) ++ lit "]}".
Definition captures (entries : list (option Capture)) : list (Capture * Job) :=
  omap (fun e => c ← e; j ← job_of (file_name c); Some (c, j)) entries.

Lemma join_snoc sep l x : RustStr.join sep (l ++ [x]) = match l with [] => x | _ => RustStr.join sep l ++ sep ++ x end.
Proof. induction l as [|y [|z l] IH]; [done|done|]. cbn [app RustStr.join] in *. rewrite IH. by rewrite <- !app_assoc. Qed.

Section document.
Context {J : JsonText} {W : Type} `{!BufWriter W}.

(** What the file holds while reports are written. *)
Definition written_so_far (start : list Z) (reports : list Report) (self : IncrementalJsonWriter W) : Prop :=
  handed (json_writer self) = start ++ as_bytes (RustStr.join [44] (map report_json reports)) /\ reports_written self = Z.of_nat (length reports).

Lemma write_report_ok start reports self report self' :
  Z.of_nat (length reports) + 1 < 2 ^ 64 -> written_so_far start reports self -> write_report self report = Ok self' -> written_so_far start (reports ++ [report]) self'.
Proof.
  intros Hlen [Hh Hn]. unfold write_report. destruct (if 0 <? reports_written self then _ else _) as [[[]|e] w] eqn:Ew; [|done].
  destruct (write_all (as_bytes (report_json report)) w) as [[[]|e] w'] eqn:Er; [|done]. intros [= <-]. split; cbn [json_writer reports_written].
  - rewrite (write_all_ok _ _ _ Er), map_app. cbn [map]. rewrite join_snoc. rewrite Hn in Ew. destruct reports as [|r0 reports].
    + cbn in Ew. injection Ew as <-. by rewrite Hh, app_nil_r.
    + replace (0 <? _) with true in Ew by (symmetry; apply Z.ltb_lt; cbn [length]; lia). rewrite (write_all_ok _ _ _ Ew), Hh.
      cbn [map]. rewrite !as_bytes_app. change (as_bytes [44]) with [44]. by rewrite <- !app_assoc.
  - rewrite Hn, length_app, wrapu_id by (unfold in_u; lia). cbn [length]. lia.
Qed.

Context {C : Crc16} {K : Deku} {R : DiagReader} {D : Decoders} {T : DebugText} {B : Type} `{!BufRead B}.
Context (from_slice : list Z -> option RecordingSidecar) (files : Files B) (convert : Capture -> result Failure unit).

Lemma check_entries_ok fuel start entries reports self end_ :
  Z.of_nat (length reports + length entries) + 1 < 2 ^ 64 -> written_so_far start reports self ->
  check_entries from_slice files convert fuel entries (Some self) = Ok end_ ->
  exists more self', collect_result (fun '(c, j) => analyze from_slice files fuel c j) (captures entries) = Ok more /\
    end_ = Some self' /\ written_so_far start (reports ++ more) self'.
Proof.
  revert reports self. induction entries as [|[c|] entries IH]; intros reports self Hlen Hw; cbn [check_entries captures omap list_omap length] in *.
  { intros [= <-]. exists [], self. by rewrite app_nil_r. }
  2: { apply IH; [lia|done]. }
  cbn [mbind option_bind]. destruct (job_of (file_name c)) as [job|] eqn:Ej; cbn [mbind option_bind]; [|apply IH; [lia|done]].
  fold (captures entries). cbn [collect_result]. destruct (analyze from_slice files fuel c job) as [report|e]; cbn [mbind result_bind]; [|done].
  unfold write_to. destruct (write_report self report) as [self1|e] eqn:E1; cbn [or_panic map_err mbind result_bind]; [|done].
  destruct (after_analysis convert c job) as [[]|e]; cbn [mbind result_bind]; [|done]. intros Hc.
  destruct (IH (reports ++ [report]) self1) as (more & self' & -> & -> & Hw'); [rewrite length_app; cbn; lia | eapply write_report_ok; [|done..]; lia | done|].
  exists (report :: more), self'. split; [done|]. split; [done|]. by rewrite <- app_assoc in Hw'.
Qed.

(** The JSON file is whole.  If the checker runs to its end, what it leaves is one object: the path and the detectors, then the report of
    each capture the walk came by, in its order, each once, with commas between them; nothing of it is still in the buffer. *)
Theorem json_document fuel check_path runtime entries file w :
  Z.of_nat (length entries) + 1 < 2 ^ 64 -> handed file = [] ->
  main from_slice files convert fuel check_path runtime entries (Some file) = Ok (Some w) ->
  exists reports, collect_result (fun '(c, j) => analyze from_slice files fuel c j) (captures entries) = Ok reports /\
    on_disk w = as_bytes (document J check_path (get_metadata (new_with_config AnalyzerConfig_default DeviceMetadata_default) runtime) reports).
Proof.
  intros Hlen Hf. unfold main. set (metadata := get_metadata _ runtime). unfold IncrementalJsonWriter_new.
  destruct (write_all _ file) as [[[]|e] w0] eqn:E0; cbn [or_panic map_err fmap result_fmap]; [|done].
  destruct (check_entries _ _ _ _ _ _) as [[self|]|e] eqn:Ec; [|done..].
  edestruct (check_entries_ok fuel (handed w0) entries []) as (reports & self' & Hr & He & [Hh Hn]); [exact Hlen| |exact Ec|].
  { split; [by rewrite app_nil_r|done]. }
  injection He as ->. unfold json_finish. destruct (write_all _ (json_writer self')) as [[[]|e] w1] eqn:E1; cbn [or_panic map_err fmap result_fmap]; [|done].
  destruct (flush w1) as [[[]|e] w2] eqn:E2; cbn [or_panic map_err fmap result_fmap]; [|done]. intros [= <-]. exists reports. split; [exact Hr|].
  rewrite (flush_ok _ _ E2), (write_all_ok _ _ _ E1), Hh, (write_all_ok _ _ _ E0), Hf. unfold document. by rewrite !as_bytes_app, <- app_assoc.
Qed.
End document.

(** ** What the checker promises *)

Section properties.
Context {C : Crc16} {K : Deku} {R : DiagReader} {D : Decoders} {T : DebugText} {B : Type} `{!BufRead B}.
Context (from_slice : list Z -> option RecordingSidecar) (files : Files B).

(** C12: the checker's report is the harness's.  A recording that can be read is analysed to its end, without a panic, whatever it holds;
    its report counts every message, skip and warning, each reason as often as it was given, and has every event of every row, in order:
    none is left out for want of a time stamp. *)
Theorem report_complete fuel capture r :
  open_qmdl files (path capture) = Ok r -> always_healthy (B := B) -> (length (contents r) < fuel)%nat ->
  exists report h rows, analyze_qmdl from_slice files fuel capture = Ok report /\
    analyze_all (harness_for from_slice files capture) (messages_in r) = Some (h, rows) /\
    report_of (path capture) rows report /\
    map timed_event (report_events report) = flat_map (fun row => omap id (events row)) rows.
Proof.
  intros Ho Hh Hf. destruct (analyze_qmdl_loop_rows fuel (harness_for from_slice files capture) (Report_new (path capture)) r Hh Hf) as (h & rows & Ha & Hl).
  pose proof (process_rows_spec _ _ rows _ (report_new_spec (path capture))) as Hr. cbn [app] in Hr.
  eexists _, h, rows. unfold analyze_qmdl. rewrite Ho. split; [exact Hl|]. split; [exact Ha|]. split; [exact Hr|].
  rewrite (of_events _ _ _ Hr). eapply rows_events, analyze_all_stamped, Ha.
Qed.

(** A packet too short for a header ends the program. *)
Theorem short_packet_panics h report packet blocks :
  (length (packet_data packet) <= 40)%nat -> analyze_pcap_loop h report (Ok (Some packet) :: blocks) = Err Panics.
Proof.
  intros Hl. cbn [analyze_pcap_loop]. unfold analyze_pcap_packet, slice_from, gsmtap_offset. destruct (Nat.ltb_spec (length (packet_data packet)) (20 + 8)); [done|].
  cbn [mbind option_bind]. destruct (_ !! 2%nat); [|done]. cbn [mbind option_bind].
  rewrite (lookup_ge_None_2 _ 12); [done|]. rewrite length_drop. lia.
Qed.

(** Transport blocks are left out of a conversion: each of these records gives a download at least the frames of its samples, and
    [pcapify] none. *)
Theorem pcapify_drops_transport {V} {P : PcapNgWriter V} fuel (r r' : B) w m :
  get_next_message r = (Ok (Some (Ok m)), r') ->
  (exists p o i lt t x, m = Log p o i lt t (LteMacDl x) \/ m = Log p o i lt t (LteMacUl x)) ->
  pcapify_loop (S fuel) r w = pcapify_loop fuel r' w /\ exists frames, parse_all m = Ok frames.
Proof.
  intros Hn (p & o & i & lt & t & x & Hm). pose proof (parse_all_parse m) as H. cbn [pcapify_loop]. rewrite Hn.
  destruct Hm as [-> | ->]; destruct H as [H (frames & Hf & _)]; (split; [by rewrite H | by exists frames]).
Qed.
End properties.

(** ** Witnesses *)

Definition example_decoders : Decoders := sample_decoders (fun _ => Ok NAS_Other) (fun _ => Ok null_command).
Definition example_reader : @DiagReader deku_fits := {| message_from_bytes := fun _ =>
  Ok ([], Log 0 0 0 0xb0c0 {| ts := 0 |} (LteRrcOtaMessage 2 (LteRrc_V0 9 0 1 2 3 4 6 1 [0]))) |}.
Definition example_capture : Capture := mkCapture (lit "a.qmdl") (lit "d/a.qmdl").
(** One whole message and a damaged one. *)
Definition example_files : Files (list Z) :=
  mkFiles _ (fun _ _ => Err UnexpectedEof) (fun _ => Ok (sample_recording [[1]] ++ [9; 9; 9; 0x7e])) (fun _ => Ok []).
#[export] Instance list_writer : BufWriter (list Z) := {|
  handed := id; on_disk := id; write_all := fun data w => (Ok tt, w ++ data); flush := fun w => (Ok tt, w);
  write_all_ok := ltac:(intros data w w' H; by injection H as <-); flush_ok := ltac:(intros w w' H; by injection H as <-) |}.
Definition example_json : JsonText := {|
  path_json := quoted; metadata_json := fun _ => lit "{}"; report_json := fun r => lit "{" ++ dec (warnings r) ++ lit "}" |}.

Lemma report_complete_witness :
  exists report, @analyze_qmdl crc_ccitt deku_fits example_reader example_decoders plain_debug (list Z) _ (fun _ => None) example_files 100 example_capture = Ok report /\
    total_messages report = 2 /\ skipped report = 1 /\ warnings report = 1.
Proof.
  destruct (@report_complete crc_ccitt deku_fits example_reader example_decoders plain_debug (list Z) _ (fun _ => None) example_files 100 example_capture
    (sample_recording [[1]] ++ [9; 9; 9; 0x7e]) eq_refl list_reader_healthy) as (report & h & rows & H & Ha & Hr & _).
  - apply Nat.ltb_lt. vm_compute. reflexivity.
  - exists report. split; [exact H|]. assert (Hrep : Some report = result_ok (@analyze_qmdl crc_ccitt deku_fits example_reader example_decoders plain_debug (list Z) _ (fun _ => None) example_files 100 example_capture)) by (rewrite H; reflexivity).
    vm_compute in Hrep. injection Hrep as ->. vm_compute. repeat split.
Defined.

Lemma json_document_witness :
  exists w (reports : list Report), @main crc_ccitt deku_fits example_reader example_decoders plain_debug (list Z) _ (fun _ => None) example_files
      example_json (list Z) _ (fun _ => Ok tt) 100 (lit "d") (Build_RuntimeMetadata [] [] []) [None; Some example_capture; Some example_capture] (Some []) = Ok (Some w) /\
    length reports = 2%nat /\
    on_disk w = as_bytes (document example_json (lit "d")
      (get_metadata (@new_with_config example_decoders AnalyzerConfig_default DeviceMetadata_default) (Build_RuntimeMetadata [] [] [])) reports).
Proof.
  destruct (@json_document example_json (list Z) _ crc_ccitt deku_fits example_reader example_decoders plain_debug (list Z) _ (fun _ => None) example_files
    (fun _ => Ok tt) 100 (lit "d") (Build_RuntimeMetadata [] [] []) [None; Some example_capture; Some example_capture] []
    (as_bytes (lit "{ " ++ quoted (lit "path") ++ lit ": " ++ quoted (lit "d") ++ lit ", " ++ quoted (lit "metadata") ++ lit ": {}, " ++ quoted (lit "reports") ++ lit ": [{1},{1}]}")))
    as (reports & Hr & Hd).
  - reflexivity.
  - reflexivity.
  - vm_compute. reflexivity.
  - eexists _, reports. split; [vm_compute; reflexivity|]. split; [|exact Hd].
    assert (Hl : Some (@length Report reports) = option_map (@length Report) (result_ok (collect_result (fun '(c, j) => @analyze crc_ccitt deku_fits example_reader example_decoders plain_debug (list Z) _ (fun _ => None) example_files 100 c j)
      (captures [None; Some example_capture; Some example_capture])))) by (rewrite Hr; reflexivity).
    vm_compute in Hl. by injection Hl.
Defined.
