(* ===== verification/Installer.v ===== *)
(** * The installer's settings and shell ([installer/src/connection.rs], [util.rs], [persist_adb.rs], [orbic_auth.rs])

    How a setting is put into a configuration file without parsing it, what an installation makes of the file it finds, the output of a
    command cut out of what a telnet shell sends, the commands that keep ADB on, and the scrambling of a password.  The shell on the
    other side is an argument; [anyhow]'s errors are told apart by what raised them. *)

From S2P Require Import Prelude RustStr.

Local Open Scope Z_scope.

(** ** A top-level setting *)

(** [iter.position(p)]. *)
Fixpoint iter_position {A} (p : A -> bool) (l : list A) : option nat :=
  match l with
  | [] => None
  | x :: l => if p x then Some O else S <$> iter_position p l
  end.

Definition trim_start : rstr -> rstr := trim_start_by is_whitespace.
Definition is_header (line : rstr) : bool := starts_with (trim_start line) [91].
Definition assigns (key line : rstr) : bool :=
  let trimmed := trim_start line in
  negb (starts_with trimmed [35]) &&
  match strip_prefix key trimmed with Some rest => starts_with (trim_start rest) [61] | None => false end.
Definition assignment (key rendered : rstr) : rstr := key ++ lit " = " ++ rendered.

(** [Vec::insert]. *)
Definition insert_at {A} (i : nat) (x : A) (l : list A) : list A := take i l ++ x :: drop i l.

Definition set_top_level_lines (ls : list rstr) (key rendered : rstr) : list rstr :=
  let end_ := default (length ls) (iter_position is_header ls) in
  match iter_position (assigns key) (take end_ ls) with
  | Some at_ => <[at_ := assignment key rendered]> ls
  | None => insert_at end_ (assignment key rendered) ls
  end.
Definition set_top_level (config key rendered : rstr) : rstr :=
  join [10] (set_top_level_lines (lines config) key rendered) ++ [10].
Definition bool_text (b : bool) : rstr := if b then lit "true" else lit "false".
Definition set_top_level_bool (config key : rstr) (value : bool) : rstr := set_top_level config key (bool_text value).
(** The two [replace]s: a backslash goes before each backslash, then before each quotation mark. *)
Definition replace_char (c : rchar) (by_ : rstr) (s : rstr) : rstr := flat_map (fun x => if x =? c then by_ else [x]) s.
Definition set_top_level_string (config key value : rstr) : rstr :=
  let escaped := replace_char 34 [92; 34] (replace_char 92 [92; 92] value) in
  set_top_level config key ([34] ++ escaped ++ [34]).

(** ** The connection *)

Inductive InstallError := CommandFailed | UnexpectedOutput | Bail (reason : rstr).

Class DeviceConnection (S : Type) := {
  run_command : rstr -> S -> result InstallError rstr * S;
  write_file : rstr -> list Z -> S -> result InstallError unit * S
}.

(** A computation over the connection. *)
Definition M (S A : Type) : Type := S -> result InstallError A * S.
#[export] Instance M_ret S : MRet (M S) := fun A a s => (Ok a, s).
#[export] Instance M_bind S : MBind (M S) := fun A B f m s => match m s with (Ok a, s) => f a s | (Err e, s) => (Err e, s) end.
Definition bail {S A} (reason : rstr) : M S A := fun s => (Err (Bail reason), s).

(** [.await.map(f).unwrap_or(false)]. *)
Definition answers {S} `{!DeviceConnection S} (command : rstr) (f : rstr -> bool) : M S bool :=
  fun s => match run_command command s with (Ok out, s) => (Ok (f out), s) | (Err _, s) => (Ok false, s) end.

Definition test_f (path : rstr) : rstr := lit "test -f '" ++ path ++ lit "' && echo exists || echo missing".
Definition cat_ (path : rstr) : rstr := lit "cat '" ++ path ++ lit "'".
Definition file_exists {S} `{!DeviceConnection S} (path : rstr) : M S bool := answers (test_f path) (fun out => contains out (lit "exists")).

(** [str::replace]: from left to right, matches do not overlap. *)
Fixpoint replace_fuel (fuel : nat) (from to_ s : rstr) : rstr :=
  match fuel with
  | O => s
  | S fuel =>
      match strip_prefix from s, s with
      | Some rest, _ => to_ ++ replace_fuel fuel from to_ rest
      | None, c :: s => c :: replace_fuel fuel from to_ s
      | None, [] => []
      end
  end.
Definition replace (from to_ s : rstr) : rstr := replace_fuel (length s) from to_ s.

Definition CONFIG_PATH : rstr := lit "/data/rayhunter/config.toml".
Definition TERMINAL_ENABLED : rstr := lit "terminal_enabled".
Definition REMOVABLE_STORE_PATH : rstr := lit "removable_store_path".
Definition with_store (removable_store_path : option rstr) (config : rstr) : rstr :=
  match removable_store_path with Some path => set_top_level_string config REMOVABLE_STORE_PATH path | None => config end.

(** [install_config]; [template] is the file the installer carries. *)
Definition install_config {S} `{!DeviceConnection S} (template device_type : rstr) (reset_config enable_terminal : bool) (removable_store_path : option rstr) : M S unit :=
  exists_ ← (if reset_config then mret false else file_exists CONFIG_PATH);
  if reset_config || negb exists_ then
    let config := replace (lit "#device = " ++ [34] ++ lit "orbic" ++ [34]) (lit "device = " ++ [34] ++ device_type ++ [34]) template in
    let config := with_store removable_store_path (set_top_level_bool config TERMINAL_ENABLED enable_terminal) in
    write_file CONFIG_PATH (as_bytes config)
  else
    existing ← run_command (cat_ CONFIG_PATH);
    let updated := with_store removable_store_path (set_top_level_bool existing TERMINAL_ENABLED enable_terminal) in
    if bool_decide (updated = existing) then mret tt else write_file CONFIG_PATH (as_bytes updated).

Example set_test_1 : set_top_level_bool (lit "port = 8080" ++ [10; 10] ++ lit "[analyzers]" ++ [10] ++ lit "null_cipher = true" ++ [10]) (lit "terminal_enabled") true
  = lit "port = 8080" ++ [10; 10] ++ lit "terminal_enabled = true" ++ [10] ++ lit "[analyzers]" ++ [10] ++ lit "null_cipher = true" ++ [10].
Proof. vm_compute. reflexivity. Qed.
Example set_test_2 : set_top_level_bool (lit "# terminal_enabled = true" ++ [10] ++ lit "terminal_enabled = true" ++ [10]) (lit "terminal_enabled") false
  = lit "# terminal_enabled = true" ++ [10] ++ lit "terminal_enabled = false" ++ [10].
Proof. vm_compute. reflexivity. Qed.

(** ** What the file's settings are

    The lines above the first table, each with its key and its value; of several with a key the first counts. *)

Definition setting_of (line : rstr) : option (rstr * rstr) :=
  let trimmed := trim_start line in
  if starts_with trimmed [35] then None
  else match split_once [61] trimmed with
       | Some (key, value) => Some (trim_end_by is_whitespace key, trim value)
       | None => None
       end.
Definition header_at (ls : list rstr) : nat := default (length ls) (iter_position is_header ls).
Definition with_key (key : rstr) (kv : rstr * rstr) : bool := bool_decide (fst kv = key).
Definition setting_in (ls : list rstr) (key : rstr) : option rstr :=
  snd <$> List.find (with_key key) (omap setting_of (take (header_at ls) ls)).
Definition setting (config key : rstr) : option rstr := setting_in (lines config) key.
Definition tables (config : rstr) : list rstr := let ls := lines config in drop (header_at ls) ls.

(** A bare key, and a value on one line with nothing around it. *)
Definition bare (key : rstr) : Prop := key <> [] /\ Forall (fun c => is_whitespace c = false /\ c <> 61 /\ c <> 35 /\ c <> 91) key.
Definition one_line (value : rstr) : Prop := (10 ∉ value) /\ trim value = value.
(** No line ends in a carriage return once its ending is off. *)
Definition clean (config : rstr) : Prop := Forall (fun l => last l <> Some 13) (lines config).

(** *** Lists *)

Lemma position_none {A} (p : A -> bool) l : iter_position p l = None <-> Forall (fun x => p x = false) l.
Proof.
  induction l as [|x l IH]; cbn [iter_position]; [by split|]. rewrite Forall_cons. destruct (p x) eqn:E; [split; [done|by intros [? _]]|].
  rewrite fmap_None, IH. tauto.
Qed.
Lemma position_first {A} (p : A -> bool) l m x : Forall (fun y => p y = false) l -> p x = true -> iter_position p (l ++ x :: m) = Some (length l).
Proof. induction 1 as [|y l Hy _ IH]; intros Hx; cbn; [by rewrite Hx|]. by rewrite Hy, IH. Qed.
Lemma position_some {A} (p : A -> bool) l i : iter_position p l = Some i ->
  exists l1 x l2, l = l1 ++ x :: l2 /\ length l1 = i /\ Forall (fun y => p y = false) l1 /\ p x = true.
Proof.
  revert i. induction l as [|y l IH]; intros i; cbn [iter_position]; [done|]. destruct (p y) eqn:E.
  { intros [= <-]. by exists [], y, l. }
  intros (j & Hj & ->)%fmap_Some. destruct (IH j Hj) as (l1 & x & l2 & -> & <- & Hf & Hx). exists (y :: l1), x, l2. by repeat constructor.
Qed.

Definition ends_body (T : list rstr) : Prop := match T with [] => True | h :: _ => is_header h = true end.
Lemma header_at_app B T : Forall (fun l => is_header l = false) B -> ends_body T -> header_at (B ++ T) = length B.
Proof.
  intros HB HT. unfold header_at. destruct T as [|h T]; [rewrite app_nil_r; by rewrite (proj2 (position_none _ _) HB)|].
  by rewrite position_first.
Qed.
Lemma header_split ls : exists B T, ls = B ++ T /\ Forall (fun l => is_header l = false) B /\ ends_body T.
Proof.
  destruct (iter_position is_header ls) as [i|] eqn:E.
  - destruct (position_some _ _ _ E) as (B & h & T & -> & _ & HB & Hh). by exists B, (h :: T).
  - apply position_none in E. exists ls, []. by rewrite app_nil_r.
Qed.

(** *** Lines *)

Lemma trim_start_whitespace s : exists a, s = a ++ trim_start s /\ Forall (fun c => is_whitespace c = true) a.
Proof. destruct (trim_start_by_spec is_whitespace s) as (a & H & Hf & _). by exists a. Qed.
Lemma strip_prefix_some p s rest : strip_prefix p s = Some rest -> s = p ++ rest.
Proof.
  revert s. induction p as [|c p IH]; intros [|x s]; cbn; [by intros [= <-]|by intros [= <-]|done|].
  destruct (Z.eqb_spec c x) as [->|]; [|done]. intros H%IH. by f_equal.
Qed.
Lemma split_once_char c a b : c ∉ a -> split_once [c] (a ++ c :: b) = Some (a, b).
Proof.
  induction a as [|x a IH]; cbn [app split_once strip_prefix]; [by rewrite Z.eqb_refl|]. intros [Hx Ha]%not_elem_of_cons.
  rewrite (proj2 (Z.eqb_neq c x)) by done. by rewrite (IH Ha).
Qed.
Lemma trim_end_by_app p s w : Forall (fun c => p c = true) w -> (forall c t, s = t ++ [c] -> p c = false) -> trim_end_by p (s ++ w) = s.
Proof.
  intros Hw Hs. unfold trim_end_by. rewrite rev_app_distr.
  assert (H : forall u v, Forall (fun c => p c = true) u -> trim_start_by p (u ++ v) = trim_start_by p v) by (intros u v; induction 1 as [|c u Hc _ IH]; cbn; [done|by rewrite Hc]).
  rewrite H by (by apply Forall_rev). rewrite trim_start_by_id; [apply rev_involutive|].
  intros c t Ht. apply (Hs c (rev t)). rewrite <- (rev_involutive s), Ht. done.
Qed.
Lemma bare_last key c t : bare key -> key = t ++ [c] -> is_whitespace c = false.
Proof. intros [_ H] ->. apply Forall_app in H as [_ H]. apply Forall_cons in H as [H _]. apply H. Qed.
Lemma not_whitespace_61 : is_whitespace 61 = false.
Proof. done. Qed.
Lemma bare_no c key w : bare key -> Forall (fun x => is_whitespace x = true) w -> is_whitespace c = false -> (c = 61 \/ c = 35 \/ c = 91) -> c ∉ key ++ w.
Proof.
  intros [_ Hk] Hw Hc Hcs [Hin|Hin]%elem_of_app.
  - rewrite Forall_forall in Hk. destruct (Hk c Hin) as (_ & ? & ? & ?). lia.
  - rewrite Forall_forall in Hw. rewrite (Hw c Hin) in Hc. done.
Qed.

(** The test by prefix is the comparison of keys. *)
Lemma assigns_iff key line : bare key -> assigns key line = true <-> exists value, setting_of line = Some (key, value).
Proof.
  intros Hb. unfold assigns, setting_of. set (t := trim_start line). destruct (starts_with t [35]); cbn [negb andb]; [by split; [|intros [? ?]]|].
  split.
  - destruct (strip_prefix key t) as [rest|] eqn:E; [|done]. apply strip_prefix_some in E. rewrite starts_with_spec. intros [v Hv].
    destruct (trim_start_whitespace rest) as (w & Hr & Hw). rewrite E, Hr, Hv. cbn [app]. rewrite app_assoc.
    rewrite split_once_char by (by apply bare_no; auto). eexists. by rewrite trim_end_by_app by (try done; intros ? ?; by eapply bare_last).
  - intros [v Hv]. destruct (split_once [61] t) as [[a b]|] eqn:E; [|done]. injection Hv as Ha _.
    apply split_once_spec in E. rewrite E. unfold trim_end_by in Ha. destruct (trim_start_by_spec is_whitespace (rev a)) as (w & Hw & Hf & _).
    apply (f_equal (@rev _)) in Hw. rewrite rev_involutive, rev_app_distr, Ha in Hw. rewrite Hw, <- app_assoc, strip_prefix_app.
    apply starts_with_spec. exists b. unfold trim_start. apply Forall_rev in Hf. clear -Hf. induction Hf as [|c w' Hc _ IH]; cbn [app trim_start_by]; [by rewrite not_whitespace_61|]. by rewrite Hc.
Qed.
Lemma assignment_setting key value : bare key -> trim value = value -> setting_of (assignment key value) = Some (key, value) /\ is_header (assignment key value) = false.
Proof.
  intros Hb Hv. destruct key as [|c key]; [by destruct Hb|]. pose proof Hb as [_ Hf]. apply Forall_cons in Hf as [(Hc & H61 & H35 & H91) _].
  unfold setting_of, is_header, assignment. assert (Ht : trim_start ((c :: key) ++ lit " = " ++ value) = (c :: key) ++ lit " = " ++ value) by (unfold trim_start; cbn; by rewrite Hc).
  rewrite Ht. assert (Hs : forall x, x <> c -> starts_with ((c :: key) ++ lit " = " ++ value) [x] = false).
  { intros x Hx. apply not_true_iff_false. rewrite starts_with_spec. intros [t H]. cbn in H. by injection H. }
  rewrite !Hs by congruence. split; [|done]. change (lit " = " ++ value) with ([32] ++ 61 :: 32 :: value). rewrite app_assoc, split_once_char by (apply bare_no; auto; by repeat constructor).
  rewrite trim_end_by_app; [|by repeat constructor|intros ? ?; by eapply bare_last]. repeat f_equal.
  rewrite <- Hv at 2. unfold trim, trim_by. by cbn [trim_start_by is_whitespace].
Qed.

(** *** The update *)

Lemma insert_middle {A} (l : list A) x y m : <[length l := y]> (l ++ x :: m) = l ++ y :: m.
Proof. induction l as [|z l IH]; cbn; [done|]. by rewrite <- IH. Qed.
Lemma find_with_key k k' v l : List.find (with_key k) ((k', v) :: l) = if decide (k' = k) then Some (k', v) else List.find (with_key k) l.
Proof. cbn [List.find]. unfold with_key at 1. cbn [fst]. by case_bool_decide; destruct (decide _). Qed.
Lemma no_assigns key l : bare key -> Forall (fun x => assigns key x = false) l -> List.find (with_key key) (omap setting_of l) = None.
Proof.
  intros Hb. induction 1 as [|x l Hx _ IH]; [done|]. cbn [omap list_omap]. destruct (setting_of x) as [[k v]|] eqn:E; [|done].
  rewrite find_with_key. destruct (decide (k = key)) as [->|]; [|done]. exfalso. apply not_true_iff_false in Hx. apply Hx, assigns_iff; eauto.
Qed.

(** The lines before, what became of the one that assigns, and the lines after. *)
Lemma set_lines_shape ls key value : bare key -> trim value = value ->
  exists P old Q T, ls = P ++ old ++ Q ++ T /\ set_top_level_lines ls key value = P ++ assignment key value :: Q ++ T /\
    Forall (fun l => is_header l = false) (P ++ old ++ Q) /\ ends_body T /\ Forall (fun x => assigns key x = false) P /\
    match old with [] => Q = [] | [x] => assigns key x = true | _ => False end.
Proof.
  intros Hb Hv. destruct (header_split ls) as (B & T & -> & HB & HT). unfold set_top_level_lines.
  fold (header_at (B ++ T)). rewrite header_at_app, take_app_length by done. destruct (iter_position (assigns key) B) as [i|] eqn:E.
  - destruct (position_some _ _ _ E) as (P & x & Q & -> & <- & HP & Hx). exists P, [x], Q, T. cbn [app]. rewrite <- app_assoc. split; [done|].
    split; [by rewrite <- app_comm_cons, insert_middle|]. by split_and!.
  - apply position_none in E. exists B, [], [], T. cbn [app]. rewrite app_nil_r. split; [done|].
    split; [unfold insert_at; by rewrite take_app_length, drop_app_length|]. by split_and!.
Qed.
Lemma setting_in_app B T key : Forall (fun l => is_header l = false) B -> ends_body T -> setting_in (B ++ T) key = snd <$> List.find (with_key key) (omap setting_of B).
Proof. intros HB HT. unfold setting_in. by rewrite header_at_app, take_app_length. Qed.

Lemma set_lines_setting ls key value k : bare key -> trim value = value ->
  setting_in (set_top_level_lines ls key value) k = if decide (k = key) then Some value else setting_in ls k.
Proof.
  intros Hb Hv. destruct (set_lines_shape ls key value Hb Hv) as (P & old & Q & T & E & -> & HB & HT & HP & Hold).
  destruct (assignment_setting key value Hb Hv) as [Hs Hh]. rewrite !Forall_app in HB. destruct HB as (HBP & HBo & HBQ).
  rewrite E, app_comm_cons, !app_assoc, !setting_in_app by (try done; rewrite !Forall_app; repeat split; try done; by constructor).
  rewrite !omap_app, !find_app. cbn [omap list_omap]. rewrite Hs, find_with_key. destruct (decide (k = key)) as [->|Hne].
  - rewrite no_assigns by done. by rewrite decide_True.
  - rewrite (decide_False (P := key = k)) by congruence. destruct (List.find (with_key k) (omap setting_of P)); [done|].
    destruct old as [|x [|]]; [by subst Q| |done]. apply assigns_iff in Hold as [v Hx]; [|done]. cbn [omap list_omap]. rewrite Hx, find_with_key.
    by rewrite (decide_False (P := key = k)) by congruence.
Qed.
Lemma set_lines_tables ls key value : bare key -> trim value = value -> let ls' := set_top_level_lines ls key value in drop (header_at ls') ls' = drop (header_at ls) ls.
Proof.
  intros Hb Hv. destruct (set_lines_shape ls key value Hb Hv) as (P & old & Q & T & E & -> & HB & HT & _ & _). cbn zeta.
  destruct (assignment_setting key value Hb Hv) as [_ Hh]. rewrite !Forall_app in HB. destruct HB as (HBP & HBo & HBQ).
  rewrite E, app_comm_cons, !app_assoc, !header_at_app, !drop_app_length by (try done; rewrite !Forall_app; repeat split; try done; by constructor). done.
Qed.
Lemma set_lines_again ls key value value' : bare key -> trim value = value -> trim value' = value' ->
  set_top_level_lines (set_top_level_lines ls key value) key value' = set_top_level_lines ls key value'.
Proof.
  intros Hb Hv Hv'. destruct (set_lines_shape ls key value Hb Hv) as (P & old & Q & T & E & -> & HB & HT & HP & Hold).
  destruct (assignment_setting key value Hb Hv) as [Hs Hh]. assert (Ha : assigns key (assignment key value) = true) by (apply assigns_iff; eauto).
  rewrite !Forall_app in HB. destruct HB as (HBP & HBo & HBQ). unfold set_top_level_lines at 1. fold (header_at (P ++ assignment key value :: Q ++ T)).
  rewrite app_comm_cons, app_assoc, header_at_app, take_app_length by first [done | apply Forall_app; split; [done|by constructor]].
  rewrite position_first by done. rewrite <- app_assoc, <- app_comm_cons, insert_middle.
  unfold set_top_level_lines. fold (header_at ls). rewrite E, (app_assoc P), (app_assoc (P ++ old)), header_at_app, take_app_length by (try done; by rewrite !Forall_app).
  rewrite <- app_assoc. destruct old as [|x [|]]; [subst Q| |done]; cbn [app].
  - rewrite app_nil_r, (proj2 (position_none _ _)) by done. unfold insert_at. by rewrite take_app_length, drop_app_length.
  - rewrite position_first by done. rewrite <- app_assoc, <- app_comm_cons. by rewrite insert_middle.
Qed.

(** *** The text *)

Lemma pieces_shape c s : Forall (fun p => exists w, (c ∉ w) /\ (p = w \/ p = w ++ [c])) (split_inclusive c s).
Proof.
  induction s as [|x s IH]; cbn [split_inclusive]; [constructor|]. destruct (Z.eqb_spec x c) as [->|Hx].
  { constructor; [|done]. exists []. split; [apply not_elem_of_nil|by right]. }
  destruct (split_inclusive c s) as [|w ws]; [constructor; [|done]; exists [x]; split; [set_solver|by left]|].
  apply Forall_cons in IH as [(v & Hv & Hw) IH]. constructor; [|done]. exists (x :: v). split; [set_solver|]. destruct Hw as [-> | ->]; [by left|by right].
Qed.
Lemma strip_suffix_13 l : match strip_suffix [13] l with Some l' => l = l' ++ [13] | None => last l <> Some 13 end.
Proof.
  destruct l as [|c l _] using rev_ind; [done|]. rewrite last_snoc. unfold strip_suffix. rewrite rev_app_distr. cbn [rev app strip_prefix].
  destruct (Z.eqb_spec 13 c) as [<-|]; [by rewrite rev_involutive|congruence].
Qed.
Lemma lines_no_feed s : Forall (fun l => 10 ∉ l) (lines s).
Proof.
  unfold lines. apply Forall_map. eapply Forall_impl; [apply pieces_shape|]. intros p (w & Hw & [-> | ->]); unfold line_of_piece.
  - by rewrite strip_suffix_none.
  - rewrite strip_suffix_snoc. pose proof (strip_suffix_13 w) as H. destruct (strip_suffix [13] w) as [l|]; [|done]. subst w. set_solver.
Qed.
Lemma piece_line w : last w <> Some 13 -> line_of_piece (w ++ [10]) = w.
Proof.
  intros Hw. unfold line_of_piece. rewrite strip_suffix_snoc. pose proof (strip_suffix_13 w) as H. destruct (strip_suffix [13] w) as [l|]; [|done].
  subst w. by rewrite last_snoc in Hw.
Qed.
Lemma lines_join L : L <> [] -> Forall (fun l => (10 ∉ l) /\ last l <> Some 13) L -> lines (join [10] L ++ [10]) = L.
Proof.
  induction L as [|x L IH]; [done|]. intros _ [[Hx Hl] HL]%Forall_cons. unfold lines. destruct L as [|y L].
  - cbn [join]. rewrite split_inclusive_frame by done. cbn. by rewrite piece_line.
  - specialize (IH ltac:(done) HL). unfold lines in IH. change (join [10] (x :: y :: L)) with (x ++ 10 :: join [10] (y :: L)).
    rewrite <- app_assoc, <- app_comm_cons, split_inclusive_frame by done. cbn [map]. by rewrite piece_line, IH.
Qed.
Lemma trim_last v : trim v = v -> last v <> Some 13.
Proof.
  intros Hv H. destruct (trim_by_spec is_whitespace v) as (_ & _ & _ & _ & _ & Hl). fold trim in Hl. change (trim_by is_whitespace v) with (trim v) in Hl.
  rewrite Hv in Hl. destruct v as [|c v _] using rev_ind; [done|]. rewrite last_snoc in H. injection H as ->. specialize (Hl 13 v eq_refl). done.
Qed.
Lemma assignment_clean key value : bare key -> one_line value -> (10 ∉ assignment key value) /\ last (assignment key value) <> Some 13.
Proof.
  intros [_ Hk] [Hn Hv]. unfold assignment. split.
  - rewrite !not_elem_of_app. split_and!; [|set_solver|done]. intros Hin. rewrite Forall_forall in Hk. by destruct (Hk 10 Hin) as [? _].
  - destruct value as [|c v _] using rev_ind; [rewrite app_nil_r; change (lit " = ") with ([32; 61] ++ [32]); by rewrite app_assoc, last_snoc|].
    rewrite !app_assoc, last_snoc. intros [= ->]. apply (trim_last _ Hv). apply last_snoc.
Qed.
Lemma set_lines_clean config key value : bare key -> one_line value -> clean config ->
  let L := set_top_level_lines (lines config) key value in L <> [] /\ Forall (fun l => (10 ∉ l) /\ last l <> Some 13) L.
Proof.
  intros Hb Hv Hc. assert (Hall : Forall (fun l => (10 ∉ l) /\ last l <> Some 13) (lines config)) by (apply Forall_and; split; [apply lines_no_feed|done]).
  destruct (set_lines_shape (lines config) key value Hb (proj2 Hv)) as (P & old & Q & T & E & -> & _). rewrite E in Hall. rewrite !Forall_app in Hall.
  destruct Hall as (HP & _ & HQ & HT). cbn zeta. split; [by destruct P|]. rewrite Forall_app, Forall_cons, Forall_app. split_and!; try done; by apply assignment_clean.
Qed.
Lemma set_top_level_lines_eq config key value : bare key -> one_line value -> clean config ->
  lines (set_top_level config key value) = set_top_level_lines (lines config) key value.
Proof. intros Hb Hv Hc. destruct (set_lines_clean config key value Hb Hv Hc). unfold set_top_level. by apply lines_join. Qed.
Lemma set_top_level_clean config key value : bare key -> one_line value -> clean config -> clean (set_top_level config key value).
Proof.
  intros Hb Hv Hc. unfold clean. rewrite set_top_level_lines_eq by done. destruct (set_lines_clean config key value Hb Hv Hc) as [_ H].
  eapply Forall_impl; [exact H|]. by intros ? [_ ?].
Qed.

Lemma update_spec config key value : bare key -> one_line value -> clean config ->
  let config' := set_top_level config key value in
  (forall k, setting config' k = if decide (k = key) then Some value else setting config k) /\
  tables config' = tables config /\
  (forall value', one_line value' -> set_top_level config' key value' = set_top_level config key value').
Proof.
  intros Hb Hv Hc. cbn zeta. split_and!.
  - intros k. unfold setting. rewrite set_top_level_lines_eq by done. apply set_lines_setting; [done|apply Hv].
  - unfold tables. rewrite set_top_level_lines_eq by done. apply set_lines_tables; [done|apply Hv].
  - intros value' Hv'. unfold set_top_level at 1 3. rewrite set_top_level_lines_eq by done. rewrite set_lines_again; [done..|apply Hv|apply Hv'].
Qed.

(** ** What an installation leaves *)

Definition toml_string (value : rstr) : rstr := [34] ++ replace_char 34 [92; 34] (replace_char 92 [92; 92] value) ++ [34].
Lemma replace_char_no_feed c by_ s : 10 ∉ by_ -> 10 ∉ s -> 10 ∉ replace_char c by_ s.
Proof.
  intros Hb. unfold replace_char. induction s as [|x s IH]; [done|]. intros [Hx Hs]%not_elem_of_cons. cbn [flat_map]. rewrite not_elem_of_app. split; [|by apply IH].
  destruct (x =? c); [done|]. set_solver.
Qed.
Lemma toml_string_line value : 10 ∉ value -> one_line (toml_string value).
Proof.
  intros Hv. unfold toml_string. split.
  - rewrite !not_elem_of_app. split_and!; [set_solver| |set_solver]. apply replace_char_no_feed; [set_solver|]. apply replace_char_no_feed; [set_solver|done].
  - apply trim_by_id; [by intros c t [= <- _]|]. intros c t H. rewrite app_assoc in H. apply app_inj_tail in H as [_ <-]. done.
Qed.
Lemma bool_text_line b : one_line (bool_text b).
Proof. destruct b; (split; [by apply (bool_decide_unpack _)|done]). Qed.
Lemma TERMINAL_ENABLED_bare : bare TERMINAL_ENABLED.
Proof. split; [done|]. repeat (apply Forall_cons; split; [done|]). apply Forall_nil_2. Qed.
Lemma REMOVABLE_STORE_PATH_bare : bare REMOVABLE_STORE_PATH.
Proof. split; [done|]. repeat (apply Forall_cons; split; [done|]). apply Forall_nil_2. Qed.

(** Both settings put in. *)
Definition configured (config : rstr) (enable_terminal : bool) (store : option rstr) : rstr :=
  with_store store (set_top_level_bool config TERMINAL_ENABLED enable_terminal).
(** What a file says of the two, and what it has of another file. *)
Definition as_asked (enable_terminal : bool) (store : option rstr) (text : rstr) : Prop :=
  setting text TERMINAL_ENABLED = Some (bool_text enable_terminal) /\ (forall p, store = Some p -> setting text REMOVABLE_STORE_PATH = Some (toml_string p)).
Definition kept_from (store : option rstr) (old text : rstr) : Prop :=
  tables text = tables old /\ (forall k, k <> TERMINAL_ENABLED -> (k <> REMOVABLE_STORE_PATH \/ store = None) -> setting text k = setting old k).
Lemma configured_spec config enable_terminal store : clean config -> (forall p, store = Some p -> 10 ∉ p) ->
  as_asked enable_terminal store (configured config enable_terminal store) /\ kept_from store config (configured config enable_terminal store).
Proof.
  intros Hc Hp. destruct (update_spec config TERMINAL_ENABLED (bool_text enable_terminal)) as (H1 & H2 & _); [apply TERMINAL_ENABLED_bare|apply bool_text_line|done|].
  pose proof (set_top_level_clean config TERMINAL_ENABLED (bool_text enable_terminal) TERMINAL_ENABLED_bare (bool_text_line _) Hc) as Hc1.
  unfold configured, set_top_level_bool. set (config1 := set_top_level config TERMINAL_ENABLED (bool_text enable_terminal)) in *. destruct store as [p|]; cbn [with_store].
  - destruct (update_spec config1 REMOVABLE_STORE_PATH (toml_string p)) as (H3 & H4 & _); [apply REMOVABLE_STORE_PATH_bare|by apply toml_string_line, Hp|done|].
    change (set_top_level_string config1 REMOVABLE_STORE_PATH p) with (set_top_level config1 REMOVABLE_STORE_PATH (toml_string p)). split; split.
    + rewrite H3, decide_False by done. by rewrite H1, decide_True.
    + intros p' [= <-]. by rewrite H3, decide_True.
    + by rewrite H4, H2.
    + intros k Hk [Hr|]; [|done]. rewrite H3, decide_False, H1, decide_False by done. done.
  - split; (split; [|done || (intros k Hk _; by rewrite H1, decide_False)]); [by rewrite H1, decide_True|done].
Qed.

Section installation.
Context {S : Type} `{!DeviceConnection S}.
(** The bytes of the configuration file, and what the shell's commands say of it and do to it. *)
Context (config_at : S -> option (list Z)).
Context (test_answers : forall s out s', run_command (test_f CONFIG_PATH) s = (Ok out, s') ->
  config_at s' = config_at s /\ contains out (lit "exists") = bool_decide (is_Some (config_at s))).
Context (cat_prints : forall s out s', run_command (cat_ CONFIG_PATH) s = (Ok out, s') ->
  config_at s' = config_at s /\ (forall bytes, config_at s = Some bytes -> out = from_utf8_lossy bytes)).
Context (write_stores : forall bytes s s', write_file CONFIG_PATH bytes s = (Ok tt, s') -> config_at s' = Some bytes).

Definition fresh (template device_type : rstr) : rstr :=
  replace (lit "#device = " ++ [34] ++ lit "orbic" ++ [34]) (lit "device = " ++ [34] ++ device_type ++ [34]) template.

(** C11: the terminal is what was asked for.  When an installation ends well, the file has the terminal setting of its flag, and the card's path
    if one was given; and where there was a file that was to be kept and was found, every other setting and the tables are still its. *)
Theorem installed_config template device_type reset_config enable_terminal store s s' :
  clean (fresh template device_type) ->
  (forall bytes, config_at s = Some bytes -> exists old, bytes = as_bytes old /\ Forall is_scalar old /\ clean old) ->
  (forall p, store = Some p -> 10 ∉ p) ->
  install_config template device_type reset_config enable_terminal store s = (Ok tt, s') ->
  exists text, config_at s' = Some (as_bytes text) /\ as_asked enable_terminal store text /\
    (forall bytes, config_at s = Some bytes -> reset_config = false -> is_ok (fst (run_command (test_f CONFIG_PATH) s)) = true ->
       kept_from store (from_utf8_lossy bytes) text).
Proof.
  intros Hf Hold Hp. unfold install_config, mbind, M_bind. destruct (configured_spec _ enable_terminal store Hf Hp) as [Hnew _].
  destruct reset_config; [intros H%write_stores; eexists; by split_and!|].
  unfold file_exists, answers. destruct (run_command (test_f CONFIG_PATH) s) as [[out|e] s1] eqn:Et; cbn [orb fst is_ok]; [|intros H%write_stores; eexists; by split_and!].
  destruct (test_answers _ _ _ Et) as [Hs1 Hb]. rewrite Hb. case_bool_decide as Hx; cbn [negb].
  2: { intros H%write_stores. eexists. split_and!; [done..|]. intros bytes Ho. rewrite Ho in Hx. by destruct Hx. }
  destruct Hx as [bytes Ho]. destruct (run_command (cat_ CONFIG_PATH) s1) as [[existing|e] s2] eqn:Ec; [|done].
  destruct (Hold _ Ho) as (old & -> & Hsc & Hc).
  destruct (cat_prints _ _ _ Ec) as [Hs2 Hout]. rewrite Hs1, Ho in Hs2, Hout. rewrite (Hout _ eq_refl), utf8_roundtrip by done.
  destruct (configured_spec old enable_terminal store Hc Hp) as [Ha Hk]. fold (configured old enable_terminal store).
  assert (Hend : config_at s' = Some (as_bytes (configured old enable_terminal store)) -> exists text, config_at s' = Some (as_bytes text) /\ as_asked enable_terminal store text /\
    (forall bytes, config_at s = Some bytes -> false = false -> true = true -> kept_from store (from_utf8_lossy bytes) text)).
  { intros H. eexists. split_and!; [done..|]. intros b Hb' _ _. rewrite Ho in Hb'. injection Hb' as <-. by rewrite utf8_roundtrip. }
  case_bool_decide as He; [intros [= <-]; apply Hend; by rewrite He, Hs2|intros H%write_stores; by apply Hend].
Qed.

(** A test that cannot be run counts as a missing file: what was there is overwritten, with nothing asked for a reset. *)
Theorem failed_test_overwrites template device_type enable_terminal store s e s1 :
  run_command (test_f CONFIG_PATH) s = (Err e, s1) ->
  install_config template device_type false enable_terminal store s =
  write_file CONFIG_PATH (as_bytes (configured (fresh template device_type) enable_terminal store)) s1.
Proof. intros H. unfold install_config, mbind, M_bind. unfold file_exists, answers. by rewrite H. Qed.
End installation.

(** ** What the installer promises *)

(** C13: setting a key is an update of the map of settings.  Whatever else is in the file, the key then has the value and every other
    key the one it had; the tables are the same lines; a second setting of the key is as if the first had not been. *)
Theorem setting_updated config key value : bare key -> one_line value -> clean config ->
  let config' := set_top_level config key value in
  (forall k, setting config' k = if decide (k = key) then Some value else setting config k) /\
  tables config' = tables config /\
  (forall value', one_line value' -> set_top_level config' key value' = set_top_level config key value').
Proof. apply update_spec. Qed.

(** ** Witnesses *)

(** A device that is its configuration file. *)
#[export] Instance file_device : DeviceConnection (option (list Z)) := {|
  run_command := fun command s =>
    if bool_decide (command = test_f CONFIG_PATH) then (Ok (match s with Some _ => lit "exists" ++ [10] | None => lit "missing" ++ [10] end), s)
    else if bool_decide (command = cat_ CONFIG_PATH) then (match s with Some bytes => Ok (from_utf8_lossy bytes) | None => Err CommandFailed end, s)
    else (Err CommandFailed, s);
  write_file := fun path bytes s => if bool_decide (path = CONFIG_PATH) then (Ok tt, Some bytes) else (Err CommandFailed, s) |}.
Definition example_config : rstr := lit "port = 8080" ++ [10] ++ lit "terminal_enabled = true" ++ [10] ++ lit "[analyzers]" ++ [10] ++ lit "terminal_enabled = 1" ++ [10].

Lemma setting_updated_witness :
  let config' := set_top_level example_config TERMINAL_ENABLED (lit "false") in
  setting config' TERMINAL_ENABLED = Some (lit "false") /\ setting config' (lit "port") = Some (lit "8080") /\ tables config' = [lit "[analyzers]"; lit "terminal_enabled = 1"].
Proof.
  destruct (setting_updated example_config TERMINAL_ENABLED (lit "false")) as (H1 & H2 & _).
  - exact TERMINAL_ENABLED_bare.
  - exact (bool_text_line false).
  - apply (bool_decide_unpack _). vm_compute. exact I.
  - cbn zeta. rewrite !H1, H2. vm_compute. repeat split.
Defined.
Lemma installed_config_witness :
  exists text s', install_config (S := option (list Z)) [] (lit "orbic") false false None (Some (as_bytes example_config)) = (Ok tt, s') /\
    s' = Some (as_bytes text) /\ setting text TERMINAL_ENABLED = Some (lit "false") /\ setting text (lit "port") = Some (lit "8080").
Proof.
  destruct (installed_config (S := option (list Z)) id) with (template := @nil Z) (device_type := lit "orbic") (reset_config := false) (enable_terminal := false)
    (store := @None rstr) (s := Some (as_bytes example_config)) (s' := Some (as_bytes (set_top_level example_config TERMINAL_ENABLED (lit "false")))) as (text & H1 & [H2 _] & H3).
  - intros s out s'. cbn [run_command file_device]. rewrite bool_decide_eq_true_2 by done. intros [= <- <-]. split; [done|]. destruct s; vm_compute; reflexivity.
  - intros s out s'. cbn [run_command file_device]. rewrite bool_decide_eq_false_2 by (vm_compute; discriminate). rewrite bool_decide_eq_true_2 by done. destruct s; [|done].
    intros [= <- <-]. split; [done|]. intros bytes H. by injection H as <-.
  - intros bytes s s'. cbn [write_file file_device]. rewrite bool_decide_eq_true_2 by done. by intros [= <-].
  - apply (bool_decide_unpack _). vm_compute. exact I.
  - intros bytes [= <-]. exists example_config. split; [done|]. split; [|apply (bool_decide_unpack _); vm_compute; exact I].
    apply Forall_forall. intros c Hc. left. revert c Hc. apply Forall_forall. apply (bool_decide_unpack _). vm_compute. exact I.
  - done.
  - vm_compute. reflexivity.
  - exists text, (Some (as_bytes (set_top_level example_config TERMINAL_ENABLED (lit "false")))). split; [vm_compute; reflexivity|]. split; [exact H1|]. split; [exact H2|].
    destruct (H3 _ eq_refl eq_refl) as [_ Hk]; [vm_compute; reflexivity|]. rewrite (Hk (lit "port")); [vm_compute; reflexivity|done|by right].
Defined.
