(* ===== verification/Telnet.v ===== *)
(** * The installer's telnet shell, and what it sends through it ([installer/src/util.rs], [persist_adb.rs], [orbic_auth.rs])

    The output of a command cut out of what a shell sends, the commands that keep ADB on after a restart, and the scrambling of an
    Orbic's password.  The shell, MD5 and base64 are arguments. *)

From S2P Require Import Prelude RustStr Installer.

Local Open Scope Z_scope.

(** ** The output of a command *)

Definition START : rstr := lit "RAYHUNTER_TELNET_COMMAND_START".
Definition DONE : rstr := lit "RAYHUNTER_TELNET_COMMAND_DONE".

(** [str::rfind]: where the last occurrence starts. *)
Fixpoint rfind (pat s : rstr) : option nat :=
  match s with
  | [] => if starts_with s pat then Some O else None
  | _ :: s' => match rfind pat s' with Some i => Some (S i) | None => if starts_with s pat then Some O else None end
  end.

Inductive TelnetError := MultiLine | NotConnected | NoPrompt | TimedOut | Unparsed | SlicePanics.

(** A connection: what the shell sends before anything is asked, what it sends for a line, and whether it then closes. *)
Record Session := mkSession { greeting : list Z; reply : list Z -> list Z; closes : bool }.

Definition sent_line (command : rstr) : rstr :=
  lit "echo RAYHUNTER_'TELNET'_COMMAND_START; " ++ command ++ lit "; echo RAYHUNTER_'TELNET'_COMMAND_DONE" ++ [13; 10].

(** What is left after the prompt. *)
Fixpoint after_prompt (bytes : list Z) : option (list Z) :=
  match bytes with [] => None | b :: bytes => if b =? 35 then Some bytes else after_prompt bytes end.
(** The bytes read, and whether the reading was over. *)
Fixpoint read_until_done (read_buf bytes : list Z) : list Z * bool :=
  match bytes with
  | [] => (read_buf, false)
  | byte :: bytes =>
      let read_buf := read_buf ++ [byte] in
      if (byte =? 10) && contains (from_utf8_lossy read_buf) DONE then (read_buf, true) else read_until_done read_buf bytes
  end.
Definition cut_output (string : rstr) : result TelnetError rstr :=
  match rfind START string, rfind DONE string with
  | Some start, Some end_ =>
      let start := (start + length START)%nat in
      if (end_ <? start)%nat then Err SlicePanics
      else Ok (trim_start_by (fun c => (c =? 13) || (c =? 10)) (take (end_ - start) (drop start string)))
  | _, _ => Err Unparsed
  end.
Definition telnet_send_command_with_output (connection : option Session) (command : rstr) (wait_for_prompt : bool) : result TelnetError rstr :=
  if bool_decide (10 ∈ command) then Err MultiLine
  else match connection with
  | None => Err NotConnected
  | Some session =>
      match (if wait_for_prompt then after_prompt (greeting session) else Some (greeting session)) with
      | None => Err NoPrompt
      | Some rest =>
          let '(read_buf, seen) := read_until_done [] (rest ++ reply session (as_bytes (sent_line command))) in
          if seen || closes session then cut_output (from_utf8_lossy read_buf) else Err TimedOut
      end
  end.
Definition telnet_send_command (connection : option Session) (command expected_output : rstr) (wait_for_prompt : bool) : result (TelnetError + rstr) unit :=
  match telnet_send_command_with_output connection (command ++ lit "; echo command done, exit code $?") wait_for_prompt with
  | Err e => Err (inl e)
  | Ok output => if contains output expected_output then Ok tt else Err (inr output)
  end.

(** ** ADB after a restart *)

Definition WINGTECH_INIT_PATH : rstr := lit "/etc/init.d/enable_adb".
Definition WINGTECH_RC_LINK : rstr := lit "/etc/rcS.d/S31enable_adb".
Definition WINGTECH_ADB_COMPOSITION : rstr := lit "9025".
(** The [\n]s are for [printf]. *)
Definition wingtech_script : rstr :=
  lit "#!/bin/sh\ncase $1 in\nstart) /sbin/usb/compositions/" ++ WINGTECH_ADB_COMPOSITION ++ lit " n ;;\nesac\n".
Definition REMOUNT_RW : rstr := lit "mount -o remount,rw /".
Definition REMOUNT_RO : rstr := lit "mount -o remount,ro /".
Definition wingtech_install_commands : list rstr :=
  [REMOUNT_RW; lit "printf '" ++ wingtech_script ++ lit "' > " ++ WINGTECH_INIT_PATH; lit "chmod 755 " ++ WINGTECH_INIT_PATH;
   lit "ln -sf ../init.d/enable_adb " ++ WINGTECH_RC_LINK; REMOUNT_RO].
Definition wingtech_revert_commands : list rstr :=
  [REMOUNT_RW; lit "rm -f " ++ WINGTECH_RC_LINK; lit "rm -f " ++ WINGTECH_INIT_PATH; REMOUNT_RO].
Definition wingtech_command_is_safe_to_send (command : rstr) : bool :=
  negb (existsb (fun c => (c =? 38) || (c =? 43) || (c =? 37) || (c =? 10) || (c =? 13)) command).

Section wingtech.
Context {S : Type} (run_command : rstr -> S -> result InstallError unit * S).
Fixpoint run_commands (commands : list rstr) : M S unit :=
  match commands with
  | [] => mret tt
  | command :: commands => fun s => match run_command command s with (Ok _, s) => run_commands commands s | (Err e, s) => (Err e, s) end
  end.
Definition wingtech (revert : bool) : M S unit :=
  let commands := if revert then wingtech_revert_commands else wingtech_install_commands in
  if forallb wingtech_command_is_safe_to_send commands then run_commands commands
  else bail (lit "refusing to send a command that would not survive the trip").
End wingtech.

(** The Moxee's mode, read back. *)
Definition MOXEE_MODE_FILE : rstr := lit "/usrdata/mode.cfg".
Definition MOXEE_MODE_WITH_ADB : rstr := lit "9".
Definition MOXEE_MODE_DEFAULT : rstr := lit "3".
(** [sessions]: the connections of the two commands. *)
Definition moxee_mode (write_session read_session : option Session) (revert : bool) : result (TelnetError + rstr) unit :=
  let wanted := if revert then MOXEE_MODE_DEFAULT else MOXEE_MODE_WITH_ADB in
  match telnet_send_command write_session (lit "echo " ++ wanted ++ lit " > " ++ MOXEE_MODE_FILE) (lit "command done, exit code 0") false with
  | Err e => Err e
  | Ok _ =>
      match telnet_send_command_with_output read_session (lit "cat " ++ MOXEE_MODE_FILE) false with
      | Err e => Err (inl e)
      | Ok readback => if contains readback wanted then Ok tt else Err (inr readback)
      end
  end.

(** ** The password of an Orbic *)

Definition swap_chars (s : rstr) (pos1 pos2 : nat) : rstr :=
  match s !! pos1, s !! pos2 with
  | Some a, Some b => <[pos2 := a]> (<[pos1 := b]> s)
  | _, _ => s
  end.
(** A turn of the loop; [text] is ASCII, so that its length in bytes is its characters.  [None]: a remainder by zero. *)
Definition swap_step (secret_num : Z) (text : rstr) (i : nat) : option rstr :=
  if (length text =? 0)%nat then None
  else let byte := Z.land (Z.shiftr secret_num (Z.of_nat i * 8)) 0xff in
       Some (swap_chars text (Z.to_nat byte mod length text) (i mod length text)).
Definition apply_secret_swapping (text : rstr) (secret_num : Z) : option rstr :=
  foldl (fun t i => t ≫= fun text => swap_step secret_num text i) (Some text) [0; 1; 2; 3]%nat.

(** [format!("{:x}", v)]. *)
Fixpoint fmt_hex_fuel (fuel : nat) (v : Z) (acc : rstr) : rstr :=
  match fuel with
  | O => acc
  | S fuel => let acc := hex_digit (v mod 16) :: acc in if v / 16 =? 0 then acc else fmt_hex_fuel fuel (v / 16) acc
  end.
Definition fmt_hex (v : Z) : rstr := fmt_hex_fuel 16 v [].
(** [u32::from_str_radix(s, 16)]. *)
Fixpoint hex_digits_value (acc : Z) (s : rstr) : option Z :=
  match s with
  | [] => Some acc
  | c :: s => d ← to_digit16 c; if in_ub 32 (acc * 16 + d) then hex_digits_value (acc * 16 + d) s else None
  end.
Definition from_str_radix16 (s : rstr) : option Z :=
  match s with
  | [] => None
  | 43 :: [] => None
  | 43 :: s => hex_digits_value 0 s
  | _ => hex_digits_value 0 s
  end.
(** [md5_hex] is the 32 digits of the hash; [current_time] the clock's seconds; sums on [u32] wrap as in a release build. *)
Definition password_message (password_md5 : rstr) (secret_num timestamp_hex elapsed : Z) : option rstr :=
  spliced ← apply_secret_swapping (lit "a7" ++ password_md5) secret_num;
  Some (lit "6137x" ++ fmt_hex (wrapu 32 (timestamp_hex + wrapu 32 elapsed)) ++ lit ":" ++ spliced).
Definition encode_password (md5_hex base64_encode : rstr -> rstr) (password secret timestamp : rstr) (timestamp_start current_time : Z) : option rstr :=
  secret_num ← from_str_radix16 secret;
  timestamp_hex ← from_str_radix16 timestamp;
  message ← password_message (md5_hex password) secret_num timestamp_hex (current_time - timestamp_start);
  apply_secret_swapping (base64_encode message) secret_num.

(** ** Where a marker can be *)

Definition free (M s : rstr) : Prop := contains s M = false.
Lemma free_spec M s : free M s <-> ~ exists a b, s = a ++ M ++ b.
Proof. unfold free. by rewrite <- contains_spec, not_true_iff_false. Qed.
Lemma free_infix M a s b : free M (a ++ s ++ b) -> free M s.
Proof. rewrite !free_spec. intros H (x & y & ->). apply H. exists (a ++ x), (y ++ b). by rewrite <- !app_assoc. Qed.

(** A marker in two texts one after another is in one of them or across the seam. *)
Lemma free_app M a b : free M a -> free M b ->
  (forall m1 m2 x y, m1 <> [] -> m2 <> [] -> M = m1 ++ m2 -> a = x ++ m1 -> b = m2 ++ y -> False) -> free M (a ++ b).
Proof.
  rewrite !free_spec. intros Ha Hb Hs (x & y & E). symmetry in E. apply app_eq_inv in E as [(l & -> & E)|(l & -> & E)].
  - apply Hb. by exists l, y.
  - apply app_eq_inv in E as [(m & -> & E)|(m & -> & E)]; [|by apply Ha; exists x, m].
    destruct (decide (l = [])) as [->|Hl]; [apply Hb; exists [], y; by rewrite E|]. destruct (decide (m = [])) as [->|Hm]; [apply Ha; exists x, []; by rewrite !app_nil_r|].
    by apply (Hs l m x y).
Qed.

(** What the markers cannot do with each other, decided. *)
Definition no_right (M M' : rstr) : bool := (length M <=? S (length M'))%nat && forallb (fun k => negb (starts_with M' (drop k M))) (seq 1 (length M - 1)).
Definition no_left (M M' : rstr) : bool := (length M <=? S (length M'))%nat && forallb (fun k => negb (ends_with M' (take k M))) (seq 1 (length M - 1)).
Lemma ends_with_app s p : ends_with (s ++ p) p = true.
Proof. unfold ends_with, strip_suffix. by rewrite rev_app_distr, strip_prefix_app, rev_involutive, bool_decide_eq_true_2 by eauto. Qed.
Lemma seam_right M M' a e : no_right M M' = true -> forall m1 m2 x y, m1 <> [] -> m2 <> [] -> M = m1 ++ m2 -> a = x ++ m1 -> M' ++ e = m2 ++ y -> False.
Proof.
  intros [Hl Hk]%andb_true_iff m1 m2 x y H1 H2 -> _ E. apply Nat.leb_le in Hl. rewrite length_app in Hl, Hk. rewrite forallb_forall in Hk.
  destruct m1 as [|c m1]; [done|]. destruct m2 as [|d m2]; [done|]. specialize (Hk (length (c :: m1))). cbn beta in Hk. rewrite drop_app_length in Hk.
  apply app_eq_inv in E as [(l & E & _)|(l & E & E')].
  - rewrite (proj2 (starts_with_spec _ _)) in Hk by (by exists l). rewrite in_seq in Hk. cbn [length] in Hk. specialize (Hk ltac:(lia)). done.
  - assert (l = []) as -> by (apply (f_equal (@length Z)) in E; rewrite length_app in E; cbn [length] in *; apply length_zero_iff_nil; lia).
    rewrite app_nil_r in E. rewrite E in Hk. rewrite (proj2 (starts_with_spec _ _)) in Hk by (exists []; by rewrite app_nil_r).
    rewrite in_seq in Hk. cbn [length] in Hk. apply (f_equal (@length Z)) in E. cbn [length] in E. specialize (Hk ltac:(lia)). done.
Qed.
Lemma seam_left M M' z b : no_left M M' = true -> forall m1 m2 x y, m1 <> [] -> m2 <> [] -> M = m1 ++ m2 -> z ++ M' = x ++ m1 -> b = m2 ++ y -> False.
Proof.
  intros [Hl Hk]%andb_true_iff m1 m2 x y H1 H2 -> E _. apply Nat.leb_le in Hl. rewrite length_app in Hl, Hk. rewrite forallb_forall in Hk.
  destruct m1 as [|c m1]; [done|]. destruct m2 as [|d m2]; [done|]. specialize (Hk (length (c :: m1))). cbn beta in Hk. rewrite take_app_length in Hk.
  apply app_eq_inv in E as [(l & E & E')|(l & E & E')].
  - assert (l = []) as -> by (apply (f_equal (@length Z)) in E'; rewrite length_app in E'; cbn [length] in *; apply length_zero_iff_nil; lia).
    cbn in E'. rewrite <- E' in Hk. pose proof (ends_with_app [] (c :: m1)) as H. cbn [app] in H. rewrite H in Hk. rewrite in_seq in Hk. cbn [length] in Hk. specialize (Hk ltac:(lia)). done.
  - rewrite E', ends_with_app in Hk. rewrite in_seq in Hk. cbn [length] in Hk. specialize (Hk ltac:(lia)). done.
Qed.
Lemma seam_char_right (M : rstr) c s a : (c ∉ M) -> forall m1 m2 x y, m1 <> [] -> m2 <> [] -> M = m1 ++ m2 -> a = x ++ m1 -> c :: s = m2 ++ y -> False.
Proof. intros Hc m1 [|d m2] x y _ H2 -> _ E; [done|]. injection E as -> _. set_solver. Qed.
Lemma seam_char_left (M : rstr) c s b : (c ∉ M) -> forall m1 m2 x y, m1 <> [] -> m2 <> [] -> M = m1 ++ m2 -> s ++ [c] = x ++ m1 -> b = m2 ++ y -> False.
Proof.
  intros Hc m1 m2 x y H1 _ -> E _. destruct m1 as [|d m1 _] using rev_ind; [done|]. rewrite app_assoc in E. apply app_inj_tail in E as [_ ->]. set_solver.
Qed.
Lemma free_snoc (M s : rstr) c : (c ∉ M) -> free M s -> free M (s ++ [c]).
Proof.
  intros Hc Hs. apply free_app; [done| |by apply seam_char_right]. rewrite free_spec. intros (a & b & E).
  destruct M as [|d M]; [apply free_spec in Hs; apply Hs; by exists [], s|]. destruct a as [|z a]; injection E as -> E; [set_solver|]. by destruct a.
Qed.

(** ** Reading *)

Lemma utf8_no_feed s : is_true (forallb (fun c => negb (c =? 10)) s) -> Forall is_scalar s -> 10 ∉ as_bytes s.
Proof.
  intros Hs Hsc. induction Hsc as [|c s Hc _ IH]; [apply not_elem_of_nil|]. cbn in Hs. apply andb_true_iff in Hs as [Hn Hs]. apply negb_true_iff, Z.eqb_neq in Hn.
  cbn [as_bytes flat_map]. rewrite not_elem_of_app. split; [|by apply IH]. unfold is_scalar in Hc. unfold utf8_char.
  repeat ztest; rewrite ?not_elem_of_cons; repeat split; try apply not_elem_of_nil; try done; dlia.
Qed.
Lemma no_feed_forallb s : 10 ∉ s -> is_true (forallb (fun c => negb (c =? 10)) s).
Proof.
  intros Hs. apply forallb_forall. intros c Hc%list_elem_of_In. apply negb_true_iff, Z.eqb_neq. intros ->. done.
Qed.
Lemma read_no_feed acc bs rest : 10 ∉ bs -> read_until_done acc (bs ++ rest) = read_until_done (acc ++ bs) rest.
Proof.
  revert acc. induction bs as [|b bs IH]; intros acc; [by rewrite app_nil_r|]. intros [Hb Hbs]%not_elem_of_cons. cbn [app read_until_done].
  rewrite (proj2 (Z.eqb_neq b 10)) by done. cbn [andb]. by rewrite IH, <- app_assoc.
Qed.
Lemma read_over t s rest : Forall is_scalar (t ++ s) -> free DONE (t ++ s) -> read_until_done (as_bytes t) (as_bytes s ++ rest) = read_until_done (as_bytes (t ++ s)) rest.
Proof.
  revert t. induction s as [|c s IH]; intros t Hsc Hf; [by rewrite app_nil_r|]. rewrite (cons_middle c t s), app_assoc in *.
  cbn [as_bytes flat_map]. rewrite <- app_assoc. destruct (decide (c = 10)) as [->|Hc].
  - cbn [utf8_char Z.ltb Z.compare Pos.compare Pos.compare_cont app]. cbn [read_until_done]. change (as_bytes t ++ [10]) with (as_bytes t ++ as_bytes [10]).
    rewrite <- as_bytes_app. apply Forall_app in Hsc as Hsc'. rewrite utf8_roundtrip by apply Hsc'. pose proof (free_infix DONE [] (t ++ [10]) s Hf) as ->. rewrite andb_false_r. by apply IH.
  - rewrite read_no_feed.
    + replace (as_bytes t ++ utf8_char c) with (as_bytes (t ++ [c])) by (rewrite as_bytes_app; cbn; by rewrite app_nil_r). by apply IH.
    + pose proof (utf8_no_feed [c]) as H. cbn in H. rewrite app_nil_r in H. apply H; [apply andb_true_iff; split; [by apply negb_true_iff, Z.eqb_neq|done]|].
      rewrite !Forall_app in Hsc. apply Hsc.
Qed.

Lemma rfind_none pat s : free pat s -> rfind pat s = None.
Proof.
  unfold free. induction s as [|c s IH]; cbn [rfind contains]; [by rewrite orb_false_r; intros ->|].
  intros [H1 H2]%orb_false_iff. by rewrite IH, H1.
Qed.
Lemma rfind_last pat a b : pat <> [] -> free pat (drop 1 (pat ++ b)) -> rfind pat (a ++ pat ++ b) = Some (length a).
Proof.
  intros Hp Hf. induction a as [|c a IH]; cbn [app rfind length]; [|by rewrite IH].
  assert (Hs : starts_with (pat ++ b) pat = true) by (apply starts_with_spec; by exists b).
  destruct (pat ++ b) as [|c s] eqn:E; [by destruct pat|]. cbn [drop] in Hf. rewrite drop_0 in Hf. cbn [rfind]. by rewrite (rfind_none _ _ Hf), Hs.
Qed.

Lemma cut_between echo out e : free START out -> free START e -> free DONE e ->
  cut_output (echo ++ START ++ out ++ DONE ++ e ++ [10]) = Ok (trim_start_by (fun c => (c =? 13) || (c =? 10)) out).
Proof.
  intros HSo HSe HDe. unfold cut_output.
  assert (HS : rfind START (echo ++ START ++ out ++ DONE ++ e ++ [10]) = Some (length echo)).
  { apply rfind_last; [done|]. change (drop 1 (START ++ out ++ DONE ++ e ++ [10])) with (drop 1 START ++ out ++ DONE ++ e ++ [10]).
    apply free_app; [vm_compute; reflexivity| |by apply (seam_left START (drop 1 START) []); vm_compute].
    apply free_app; [done| |by apply seam_right; vm_compute]. apply free_app; [vm_compute; reflexivity| |by apply (seam_left START DONE []); vm_compute].
    apply free_snoc; [by apply (bool_decide_unpack _); vm_compute|done]. }
  assert (HD : rfind DONE ((echo ++ START ++ out) ++ DONE ++ e ++ [10]) = Some (length (echo ++ START ++ out))).
  { apply rfind_last; [done|]. change (drop 1 (DONE ++ e ++ [10])) with (drop 1 DONE ++ e ++ [10]).
    apply free_app; [vm_compute; reflexivity| |by apply (seam_left DONE (drop 1 DONE) []); vm_compute].
    apply free_snoc; [by apply (bool_decide_unpack _); vm_compute|done]. }
  rewrite HS. rewrite <- !app_assoc in HD. rewrite HD, !length_app. rewrite (proj2 (Nat.ltb_ge _ _)) by lia. do 2 f_equal.
  rewrite (app_assoc echo), drop_app_length' by (by rewrite length_app). rewrite take_app_length' by lia. done.
Qed.
Lemma stop_free echo out : free DONE echo -> free DONE out -> free DONE (echo ++ START ++ out).
Proof.
  intros He Ho. apply free_app; [done| |by apply seam_right; vm_compute]. apply free_app; [vm_compute; reflexivity|done|].
  apply (seam_left DONE START []). by vm_compute.
Qed.

(** The echo of what was sent is no marker: that is what the quotes are for. *)
Lemma sent_line_free M command : M = START \/ M = DONE -> free M command -> free M (sent_line command).
Proof.
  intros HM Hc. unfold sent_line.
  assert (H32 : (32 ∉ M) /\ (59 ∉ M)) by (destruct HM as [-> | ->]; split; by apply (bool_decide_unpack _); vm_compute).
  apply free_app; [by destruct HM as [-> | ->]; vm_compute| |].
  - apply free_app; [done|by destruct HM as [-> | ->]; vm_compute|]. apply (seam_char_right M 59). apply H32.
  - apply (seam_char_left M 32 (lit "echo RAYHUNTER_'TELNET'_COMMAND_START;")). apply H32.
Qed.

(** ** The scrambling undone *)

Definition unscramble (text : rstr) (secret_num : Z) : option rstr :=
  foldl (fun t i => t ≫= fun text => swap_step secret_num text i) (Some text) [3; 2; 1; 0]%nat.
Lemma swap_chars_length s i j : length (swap_chars s i j) = length s.
Proof. unfold swap_chars. destruct (s !! i), (s !! j); by rewrite ?length_insert. Qed.
Lemma swap_chars_twice s i j : swap_chars (swap_chars s i j) i j = s.
Proof.
  unfold swap_chars. destruct (s !! i) as [a|] eqn:Ei; [|by rewrite Ei]. destruct (s !! j) as [b|] eqn:Ej; [|by rewrite Ei, Ej].
  pose proof (lookup_lt_Some _ _ _ Ei) as Hi. pose proof (lookup_lt_Some _ _ _ Ej) as Hj.
  rewrite (list_lookup_insert_eq _ j) by (by rewrite length_insert). destruct (decide (i = j)) as [->|Hne].
  - rewrite (list_lookup_insert_eq _ j) by (by rewrite length_insert). rewrite !list_insert_insert_eq. apply list_insert_id. congruence.
  - rewrite (list_lookup_insert_ne _ j i), list_lookup_insert_eq by (rewrite ?length_insert; done).
    rewrite (list_insert_insert_ne _ i j) by done. rewrite !list_insert_insert_eq.
    rewrite (list_insert_id s i) by done. by apply list_insert_id.
Qed.
Lemma swap_step_twice n s t i : swap_step n s i = Some t -> length t = length s /\ swap_step n t i = Some s.
Proof.
  unfold swap_step. destruct (length s =? 0)%nat eqn:E; [done|]. intros [= <-]. rewrite swap_chars_length, E. split; [done|]. by rewrite swap_chars_twice.
Qed.
Lemma scramble_undone n s t : apply_secret_swapping s n = Some t -> length t = length s /\ unscramble t n = Some s.
Proof.
  unfold apply_secret_swapping, unscramble. cbn [foldl mbind option_bind].
  destruct (swap_step n s 0) as [s0|] eqn:E0; cbn [mbind option_bind]; [|done]. destruct (swap_step n s0 1) as [s1|] eqn:E1; cbn [mbind option_bind]; [|done].
  destruct (swap_step n s1 2) as [s2|] eqn:E2; cbn [mbind option_bind]; [|done]. intros E3.
  apply swap_step_twice in E0 as [L0 E0], E1 as [L1 E1], E2 as [L2 E2], E3 as [L3 E3]. split; [congruence|].
  rewrite E3. cbn [mbind option_bind]. rewrite E2. cbn [mbind option_bind]. by rewrite E1.
Qed.

(** ** What the installer promises *)

(** A command's output is what its shell printed.  Whether or not the shell echoes what it is sent, whatever it greeted with and whatever
    comes after, the text between the two markers comes back, without the line ending before it: as long as neither marker is in it. *)
Theorem output_cut_out session (command g out e : rstr) (more : list Z) (wait_for_prompt echoes : bool) :
  let line := (if echoes then sent_line command else []) in
  (10 ∉ command) -> (10 ∉ e) -> Forall is_scalar (g ++ line ++ START ++ out ++ DONE ++ e) ->
  Forall (fun s => free START s /\ free DONE s) [g; command; out; e] ->
  (if wait_for_prompt then after_prompt (greeting session) else Some (greeting session)) = Some (as_bytes g) ->
  reply session (as_bytes (sent_line command)) = as_bytes (line ++ START ++ out ++ DONE ++ e ++ [10]) ++ more ->
  telnet_send_command_with_output (Some session) command wait_for_prompt = Ok (trim_start_by (fun c => (c =? 13) || (c =? 10)) out).
Proof.
  intros line Hc He Hsc Hfree Hg Hr. rewrite !Forall_cons in Hfree. destruct Hfree as ((_ & HgD) & (_ & HcD) & (HoS & HoD) & (HeS & HeD) & _).
  unfold telnet_send_command_with_output. rewrite bool_decide_eq_false_2, Hg, Hr by done.
  set (echo := g ++ line). assert (HeD' : free DONE echo).
  { unfold echo, line. destruct echoes; [|by rewrite app_nil_r]. apply free_app; [done|apply sent_line_free; [by right|done]|].
    apply (seam_char_right DONE 101). by apply (bool_decide_unpack _); vm_compute. }
  assert (Hstop : free DONE (echo ++ START ++ out)) by (by apply stop_free).
  replace (as_bytes g ++ as_bytes (line ++ START ++ out ++ DONE ++ e ++ [10]) ++ more)
    with (as_bytes (echo ++ START ++ out) ++ as_bytes (DONE ++ e) ++ [10] ++ more)
    by (unfold echo; rewrite !as_bytes_app, <- !app_assoc; done).
  assert (Hall : Forall is_scalar ((echo ++ START ++ out) ++ DONE ++ e)) by (unfold echo; by rewrite <- !app_assoc).
  pose proof Hall as Hall'. apply Forall_app in Hall' as [H1 H2].
  rewrite (read_over [] (echo ++ START ++ out)) by done. cbn [app].
  rewrite read_no_feed by (apply utf8_no_feed; [apply no_feed_forallb|done]; rewrite not_elem_of_app; split; [by apply (bool_decide_unpack _); vm_compute|done]).
  cbn [read_until_done]. rewrite <- as_bytes_app. change [10] with (as_bytes [10]). rewrite <- as_bytes_app.
  assert (Hlast : from_utf8_lossy (as_bytes (((echo ++ START ++ out) ++ DONE ++ e) ++ [10])) = echo ++ START ++ out ++ DONE ++ e ++ [10]).
  { rewrite utf8_roundtrip; [by rewrite <- !app_assoc|]. apply Forall_app. split; [done|]. constructor; [left; lia|done]. }
  rewrite Hlast. replace (contains (echo ++ START ++ out ++ DONE ++ e ++ [10]) DONE) with true by (symmetry; apply contains_spec; exists (echo ++ START ++ out), (e ++ [10]); by rewrite <- !app_assoc).
  cbn [Z.eqb Pos.eqb andb orb]. rewrite Hlast. by apply cut_between.
Qed.

(** What the device is sent to keep ADB on: all of the commands in their order, the read-only mount last, or those up to the one that failed. *)
Theorem wingtech_sent {S} (run_command : rstr -> S -> result InstallError unit * S) (log : S -> list rstr) (revert : bool) s :
  (forall c s, log (snd (run_command c s)) = log s ++ [c]) ->
  let commands := if revert then wingtech_revert_commands else wingtech_install_commands in
  Forall (fun c => wingtech_command_is_safe_to_send c = true) commands /\ last commands = Some REMOUNT_RO /\
  match wingtech run_command revert s with
  | (Ok _, s') => log s' = log s ++ commands
  | (Err e, s') => exists k, (k < length commands)%nat /\ log s' = log s ++ take (k + 1) commands
  end.
Proof.
  intros Hlog commands. assert (Hsafe : forallb wingtech_command_is_safe_to_send commands = true) by (subst commands; destruct revert; vm_compute; reflexivity).
  split; [by apply Forall_forall; intros c Hc%list_elem_of_In; rewrite forallb_forall in Hsafe; apply Hsafe|]. split; [subst commands; by destruct revert|].
  unfold wingtech. fold commands. rewrite Hsafe. clear Hsafe. revert s. induction commands as [|c cs IH]; intros s; cbn [run_commands]; [cbn; by rewrite app_nil_r|].
  specialize (Hlog c s). destruct (run_command c s) as [[[]|e] s1] eqn:E; cbn [snd] in Hlog.
  - specialize (IH s1). destruct (run_commands run_command cs s1) as [[[]|e] s2].
    + by rewrite IH, Hlog, <- app_assoc.
    + destruct IH as (k & Hk & IH). exists (Datatypes.S k). cbn [length]. split; [lia|]. cbn [Nat.add take]. by rewrite IH, Hlog, <- app_assoc.
  - exists 0%nat. cbn [length]. split; [lia|]. by rewrite Hlog.
Qed.

(** A command that fails after the first leaves the root file system writable: nothing more is sent. *)
Theorem failure_leaves_writable {S} (run_command : rstr -> S -> result InstallError unit * S) (log : S -> list rstr) (revert : bool) s s1 s2 e :
  (forall c s, log (snd (run_command c s)) = log s ++ [c]) ->
  run_command REMOUNT_RW s = (Ok tt, s1) ->
  run_command (if revert then lit "rm -f " ++ WINGTECH_RC_LINK else lit "printf '" ++ wingtech_script ++ lit "' > " ++ WINGTECH_INIT_PATH) s1 = (Err e, s2) ->
  wingtech run_command revert s = (Err e, s2) /\ exists c, log s2 = log s ++ [REMOUNT_RW; c] /\ c <> REMOUNT_RO.
Proof.
  intros Hlog H1 H2. split.
  - unfold wingtech. assert (Hs : forallb wingtech_command_is_safe_to_send (if revert then wingtech_revert_commands else wingtech_install_commands) = true) by (destruct revert; vm_compute; reflexivity).
    rewrite Hs. destruct revert; cbn [wingtech_revert_commands wingtech_install_commands run_commands]; by rewrite H1, H2.
  - pose proof (Hlog REMOUNT_RW s) as L1. rewrite H1 in L1. cbn in L1. match type of H2 with run_command ?c _ = _ => exists c; pose proof (Hlog c s1) as L2 end.
    rewrite H2 in L2. cbn [snd] in L2. rewrite L2, L1, <- app_assoc. split; [done|]. destruct revert; vm_compute; discriminate.
Qed.

(** The device can take the password apart again: undoing the swaps and the encoding gives the time and the hash, whatever the secret. *)
Theorem password_read_back md5_hex base64_encode base64_decode password secret timestamp start now out n t :
  (forall m, base64_decode (base64_encode m) = Some m) ->
  encode_password md5_hex base64_encode password secret timestamp start now = Some out ->
  from_str_radix16 secret = Some n -> from_str_radix16 timestamp = Some t ->
  exists spliced, unscramble out n ≫= base64_decode = Some (lit "6137x" ++ fmt_hex (wrapu 32 (t + wrapu 32 (now - start))) ++ lit ":" ++ spliced) /\
    unscramble spliced n = Some (lit "a7" ++ md5_hex password).
Proof.
  intros Hb He Hn Ht. unfold encode_password, password_message in He. rewrite Hn, Ht in He. cbn [mbind option_bind] in He.
  destruct (apply_secret_swapping (lit "a7" ++ md5_hex password) n) as [spliced|] eqn:Es; cbn [mbind option_bind] in He; [|done].
  apply scramble_undone in He as [_ He]. apply scramble_undone in Es as [_ Es]. exists spliced. rewrite He. cbn [mbind option_bind]. by rewrite Hb.
Qed.
