(* ===== verification/DataDir.v ===== *)
(** * Where the recordings live on a unit ([installer/src/connection.rs])

    What an installation makes of the data directory: whose recordings it finds, how it moves them, and the link it leaves.  The shell's
    commands are what their manuals say ([DataDevice]), and any of them may fail. *)

From S2P Require Import Prelude RustStr Installer.

Local Open Scope Z_scope.

(** ** The commands *)

Definition LINK : rstr := lit "/data/rayhunter".
Definition test_d (path : rstr) : rstr := lit "test -d '" ++ path ++ lit "' && echo exists || echo missing".
Definition test_L (path : rstr) : rstr := lit "test -L '" ++ path ++ lit "' && echo yes || echo no".
Definition readlink_ (path : rstr) : rstr := lit "echo RL:$(readlink '" ++ path ++ lit "')".
Definition rm_link : rstr := lit "rm -f /data/rayhunter".
Definition stop_daemon : rstr := lit "/etc/init.d/rayhunter_daemon stop 2>/dev/null; true".
Definition mv (old new : rstr) : rstr := lit "mv '" ++ old ++ lit "' '" ++ new ++ lit "' && echo MV_OK".
Definition mkdir_p (path : rstr) : rstr := lit "mkdir -p '" ++ path ++ lit "'".
Definition mkdir_data : rstr := lit "mkdir -p /data".
Definition ln_sf (target : rstr) : rstr := lit "ln -sf '" ++ target ++ lit "' /data/rayhunter".

Section operations.
Context {S : Type} `{!DeviceConnection S}.

Definition dir_exists (path : rstr) : M S bool := answers (test_d path) (fun out => contains out (lit "exists")).
Definition is_symlink (path : rstr) : M S bool := answers (test_L path) (fun out => contains out (lit "yes")).
Definition readlink_output (output : rstr) : result InstallError rstr :=
  ok_or UnexpectedOutput (head (omap (fun line => strip_prefix (lit "RL:") (trim line)) (lines output))).
Definition readlink (path : rstr) : M S rstr := fun s =>
  match run_command (readlink_ path) s with (Ok output, s) => (readlink_output output, s) | (Err e, s) => (Err e, s) end.

(** Where the old data is, if anywhere; [None] when there is nothing to do. *)
Definition old_data_source (data_dir : rstr) : M S (option (option rstr)) :=
  link ← is_symlink LINK;
  if link : bool then
    current_target ← readlink LINK;
    if bool_decide (current_target = data_dir) then mret None
    else
      _ ← run_command rm_link;
      found ← dir_exists current_target;
      mret (Some (if found : bool then Some current_target else None))
  else
    found ← dir_exists LINK;
    if found : bool then
      both ← dir_exists data_dir;
      if both : bool then bail (lit "Both exist and are directories.") else mret (Some (Some LINK))
    else mret (Some None).

Definition migrate (data_dir : rstr) (old_source : option rstr) : M S unit :=
  match old_source with
  | Some old_source => fun s =>
      let s := snd (run_command stop_daemon s) in
      (mv_output ← run_command (mv old_source data_dir);
       if contains mv_output (lit "MV_OK") then mret tt else bail (lit "Failed to move data")) s
  | None => _ ← run_command (mkdir_p data_dir); mret tt
  end.
Definition make_link (data_dir : rstr) : M S unit :=
  _ ← run_command mkdir_data; _ ← run_command (ln_sf data_dir); mret tt.

Definition setup_data_directory (data_dir : rstr) : M S unit :=
  if bool_decide (data_dir = LINK) then bail (lit "data_dir must not be /data/rayhunter")
  else if contains data_dir (lit "'") then bail (lit "data_dir must not contain an apostrophe (')")
  else
    source ← old_data_source data_dir;
    match source with
    | None => mret tt
    | Some old_source => _ ← migrate data_dir old_source; make_link data_dir
    end.
End operations.

(** ** The device *)

Inductive Tree := Regular (bytes : list Z) | Folder (entries : list (rstr * Tree)).
Inductive Node := Link (target : rstr) | Real (t : Tree).

(** [q] is [p] or above it. *)
Definition is_above (q p : rstr) : bool := bool_decide (q = p) || starts_with p (q ++ [47]).
Definition apart (p q : rstr) : bool := negb (is_above p q) && negb (is_above q p).
(** The last name of a path. *)
Definition basename (path : rstr) : rstr := List.last (split_on 47 path) [].

(** A directory, links followed once. *)
Definition folder_in (node : rstr -> option Node) (p : rstr) : option (list (rstr * Tree)) :=
  match node p with
  | Some (Real (Folder es)) => Some es
  | Some (Link t) => match node t with Some (Real (Folder es)) => Some es | _ => None end
  | _ => None
  end.

(** What the commands say of the files and do to them when they can be run. *)
Class DataDevice (S : Type) `{!DeviceConnection S} := {
  node : S -> rstr -> option Node;
  law_test_L s p out s' : run_command (test_L p) s = (Ok out, s') ->
    node s' = node s /\ contains out (lit "yes") = match node s p with Some (Link _) => true | _ => false end;
  law_test_d s p out s' : run_command (test_d p) s = (Ok out, s') ->
    node s' = node s /\ contains out (lit "exists") = bool_decide (is_Some (folder_in (node s) p));
  law_readlink s p t out s' : run_command (readlink_ p) s = (Ok out, s') -> node s p = Some (Link t) -> node s' = node s /\ out = lit "RL:" ++ t ++ [10];
  law_rm s t out s' : run_command rm_link s = (Ok out, s') -> node s LINK = Some (Link t) ->
    node s' LINK = None /\ (forall q, q <> LINK -> node s' q = node s q);
  law_stop s : node (snd (run_command stop_daemon s)) = node s;
  law_mv s a b es out s' : run_command (mv a b) s = (Ok out, s') -> (39 ∉ a) -> (39 ∉ b) -> apart a b = true -> node s a = Some (Real (Folder es)) ->
    if contains out (lit "MV_OK") then
      node s' a = None /\ (forall q, apart q a = true -> apart q b = true -> node s' q = node s q) /\
      (node s b = None -> node s' b = Some (Real (Folder es))) /\
      (forall fs, node s b = Some (Real (Folder fs)) -> node s' b = Some (Real (Folder (fs ++ [(basename a, Folder es)]))))
    else node s' a = node s a /\ (forall q, apart q a = true -> apart q b = true -> node s' q = node s q);
  law_mkdir s p out s' : run_command (mkdir_p p) s = (Ok out, s') -> (39 ∉ p) ->
    (node s p = None -> node s' p = Some (Real (Folder []))) /\
    (forall q, node s q <> None \/ is_above q p = false -> node s' q = node s q);
  law_mkdir_data s out s' : run_command mkdir_data s = (Ok out, s') -> forall q, node s q <> None \/ is_above q (lit "/data") = false -> node s' q = node s q;
  law_ln s t out s' : run_command (ln_sf t) s = (Ok out, s') -> node s LINK = None -> (39 ∉ t) ->
    node s' LINK = Some (Link t) /\ (forall q, q <> LINK -> node s' q = node s q)
}.

(** ** Lemmas *)

Lemma apart_above p q : apart p q = true -> is_above p q = false /\ is_above q p = false.
Proof. unfold apart. by intros [?%negb_true_iff ?%negb_true_iff]%andb_true_iff. Qed.
Lemma apart_ne p q : apart p q = true -> p <> q.
Proof. intros [H _]%apart_above ->. unfold is_above in H. by rewrite bool_decide_eq_true_2 in H. Qed.
Lemma apart_sym p q : apart p q = apart q p.
Proof. unfold apart. apply andb_comm. Qed.
Lemma no_apostrophe p : 39 ∉ p -> contains p (lit "'") = false.
Proof. intros H. apply not_true_iff_false. rewrite contains_spec. intros (a & b & ->). apply H. set_solver. Qed.
Lemma readlink_reads t : 10 ∉ t -> trim t = t -> readlink_output (lit "RL:" ++ t ++ [10]) = Ok t.
Proof.
  intros Hn Ht. assert (Hlast : forall c u, lit "RL:" ++ t = u ++ [c] -> is_whitespace c = false).
  { intros c u E. destruct t as [|d t _] using rev_ind; [change (lit "RL:" ++ []) with ([82; 76] ++ [58]) in E; by apply app_inj_tail in E as [_ <-]|].
    rewrite app_assoc in E. apply app_inj_tail in E as [_ <-]. destruct (trim_by_spec is_whitespace (t ++ [d])) as (_ & _ & _ & _ & _ & Hl).
    apply (Hl d t). exact Ht. }
  unfold readlink_output, lines. rewrite app_assoc, split_inclusive_frame by (rewrite not_elem_of_app; split; [by apply (bool_decide_unpack _); vm_compute|done]).
  cbn [map]. rewrite piece_line.
  - cbn [omap list_omap]. assert (Htr : trim (lit "RL:" ++ t) = lit "RL:" ++ t) by (apply trim_by_id; [intros c u E; by injection E as <- _|exact Hlast]).
    by rewrite Htr, strip_prefix_app.
  - intros H. destruct (lit "RL:" ++ t) as [|d u _] using rev_ind; [done|]. rewrite last_snoc in H. injection H as ->. by specialize (Hlast 13 u eq_refl).
Qed.

Section lemmas.
Context {S : Type} `{!DeviceConnection S} `{!DataDevice S}.

(** No test fails to be run. *)
Definition tests_answer : Prop := forall (s : S) p, (exists out s', run_command (test_L p) s = (Ok out, s')) /\ (exists out s', run_command (test_d p) s = (Ok out, s')).
(** A path that can be put between apostrophes, and read back. *)
Definition plain_path (p : rstr) : Prop := (39 ∉ p) /\ (10 ∉ p) /\ trim p = p.

Lemma dir_exists_tells p s : tests_answer -> exists s', dir_exists p s = (Ok (bool_decide (is_Some (folder_in (node s) p))), s') /\ node s' = node s.
Proof.
  intros Ha. destruct (Ha s p) as [_ (out & s' & E)]. exists s'. unfold dir_exists, answers. rewrite E. by destruct (law_test_d _ _ _ _ E) as [-> ->].
Qed.
Lemma is_symlink_tells p s : tests_answer -> exists s', is_symlink p s = (Ok (match node s p with Some (Link _) => true | _ => false end), s') /\ node s' = node s.
Proof.
  intros Ha. destruct (Ha s p) as [(out & s' & E) _]. exists s'. unfold is_symlink, answers. rewrite E. by destruct (law_test_L _ _ _ _ E) as [-> ->].
Qed.

(** The link at the end. *)
Lemma make_link_ok data_dir s s' : 39 ∉ data_dir -> apart LINK data_dir = true -> node s LINK = None -> node s data_dir <> None ->
  make_link data_dir s = (Ok tt, s') -> node s' LINK = Some (Link data_dir) /\ node s' data_dir = node s data_dir.
Proof.
  intros Hq Hap HL Hd. unfold make_link, mbind, M_bind. destruct (run_command mkdir_data s) as [[o1|e] s1] eqn:E1; [|done].
  destruct (run_command (ln_sf data_dir) s1) as [[o2|e] s2] eqn:E2; [|done]. intros [= <-].
  pose proof (law_mkdir_data _ _ _ E1) as H1. destruct (law_ln _ _ _ _ E2) as [HL2 Hq2]; [rewrite H1, HL by (right; by vm_compute); done|done|].
  split; [done|]. rewrite Hq2 by (by apply not_eq_sym, apart_ne). by apply H1; left.
Qed.

(** The source that is found, and what finding it does. *)
Lemma source_link data_dir t s r s' : tests_answer -> node s LINK = Some (Link t) -> plain_path t -> t <> data_dir -> t <> LINK ->
  old_data_source data_dir s = (Ok r, s') ->
  r = Some (if bool_decide (is_Some (folder_in (node s') t)) then Some t else None) /\ node s' LINK = None /\ (forall q, q <> LINK -> node s' q = node s q).
Proof.
  intros Ha HL (Hq & Hn & Ht) Hd Htl. unfold old_data_source, mbind, M_bind. destruct (is_symlink_tells LINK s Ha) as (s1 & -> & N1). rewrite HL. unfold readlink.
  destruct (run_command (readlink_ LINK) s1) as [[out|e] s2] eqn:E2; [|done].
  destruct (law_readlink _ _ t _ _ E2) as [N2 ->]; [by rewrite N1|]. rewrite readlink_reads, bool_decide_eq_false_2 by done.
  destruct (run_command rm_link s2) as [[o3|e] s3] eqn:E3; [|done]. destruct (law_rm _ t _ _ E3) as [L3 N3]; [by rewrite N2, N1|].
  destruct (dir_exists_tells t s3 Ha) as (s4 & -> & N4). cbn [mret M_ret]. intros [= <- <-]. rewrite N4. split_and!; [by case_bool_decide|done|].
  intros q Hq'. by rewrite N3, N2, N1.
Qed.
Lemma source_real data_dir es s r s' : tests_answer -> node s LINK = Some (Real (Folder es)) ->
  old_data_source data_dir s = (Ok r, s') -> r = Some (Some LINK) /\ node s' = node s.
Proof.
  intros Ha HL. unfold old_data_source, mbind, M_bind. destruct (is_symlink_tells LINK s Ha) as (s1 & -> & N1). rewrite HL.
  destruct (dir_exists_tells LINK s1 Ha) as (s2 & -> & N2). rewrite N1, bool_decide_eq_true_2 by (exists es; unfold folder_in; by rewrite HL).
  destruct (dir_exists_tells data_dir s2 Ha) as (s3 & -> & N3). case_bool_decide; [done|]. intros [= <- <-]. split; [done|]. by rewrite N3, N2, N1.
Qed.
Lemma migrate_moves data_dir a es s s' : (39 ∉ a) -> (39 ∉ data_dir) -> apart a data_dir = true -> node s a = Some (Real (Folder es)) ->
  migrate data_dir (Some a) s = (Ok tt, s') ->
  node s' a = None /\ (forall q, apart q a = true -> apart q data_dir = true -> node s' q = node s q) /\
  (node s data_dir = None -> node s' data_dir = Some (Real (Folder es))) /\
  (forall fs, node s data_dir = Some (Real (Folder fs)) -> node s' data_dir = Some (Real (Folder (fs ++ [(basename a, Folder es)])))).
Proof.
  intros Ha Hd Hap Hn. unfold migrate, mbind, M_bind. pose proof (law_stop s) as N0. set (s0 := snd (run_command stop_daemon s)) in *.
  destruct (run_command (mv a data_dir) s0) as [[out|e] s1] eqn:E1; [|done]. pose proof (law_mv _ _ _ es _ _ E1 Ha Hd Hap) as H. rewrite N0 in H. specialize (H Hn).
  destruct (contains out (lit "MV_OK")); [|done]. intros [= <-]. exact H.
Qed.
End lemmas.

(** ** What the installer promises *)

Section properties.
Context {S : Type} `{!DeviceConnection S} `{!DataDevice S}.

Lemma setup_runs data_dir s s' : data_dir <> LINK -> (39 ∉ data_dir) -> setup_data_directory data_dir s = (Ok tt, s') ->
  exists r s1, old_data_source data_dir s = (Ok r, s1) /\
    match r with None => s' = s1 | Some old => exists s2, migrate data_dir old s1 = (Ok tt, s2) /\ make_link data_dir s2 = (Ok tt, s') end.
Proof.
  intros Hne Hq. unfold setup_data_directory. rewrite bool_decide_eq_false_2, no_apostrophe by done. unfold mbind, M_bind.
  destruct (old_data_source data_dir s) as [[[old|]|e] s1]; [| |done].
  - intros H. destruct (migrate data_dir old s1) as [[[]|e] s2] eqn:E; [|done]. exists (Some old), s1. split; [done|]. by exists s2.
  - intros [= <-]. by exists None, s1.
Qed.


(** Where nothing is to be moved there is a directory behind the link at the end; a link that is right already is left alone. *)
Theorem nothing_moved data_dir s s' :
  tests_answer (S := S) -> plain_path data_dir -> apart LINK data_dir = true -> setup_data_directory data_dir s = (Ok tt, s') ->
  (node s LINK = None -> node s data_dir = None -> folder_in (node s') LINK = Some []) /\
  (node s LINK = Some (Link data_dir) -> node s' = node s).
Proof.
  intros Ha (Hq & Hn & Ht) Hap H. destruct (setup_runs data_dir s s') as (r & s1 & Er & Hr); [by apply not_eq_sym, apart_ne|done|done|]. split.
  - intros HL Hd. unfold old_data_source, mbind, M_bind in Er. destruct (is_symlink_tells LINK s Ha) as (s2 & E2 & N2). rewrite E2, HL in Er.
    destruct (dir_exists_tells LINK s2 Ha) as (s3 & E3 & N3). rewrite E3, N2 in Er. rewrite bool_decide_eq_false_2 in Er by (unfold folder_in; rewrite HL; by intros [? ?]).
    injection Er as <- <-. destruct Hr as (s4 & Em & El). unfold migrate, mbind, M_bind in Em. destruct (run_command (mkdir_p data_dir) s3) as [[out|e] s5] eqn:E5; [|done].
    injection Em as <-. destruct (law_mkdir _ _ _ _ E5 Hq) as [K1 K2]. rewrite N3, N2 in K1, K2. specialize (K1 Hd). destruct (apart_above _ _ Hap) as [Hab _].
    destruct (make_link_ok data_dir s5 s') as [L1 L2]; [done|done|by rewrite K2 by (by right)|by rewrite K1|done|]. unfold folder_in. by rewrite L1, L2, K1.
  - intros HL. unfold old_data_source, mbind, M_bind in Er. destruct (is_symlink_tells LINK s Ha) as (s2 & E2 & N2). rewrite E2, HL in Er. unfold readlink in Er.
    destruct (run_command (readlink_ LINK) s2) as [[out|e] s3] eqn:E3; [|done]. destruct (law_readlink _ _ data_dir _ _ E3) as [N3 ->]; [by rewrite N2|].
    rewrite readlink_reads, bool_decide_eq_true_2 in Er by done. injection Er as <- <-. subst s'. by rewrite N3.
Qed.

(** A link to elsewhere, and a directory of the new name: the set-up ends well, and the recordings are inside it under their old
    directory's name, where nothing looks for them. *)
Theorem recordings_nested data_dir old es fs s s' :
  tests_answer (S := S) -> (39 ∉ data_dir) -> apart LINK data_dir = true -> node s data_dir = Some (Real (Folder fs)) ->
  node s LINK = Some (Link old) -> node s old = Some (Real (Folder es)) -> plain_path old -> apart LINK old = true -> apart old data_dir = true ->
  setup_data_directory data_dir s = (Ok tt, s') ->
  folder_in (node s') LINK = Some (fs ++ [(basename old, Folder es)]).
Proof.
  intros Ha Hq Hap Hd HL Ho Hp Hlo Hod H. destruct (setup_runs data_dir s s') as (r & s1 & Er & Hr); [by apply not_eq_sym, apart_ne|done|done|].
  destruct (source_link data_dir old s r s1 Ha HL Hp) as (-> & N1 & N2); [by apply apart_ne|by apply not_eq_sym, apart_ne|done|].
  assert (Ho1 : node s1 old = Some (Real (Folder es))) by (by rewrite N2 by (by apply not_eq_sym, apart_ne)).
  rewrite bool_decide_eq_true_2 in Hr by (exists es; unfold folder_in; by rewrite Ho1). destruct Hr as (s2 & Em & El).
  destruct (migrate_moves data_dir old es s1 s2) as (_ & M2 & _ & M4); [apply Hp|done..|].
  rewrite (N2 data_dir) in M4 by (by apply not_eq_sym, apart_ne). specialize (M4 fs Hd).
  destruct (make_link_ok data_dir s2 s') as [L1 L2]; [done|done|by rewrite M2|by rewrite M4|done|]. unfold folder_in. by rewrite L1, L2, M4.
Qed.

(** A move that fails leaves no link: the recordings are still in their directory, and nothing leads there any more. *)
Theorem failed_move_strands data_dir old es s :
  tests_answer (S := S) -> (39 ∉ data_dir) -> apart LINK data_dir = true -> old <> data_dir ->
  node s LINK = Some (Link old) -> node s old = Some (Real (Folder es)) -> plain_path old -> apart LINK old = true -> apart old data_dir = true ->
  (forall s out s', run_command (mv old data_dir) s = (Ok out, s') -> contains out (lit "MV_OK") = false) ->
  forall s1 r, old_data_source data_dir s = (Ok r, s1) -> forall out s2, run_command (mv old data_dir) (snd (run_command stop_daemon s1)) = (Ok out, s2) ->
  setup_data_directory data_dir s = (Err (Bail (lit "Failed to move data")), s2) /\ node s2 LINK = None /\ node s2 old = Some (Real (Folder es)).
Proof.
  intros Ha Hq Hap Hne HL Ho Hp Hlo Hod Hmv s1 r Er out s2 Em.
  destruct (source_link data_dir old s r s1 Ha HL Hp Hne) as (-> & N1 & N2); [by apply not_eq_sym, apart_ne|done|].
  assert (Ho1 : node s1 old = Some (Real (Folder es))) by (by rewrite N2 by (by apply not_eq_sym, apart_ne)).
  rewrite bool_decide_eq_true_2 in Er by (exists es; unfold folder_in; by rewrite Ho1). pose proof (Hmv _ _ _ Em) as Hout.
  pose proof (law_mv _ _ _ es _ _ Em ltac:(apply Hp) Hq Hod) as H. rewrite Hout, law_stop in H. destruct (H Ho1) as [H1 H2]. split; [|split].
  - unfold setup_data_directory. rewrite bool_decide_eq_false_2, no_apostrophe by (try done; by apply not_eq_sym, apart_ne).
    unfold mbind, M_bind. rewrite Er. unfold migrate, mbind, M_bind. by rewrite Em, Hout.
  - by rewrite H2.
  - by rewrite H1.
Qed.
End properties.

(** ** A device *)

Definition Files : Type := rstr -> option Node.
Definition upd (p : rstr) (n : option Node) (s : Files) : Files := fun q => if decide (q = p) then n else s q.
Definition between (a b s : rstr) : option rstr := strip_prefix a s ≫= strip_suffix b.
Definition mv_between (s : rstr) : option (rstr * rstr) := between (lit "mv '") (lit "' && echo MV_OK") s ≫= split_once (lit "' '").
Definition shell (command : rstr) (s : Files) : result InstallError rstr * Files :=
  match between (lit "test -L '") (lit "' && echo yes || echo no") command with
  | Some p => (Ok (match s p with Some (Link _) => lit "yes" | _ => lit "no" end), s)
  | None =>
  match between (lit "test -d '") (lit "' && echo exists || echo missing") command with
  | Some p => (Ok (if bool_decide (is_Some (folder_in s p)) then lit "exists" else lit "missing"), s)
  | None =>
  match between (lit "echo RL:$(readlink '") (lit "')") command with
  | Some p => (Ok (lit "RL:" ++ match s p with Some (Link t) => t | _ => [] end ++ [10]), s)
  | None =>
  match mv_between command with
  | Some (a, b) =>
      match s a, s b with
      | Some (Real (Folder es)), None => (Ok (lit "MV_OK"), upd b (Some (Real (Folder es))) (upd a None s))
      | Some (Real (Folder es)), Some (Real (Folder fs)) => (Ok (lit "MV_OK"), upd b (Some (Real (Folder (fs ++ [(basename a, Folder es)])))) (upd a None s))
      | _, _ => (Ok [], s)
      end
  | None =>
  match between (lit "mkdir -p '") (lit "'") command with
  | Some p => (Ok [], match s p with None => upd p (Some (Real (Folder []))) s | Some _ => s end)
  | None =>
  match between (lit "ln -sf '") (lit "' /data/rayhunter") command with
  | Some t => (Ok [], match s LINK with None => upd LINK (Some (Link t)) s | Some _ => s end)
  | None =>
      if bool_decide (command = rm_link) then (Ok [], match s LINK with Some (Link _) => upd LINK None s | _ => s end)
      else (Ok [], s)
  end end end end end end.
#[export] Instance shell_device : DeviceConnection Files := {| run_command := shell; write_file := fun _ _ s => (Err CommandFailed, s) |}.

Lemma strip_prefix_clash a b s : strip_prefix a b = None -> strip_prefix b a = None -> strip_prefix a (b ++ s) = None.
Proof. revert b. induction a as [|x a IH]; intros [|y b]; cbn; [done|done|done|]. rewrite Z.eqb_sym. destruct (y =? x); [apply IH|done]. Qed.
Lemma between_ok a b s : between a b (a ++ s ++ b) = Some s.
Proof. unfold between. rewrite strip_prefix_app. apply strip_suffix_app. Qed.
Lemma between_clash a b c s : strip_prefix a c = None -> strip_prefix c a = None -> between a b (c ++ s) = None.
Proof. intros H1 H2. unfold between. by rewrite strip_prefix_clash. Qed.
Lemma mv_clash c s : strip_prefix (lit "mv '") c = None -> strip_prefix c (lit "mv '") = None -> mv_between (c ++ s) = None.
Proof. intros H1 H2. unfold mv_between. by rewrite between_clash. Qed.
Lemma split_once_pat (a b : rstr) : (39 ∉ a) -> split_once (lit "' '") (a ++ lit "' '" ++ b) = Some (a, b).
Proof.
  induction a as [|x a IH]; intros H; [change (lit "' '") with [39; 32; 39]; cbn; done|]. apply not_elem_of_cons in H as [Hx Ha].
  cbn [app split_once]. assert (Hn : strip_prefix (lit "' '") (x :: a ++ lit "' '" ++ b) = None) by (change (lit "' '") with [39; 32; 39]; cbn [strip_prefix]; by rewrite (proj2 (Z.eqb_neq 39 x) Hx)).
  by rewrite Hn, IH.
Qed.
Lemma mv_between_ok (a b : rstr) : (39 ∉ a) -> mv_between (mv a b) = Some (a, b).
Proof.
  intros Ha. unfold mv_between, mv. replace (lit "mv '" ++ a ++ lit "' '" ++ b ++ lit "' && echo MV_OK") with (lit "mv '" ++ (a ++ lit "' '" ++ b) ++ lit "' && echo MV_OK") by (by rewrite <- !app_assoc).
  rewrite between_ok. by apply split_once_pat.
Qed.
Lemma upd_eq p n s : upd p n s p = n.
Proof. unfold upd. by rewrite decide_True. Qed.
Lemma upd_ne p n s q : q <> p -> upd p n s q = s q.
Proof. intros H. unfold upd. by rewrite decide_False. Qed.

Ltac clashes := repeat first [rewrite between_clash by (vm_compute; reflexivity) | rewrite mv_clash by (vm_compute; reflexivity)].
Lemma shell_test_L p s : shell (test_L p) s = (Ok (match s p with Some (Link _) => lit "yes" | _ => lit "no" end), s).
Proof. unfold shell, test_L. by rewrite between_ok. Qed.
Lemma shell_test_d p s : shell (test_d p) s = (Ok (if bool_decide (is_Some (folder_in s p)) then lit "exists" else lit "missing"), s).
Proof. unfold shell, test_d. clashes. by rewrite between_ok. Qed.
Lemma shell_readlink p s : shell (readlink_ p) s = (Ok (lit "RL:" ++ match s p with Some (Link t) => t | _ => [] end ++ [10]), s).
Proof. unfold shell, readlink_. clashes. by rewrite between_ok. Qed.
Lemma shell_mv a b s es : (39 ∉ a) -> s a = Some (Real (Folder es)) -> shell (mv a b) s =
  match s b with
  | None => (Ok (lit "MV_OK"), upd b (Some (Real (Folder es))) (upd a None s))
  | Some (Real (Folder fs)) => (Ok (lit "MV_OK"), upd b (Some (Real (Folder (fs ++ [(basename a, Folder es)])))) (upd a None s))
  | _ => (Ok [], s)
  end.
Proof.
  intros Ha Hs. unfold shell. assert (H : forall x y, strip_prefix x (lit "mv '") = None -> strip_prefix (lit "mv '") x = None -> between x y (mv a b) = None) by (intros x y; apply between_clash).
  rewrite !H by (vm_compute; reflexivity). by rewrite mv_between_ok, Hs.
Qed.
Lemma shell_mkdir p s : shell (mkdir_p p) s = (Ok [], match s p with None => upd p (Some (Real (Folder []))) s | Some _ => s end).
Proof. unfold shell, mkdir_p. clashes. by rewrite between_ok. Qed.
Lemma shell_ln t s : shell (ln_sf t) s = (Ok [], match s LINK with None => upd LINK (Some (Link t)) s | Some _ => s end).
Proof. unfold shell, ln_sf. clashes. by rewrite between_ok. Qed.

Lemma no_answer : contains [] (lit "MV_OK") = false.
Proof. vm_compute. reflexivity. Qed.
Lemma answer_ok : contains (lit "MV_OK") (lit "MV_OK") = true.
Proof. vm_compute. reflexivity. Qed.

#[export] Instance shell_laws : DataDevice Files.
Proof.
  refine {| node := fun s : Files => s |}.
  - intros s p out s'. cbn [run_command shell_device]. rewrite shell_test_L. intros [= <- <-]. split; [done|]. by destruct (s p) as [[]|]; vm_compute.
  - intros s p out s'. cbn [run_command shell_device]. rewrite shell_test_d. intros [= <- <-]. split; [done|]. by case_bool_decide; vm_compute.
  - intros s p t out s'. cbn [run_command shell_device]. rewrite shell_readlink. intros [= <- <-] Ht. by rewrite Ht.
  - intros s t out s' H Ht. assert (E : shell rm_link s = (Ok [], match s LINK with Some (Link _) => upd LINK None s | _ => s end)) by (vm_compute; reflexivity).
    cbn [run_command shell_device] in H. rewrite E, Ht in H. injection H as <- <-. split; [apply upd_eq|intros q Hq; by apply upd_ne].
  - intros s. reflexivity.
  - intros s a b es out s' H Ha Hb Hap Hs. cbn [run_command shell_device] in H. rewrite (shell_mv a b s es Ha Hs) in H. pose proof (apart_ne _ _ Hap) as Hne.
    destruct (s b) as [[t|[bytes|fs]]|] eqn:Eb; injection H as <- <-.
    + rewrite no_answer. done.
    + rewrite no_answer. done.
    + rewrite answer_ok. rewrite upd_ne, !upd_eq by done.
      split_and!; [done| |done|by intros fs' [= <-]]. intros q H1%apart_ne H2%apart_ne. by rewrite !upd_ne.
    + rewrite answer_ok. rewrite upd_ne, !upd_eq by done.
      split_and!; [done| |done|done]. intros q H1%apart_ne H2%apart_ne. by rewrite !upd_ne.
  - intros s p out s'. cbn [run_command shell_device]. rewrite shell_mkdir. intros [= <- <-] _. split; [intros ->; apply upd_eq|].
    intros q Hq. destruct (s p) eqn:Ep; [done|]. apply upd_ne. intros ->. destruct Hq as [Hq|Hq]; [done|]. unfold is_above in Hq. by rewrite bool_decide_eq_true_2 in Hq.
  - intros s out s' H q _. cbn [run_command shell_device] in H. assert (E : shell mkdir_data s = (Ok [], s)) by (vm_compute; reflexivity). rewrite E in H. by injection H as _ <-.
  - intros s t out s'. cbn [run_command shell_device]. rewrite shell_ln. intros [= <- <-] HL _. rewrite HL. split; [apply upd_eq|intros q Hq; by apply upd_ne].
Defined.

(** A unit whose recordings are behind a link. *)
Definition example_unit : Files := fun p =>
  if bool_decide (p = LINK) then Some (Link (lit "/cache/rayhunter-data"))
  else if bool_decide (p = lit "/cache/rayhunter-data") then Some (Real (Folder [(lit "config.toml", Regular [1])]))
  else if bool_decide (p = lit "/media/rayhunter-data") then Some (Real (Folder [(lit "old", Regular [2])]))
  else None.
Lemma shell_answers : tests_answer (S := Files).
Proof. intros s p. split; eexists _, s; [apply shell_test_L | apply shell_test_d]. Qed.
Lemma recordings_nested_witness :
  exists s', setup_data_directory (S := Files) (lit "/media/rayhunter-data") example_unit = (Ok tt, s') /\
    folder_in s' LINK = Some [(lit "old", Regular [2]); (lit "rayhunter-data", Folder [(lit "config.toml", Regular [1])])].
Proof.
  pose proof (recordings_nested (S := Files) (lit "/media/rayhunter-data") (lit "/cache/rayhunter-data") [(lit "config.toml", Regular [1])] [(lit "old", Regular [2])] example_unit
    (snd (setup_data_directory (S := Files) (lit "/media/rayhunter-data") example_unit)) shell_answers) as H.
  eexists. split; [|etransitivity; [apply H|vm_compute; reflexivity]]; try (vm_compute; reflexivity).
  - apply (bool_decide_unpack _). vm_compute. exact I.
  - split; [|split]; [apply (bool_decide_unpack _); vm_compute; exact I..|vm_compute; reflexivity].
Defined.
